(* ===== verification/_CoqProject ===== *)
-Q . S2P
Prelude.v
GoLib.v
Float64.v
GoTime.v
GoNet.v
GoPath.v
Alert.v
Debver.v
ConfigTypes.v
Schedule.v
Scheduler.v
Curve.v
ConfigFields.v
ConfigWeb.v
Ceiling.v
ConfigChannels.v
ConfigParse.v
ConfigValid.v
ConfigRules.v
ConfigEdit.v
ConfigTables.v
LogFile.v
WebTable.v
WebSession.v
WebLimit.v
WebToken.v
WebTokenRate.v
WebPassword.v
WebGuard.v
WebAccount.v
History.v
Sanitize.v
ControlTypes.v
Hwmon.v
N5Driver.v
HwStatus.v
ControlAlert.v
ControlSense.v
Sensor.v
Profile.v
ControlTarget.v
ControlWrite.v
ControlApi.v
ControlDemo.v
ControlFrame.v
ControlStep.v
ControlPhase.v
ControlSafety.v
ControlBounds.v
ControlLoop.v
ControlReach.v
ControlRules.v
ControlHook.v
ControlLost.v
ControlTrace.v
Daemon.v
WebRedact.v
Presets.v
ConfigFiles.v
PresetStore.v
Stores.v
Verdict.v
Handback.v
Mapping.v
Replay.v
Runner.v
Sim.v
RunnerSafe.v
TlsCert.v
TlsManager.v
WebTls.v
TlsRules.v
Checks.v
Smbios.v
Serve.v
WebApi.v
WebConfig.v
Setup.v
Bundle.v
Panel.v
