(* ===== verification/Prelude.v ===== *)
(** * n5-fangov: a verification development

    n5-fangov is a daemon that drives the fans of the Minisforum N5 Pro (and of boards
    with a plain hwmon chip) from temperature curves, with a web dashboard, presets,
    schedules, alerts and a built-in test of the embedded controller.  This library
    models its Go code as Rocq functions and proves what makes it safe.  Paths below are
    under src/.

    ** How the model reads

    Every definition keeps the name of the Go function it translates, with a dot of a
    method dropped (or a suffix where Rocq has the name already).  State is passed
    explicitly: [M S A] is a computation over a state [S], with [let* x := m in k].  A
    [time.Duration] and a clock reading are nanoseconds in Z; a duty, a pwm number and a
    counter are Z; [float64] is the rational it denotes, with every operation rounded as
    IEEE 754 binary64 does ([Float64]), and NaN is None.  Machine width is written out
    where it can matter (64-bit wrap of durations, [in_int64]); counters that grow by one
    per cycle or per request are unbounded.  Strings are byte strings.  An error is a
    constructor or None; log lines and reasons are kept as format and arguments, never
    rendered.  Code outside src/ is a parameter, mostly a type class: the device and the
    sensors ([Device], [Sensors], [Host]: what sysfs and the clock answer), the file
    system ([Os], [Files] with [FilesLaws]), TOML decoding ([Toml], a [Decode] argument)
    and encoding ([Encode]; where a theorem reads back what was written, the laws [Encoder]
    and [TlsLines] of the library, each with an instance), [net/url] ([Url]), the time zone ([Zone]), cryptography ([Crypto], [Pki]), route matching
    ([Mux]) and the order of Go's map iteration ([MapOrder]).  Where one part of the
    program promises something to another there is a class with laws ([AccountLaws],
    [Machine], [Keeps]) and an instance that discharges it ([Stores], [RunnerSafe]).

    ** The files

    Foundations.  [Prelude]: record update, the state monad, the Hoare triples
    [triple], [preserves], [yields] with the hint databases that drive them.  [GoLib],
    [GoNet], [GoPath], [GoTime]: the parts of Go's library the program uses.  [Float64]: binary64.

    Configuration (internal/config).  [ConfigTypes]: sections, defaults, limits.
    [ConfigFields], [ConfigWeb], [ConfigChannels], [ConfigParse]: the parser, key by
    key.  [ConfigValid], [ConfigRules]: every configuration it returns is well-formed;
    fail-closed authentication; what is written is read back.  [ConfigEdit],
    [ConfigTables]: SetKey and ReplaceChannels on the lines of the file.
    [ConfigFiles]: Marshal, saving, the preset directory, the built-in presets.

    Regulation (internal/control, internal/sensor).  [Curve]: interpolation and
    slewing.  [Ceiling]: the limits no configuration raises.  [Sanitize]: corrections of
    the channel list.  [ControlTypes]: the state of the controller and its interfaces.
    [ControlAlert], [ControlSense], [ControlTarget], [ControlWrite]: one cycle - alerts
    and warnings, reading, deciding, writing with failsafe and device loss.
    [ControlApi]: New, overrides, Apply, Stop, Run, the stand-alone Failsafe.
    [History]: the tiers behind the charts.  [Sensor]: parsing and reading sensor ids.
    Theorems: [ControlFrame], [ControlStep], [ControlPhase] (what a phase does to each
    channel), [ControlSafety] (what every cycle guarantees), [ControlBounds],
    [ControlReach] (duties stay duties), [ControlLoop] (loop, Stop, API and hooks as
    interleaved steps), [ControlRules], [ControlHook] (a channel over many cycles),
    [ControlLost] (a lost device is given up), [ControlTrace] (spacing of alerts, silence
    of a dry run).  [ControlDemo]: a concrete world for witnesses.  [Daemon]: parser and
    controller together.

    Hardware (internal/hwmon, n5driver, hwstatus, profile, debver).  [Hwmon],
    [N5Driver], [HwStatus], [Profile], [Debver].

    Schedules and alerts.  [Schedule] (internal/schedule), [Scheduler]
    (cmd/n5-fangov/scheduler.go), [Alert] (internal/alert): choice of the sink and history.
    [Panel]: delivery, the notification templates, the alert manager, its endpoints.

    Web (internal/web).  [WebTable], [WebSession], [WebLimit], [WebToken],
    [WebTokenRate], [WebPassword]: the stores and limits behind authentication.
    [WebGuard]: who may do what on which route.  [WebAccount]: login, account, tokens.
    [WebRedact]: the password hash in texts sent to the browser.  [WebApi]: overrides, state,
    history, probe, pages.  [WebConfig]: reading and writing the configuration; the preset
    endpoints and the editor's channels.

    Stores (cmd/n5-fangov).  [Presets]: merging a preset by pwm.  [PresetStore]: the
    store behind /api/presets.  [Stores]: account, dashboard, alert settings and editor
    as read-modify-writes of one file, with the pinned TLS keys, and the reload hook.

    Certificates (internal/tlscert, cmd/n5-fangov/tlsmgr.go, internal/web/tls.go).
    [TlsCert]: what the program gets from crypto/tls, x509 and pem, as the class [Pki] with
    laws; the automatic pair, checking an uploaded one, warnings.
    [TlsManager]: the certificate the listener serves, its files and its three keys in the
    configuration.  [WebTls]: the endpoints, rejected handshakes.  [TlsRules]: the theorems, and a
    disk and keys that obey the laws.

    Log file (internal/logfile).  [LogFile]: the rotating writer and its readers.

    System checks (cmd/n5-fangov/check.go, wiring_health.go, internal/sysinfo).
    [Checks]: does every kernel that may boot carry the driver module; the
    self-check before a start and on the health page.  [Smbios]: the memory modules of the
    firmware's table, and the names lspci prints.

    Whole files (internal/fsutil, cmd/n5-fangov/bundle.go).  [Bundle]: the atomic writer on
    system calls that fail and a machine that stops; export and import of the settings.

    Setting up (cmd/n5-fangov/setup.go, prompt.go).  [Setup]: the dialogue, the configuration
    written over an existing one, the password.

    Start and end (cmd/n5-fangov/serve.go, failsafe.go).  [Serve]: the lock of the writers,
    the listener and its TLS, watchdog, hardware status record, the failsafe command.

    Tests of the embedded controller (internal/validate).  [Verdict], [Handback],
    [Mapping]: the verdicts as functions of the recorded series.  [Replay]: the same from
    old logs.  [Runner]: the procedure over an interface for the machine.  [Sim]: the
    simulated controller, an instance of it.  [RunnerSafe]: what a run may do
    to the machine and in which state it leaves it.

    ** How the parts interact

    The parser's result is the controller's input: [config_valid] is what [ConfigValid]
    proves of every text, and [Daemon] derives from it the invariant [cfg_ok] the
    controller's theorems ask for, so [any_file_safe] has no hypothesis on the file.  A
    cycle calls sensors and device through the classes of [ControlTypes]; [ControlLoop]
    cuts the cycle where the code takes its mutexes, and a run is any interleaving of the
    loop, Stop, API calls, hook processes and changes of the outside world.  The web
    guard uses sessions, tokens and limits; [WebAccount] works against [AccountLaws],
    which [Stores] proves of the account store.  The certificate manager's mode and paths
    are what [pinConfig] of [Stores] keeps in every text that is written.
    A preset is merged by [Presets], written
    by [PresetStore], read back by the parser and handed to [Reload]; the scheduler takes
    the store as its [apply].  The test runner works against [Env], whose laws [Machine]
    and [Keeps] are proved of [Sim].

    ** What the theorems show

    Safety of the fans: full speed at the critical temperature, at a ceiling and on a
    stall in every cycle; duties always in 0..255; nothing written after Stop; a lost
    device is noticed in time; the emergency hook fires once; the failsafe accounts for
    every fan; a test run never writes a duty below 100 and leaves every channel in its stop
    state or accounted for.
    Regulation: the curve is monotone and exact at its points in float64, slewing
    terminates, hysteresis and stall detection as specified over whole runs.
    Configuration: no invalid value survives the parser, authentication fails closed, the
    editors change what they are asked to and nothing else, presets change their own
    channels only.  Web: the guard's decision table, sessions as a map with expiry, bounds
    on guessing and on requests, the hash never leaves, a write takes effect as sent, with
    the certificate manager's keys pinned, or not at all, composed presets are saved with the
    values sent, no plain HTTP on the network.  Stores, certificates and
    logs: files agree with memory after every answer, an upload is what a restart serves
    and a refused one changes nothing, the log loses only its oldest lines.  Setup: what is
    read back opens no dashboard to the network, and the old file is kept as a backup.  Bundle: files replaced as a whole, whatever fails and whenever the
    machine stops.  Checks: which findings keep the daemon from starting,
    which kernels raise an alert; a firmware table is read as it was written.  Test
    verdicts: each verdict holds exactly when the data meet the written specification.
    The findings of the manifest name the places where the code does not do what it means
    to; each is a theorem or an example here.

    ** Fuel and bounds

    Structural recursion is used wherever the code loops over a slice.  Fuel appears in:
    text scanners (the length of the text is enough, since every step consumes a byte);
    [next_name] (the number of names taken plus one, by the pigeonhole principle,
    [numbered_free]); a question on the terminal (the bytes still to be read, [rounds_step]);
    [run_loop] (the number of cycles a caller asks for: theorems on
    termination state how many are enough, the others hold for every number);
    [WaitRegister] and the failsafe's poll (the time limit divided by the poll);
    printing numbers (the binary logarithm).

    ** Not modelled, and why

    - Goroutines are interleaved at critical sections; a data race inside a section is
      not expressible.  Contexts and signals are answers of the interfaces.
    - TrimSpace and ToLower are those of the ASCII range.
    - Rendering: log texts, JSON, HTML, the OpenAPI document, CLI output and prompts.
    - HTTP transport and reading of request bodies, what happens inside a TLS handshake or
      an X.509 parser, the unix socket (internal/ipc), sd_notify,
      delivery of alerts by perl, mail or HTTP.
    - The rest of the system inventory (internal/sysinfo: reading /proc and /sys, running
      lspci) and the bundles and reports built from it.
    - The commands of cmd/n5-fangov that only call the parts above and print.
    - Outside [Bundle] a write with fsutil.WriteAtomic is one operation that succeeds or
      leaves the file as it was: what [write_atomic] proves, up to a leftover temporary file. *)
From stdpp Require Import base gmap strings list fin_maps.
From Stdlib Require Import ZArith Lia.

Declare Scope go_scope.
Delimit Scope go_scope with go.
Open Scope Z_scope.

(** ** Functional record update

    [r <| p := v |>] is the record [r] with field [p] replaced.  A record type
    takes part by giving its eta expansion ([Eta]); the setter of a projection
    is then derived by unification, so no setter is written by hand. *)
Class Eta (R : Type) := eta : R -> R.
Class Upd {R T : Type} (p : R -> T) := upd : (T -> T) -> R -> R.
#[global] Arguments upd {R T} p {Upd} _ _.

Ltac derive_upd p :=
  let R := match type of p with ?R -> _ => R end in
  let inst := constr:(_ : Eta R) in
  let f := fresh "f" in
  let r := fresh "r" in
  unfold Upd; intros f r;
  let h := eval hnf in (inst r) in
  let g := eval pattern (p r) in h in
  match g with
  | ?k _ => let b := eval cbv beta in (k (f (p r))) in exact b
  end.
#[export] Hint Extern 1 (Upd ?p) => derive_upd p : typeclass_instances.

Notation "r <| p := v |>" := (upd p (fun _ => v) r)
  (at level 1, left associativity, format "r <| p  :=  v |>").

(** ** A state monad

    [M S A] is a computation over a state [S]; the loops of the Go code over a
    slice of pointers are [mapM] (every element is visited in order and
    replaced by the value the body computes for it). *)
Definition M (S A : Type) : Type := S -> A * S.
Definition ret {S A} (a : A) : M S A := fun s => (a, s).
Definition bind {S A B} (m : M S A) (k : A -> M S B) : M S B :=
  fun s => let '(a, s1) := m s in k a s1.
Definition get {S} : M S S := fun s => (s, s).
Definition modify {S} (f : S -> S) : M S unit := fun s => (tt, f s).
Definition gets {S A} (f : S -> A) : M S A := fun s => (f s, s).

Notation "'let*' x ':=' m 'in' k" := (bind m (fun x => k))
  (at level 10, x pattern, m at level 100, k at level 200) : go_scope.
Notation "m ;;; k" := (bind m (fun _ => k))
  (at level 199, right associativity) : go_scope.
Open Scope go_scope.

Fixpoint mapM {S A B} (f : A -> M S B) (l : list A) : M S (list B) :=
  match l with
  | [] => ret []
  | a :: l' => let* b := f a in let* bs := mapM f l' in ret (b :: bs)
  end.
Fixpoint iterM {S A} (f : A -> M S unit) (l : list A) : M S unit :=
  match l with
  | [] => ret tt
  | a :: l' => f a ;;; iterM f l'
  end.
Fixpoint foldM {S A B} (f : B -> A -> M S B) (b : B) (l : list A) : M S B :=
  match l with
  | [] => ret b
  | a :: l' => let* b' := f b a in foldM f b' l'
  end.

(** [triple P m Q]: from every state in [P], [m] ends in a result and a state
    in [Q]. *)
Definition triple {S A} (P : S -> Prop) (m : M S A) (Q : A -> S -> Prop) : Prop :=
  forall s, P s -> Q (fst (m s)) (snd (m s)).

Section Triple.
Context {S : Type}.

Lemma triple_ret {A} (P : S -> Prop) (a : A) (Q : A -> S -> Prop) :
  (forall s, P s -> Q a s) -> triple P (ret a) Q.
Proof. intros H s Hs. cbn. by apply H. Qed.

Lemma triple_bind {A B} (P : S -> Prop) (m : M S A) (k : A -> M S B) R Q :
  triple P m R -> (forall a, triple (R a) (k a) Q) -> triple P (bind m k) Q.
Proof.
  intros Hm Hk s Hs. unfold bind. specialize (Hm s Hs).
  destruct (m s) as [a s1]. exact (Hk a s1 Hm).
Qed.

Lemma triple_conseq {A} (P P' : S -> Prop) (m : M S A) (Q Q' : A -> S -> Prop) :
  triple P' m Q' -> (forall s, P s -> P' s) -> (forall a s, Q' a s -> Q a s) ->
  triple P m Q.
Proof. intros H HP HQ s Hs. apply HQ, H, HP, Hs. Qed.

Lemma triple_get (P : S -> Prop) (Q : S -> S -> Prop) :
  (forall s, P s -> Q s s) -> triple P get Q.
Proof. intros H s Hs. by apply H. Qed.

Lemma triple_gets {A} (P : S -> Prop) (f : S -> A) (Q : A -> S -> Prop) :
  (forall s, P s -> Q (f s) s) -> triple P (gets f) Q.
Proof. intros H s Hs. by apply H. Qed.

Lemma triple_modify (P : S -> Prop) (f : S -> S) (Q : unit -> S -> Prop) :
  (forall s, P s -> Q tt (f s)) -> triple P (modify f) Q.
Proof. intros H s Hs. by apply H. Qed.

(** A loop that keeps an invariant of the state and establishes a property of
    every element it produces. *)
Lemma triple_mapM {A B} (I : S -> Prop) (f : A -> M S B) (l : list A)
    (P : A -> Prop) (Q : B -> Prop) :
  Forall P l ->
  (forall a, P a -> triple I (f a) (fun b s => Q b /\ I s)) ->
  triple I (mapM f l) (fun bs s => Forall Q bs /\ I s).
Proof.
  intros HP Hf. induction HP as [|a l Ha _ IH]; cbn [mapM].
  - apply triple_ret. auto.
  - eapply triple_bind; [by apply Hf|]. intros b s [Hb Hs]. unfold bind.
    specialize (IH s Hs). destruct (mapM f l s) as [bs s2]. cbn in *.
    destruct IH. auto.
Qed.

(** The same with a relation between each element and its replacement. *)
Lemma triple_mapM_rel {A B} (I : S -> Prop) (f : A -> M S B) (l : list A)
    (R : A -> B -> Prop) :
  (forall a, a ∈ l -> triple I (f a) (fun b s => R a b /\ I s)) ->
  triple I (mapM f l) (fun bs s => Forall2 R l bs /\ I s).
Proof.
  intros Hf. induction l as [|a l IH]; cbn [mapM].
  - apply triple_ret. auto.
  - eapply triple_bind; [apply Hf; by left|]. intros b s [Hb Hs]. unfold bind.
    assert (Hl : triple I (mapM f l) (fun bs s => Forall2 R l bs /\ I s)).
    { apply IH. intros x Hx. apply Hf. by right. }
    specialize (Hl s Hs). destruct (mapM f l s) as [bs s2]. cbn in *.
    destruct Hl. auto.
Qed.

Lemma triple_iterM {A} (I : S -> Prop) (f : A -> M S unit) (l : list A) :
  (forall a, a ∈ l -> triple I (f a) (fun _ s => I s)) ->
  triple I (iterM f l) (fun _ s => I s).
Proof.
  intros Hf. induction l as [|a l IH]; cbn [iterM].
  - by apply triple_ret.
  - eapply triple_bind; [apply Hf; by left|]. intros []. apply IH.
    intros x Hx. apply Hf. by right.
Qed.

Lemma triple_foldM {A B} (I : B -> S -> Prop) (f : B -> A -> M S B) (l : list A) b :
  (forall b a, triple (I b) (f b a) I) -> triple (I b) (foldM f b l) I.
Proof.
  intros Hf. revert b. induction l as [|a l IH]; intros b; cbn [foldM].
  - by apply triple_ret.
  - eapply triple_bind; [apply Hf|]. intros b'. apply IH.
Qed.
(** [preserves I m]: the computation keeps the invariant [I]. *)
Definition preserves {A} (I : S -> Prop) (m : M S A) : Prop := forall s, I s -> I (snd (m s)).

Lemma preserves_ret {A} I (a : A) : preserves I (ret a).
Proof. by intros s Hs. Qed.
Lemma preserves_get I : preserves I get.
Proof. by intros s Hs. Qed.
Lemma preserves_gets {A} I (f : S -> A) : preserves I (gets f).
Proof. by intros s Hs. Qed.
Lemma preserves_bind {A B} I (m : M S A) (k : A -> M S B) :
  preserves I m -> (forall a, preserves I (k a)) -> preserves I (bind m k).
Proof.
  intros Hm Hk s Hs. unfold bind. specialize (Hm s Hs).
  destruct (m s) as [a s1]. exact (Hk a s1 Hm).
Qed.
Lemma preserves_mapM {A B} I (f : A -> M S B) l :
  (forall a, preserves I (f a)) -> preserves I (mapM f l).
Proof.
  intros Hf. induction l as [|a l IH]; cbn [mapM]; [apply preserves_ret|].
  apply preserves_bind; [done|]. intros b. apply preserves_bind; [done|].
  intros bs. apply preserves_ret.
Qed.
Lemma preserves_iterM {A} I (f : A -> M S unit) l :
  (forall a, preserves I (f a)) -> preserves I (iterM f l).
Proof.
  intros Hf. induction l as [|a l IH]; cbn [iterM]; [apply preserves_ret|].
  by apply preserves_bind.
Qed.
Lemma preserves_foldM {A B} I (f : B -> A -> M S B) l b :
  (forall b a, preserves I (f b a)) -> preserves I (foldM f b l).
Proof.
  intros Hf. revert b. induction l as [|a l IH]; intros b; cbn [foldM]; [apply preserves_ret|].
  by apply preserves_bind.
Qed.
Lemma preserves_and {A} (I J : S -> Prop) (m : M S A) :
  preserves I m -> preserves J m -> preserves (fun s => I s /\ J s) m.
Proof. intros HI HJ s [? ?]. split; auto. Qed.
End Triple.

(** Walk a computation for a [preserves] goal; what is left are its primitive
    steps, closed by the lemmas of the [prs] database. *)
Create HintDb prs discriminated.
Ltac prs_step :=
  match goal with
  | |- forall _, _ => intro
  | |- preserves _ (bind _ _) => apply preserves_bind
  | |- preserves _ (ret _) => apply preserves_ret
  | |- preserves _ get => apply preserves_get
  | |- preserves _ (gets _) => apply preserves_gets
  | |- preserves _ (mapM _ _) => apply preserves_mapM
  | |- preserves _ (iterM _ _) => apply preserves_iterM
  | |- preserves _ (foldM _ _ _) => apply preserves_foldM
  | |- preserves _ (match ?x with _ => _ end) => destruct x eqn:?
  | |- preserves _ (let _ := _ in _) => cbv zeta
  | |- preserves _ _ => solve [auto 2 with prs nocore]
  end.
Ltac prs := repeat prs_step.

(** ** What a computation returns

[m] returns [a] whatever the state; [m] returns something in [P]. *)
Definition returns {S A} (m : M S A) (a : A) : Prop := forall s, fst (m s) = a.
Definition yields {S A} (P : A -> Prop) (m : M S A) : Prop := forall s, P (fst (m s)).

Section Yields.
Context {S : Type}.

Lemma yields_true {A} (m : M S A) : yields (fun _ => True) m.
Proof. by intros s. Qed.
Lemma yields_ret {A} (P : A -> Prop) a : P a -> yields P (ret a : M S A).
Proof. by intros H s. Qed.
Lemma yields_bind {A B} (P : A -> Prop) (Q : B -> Prop) (m : M S A) (k : A -> M S B) :
  yields P m -> (forall a, P a -> yields Q (k a)) -> yields Q (bind m k).
Proof.
  intros Hm Hk s. unfold bind. specialize (Hm s). destruct (m s) as [a s1].
  by apply (Hk a Hm s1).
Qed.
Lemma yields_bind' {A B} (Q : B -> Prop) (m : M S A) (k : A -> M S B) :
  (forall a, yields Q (k a)) -> yields Q (bind m k).
Proof. intros Hk. by apply (yields_bind (fun _ => True)); [apply yields_true|auto]. Qed.
Lemma yields_mono {A} (P Q : A -> Prop) (m : M S A) :
  yields P m -> (forall a, P a -> Q a) -> yields Q m.
Proof. intros Hm HPQ s. apply HPQ, Hm. Qed.
Lemma returns_yields {A} (m : M S A) a : returns m a <-> yields (fun x => x = a) m.
Proof. done. Qed.

(** A loop whose body yields a relation to its element. *)
Lemma yields_mapM {A B} (R : A -> B -> Prop) (f : A -> M S B) l :
  (forall a, a ∈ l -> yields (R a) (f a)) -> yields (Forall2 R l) (mapM f l).
Proof.
  induction l as [|a l IH]; intros Hf; cbn [mapM]; [by apply yields_ret|].
  eapply yields_bind; [apply Hf; by left|]. intros b Hb.
  eapply yields_bind; [apply IH; intros x Hx; apply Hf; by right|]. intros bs Hbs.
  apply yields_ret. by constructor.
Qed.
End Yields.

(** Walk a computation for a [yields] goal; [yld_db] holds what the calls yield. *)
Create HintDb yld discriminated.
Ltac yld_step :=
  match goal with
  | |- yields _ (ret _) => apply yields_ret
  | |- yields _ (bind (ret _) _) => eapply yields_bind; [by apply yields_ret|]; cbv beta; intros ? ->
  | |- yields _ (bind _ _) =>
      first [ eapply yields_bind; [solve [auto 2 with yld nocore]|]; cbv beta; intros ? ?
            | apply yields_bind'; intro ]
  | |- yields _ (if negb ?x then _ else _) => destruct x eqn:?; cbn [negb]
  | |- yields _ (match ?x with _ => _ end) => destruct x eqn:?
  | |- yields _ (let _ := _ in _) => cbv zeta
  | |- yields _ _ => solve [auto 2 with yld nocore]
  end.
Ltac yld := repeat yld_step.

(** ** Machine integers *)
Definition two64 : Z := 2 ^ 64.
(** Go's [int] and [int64]: two's complement, 64 bits. *)
Definition wrap64 (z : Z) : Z := (z + 2 ^ 63) mod two64 - 2 ^ 63.
Definition in_int64 (z : Z) : bool := (- 2 ^ 63 <=? z) && (z <? 2 ^ 63).

Lemma wrap64_id z : in_int64 z = true -> wrap64 z = z.
Proof.
  unfold in_int64, wrap64, two64. intros H.
  rewrite Z.mod_small; lia.
Qed.

(** ** Generic lemmas *)
Create HintDb fangov discriminated.

Lemma last_skipn_length {A} (l : list A) (n : nat) :
  (length (drop (length l - n) l) = Nat.min n (length l))%nat.
Proof. rewrite length_drop. lia. Qed.

(** Keep the newest [n] elements: the Go idiom [append(l[:0], l[len(l)-n:]...)]. *)
Definition keep_last {A} (n : nat) (l : list A) : list A := drop (length l - n) l.
#[global] Arguments keep_last : simpl never.

Lemma keep_last_length {A} n (l : list A) :
  length (keep_last n l) = Nat.min n (length l).
Proof. apply last_skipn_length. Qed.

Lemma keep_last_all {A} n (l : list A) : (length l <= n)%nat -> keep_last n l = l.
Proof. intros H. unfold keep_last. by replace (length l - n)%nat with 0%nat by lia. Qed.

Lemma keep_last_suffix {A} n (l : list A) : keep_last n l `suffix_of` l.
Proof. exists (take (length l - n) l). symmetry. apply take_drop. Qed.

Lemma keep_last_Forall {A} (P : A -> Prop) n l : Forall P l -> Forall P (keep_last n l).
Proof. apply Forall_drop. Qed.

#[export] Hint Resolve keep_last_Forall keep_last_suffix : fangov.

(** Case analysis on the boolean comparisons of the goal, closing what
    arithmetic closes. *)
Ltac bool_cases :=
  repeat match goal with
  | |- context [if ?b then _ else _] => destruct b eqn:?
  end.
(** Split conjunctions of booleans in the hypotheses. *)
Ltac split_bools :=
  repeat match goal with
  | H : (_ && _)%bool = true |- _ => apply andb_true_iff in H; destruct H
  | H : (_ || _)%bool = false |- _ => apply orb_false_iff in H; destruct H
  end.
