(* ===== verification/GoLib.v ===== *)
(** The parts of Go and of its standard library the modelled code uses:
    [strings], [strconv] and [time].  Strings are byte strings; the white space
    of [strings.TrimSpace] and the case mapping of [strings.ToLower] are those of
    the ASCII range (the ids, names and attribute values the program handles
    there are ASCII).  A [time.Time] carries the monotonic and the wall clock
    reading in nanoseconds, as Go's does for values that come from [time.Now];
    [Sub], [Before] and [After] compare the monotonic one, [Unix] reads the wall
    clock. *)
From stdpp Require Import base gmap strings list.
From Stdlib Require Import ZArith Lia Ascii String.
From S2P Require Import Prelude.
Open Scope Z_scope.

Abbreviation chars := String.list_ascii_of_string.
Abbreviation of_chars := String.string_of_list_ascii.

(** ** strings *)
Definition newline : string := String "010"%char EmptyString.

Section Strings.
Definition is_space (c : ascii) : bool :=
  let n := N_of_ascii c in (n =? 32)%N || ((9 <=? n)%N && (n <=? 13)%N).

Fixpoint drop_while {A} (p : A -> bool) (l : list A) : list A :=
  match l with
  | [] => []
  | a :: l' => if p a then drop_while p l' else l
  end.

Definition trim_right_chars (l : list ascii) : list ascii :=
  rev (drop_while is_space (rev l)).
Definition TrimSpace (s : string) : string :=
  of_chars (trim_right_chars (drop_while is_space (chars s))).

Definition lower_char (c : ascii) : ascii :=
  let n := N_of_ascii c in
  if ((65 <=? n)%N && (n <=? 90)%N)%bool then ascii_of_N (n + 32) else c.
Definition ToLower (s : string) : string := of_chars (map lower_char (chars s)).

Definition HasPrefix (s p : string) : bool := String.prefix p s.
Definition TrimPrefix (s p : string) : string :=
  if HasPrefix s p
  then String.substring (String.length p) (String.length s - String.length p) s
  else s.
Fixpoint has_sub (fuel : nat) (s sub : string) : bool :=
  String.prefix sub s ||
  match fuel, s with
  | S f, String _ s' => has_sub f s' sub
  | _, _ => false
  end.
Definition Contains (s sub : string) : bool := has_sub (String.length s) s sub.

(** [strings.Split(s, sep)] for a one-byte separator: always at least one part. *)
Fixpoint split_chars (sep : ascii) (l cur : list ascii) : list string :=
  match l with
  | [] => [of_chars (rev cur)]
  | c :: l' =>
      if Ascii.eqb c sep then of_chars (rev cur) :: split_chars sep l' []
      else split_chars sep l' (c :: cur)
  end.
Definition Split (s : string) (sep : ascii) : list string := split_chars sep (chars s) [].
Definition Join (parts : list string) (sep : string) : string := String.concat sep parts.
End Strings.

(** ** strconv *)
Section Strconv.
Definition digit_of (c : ascii) : option Z :=
  let n := Z.of_N (N_of_ascii c) in
  if (48 <=? n) && (n <=? 57) then Some (n - 48) else None.

Fixpoint digits_val (l : list ascii) (acc : Z) : option Z :=
  match l with
  | [] => Some acc
  | c :: l' => match digit_of c with
               | Some d => digits_val l' (acc * 10 + d)
               | None => None
               end
  end.

(** [strconv.Atoi]: an optional sign, at least one digit, digits only, and a
    value an [int] holds. *)
Definition unsigned_val (l : list ascii) : option Z :=
  match l with [] => None | _ => digits_val l 0 end.
Definition in_range (z : Z) : option Z := if in_int64 z then Some z else None.
Definition Atoi (s : string) : option Z :=
  match chars s with
  | "-"%char :: l => match unsigned_val l with Some v => in_range (- v) | None => None end
  | "+"%char :: l => match unsigned_val l with Some v => in_range v | None => None end
  | l => match unsigned_val l with Some v => in_range v | None => None end
  end.

Definition digit_char (d : Z) : ascii := ascii_of_N (Z.to_N (48 + d)).
Fixpoint udigits (fuel : nat) (z : Z) (acc : list ascii) : list ascii :=
  let acc' := digit_char (z mod 10) :: acc in
  match fuel with
  | O => acc'
  | S f => if z <? 10 then acc' else udigits f (z / 10) acc'
  end.
(** [strconv.Itoa]; the fuel is the bit length of the number, each step
    removes at least one bit. *)
Definition itoa_chars (z : Z) : list ascii := udigits (Z.to_nat (Z.log2 z)) z [].
Definition Itoa (z : Z) : string :=
  of_chars (if z <? 0 then "-"%char :: itoa_chars (- z) else itoa_chars z).

Lemma digit_char_digit d : 0 <= d < 10 -> digit_of (digit_char d) = Some d.
Proof.
  intros H. assert (d = 0 \/ d = 1 \/ d = 2 \/ d = 3 \/ d = 4 \/ d = 5 \/ d = 6 \/
    d = 7 \/ d = 8 \/ d = 9) as Hd by lia.
  by repeat (destruct Hd as [->|Hd]; [reflexivity|]); subst.
Qed.

Lemma digits_val_acc l acc v :
  digits_val l acc = Some v -> exists k, 0 <= k /\ forall a, digits_val l a = Some (a * 10 ^ k + (v - acc * 10 ^ k)).
Proof.
  revert acc v. induction l as [|c l IH]; intros acc v; cbn.
  - intros [= ->]. exists 0. split; [lia|]. intros a. f_equal. lia.
  - destruct (digit_of c) as [d|]; [|done]. intros H.
    destruct (IH _ _ H) as (k & Hk & Ha). exists (k + 1). split; [lia|]. intros a.
    rewrite Ha. f_equal. rewrite Z.pow_add_r by lia. nia.
Qed.

Lemma udigits_val fuel z acc v :
  0 <= z -> z < 10 ^ (Z.of_nat fuel + 1) ->
  digits_val (udigits fuel z acc) 0 = Some v <-> digits_val acc z = Some v.
Proof.
  revert z acc. induction fuel as [|f IH]; intros z acc Hz Hlt; cbn [udigits].
  - assert (z mod 10 = z) as -> by (apply Z.mod_small; lia). cbn.
    rewrite digit_char_digit by lia. done.
  - pose proof (Z.mod_pos_bound z 10 ltac:(lia)) as Hm.
    destruct (z <? 10) eqn:E; cbn.
    + assert (z mod 10 = z) as -> by (apply Z.mod_small; lia).
      rewrite digit_char_digit by lia. done.
    + rewrite IH.
      * cbn. rewrite digit_char_digit by lia.
        by replace (z / 10 * 10 + z mod 10) with z by (pose proof (Z.div_mod z 10); lia).
      * apply Z.div_pos; lia.
      * apply Z.div_lt_upper_bound; [lia|].
        replace (Z.of_nat (S f) + 1) with (1 + (Z.of_nat f + 1)) in Hlt by lia.
        rewrite Z.pow_add_r in Hlt by lia. lia.
Qed.

Lemma itoa_fuel z : 0 <= z -> z < 10 ^ (Z.of_nat (Z.to_nat (Z.log2 z)) + 1).
Proof.
  intros Hz. rewrite Z2Nat.id by apply Z.log2_nonneg.
  destruct (Z.eq_dec z 0) as [->|Hn]; [done|].
  pose proof (Z.log2_spec z ltac:(lia)) as [_ Hl].
  eapply Z.lt_le_trans; [exact Hl|].
  apply Z.pow_le_mono_l. lia.
Qed.

Lemma itoa_chars_val z : 0 <= z -> digits_val (itoa_chars z) 0 = Some z.
Proof. intros Hz. apply udigits_val; [done|by apply itoa_fuel|done]. Qed.

(** The text [Itoa] prints holds digits only (after the sign), so no byte of it
    is white space. *)
Lemma digit_char_not_space d : 0 <= d < 10 -> is_space (digit_char d) = false.
Proof.
  intros H. assert (d = 0 \/ d = 1 \/ d = 2 \/ d = 3 \/ d = 4 \/ d = 5 \/ d = 6 \/
    d = 7 \/ d = 8 \/ d = 9) as Hd by lia.
  by repeat (destruct Hd as [->|Hd]; [reflexivity|]); subst.
Qed.

Lemma udigits_shape fuel z acc : exists d l,
  0 <= d < 10 /\ udigits fuel z acc = digit_char d :: l.
Proof.
  revert z acc. induction fuel as [|f IH]; intros z acc; cbn [udigits].
  - eexists _, _. split; [|done]. apply Z.mod_pos_bound. lia.
  - destruct (z <? 10); [|apply IH].
    eexists _, _. split; [|done]. apply Z.mod_pos_bound. lia.
Qed.

Lemma udigits_Forall (P : ascii -> Prop) fuel z acc :
  (forall d, 0 <= d < 10 -> P (digit_char d)) -> Forall P acc -> Forall P (udigits fuel z acc).
Proof.
  intros HP. revert z acc. induction fuel as [|f IH]; intros z acc Hacc; cbn [udigits].
  - constructor; [|done]. apply HP, Z.mod_pos_bound. lia.
  - assert (Forall P (digit_char (z mod 10) :: acc)).
    { constructor; [|done]. apply HP, Z.mod_pos_bound. lia. }
    destruct (z <? 10); auto.
Qed.
End Strconv.

Section RoundTrip.
Lemma digit_char_not_sign d : 0 <= d < 10 -> digit_char d <> "-"%char /\ digit_char d <> "+"%char.
Proof.
  intros H. assert (d = 0 \/ d = 1 \/ d = 2 \/ d = 3 \/ d = 4 \/ d = 5 \/ d = 6 \/
    d = 7 \/ d = 8 \/ d = 9) as Hd by lia.
  by repeat (destruct Hd as [->|Hd]; [done|]); subst.
Qed.

Lemma unsigned_val_itoa z : 0 <= z -> unsigned_val (itoa_chars z) = Some z.
Proof.
  intros Hz. pose proof (itoa_chars_val z Hz) as Hv. unfold unsigned_val.
  destruct (itoa_chars z) eqn:E; [|done].
  destruct (udigits_shape (Z.to_nat (Z.log2 z)) z []) as (d & l & _ & Hs).
  unfold itoa_chars in E. congruence.
Qed.

Lemma Atoi_nonneg l d t :
  l = digit_char d :: t -> 0 <= d < 10 ->
  Atoi (of_chars l) = match unsigned_val l with Some v => in_range v | None => None end.
Proof.
  intros -> Hd. unfold Atoi. rewrite String.list_ascii_of_string_of_list_ascii.
  destruct (digit_char_not_sign d Hd) as [H1 H2].
  destruct (digit_char d) as [[] [] [] [] [] [] [] []]; try done.
Qed.

(** [Atoi] reads back what [Itoa] prints. *)
Lemma Atoi_Itoa z : in_int64 z = true -> Atoi (Itoa z) = Some z.
Proof.
  intros Hr. unfold Itoa. destruct (z <? 0) eqn:E.
  - unfold Atoi. cbn. rewrite String.list_ascii_of_string_of_list_ascii.
    rewrite unsigned_val_itoa by lia. unfold in_range.
    by rewrite Z.opp_involutive, Hr.
  - destruct (udigits_shape (Z.to_nat (Z.log2 z)) z []) as (d & l & Hd & Hs).
    rewrite (Atoi_nonneg (itoa_chars z) d l Hs Hd), unsigned_val_itoa by lia.
    unfold in_range. by rewrite Hr.
Qed.

Lemma drop_while_false {A} (p : A -> bool) a l :
  p a = false -> drop_while p (a :: l) = a :: l.
Proof. intros H. cbn. by rewrite H. Qed.

Lemma trim_right_snoc l c :
  is_space c = false -> trim_right_chars (l ++ [c]) = l ++ [c].
Proof.
  intros H. unfold trim_right_chars. rewrite rev_app_distr. cbn [rev app].
  rewrite drop_while_false by done. cbn. by rewrite rev_involutive.
Qed.

Lemma trim_right_space l c :
  is_space c = true -> trim_right_chars (l ++ [c]) = trim_right_chars l.
Proof.
  intros H. unfold trim_right_chars. rewrite rev_app_distr. cbn [rev app].
  cbn. by rewrite H.
Qed.

(** Trimming a decimal number followed by a newline gives the number back. *)
Lemma TrimSpace_Itoa_nl z :
  0 <= z -> TrimSpace (String.append (Itoa z) newline) = Itoa z.
Proof.
  intros Hz. unfold Itoa. assert ((z <? 0) = false) as -> by lia.
  set (l := itoa_chars z).
  assert (Hf : Forall (fun c => is_space c = false) l).
  { apply udigits_Forall; [apply digit_char_not_space|constructor]. }
  assert (Hne : l <> []).
  { unfold l, itoa_chars.
    destruct (udigits_shape (Z.to_nat (Z.log2 z)) z []) as (d & t & _ & ->). done. }
  assert (Hc : chars (String.append (of_chars l) newline) = l ++ ["010"%char]).
  { clearbody l. clear. induction l as [|c l IH]; [done|].
    change (c :: chars (String.append (of_chars l) (String "010"%char EmptyString)) =
            c :: (l ++ ["010"%char])). f_equal. exact IH. }
  unfold TrimSpace. rewrite Hc.
  destruct l as [|c l']; [done|]. inversion_clear Hf as [|? ? Hc0 Hf'].
  cbn [app]. rewrite drop_while_false by done.
  change (c :: l' ++ ["010"%char]) with ((c :: l') ++ ["010"%char]).
  rewrite trim_right_space by done. f_equal.
  destruct (exists_last (l := c :: l') ltac:(done)) as (l0 & x & Hl). rewrite Hl.
  apply trim_right_snoc.
  assert (In x (c :: l')) as Hin by (rewrite Hl; apply in_or_app; right; by left).
  destruct Hin as [<-|Hin]; [done|].
  rewrite Forall_forall in Hf'. apply Hf'. by apply list_elem_of_In.
Qed.
End RoundTrip.

(** ** Trimming, splitting and joining *)
Section Texts.
Lemma drop_while_head {A} (p : A -> bool) l :
  match drop_while p l with [] => True | a :: _ => p a = false end.
Proof. induction l as [|a l IH]; cbn; [done|]. destruct (p a) eqn:E; [done|exact E]. Qed.
Lemma drop_while_suffix {A} (p : A -> bool) l : drop_while p l `suffix_of` l.
Proof.
  induction l as [|a l IH]; cbn; [done|]. destruct (p a); [|done]. by apply suffix_cons_r.
Qed.
Lemma drop_while_id {A} (p : A -> bool) l :
  match l with [] => True | a :: _ => p a = false end -> drop_while p l = l.
Proof. destruct l as [|a l]; cbn; [done|]. by intros ->. Qed.

Lemma chars_of_chars l : chars (of_chars l) = l.
Proof. apply String.list_ascii_of_string_of_list_ascii. Qed.
Lemma of_chars_chars s : of_chars (chars s) = s.
Proof. apply String.string_of_list_ascii_of_string. Qed.
Lemma chars_app s t : chars (String.append s t) = chars s ++ chars t.
Proof. induction s as [|c s IH]; [done|]. change (c :: chars (String.append s t) = c :: chars s ++ chars t). by f_equal. Qed.

Lemma TrimSpace_idem s : TrimSpace (TrimSpace s) = TrimSpace s.
Proof.
  unfold TrimSpace. rewrite chars_of_chars. set (l := drop_while is_space (chars s)).
  assert (Hr : drop_while is_space (trim_right_chars l) = trim_right_chars l).
  { apply drop_while_id. unfold trim_right_chars.
    destruct (drop_while_suffix is_space (rev l)) as [t Ht].
    assert (Hl : l = rev (drop_while is_space (rev l)) ++ rev t).
    { rewrite <- rev_app_distr, <- Ht. by rewrite rev_involutive. }
    pose proof (drop_while_head is_space (chars s)) as Hh. fold l in Hh. rewrite Hl in Hh.
    by destruct (rev (drop_while is_space (rev l))). }
  rewrite Hr. f_equal. unfold trim_right_chars. rewrite rev_involutive. f_equal. apply drop_while_id, drop_while_head.
Qed.

Lemma split_chars_plain sep l cur : Forall (fun c => c <> sep) l ->
  split_chars sep l cur = [of_chars (rev cur ++ l)].
Proof.
  intros Hf. revert cur. induction Hf as [|c l Hc _ IH]; intros cur; cbn.
  - by rewrite app_nil_r.
  - destruct (Ascii.eqb_spec c sep); [done|]. rewrite IH. cbn. by rewrite <- app_assoc.
Qed.
Lemma split_chars_app sep l l' cur : Forall (fun c => c <> sep) l ->
  split_chars sep (l ++ sep :: l') cur = of_chars (rev cur ++ l) :: split_chars sep l' [].
Proof.
  intros Hf. revert cur. induction Hf as [|c l Hc _ IH]; intros cur; cbn.
  - rewrite Ascii.eqb_refl. by rewrite app_nil_r.
  - destruct (Ascii.eqb_spec c sep); [done|]. rewrite IH. cbn. by rewrite <- app_assoc.
Qed.

(** Splitting what was joined gives the parts back, when none holds the separator. *)
Lemma Split_Join sep parts : parts <> [] ->
  Forall (fun p => Forall (fun c => c <> sep) (chars p)) parts ->
  Split (Join parts (String sep EmptyString)) sep = parts.
Proof.
  unfold Split. intros Hne Hf. induction Hf as [|p parts Hp Hf IH]; [done|].
  destruct parts as [|q parts].
  - unfold Join. change (String.concat (String sep EmptyString) [p]) with p.
    rewrite split_chars_plain by done. cbn [rev app]. by rewrite of_chars_chars.
  - unfold Join in *.
    change (String.concat (String sep EmptyString) (p :: q :: parts))
      with (String.append p (String sep (String.concat (String sep EmptyString) (q :: parts)))).
    rewrite chars_app. cbn [chars String.list_ascii_of_string].
    rewrite split_chars_app by done. cbn [rev app]. rewrite of_chars_chars. f_equal. by apply IH.
Qed.

Lemma has_sub_char fuel s c : has_sub fuel s (String c EmptyString) = false -> (String.length s <= fuel)%nat ->
  Forall (fun d => d <> c) (chars s).
Proof.
  revert s. induction fuel as [|f IH]; intros s.
  - destruct s; cbn; [constructor|lia].
  - destruct s as [|d s]; [constructor|]. cbn [has_sub String.length]. intros H Hl.
    apply orb_false_iff in H as [H1 H2]. constructor; [|apply IH; [done|lia]].
    intros ->. cbn in H1. destruct (ascii_dec c c); [by destruct s|done].
Qed.
Lemma Contains_char s c : Contains s (String c EmptyString) = false -> Forall (fun d => d <> c) (chars s).
Proof. intros H. by apply (has_sub_char _ _ _ H). Qed.
End Texts.

(** ** time *)
Definition Microsecond : Z := 1000.
Definition Millisecond : Z := 1000 * 1000.
Definition Second : Z := 1000 * 1000 * 1000.
Definition Minute : Z := 60 * Second.
Definition Hour : Z := 60 * Minute.

Record Time := mkTime { t_mono : Z; t_wall : Z }.
#[export] Instance eta_Time : Eta Time := fun t => mkTime (t_mono t) (t_wall t).
#[export] Instance Time_eq_dec : EqDecision Time.
Proof. solve_decision. Defined.

Definition tSub (a b : Time) : Z := t_mono a - t_mono b.
Definition tAdd (t : Time) (d : Z) : Time := mkTime (t_mono t + d) (t_wall t + d).
Definition tBefore (a b : Time) : bool := t_mono a <? t_mono b.
Definition tAfter (a b : Time) : bool := t_mono b <? t_mono a.
(** [t.Unix()]: whole seconds of the wall clock, rounded down. *)
Definition tUnix (t : Time) : Z := t_wall t / Second.
Definition tUnixNano (t : Time) : Z := t_wall t.

Lemma tSub_tAdd t d : tSub (tAdd t d) t = d.
Proof. unfold tSub, tAdd. cbn. lia. Qed.

(** Decimal numbers are told apart. *)
Lemma append_inj_l p a b : String.append p a = String.append p b -> a = b.
Proof. induction p as [|c p IH]; cbn; [done|]. intros [= H]. by apply IH. Qed.
Lemma Itoa_inj a b : 0 <= a -> 0 <= b -> Itoa a = Itoa b -> a = b.
Proof.
  intros Ha Hb H. unfold Itoa in H. rewrite (proj2 (Z.ltb_ge a 0)), (proj2 (Z.ltb_ge b 0)) in H by lia.
  apply (f_equal chars) in H. rewrite !chars_of_chars in H.
  pose proof (unsigned_val_itoa a Ha) as Ea. rewrite H, (unsigned_val_itoa b Hb) in Ea. by injection Ea.
Qed.
