(* ===== verification/Float64.v ===== *)
(** IEEE 754 binary64 arithmetic on finite values, the [float64] of Go.

    A finite float is the rational number it denotes.  An arithmetic operation
    is the exact rational operation followed by [round64], rounding to nearest,
    ties to even, to 53 significant bits.  Overflow and subnormal results are
    outside the model: every value the program computes this way stems from
    integers of at most 20 bits and quotients of such, far from both ends of the
    exponent range.  Rational equality is the setoid [==]; [round64] and the
    operations respect it. *)
From stdpp Require Import base tactics.
From Stdlib Require Import ZArith QArith Qcanon Qround Qabs Lia Lqa Setoid Morphisms.
From S2P Require Import Prelude.
Open Scope Z_scope.
Open Scope Q_scope.

(** ** Rounding *)
Definition pow2 (e : Z) : Q :=
  if (0 <=? e)%Z then inject_Z (2 ^ e) else / inject_Z (2 ^ (- e)).

(** Round to the nearest integer, ties to even. *)
Definition rne (q : Q) : Z :=
  let f := Qfloor q in
  match Qcompare (q - inject_Z f) (1 # 2) with
  | Lt => f
  | Gt => (f + 1)%Z
  | Eq => if Z.even f then f else (f + 1)%Z
  end.

(** The exponent of a positive rational: [2 ^ e <= q < 2 ^ (e + 1)]. *)
Definition ilog2 (q : Q) : Z :=
  let e := (Z.log2 (Qnum q) - Z.log2 (Zpos (Qden q)))%Z in
  if Qle_bool (pow2 e) q then e else (e - 1)%Z.

Definition round_pos (q : Q) : Q :=
  let e := (ilog2 q - 52)%Z in inject_Z (rne (q / pow2 e)) * pow2 e.

Definition round64 (q : Q) : Q :=
  let q := Qred q in
  match Qcompare q 0 with
  | Eq => 0
  | Gt => Qred (round_pos q)
  | Lt => Qred (- round_pos (- q))
  end.

(** ** The operations *)
Definition of_int (z : Z) : Q := round64 (inject_Z z).
Definition fadd (a b : Q) : Q := round64 (a + b).
Definition fsub (a b : Q) : Q := round64 (a - b).
Definition fmul (a b : Q) : Q := round64 (a * b).
Definition fdiv (a b : Q) : Q := round64 (a / b).
(** Comparison; conversion to [int] truncates toward zero. *)
Definition fle (a b : Q) : bool := Qle_bool a b.
Definition flt (a b : Q) : bool := negb (Qle_bool b a).
Definition feq (a b : Q) : bool := Qeq_bool a b.
Definition to_int (q : Q) : Z := Z.quot (Qnum q) (Zpos (Qden q)).
(** [math.Round]: half away from zero, an exact operation. *)
Definition fround (q : Q) : Q :=
  inject_Z (if Qle_bool 0 q then Qfloor (q + (1 # 2)) else (- Qfloor (- q + (1 # 2)))%Z).

(** ** Powers of two *)
Lemma pow2_pos e : 0 < pow2 e.
Proof.
  unfold pow2. destruct (0 <=? e)%Z eqn:E.
  - change 0 with (inject_Z 0). rewrite <- Zlt_Qlt. apply Z.pow_pos_nonneg; lia.
  - apply Qinv_lt_0_compat. change 0 with (inject_Z 0). rewrite <- Zlt_Qlt.
    apply Z.pow_pos_nonneg; lia.
Qed.

Lemma inject_pow_nz e : (0 <= e)%Z -> ~ inject_Z (2 ^ e) == 0.
Proof.
  intros He H. change 0 with (inject_Z 0) in H. rewrite inject_Z_injective in H.
  pose proof (Z.pow_pos_nonneg 2 e). lia.
Qed.

Lemma pow2_succ e : pow2 (e + 1) == 2 * pow2 e.
Proof.
  unfold pow2. destruct (0 <=? e)%Z eqn:E1, (0 <=? e + 1)%Z eqn:E2; try lia.
  - rewrite Z.pow_add_r, inject_Z_mult by lia. change (inject_Z (2 ^ 1)) with 2. ring.
  - assert (e = -1)%Z as -> by lia. reflexivity.
  - replace (- e)%Z with (- (e + 1) + 1)%Z by lia.
    rewrite Z.pow_add_r, inject_Z_mult by lia. change (inject_Z (2 ^ 1)) with 2.
    field. apply inject_pow_nz. lia.
Qed.

Lemma pow2_add_nat e (n : nat) : pow2 (e + Z.of_nat n) == pow2 e * inject_Z (2 ^ Z.of_nat n).
Proof.
  induction n as [|n IH].
  - rewrite Z.add_0_r. change (inject_Z (2 ^ Z.of_nat 0)) with 1. ring.
  - rewrite Nat2Z.inj_succ. unfold Z.succ. rewrite Z.add_assoc, pow2_succ, IH.
    rewrite Z.pow_add_r, inject_Z_mult by lia. change (inject_Z (2 ^ 1)) with 2. ring.
Qed.

Lemma pow2_add e k : (0 <= k)%Z -> pow2 (e + k) == pow2 e * inject_Z (2 ^ k).
Proof. intros Hk. rewrite <- (Z2Nat.id k) by done. apply pow2_add_nat. Qed.

Lemma pow2_le a b : (a <= b)%Z -> pow2 a <= pow2 b.
Proof.
  intros H. replace b with (a + (b - a))%Z by lia. rewrite pow2_add by lia.
  pose proof (pow2_pos a). rewrite <- (Qmult_1_r (pow2 a)) at 1.
  apply Qmult_le_l; [done|]. change 1 with (inject_Z 1). rewrite <- Zle_Qle.
  pose proof (Z.pow_pos_nonneg 2 (b - a)). lia.
Qed.

Lemma pow2_nonneg_int e : (0 <= e)%Z -> pow2 e == inject_Z (2 ^ e).
Proof. intros H. unfold pow2. replace (0 <=? e)%Z with true by lia. reflexivity. Qed.

(** ** Rounding to an integer *)
Lemma Qfloor_between q : inject_Z (Qfloor q) <= q < inject_Z (Qfloor q) + 1.
Proof.
  split; [apply Qfloor_le|]. pose proof (Qlt_floor q) as H.
  rewrite inject_Z_plus in H. exact H.
Qed.

Lemma Qfloor_unique q z : inject_Z z <= q -> q < inject_Z z + 1 -> Qfloor q = z.
Proof.
  intros H1 H2. pose proof (Qfloor_between q) as [H3 H4].
  change 1 with (inject_Z 1) in H2, H4. rewrite <- inject_Z_plus in H2, H4.
  assert (inject_Z z < inject_Z (Qfloor q + 1)) as A by (eapply Qle_lt_trans; eauto).
  assert (inject_Z (Qfloor q) < inject_Z (z + 1)) as B by (eapply Qle_lt_trans; eauto).
  rewrite <- Zlt_Qlt in A, B. lia.
Qed.

#[export] Instance rne_proper : Proper (Qeq ==> eq) rne.
Proof.
  intros x y H. unfold rne. rewrite (Qfloor_comp _ _ H).
  assert (E : x - inject_Z (Qfloor y) == y - inject_Z (Qfloor y)) by (rewrite H; reflexivity).
  by rewrite (Qcompare_comp _ _ E (1 # 2) (1 # 2) (Qeq_refl _)).
Qed.

Lemma rne_cases q :
  (rne q = Qfloor q /\ q - inject_Z (Qfloor q) <= 1 # 2) \/
  (rne q = (Qfloor q + 1)%Z /\ 1 # 2 <= q - inject_Z (Qfloor q)).
Proof.
  unfold rne. destruct (Qcompare_spec (q - inject_Z (Qfloor q)) (1 # 2)) as [H|H|H].
  - destruct (Z.even (Qfloor q)); [left|right]; split; try done; rewrite H; apply Qle_refl.
  - left. split; [done|]. by apply Qlt_le_weak.
  - right. split; [done|]. by apply Qlt_le_weak.
Qed.

Lemma rne_int z : rne (inject_Z z) = z.
Proof.
  unfold rne. rewrite Qfloor_Z.
  assert (E : inject_Z z - inject_Z z == 0) by ring.
  by rewrite (Qcompare_comp _ _ E (1 # 2) (1 # 2) (Qeq_refl _)).
Qed.

Lemma rne_le x y : x <= y -> (rne x <= rne y)%Z.
Proof.
  intros H. pose proof (Qfloor_resp_le _ _ H) as Hf.
  destruct (Z.eq_dec (Qfloor x) (Qfloor y)) as [E|E].
  - unfold rne. rewrite E.
    destruct (Qcompare_spec (x - inject_Z (Qfloor y)) (1 # 2)) as [H1|H1|H1],
      (Qcompare_spec (y - inject_Z (Qfloor y)) (1 # 2)) as [H2|H2|H2];
      try (destruct (Z.even (Qfloor y))); try lia; exfalso; lra.
  - destruct (rne_cases x) as [[-> _]|[-> _]], (rne_cases y) as [[-> _]|[-> _]]; lia.
Qed.

(** ** The binary exponent *)
Lemma ilog2_bounds_raw q : 0 < q ->
  let e := (Z.log2 (Qnum q) - Z.log2 (Zpos (Qden q)))%Z in
  pow2 (e - 1) <= q /\ q < pow2 (e + 1).
Proof.
  intros Hq e. destruct q as [n d]. cbn [Qnum Qden] in *.
  assert (Hn : (0 < n)%Z) by (unfold Qlt in Hq; cbn in Hq; lia).
  set (a := Z.log2 n) in *. set (b := Z.log2 (Zpos d)) in *.
  pose proof (Z.log2_spec n Hn) as [Ha1 Ha2]. fold a in Ha1, Ha2.
  pose proof (Z.log2_spec (Zpos d) ltac:(lia)) as [Hb1 Hb2]. fold b in Hb1, Hb2.
  pose proof (Z.log2_nonneg n). pose proof (Z.log2_nonneg (Zpos d)).
  assert (Hqd : (n # d) * inject_Z (Zpos d) == inject_Z n).
  { rewrite (Qmake_Qdiv n d). field. by unfold Qeq. }
  assert (Hd0 : 0 < inject_Z (Zpos d)) by (change 0 with (inject_Z 0); rewrite <- Zlt_Qlt; lia).
  split.
  - apply (Qmult_lt_0_le_reg_r _ _ _ Hd0). rewrite Hqd.
    apply Qle_trans with (pow2 (e - 1) * inject_Z (2 ^ (b + 1))).
    + pose proof (pow2_pos (e - 1)). apply Qmult_le_l; [done|]. rewrite <- Zle_Qle. lia.
    + rewrite <- pow2_add by lia. replace (e - 1 + (b + 1))%Z with a by lia.
      rewrite pow2_nonneg_int by done. by rewrite <- Zle_Qle.
  - apply (Qmult_lt_r _ _ _ Hd0). rewrite Hqd.
    apply Qlt_le_trans with (pow2 (e + 1) * inject_Z (2 ^ b)).
    + rewrite <- pow2_add by lia. replace (e + 1 + b)%Z with (Z.succ a) by lia.
      rewrite pow2_nonneg_int by lia. by rewrite <- Zlt_Qlt.
    + pose proof (pow2_pos (e + 1)). apply Qmult_le_l; [done|]. rewrite <- Zle_Qle. lia.
Qed.

Lemma ilog2_spec q : 0 < q -> pow2 (ilog2 q) <= q /\ q < pow2 (ilog2 q + 1).
Proof.
  intros Hq. pose proof (ilog2_bounds_raw q Hq) as [H1 H2]. unfold ilog2.
  set (e := (Z.log2 (Qnum q) - Z.log2 (Zpos (Qden q)))%Z) in *.
  destruct (Qle_bool (pow2 e) q) eqn:E.
  - by apply Qle_bool_iff in E.
  - split; [done|]. replace (e - 1 + 1)%Z with e by lia.
    apply Qnot_le_lt. intros H. apply Qle_bool_iff in H. congruence.
Qed.

Lemma pow2_lt_inv a b : pow2 a < pow2 b -> (a < b)%Z.
Proof.
  intros H. destruct (Z.lt_ge_cases a b) as [|Hge]; [done|].
  apply pow2_le in Hge. exfalso. lra.
Qed.

Lemma ilog2_le x y : 0 < x -> x <= y -> (ilog2 x <= ilog2 y)%Z.
Proof.
  intros Hx Hxy. pose proof (ilog2_spec x Hx) as [H1 _].
  pose proof (ilog2_spec y ltac:(lra)) as [_ H2].
  assert (pow2 (ilog2 x) < pow2 (ilog2 y + 1)) as H%pow2_lt_inv by lra. lia.
Qed.

(** ** Rounding to 53 bits *)
Lemma Qdiv_pow2_le x y e : x <= y -> x / pow2 e <= y / pow2 e.
Proof.
  intros H. apply Qmult_le_compat_r; [done|]. apply Qlt_le_weak, Qinv_lt_0_compat, pow2_pos.
Qed.

Lemma pow2_nz e : ~ pow2 e == 0.
Proof. pose proof (pow2_pos e). intros E. rewrite E in *. lra. Qed.

Lemma grid_div m e k : (0 <= k)%Z ->
  (inject_Z m * pow2 (e + k)) / pow2 e == inject_Z (m * 2 ^ k).
Proof.
  intros Hk. rewrite pow2_add, inject_Z_mult by done. field. apply pow2_nz.
Qed.

Lemma round_pos_upper x : 0 < x -> round_pos x <= pow2 (ilog2 x + 1).
Proof.
  intros Hx. unfold round_pos. set (e := ilog2 x) in *.
  pose proof (ilog2_spec x Hx) as [_ H]. fold e in H.
  assert (Hs : pow2 (e + 1) == inject_Z (2 ^ 53) * pow2 (e - 52)).
  { replace (e + 1)%Z with (e - 52 + 53)%Z by lia. rewrite pow2_add by lia. ring. }
  rewrite Hs. apply Qmult_le_compat_r; [|apply Qlt_le_weak, pow2_pos].
  rewrite <- Zle_Qle. rewrite <- (rne_int (2 ^ 53)). apply rne_le.
  apply Qlt_le_weak in H. apply (Qdiv_pow2_le _ _ (e - 52)) in H. rewrite Hs in H.
  eapply Qle_trans; [exact H|]. rewrite Qdiv_mult_l by apply pow2_nz. apply Qle_refl.
Qed.

Lemma round_pos_lower x : 0 < x -> pow2 (ilog2 x) <= round_pos x.
Proof.
  intros Hx. unfold round_pos. set (e := ilog2 x) in *.
  pose proof (ilog2_spec x Hx) as [H _]. fold e in H.
  assert (Hs : pow2 e == inject_Z (2 ^ 52) * pow2 (e - 52)).
  { replace e with (e - 52 + 52)%Z at 1 by lia. rewrite pow2_add by lia. ring. }
  rewrite Hs. apply Qmult_le_compat_r; [|apply Qlt_le_weak, pow2_pos].
  rewrite <- Zle_Qle. rewrite <- (rne_int (2 ^ 52)). apply rne_le.
  apply (Qdiv_pow2_le _ _ (e - 52)) in H. rewrite Hs in H.
  eapply Qle_trans; [|exact H]. rewrite Qdiv_mult_l by apply pow2_nz. apply Qle_refl.
Qed.

Lemma round_pos_le x y : 0 < x -> x <= y -> round_pos x <= round_pos y.
Proof.
  intros Hx Hxy. pose proof (ilog2_le x y Hx Hxy) as He.
  destruct (Z.eq_dec (ilog2 x) (ilog2 y)) as [E|E].
  - unfold round_pos. rewrite E. apply Qmult_le_compat_r; [|apply Qlt_le_weak, pow2_pos].
    rewrite <- Zle_Qle. by apply rne_le, Qdiv_pow2_le.
  - eapply Qle_trans; [by apply round_pos_upper|].
    eapply Qle_trans; [apply (pow2_le _ (ilog2 y)); lia|]. apply round_pos_lower. lra.
Qed.

Lemma round_pos_pos x : 0 < x -> 0 < round_pos x.
Proof.
  intros Hx. eapply Qlt_le_trans; [apply (pow2_pos (ilog2 x))|by apply round_pos_lower].
Qed.

Lemma round_pos_grid x m k :
  0 < x -> x == inject_Z m * pow2 k -> (ilog2 x - 52 <= k)%Z -> round_pos x == x.
Proof.
  intros Hx E Hk. unfold round_pos. set (e := (ilog2 x - 52)%Z) in *.
  assert (Hg : x / pow2 e == inject_Z (m * 2 ^ (k - e))).
  { rewrite E. replace k with (e + (k - e))%Z at 1 by lia. apply grid_div. lia. }
  rewrite Hg, rne_int, <- Hg. field. apply pow2_nz.
Qed.

#[export] Instance round64_proper : Proper (Qeq ==> eq) round64.
Proof. intros x y H. unfold round64. by rewrite (Qred_complete _ _ H). Qed.

Lemma round64_cases q :
  (q == 0 /\ round64 q == 0) \/
  (0 < q /\ round64 q == round_pos (Qred q)) \/
  (q < 0 /\ round64 q == - round_pos (- Qred q)).
Proof.
  unfold round64. pose proof (Qred_correct q) as Hr.
  destruct (Qcompare_spec (Qred q) 0) as [H|H|H]; rewrite ?Qred_correct.
  - left. split; [by rewrite <- Hr|done].
  - right. right. split; [lra|done].
  - right. left. split; [lra|done].
Qed.

(** Rounding is monotone: the key to every bound on a computed duty. *)
Lemma round64_le x y : x <= y -> round64 x <= round64 y.
Proof.
  intros H. pose proof (Qred_correct x) as Hx. pose proof (Qred_correct y) as Hy.
  destruct (round64_cases x) as [[H1 ->]|[[H1 ->]|[H1 ->]]],
    (round64_cases y) as [[H2 ->]|[[H2 ->]|[H2 ->]]]; try (exfalso; lra).
  - apply Qle_refl.
  - apply Qlt_le_weak, round_pos_pos. lra.
  - apply round_pos_le; lra.
  - pose proof (round_pos_pos (- Qred x) ltac:(lra)). lra.
  - pose proof (round_pos_pos (- Qred x) ltac:(lra)).
    pose proof (round_pos_pos (Qred y) ltac:(lra)). lra.
  - apply Qopp_le_compat, round_pos_le; lra.
Qed.

Lemma ilog2_grid x m k :
  0 < x -> x == inject_Z m * pow2 k -> (m < 2 ^ 53)%Z -> (ilog2 x - 52 <= k)%Z.
Proof.
  intros Hx E Hm. pose proof (ilog2_spec x Hx) as [H _].
  assert (pow2 (ilog2 x) < pow2 (k + 53)) as H3%pow2_lt_inv; [|lia].
  eapply Qle_lt_trans; [exact H|]. rewrite E, pow2_add by lia.
  rewrite (Qmult_comm (pow2 k)). apply Qmult_lt_r; [apply pow2_pos|]. by rewrite <- Zlt_Qlt.
Qed.

(** A value of at most 53 significant bits is not changed by rounding. *)
Lemma round64_exact m k :
  (Z.abs m < 2 ^ 53)%Z -> round64 (inject_Z m * pow2 k) == inject_Z m * pow2 k.
Proof.
  intros Hm. set (x := inject_Z m * pow2 k).
  assert (Hr : Qred x == x) by apply Qred_correct.
  destruct (round64_cases x) as [[H1 ->]|[[H1 ->]|[H1 ->]]].
  - by rewrite H1.
  - rewrite (round_pos_grid (Qred x) m k); [done|lra|by rewrite Hr|].
    apply (ilog2_grid _ m); [lra|by rewrite Hr|lia].
  - rewrite (round_pos_grid (- Qred x) (- m) k).
    + rewrite Hr. ring.
    + lra.
    + rewrite Hr, inject_Z_opp. unfold x. ring.
    + apply (ilog2_grid _ (- m)); [lra| |lia].
      rewrite Hr, inject_Z_opp. unfold x. ring.
Qed.

Lemma round64_int z : (Z.abs z < 2 ^ 53)%Z -> round64 (inject_Z z) == inject_Z z.
Proof.
  intros H. assert (E : inject_Z z == inject_Z z * pow2 0).
  { change (pow2 0) with 1. ring. }
  rewrite E at 1. rewrite round64_exact by done. by rewrite <- E.
Qed.

(** Results are in lowest terms, so equal rationals are equal terms. *)
Lemma round64_red x : Qred (round64 x) = round64 x.
Proof.
  unfold round64. destruct (Qcompare (Qred x) 0); [done| |];
    apply Qred_complete, Qred_correct.
Qed.

Lemma Qred_inject z : Qred (inject_Z z) = inject_Z z.
Proof. apply Qcanon.Qred_iff. cbn. apply Z.gcd_1_r. Qed.

Lemma round64_int_eq z : (Z.abs z < 2 ^ 53)%Z -> round64 (inject_Z z) = inject_Z z.
Proof.
  intros H. rewrite <- round64_red. transitivity (Qred (inject_Z z)); [|apply Qred_inject].
  by apply Qred_complete, round64_int.
Qed.

Lemma round64_half z : (Z.abs z < 2 ^ 51)%Z ->
  round64 (inject_Z z + (1 # 2)) == inject_Z z + (1 # 2).
Proof.
  intros H. assert (E : inject_Z z + (1 # 2) == inject_Z (2 * z + 1) * pow2 (-1)).
  { rewrite inject_Z_plus, inject_Z_mult. change (pow2 (-1)) with (1 # 2).
    change (inject_Z 2) with 2. change (inject_Z 1) with 1. ring. }
  rewrite E at 1. rewrite round64_exact by lia. by rewrite <- E.
Qed.

(** A rounded value stays between the integers its exact value lies between. *)
Lemma round64_between a b x :
  (Z.abs a < 2 ^ 53)%Z -> (Z.abs b < 2 ^ 53)%Z ->
  inject_Z a <= x -> x <= inject_Z b ->
  inject_Z a <= round64 x <= inject_Z b.
Proof.
  intros Ha Hb H1 H2. split.
  - rewrite <- (round64_int a Ha). by apply round64_le.
  - rewrite <- (round64_int b Hb). by apply round64_le.
Qed.

Lemma of_int_exact z : (Z.abs z < 2 ^ 53)%Z -> of_int z = inject_Z z.
Proof. apply round64_int_eq. Qed.

(** ** Conversion to [int] *)
Lemma to_int_nonneg q : 0 <= q -> to_int q = Qfloor q.
Proof.
  intros H. unfold to_int, Qfloor. destruct q as [n d]. cbn.
  apply Z.quot_div_nonneg; [|lia]. unfold Qle in H. cbn in H. lia.
Qed.

Lemma to_int_neg q : q <= 0 -> to_int q = (- Qfloor (- q))%Z.
Proof.
  intros H. unfold to_int, Qfloor. destruct q as [n d]. cbn.
  rewrite <- (Z.opp_involutive n) at 1. rewrite Z.quot_opp_l by lia. f_equal.
  apply Z.quot_div_nonneg; [|lia]. unfold Qle in H. cbn in H. lia.
Qed.

#[export] Instance to_int_proper : Proper (Qeq ==> eq) to_int.
Proof.
  intros x y H. destruct (Qlt_le_dec x 0) as [Hx|Hx].
  - rewrite !to_int_neg by lra. f_equal. apply Qfloor_comp. by rewrite H.
  - rewrite !to_int_nonneg by lra. by apply Qfloor_comp.
Qed.

Lemma to_int_le x y : x <= y -> (to_int x <= to_int y)%Z.
Proof.
  intros H. destruct (Qlt_le_dec x 0) as [Hx|Hx], (Qlt_le_dec y 0) as [Hy|Hy]; try lra.
  - rewrite !to_int_neg by lra.
    pose proof (Qfloor_resp_le (- y) (- x) ltac:(lra)). lia.
  - rewrite to_int_neg, to_int_nonneg by lra.
    pose proof (Qfloor_resp_le 0 (- x) ltac:(lra)) as H1.
    pose proof (Qfloor_resp_le 0 y ltac:(lra)) as H2.
    change (Qfloor 0) with 0%Z in *. lia.
  - rewrite !to_int_nonneg by lra. by apply Qfloor_resp_le.
Qed.

Lemma to_int_inject z : to_int (inject_Z z) = z.
Proof. unfold to_int. cbn. apply Z.quot_1_r. Qed.

Lemma to_int_half z : (0 <= z)%Z -> to_int (inject_Z z + (1 # 2)) = z.
Proof.
  intros Hz. assert (0 <= inject_Z z) by (change 0 with (inject_Z 0); by rewrite <- Zle_Qle).
  rewrite to_int_nonneg by lra. apply Qfloor_unique; lra.
Qed.

(** ** Comparison *)
Lemma fle_spec a b : fle a b = true <-> a <= b.
Proof. apply Qle_bool_iff. Qed.
Lemma flt_spec a b : flt a b = true <-> a < b.
Proof.
  unfold flt. rewrite negb_true_iff. split.
  - intros H. apply Qnot_le_lt. intros Hc. apply Qle_bool_iff in Hc. congruence.
  - intros H. destruct (Qle_bool b a) eqn:E; [|done]. apply Qle_bool_iff in E. lra.
Qed.
Lemma fle_false a b : fle a b = false <-> b < a.
Proof.
  rewrite <- not_true_iff_false, fle_spec. split; [apply Qnot_le_lt|apply Qlt_not_le].
Qed.
Lemma flt_false a b : flt a b = false <-> b <= a.
Proof.
  rewrite <- not_true_iff_false, flt_spec. split; [apply Qnot_lt_le|apply Qle_not_lt].
Qed.

(** Turn float comparisons among the hypotheses into rational ones. *)
Ltac float_hyps :=
  repeat match goal with
  | H : fle _ _ = true |- _ => apply fle_spec in H
  | H : fle _ _ = false |- _ => apply fle_false in H
  | H : flt _ _ = true |- _ => apply flt_spec in H
  | H : flt _ _ = false |- _ => apply flt_false in H
  end.

#[export] Instance fle_proper : Proper (Qeq ==> Qeq ==> eq) fle.
Proof.
  intros a b H c d H'. unfold fle. apply eq_true_iff_eq. rewrite !Qle_bool_iff.
  by rewrite H, H'.
Qed.
#[export] Instance flt_proper : Proper (Qeq ==> Qeq ==> eq) flt.
Proof. intros a b H c d H'. unfold flt. f_equal. by apply fle_proper. Qed.
#[export] Instance feq_proper : Proper (Qeq ==> Qeq ==> eq) feq.
Proof.
  intros a b H c d H'. unfold feq. apply eq_true_iff_eq. rewrite !Qeq_bool_iff.
  by rewrite H, H'.
Qed.

Lemma fround_int_between a b x :
  inject_Z a <= x -> x <= inject_Z b -> inject_Z a <= fround x <= inject_Z b.
Proof.
  intros H1 H2. unfold fround.
  destruct (Qle_bool 0 x) eqn:E.
  - rewrite <- !Zle_Qle. rewrite <- (Qfloor_Z a) at 1. split.
    + apply Qfloor_resp_le. lra.
    + assert (Qfloor (x + (1 # 2)) < b + 1)%Z; [|lia].
      rewrite Zlt_Qlt, inject_Z_plus. change (inject_Z 1) with 1.
      eapply Qle_lt_trans; [apply Qfloor_le|]. lra.
  - rewrite <- !Zle_Qle. split.
    + assert (Qfloor (- x + (1 # 2)) < - a + 1)%Z; [|lia].
      rewrite Zlt_Qlt, inject_Z_plus, inject_Z_opp. change (inject_Z 1) with 1.
      eapply Qle_lt_trans; [apply Qfloor_le|]. lra.
    + pose proof (Qfloor_resp_le (inject_Z (- b)) (- x + (1 # 2))) as H.
      rewrite Qfloor_Z in H. rewrite inject_Z_opp in H. specialize (H ltac:(lra)). lia.
Qed.
