(* ===== verification/GoTime.v ===== *)
(** The parts of Go's package time that parse texts: [time.ParseDuration], and
    [time.Parse] and [Format] with the layout "15:04". *)
From stdpp Require Import base gmap strings list.
From Stdlib Require Import ZArith QArith Lia Ascii String.
From S2P Require Import Prelude GoLib Float64.
Open Scope Z_scope.

Definition is_digit (c : ascii) : bool := match digit_of c with Some _ => true | None => false end.

(** ** ParseDuration *)

(** [leadingInt]: the value of the leading digits and the rest; [None] on overflow. *)
Fixpoint leadingInt (l : list ascii) (x : Z) : option (Z * list ascii) :=
  match l with
  | c :: l' =>
      match digit_of c with
      | Some d =>
          if 2 ^ 63 / 10 <? x then None
          else let x := x * 10 + d in
               if 2 ^ 63 <? x then None else leadingInt l' x
      | None => Some (x, l)
      end
  | [] => Some (x, [])
  end.

(** [leadingFraction]: digits past an overflow are skipped. *)
Fixpoint leadingFraction (l : list ascii) (x : Z) (scale : Q) (overflow : bool) : Z * Q * list ascii :=
  match l with
  | c :: l' =>
      match digit_of c with
      | Some d =>
          if overflow then leadingFraction l' x scale true
          else if (2 ^ 63 - 1) / 10 <? x then leadingFraction l' x scale true
          else let y := x * 10 + d in
               if 2 ^ 63 <? y then leadingFraction l' x scale true
               else leadingFraction l' y (fmul scale (of_int 10)) false
      | None => (x, scale, l)
      end
  | [] => (x, scale, [])
  end.

(** The unit is everything up to the next digit or dot. *)
Fixpoint take_unit (l : list ascii) : list ascii * list ascii :=
  match l with
  | c :: l' => if (Ascii.eqb c "." || is_digit c)%bool then ([], l)
               else let r := take_unit l' in (c :: r.1, r.2)
  | [] => ([], [])
  end.
(** The micro sign and the Greek mu are two bytes in UTF-8. *)
Definition unit_of (u : string) : option Z :=
  if String.eqb u "ns" then Some 1
  else if String.eqb u "us" then Some Microsecond
  else if String.eqb u (String "194" (String "181" "s")) then Some Microsecond
  else if String.eqb u (String "206" (String "188" "s")) then Some Microsecond
  else if String.eqb u "ms" then Some Millisecond
  else if String.eqb u "s" then Some Second
  else if String.eqb u "m" then Some Minute
  else if String.eqb u "h" then Some Hour
  else None.

(** One number with its unit: the nanoseconds and the rest. *)
Definition duration_part (l : list ascii) : option (Z * list ascii) :=
  match l with
  | c :: _ =>
      if negb (Ascii.eqb c "." || is_digit c) then None
      else
        match leadingInt l 0 with
        | None => None
        | Some (v, l1) =>
            let pre := negb (List.length l1 =? List.length l)%nat in
            let '(f, scale, l2, post) :=
              match l1 with
              | "."%char :: l1' =>
                  let '(f, scale, l2) := leadingFraction l1' 0 (of_int 1) false in
                  (f, scale, l2, negb (List.length l2 =? List.length l1')%nat)
              | _ => (0, of_int 1, l1, false)
              end in
            if negb pre && negb post then None
            else
              let '(u, l3) := take_unit l2 in
              match u with
              | [] => None
              | _ =>
                  match unit_of (of_chars u) with
                  | None => None
                  | Some unit =>
                      if 2 ^ 63 / unit <? v then None
                      else
                        let v := v * unit in
                        let v := if 0 <? f
                                 then v + to_int (fmul (of_int f) (fdiv (of_int unit) scale)) else v in
                        if (0 <? f) && (2 ^ 63 <? v) then None else Some (v, l3)
                  end
              end
        end
  | [] => None
  end.

(** Every part takes at least one byte, so the length is fuel enough. *)
Fixpoint duration_parts (fuel : nat) (l : list ascii) (d : Z) : option Z :=
  match l, fuel with
  | [], _ => Some d
  | _, O => None
  | _, S f =>
      match duration_part l with
      | None => None
      | Some (v, l') => let d := d + v in if 2 ^ 63 <? d then None else duration_parts f l' d
      end
  end.

Definition ParseDuration (s : string) : option Z :=
  let '(neg, l) := match chars s with
                   | "-"%char :: l => (true, l)
                   | "+"%char :: l => (false, l)
                   | l => (false, l)
                   end in
  match l with
  | ["0"%char] => Some 0
  | [] => None
  | _ =>
      match duration_parts (List.length l) l 0 with
      | None => None
      | Some d => if (neg : bool) then Some (- d) else if 2 ^ 63 - 1 <? d then None else Some d
      end
  end.

Example ParseDuration_ex :
  map ParseDuration ["10s"; "1h30m"; "1.5h"; "-250ms"; "0"; ""; "10"; ".s"; "9223372036854775807ns"; "9223372036854775808ns"]
  = [Some (10 * Second); Some (90 * Minute); Some (90 * Minute); Some (-250 * Millisecond); Some 0; None; None;
     None; Some (2 ^ 63 - 1); None].
Proof. by vm_compute. Qed.

(** ** The layout "15:04" *)

(** [getnum]: one or two digits, exactly two when [fixed]. *)
Definition getnum (l : list ascii) (fixed : bool) : option (Z * list ascii) :=
  match l with
  | c :: l' =>
      match digit_of c with
      | None => None
      | Some d =>
          match l' with
          | c2 :: l2 =>
              match digit_of c2 with
              | Some d2 => Some (d * 10 + d2, l2)
              | None => if fixed then None else Some (d, l')
              end
          | [] => if fixed then None else Some (d, l')
          end
      end
  | [] => None
  end.

(** [time.Parse("15:04", s)]: hour and minute. *)
Definition parse_clock (s : string) : option (Z * Z) :=
  match getnum (chars s) false with
  | Some (h, ":"%char :: l) =>
      if 24 <=? h then None
      else match getnum l true with
           | Some (m, []) => if 60 <=? m then None else Some (h, m)
           | _ => None
           end
  | _ => None
  end.
(** [t.Format("15:04")] *)
Definition two_digits (n : Z) : string :=
  String (digit_char (n / 10)) (String (digit_char (n mod 10)) EmptyString).
Definition format_clock (h m : Z) : string :=
  String.append (two_digits h) (String.append ":" (two_digits m)).

Example parse_clock_ex : map parse_clock ["22:00"; "7:05"; "24:00"; "12:60"; "1:5"; "12:30 "; "ab"]
  = [Some (22, 0); Some (7, 5); None; None; None; None; None].
Proof. by vm_compute. Qed.

Lemma digit_of_bounds c d : digit_of c = Some d -> 0 <= d <= 9.
Proof. unfold digit_of. case_match; [|done]. intros [= <-]. split_bools. lia. Qed.

Lemma getnum_bounds l fixed v l' : getnum l fixed = Some (v, l') -> 0 <= v <= 99.
Proof.
  unfold getnum. destruct l as [|c l1]; [done|]. destruct (digit_of c) as [d|] eqn:Ed; [|done].
  apply digit_of_bounds in Ed. destruct l1 as [|c2 l2].
  - destruct fixed; [done|]. intros [= <- <-]. lia.
  - destruct (digit_of c2) as [d2|] eqn:Ed2; [apply digit_of_bounds in Ed2|destruct fixed; [done|]];
      intros [= <- <-]; lia.
Qed.

Lemma parse_clock_bounds s h m : parse_clock s = Some (h, m) -> 0 <= h < 24 /\ 0 <= m < 60.
Proof.
  unfold parse_clock. destruct (getnum (chars s) false) as [[h' l]|] eqn:Eh; [|done].
  apply getnum_bounds in Eh. destruct l as [|c l]; [done|].
  destruct (Ascii.eqb_spec c ":") as [->|Hc].
  - destruct (24 <=? h') eqn:E24; [done|].
    destruct (getnum l true) as [[m' [|? ?]]|] eqn:Em; [|done|done]. apply getnum_bounds in Em.
    destruct (60 <=? m') eqn:E60; [done|]. intros [= <- <-]. lia.
  - intros H. exfalso. destruct c as [[] [] [] [] [] [] [] []]; done.
Qed.

(** The canonical form of a clock time parses to itself. *)
Lemma getnum_two n l : 0 <= n < 100 ->
  forall fixed, getnum (digit_char (n / 10) :: digit_char (n mod 10) :: l) fixed = Some (n, l).
Proof.
  intros Hn fixed. pose proof (Z.mod_pos_bound n 10). pose proof (Z.div_mod n 10).
  assert (0 <= n / 10 < 10) by (split; [apply Z.div_pos|apply Z.div_lt_upper_bound]; lia).
  unfold getnum. rewrite !digit_char_digit by lia. repeat f_equal; lia.
Qed.

Lemma parse_format_clock h m : 0 <= h < 24 -> 0 <= m < 60 -> parse_clock (format_clock h m) = Some (h, m).
Proof.
  intros Hh Hm. unfold parse_clock.
  change (chars (format_clock h m)) with
    (digit_char (h / 10) :: digit_char (h mod 10) :: ":"%char ::
     digit_char (m / 10) :: digit_char (m mod 10) :: []).
  rewrite !getnum_two by lia.
  by assert ((24 <=? h) = false /\ (60 <=? m) = false) as [-> ->] by lia.
Qed.
