(* ===== verification/GoNet.v ===== *)
(** The parts of Go's packages net, encoding/hex and strings that parse listen
    addresses, IP addresses and hex texts. *)
From stdpp Require Import base gmap strings list.
From Stdlib Require Import ZArith Lia Ascii.
From S2P Require Import Prelude GoLib.
Open Scope Z_scope.

(** ** Bytes *)
Definition is_char (c d : ascii) : bool := Ascii.eqb c d.

(** The text before and after the first [c]. *)
Fixpoint cut_first (c : ascii) (l : list ascii) : option (list ascii * list ascii) :=
  match l with
  | [] => None
  | d :: l' =>
      if is_char d c then Some ([], l')
      else match cut_first c l' with Some (a, b) => Some (d :: a, b) | None => None end
  end.
(** The text before and after the last [c]. *)
Definition cut_last (c : ascii) (l : list ascii) : option (list ascii * list ascii) :=
  match cut_first c (rev l) with Some (a, b) => Some (rev b, rev a) | None => None end.
Definition has_char (c : ascii) (l : list ascii) : bool := existsb (fun d => is_char d c) l.

(** ** net.SplitHostPort *)
Inductive AddrErr := MissingPort | MissingBracket | TooManyColons | UnexpectedOpen | UnexpectedClose.

Definition check_brackets (open_part close_part host port : list ascii) : AddrErr + (string * string) :=
  if has_char "[" open_part then inl UnexpectedOpen
  else if has_char "]" close_part then inl UnexpectedClose
  else inr (of_chars host, of_chars port).

Definition SplitHostPort (hostport : string) : AddrErr + (string * string) :=
  let s := chars hostport in
  match cut_last ":" s with
  | None => inl MissingPort
  | Some (before, port) =>
      match s with
      | "["%char :: s1 =>
          match cut_first "]" s1 with
          | None => inl MissingBracket
          | Some (host, []) => inl MissingPort
          | Some (host, rest) =>
              if (List.length rest =? S (List.length port))%nat
              then check_brackets s1 rest host port
              else match rest with
                   | ":"%char :: _ => inl TooManyColons
                   | _ => inl MissingPort
                   end
          end
      | _ =>
          if has_char ":" before then inl TooManyColons
          else check_brackets s s before port
      end
  end.

Example SplitHostPort_ex :
  map SplitHostPort ["127.0.0.1:8010"; ":8010"; "[::1]:80"; "::1:80"; "host"; "[::1]"; "[::1]x:80"; "a[b:1"; "a]b:1"; ""]
  = [inr ("127.0.0.1", "8010"); inr ("", "8010"); inr ("::1", "80"); inl TooManyColons; inl MissingPort;
     inl MissingPort; inl MissingPort; inl UnexpectedOpen; inl UnexpectedClose; inl MissingPort].
Proof. by vm_compute. Qed.

(** ** net.ParseIP *)

(** [parseIPv4Fields]: [val] and [dig] are the value and the digits of the
    octet being read, [prev] says whether a byte came before and whether it was a dot. *)
Fixpoint ipv4_fields (l : list ascii) (val : Z) (dig : nat) (acc : list Z) (start : bool)
  : option (list Z) :=
  match l with
  | [] => if (List.length acc =? 3)%nat then Some (acc ++ [val]) else None
  | c :: l' =>
      match digit_of c with
      | Some d =>
          if (dig =? 1)%nat && (val =? 0) then None
          else let v := val * 10 + d in
               if 255 <? v then None else ipv4_fields l' v (S dig) acc false
      | None =>
          if is_char c "." then
            if (start : bool) then None
            else match l' with
                 | [] => None
                 | _ => if (List.length acc =? 3)%nat then None
                        else ipv4_fields l' 0 0 (acc ++ [val]) true
                 end
          else None
      end
  end.
Definition parseIPv4Fields (l : list ascii) : option (list Z) := ipv4_fields l 0 0 [] true.

Definition hex_digit (c : ascii) : option Z :=
  let n := Z.of_N (N_of_ascii c) in
  if (48 <=? n) && (n <=? 57) then Some (n - 48)
  else if (97 <=? n) && (n <=? 102) then Some (n - 97 + 10)
  else if (65 <=? n) && (n <=? 70) then Some (n - 65 + 10)
  else None.

(** One group of at most four hex digits: its value, its digits, the rest. *)
Fixpoint hex_group (l : list ascii) (off : nat) (acc : Z) : option (nat * Z * list ascii) :=
  match l with
  | c :: l' =>
      match hex_digit c with
      | Some d => if (3 <? off)%nat then None else hex_group l' (S off) (Z.shiftl acc 4 + d)
      | None => Some (off, acc, l)
      end
  | [] => Some (off, acc, [])
  end.

(** The loop of [parseIPv6]: [ip] the bytes so far, [ell] where the ellipsis
    stood; every turn but the last adds two bytes, so eight turns are enough. *)
Fixpoint ipv6_loop (fuel : nat) (s : list ascii) (ip : list Z) (ell : option nat)
  : option (list Z * option nat) :=
  match fuel with
  | O => match s with [] => Some (ip, ell) | _ => None end
  | S f =>
      match hex_group s 0 0 with
      | None => None
      | Some (off, acc, rest) =>
          if (off =? 0)%nat then None
          else
            match rest with
            | "."%char :: _ =>
                if (match ell with None => negb (List.length ip =? 12)%nat | _ => false end) then None
                else if (16 <? List.length ip + 4)%nat then None
                else match parseIPv4Fields s with
                     | Some v4 => Some (ip ++ v4, ell)
                     | None => None
                     end
            | _ =>
                let ip := ip ++ [Z.shiftr acc 8; Z.land acc 255] in
                match rest with
                | [] => Some (ip, ell)
                | ":"%char :: rest1 =>
                    match rest1 with
                    | [] => None
                    | ":"%char :: rest2 =>
                        match ell with
                        | Some _ => None
                        | None =>
                            let ell := Some (List.length ip) in
                            match rest2 with
                            | [] => Some (ip, ell)
                            | _ => ipv6_loop f rest2 ip ell
                            end
                        end
                    | _ => ipv6_loop f rest1 ip ell
                    end
                | _ => None
                end
            end
      end
  end.
Definition expand_ellipsis (ip : list Z) (ell : option nat) : option (list Z) :=
  let n := (16 - List.length ip)%nat in
  match ell with
  | None => if (n =? 0)%nat then Some ip else None
  | Some e => if (n =? 0)%nat then None else Some (take e ip ++ repeat 0 n ++ drop e ip)
  end.
Definition parseIPv6 (s : list ascii) : option (list Z) :=
  match s with
  | ":"%char :: ":"%char :: [] => Some (repeat 0 16)
  | ":"%char :: ":"%char :: s' =>
      match ipv6_loop 8 s' [] (Some 0%nat) with
      | Some (ip, ell) => expand_ellipsis ip ell
      | None => None
      end
  | _ =>
      match ipv6_loop 8 s [] None with
      | Some (ip, ell) => expand_ellipsis ip ell
      | None => None
      end
  end.

(** [net.ParseIP]: the sixteen bytes, an IPv4 address mapped into IPv6.  An
    address with a zone ("%") is no IP address here. *)
Definition v4_mapped : list Z := [0; 0; 0; 0; 0; 0; 0; 0; 0; 0; 255; 255].
Fixpoint ip_kind (l : list ascii) : option bool :=
  match l with
  | [] => None
  | c :: l' => if is_char c "." then Some true else if is_char c ":" then Some false
               else if is_char c "%" then None else ip_kind l'
  end.
Definition ParseIP (host : string) : option (list Z) :=
  let s := chars host in
  match ip_kind s with
  | Some true => match parseIPv4Fields s with Some f => Some (v4_mapped ++ f) | None => None end
  | Some false => if has_char "%" s then None else parseIPv6 s
  | None => None
  end.

(** [IP.IsLoopback]: 127.0.0.0/8 (also mapped into IPv6) or ::1. *)
Definition IsLoopback (ip : list Z) : bool :=
  if bool_decide (take 12 ip = v4_mapped) then match drop 12 ip with a :: _ => a =? 127 | [] => false end
  else bool_decide (ip = repeat 0 15 ++ [1]).

Definition loopback_text (s : string) : bool :=
  match ParseIP s with Some ip => IsLoopback ip | None => false end.

Example ParseIP_ex :
  map loopback_text
    ["127.0.0.1"; "127.9.9.9"; "10.0.0.1"; "::1"; "0:0:0:0:0:0:0:1"; "::ffff:127.0.0.1"; "::ffff:7f00:1"; "::2";
     "::"; "1::"; "127.0.0.01"; "127.0.0"; "127.0.0.1.1"; "127..0.1"; "256.0.0.1"; "::1%lo"; "localhost"; ""; "[::1]";
     "1:2:3:4:5:6:7:8:9"; "0::0:0:0:0:0:0:1"; "::1::"; "12345::1"; "0000:0000:0000:0000:0000:0000:127.0.0.1"]
  = [true; true; false; true; true; true; true; false; false; false; false; false; false; false; false; false; false;
     false; false; false; false; false; false; false].
Proof. by vm_compute. Qed.

(** ** encoding/hex *)
Fixpoint hex_bytes (l : list ascii) : option (list Z) :=
  match l with
  | [] => Some []
  | a :: b :: l' =>
      match hex_digit a, hex_digit b, hex_bytes l' with
      | Some x, Some y, Some r => Some (16 * x + y :: r)
      | _, _, _ => None
      end
  | _ => None
  end.
(** [hex.DecodeString] *)
Definition DecodeString (s : string) : option (list Z) := hex_bytes (chars s).

(** ** strings.EqualFold against an ASCII text

    Two code points outside ASCII fold to a letter of it: U+017F (long s) and
    U+212A (Kelvin sign). *)
Fixpoint fold_case (l : list ascii) : list ascii :=
  match l with
  | "197"%char :: "191"%char :: l' => "s"%char :: fold_case l'
  | "226"%char :: "132"%char :: "170"%char :: l' => "k"%char :: fold_case l'
  | c :: l' => lower_char c :: fold_case l'
  | [] => []
  end.
Definition EqualFold (s lower_ascii : string) : bool :=
  bool_decide (fold_case (chars s) = chars lower_ascii).

Lemma hex_bytes_length l r : hex_bytes l = Some r -> List.length l = (2 * List.length r)%nat.
Proof.
  revert l. induction r as [|x r IH]; intros l.
  - destruct l as [|a [|b l]]; cbn; [done|done|]. by repeat case_match.
  - destruct l as [|a [|b l]]; cbn [hex_bytes]; [done|done|].
    destruct (hex_digit a), (hex_digit b); try done.
    destruct (hex_bytes l) as [r'|] eqn:E; [|done]. intros [= <- ->]. apply IH in E.
    cbn. rewrite E. lia.
Qed.

Lemma hex_digit_bounds c d : hex_digit c = Some d -> 0 <= d <= 15.
Proof. unfold hex_digit. repeat case_match; intros [= <-]; split_bools; lia. Qed.

Lemma hex_bytes_range l r : hex_bytes l = Some r -> Forall (fun b => 0 <= b <= 255) r.
Proof.
  revert l. induction r as [|x r IH]; intros l; [constructor|].
  destruct l as [|a [|b l]]; cbn [hex_bytes]; [done|done|].
  destruct (hex_digit a) eqn:Ea; [|done]. destruct (hex_digit b) eqn:Eb; [|done].
  destruct (hex_bytes l) as [r'|] eqn:E; [|done]. intros [= <- ->].
  apply hex_digit_bounds in Ea, Eb. constructor; [lia|by eapply IH].
Qed.
