(* ===== verification/GoPath.v ===== *)
(** The parts of Go's path, path/filepath, strings and bufio that the file handling
    uses, for slash-separated paths. *)
From stdpp Require Import base gmap strings list sorting.
From Stdlib Require Import ZArith Lia Ascii.
From S2P Require Import Prelude GoLib GoNet.
Open Scope Z_scope.

(** ** path.Clean, Join, Base, IsAbs *)

(** Empty and "." components fall away, ".." takes the one before it with it; at
    the root there is none to take, and a relative path keeps it. *)
Definition clean_step (rooted : bool) (stack : list string) (part : string) : list string :=
  if String.eqb part "" || String.eqb part "." then stack
  else if String.eqb part ".." then
    match stack with
    | top :: stack' => if String.eqb top ".." then part :: stack else stack'
    | [] => if rooted then [] else [part]
    end
  else part :: stack.
Definition IsAbs (p : string) : bool := HasPrefix p "/".
Definition Clean (p : string) : string :=
  let rooted := IsAbs p in
  let body := Join (rev (fold_left (clean_step rooted) (Split p "/"%char) [])) "/" in
  if rooted then String.append "/" body else if String.eqb body "" then "." else body.

(** [filepath.Join]: empty elements are ignored; nothing but those is "". *)
Definition JoinPath (elems : list string) : string :=
  match filter (fun e => e <> "") elems with
  | [] => ""
  | l => Clean (Join l "/")
  end.
(** [filepath.Base] *)
Definition Base (p : string) : string :=
  match p with
  | EmptyString => "."
  | _ =>
      match drop_while (fun c => is_char c "/") (rev (chars p)) with
      | [] => "/"
      | l => match cut_first "/" l with Some (b, _) => of_chars (rev b) | None => of_chars (rev l) end
      end
  end.

Example Clean_ex : map Clean ["/a/b"; "/a//b/"; "/a/../b"; "/.."; "a/./b/.."; "../a"; ""; "/"; "a/../.."]
  = ["/a/b"; "/a/b"; "/b"; "/"; "a"; "../a"; "."; "/"; ".."].
Proof. by vm_compute. Qed.
Example Base_ex : map Base ["/a/hwmon3"; "/a/b/"; "/"; ""; "x"] = ["hwmon3"; "b"; "/"; "."; "x"].
Proof. by vm_compute. Qed.

(** ** strings *)
Definition HasSuffix (s t : string) : bool := String.prefix (of_chars (rev (chars t))) (of_chars (rev (chars s))).
Definition TrimSuffix (s t : string) : string :=
  if HasSuffix s t then String.substring 0 (String.length s - String.length t) s else s.
(** [strings.Cut] at one byte. *)
Definition Cut (s : string) (sep : ascii) : option (string * string) :=
  match cut_first sep (chars s) with Some (a, b) => Some (of_chars a, of_chars b) | None => None end.

(** [strings.Fields]: the maximal runs of non-space bytes. *)
Fixpoint fields_loop (l cur : list ascii) : list string :=
  let flush := match cur with [] => [] | _ => [of_chars (rev cur)] end in
  match l with
  | [] => flush
  | c :: l' => if is_space c then flush ++ fields_loop l' [] else fields_loop l' (c :: cur)
  end.
Definition Fields (s : string) : list string := fields_loop (chars s) [].

(** [strings.Index]: the position of the first occurrence. *)
Fixpoint index_loop (s sub : string) (i : nat) : option nat :=
  if String.prefix sub s then Some i
  else match s with String _ s' => index_loop s' sub (S i) | EmptyString => None end.
Definition Index (s sub : string) : option nat := index_loop s sub 0.
Definition slice (s : string) (a b : nat) : string := String.substring a (b - a) s.

Definition ReplaceAll_loop (old new : string) : nat -> string -> string :=
  fix go fuel s :=
    match fuel, s with
    | S f, String c s' =>
        if String.prefix old s
        then String.append new (go f (String.substring (String.length old) (String.length s - String.length old) s))
        else String c (go f s')
    | _, _ => s
    end.
(** [strings.ReplaceAll] with a non-empty [old]. *)
Definition ReplaceAll (s old new : string) : string := ReplaceAll_loop old new (String.length s) s.

(** [strconv.ParseUint] in base 16, up to [max]. *)
Fixpoint hex_val (l : list ascii) (acc : Z) : option Z :=
  match l with
  | [] => Some acc
  | c :: l' => match hex_digit c with Some d => hex_val l' (16 * acc + d) | None => None end
  end.
Definition ParseHex (s : string) (max : Z) : option Z :=
  match chars s with
  | [] => None
  | l => match hex_val l 0 with Some v => if v <=? max then Some v else None | None => None end
  end.
Definition hex_char (d : Z) : ascii := ascii_of_N (Z.to_N (if d <? 10 then 48 + d else 87 + d)).
(** ["%02x"] of a byte. *)
Definition hex2 (b : Z) : string := String (hex_char (b / 16)) (String (hex_char (b mod 16)) EmptyString).

(** The lines of [bufio.Scanner] (each within its 64 KiB): no empty last line, a
    carriage return at the end of a line is dropped. *)
Definition drop_cr (l : string) : string := TrimSuffix l (String "013" EmptyString).
Definition ScanLines (s : string) : list string :=
  let parts := Split s "010"%char in
  map drop_cr (match rev parts with "" :: r => rev r | _ => parts end).

Example strings_ex :
  TrimSuffix "nvme:max" ":max" = "nvme" /\ Fields "  a bc  d " = ["a"; "bc"; "d"] /\ Index "x]]y" "]]" = Some 1%nat /\
  ReplaceAll "a.b.c" "." "--" = "a--b--c" /\ ParseHex "fF" 255 = Some 255 /\ ParseHex "100" 255 = None /\
  hex2 171 = "ab" /\ ScanLines (of_chars ["a"%char; "013"%char; "010"%char; "010"%char; "b"%char; "010"%char]) = ["a"; ""; "b"].
Proof. by vm_compute. Qed.

Lemma ParseHex_hex2 b : 0 <= b <= 255 -> ParseHex (hex2 b) 255 = Some b.
Proof.
  intros Hb. assert (Hall : forallb (fun n => bool_decide (ParseHex (hex2 (Z.of_nat n)) 255 = Some (Z.of_nat n))) (seq 0 256) = true)
    by by vm_compute.
  rewrite forallb_forall in Hall. specialize (Hall (Z.to_nat b) ltac:(apply in_seq; lia)).
  rewrite Z2Nat.id in Hall by lia. by apply bool_decide_eq_true in Hall.
Qed.

Lemma prefix_nil s : String.prefix "" s = true.
Proof. by destruct s. Qed.
Lemma IsAbs_cons c s : IsAbs (String c s) = if ascii_dec "/" c then true else false.
Proof. change (IsAbs (String c s)) with (if ascii_dec "/" c then String.prefix "" s else false). by rewrite prefix_nil. Qed.
Lemma IsAbs_append s t : IsAbs s = true -> IsAbs (String.append s t) = true.
Proof.
  destruct s as [|c s]; [done|]. change (String.append (String c s) t) with (String c (String.append s t)).
  by rewrite !IsAbs_cons.
Qed.
Lemma IsAbs_Clean p : IsAbs p = true -> IsAbs (Clean p) = true.
Proof. intros H. unfold Clean. rewrite H. by apply IsAbs_append. Qed.
Lemma IsAbs_JoinPath root l : IsAbs root = true -> IsAbs (JoinPath (root :: l)) = true.
Proof.
  intros Hr. unfold JoinPath. rewrite filter_cons_True by by intros ->.
  destruct (filter _ l) as [|q l']; apply IsAbs_Clean; [done|].
  change (Join (root :: q :: l') "/") with (String.append root (String.append "/" (Join (q :: l') "/"))).
  by apply IsAbs_append.
Qed.

(** ** Texts put together and taken apart *)
Lemma cut_first_app c l l' : Forall (fun d => d <> c) l -> cut_first c (l ++ c :: l') = Some (l, l').
Proof.
  induction 1 as [|d l Hd _ IH]; cbn; unfold is_char in *; [by rewrite Ascii.eqb_refl|].
  destruct (Ascii.eqb_spec d c); [done|]. by rewrite IH.
Qed.
Lemma cut_first_none c l : Forall (fun d => d <> c) l -> cut_first c l = None.
Proof.
  induction 1 as [|d l Hd _ IH]; cbn; unfold is_char in *; [done|].
  destruct (Ascii.eqb_spec d c); [done|]. by rewrite IH.
Qed.

(** Nothing is trimmed from a text whose ends are not white space. *)
Definition not_space (l : list ascii) : Prop := match l with [] => False | c :: _ => is_space c = false end.
Definition ends_plain (s : string) : Prop := not_space (chars s) /\ not_space (rev (chars s)).
Lemma TrimSpace_ends s : ends_plain s -> TrimSpace s = s.
Proof.
  intros [H1 H2]. unfold TrimSpace, trim_right_chars. rewrite (drop_while_id _ (chars s)) by by destruct (chars s).
  rewrite drop_while_id by by destruct (rev (chars s)). by rewrite rev_involutive, of_chars_chars.
Qed.
Lemma TrimSpace_id c l d : is_space c = false -> is_space d = false ->
  TrimSpace (of_chars (c :: l ++ [d])) = of_chars (c :: l ++ [d]).
Proof.
  intros Hc Hd. apply TrimSpace_ends. unfold ends_plain. rewrite chars_of_chars. split; [done|].
  change (c :: l ++ [d]) with ((c :: l) ++ [d]). by rewrite rev_app_distr.
Qed.
Lemma ends_TrimSpace s : TrimSpace s = s -> s <> "" -> ends_plain s.
Proof.
  intros H Hne. assert (Hc : chars s <> []) by (by destruct s).
  assert (Hs : chars s = rev (drop_while is_space (rev (drop_while is_space (chars s))))).
  { rewrite <- H at 1. unfold TrimSpace, trim_right_chars. by rewrite chars_of_chars. }
  split.
  - pose proof (drop_while_head is_space (chars s)) as Hh.
    destruct (drop_while_suffix is_space (rev (drop_while is_space (chars s)))) as [t Ht].
    apply (f_equal (@rev ascii)) in Ht. rewrite rev_involutive, rev_app_distr, <- Hs in Ht. rewrite Ht in Hh.
    by destruct (chars s).
  - pose proof (drop_while_head is_space (rev (drop_while is_space (chars s)))) as Hh.
    assert (Hr : rev (chars s) = drop_while is_space (rev (drop_while is_space (chars s)))).
    { rewrite Hs at 1. by rewrite rev_involutive. }
    rewrite <- Hr in Hh. destruct (rev (chars s)) eqn:E; [|done]. apply (f_equal (@rev ascii)) in E. by rewrite rev_involutive in E.
Qed.
Lemma ends_append s m t : ends_plain s -> ends_plain t -> ends_plain (String.append s (String.append m t)).
Proof.
  intros [H1 _] [_ H2]. unfold ends_plain. rewrite !chars_app. split.
  - by destruct (chars s).
  - rewrite !rev_app_distr. by destruct (rev (chars t)).
Qed.
Lemma TrimSpace_space c s : is_space c = true -> TrimSpace (String c s) = TrimSpace s.
Proof. intros H. unfold TrimSpace. cbn [String.list_ascii_of_string drop_while]. by rewrite H. Qed.
Lemma TrimSpace_space_r s c : is_space c = true -> TrimSpace (String.append s (String c "")) = TrimSpace s.
Proof.
  intros H. unfold TrimSpace. rewrite chars_app. cbn [String.list_ascii_of_string]. f_equal.
  assert (Hd : drop_while is_space (chars s ++ [c]) = drop_while is_space (chars s) ++ [c] \/
    drop_while is_space (chars s ++ [c]) = [] /\ drop_while is_space (chars s) = []).
  { induction (chars s) as [|d l IH]; cbn; [rewrite H; by right|]. destruct (is_space d); [exact IH|by left]. }
  destruct Hd as [->|[-> ->]]; [by apply trim_right_space|done].
Qed.

Lemma HasPrefix_append p s : HasPrefix (String.append p s) p = true.
Proof.
  unfold HasPrefix. induction p as [|c p IH]; [apply prefix_nil|].
  change (String.append (String c p) s) with (String c (String.append p s)).
  cbn. destruct (ascii_dec c c); [exact IH|done].
Qed.
Lemma HasPrefix_inv s p : HasPrefix s p = true -> exists t, s = String.append p t.
Proof.
  unfold HasPrefix. revert s. induction p as [|c p IH]; intros s; [by exists s|].
  destruct s as [|d s]; [done|]. cbn. destruct (ascii_dec c d) as [->|]; [|done]. intros H.
  destruct (IH s H) as [t ->]. by exists t.
Qed.
Lemma substring_all s : String.substring 0 (String.length s) s = s.
Proof. induction s as [|c s IH]; [done|]. cbn. by rewrite IH. Qed.
Lemma TrimPrefix_append p s : TrimPrefix (String.append p s) p = s.
Proof.
  unfold TrimPrefix. rewrite HasPrefix_append.
  assert (Hl : forall a b, String.length (String.append a b) = (String.length a + String.length b)%nat).
  { intros a b. induction a as [|c a IH]; [done|].
    change (S (String.length (String.append a b)) = S (String.length a + String.length b)). by rewrite IH. }
  rewrite Hl. replace (String.length p + String.length s - String.length p)%nat with (String.length s) by lia.
  induction p as [|c p IH]; [apply substring_all|]. exact IH.
Qed.
Lemma of_chars_app a b : of_chars (a ++ b) = String.append (of_chars a) (of_chars b).
Proof. rewrite <- (of_chars_chars (String.append _ _)). by rewrite chars_app, !chars_of_chars. Qed.
Lemma length_append a b : String.length (String.append a b) = (String.length a + String.length b)%nat.
Proof.
  induction a as [|c a IH]; [done|].
  change (S (String.length (String.append a b)) = S (String.length a + String.length b)). by rewrite IH.
Qed.
Lemma substring_append a b : String.substring 0 (String.length a) (String.append a b) = a.
Proof.
  induction a as [|c a IH]; [by destruct b|].
  change (String c (String.substring 0 (String.length a) (String.append a b)) = String c a). by rewrite IH.
Qed.
Lemma TrimSuffix_append a b : TrimSuffix (String.append a b) b = a.
Proof.
  unfold TrimSuffix, HasSuffix. rewrite chars_app, rev_app_distr, of_chars_app.
  fold (HasPrefix (String.append (of_chars (rev (chars b))) (of_chars (rev (chars a)))) (of_chars (rev (chars b)))).
  rewrite HasPrefix_append, length_append, Nat.add_sub. apply substring_append.
Qed.
Lemma Split_plain s sep : Forall (fun p => Forall (fun c => c <> sep) (chars p)) (Split s sep).
Proof.
  unfold Split. assert (H : Forall (fun c => c <> sep) (@nil ascii)) by constructor. revert H.
  generalize (@nil ascii) as cur. induction (chars s) as [|c l IH]; intros cur H; cbn.
  - repeat constructor. rewrite chars_of_chars. apply Forall_forall. intros x Hx. rewrite Forall_forall in H.
    apply H, list_elem_of_In, in_rev, list_elem_of_In, Hx.
  - destruct (Ascii.eqb_spec c sep) as [->|Hne].
    + constructor; [|by apply IH]. rewrite chars_of_chars. apply Forall_forall. intros x Hx. rewrite Forall_forall in H.
      apply H, list_elem_of_In, in_rev, list_elem_of_In, Hx.
    + apply IH. by constructor.
Qed.
Lemma append_assoc a b c : String.append (String.append a b) c = String.append a (String.append b c).
Proof.
  induction a as [|x a IH]; [done|].
  change (String x (String.append (String.append a b) c) = String x (String.append a (String.append b c))). by rewrite IH.
Qed.
Lemma append_nil_r s : String.append s "" = s.
Proof. induction s as [|c s IH]; [done|]. change (String c (String.append s "") = String c s). by rewrite IH. Qed.

(** ** Addresses
    Go's package net/netip, as far as the rate limiter of the web server uses it: an
    address is parsed, its zone dropped, and printed in its canonical form. *)
(** Four bytes, or sixteen (without the zone). *)
Inductive Addr := Addr4 (b : list Z) | Addr6 (b : list Z).
#[export] Instance Addr_eq : EqDecision Addr.
Proof. solve_decision. Defined.

(** [netip.ParseAddr] and [WithZone("")]: a zone follows the first "%" of an IPv6
    address and is not empty. *)
Definition ParseAddr (s : string) : option Addr :=
  let l := chars s in
  match ip_kind l with
  | Some true => Addr4 <$> parseIPv4Fields l
  | Some false =>
      match cut_first "%" l with
      | None => Addr6 <$> parseIPv6 l
      | Some (_, []) => None
      | Some (a, _) => Addr6 <$> parseIPv6 a
      end
  | None => None
  end.
Definition Unmap (a : Addr) : Addr :=
  match a with
  | Addr6 b => if bool_decide (take 12 b = v4_mapped) then Addr4 (drop 12 b) else a
  | _ => a
  end.
Definition Is4 (a : Addr) : bool := match a with Addr4 _ => true | Addr6 _ => false end.

(** *** Printing *)
Fixpoint pairs (b : list Z) : list Z := match b with x :: y :: b' => 256 * x + y :: pairs b' | _ => [] end.
(** A group without leading zeros. *)
Definition appendHex (x : Z) : list ascii :=
  (if 4096 <=? x then [hex_char (Z.shiftr x 12)] else []) ++
  (if 256 <=? x then [hex_char (Z.land (Z.shiftr x 8) 15)] else []) ++
  (if 16 <=? x then [hex_char (Z.land (Z.shiftr x 4) 15)] else []) ++ [hex_char (Z.land x 15)].
Fixpoint zeros (l : list Z) : nat := match l with 0 :: l' => S (zeros l') | _ => 0%nat end.
(** The first longest run of at least two zero groups: where it starts and its length. *)
Fixpoint zero_run (i : nat) (l : list Z) (best : nat * nat) : nat * nat :=
  match l with
  | [] => best
  | _ :: l' => let n := zeros l in
      zero_run (S i) l' (if (2 <=? n)%nat && (best.2 <? n)%nat then (i, n) else best)
  end.
Definition groups (l : list Z) : list ascii := chars (Join (map (fun x => of_chars (appendHex x)) l) ":").
Definition String6 (b : list Z) : string :=
  let l := pairs b in
  let '(i, n) := zero_run 0 l (0%nat, 0%nat) in
  of_chars (if (n =? 0)%nat then groups l else groups (take i l) ++ chars "::" ++ groups (drop (i + n) l)).
Definition Addr_String (a : Addr) : string :=
  match a with
  | Addr4 b => Join (map Itoa b) "."
  | Addr6 b => String6 b
  end.
(** [Prefix(64)] of an IPv6 address, printed. *)
Definition Prefix64_String (b : list Z) : string := String.append (String6 (take 8 b ++ replicate 8 0)) "/64".

Example ParseAddr_ex :
  map (fun s => Addr_String <$> (Unmap <$> ParseAddr s))
    ["192.168.0.7"; "::ffff:10.0.0.1"; "fe80::1%vmbr0"; "2001:DB8:0:0:1:0:0:1"; "::"; "1:0:0:2::"; "1::2:3:4:5:6:7"; "fe80::1%"; "local"; ""]
  = [Some "192.168.0.7"; Some "10.0.0.1"; Some "fe80::1"; Some "2001:db8::1:0:0:1"; Some "::"; Some "1:0:0:2::";
     Some "1:0:2:3:4:5:6:7"; None; None; None].
Proof. by vm_compute. Qed.

(** ** Maps
    Iteration over a map: every entry once, in an order the language leaves open.  The
    order is a parameter of the model ([MapOrder]); what is proved holds for any of them. *)
Class MapOrder := { map_order : gset string -> list string; map_order_perm d : map_order d ≡ₚ elements d }.

Section Iter.
Context {Mo : MapOrder} {A : Type}.
Implicit Types (m : gmap string A) (l : list (string * A)).

(** [for k, v := range m] *)
Definition map_iter m : list (string * A) := omap (fun k => (k,.) <$> m !! k) (map_order (dom m)).

Lemma elem_of_map_iter m k v : (k, v) ∈ map_iter m <-> m !! k = Some v.
Proof.
  unfold map_iter. rewrite list_elem_of_omap. split.
  - intros (k' & _ & H). destruct (m !! k') as [v'|] eqn:E; [|done]. cbn in H. by injection H as -> ->.
  - intros H. exists k. rewrite H. split; [|done]. rewrite map_order_perm, elem_of_elements. by apply elem_of_dom_2 in H.
Qed.
Lemma map_iter_keys m : map fst (map_iter m) = map_order (dom m).
Proof.
  unfold map_iter. assert (H : Forall (fun k => is_Some (m !! k)) (map_order (dom m))).
  { apply Forall_forall. intros k Hk. apply elem_of_dom. apply elem_of_elements. by rewrite <- map_order_perm. }
  induction H as [|k l [v Hv] _ IH]; [done|]. cbn. rewrite Hv. cbn. by rewrite IH.
Qed.
Lemma map_iter_NoDup m : NoDup (map fst (map_iter m)).
Proof. rewrite map_iter_keys, map_order_perm. apply NoDup_elements. Qed.
Lemma map_iter_length m : length (map_iter m) = size m.
Proof.
  rewrite <- (length_map fst), map_iter_keys. rewrite (Permutation_length (map_order_perm (dom m))). apply size_dom.
Qed.
Lemma map_iter_empty : map_iter ∅ = [].
Proof. apply length_zero_iff_nil. by rewrite map_iter_length, map_size_empty. Qed.
Lemma list_to_map_iter m : (list_to_map (map_iter m) : gmap string A) = m.
Proof.
  apply map_eq. intros k. destruct (m !! k) as [v|] eqn:E.
  - apply elem_of_list_to_map_1; [apply map_iter_NoDup|]. by apply elem_of_map_iter.
  - apply not_elem_of_list_to_map_1. intros H. apply list_elem_of_fmap in H as ([k' v] & -> & H). apply elem_of_map_iter in H. cbn in E. by rewrite E in H.
Qed.
End Iter.

(** The order of the keys' values does not matter: the iteration commutes with a
    change of the values. *)
Lemma map_iter_fmap {Mo : MapOrder} {A B} (f : A -> B) (m : gmap string A) :
  map_iter (f <$> m) = map (fun kv => (kv.1, f kv.2)) (map_iter m).
Proof.
  unfold map_iter. rewrite dom_fmap_L. induction (map_order (dom m)) as [|k l IH]; [done|]. cbn. rewrite lookup_fmap.
  destruct (m !! k); cbn; by rewrite IH.
Qed.
#[export] Instance elements_order : MapOrder := {| map_order := elements; map_order_perm d := reflexivity _ |}.
