(* ===== verification/Debver.v ===== *)
(** Package debver (src/internal/debver/debver.go): the comparison of Debian
    version strings.  Strings are lists of bytes; an index into a string is the
    suffix that starts there. *)
From stdpp Require Import base gmap strings list.
From Stdlib Require Import ZArith Lia Ascii.
From S2P Require Import Prelude GoLib GoNet.
Open Scope Z_scope.

Definition sign (n : Z) : Z := if n <? 0 then -1 else if 0 <? n then 1 else 0.
Definition cmpInt (a b : Z) : Z := if a <? b then -1 else if b <? a then 1 else 0.

Definition byte (c : ascii) : Z := Z.of_N (N_of_ascii c).
Definition isDigit (c : ascii) : bool := (48 <=? byte c) && (byte c <=? 57).
Definition isAlpha (c : ascii) : bool :=
  ((97 <=? byte c) && (byte c <=? 122)) || ((65 <=? byte c) && (byte c <=? 90)).

Definition order (s : list ascii) : Z :=
  match s with
  | [] => 0
  | c :: _ =>
      if isDigit c then 0
      else if isAlpha c then byte c
      else if is_char c "~" then -1
      else byte c + 256
  end.

(** [atoi] accumulates in an [int]. *)
Fixpoint atoi_loop (s : list ascii) (n : Z) : option Z :=
  match s with
  | [] => Some n
  | c :: s' => if isDigit c then atoi_loop s' (wrap64 (n * 10 + (byte c - 48))) else None
  end.
Definition atoi (s : list ascii) : option Z := match s with [] => None | _ => atoi_loop s 0 end.

(** Epoch, upstream version, revision. *)
Definition split (v : string) : Z * list ascii * list ascii :=
  let v := chars (TrimSpace v) in
  let '(epoch, v) :=
    match cut_first ":" v with
    | Some (e, rest) => (match atoi e with Some n => n | None => 0 end, rest)
    | None => (0, v)
    end in
  match cut_last "-" v with
  | Some (up, rev) => (epoch, up, rev)
  | None => (epoch, v, [])
  end.

(** ** verrevcmp *)
Definition head_is (p : ascii -> bool) (s : list ascii) : bool := match s with c :: _ => p c | [] => false end.
Definition non_digit (c : ascii) : bool := negb (isDigit c).

(** The characters before the next digits: the difference, or what is left of
    both strings.  Both indices advance in every turn. *)
Fixpoint letters (fuel : nat) (a b : list ascii) : Z + list ascii * list ascii :=
  match fuel with
  | O => inr (a, b)
  | S f =>
      if head_is non_digit a || head_is non_digit b then
        let ac := order a in
        let bc := order b in
        if negb (ac =? bc) then inl (ac - bc) else letters f (tail a) (tail b)
      else inr (a, b)
  end.

Definition skip_zeros (s : list ascii) : list ascii := drop_while (fun c => is_char c "0") s.

(** The common run of digits, with the first difference seen. *)
Fixpoint digits (a b : list ascii) (firstDiff : Z) : Z * list ascii * list ascii :=
  match a, b with
  | x :: a', y :: b' =>
      if isDigit x && isDigit y
      then digits a' b' (if firstDiff =? 0 then byte x - byte y else firstDiff)
      else (firstDiff, a, b)
  | _, _ => (firstDiff, a, b)
  end.

Fixpoint verrevcmp_loop (fuel : nat) (a b : list ascii) : Z :=
  match fuel with
  | O => 0
  | S f =>
      match a, b with
      | [], [] => 0
      | _, _ =>
          match letters (length a + length b) a b with
          | inl d => d
          | inr (a, b) =>
              let '(firstDiff, a, b) := digits (skip_zeros a) (skip_zeros b) 0 in
              if head_is isDigit a then 1
              else if head_is isDigit b then -1
              else if negb (firstDiff =? 0) then firstDiff
              else verrevcmp_loop f a b
          end
      end
  end.
(** Every turn consumes a byte of one of the strings. *)
Definition verrevcmp (a b : list ascii) : Z := verrevcmp_loop (S (length a + length b)) a b.

Definition Compare (a b : string) : Z :=
  let '(ae, au, ar) := split a in
  let '(be, bu, br) := split b in
  let c := cmpInt ae be in
  if negb (c =? 0) then c
  else
    let c := verrevcmp au bu in
    if negb (c =? 0) then sign c else sign (verrevcmp ar br).

Definition Less (a b : string) : bool := Compare a b <? 0.
Definition UpstreamOf (v : string) : string := let '(_, u, _) := split v in of_chars u.

Example Compare_ex :
  map (fun p => Compare p.1 p.2)
    [("0.2.1+sr1~rc1", "0.2.1+sr1"); ("1.0-1", "1.0-2"); ("1:0.1", "9.9"); ("1.10", "1.9"); ("1.0", "1.00");
     ("a", "a0"); ("1.0~", "1.0"); ("1.0a", "1.0+"); ("", ""); ("2", "10")]
  = [-1; -1; 1; 1; 0; 0; -1; -1; 0; -1].
Proof. by vm_compute. Qed.
Example UpstreamOf_ex : UpstreamOf "1:0.2.1+sr1~rc1-1" = "0.2.1+sr1~rc1".
Proof. by vm_compute. Qed.

(** ** The specification: the lexicographic order of keys

    The key of a text is the weights of its non-digits, a zero, the value of the
    digits that follow, and so on to the end; keys are padded with zeros. *)
Fixpoint run_val (s : list ascii) (acc : Z) : Z :=
  match s with
  | c :: s' => if isDigit c then run_val s' (acc * 10 + (byte c - 48)) else acc
  | [] => acc
  end.
(** [in_run] is set while the digits of a number are being passed over. *)
Fixpoint key (s : list ascii) (in_run : bool) : list Z :=
  match s with
  | [] => []
  | c :: s' =>
      if isDigit c then if in_run then key s' true else 0 :: run_val s 0 :: key s' true
      else order s :: key s' false
  end.

Fixpoint lexn (n : nat) (a b : list Z) : comparison :=
  match n with
  | O => Eq
  | S n => match hd 0 a ?= hd 0 b with Eq => lexn n (tail a) (tail b) | c => c end
  end.
Definition lex (a b : list Z) : comparison := lexn (Nat.max (length a) (length b)) a b.

(** ** The order of keys *)
Lemma lexn_enough n a b : (Nat.max (length a) (length b) <= n)%nat -> lexn n a b = lex a b.
Proof.
  unfold lex. remember (Nat.max (length a) (length b)) as m eqn:Hm. revert n a b Hm.
  induction m as [|m IH]; intros n a b Hm Hn.
  - destruct a, b; cbn in Hm; try lia. clear. induction n as [|n IH]; [done|]. exact IH.
  - destruct n as [|n]; [lia|]. cbn [lexn]. destruct (hd 0 a ?= hd 0 b); [|done|done]. apply IH; [|lia].
    destruct a, b; cbn in *; lia.
Qed.
Lemma lex_step a b : lex a b = match hd 0 a ?= hd 0 b with Eq => lex (tail a) (tail b) | c => c end.
Proof.
  rewrite <- (lexn_enough (S (Nat.max (length a) (length b)))) by lia. cbn [lexn].
  destruct (hd 0 a ?= hd 0 b); [|done|done]. apply lexn_enough. destruct a, b; cbn; lia.
Qed.
Lemma lexn_antisym n a b : lexn n b a = CompOpp (lexn n a b).
Proof.
  revert a b. induction n as [|n IH]; intros a b; cbn; [done|]. rewrite (Z.compare_antisym (hd 0 a)).
  destruct (hd 0 a ?= hd 0 b); cbn; auto.
Qed.
Lemma lexn_trans n a b c : lexn n a b <> Gt -> lexn n b c <> Gt ->
  lexn n a c <> Gt /\ (lexn n a c = Eq -> lexn n a b = Eq /\ lexn n b c = Eq).
Proof.
  revert a b c. induction n as [|n IH]; intros a b c; cbn; [done|].
  destruct (Z.compare_spec (hd 0 a) (hd 0 b)) as [E1|E1|E1], (Z.compare_spec (hd 0 b) (hd 0 c)) as [E2|E2|E2],
    (Z.compare_spec (hd 0 a) (hd 0 c)) as [E3|E3|E3]; try done; try lia. by apply IH.
Qed.
Lemma lex_antisym a b : lex b a = CompOpp (lex a b).
Proof. unfold lex. by rewrite Nat.max_comm, lexn_antisym. Qed.
Lemma lex_trans a b c : lex a b <> Gt -> lex b c <> Gt ->
  lex a c <> Gt /\ (lex a c = Eq -> lex a b = Eq /\ lex b c = Eq).
Proof.
  set (n := Nat.max (length a) (Nat.max (length b) (length c))).
  rewrite <- !(lexn_enough n) by lia. apply lexn_trans.
Qed.
Lemma lex_refl a : lex a a = Eq.
Proof. pose proof (lex_antisym a a) as H. by destruct (lex a a). Qed.

(** ** Non-digits *)
Lemma byte_range c : 0 <= byte c <= 255.
Proof.
  unfold byte. split; [lia|]. assert (N_of_ascii c < 256)%N by apply N_ascii_bounded. lia.
Qed.
Lemma order_zero s : order s = 0 <-> head_is non_digit s = false.
Proof.
  destruct s as [|c s]; cbn; [done|]. unfold non_digit. destruct (isDigit c); cbn; [done|].
  pose proof (byte_range c). unfold isAlpha. split; [|done].
  destruct (_ || _) eqn:E; [intros H0; apply orb_true_iff in E as [E|E]; split_bools; lia|].
  case_match; lia.
Qed.
Lemma hd_key s : hd 0 (key s false) = order s.
Proof. destruct s as [|c s]; cbn; [done|]. by destruct (isDigit c). Qed.
Lemma tl_key s : head_is non_digit s = true -> tail (key s false) = key (tail s) false.
Proof. destruct s as [|c s]; cbn; [done|]. unfold non_digit. by destruct (isDigit c). Qed.
Lemma key_in_run s : key s true = key (drop_while isDigit s) false.
Proof.
  induction s as [|c s IH]; [done|]. cbn. destruct (isDigit c) eqn:E; [done|]. cbn. by rewrite E.
Qed.

Definition order_of (n : Z) : comparison := if n <? 0 then Lt else if 0 <? n then Gt else Eq.

Lemma letters_spec fuel a b : (Nat.max (length a) (length b) <= fuel)%nat ->
  match letters fuel a b with
  | inl d => d <> 0 /\ lex (key a false) (key b false) = order_of d
  | inr (a', b') => head_is non_digit a' = false /\ head_is non_digit b' = false /\
      lex (key a false) (key b false) = lex (key a' false) (key b' false) /\
      (length a' <= length a)%nat /\ (length b' <= length b)%nat
  end.
Proof.
  revert a b. induction fuel as [|f IH]; intros a b Hf; cbn [letters].
  - destruct a, b; cbn in Hf; try lia. done.
  - destruct (head_is non_digit a || head_is non_digit b) eqn:E.
    + destruct (Z.eqb_spec (order a) (order b)) as [Ho|Ho]; cbn [negb].
      * assert (head_is non_digit a = true /\ head_is non_digit b = true) as [Ha Hb].
        { destruct (head_is non_digit a) eqn:Ea, (head_is non_digit b) eqn:Eb; try done.
          - apply order_zero in Eb. rewrite Eb in Ho. apply order_zero in Ho. congruence.
          - apply order_zero in Ea. rewrite Ea in Ho. symmetry in Ho. apply order_zero in Ho. congruence. }
        specialize (IH (tail a) (tail b) ltac:(destruct a, b; cbn in *; lia)).
        assert (lex (key a false) (key b false) = lex (key (tail a) false) (key (tail b) false)) as Hstep.
        { rewrite lex_step, !hd_key, Ho, Z.compare_refl. by rewrite !tl_key. }
        destruct (letters f (tail a) (tail b)) as [d|[a' b']].
        -- by rewrite Hstep.
        -- destruct IH as (? & ? & ? & ? & ?). rewrite Hstep. split_and!; [done|done|done| |]; destruct a, b; cbn in *; lia.
      * split; [lia|]. rewrite lex_step, !hd_key. unfold order_of.
        destruct (Z.compare_spec (order a) (order b)); [done| |].
        -- by assert (order a - order b <? 0 = true) as -> by lia.
        -- assert (order a - order b <? 0 = false) as -> by lia. by assert (0 <? order a - order b = true) as -> by lia.
    + apply orb_false_iff in E as [-> ->]. by split_and!.
Qed.

(** ** Numbers *)
Lemma run_val_ge s acc : 0 <= acc -> acc <= run_val s acc.
Proof.
  revert acc. induction s as [|c s IH]; intros acc Ha; cbn; [lia|]. destruct (isDigit c) eqn:E; [|lia].
  unfold isDigit in E. split_bools. specialize (IH (acc * 10 + (byte c - 48)) ltac:(lia)). lia.
Qed.
Lemma run_val_stop s acc : head_is isDigit s = false -> run_val s acc = acc.
Proof. destruct s as [|c s]; cbn; [done|]. by intros ->. Qed.
Lemma run_val_zeros s : run_val (skip_zeros s) 0 = run_val s 0.
Proof.
  induction s as [|c s IH]; [done|]. unfold skip_zeros in *. cbn [drop_while].
  destruct (is_char c "0") eqn:E; [|done]. apply Ascii.eqb_eq in E. subst c. rewrite IH. done.
Qed.
Lemma drop_zeros_digits s : drop_while isDigit (skip_zeros s) = drop_while isDigit s.
Proof.
  induction s as [|c s IH]; [done|]. unfold skip_zeros in *. cbn [drop_while].
  destruct (is_char c "0") eqn:E; [|done]. apply Ascii.eqb_eq in E. subst c. exact IH.
Qed.

(** The two values read so far have the same number of digits [k] and no
    leading zero; the first difference decides between them. *)
Definition run_inv (k x y fd : Z) : Prop :=
  0 <= k /\ 0 <= x < 10 ^ k /\ 0 <= y < 10 ^ k /\ (k = 0 \/ 10 ^ (k - 1) <= x /\ 10 ^ (k - 1) <= y) /\
  (fd < 0 -> x < y) /\ (0 < fd -> y < x) /\ (fd = 0 -> x = y).

Lemma run_inv_step k x y fd dx dy :
  run_inv k x y fd -> 0 <= dx <= 9 -> 0 <= dy <= 9 -> (k = 0 -> 1 <= dx /\ 1 <= dy) ->
  run_inv (k + 1) (x * 10 + dx) (y * 10 + dy) (if fd =? 0 then dx - dy else fd).
Proof.
  intros (Hk & Hx & Hy & Hl & Hlt & Hgt & Heq) Hdx Hdy Hz. unfold run_inv.
  rewrite Z.pow_add_r by lia. replace (k + 1 - 1) with k by lia. change (10 ^ 1) with 10.
  split_and!; try lia.
  - right. destruct (Z.eq_dec k 0) as [->|Hk0]; [change (10 ^ 0) with 1; lia|]. destruct Hl as [|[? ?]]; [done|].
    assert (10 ^ k = 10 * 10 ^ (k - 1)) as -> by (replace k with (1 + (k - 1)) at 1 by lia; rewrite Z.pow_add_r by lia; lia).
    lia.
  - destruct (Z.eqb_spec fd 0); lia.
  - destruct (Z.eqb_spec fd 0); lia.
  - destruct (Z.eqb_spec fd 0); lia.
Qed.
Lemma isDigit_val c : isDigit c = true -> 0 <= byte c - 48 <= 9.
Proof. unfold isDigit. intros H. split_bools. lia. Qed.

Lemma nonzero_digit c : isDigit c = true -> is_char c "0" = false -> 1 <= byte c - 48.
Proof.
  intros Hc Hz. pose proof (isDigit_val c Hc). destruct (Z.eq_dec (byte c) 48) as [E|]; [|lia].
  exfalso. apply Ascii.eqb_neq in Hz. apply Hz. unfold byte in E.
  rewrite <- (ascii_N_embedding c). by replace (N_of_ascii c) with 48%N by lia.
Qed.

Lemma digits_spec a b fd k x y : run_inv k x y fd ->
  (k = 0 -> head_is (fun c => is_char c "0") a = false /\ head_is (fun c => is_char c "0") b = false) ->
  let '(fd', a', b') := digits a b fd in
  exists k' x' y', run_inv k' x' y' fd' /\ run_val a x = run_val a' x' /\ run_val b y = run_val b' y' /\
    (head_is isDigit a' && head_is isDigit b' = false) /\
    (k' = 0 -> head_is (fun c => is_char c "0") a' = false /\ head_is (fun c => is_char c "0") b' = false) /\
    drop_while isDigit a' = drop_while isDigit a /\ drop_while isDigit b' = drop_while isDigit b /\
    (length a' <= length a)%nat /\ (length b' <= length b)%nat.
Proof.
  revert b fd k x y. induction a as [|c a IH]; intros b fd k x y Hi Hz; cbn [digits].
  - exists k, x, y. by split_and!.
  - destruct b as [|d b]; [exists k, x, y; split_and!; try done; cbn; by rewrite andb_false_r|].
    destruct (isDigit c) eqn:Ec, (isDigit d) eqn:Ed; cbn [andb];
      try (exists k, x, y; split_and!; try done; cbn; by rewrite ?Ec, ?Ed).
    pose proof (isDigit_val c Ec). pose proof (isDigit_val d Ed).
    assert (Hz' : k = 0 -> 1 <= byte c - 48 /\ 1 <= byte d - 48).
    { intros Hk. destruct (Hz Hk). split; by apply nonzero_digit. }
    pose proof (run_inv_step k x y fd _ _ Hi H H0 Hz') as Hi'.
    replace (byte c - 48 - (byte d - 48)) with (byte c - byte d) in Hi' by lia.
    specialize (IH b _ _ _ _ Hi' ltac:(destruct Hi; lia)).
    destruct (digits a b _) as [[fd' a'] b']. destruct IH as (k' & x' & y' & ? & ? & ? & ? & ? & ? & ? & ? & ?).
    exists k', x', y'. cbn [run_val drop_while length]. rewrite Ec, Ed. split_and!; try done; lia.
Qed.

Lemma skip_zeros_head s : head_is (fun c => is_char c "0") (skip_zeros s) = false.
Proof. unfold skip_zeros. pose proof (drop_while_head (fun c => is_char c "0") s) as H. by destruct (drop_while _ s). Qed.

Lemma digit_head_val k x a : head_is isDigit a = true -> 0 <= x -> (k = 0 -> head_is (fun c => is_char c "0") a = false) ->
  (k = 0 \/ 10 ^ (k - 1) <= x) -> 0 <= k -> 10 ^ k <= run_val a x.
Proof.
  destruct a as [|c a]; [done|]. cbn. intros Hc Hx Hz Hl Hk. rewrite Hc. pose proof (isDigit_val c Hc).
  etransitivity; [|apply run_val_ge; lia]. destruct (Z.eq_dec k 0) as [->|Hk0].
  - pose proof (nonzero_digit c Hc (Hz eq_refl)). change (10 ^ 0) with 1. lia.
  - assert (10 ^ k = 10 * 10 ^ (k - 1)) as -> by (replace k with (1 + (k - 1)) at 1 by lia; rewrite Z.pow_add_r by lia; lia).
    lia.
Qed.

(** What the code decides on two runs of digits is the order of their values. *)
Lemma numbers_spec a b :
  let '(fd, a2, b2) := digits (skip_zeros a) (skip_zeros b) 0 in
  (run_val a 0 ?= run_val b 0) =
    (if head_is isDigit a2 then Gt else if head_is isDigit b2 then Lt else order_of fd) /\
  (head_is isDigit a2 = false -> a2 = drop_while isDigit a) /\
  (head_is isDigit b2 = false -> b2 = drop_while isDigit b).
Proof.
  pose proof (digits_spec (skip_zeros a) (skip_zeros b) 0 0 0 0) as H.
  destruct (digits (skip_zeros a) (skip_zeros b) 0) as [[fd a2] b2].
  destruct H as (k & x & y & Hi & Ha & Hb & Hnot & Hz & Hda & Hdb & _).
  { unfold run_inv. change (10 ^ 0) with 1. lia. }
  { intros _. by rewrite !skip_zeros_head. }
  rewrite !run_val_zeros in *. rewrite !drop_zeros_digits in *. rewrite Ha, Hb.
  destruct Hi as (Hk & Hx & Hy & Hl & Hlt & Hgt & Heq).
  assert (Hdrop : forall s, head_is isDigit s = false -> drop_while isDigit s = s).
  { intros [|c s]; [done|]. cbn. by intros ->. }
  split_and!; [|intros E; by rewrite <- Hda, Hdrop|intros E; by rewrite <- Hdb, Hdrop].
  destruct (head_is isDigit a2) eqn:Ea.
  - cbn in Hnot. rewrite (run_val_stop b2) by done.
    pose proof (digit_head_val k x a2 Ea ltac:(lia) ltac:(tauto) ltac:(tauto) Hk). apply Z.compare_gt_iff. lia.
  - rewrite (run_val_stop a2) by done. destruct (head_is isDigit b2) eqn:Eb.
    + pose proof (digit_head_val k y b2 Eb ltac:(lia) ltac:(tauto) ltac:(tauto) Hk). apply Z.compare_lt_iff. lia.
    + rewrite (run_val_stop b2) by done. unfold order_of.
      destruct (Z.ltb_spec fd 0); [apply Z.compare_lt_iff; auto|].
      destruct (Z.ltb_spec 0 fd); [apply Z.compare_gt_iff; auto|]. apply Z.compare_eq_iff. apply Heq. lia.
Qed.

Lemma key_digits s : head_is non_digit s = false ->
  hd 0 (key s false) = 0 /\ hd 0 (tail (key s false)) = run_val s 0 /\
  tail (tail (key s false)) = key (drop_while isDigit s) false.
Proof.
  destruct s as [|c s]; [done|]. cbn [head_is]. unfold non_digit. intros Hc. apply negb_false_iff in Hc.
  cbn [key drop_while]. rewrite Hc. cbn [hd tail]. split_and!; [done|done|]. apply key_in_run.
Qed.
Lemma drop_while_shorter {A} (p : A -> bool) s : (length (drop_while p s) <= length s)%nat.
Proof. induction s as [|c s IH]; cbn; [done|]. destruct (p c); cbn; lia. Qed.

Lemma verrevcmp_loop_spec fuel a b : (length a + length b < fuel)%nat ->
  order_of (verrevcmp_loop fuel a b) = lex (key a false) (key b false).
Proof.
  revert a b. induction fuel as [|f IH]; intros a b Hf; [lia|]. cbn [verrevcmp_loop].
  assert (Hcase : a = [] /\ b = [] \/ (0 < length a + length b)%nat) by (destruct a, b; cbn; auto; right; lia).
  destruct Hcase as [[-> ->]|Hpos]; [done|].
  assert (forall (A : Type) (x y : A), match a, b with [], [] => x | _, _ => y end = y) as -> by
    (intros; destruct a, b; cbn in Hpos; [lia|done..]).
  pose proof (letters_spec (length a + length b) a b ltac:(lia)) as Hl.
  destruct (letters _ a b) as [d|[a1 b1]]; [by destruct Hl as [_ ->]|]. destruct Hl as (Ha & Hb & -> & Hla & Hlb).
  pose proof (numbers_spec a1 b1) as Hn. destruct (digits (skip_zeros a1) (skip_zeros b1) 0) as [[fd a2] b2].
  destruct Hn as (Hc & Hda & Hdb). destruct (key_digits a1 Ha) as (Ka1 & Ka2 & Ka3).
  destruct (key_digits b1 Hb) as (Kb1 & Kb2 & Kb3). rewrite (lex_step (key a1 false)), Ka1, Kb1, Z.compare_refl.
  rewrite lex_step, Ka2, Kb2, Ka3, Kb3, Hc. clear Hc Ka1 Ka2 Ka3 Kb1 Kb2 Kb3.
  destruct (head_is isDigit a2) eqn:Ea; [done|]. destruct (head_is isDigit b2) eqn:Eb; [done|].
  unfold order_of at 2. destruct (Z.eqb_spec fd 0) as [->|Hfd]; cbn [negb].
  - rewrite <- Hda, <- Hdb by done. apply IH. specialize (Hda eq_refl). specialize (Hdb eq_refl). subst a2 b2.
    assert (forall s1 s : list ascii, head_is non_digit s1 = false -> (length s1 <= length s)%nat ->
              (length (drop_while isDigit s1) <= length s)%nat /\
              (s <> [] -> (length (drop_while isDigit s1) < length s)%nat)) as Hsh.
    { intros s1 s Hs1 Hls. pose proof (drop_while_shorter isDigit s1). split; [lia|]. intros Hne.
      destruct s1 as [|c s1]; [destruct s; cbn; [done|lia]|]. cbn in *. unfold non_digit in Hs1.
      apply negb_false_iff in Hs1. rewrite Hs1. pose proof (drop_while_shorter isDigit s1). lia. }
    destruct (Hsh a1 a Ha Hla) as [? Hsa], (Hsh b1 b Hb Hlb) as [? Hsb].
    destruct a as [|? ?]; [|specialize (Hsa ltac:(done)); lia]. destruct b as [|? ?]; [cbn in Hpos; lia|].
    specialize (Hsb ltac:(done)). lia.
  - unfold order_of. destruct (fd <? 0) eqn:E1; [done|]. destruct (0 <? fd) eqn:E2; [done|]. lia.
Qed.

(** Verrevcmp is the lexicographic order of the keys: non-digits by weight
    ("~" before the end, the end before letters, letters before the rest), digit
    runs by value whatever their length, leading zeros ignored. *)
Theorem verrevcmp_is_lex (a b : list ascii) :
  order_of (verrevcmp a b) = lex (key a false) (key b false).
Proof. apply verrevcmp_loop_spec. lia. Qed.

(** ** A total order of versions *)
Definition cmp_of (c : comparison) : Z := match c with Lt => -1 | Eq => 0 | Gt => 1 end.
Lemma sign_order_of n : sign n = cmp_of (order_of n).
Proof. unfold sign, order_of. by bool_cases. Qed.
Lemma cmpInt_compare a b : cmpInt a b = cmp_of (a ?= b).
Proof.
  unfold cmpInt. destruct (Z.compare_spec a b); subst.
  - by rewrite Z.ltb_irrefl.
  - by assert (a <? b = true) as -> by lia.
  - assert (a <? b = false) as -> by lia. by assert (b <? a = true) as -> by lia.
Qed.

(** The comparison in terms of the keys of the three parts. *)
Definition triple_cmp (p q : Z * list ascii * list ascii) : comparison :=
  match p.1.1 ?= q.1.1 with
  | Eq => match lex (key p.1.2 false) (key q.1.2 false) with
          | Eq => lex (key p.2 false) (key q.2 false)
          | c => c
          end
  | c => c
  end.
Lemma verrevcmp_zero a b : verrevcmp a b = 0 <-> lex (key a false) (key b false) = Eq.
Proof.
  rewrite <- (verrevcmp_loop_spec (S (length a + length b)) a b) by lia. fold (verrevcmp a b).
  unfold order_of. split; [by intros ->|]. bool_cases; try done. lia.
Qed.
Lemma Compare_triple a b : Compare a b = cmp_of (triple_cmp (split a) (split b)).
Proof.
  unfold Compare, triple_cmp. destruct (split a) as [[ae au] ar], (split b) as [[be bu] br]. cbn [fst snd].
  rewrite cmpInt_compare. destruct (ae ?= be); cbn [cmp_of Z.eqb negb]; [|done|done].
  assert (forall s t, sign (verrevcmp s t) = cmp_of (lex (key s false) (key t false))) as Hs.
  { intros s t. by rewrite <- (verrevcmp_loop_spec (S (length s + length t))), sign_order_of by lia. }
  destruct (Z.eqb_spec (verrevcmp au bu) 0) as [E|E]; cbn [negb].
  - apply verrevcmp_zero in E. rewrite E. apply Hs.
  - rewrite Hs. rewrite verrevcmp_zero in E. by destruct (lex (key au false) (key bu false)).
Qed.

Lemma triple_antisym p q : triple_cmp q p = CompOpp (triple_cmp p q).
Proof.
  unfold triple_cmp. rewrite (Z.compare_antisym p.1.1). destruct (p.1.1 ?= q.1.1); cbn; [|done|done].
  rewrite (lex_antisym (key p.1.2 false)). destruct (lex (key p.1.2 false) _); cbn; [|done|done].
  by rewrite lex_antisym.
Qed.
Lemma triple_trans p q r : triple_cmp p q <> Gt -> triple_cmp q r <> Gt -> triple_cmp p r <> Gt.
Proof.
  unfold triple_cmp.
  destruct (Z.compare_spec p.1.1 q.1.1) as [E1|E1|E1], (Z.compare_spec q.1.1 r.1.1) as [E2|E2|E2],
    (Z.compare_spec p.1.1 r.1.1) as [E3|E3|E3]; try done; try lia.
  pose proof (lex_trans (key p.1.2 false) (key q.1.2 false) (key r.1.2 false)) as Ht.
  destruct (lex (key p.1.2 false) (key q.1.2 false)) eqn:F1, (lex (key q.1.2 false) (key r.1.2 false)) eqn:F2; try done;
    intros H1 H2; destruct Ht as [Hg He]; try done;
    destruct (lex (key p.1.2 false) (key r.1.2 false)) eqn:F3; try done;
    try (by destruct (He eq_refl)).
  by apply (lex_trans _ (key q.2 false)).
Qed.

(** Compare is a total order of versions (up to spellings of one version):
    reflexive, antisymmetric with exchanged arguments, transitive, and with
    values -1, 0 and 1 only. *)
Theorem Compare_total_order (a b c : string) :
  Compare a a = 0 /\ Compare b a = - Compare a b /\
  (Compare a b = -1 \/ Compare a b = 0 \/ Compare a b = 1) /\
  (Compare a b <= 0 /\ Compare b c <= 0 -> Compare a c <= 0).
Proof.
  rewrite !Compare_triple. split_and!.
  - pose proof (triple_antisym (split a) (split a)) as H. by destruct (triple_cmp (split a) (split a)).
  - rewrite triple_antisym. by destruct (triple_cmp (split a) (split b)).
  - destruct (triple_cmp (split a) (split b)); cbn; auto.
  - intros [H1 H2]. pose proof (triple_trans (split a) (split b) (split c)) as Ht.
    destruct (triple_cmp (split a) (split b)), (triple_cmp (split b) (split c)), (triple_cmp (split a) (split c));
      cbn in *; try lia; by destruct Ht.
Qed.

Theorem Compare_total_order_witness : Compare "1:0.3.1~rc3" "1:0.4-1" <= 0.
Proof.
  apply (Compare_total_order "1:0.3.1~rc3" "1:0.3.1" "1:0.4-1"). by vm_compute.
Defined.
