(* ===== verification/ConfigTypes.v ===== *)
(** The data of package config (src/internal/config/config.go): the sections of
    the configuration file as records, their defaults, the limits, and the small
    pure functions on them.  Durations are nanoseconds, a curve is a list of
    [(temp_c, duty)] points. *)
From stdpp Require Import base gmap strings list.
From Stdlib Require Import ZArith Lia Ascii.
From S2P Require Import Prelude GoLib.
Open Scope Z_scope.

(** ** Limits *)
Definition MinInterval : Z := 2 * Second.
Definition MaxInterval : Z := 30 * Second.
Definition MinCurvePts : Z := 2.
Definition MaxCurvePts : Z := 8.
Definition MinCurveTemp : Z := -20.
Definition MaxCurveTemp : Z := 120.
Definition MaxCritical : Z := 150.
Definition MaxPWM : Z := 8.
Definition MaxStallCycle : Z := 20.
Definition MinStaleCycle : Z := 6.
Definition MaxStaleCycle : Z := 600.
Definition MinCooldown : Z := Minute.
Definition MaxCooldown : Z := 24 * Hour.
Definition MinFixedStop : Z := 60.
Definition HDDStop : string := "140".
Definition HysteresisMax : Z := 10.
Definition MinOnMax : Z := Hour.
Definition MaxSensorParts : Z := 4.
Definition MinCeiling : Z := 30.
Definition MaxEmergencyCycles : Z := 60.
Definition DefaultEmergencyCycles : Z := 6.
Definition MaxDashboardSensors : Z := 8.
Definition MaxSchedules : Z := 16.
Definition Profiles : list string := ["auto"; "n5pro"; "nct67xx"; "it87xx"; "monitor"].
Definition DayNames : list string := ["mon"; "tue"; "wed"; "thu"; "fri"; "sat"; "sun"].

(** ** The sections *)
Record Daemon := mkDaemon {
  d_Interval : Z; d_StepUp : Z; d_StepDown : Z; d_StallMinDuty : Z; d_StallCycles : Z;
  d_StaleCycles : Z; d_AlertCooldown : Z; d_LogEvery : Z; d_Emergency : bool;
  d_EmergencyCycles : Z; d_Profile : string }.
#[export] Instance eta_Daemon : Eta Daemon := fun d =>
  mkDaemon (d_Interval d) (d_StepUp d) (d_StepDown d) (d_StallMinDuty d) (d_StallCycles d)
    (d_StaleCycles d) (d_AlertCooldown d) (d_LogEvery d) (d_Emergency d)
    (d_EmergencyCycles d) (d_Profile d).

Abbreviation Curve := (list (Z * Z)).

Record Channel := mkChannel {
  cc_Name : string; cc_PWM : Z; cc_Sensor : string; cc_Curve : Curve; cc_Critical : Z;
  cc_Stop : string; cc_Hysteresis : Z; cc_MinOn : Z; cc_Ceiling : Z; cc_PostSet : bool }.
#[export] Instance eta_Channel : Eta Channel := fun c =>
  mkChannel (cc_Name c) (cc_PWM c) (cc_Sensor c) (cc_Curve c) (cc_Critical c) (cc_Stop c)
    (cc_Hysteresis c) (cc_MinOn c) (cc_Ceiling c) (cc_PostSet c).
#[export] Instance Channel_eq_dec : EqDecision Channel.
Proof. solve_decision. Defined.

Record Schedule := mkSchedule {
  sc_Preset : string; sc_From : string; sc_To : string; sc_Days : list string }.
#[export] Instance Schedule_eq_dec : EqDecision Schedule.
Proof. solve_decision. Defined.

Definition Schedule_Fallback (s : Schedule) : bool :=
  (String.eqb (sc_From s) "" && String.eqb (sc_To s) "")%bool.

(** [web], [log], [alert]. *)
Record Web := mkWeb {
  w_Listen : string; w_Auth : string; w_User : string; w_PasswordHash : string;
  w_AllowedHosts : list string; w_TLS : string; w_CertFile : string; w_KeyFile : string;
  w_BehindTLSProxy : bool }.
#[export] Instance eta_Web : Eta Web := fun w =>
  mkWeb (w_Listen w) (w_Auth w) (w_User w) (w_PasswordHash w) (w_AllowedHosts w) (w_TLS w)
    (w_CertFile w) (w_KeyFile w) (w_BehindTLSProxy w).
Record Log := mkLog { l_File : string; l_MaxSizeMB : Z; l_MaxFiles : Z }.
#[export] Instance eta_Log : Eta Log := fun l => mkLog (l_File l) (l_MaxSizeMB l) (l_MaxFiles l).
Record Alert := mkAlert {
  a_Transport : string; a_MailTo : string; a_WebhookURL : string; a_WebhookFormat : string }.
#[export] Instance eta_Alert : Eta Alert := fun a =>
  mkAlert (a_Transport a) (a_MailTo a) (a_WebhookURL a) (a_WebhookFormat a).

Definition TLSModes : list string := ["auto"; "off"; "file"].
Definition AlertTransports : list string := ["auto"; "pve"; "mail"; "webhook"; "log"; "off"].
Definition WebhookFormats : list string := ["json"; "text"].
Definition DefaultWebhookFormat : string := "json".
Definition MaxWebhookURLLen : Z := 2048.
Definition DefaultMailTo : string := "root".
Definition DefaultLogFile : string := "/var/log/n5-fangov/n5-fangov.log".
Definition MinLogSizeMB : Z := 1.
Definition MaxLogSizeMB : Z := 100.
Definition MinLogFiles : Z := 1.
Definition MaxLogFiles : Z := 20.
Definition LogRoot : string := "/var/log/".

(** [c_Sensors] is [Dashboard.Sensors]. *)
Record Config := mkConfig {
  c_Daemon : Daemon; c_Web : Web; c_Log : Log; c_Alert : Alert; c_Sensors : list string;
  c_Channels : list Channel; c_Schedules : list Schedule }.
#[export] Instance eta_Config : Eta Config := fun c =>
  mkConfig (c_Daemon c) (c_Web c) (c_Log c) (c_Alert c) (c_Sensors c) (c_Channels c) (c_Schedules c).

(** [Default().Daemon] *)
Definition DefaultDaemon : Daemon :=
  {| d_Interval := 10 * Second; d_StepUp := 40; d_StepDown := 15; d_StallMinDuty := 60;
     d_StallCycles := 2; d_StaleCycles := 18; d_AlertCooldown := 30 * Minute;
     d_LogEvery := 30; d_Emergency := false; d_EmergencyCycles := DefaultEmergencyCycles;
     d_Profile := "auto" |}.

Definition DefaultWeb : Web := mkWeb "127.0.0.1:8010" "none" "" "" [] "off" "" "" false.
Definition DefaultLog : Log := mkLog DefaultLogFile 5 5.
Definition DefaultAlert : Alert := mkAlert "auto" DefaultMailTo "" DefaultWebhookFormat.
Definition Default : Config := mkConfig DefaultDaemon DefaultWeb DefaultLog DefaultAlert [] [] [].

Definition DefaultCurve : Curve := [(45, 85); (80, 255)].

(** ** The built-in channel set of the N5 Pro *)

(** The channels of the embedded preset n5pro-balanced, as ParseChannels yields
    them (presets/n5pro-balanced.toml). *)
Definition n5pro_balanced : option (list Channel) := Some [
  mkChannel "cpu" 1 "k10temp" [(35, 60); (60, 150); (80, 255)] 88 "auto" 0 0 0 false;
  mkChannel "ssd" 2 "nvme:max" [(35, 74); (55, 160); (68, 255)] 72 "auto" 0 0 0 false;
  mkChannel "hdd" 3 "drivetemp:max" [(30, 87); (42, 140); (50, 200); (55, 255)] 60 "140"
    0 0 0 false ].

Definition N5ProChannels : list Channel :=
  let fallback := [
    mkChannel "cpu" 1 "k10temp" [(35, 60); (60, 150); (80, 255)] 88 "auto" 0 0 0 false;
    mkChannel "ssd" 2 "nvme:max" [(35, 74); (55, 160); (68, 255)] 72 "auto" 0 0 0 false;
    mkChannel "hdd" 3 "drivetemp:max" [(30, 87); (42, 140); (50, 200); (55, 255)] 60 "140"
      0 0 0 false ] in
  match n5pro_balanced with
  | Some chans => if (length chans =? 3)%nat then chans else fallback
  | None => fallback
  end.

(** ** Functions on a channel *)

(** [Channel.Sensors]: the parts of the canonical sensor id. *)
Definition Sensors (ch : Channel) : list string :=
  if String.eqb (cc_Sensor ch) "" then [] else Split (cc_Sensor ch) ","%char.

(** [Channel.StopDuty]: the fixed stop duty, [None] for "auto". *)
Definition StopDuty (ch : Channel) : option Z :=
  if (String.eqb (cc_Stop ch) "auto" || String.eqb (cc_Stop ch) "")%bool then None
  else Atoi (cc_Stop ch).

Definition DefaultStop (sensor : string) : string :=
  if existsb (fun part => String.eqb (TrimSpace part) "drivetemp:max")
       (if String.eqb sensor "" then [] else Split sensor ","%char)
  then HDDStop else "auto".

(** ** Well-formed channels

    What the parser guarantees of every channel it lets through (Config.v) and
    the controller relies on. *)
Definition duty_ok (d : Z) : bool := (0 <=? d) && (d <=? 255).

(** Temperatures strictly ascending, duties non-decreasing. *)
Fixpoint ascending (prev : Z * Z) (rest : Curve) : bool :=
  match rest with
  | [] => true
  | p :: rest' => (prev.1 <? p.1) && (prev.2 <=? p.2) && ascending p rest'
  end.
Definition curve_sorted (c : Curve) : bool :=
  match c with [] => true | p :: rest => ascending p rest end.
Definition point_ok (p : Z * Z) : bool :=
  (MinCurveTemp <=? p.1) && (p.1 <=? MaxCurveTemp) && duty_ok p.2.
Definition curve_ok (c : Curve) : bool :=
  (MinCurvePts <=? Z.of_nat (length c)) && (Z.of_nat (length c) <=? MaxCurvePts) &&
  forallb point_ok c && curve_sorted c.

(** Every stop value that denotes a duty denotes one of 0..255. *)
Definition stop_ok (ch : Channel) : bool :=
  match StopDuty ch with Some d => duty_ok d | None => true end.
