(* ===== verification/Schedule.v ===== *)
(** Package schedule (src/internal/schedule/schedule.go): which [[schedule]] entry
    is active at a moment and when that changes next.

    A moment is a [Z] in nanoseconds.  The time zone is a parameter, the class
    [Zone]: the local calendar day (days since 1970-01-01) and minute of the day of
    a moment, and the moment [time.Date] gives for a day and a minute. *)
From stdpp Require Import base gmap strings list sorting.
From Stdlib Require Import ZArith Lia Ascii.
From S2P Require Import Prelude GoLib GoTime ConfigTypes.
Open Scope Z_scope.

Record Entry := mkEntry { e_Preset : string; e_From : string; e_To : string; e_Days : list Z; e_Fallback : bool }.
#[export] Instance Entry_eq_dec : EqDecision Entry.
Proof. solve_decision. Defined.

Definition Lookahead : Z := 8 * 24 * Hour.

(** [time.Weekday]: Sunday is 0. *)
Definition weekdays (d : string) : option Z :=
  if String.eqb d "mon" then Some 1 else if String.eqb d "tue" then Some 2 else if String.eqb d "wed" then Some 3
  else if String.eqb d "thu" then Some 4 else if String.eqb d "fri" then Some 5 else if String.eqb d "sat" then Some 6
  else if String.eqb d "sun" then Some 0 else None.
Definition DayName (d : Z) : string := nth (Z.to_nat d) ["sun"; "mon"; "tue"; "wed"; "thu"; "fri"; "sat"] "".

Definition FromConfig (l : list Schedule) : list Entry :=
  map (fun s => mkEntry (sc_Preset s) (sc_From s) (sc_To s)
                  (flat_map (fun d => match weekdays d with Some w => [w] | None => [] end) (sc_Days s))
                  (Schedule_Fallback s)) l.

(** [daySet] is a byte: bit [d] for weekday [d]. *)
Definition daySet (days : list Z) : Z := fold_left (fun set d => Z.lor set (Z.land (Z.shiftl 1 d) 255)) days 0.
Definition Equal (a b : Entry) : bool :=
  if negb (String.eqb (e_Preset a) (e_Preset b)) || negb (String.eqb (e_From a) (e_From b)) ||
     negb (String.eqb (e_To a) (e_To b)) || negb (Bool.eqb (e_Fallback a) (e_Fallback b))
  then false else daySet (e_Days a) =? daySet (e_Days b).

Definition minutes (s : string) : Z :=
  match parse_clock s with Some (h, m) => h * 60 + m | None => -1 end.

Definition onDay (e : Entry) (d : Z) : bool :=
  match e_Days e with [] => true | l => existsb (fun x => x =? d) l end.

Class Zone := { z_day : Z -> Z; z_minute : Z -> Z; z_date : Z -> Z -> Z }.

Section Schedule.
Context {Zn : Zone}.

(** 1970-01-01 was a Thursday. *)
Definition weekday_of_day (day : Z) : Z := (day + 4) mod 7.
Definition Weekday (t : Z) : Z := weekday_of_day (z_day t).
(** [now.AddDate(0, 0, -1)]: the same wall clock a calendar day earlier. *)
Definition AddDay (t n : Z) : Z := z_date (z_day t + n) (z_minute t).

Definition contains (e : Entry) (now : Z) : bool :=
  if e_Fallback e then false
  else
    let from := minutes (e_From e) in
    let to := minutes (e_To e) in
    if (from <? 0) || (to <? 0) || (from =? to) then false
    else
      let m := z_minute now in
      if from <? to then (from <=? m) && (m <? to) && onDay e (Weekday now)
      else if from <=? m then onDay e (Weekday now)
      else if m <? to then onDay e (Weekday (AddDay now (-1)))
      else false.

(** The index of the active entry; [fallback] is that of the first fallback. *)
Fixpoint active_loop (i : nat) (entries : list Entry) (now : Z) (fallback : option nat) : option nat :=
  match entries with
  | [] => fallback
  | e :: es =>
      if e_Fallback e
      then active_loop (S i) es now (match fallback with None => Some i | f => f end)
      else if contains e now then Some i else active_loop (S i) es now fallback
  end.
Definition Active (entries : list Entry) (now : Z) : option nat := active_loop 0 entries now None.

Definition lookahead_days : nat := Z.to_nat (Z.quot Lookahead (24 * Hour)).
(** The candidates: every full hour and every boundary of the coming days. *)
Definition day_candidates (entries : list Entry) (day : Z) : list Z :=
  map (fun h => z_date day (Z.of_nat h * 60)) (seq 0 24) ++
  flat_map (fun e => if e_Fallback e then []
                     else flat_map (fun s => let m := minutes s in if 0 <=? m then [z_date day m] else [])
                            [e_From e; e_To e]) entries.
Definition candidates (entries : list Entry) (now : Z) : list Z :=
  merge_sort Z.le (flat_map (fun d => day_candidates entries (z_day now + Z.of_nat d)) (seq 0 (S lookahead_days))).

Fixpoint first_change (entries : list Entry) (cur : option nat) (now limit : Z) (cands : list Z)
  : option (Z * option nat) :=
  match cands with
  | [] => None
  | t :: cands' =>
      if negb (now <? t) || (limit <? t) then first_change entries cur now limit cands'
      else
        let a := Active entries t in
        if bool_decide (a = cur) then first_change entries cur now limit cands' else Some (t, a)
  end.
(** The moment of the next change and the entry active from then on. *)
Definition Next (entries : list Entry) (now : Z) : option (Z * option nat) :=
  first_change entries (Active entries now) now (now + Lookahead) (candidates entries now).
End Schedule.

(** ** A zone with a fixed offset *)
Definition day_ns : Z := 24 * Hour.
Definition fixed_zone (off : Z) : Zone := {|
  z_day := fun t => (t + off) / day_ns;
  z_minute := fun t => ((t + off) mod day_ns) / Minute;
  z_date := fun day m => day * day_ns + m * Minute - off |}.

(** Between two candidates nothing changes. *)
Section Fixed.
Context (off : Z).
Let Zn : Zone := fixed_zone off.
Existing Instance Zn.

(** A moment in its day, minute and the rest of the minute. *)
Lemma fz_split t : exists s, t + off = day_ns * z_day t + Minute * z_minute t + s /\ 0 <= s < Minute /\
  0 <= z_minute t < 1440.
Proof.
  cbn [z_day z_minute Zn fixed_zone]. exists (((t + off) mod day_ns) mod Minute).
  pose proof (Z.div_mod (t + off) day_ns ltac:(done)). pose proof (Z.mod_pos_bound (t + off) day_ns ltac:(done)).
  pose proof (Z.div_mod ((t + off) mod day_ns) Minute ltac:(done)).
  pose proof (Z.mod_pos_bound ((t + off) mod day_ns) Minute ltac:(done)).
  split_and!; try lia.
  - apply Z.div_pos; [lia|done].
  - apply Z.div_lt_upper_bound; [done|]. change (Minute * 1440) with day_ns. lia.
Qed.
Lemma fz_unique t d m s : t + off = day_ns * d + Minute * m + s -> 0 <= s < Minute -> 0 <= m < 1440 ->
  z_day t = d /\ z_minute t = m.
Proof.
  intros Ht Hs Hm. cbn [z_day z_minute Zn fixed_zone].
  assert (Hr : 0 <= Minute * m + s < day_ns) by (unfold day_ns, Hour, Minute, Second in *; lia).
  assert ((t + off) / day_ns = d) as -> by (symmetry; apply (Z.div_unique_pos _ _ _ (Minute * m + s)); lia).
  assert ((t + off) mod day_ns = Minute * m + s) as -> by (symmetry; apply (Z.mod_unique_pos _ _ d); lia).
  split; [done|]. symmetry. by apply (Z.div_unique_pos _ _ _ s).
Qed.
Lemma fz_date d m t : 0 <= m < 1440 ->
  (z_date d m <= t <-> d < z_day t \/ d = z_day t /\ m <= z_minute t).
Proof.
  intros Hm. destruct (fz_split t) as (s & Ht & Hs & Hmt). cbn [z_date Zn fixed_zone].
  unfold day_ns, Hour, Minute, Second in *. lia.
Qed.
Lemma z_day_date d m : 0 <= m < 1440 -> z_day (z_date d m) = d.
Proof.
  intros Hm. destruct (fz_unique (z_date d m) d m 0) as [? _]; [|done|done|done].
  cbn [z_date Zn fixed_zone]. lia.
Qed.
Lemma fz_mono t1 t2 : t1 <= t2 -> z_day t1 < z_day t2 \/ z_day t1 = z_day t2 /\ z_minute t1 <= z_minute t2.
Proof.
  intros Ht. destruct (fz_split t1) as (s1 & H1' & Hs1 & Hm1), (fz_split t2) as (s2 & H2' & Hs2 & Hm2).
  unfold day_ns, Hour, Minute, Second in *. lia.
Qed.
Lemma AddDay_weekday t n : Weekday (AddDay t n) = weekday_of_day (z_day t + n).
Proof.
  unfold Weekday, AddDay. destruct (fz_split t) as (_ & _ & _ & Hm). by rewrite z_day_date.
Qed.

Lemma minutes_range s : minutes s = -1 \/ 0 <= minutes s < 1440.
Proof.
  unfold minutes. destruct (parse_clock s) as [[h m]|] eqn:E; [|by left]. apply parse_clock_bounds in E. right. lia.
Qed.

(** [contains] only looks at the day and at which boundaries have passed. *)
Lemma contains_same e t1 t2 : z_day t1 = z_day t2 ->
  (forall m, m = minutes (e_From e) \/ m = minutes (e_To e) -> 0 <= m ->
     (m <=? z_minute t1) = (m <=? z_minute t2)) ->
  contains e t1 = contains e t2.
Proof.
  intros Hd Hm. unfold contains. destruct (e_Fallback e); [done|]. cbv zeta. rewrite !AddDay_weekday.
  unfold Weekday. rewrite Hd. destruct (_ || _) eqn:E; [done|]. split_bools.
  rewrite !(Z.ltb_antisym (minutes (e_To e)) (z_minute _)). by rewrite !Hm by (auto; lia).
Qed.

Lemma active_loop_same i entries t1 t2 fb : (forall e, e ∈ entries -> contains e t1 = contains e t2) ->
  active_loop i entries t1 fb = active_loop i entries t2 fb.
Proof.
  revert i fb. induction entries as [|e es IH]; intros i fb H; [done|]. cbn [active_loop].
  rewrite (H e) by by left. rewrite !IH by (intros; apply H; by right). done.
Qed.

Lemma candidate_in entries now c :
  (exists d, z_day now <= d <= z_day now + 8 /\
     ((exists h, 0 <= h < 24 /\ c = z_date d (h * 60)) \/
      exists e m, e ∈ entries /\ e_Fallback e = false /\ (m = minutes (e_From e) \/ m = minutes (e_To e)) /\
        0 <= m /\ c = z_date d m)) ->
  c ∈ candidates entries now.
Proof.
  intros (d & Hd & Hc). unfold candidates. rewrite (merge_sort_Permutation Z.le). apply list_elem_of_In, in_flat_map.
  exists (Z.to_nat (d - z_day now)). split.
  { apply in_seq. change lookahead_days with 8%nat. lia. }
  rewrite Z2Nat.id by lia. replace (z_day now + (d - z_day now)) with d by lia. apply in_or_app.
  destruct Hc as [(h & Hh & ->)|(e & m & He & Hf & Hm & Hm0 & ->)]; [left|right].
  - apply in_map_iff. exists (Z.to_nat h). rewrite Z2Nat.id by lia. split; [done|]. apply in_seq. lia.
  - apply in_flat_map. exists e. split; [by apply list_elem_of_In|]. rewrite Hf. apply in_flat_map.
    destruct Hm as [->| ->]; [exists (e_From e)|exists (e_To e)]; (split; [cbn; auto|]);
      cbv zeta; (assert (0 <=? _ = true) as -> by by apply Z.leb_le); by left.
Qed.

Lemma quiet_between entries now t1 t2 : now <= t1 <= t2 -> t2 <= now + Lookahead ->
  (forall c, c ∈ candidates entries now -> ~ (t1 < c <= t2)) -> Active entries t1 = Active entries t2.
Proof.
  intros Ht Hl Hc. unfold Active. apply active_loop_same. intros e He.
  assert (Hday : z_day now <= z_day t2 <= z_day now + 8).
  { destruct (fz_split now) as (s1 & H1' & Hs1 & Hm1), (fz_split t2) as (s2 & H2' & Hs2 & Hm2).
    unfold Lookahead, day_ns, Hour, Minute, Second in *. lia. }
  destruct (fz_split t2) as (_ & _ & _ & Hm2). destruct (fz_split t1) as (_ & _ & _ & Hm1).
  assert (Hin : forall m, 0 <= m < 1440 -> z_date (z_day t2) m ∈ candidates entries now ->
                  m <= z_minute t2 -> z_date (z_day t2) m <= t1).
  { intros m Hm Hcm Hle. specialize (Hc _ Hcm). assert (z_date (z_day t2) m <= t2) by (apply fz_date; auto). lia. }
  assert (Hhour : z_date (z_day t2) (z_minute t2 / 60 * 60) <= t1).
  { assert (0 <= z_minute t2 / 60 < 24) by (split; [apply Z.div_pos|apply Z.div_lt_upper_bound]; lia).
    pose proof (Z.div_mod (z_minute t2) 60 ltac:(done)). pose proof (Z.mod_pos_bound (z_minute t2) 60 ltac:(done)).
    apply Hin; [lia| |lia]. apply candidate_in. exists (z_day t2). split; [done|]. left. eauto. }
  assert (0 <= z_minute t2 / 60 * 60 < 1440) by
    (pose proof (Z.div_mod (z_minute t2) 60 ltac:(done)); pose proof (Z.mod_pos_bound (z_minute t2) 60 ltac:(done));
     assert (0 <= z_minute t2 / 60) by (apply Z.div_pos; lia); lia).
  apply fz_date in Hhour; [|done]. pose proof (fz_mono t1 t2 ltac:(lia)) as Hmono.
  assert (Hd : z_day t1 = z_day t2) by lia.
  destruct (e_Fallback e) eqn:Ef; [by unfold contains; rewrite Ef|].
  apply contains_same; [done|]. intros m Hm Hm0.
  assert (0 <= m < 1440) by (destruct Hm as [->| ->]; destruct (minutes_range (e_From e)), (minutes_range (e_To e)); lia).
  destruct (Z.leb_spec m (z_minute t2)).
  - assert (z_date (z_day t2) m <= t1) as Hle.
    { apply Hin; [done| |done]. apply candidate_in. exists (z_day t2). split; [done|]. right. by exists e, m. }
    apply fz_date in Hle; [|done]. apply Z.leb_le. lia.
  - apply Z.leb_gt. lia.
Qed.

Lemma first_change_late entries cur now limit l : (forall c, c ∈ l -> limit < c) ->
  first_change entries cur now limit l = None.
Proof.
  induction l as [|c l IH]; intros H; [done|]. cbn [first_change].
  assert (limit <? c = true) as -> by (apply Z.ltb_lt, H; by left). rewrite orb_true_r. apply IH.
  intros. apply H. by right.
Qed.

Lemma first_change_spec entries now l p :
  StronglySorted Z.le l -> now <= p <= now + Lookahead -> Active entries p = Active entries now ->
  (forall c, c ∈ candidates entries now -> p < c -> c ∈ l) ->
  match first_change entries (Active entries now) now (now + Lookahead) l with
  | Some (at_, i) => now < at_ <= now + Lookahead /\ Active entries at_ = i /\ i <> Active entries now /\
      forall t, p <= t < at_ -> Active entries t = Active entries now
  | None => forall t, p <= t <= now + Lookahead -> Active entries t = Active entries now
  end.
Proof.
  intros Hs. revert p. induction Hs as [|x l Hs IH Hx]; intros p Hp Ha Hc; cbn [first_change].
  { intros t Ht. rewrite <- Ha. symmetry. apply (quiet_between entries now); [lia|lia|].
    intros c Hin Hlt. assert (c ∈ []) as Hin' by (apply Hc; [done|lia]). by apply elem_of_nil in Hin'. }
  rewrite Forall_forall in Hx.
  assert (Hquiet : forall t, p <= t <= now + Lookahead -> t < x -> Active entries t = Active entries now).
  { intros t Ht Htx. rewrite <- Ha. symmetry. apply (quiet_between entries now); [lia|lia|].
    intros c Hin Hlt. assert (c ∈ x :: l) as Hin' by (apply Hc; [done|lia]).
    apply elem_of_cons in Hin' as [->|Hin']; [lia|]. specialize (Hx _ Hin'). lia. }
  destruct (Z.ltb_spec now x) as [Hnx|Hnx]; cbn [negb orb].
  - destruct (Z.ltb_spec (now + Lookahead) x) as [Hlx|Hlx].
    + rewrite first_change_late; [intros t Ht; apply Hquiet; lia|].
      intros c Hin. specialize (Hx _ Hin). lia.
    + cbv zeta. case_bool_decide as Hax.
      * destruct (Z.le_gt_cases p x) as [Hpx|Hpx].
        -- specialize (IH x ltac:(lia) Hax).
           assert (forall c, c ∈ candidates entries now -> x < c -> c ∈ l) as Hc'.
           { intros c Hin Hlt. assert (c ∈ x :: l) as Hin' by (apply Hc; [done|lia]).
             apply elem_of_cons in Hin' as [->|?]; [lia|done]. }
           specialize (IH Hc'). destruct (first_change entries _ now _ l) as [[at_ i]|].
           ++ destruct IH as (? & ? & ? & Hq). split_and!; try lia; [done|done|].
              intros t Ht. destruct (Z.lt_ge_cases t x); [apply Hquiet; lia|apply Hq; lia].
           ++ intros t Ht. destruct (Z.lt_ge_cases t x); [apply Hquiet; lia|apply IH; lia].
        -- apply IH; [lia|done|]. intros c Hin Hlt. assert (c ∈ x :: l) as Hin' by (apply Hc; [done|lia]).
           apply elem_of_cons in Hin' as [->|?]; [lia|done].
      * split_and!; [lia|lia|done|done|]. intros t Ht. apply Hquiet; lia.
  - apply IH; [lia|done|]. intros c Hin Hlt. assert (c ∈ x :: l) as Hin' by (apply Hc; [done|lia]).
    apply elem_of_cons in Hin' as [->|?]; [lia|done].
Qed.

(** Next finds exactly the next switch: the active entry is the same at every
    moment up to the one returned, another one there, and when nothing is returned
    nothing changes for eight days. *)
Theorem next_switch (entries : list Entry) (now : Z) :
  match Next entries now with
  | Some (at_, i) => now < at_ <= now + Lookahead /\ Active entries at_ = i /\ i <> Active entries now /\
      forall t, now <= t < at_ -> Active entries t = Active entries now
  | None => forall t, now <= t <= now + Lookahead -> Active entries t = Active entries now
  end.
Proof.
  unfold Next. apply first_change_spec; [|unfold Lookahead, Hour, Minute, Second; lia|done|done].
  apply Sorted_StronglySorted; [intros ? ? ?; apply Z.le_trans|]. apply Sorted_merge_sort. intros x y. lia.
Qed.

(** ** Windows as intervals of time *)

(** The window of day [D], up to the next day when it crosses midnight. *)
Definition in_window (e : Entry) (D t : Z) : Prop :=
  let from := minutes (e_From e) in
  let to := minutes (e_To e) in
  D * day_ns + from * Minute <= t + off < D * day_ns + to * Minute + (if to <? from then day_ns else 0).
(** A windowed entry holds [t]: some day of its list has its window around [t]. *)
Definition holds (e : Entry) (t : Z) : Prop :=
  e_Fallback e = false /\ 0 <= minutes (e_From e) /\ 0 <= minutes (e_To e) /\
  minutes (e_From e) <> minutes (e_To e) /\
  exists D, onDay e (weekday_of_day D) = true /\ in_window e D t.

Lemma minute_before t d m : 0 <= m < 1440 ->
  (d * day_ns + m * Minute <= t + off <-> d < z_day t \/ d = z_day t /\ m <= z_minute t).
Proof. intros Hm. rewrite <- fz_date by done. cbn [z_date Zn fixed_zone]. lia. Qed.

Lemma in_window_day e D t : 0 <= minutes (e_From e) -> 0 <= minutes (e_To e) -> minutes (e_From e) <> minutes (e_To e) ->
  in_window e D t <->
  if minutes (e_From e) <? minutes (e_To e)
  then D = z_day t /\ minutes (e_From e) <= z_minute t < minutes (e_To e)
  else D = z_day t /\ minutes (e_From e) <= z_minute t \/ D = z_day t - 1 /\ z_minute t < minutes (e_To e).
Proof.
  intros Hf Ht Hne. unfold in_window. cbv zeta.
  set (f := minutes (e_From e)) in *. set (o := minutes (e_To e)) in *.
  assert (0 <= f < 1440) by (subst f; pose proof (minutes_range (e_From e)); lia).
  assert (0 <= o < 1440) by (subst o; pose proof (minutes_range (e_To e)); lia).
  pose proof (minute_before t D f ltac:(lia)) as M1. pose proof (fz_split t) as (_ & _ & _ & Hm).
  destruct (Z.ltb_spec f o) as [Hfo|Hfo].
  - assert (o <? f = false) as -> by lia. pose proof (minute_before t D o ltac:(lia)) as M2. lia.
  - assert (o <? f = true) as -> by lia. pose proof (minute_before t (D + 1) o ltac:(lia)) as M2. lia.
Qed.

Lemma contains_holds e t : contains e t = true <-> holds e t.
Proof.
  unfold contains, holds. destruct (e_Fallback e); [by split; [|intros [? _]]|]. cbv zeta.
  set (f := minutes (e_From e)) in *. set (o := minutes (e_To e)) in *.
  destruct ((f <? 0) || (o <? 0) || (f =? o)) eqn:E.
  { split; [done|]. intros (_ & ? & ? & ? & _). apply orb_true_iff in E as [E|E]; [apply orb_true_iff in E as [E|E]|]; lia. }
  split_bools. rewrite AddDay_weekday. unfold Weekday.
  assert (Hw : forall D, in_window e D t <-> if f <? o then D = z_day t /\ f <= z_minute t < o
                 else D = z_day t /\ f <= z_minute t \/ D = z_day t - 1 /\ z_minute t < o).
  { intros D. apply in_window_day; subst f o; lia. }
  split.
  - intros Hc. split_and!; try lia. exists (if f <? o then z_day t else if f <=? z_minute t then z_day t else z_day t - 1).
    rewrite Hw. destruct (f <? o); [split_bools; split; [done|lia]|].
    destruct (Z.leb_spec f (z_minute t)); [split; [done|lia]|].
    destruct (Z.ltb_spec (z_minute t) o); [|done]. split; [exact Hc|lia].
  - intros (_ & _ & _ & _ & D & Hday & Hin). apply Hw in Hin. destruct (Z.ltb_spec f o).
    + destruct Hin as [-> Hin]. rewrite Hday. rewrite andb_true_r. lia.
    + destruct Hin as [[-> Hin]|[-> Hin]].
      * by assert (f <=? z_minute t = true) as -> by lia.
      * assert (f <=? z_minute t = false) as -> by lia. by assert (z_minute t <? o = true) as -> by lia.
Qed.

Lemma active_loop_spec i entries t fb :
  match active_loop i entries t fb with
  | Some k =>
      (exists e, (i <= k)%nat /\ entries !! (k - i)%nat = Some e /\ holds e t /\
         forall j e', (j < k - i)%nat -> entries !! j = Some e' -> ~ holds e' t) \/
      (forall j e', entries !! j = Some e' -> ~ holds e' t) /\
      (fb = Some k \/ fb = None /\ exists e, (i <= k)%nat /\ entries !! (k - i)%nat = Some e /\ e_Fallback e = true /\
         forall j e', (j < k - i)%nat -> entries !! j = Some e' -> e_Fallback e' = false)
  | None => fb = None /\ forall j e', entries !! j = Some e' -> ~ holds e' t /\ e_Fallback e' = false
  end.
Proof.
  revert i fb. induction entries as [|e es IH]; intros i fb; cbn [active_loop].
  { destruct fb as [k|]; [|by split]. right. split; [done|by left]. }
  assert (Hnf : e_Fallback e = true -> ~ holds e t) by (intros Hf [H _]; congruence).
  destruct (e_Fallback e) eqn:Ef.
  - specialize (IH (S i) (match fb with None => Some i | f => f end)).
    destruct (active_loop (S i) es t _) as [k|].
    + destruct IH as [(e0 & Hk & He0 & Hh & Hb)|[Hall Hfb]].
      * left. exists e0. replace (k - i)%nat with (S (k - S i)) by lia. split_and!; [lia|done|done|].
        intros [|j] e' Hj He'; [injection He' as <-; auto|]. apply (Hb j); [lia|done].
      * right. split; [intros [|j] e' He'; [injection He' as <-; auto|by apply (Hall j)]|].
        destruct fb as [k'|]; [destruct Hfb as [?|[? _]]; [by left|done]|]. right. split; [done|].
        destruct Hfb as [[= <-]|[? _]]; [|done]. exists e. rewrite Nat.sub_diag. split_and!; [done|done|done|].
        intros j e' Hj. lia.
    + destruct IH as [IH _]. by destruct fb.
  - destruct (contains e t) eqn:Ec.
    + left. exists e. rewrite Nat.sub_diag. split_and!; [done|done|by apply contains_holds|]. intros j e' Hj. lia.
    + assert (Hn : ~ holds e t) by (intros H%contains_holds; congruence).
      specialize (IH (S i) fb). destruct (active_loop (S i) es t fb) as [k|].
      * destruct IH as [(e0 & Hk & He0 & Hh & Hb)|[Hall Hfb]].
        -- left. exists e0. replace (k - i)%nat with (S (k - S i)) by lia. split_and!; [lia|done|done|].
           intros [|j] e' Hj He'; [injection He' as <-; auto|]. apply (Hb j); [lia|done].
        -- right. split; [intros [|j] e' He'; [injection He' as <-; auto|by apply (Hall j)]|].
           destruct Hfb as [?|(-> & e0 & Hk & He0 & Hf0 & Hb)]; [by left|]. right. split; [done|]. exists e0.
           replace (k - i)%nat with (S (k - S i)) by lia. split_and!; [lia|done|done|].
           intros [|j] e' Hj He'; [by injection He' as <-|]. apply (Hb j); [lia|done].
      * destruct IH as [-> Hall]. split; [done|]. intros [|j] e' He'; [by injection He' as <-|by apply (Hall j)].
Qed.

(** The active entry is the first windowed entry whose window, as an interval
    of time on one of its days (up to the next day when it crosses midnight), holds
    the moment; without one it is the first fallback, without a fallback none. *)
Theorem active_entry (entries : list Entry) (t : Z) :
  match Active entries t with
  | Some i => exists e, entries !! i = Some e /\
      (holds e t /\ (forall j e', (j < i)%nat -> entries !! j = Some e' -> ~ holds e' t) \/
       e_Fallback e = true /\ (forall j e', entries !! j = Some e' -> ~ holds e' t) /\
       (forall j e', (j < i)%nat -> entries !! j = Some e' -> e_Fallback e' = false))
  | None => forall j e', entries !! j = Some e' -> ~ holds e' t /\ e_Fallback e' = false
  end.
Proof.
  pose proof (active_loop_spec 0 entries t None) as H. fold (Active entries t) in H.
  destruct (Active entries t) as [i|]; [|by destruct H].
  rewrite Nat.sub_0_r in H. destruct H as [(e & _ & ? & ? & ?)|[? [?|(_ & e & _ & ? & ? & ?)]]]; [|done|]; exists e; auto.
Qed.
End Fixed.

(** A night window and a fallback on a Friday in a zone one hour east: at 23:00 and
    at 05:59 of the Saturday the window, at 06:00 the fallback. *)
Example active_ex :
  let z := fixed_zone Hour in
  let entries := FromConfig [mkSchedule "night" "22:00" "06:00" ["fri"]; mkSchedule "day" "" "" []] in
  let friday t := 1 * day_ns + t - Hour in
  map (Active entries) [friday (23 * Hour); friday (day_ns + 359 * Minute); friday (day_ns + 360 * Minute);
                        friday (day_ns + 23 * Hour)] = [Some 0%nat; Some 0%nat; Some 1%nat; Some 1%nat] /\
  Next entries (friday (23 * Hour)) = Some (friday (day_ns + 360 * Minute), Some 1%nat).
Proof. by vm_compute. Qed.
