(* ===== verification/Scheduler.v ===== *)
(** The preset scheduler (src/cmd/n5-fangov/scheduler.go): a ticker that applies the
    preset of the active entry when that entry changes.

    [apply] and the time zone are parameters.  The reload that [apply] triggers
    calls [Set] from its hook; an answer of [apply] therefore carries the entries
    the hook has set, if any. *)
From stdpp Require Import base gmap strings list.
From Stdlib Require Import ZArith Lia Ascii.
From S2P Require Import Prelude GoLib GoTime ConfigTypes Schedule.
Open Scope Z_scope.

Definition schedulerTick : Z := 30 * Second.

(** What [errors.Is] and [errors.As] find in an error of [apply]. *)
Record ApplyErr := mkApplyErr {
  ae_NotExist : bool; ae_PresetInvalid : bool; ae_PresetWrite : bool; ae_RestartRequired : bool; ae_Reload : bool }.
Definition presetErrorClass (e : ApplyErr) : string :=
  if ae_NotExist e then "preset missing"
  else if ae_PresetInvalid e then "preset invalid"
  else if ae_PresetWrite e then "write failed"
  else if ae_RestartRequired e then "restart required"
  else if ae_Reload e then "reload failed"
  else "apply failed".

Record scheduleSwitch := mkSwitch { sw_TS : Z; sw_Preset : string; sw_OK : bool; sw_Error : string }.

Definition no_entry : Entry := mkEntry "" "" "" [] false.
Record scheduler := mkScheduler {
  s_entries : list Entry; s_lastOK : bool; s_lastEntry : Entry; s_last : option scheduleSwitch }.
#[export] Instance eta_scheduler : Eta scheduler := fun s =>
  mkScheduler (s_entries s) (s_lastOK s) (s_lastEntry s) (s_last s).
Definition newScheduler : scheduler := mkScheduler [] false no_entry None.
Definition Set_entries (entries : list Entry) (s : scheduler) : scheduler := s <| s_entries := entries |>.

(** What leaves the scheduler: a preset is applied, an alert is raised. *)
Inductive Out := OApply (preset : string) | OAlert (preset window class : string).

Record Answer := mkAnswer { an_err : option ApplyErr; an_set : option (list Entry) }.

Section Scheduler.
Context {Zn : Zone} {W : Type}.
(** The wired preset store, if there is one. *)
Context (apply : option (string -> W -> Answer * W)).

Definition active_now (entries : list Entry) (now : Z) : option Entry :=
  match Active entries now with Some i => entries !! i | None => None end.
Definition transition (s : scheduler) (a : option Entry) : bool :=
  match a with
  | Some e => negb (s_lastOK s) || negb (Equal e (s_lastEntry s))
  | None => s_lastOK s
  end.

(** The state the evaluation works on: the scheduler, the world, what left. *)
Definition St : Type := scheduler * W * list Out.
Definition window_text (e : Entry) : string :=
  if e_Fallback e then "fallback" else String.append (e_From e) (String.append "-" (e_To e)).

Definition evaluate (now : Z) (st : St) : St :=
  let '(s, w, out) := st in
  let a := active_now (s_entries s) now in
  let tr := transition s a in
  let s := s <| s_lastOK := bool_decide (is_Some a) |> <| s_lastEntry := default no_entry a |> in
  if negb tr then (s, w, out)
  else
    match a with
    | None => (s, w, out)
    | Some entry =>
        match apply with
        | None => (s, w, out)
        | Some apply =>
            let '(an, w) := apply (e_Preset entry) w in
            let out := out ++ [OApply (e_Preset entry)] in
            let s := match an_set an with Some es => Set_entries es s | None => s end in
            match an_err an with
            | Some err =>
                let class := presetErrorClass err in
                (s <| s_last := Some (mkSwitch (now / Second) (e_Preset entry) false class) |>, w,
                 out ++ [OAlert (e_Preset entry) (window_text entry) class])
            | None => (s <| s_last := Some (mkSwitch (now / Second) (e_Preset entry) true "") |>, w, out)
            end
        end
    end.

(** A run: ticks, and reloads from elsewhere. *)
Inductive Op := Tick (now : Z) | Reload (entries : list Entry).
Definition step (st : St) (op : Op) : St :=
  match op with
  | Tick now => evaluate now st
  | Reload entries => let '(s, w, out) := st in (Set_entries entries s, w, out)
  end.
Definition run (ops : list Op) (st : St) : St := fold_left step ops st.

(** ** Status *)
Record scheduleEntry := mkSEntry {
  se_Preset : string; se_From : string; se_To : string; se_Days : list string; se_Fallback : bool; se_Active : bool }.
Record scheduleStatus := mkStatus {
  ss_Entries : list scheduleEntry; ss_Active : Z; ss_Next : option (Z * string); ss_Last : option scheduleSwitch;
  ss_Timezone : string }.

(** [zoneLabel]: the zone's name and offset in seconds east. *)
Definition zoneLabel (name : string) (off : Z) : string :=
  let sgn := if off <? 0 then "-" else "+" in
  let off := Z.abs off in
  String.append name (String.append " " (String.append sgn
    (String.append (two_digits (off / 3600)) (String.append ":" (two_digits (off mod 3600 / 60)))))).

Definition Status (zone_name : string) (zone_off : Z) (now : Z) (s : scheduler) : scheduleStatus :=
  let entries := s_entries s in
  let idx := match Active entries now with Some i => Z.of_nat i | None => -1 end in
  mkStatus
    (imap (fun i e => mkSEntry (e_Preset e) (e_From e) (e_To e) (map DayName (e_Days e)) (e_Fallback e)
                        (Z.of_nat i =? idx)) entries)
    idx
    (match Next entries now with
     | Some (at_, Some i) => Some (at_ / Second, match entries !! i with Some e => e_Preset e | None => "" end)
     | Some (at_, None) => Some (at_ / Second, "")
     | None => None
     end)
    (s_last s) (zoneLabel zone_name zone_off).
End Scheduler.

(** ** Entries up to the order and repetition of their days *)
Definition same_entry (a b : Entry) : Prop := Equal a b = true.
#[export] Instance same_entry_equivalence : Equivalence same_entry.
Proof.
  assert (H : forall a b, Equal a b = true <-> e_Preset a = e_Preset b /\ e_From a = e_From b /\ e_To a = e_To b /\
                e_Fallback a = e_Fallback b /\ daySet (e_Days a) = daySet (e_Days b)).
  { intros a b. unfold Equal. destruct (String.eqb_spec (e_Preset a) (e_Preset b)), (String.eqb_spec (e_From a) (e_From b)),
      (String.eqb_spec (e_To a) (e_To b)), (Bool.eqb_spec (e_Fallback a) (e_Fallback b)); cbn [negb orb];
      rewrite ?Z.eqb_eq; try tauto; (split; [done|]; intros (? & ? & ? & ? & ?); congruence). }
  split.
  - intros a. by apply H.
  - intros a b Hab. apply H in Hab. apply H. by destruct Hab as (-> & -> & -> & -> & ->).
  - intros a b c Hab Hbc. apply H in Hab, Hbc. apply H.
    destruct Hab as (-> & -> & -> & -> & ->). exact Hbc.
Qed.

Definition applies (out : list Out) : list string :=
  flat_map (fun o => match o with OApply p => [p] | _ => [] end) out.

Section Rules.
Context {Zn : Zone} {W : Type} (apply : string -> W -> Answer * W).
Let ev := evaluate (Some apply).

(** One tick: the baseline becomes the entry active now, and its preset is applied
    exactly when that differs from the baseline before. *)
Lemma evaluate_spec now s w out :
  let a := active_now (s_entries s) now in
  let st' := ev now (s, w, out) in
  s_lastOK st'.1.1 = bool_decide (is_Some a) /\ s_lastEntry st'.1.1 = default no_entry a /\
  applies st'.2 = applies out ++ (if transition s a then match a with Some e => [e_Preset e] | None => [] end else []).
Proof.
  cbv zeta. unfold ev, evaluate. destruct (active_now (s_entries s) now) as [e|]; cbn [transition].
  - destruct (negb (s_lastOK s) || negb (Equal e (s_lastEntry s))); cbn [negb fst snd]; [|by rewrite app_nil_r].
    destruct (apply (e_Preset e) w) as [an w']. unfold applies.
    destruct (an_set an), (an_err an); cbn; rewrite !flat_map_app; cbn; by rewrite ?app_nil_r.
  - destruct (s_lastOK s); cbn [negb fst snd]; by rewrite app_nil_r.
Qed.

(** The active entry stays the same through the ticks, whatever reloads do. *)
Fixpoint steady (e : Entry) (ops : list Op) (st : @St W) : Prop :=
  match ops with
  | [] => True
  | op :: ops' =>
      match op with
      | Tick now => exists e', active_now (s_entries st.1.1) now = Some e' /\ Equal e' e = true
      | Reload _ => True
      end /\ steady e ops' (step (Some apply) st op)
  end.

Lemma steady_quiet e ops s w out :
  s_lastOK s = true -> Equal (s_lastEntry s) e = true -> steady e ops (s, w, out) ->
  applies (run (Some apply) ops (s, w, out)).2 = applies out.
Proof.
  revert s w out. induction ops as [|op ops IH]; intros s w out Hok He Hs; [done|].
  destruct Hs as [Hop Hs]. change (run (Some apply) (op :: ops) (s, w, out))
    with (run (Some apply) ops (step (Some apply) (s, w, out) op)).
  destruct op as [now|es]; cbn [step] in *.
  - destruct Hop as (e' & Ha & He'). pose proof (evaluate_spec now s w out) as Hev. cbv zeta in Hev. unfold ev in Hev.
    cbn [fst] in Ha. rewrite Ha in Hev. destruct Hev as (H1' & H2' & H3').
    assert (transition s (Some e') = false) as Htr.
    { cbn. rewrite Hok. cbn. apply negb_false_iff. change (same_entry e' (s_lastEntry s)).
      transitivity e; [exact He'|by symmetry]. }
    rewrite Htr, app_nil_r in H3'. destruct (evaluate (Some apply) now (s, w, out)) as [[s1 w1] out1]. cbn in H1', H2', H3'.
    rewrite IH; [done|done|by rewrite H2'|done].
  - by apply IH.
Qed.

(** A preset is applied once per switch: at the first tick at which an entry is
    active that was not before, its preset is applied; at every later tick of the
    same entry nothing is, whatever the outcome of the apply and however often the
    configuration is reloaded with the entry in it. *)
Theorem preset_applied_once now e ops s w out :
  active_now (s_entries s) now = Some e ->
  s_lastOK s = false \/ Equal e (s_lastEntry s) = false ->
  steady e ops (step (Some apply) (s, w, out) (Tick now)) ->
  applies (run (Some apply) (Tick now :: ops) (s, w, out)).2 = applies out ++ [e_Preset e].
Proof.
  intros Ha Hnew Hst. change (run (Some apply) (Tick now :: ops) (s, w, out))
    with (run (Some apply) ops (ev now (s, w, out))). cbn [step] in Hst. fold ev in Hst.
  pose proof (evaluate_spec now s w out) as Hev. cbv zeta in Hev. rewrite Ha in Hev.
  destruct Hev as (H1' & H2' & H3').
  assert (transition s (Some e) = true) as Htr by (cbn; destruct Hnew as [->| ->]; [done|by rewrite orb_true_r]).
  rewrite Htr in H3'. destruct (ev now (s, w, out)) as [[s1 w1] out1]. cbn [fst snd] in *. rewrite <- H3'.
  apply (steady_quiet e); [by rewrite H1'| |exact Hst]. rewrite H2'. by change (same_entry e e).
Qed.
End Rules.

(** A window of an hour with two ticks in it, the first of which fails to apply. *)
Definition demo_apply (name : string) (w : nat) : Answer * nat :=
  (mkAnswer (Some (mkApplyErr true false false false false)) None, S w).
Definition demo_sched : scheduler :=
  mkScheduler (FromConfig [mkSchedule "night" "22:00" "23:00" []]) false no_entry None.
Theorem preset_applied_once_witness :
  let Zn := fixed_zone 0 in
  applies (run (Some demo_apply) [Tick (22 * Hour); Tick (22 * Hour + schedulerTick)] (demo_sched, 0%nat, [])).2 = ["night"].
Proof.
  intros Zn. apply (preset_applied_once demo_apply (22 * Hour) (mkEntry "night" "22:00" "23:00" [] false)
    [Tick (22 * Hour + schedulerTick)] demo_sched 0%nat []).
  - by vm_compute.
  - by left.
  - split; [|done]. exists (mkEntry "night" "22:00" "23:00" [] false). by vm_compute.
Defined.
