(* ===== verification/Curve.v ===== *)
(** The curve and slew arithmetic of src/internal/control/controller.go and the
    curve validation of src/internal/config/config.go. *)
From stdpp Require Import base gmap strings list.
From Stdlib Require Import ZArith QArith Qround Lia Lqa.
From S2P Require Import Prelude GoLib Float64 ConfigTypes.
Open Scope Z_scope.

Definition clampDuty (d : Z) : Z :=
  if d <? 0 then 0 else if 255 <? d then 255 else d.

(** The value on the segment from [(t0, d0)] to [(t1, d1)], in binary64. *)
Definition segment (t : Q) (t0 d0 t1 d1 : Q) : Z :=
  if feq t1 t0 then to_int d1
  else
    let v := fadd d0 (fdiv (fmul (fsub t t0) (fsub d1 d0)) (fsub t1 t0)) in
    clampDuty (to_int (fadd v (1 # 2))).

(** The loop of [Interpolate] over the points after the first. *)
Fixpoint interp_loop (t : Q) (prev : Z * Z) (rest : Curve) : option Z :=
  match rest with
  | [] => None
  | p :: rest' =>
      let t1 := of_int p.1 in
      if fle t t1 then Some (segment t (of_int prev.1) (of_int prev.2) t1 (of_int p.2))
      else interp_loop t p rest'
  end.

Definition Interpolate (curve : Curve) (tempMilli : Z) : Z :=
  match curve with
  | [] => 255
  | p0 :: rest =>
      let t := fdiv (of_int tempMilli) (of_int 1000) in
      if fle t (of_int p0.1) then p0.2
      else
        let plast := List.last rest p0 in
        if fle (of_int plast.1) t then plast.2
        else match interp_loop t p0 rest with Some v => v | None => plast.2 end
  end.

(** [Slew] limits the change from [cur] towards [target]. *)
Definition Slew (cur target stepUp stepDown : Z) : Z :=
  if cur + stepUp <? target then cur + stepUp
  else if target <? cur - stepDown then cur - stepDown
  else target.

(** [float64(m) / 1000]: millidegrees in degrees. *)
Definition temp_float (m : Z) : Q := fdiv (of_int m) (of_int 1000).

(** [strconv.FormatFloat(q, 'f', 1, 64)]: the exact binary value rounded to one
    decimal, ties to even; a negative value keeps its sign. *)
Definition FormatFloat1 (q : Q) : string :=
  let neg := flt q 0 in
  let tenths := rne ((if neg then Qopp q else q) * 10) in
  String.append (if neg then "-" else "")
    (String.append (Itoa (tenths / 10)) (String.append "." (Itoa (tenths mod 10)))).

(** ** Validation of a curve (config.ValidateCurve) *)
Inductive CurveErr :=
| ErrPoints (n : nat) | ErrPointLen (i : nat) (n : nat) | ErrPointTemp (i : nat) (t : Z)
| ErrPointDuty (i : nat) (d : Z) | ErrTempOrder (i : nat) (t prev : Z)
| ErrDutyOrder (i : nat) (d prev : Z).

Fixpoint validate_points (i : nat) (prev : option (Z * Z)) (pts : list (list Z))
  : CurveErr + Curve :=
  match pts with
  | [] => inr []
  | pt :: pts' =>
      match pt with
      | [t; d] =>
          if (t <? MinCurveTemp) || (MaxCurveTemp <? t) then inl (ErrPointTemp i t)
          else if (d <? 0) || (255 <? d) then inl (ErrPointDuty i d)
          else
            match prev with
            | Some (pt0, pd0) =>
                if t <=? pt0 then inl (ErrTempOrder i t pt0)
                else if d <? pd0 then inl (ErrDutyOrder i d pd0)
                else match validate_points (S i) (Some (t, d)) pts' with
                     | inl e => inl e
                     | inr out => inr ((t, d) :: out)
                     end
            | None =>
                match validate_points (S i) (Some (t, d)) pts' with
                | inl e => inl e
                | inr out => inr ((t, d) :: out)
                end
            end
      | _ => inl (ErrPointLen i (length pt))
      end
  end.

Definition ValidateCurve (pts : list (list Z)) : CurveErr + Curve :=
  if (Z.of_nat (length pts) <? MinCurvePts) || (MaxCurvePts <? Z.of_nat (length pts))
  then inl (ErrPoints (length pts))
  else validate_points 0 None pts.

(** ** The segment in exact terms *)
Section Segment.
Context (t0 d0 t1 d1 : Z).
Hypothesis Ht0 : -1000 <= t0 <= 1000.
Hypothesis Ht1 : -1000 <= t1 <= 1000.
Hypothesis Ht : t0 < t1.
Hypothesis Hd0 : 0 <= d0.
Hypothesis Hd : d0 <= d1.
Hypothesis Hd1 : d1 <= 255.

(** The unclamped float the code converts, as a function of [t]. *)
Definition seg_float (t : Q) : Q :=
  round64 (round64 (inject_Z d0 +
    round64 (round64 (round64 (t - inject_Z t0) * inject_Z (d1 - d0)) /
      inject_Z (t1 - t0))) + (1 # 2)).

Lemma segment_seg_float t :
  segment t (of_int t0) (of_int d0) (of_int t1) (of_int d1) = clampDuty (to_int (seg_float t)).
Proof.
  unfold segment, seg_float, fadd, fsub, fmul, fdiv.
  rewrite !of_int_exact by lia.
  assert (feq (inject_Z t1) (inject_Z t0) = false) as ->.
  { unfold feq. apply not_true_iff_false. rewrite Qeq_bool_iff, inject_Z_injective. lia. }
  assert (E1 : (inject_Z d1 - inject_Z d0 == inject_Z (d1 - d0))%Q)
    by (unfold Qminus, Z.sub; by rewrite inject_Z_plus, inject_Z_opp).
  assert (E2 : (inject_Z t1 - inject_Z t0 == inject_Z (t1 - t0))%Q)
    by (unfold Qminus, Z.sub; by rewrite inject_Z_plus, inject_Z_opp).
  rewrite E1, E2. by rewrite !round64_int_eq by lia.
Qed.

Local Open Scope Q_scope.
Lemma inject_pos : 0 < inject_Z (t1 - t0).
Proof using Ht. change 0 with (inject_Z 0). rewrite <- Zlt_Qlt. lia. Qed.
Lemma inject_rise : 0 <= inject_Z (d1 - d0).
Proof using Hd. change 0 with (inject_Z 0). rewrite <- Zle_Qle. lia. Qed.

Lemma seg_float_le t t' : t <= t' -> seg_float t <= seg_float t'.
Proof using Ht Hd.
  intros H. pose proof inject_pos. pose proof inject_rise. unfold seg_float.
  apply round64_le, Qplus_le_l, round64_le, Qplus_le_r, round64_le.
  apply Qmult_le_compat_r; [|by apply Qlt_le_weak, Qinv_lt_0_compat].
  apply round64_le, Qmult_le_compat_r; [|done].
  apply round64_le. lra.
Qed.

Lemma seg_float_between t :
  inject_Z t0 <= t -> t <= inject_Z t1 ->
  inject_Z d0 + (1 # 2) <= seg_float t <= inject_Z d1 + (1 # 2).
Proof using All.
  intros Hl Hu. pose proof inject_pos as Hp. pose proof inject_rise as Hr. unfold seg_float.
  set (a := round64 (t - inject_Z t0)).
  assert (Ha : inject_Z 0 <= a <= inject_Z (t1 - t0)).
  { apply round64_between; try lia.
    - change (inject_Z 0) with 0. lra.
    - unfold Z.sub. rewrite inject_Z_plus, inject_Z_opp. lra. }
  set (b := round64 (a * inject_Z (d1 - d0))).
  assert (Hb : inject_Z 0 <= b <= inject_Z ((t1 - t0) * (d1 - d0))).
  { apply round64_between; try nia.
    - apply Qmult_le_0_compat; [apply Ha|done].
    - rewrite inject_Z_mult. apply Qmult_le_compat_r; [apply Ha|done]. }
  set (c := round64 (b / inject_Z (t1 - t0))).
  assert (Hc : inject_Z 0 <= c <= inject_Z (d1 - d0)).
  { apply round64_between; try lia.
    - apply Qle_shift_div_l; [done|]. change (inject_Z 0) with 0 in *. lra.
    - apply Qle_shift_div_r; [done|]. rewrite <- inject_Z_mult.
      rewrite Z.mul_comm. apply Hb. }
  assert (Hv : inject_Z d0 <= round64 (inject_Z d0 + c) <= inject_Z d1).
  { apply round64_between; try lia.
    - change (inject_Z 0) with 0 in *. lra.
    - replace d1 with (d0 + (d1 - d0))%Z by lia. rewrite inject_Z_plus. lra. }
  rewrite <- (round64_half d0) by lia. rewrite <- (round64_half d1) by lia.
  split; apply round64_le; lra.
Qed.

Lemma segment_between t :
  inject_Z t0 <= t -> t <= inject_Z t1 ->
  (d0 <= segment t (of_int t0) (of_int d0) (of_int t1) (of_int d1) <= d1)%Z.
Proof using All.
  intros Hl Hu. rewrite segment_seg_float.
  destruct (seg_float_between t Hl Hu) as [H1%to_int_le H2%to_int_le].
  rewrite to_int_half in H1, H2 by lia. unfold clampDuty.
  destruct (to_int (seg_float t) <? 0)%Z eqn:?, (255 <? to_int (seg_float t))%Z eqn:?; lia.
Qed.

Lemma segment_le t t' : t <= t' ->
  (segment t (of_int t0) (of_int d0) (of_int t1) (of_int d1) <=
   segment t' (of_int t0) (of_int d0) (of_int t1) (of_int d1))%Z.
Proof using All.
  intros H. rewrite !segment_seg_float.
  pose proof (to_int_le _ _ (seg_float_le t t' H)). unfold clampDuty. bool_cases; lia.
Qed.
End Segment.

(** ** The loop of [Interpolate] *)
Lemma point_ok_bounds p : point_ok p = true -> -20 <= p.1 <= 120 /\ 0 <= p.2 <= 255.
Proof. unfold point_ok, duty_ok, MinCurveTemp, MaxCurveTemp. lia. Qed.

Definition points_ok (c : Curve) : Prop := Forall (fun p => point_ok p = true) c.

Lemma last_ok p rest : point_ok p = true -> points_ok rest -> point_ok (List.last rest p) = true.
Proof.
  intros Hp Hr. revert p Hp. induction Hr as [|q rest Hq Hr IH]; intros p Hp; [done|].
  cbn [List.last]. destruct rest; [done|]. by apply IH.
Qed.

Lemma last_cons p (rest : Curve) x : List.last (p :: rest) x = List.last rest p.
Proof.
  revert p x. induction rest as [|q rest IH]; intros p x; [done|].
  change (List.last (p :: q :: rest) x) with (List.last (q :: rest) x).
  by rewrite !IH.
Qed.

Lemma ascending_last p rest :
  ascending p rest = true ->
  p.1 <= (List.last rest p).1 /\ p.2 <= (List.last rest p).2.
Proof.
  revert p. induction rest as [|q rest IH]; intros p H; [cbn; lia|].
  rewrite last_cons. cbn [ascending] in H. split_bools. destruct (IH q ltac:(done)). lia.
Qed.

Section Loop.
Local Open Scope Q_scope.

Lemma inject_le a b : (a <= b)%Z -> inject_Z a <= inject_Z b.
Proof. by rewrite <- Zle_Qle. Qed.

Lemma interp_loop_between t p rest :
  point_ok p = true -> points_ok rest -> ascending p rest = true ->
  inject_Z p.1 <= t -> t <= inject_Z (List.last rest p).1 -> rest <> [] ->
  exists v, interp_loop t p rest = Some v /\ (p.2 <= v <= (List.last rest p).2)%Z.
Proof.
  intros Hp Hr. revert p Hp. induction Hr as [|q rest Hq Hr IH]; intros p Hp Ha Hl Hu Hne; [done|].
  rewrite last_cons in *. cbn [interp_loop ascending] in *.
  pose proof (point_ok_bounds _ Hp). pose proof (point_ok_bounds _ Hq).
  apply andb_true_iff in Ha as [Ha Ha'].
  pose proof (ascending_last _ _ Ha') as [_ Hq2].
  destruct (fle t (of_int q.1)) eqn:E.
  - rewrite of_int_exact in E by lia. apply fle_spec in E.
    eexists. split; [done|].
    rewrite (of_int_exact q.1) at 1 by lia. rewrite <- (of_int_exact q.1) by lia.
    pose proof (segment_between p.1 p.2 q.1 q.2 ltac:(lia) ltac:(lia) ltac:(lia) ltac:(lia)
      ltac:(lia) ltac:(lia) t Hl E). lia.
  - rewrite of_int_exact in E by lia. apply fle_false in E.
    destruct rest as [|q' rest'].
    { cbn in Hu. exfalso. lra. }
    destruct (IH q Hq Ha' ltac:(lra) Hu ltac:(done)) as (v & Hv & Hb).
    exists v. split; [done|]. lia.
Qed.

Lemma interp_loop_le t t' p rest v v' :
  point_ok p = true -> points_ok rest -> ascending p rest = true ->
  inject_Z p.1 <= t -> t <= t' -> t' <= inject_Z (List.last rest p).1 ->
  interp_loop t p rest = Some v -> interp_loop t' p rest = Some v' -> (v <= v')%Z.
Proof.
  intros Hp Hr. revert p Hp. induction Hr as [|q rest Hq Hr IH]; intros p Hp Ha Hl Htt Hu; [done|].
  rewrite last_cons in *. cbn [interp_loop ascending] in *.
  pose proof (point_ok_bounds _ Hp). pose proof (point_ok_bounds _ Hq).
  apply andb_true_iff in Ha as [Ha Ha'].
  assert (Hf : forall x, fle x (of_int q.1) = fle x (inject_Z q.1))
    by (intros x; by rewrite of_int_exact by lia).
  rewrite !Hf.
  destruct (fle t (inject_Z q.1)) eqn:E, (fle t' (inject_Z q.1)) eqn:E';
    float_hyps.
  - intros [= <-] [= <-]. apply segment_le; (done || lia).
  - intros [= <-] Hv'.
    pose proof (segment_between p.1 p.2 q.1 q.2 ltac:(lia) ltac:(lia) ltac:(lia) ltac:(lia)
      ltac:(lia) ltac:(lia) t Hl E).
    destruct rest as [|q' rest']; [done|].
    destruct (interp_loop_between t' q (q' :: rest') Hq Hr Ha' ltac:(lra) Hu ltac:(done))
      as (w & Hw & Hb). rewrite Hw in Hv'. injection Hv' as <-. lia.
  - exfalso. lra.
  - intros Hv Hv'. by apply (IH q Hq Ha' ltac:(lra) Htt Hu).
Qed.
End Loop.


Lemma temp_float_le m m' :
  Z.abs m < 2 ^ 53 -> Z.abs m' < 2 ^ 53 -> m <= m' -> (temp_float m <= temp_float m')%Q.
Proof.
  intros Hm Hm' H. unfold temp_float, fdiv. rewrite !of_int_exact by lia.
  apply round64_le, Qmult_le_compat_r; [by apply inject_le|]. done.
Qed.

(** A whole number of degrees is converted without rounding. *)
Lemma temp_float_exact t : Z.abs t < 2 ^ 20 -> temp_float (1000 * t) = inject_Z t.
Proof.
  intros Ht. unfold temp_float, fdiv. rewrite !of_int_exact by lia.
  rewrite <- (round64_int_eq t) by lia. apply round64_proper.
  rewrite inject_Z_mult. field.
Qed.

(** ** [Interpolate] *)
Lemma curve_ok_shape c : curve_ok c = true ->
  exists p rest, c = p :: rest /\ rest <> [] /\ point_ok p = true /\ points_ok rest /\
    ascending p rest = true.
Proof.
  unfold curve_ok, MinCurvePts. intros H. split_bools.
  destruct c as [|p rest]; [done|]. exists p, rest.
  split; [done|]. split; [by destruct rest|].
  cbn [forallb] in *. split_bools. split; [done|]. split; [|done].
  apply Forall_forall. intros x Hx.
  match goal with H : forallb _ _ = true |- _ => rewrite forallb_forall in H; apply H end.
  by apply list_elem_of_In.
Qed.

Definition first_duty (c : Curve) : Z := match c with [] => 255 | p :: _ => p.2 end.
Definition last_duty (c : Curve) : Z :=
  match c with [] => 255 | p :: rest => (List.last rest p).2 end.

Lemma Interpolate_between c m : curve_ok c = true ->
  first_duty c <= Interpolate c m <= last_duty c.
Proof.
  intros (p & rest & -> & Hne & Hp & Hr & Ha)%curve_ok_shape. cbn [first_duty last_duty].
  pose proof (ascending_last _ _ Ha) as [_ Hpl]. pose proof (last_ok _ _ Hp Hr) as Hl.
  unfold Interpolate. cbn zeta. fold (temp_float m).
  apply point_ok_bounds in Hp as Hpb. apply point_ok_bounds in Hl as Hlb.
  destruct (fle (temp_float m) (of_int p.1)) eqn:E1; [lia|].
  destruct (fle (of_int (List.last rest p).1) (temp_float m)) eqn:E2; [lia|].
  rewrite of_int_exact in E1, E2 by lia. float_hyps.
  destruct (interp_loop_between (temp_float m) p rest Hp Hr Ha) as (v & -> & Hv);
    [by apply Qlt_le_weak|by apply Qlt_le_weak|done|lia].
Qed.

Lemma Interpolate_le c m m' : curve_ok c = true ->
  Z.abs m < 2 ^ 53 -> Z.abs m' < 2 ^ 53 -> m <= m' -> Interpolate c m <= Interpolate c m'.
Proof.
  intros Hc Hm Hm' Hle. pose proof (temp_float_le _ _ Hm Hm' Hle) as Ht.
  pose proof (Interpolate_between c m Hc) as Hb. pose proof (Interpolate_between c m' Hc) as Hb'.
  apply curve_ok_shape in Hc as (p & rest & -> & Hne & Hp & Hr & Ha).
  cbn [first_duty last_duty] in *.
  pose proof (last_ok _ _ Hp Hr) as Hl.
  unfold Interpolate in *. cbn zeta in *. fold (temp_float m) (temp_float m') in *.
  apply point_ok_bounds in Hp as Hpb. apply point_ok_bounds in Hl as Hlb.
  rewrite !of_int_exact in Hb, Hb' |- * by lia.
  destruct (fle (temp_float m) (inject_Z p.1)) eqn:E1; [lia|].
  destruct (fle (temp_float m') (inject_Z p.1)) eqn:E1'; [float_hyps; exfalso; lra|].
  destruct (fle (inject_Z (List.last rest p).1) (temp_float m)) eqn:E2,
    (fle (inject_Z (List.last rest p).1) (temp_float m')) eqn:E2'; float_hyps; try lia.
  - exfalso. lra.
  - destruct (interp_loop_between (temp_float m) p rest Hp Hr Ha) as (v & Hv & _); [lra|lra|done|].
    destruct (interp_loop_between (temp_float m') p rest Hp Hr Ha) as (v' & Hv' & _); [lra|lra|done|].
    rewrite Hv, Hv'. apply (interp_loop_le (temp_float m) (temp_float m') p rest v v' Hp Hr Ha); done || lra.
Qed.

Lemma segment_end t0 d0 t1 d1 :
  -1000 <= t0 <= 1000 -> -1000 <= t1 <= 1000 -> t0 < t1 -> 0 <= d0 <= d1 -> d1 <= 255 ->
  segment (inject_Z t1) (of_int t0) (of_int d0) (of_int t1) (of_int d1) = d1.
Proof.
  intros H0 H1 Ht Hd Hd1. rewrite segment_seg_float by lia. unfold seg_float.
  assert (E : (inject_Z t1 - inject_Z t0 == inject_Z (t1 - t0))%Q)
    by (unfold Qminus, Z.sub; by rewrite inject_Z_plus, inject_Z_opp).
  rewrite E, (round64_int_eq (t1 - t0)), <- inject_Z_mult by lia.
  rewrite (round64_int_eq (_ * _)) by nia.
  assert (Hne : ~ (inject_Z (t1 - t0) == 0)%Q).
  { change 0%Q with (inject_Z 0). rewrite inject_Z_injective. lia. }
  assert (E2 : (inject_Z ((t1 - t0) * (d1 - d0)) / inject_Z (t1 - t0) == inject_Z (d1 - d0))%Q).
  { rewrite inject_Z_mult. field. exact Hne. }
  rewrite E2, (round64_int_eq (d1 - d0)), <- inject_Z_plus by lia.
  replace (d0 + (d1 - d0)) with d1 by lia.
  rewrite (round64_int_eq d1), (round64_half d1) by lia.
  rewrite to_int_half by lia. unfold clampDuty. bool_cases; lia.
Qed.

Lemma ascending_lt p rest q : ascending p rest = true -> q ∈ rest -> p.1 < q.1.
Proof.
  revert p. induction rest as [|x rest IH]; intros p Ha Hq; [by inversion Hq|].
  cbn [ascending] in Ha. split_bools.
  apply elem_of_cons in Hq as [->|Hq]; [lia|]. specialize (IH x ltac:(done) Hq). lia.
Qed.

Lemma ascending_last_eq p rest q : ascending p rest = true -> q ∈ rest ->
  q = List.last rest p \/ q.1 < (List.last rest p).1.
Proof.
  revert p. induction rest as [|x rest IH]; intros p Ha Hq; [by inversion Hq|].
  rewrite last_cons. cbn [ascending] in Ha. split_bools.
  apply elem_of_cons in Hq as [->|Hq]; [|by apply IH].
  destruct rest as [|y rest]; [by left|right].
  assert (x.1 < y.1) by (cbn [ascending] in *; split_bools; lia).
  destruct (ascending_last y rest); [by cbn [ascending] in *; split_bools|].
  rewrite last_cons. lia.
Qed.

Lemma interp_loop_point p rest q :
  point_ok p = true -> points_ok rest -> ascending p rest = true -> q ∈ rest ->
  interp_loop (inject_Z q.1) p rest = Some q.2.
Proof.
  intros Hp Hr. revert p Hp. induction Hr as [|x rest Hx Hr IH]; intros p Hp Ha Hq; [by inversion Hq|].
  cbn [interp_loop ascending] in *. apply andb_true_iff in Ha as [Ha Ha'].
  apply point_ok_bounds in Hp as Hpb. apply point_ok_bounds in Hx as Hxb.
  apply elem_of_cons in Hq as [->|Hq].
  - assert (fle (inject_Z x.1) (of_int x.1) = true) as ->.
    { rewrite of_int_exact by lia. apply fle_spec, Qle_refl. }
    f_equal. apply segment_end; lia.
  - pose proof (ascending_lt _ _ _ Ha' Hq) as Hlt.
    assert (fle (inject_Z q.1) (of_int x.1) = false) as ->.
    { rewrite of_int_exact by lia. apply fle_false. by rewrite <- Zlt_Qlt. }
    by apply IH.
Qed.

Lemma Interpolate_point c q : curve_ok c = true -> q ∈ c -> Interpolate c (1000 * q.1) = q.2.
Proof.
  intros (p & rest & -> & Hne & Hp & Hr & Ha)%curve_ok_shape Hq.
  assert (Hqb : point_ok q = true).
  { apply elem_of_cons in Hq as [->|Hq]; [done|]. by apply (proj1 (Forall_forall _ _) Hr). }
  pose proof (last_ok _ _ Hp Hr) as Hl.
  apply point_ok_bounds in Hp as Hpb, Hqb as Hqb', Hl as Hlb.
  unfold Interpolate. cbn zeta. fold (temp_float (1000 * q.1)).
  rewrite temp_float_exact, (of_int_exact p.1), (of_int_exact (List.last rest p).1) by lia.
  apply elem_of_cons in Hq as [->|Hq].
  - assert (fle (inject_Z p.1) (inject_Z p.1) = true) as -> by apply fle_spec, Qle_refl. done.
  - pose proof (ascending_lt _ _ _ Ha Hq).
    assert (fle (inject_Z q.1) (inject_Z p.1) = false) as ->
      by (apply fle_false; by rewrite <- Zlt_Qlt).
    destruct (fle (inject_Z (List.last rest p).1) (inject_Z q.1)) eqn:E;
      [|by rewrite interp_loop_point].
    float_hyps. rewrite <- Zle_Qle in E.
    destruct (ascending_last_eq p rest q Ha Hq) as [<-|?]; [done|lia].
Qed.

(** ** [ValidateCurve] accepts exactly the well-formed curves *)
Definition as_points (c : Curve) : list (list Z) := map (fun p => [p.1; p.2]) c.

Definition prev_ok (prev : option (Z * Z)) (c : Curve) : bool :=
  match prev with Some p => ascending p c | None => curve_sorted c end.

Lemma prev_ok_cons prev q c :
  prev_ok prev (q :: c) = true <->
  match prev with Some p => p.1 < q.1 /\ p.2 <= q.2 | None => True end /\ ascending q c = true.
Proof.
  destruct prev as [p|]; cbn [prev_ok curve_sorted ascending]; [|tauto].
  rewrite !andb_true_iff, Z.ltb_lt, Z.leb_le. tauto.
Qed.

Lemma validate_points_spec pts : forall i prev c,
  validate_points i prev pts = inr c <->
  pts = as_points c /\ forallb point_ok c = true /\ prev_ok prev c = true.
Proof.
  induction pts as [|pt pts IH]; intros i prev c.
  { cbn. split.
    - intros [= <-]. repeat split. by destruct prev.
    - intros (H & _ & _). by destruct c. }
  destruct c as [|q c]; cbn [validate_points as_points map].
  { split; [|by intros (? & _)].
    intros H. exfalso. revert H. repeat (case_match; try done). }
  rewrite prev_ok_cons. fold (as_points c). cbn [forallb].
  specialize (IH (S i) (Some q) c) as IHq. destruct q as [qt qd].
  cbn [fst snd prev_ok] in *.
  split.
  - intros H. repeat (case_match; try done; simplify_eq).
    all: rename select (validate_points _ _ _ = inr _) into Hv;
      apply IHq in Hv as (-> & -> & ->);
      repeat match goal with H : (_ || _)%bool = false |- _ => apply orb_false_iff in H; destruct H end;
      unfold point_ok, duty_ok, MinCurveTemp, MaxCurveTemp in *; cbn [fst snd] in *;
      (split; [done|]); split; [rewrite andb_true_iff; split; [|done]; lia|split; [|done]; lia || done].
  - intros ([= -> Hpts] & Hok & Hprev & Ha). apply andb_true_iff in Hok as [Hp Hok].
    assert (validate_points (S i) (Some (qt, qd)) pts = inr c) as Hv by (apply IHq; auto).
    unfold point_ok, duty_ok in Hp. cbn [fst snd] in Hp.
    assert ((qt <? MinCurveTemp) || (MaxCurveTemp <? qt) = false) as -> by lia.
    assert ((qd <? 0) || (255 <? qd) = false) as -> by lia.
    rewrite Hv. destruct prev as [[pt0 pd0]|]; [|done]. cbn [fst snd] in *.
    assert ((qt <=? pt0) = false) as -> by lia.
    by assert ((qd <? pd0) = false) as -> by lia.
Qed.

Lemma ValidateCurve_spec pts c :
  ValidateCurve pts = inr c <-> pts = as_points c /\ curve_ok c = true.
Proof.
  unfold ValidateCurve, curve_ok. split.
  - destruct (_ || _) eqn:E; [done|]. intros (-> & Hf & Hs)%validate_points_spec.
    split; [done|]. unfold as_points in E. rewrite length_map in E.
    rewrite Hf. cbn [prev_ok] in Hs. rewrite Hs. rewrite !andb_true_r. lia.
  - intros [-> H]. split_bools. unfold as_points at 1 2. rewrite length_map.
    assert ((Z.of_nat (length c) <? MinCurvePts) || (MaxCurvePts <? Z.of_nat (length c)) = false)
      as -> by lia.
    by apply validate_points_spec.
Qed.

(** ** Slewing *)
Lemma Slew_step cur target up down : 0 <= up -> 0 <= down ->
  - down <= Slew cur target up down - cur <= up.
Proof. unfold Slew. intros. bool_cases; lia. Qed.

Lemma Slew_between cur target up down : 0 <= up -> 0 <= down ->
  Z.min cur target <= Slew cur target up down <= Z.max cur target.
Proof. unfold Slew. intros. bool_cases; lia. Qed.

Lemma Slew_progress cur target up down : 1 <= up -> 1 <= down ->
  Z.abs (target - Slew cur target up down) <= Z.max 0 (Z.abs (target - cur) - 1).
Proof. unfold Slew. intros. bool_cases; lia. Qed.

Lemma Slew_iter up down target n cur : 1 <= up -> 1 <= down ->
  Z.abs (target - cur) <= Z.of_nat n ->
  Nat.iter n (fun c => Slew c target up down) cur = target.
Proof.
  intros Hu Hd. revert cur. induction n as [|n IH]; intros cur H; [cbn; lia|].
  rewrite Nat.iter_succ_r. apply IH.
  pose proof (Slew_progress cur target up down Hu Hd). lia.
Qed.

(** ** Properties *)

(** C34: a valid curve is followed.  The duty lies between the duties of the first
    and the last point, never falls when the temperature rises, and is exactly the
    point's duty at every point of the curve - with the binary64 arithmetic of the
    code, for every reading an int of 53 bits can hold. *)
Theorem curve_followed c m m' : curve_ok c = true ->
  Z.abs m < 2 ^ 53 -> Z.abs m' < 2 ^ 53 -> m <= m' ->
  first_duty c <= Interpolate c m /\ Interpolate c m <= Interpolate c m' /\
  Interpolate c m' <= last_duty c /\
  Forall (fun p => Interpolate c (1000 * p.1) = p.2) c.
Proof.
  intros Hc Hm Hm' Hle. pose proof (Interpolate_between c m Hc). pose proof (Interpolate_between c m' Hc).
  pose proof (Interpolate_le c m m' Hc Hm Hm' Hle).
  split; [lia|]. split; [lia|]. split; [lia|].
  apply Forall_forall. intros p Hp. by apply Interpolate_point.
Qed.

Lemma curve_followed_witness :
  let c := [(35, 60); (60, 150); (80, 255)] in
  Interpolate c 52345 = 122 /\ Interpolate c 70000 = 203 /\
  (first_duty c <= Interpolate c 52345 /\ Interpolate c 52345 <= Interpolate c 70000 /\
   Interpolate c 70000 <= last_duty c /\ Forall (fun p => Interpolate c (1000 * p.1) = p.2) c).
Proof.
  intros c. split; [by vm_compute|]. split; [by vm_compute|].
  apply (curve_followed c 52345 70000); by vm_compute.
Defined.

(** ValidateCurve accepts exactly the well-formed point lists and returns them
    unchanged: 2 to 8 points of two numbers, temperatures in -20..120 and strictly
    ascending, duties in 0..255 and non-decreasing. *)
Theorem curve_validated pts c :
  ValidateCurve pts = inr c <-> pts = as_points c /\ curve_ok c = true.
Proof. apply ValidateCurve_spec. Qed.

(** C35: slewing reaches the target and never overshoots.  One step moves the duty by
    at most the configured steps and stays between the old duty and the target; with
    steps of at least 1, as many cycles as the distance is long (at most 255) end
    exactly at the target. *)
Theorem slew_reaches cur target up down :
  1 <= up -> 1 <= down ->
  - down <= Slew cur target up down - cur <= up /\
  Z.min cur target <= Slew cur target up down <= Z.max cur target /\
  Nat.iter (Z.to_nat (Z.abs (target - cur))) (fun c => Slew c target up down) cur = target.
Proof.
  intros Hu Hd. split; [apply Slew_step; lia|]. split; [apply Slew_between; lia|].
  apply Slew_iter; lia.
Qed.

Lemma slew_reaches_witness :
  Slew 200 85 40 15 = 185 /\
  Nat.iter (Z.to_nat (Z.abs (85 - 200))) (fun c => Slew c 85 40 15) 200 = 85.
Proof. split; [by vm_compute|]. apply (slew_reaches 200 85 40 15); lia. Defined.
