(* ===== verification/ConfigFields.v ===== *)
(** The parser of the configuration file, first part (src/internal/config/config.go):
    the decoded document, the warnings, the decoders of one key and the sections
    [daemon] and [dashboard].

    The TOML library is a parameter: [Toml] lists the decodings the parser asks
    of a [toml.Primitive] (an error is [None]).  A table is a finite map from its
    keys to primitives.  A warning is kept as the field, the format and the
    arguments [parser.warn] is called with, before [fmt.Sprintf] renders them. *)
From stdpp Require Import base gmap strings list sorting.
From Stdlib Require Import ZArith Lia Ascii.
From S2P Require Import Prelude GoLib Float64 GoTime ConfigTypes Curve.
Open Scope Z_scope.

(** ** The document *)
Class Toml (Prim : Type) := {
  dec_int : Prim -> option Z;
  dec_str : Prim -> option string;
  dec_bool : Prim -> option bool;
  dec_strs : Prim -> option (list string);
  dec_points : Prim -> option (list (list Z));
  dec_table : Prim -> option (gmap string Prim);
  dec_tables : Prim -> option (list (gmap string Prim)) }.

(** ** Warnings *)
Inductive Arg :=
  | AInt (z : Z) | AStr (s : string) | ADur (d : Z) | ABool (b : bool)
  | AErr (format : string) (args : list Arg).
Record Warning := mkWarning { Field : string; Format : string; Args : list Arg }.
(** An error value: its format and arguments. *)
Definition Err : Type := string * list Arg.

Definition P (A : Type) : Type := M (list Warning) A.
Definition warn (field format : string) (args : list Arg) : P unit :=
  modify (fun ws => ws ++ [mkWarning field format args]).

Definition dot (pre key : string) : string := String.append pre (String.append "." key).
Definition dq : string := String "034" EmptyString.
Definition in_quotes (s : string) : string := String.append dq (String.append s dq).

Definition sortedKeys {V} (m : gmap string V) : list string :=
  merge_sort String.le (map fst (map_to_list m)).

Definition contains (l : list string) (s : string) : bool := existsb (fun v => String.eqb v s) l.
Definition enumValue (s : string) : string := ToLower (TrimSpace s).

Section Fields.
Context {Prim : Type} `{!Toml Prim}.
Implicit Types (sec : gmap string Prim) (pre key : string).

Definition unknown pre sec (known : list string) : P unit :=
  iterM (fun k => if contains known k then ret tt
                  else warn (dot pre k) "unknown key, ignored" []) (sortedKeys sec).

Definition intField pre sec key (def lo hi : Z) : P Z :=
  match sec !! key with
  | None => ret def
  | Some prim =>
      match dec_int prim with
      | None => warn (dot pre key) "not an integer, default %d used" [AInt def] ;;; ret def
      | Some v =>
          if (v <? lo) || (hi <? v)
          then warn (dot pre key) "%d outside %d..%d, default %d used"
                 [AInt v; AInt lo; AInt hi; AInt def] ;;; ret def
          else ret v
      end
  end.

Definition strField pre sec key (def : string) : P (string * bool) :=
  match sec !! key with
  | None => ret (def, false)
  | Some prim =>
      match dec_str prim with
      | None => warn (dot pre key) "not a string, default %q used" [AStr def] ;;; ret (def, false)
      | Some v => ret (v, true)
      end
  end.

Definition boolField pre sec key (def : bool) : P bool :=
  match sec !! key with
  | None => ret def
  | Some prim =>
      match dec_bool prim with
      | None => warn (dot pre key) "not a boolean, default %v used" [ABool def] ;;; ret def
      | Some v => ret v
      end
  end.

(** [time.Duration(n) * time.Second] is a 64-bit product. *)
Definition durRaw pre sec key (def : Z) : P (Z * bool) :=
  match sec !! key with
  | None => ret (def, false)
  | Some prim =>
      match dec_str prim with
      | Some s =>
          match ParseDuration s with
          | None => warn (dot pre key) "%q is not a duration, default %s used" [AStr s; ADur def] ;;;
                    ret (def, false)
          | Some v => ret (v, true)
          end
      | None =>
          match dec_int prim with
          | None => warn (dot pre key) "not a duration string or integer seconds, default %s used" [ADur def] ;;;
                    ret (def, false)
          | Some n => ret (wrap64 (n * Second), true)
          end
      end
  end.

Definition durField pre sec key (def lo hi : Z) : P Z :=
  let* (d, ok) := durRaw pre sec key def in
  if negb ok then ret d
  else if (d <? lo) || (hi <? d)
  then warn (dot pre key) "%s outside %s..%s, default %s used" [ADur d; ADur lo; ADur hi; ADur def] ;;; ret def
  else ret d.

(** ** [daemon] *)
Definition interval_of sec (def : Daemon) : P Z :=
  let pre := "daemon" in
  let* (iv, ok) := durRaw pre sec "interval" (d_Interval def) in
  if negb ok then ret iv
  else if iv <? MinInterval then
    warn (dot pre "interval") "%s below %s, default %s used" [ADur iv; ADur MinInterval; ADur (d_Interval def)] ;;;
    ret (d_Interval def)
  else if MaxInterval <? iv then
    warn (dot pre "interval") "%s above %s (WatchdogSec=60 needs two cycles), %s used"
      [ADur iv; ADur MaxInterval; ADur MaxInterval] ;;;
    ret MaxInterval
  else ret iv.

Definition daemon sec : P Daemon :=
  let pre := "daemon" in
  unknown pre sec ["interval"; "step_up"; "step_down"; "stall_min_duty"; "stall_cycles"; "stale_cycles";
    "alert_cooldown"; "log_every"; "emergency"; "emergency_cycles"; "profile"] ;;;
  let def := DefaultDaemon in
  let* interval := interval_of sec def in
  let* step_up := intField pre sec "step_up" (d_StepUp def) 1 255 in
  let* step_down := intField pre sec "step_down" (d_StepDown def) 1 255 in
  let* stall_min := intField pre sec "stall_min_duty" (d_StallMinDuty def) 1 255 in
  let* stall := intField pre sec "stall_cycles" (d_StallCycles def) 1 MaxStallCycle in
  let* stale := intField pre sec "stale_cycles" (d_StaleCycles def) MinStaleCycle MaxStaleCycle in
  let* cooldown := durField pre sec "alert_cooldown" (d_AlertCooldown def) MinCooldown MaxCooldown in
  let* log_every := intField pre sec "log_every" (d_LogEvery def) 0 1000000 in
  let* emerg := boolField pre sec "emergency" (d_Emergency def) in
  let* ecycles := intField pre sec "emergency_cycles" (d_EmergencyCycles def) 1 MaxEmergencyCycles in
  let* (prof, _) := strField pre sec "profile" (d_Profile def) in
  let prof := enumValue prof in
  let* prof :=
    (if contains Profiles prof then ret prof
     else warn (dot pre "profile") "%q unknown (%s), default %q used"
            [AStr prof; AStr (Join Profiles "|"); AStr (d_Profile def)] ;;; ret (d_Profile def)) in
  ret (mkDaemon interval step_up step_down stall_min stall stale cooldown log_every emerg ecycles prof).

(** ** [dashboard] *)
Fixpoint dashboard_ids (ids : list string) (out : list string) : P (list string) :=
  match ids with
  | [] => ret out
  | id :: ids' =>
      let id := TrimSpace id in
      if String.eqb id "" || contains out id then dashboard_ids ids' out
      else if MaxDashboardSensors <=? Z.of_nat (length out) then
        warn "dashboard.sensors" "more than %d ids, %q and the rest dropped" [AInt MaxDashboardSensors; AStr id] ;;;
        ret out
      else dashboard_ids ids' (out ++ [id])
  end.
Definition dashboard sec : P (list string) :=
  let pre := "dashboard" in
  unknown pre sec ["sensors"] ;;;
  match sec !! "sensors" with
  | None => ret []
  | Some prim =>
      match dec_strs prim with
      | None => warn (dot pre "sensors") "not an array of strings, ignored" [] ;;; ret []
      | Some ids => dashboard_ids ids []
      end
  end.
End Fields.

(** ** What a decoder yields *)
Lemma yields_seq {A B} (m : P A) (k : P B) (Q : B -> Prop) : yields Q k -> yields Q (m ;;; k).
Proof. intros H. by apply yields_bind'. Qed.

(** Pass over the warnings and the results nothing is asked of. *)
Ltac ys :=
  repeat match goal with
  | |- yields _ (bind _ (fun _ => _)) => apply yields_seq
  | |- yields _ (ret _) => apply yields_ret
  end.

Section FieldLemmas.
Context {Prim : Type} `{!Toml Prim}.
Implicit Types (sec : gmap string Prim).

Lemma intField_range pre sec key def lo hi :
  yields (fun v => v = def \/ lo <= v <= hi) (intField pre sec key def lo hi).
Proof.
  unfold intField. repeat case_match; ys; try by left. right. apply orb_false_iff in H1. lia.
Qed.
Lemma intField_def pre sec key def lo hi :
  lo <= def <= hi -> yields (fun v => lo <= v <= hi) (intField pre sec key def lo hi).
Proof. intros Hd. eapply yields_mono; [apply intField_range|]. cbn. intros v [->|?]; done. Qed.

Lemma durField_def pre sec key def lo hi :
  lo <= def <= hi -> yields (fun v => lo <= v <= hi) (durField pre sec key def lo hi).
Proof.
  intros Hd. unfold durField.
  apply (yields_bind (fun r => r.2 = false -> r.1 = def)).
  - unfold durRaw. repeat case_match; ys; done.
  - intros [d ok] Hr. cbn in Hr. destruct ok; cbn [negb].
    + case_match eqn:E; ys; [done|]. apply orb_false_iff in E. lia.
    + ys. by rewrite Hr.
Qed.

Lemma interval_range sec :
  yields (fun v => MinInterval <= v <= MaxInterval) (interval_of sec DefaultDaemon).
Proof.
  unfold interval_of.
  apply (yields_bind (fun r => r.2 = false -> r.1 = d_Interval DefaultDaemon)).
  - unfold durRaw. repeat case_match; ys; done.
  - intros [d ok] Hr. cbn in Hr. destruct ok; cbn [negb].
    + destruct (d <? MinInterval) eqn:E; ys; [done|].
      destruct (MaxInterval <? d) eqn:E2; ys; [done|]. lia.
    + ys. by rewrite Hr.
Qed.
End FieldLemmas.

(** What the parser guarantees of a [daemon] section. *)
Definition daemon_ok (d : Daemon) : Prop :=
  MinInterval <= d_Interval d <= MaxInterval /\ 1 <= d_StepUp d <= 255 /\ 1 <= d_StepDown d <= 255 /\
  1 <= d_StallMinDuty d <= 255 /\ 1 <= d_StallCycles d <= MaxStallCycle /\
  MinStaleCycle <= d_StaleCycles d <= MaxStaleCycle /\
  MinCooldown <= d_AlertCooldown d <= MaxCooldown /\ 0 <= d_LogEvery d <= 1000000 /\
  1 <= d_EmergencyCycles d <= MaxEmergencyCycles /\ d_Profile d ∈ Profiles.

Lemma contains_elem l s : contains l s = true <-> s ∈ l.
Proof.
  unfold contains. rewrite existsb_exists. split.
  - intros (x & Hx & He). apply String.eqb_eq in He. subst. by apply list_elem_of_In.
  - intros Hs. exists s. split; [by apply list_elem_of_In|]. apply String.eqb_refl.
Qed.

Section DaemonLemmas.
Context {Prim : Type} `{!Toml Prim}.
Implicit Types (sec : gmap string Prim).

Lemma daemon_yields sec : yields daemon_ok (daemon sec).
Proof.
  unfold daemon. ys.
  eapply yields_bind; [apply interval_range|]. intros iv Hiv.
  do 5 (eapply yields_bind; [by apply intField_def|]; intros ? ?).
  eapply yields_bind; [by apply durField_def|]. intros ? ?.
  eapply yields_bind; [by apply intField_def|]. intros ? ?.
  eapply yields_bind; [by apply yields_true|]. intros ? _.
  eapply yields_bind; [by apply intField_def|]. intros ? ?.
  eapply yields_bind; [by apply yields_true|]. intros [prof ?] _.
  eapply (yields_bind (fun p => p ∈ Profiles)).
  - case_match eqn:E; ys; [by apply contains_elem|].
    apply contains_elem. by vm_compute.
  - intros p Hp. ys. unfold daemon_ok. cbv beta in *. tauto.
Qed.

(** The dashboard keeps at most eight distinct, non-empty ids. *)
Definition dashboard_ok (ids : list string) : Prop :=
  NoDup ids /\ Forall (fun id => id <> "") ids /\ Z.of_nat (length ids) <= MaxDashboardSensors.

Lemma dashboard_ids_yields ids out : dashboard_ok out -> yields dashboard_ok (dashboard_ids ids out).
Proof.
  revert out. induction ids as [|id ids IH]; intros out Hout; cbn [dashboard_ids]; [by ys|].
  cbv zeta. destruct (String.eqb (TrimSpace id) "" || contains out (TrimSpace id)) eqn:E; [by apply IH|].
  destruct (MaxDashboardSensors <=? Z.of_nat (length out)) eqn:E2; ys; [done|].
  apply orb_false_iff in E as [E1 E3]. apply IH. destruct Hout as (Hnd & Hne & Hlen).
  split_and!.
  - apply NoDup_app. split_and!; [done| |apply NoDup_singleton].
    intros x Hx ->%list_elem_of_singleton. apply contains_elem in Hx. congruence.
  - apply Forall_app. split; [done|]. constructor; [|done]. intros Heq. by rewrite Heq in E1.
  - rewrite length_app. cbn. lia.
Qed.

Lemma dashboard_yields sec : yields dashboard_ok (dashboard sec).
Proof.
  assert (dashboard_ok []) by (split_and!; [constructor|constructor|done]).
  unfold dashboard. ys. repeat case_match; ys; [by apply dashboard_ids_yields|done|done].
Qed.
End DaemonLemmas.
