(* ===== verification/ConfigWeb.v ===== *)
(** The parser of the configuration file, second part
    (src/internal/config/config.go): the sections [web], [log] and [alert], with
    the checks of a password hash, a log path, a recipient and a webhook URL.

    [net/url] is a parameter ([Url]): what [url.Parse] makes of a text. *)
From stdpp Require Import base gmap strings list.
From Stdlib Require Import ZArith Lia Ascii.
From S2P Require Import Prelude GoLib GoNet GoPath ConfigTypes ConfigFields.
Open Scope Z_scope.

(** ** Regular expressions

    An anchored class with a length, [^[class]{lo,hi}$]. *)
Definition between (lo hi c : ascii) : bool :=
  ((N_of_ascii lo <=? N_of_ascii c) && (N_of_ascii c <=? N_of_ascii hi))%N.
Definition lower_alnum (c : ascii) : bool := between "a" "z" c || between "0" "9" c.
Definition alnum (c : ascii) : bool := lower_alnum c || between "A" "Z" c.
Definition one_of (s : string) (c : ascii) : bool := has_char c (chars s).
Definition class_re (p : ascii -> bool) (lo hi : nat) (s : string) : bool :=
  forallb p (chars s) && (lo <=? String.length s)%nat && (String.length s <=? hi)%nat.

Definition nameRe : string -> bool := class_re (fun c => lower_alnum c || one_of "_" c) 1 32.
Definition presetRe : string -> bool := class_re (fun c => lower_alnum c || one_of "_-" c) 1 64.
Definition UserRe : string -> bool := class_re (fun c => alnum c || one_of "_.-" c) 1 32.
Definition presetRe_text : string := "^[a-z0-9_-]{1,64}$".
Definition UserRe_text : string := "^[A-Za-z0-9_.-]{1,32}$".

(** [^[A-Za-z0-9_][A-Za-z0-9._%+-]*(@[A-Za-z0-9.-]+)?$]: no class but the last
    holds "@", so the split at the first one is the only candidate. *)
Definition mailToRe (s : string) : bool :=
  let local l := match l with
                 | c :: l' => (alnum c || one_of "_" c) && forallb (fun c => alnum c || one_of "._%+-" c) l'
                 | [] => false
                 end in
  match cut_first "@" (chars s) with
  | None => local (chars s)
  | Some (l, d) => local l && negb (length d =? 0)%nat && forallb (fun c => alnum c || one_of ".-" c) d
  end.
Definition ValidMailTo (s : string) : bool := (String.length s <=? 254)%nat && mailToRe s.

(** ** Loopback listeners *)
Definition IsLoopbackListen (listen : string) : bool :=
  match SplitHostPort listen with
  | inl _ => false
  | inr (host, _) => EqualFold host "localhost" || loopback_text host
  end.
Definition DefaultTLS (listen : string) : string := if IsLoopbackListen listen then "off" else "auto".

(** ** Password hashes *)
Record PasswordHash := mkPasswordHash { ph_Legacy : list Z; ph_Iter : Z; ph_Salt : list Z; ph_Key : list Z }.
Definition PBKDF2Prefix : string := "pbkdf2".
Definition PBKDF2Iter : Z := 210000.
Definition PBKDF2MinIter : Z := 1000.
Definition PBKDF2MaxIter : Z := 10000000.
Definition PBKDF2KeyLen : Z := 32.
Definition PBKDF2SaltLen : Z := 16.

Definition ParsePasswordHash (s : string) : Err + PasswordHash :=
  let s := TrimSpace s in
  if HasPrefix s (String.append PBKDF2Prefix "$") then
    match Split s "$"%char with
    | [_; iter_text; salt_text; key_text] =>
        let bad_iter := inl ("pbkdf2 iterations %q outside %d..%d",
                             [AStr iter_text; AInt PBKDF2MinIter; AInt PBKDF2MaxIter]) in
        match Atoi iter_text with
        | None => bad_iter
        | Some iter =>
            if (iter <? PBKDF2MinIter) || (PBKDF2MaxIter <? iter) then bad_iter
            else
              let bad_salt := inl ("pbkdf2 salt is not hex of at least 8 bytes", []) in
              match DecodeString salt_text with
              | None => bad_salt
              | Some salt =>
                  if (length salt <? 8)%nat then bad_salt
                  else
                    let bad_key := inl ("pbkdf2 key is not hex of %d bytes", [AInt PBKDF2KeyLen]) in
                    match DecodeString key_text with
                    | None => bad_key
                    | Some key =>
                        if negb (Z.of_nat (length key) =? PBKDF2KeyLen) then bad_key
                        else inr (mkPasswordHash [] iter salt key)
                    end
              end
        end
    | _ => inl ("pbkdf2 hash needs pbkdf2$<iter>$<salt>$<key>", [])
    end
  else
    let bad := inl ("not a 64-char sha256 hex digest or a pbkdf2$ hash", []) in
    if negb (String.length s =? 64)%nat then bad
    else match DecodeString s with
         | None => bad
         | Some legacy => inr (mkPasswordHash legacy 0 [] [])
         end.

(** ** Log paths *)

(** [env] is the value of [LogRootEnv] ("" when unset). *)
Definition logRoot (env : string) : string :=
  let root := if String.eqb env "" then LogRoot else env in
  if HasSuffix root "/" then root else String.append root "/".

Definition ValidLogPath (env p : string) : option Err :=
  if negb (HasPrefix p "/") then Some ("is not an absolute path", [])
  else if HasSuffix p "/" then Some ("is a directory, not a file", [])
  else if negb (String.eqb (Clean p) p)
  then Some (String.append "is not a clean path (" (String.append (in_quotes "..") (String.append ", "
               (String.append (in_quotes ".") " or repeated slashes)"))), [])
  else
    let root := logRoot env in
    if negb (HasPrefix p root) || (String.length p =? String.length root)%nat
    then Some ("is not a file under %s", [AStr root])
    else None.

(** ** Webhook URLs *)
Record URL := mkURL { u_Scheme : string; u_Host : string; u_Hostname : string; u_User : bool }.
Class Url := url_Parse : string -> option URL.

Section Webhook.
Context {U : Url}.

Definition ValidWebhookURL (s : string) : option Err :=
  if String.eqb s "" then Some ("is empty", [])
  else if MaxWebhookURLLen <? Z.of_nat (String.length s)
  then Some ("is longer than %d bytes", [AInt MaxWebhookURLLen])
  else
    match url_Parse s with
    | None => Some ("is not a URL", [])
    | Some u =>
        if negb (String.eqb (u_Scheme u) "http") && negb (String.eqb (u_Scheme u) "https")
        then Some ("is not an http or https URL", [])
        else if String.eqb (u_Host u) "" || String.eqb (u_Hostname u) "" then Some ("has no host", [])
        else if u_User u then Some ("must not carry user:password (userinfo)", [])
        else None
    end.

Definition webhookURLOrigin (s : string) : string :=
  match url_Parse s with
  | None => ""
  | Some u => if String.eqb (u_Scheme u) "" || String.eqb (u_Host u) "" then ""
              else String.append (u_Scheme u) (String.append "://" (u_Host u))
  end.
End Webhook.

(** ** The sections *)
Section Sections.
Context {Prim : Type} `{!Toml Prim} {U : Url}.
Implicit Types (sec : gmap string Prim).

Definition listen_of sec (def : Web) : P string :=
  let pre := "web" in
  let* (listen, _) := strField pre sec "listen" (w_Listen def) in
  let listen := TrimSpace listen in
  match SplitHostPort listen with
  | inl _ => warn (dot pre "listen") "%q is not host:port, default %q used" [AStr listen; AStr (w_Listen def)] ;;;
             ret (w_Listen def)
  | inr (_, port) =>
      let bad := warn (dot pre "listen") "%q: port must be 1..65535, default %q used"
                   [AStr listen; AStr (w_Listen def)] ;;; ret (w_Listen def) in
      match Atoi port with
      | None => bad
      | Some n => if (n <? 1) || (65535 <? n) then bad else ret listen
      end
  end.

(** The auth mode and whether the operator did not get what was asked for. *)
Definition auth_mode sec (def : Web) : P (string * bool) :=
  let pre := "web" in
  let* (auth, _) := strField pre sec "auth" (w_Auth def) in
  let auth := enumValue auth in
  if negb (String.eqb auth "none") && negb (String.eqb auth "basic")
  then warn (dot pre "auth") "%q unknown (none|basic), default %q used" [AStr auth; AStr (w_Auth def)] ;;;
       ret (w_Auth def, true)
  else ret (auth, false).
Definition check_basic (user hash : string) (auth : string) (broken : bool) : P (string * bool) :=
  let pre := "web" in
  if negb (String.eqb auth "basic") then ret (auth, broken)
  else if String.eqb user "" || String.eqb hash "" then
    warn (dot pre "auth") "basic requires user and password_hash, auth set to none" [] ;;; ret ("none", true)
  else if negb (UserRe user) then
    warn (dot pre "user") "%q does not match %s, auth set to none" [AStr user; AStr UserRe_text] ;;;
    ret ("none", true)
  else
    match ParsePasswordHash hash with
    | inl (f, args) => warn (dot pre "password_hash") "%v, auth set to none" [AErr f args] ;;; ret ("none", true)
    | inr _ => ret (auth, broken)
    end.

Definition final_listen (def : Web) (listen : string) (broken : bool) : P string :=
  if broken && negb (IsLoopbackListen listen)
  then warn "web.listen" "auth misconfigured — web bound to loopback (%q instead of %q)"
         [AStr (w_Listen def); AStr listen] ;;; ret (w_Listen def)
  else ret listen.

Definition allowed_hosts sec : P (list string) :=
  match sec !! "allowed_hosts" with
  | None => ret []
  | Some prim =>
      match dec_strs prim with
      | None => warn "web.allowed_hosts" "not an array of strings, ignored" [] ;;; ret []
      | Some hosts => ret (filter (fun h => h <> "") (map TrimSpace hosts))
      end
  end.

(** [parser.tls]: the mode, the certificate file and the key file. *)
Definition tls sec (listen : string) : P (string * string * string) :=
  let pre := "web" in
  let def := DefaultTLS listen in
  let* (mode, present) := strField pre sec "tls" def in
  let mode := enumValue mode in
  let* (cert, _) := strField pre sec "cert_file" "" in
  let* (key, _) := strField pre sec "key_file" "" in
  let cert := TrimSpace cert in
  let key := TrimSpace key in
  let* mode :=
    (if present && negb (contains TLSModes mode)
     then warn (dot pre "tls") "%q unknown (%s), %q used" [AStr mode; AStr (Join TLSModes "|"); AStr def] ;;; ret def
     else ret mode) in
  let* mode :=
    (if String.eqb mode "file" && (String.eqb cert "" || String.eqb key "")
     then warn (dot pre "tls") (String.append (in_quotes "file") " needs cert_file and key_file, %q used") [AStr def] ;;;
          ret def
     else ret mode) in
  let* mode :=
    (if String.eqb mode "off" && negb (IsLoopbackListen listen)
     then warn (dot pre "tls")
            (String.append (in_quotes "off") (String.append
              " on non-loopback listen %s: LAN traffic is never plain HTTP, " (String.append (in_quotes "auto") " used")))
            [AStr listen] ;;; ret "auto"
     else ret mode) in
  ret (mode, cert, key).

Definition web sec : P Web :=
  let pre := "web" in
  unknown pre sec ["listen"; "auth"; "user"; "password_hash"; "allowed_hosts"; "tls"; "cert_file"; "key_file";
    "behind_tls_proxy"] ;;;
  let def := DefaultWeb in
  let* listen := listen_of sec def in
  let* (auth, broken) := auth_mode sec def in
  let* (user, _) := strField pre sec "user" "" in
  let* (hash, _) := strField pre sec "password_hash" "" in
  let* (auth, broken) := check_basic user hash auth broken in
  let* listen := final_listen def listen broken in
  let* hosts := allowed_hosts sec in
  let* (mode, cert, key) := tls sec listen in
  let* behind := boolField pre sec "behind_tls_proxy" (w_BehindTLSProxy def) in
  ret (mkWeb listen auth user hash hosts mode cert key behind).

Definition log (env : string) sec : P Log :=
  let pre := "log" in
  unknown pre sec ["file"; "max_size_mb"; "max_files"] ;;;
  let def := DefaultLog in
  let* (file, present) := strField pre sec "file" (l_File def) in
  let file := TrimSpace file in
  let* file :=
    (if present && negb (String.eqb file "")
     then match ValidLogPath env file with
          | Some (f, args) => warn (dot pre "file") "%q %v, default %q used"
                                [AStr file; AErr f args; AStr (l_File def)] ;;; ret (l_File def)
          | None => ret file
          end
     else ret file) in
  let* size := intField pre sec "max_size_mb" (l_MaxSizeMB def) MinLogSizeMB MaxLogSizeMB in
  let* files := intField pre sec "max_files" (l_MaxFiles def) MinLogFiles MaxLogFiles in
  ret (mkLog file size files).

Definition webhook_url_of sec : P string :=
  let pre := "alert" in
  let* (wu, present) := strField pre sec "webhook_url" "" in
  let wu := TrimSpace wu in
  if present && negb (String.eqb wu "")
  then match ValidWebhookURL wu with
       | Some (f, args) =>
           let o := webhookURLOrigin wu in
           let what := if String.eqb o "" then "value" else String.append o "/…" in
           warn (dot pre "webhook_url") "%s %v, ignored" [AStr what; AErr f args] ;;; ret ""
       | None => ret wu
       end
  else ret wu.

Definition alert sec : P Alert :=
  let pre := "alert" in
  unknown pre sec ["transport"; "mail_to"; "webhook_url"; "webhook_format"] ;;;
  let def := DefaultAlert in
  let* (tr, _) := strField pre sec "transport" (a_Transport def) in
  let tr := enumValue tr in
  let* tr :=
    (if contains AlertTransports tr then ret tr
     else warn (dot pre "transport") "%q unknown (%s), default %q used"
            [AStr tr; AStr (Join AlertTransports "|"); AStr (a_Transport def)] ;;; ret (a_Transport def)) in
  let* (to, present) := strField pre sec "mail_to" (a_MailTo def) in
  let to := TrimSpace to in
  let* to :=
    (if present && negb (ValidMailTo to)
     then warn (dot pre "mail_to") "%q is not a local user or address, default %q used"
            [AStr to; AStr (a_MailTo def)] ;;; ret (a_MailTo def)
     else ret to) in
  let* wu := webhook_url_of sec in
  let* (wf, present) := strField pre sec "webhook_format" (a_WebhookFormat def) in
  let wf := enumValue wf in
  let wf := if String.eqb wf "" then a_WebhookFormat def else wf in
  let* wf :=
    (if present && negb (contains WebhookFormats wf)
     then warn (dot pre "webhook_format") "%q unknown (%s), default %q used"
            [AStr wf; AStr (Join WebhookFormats "|"); AStr (a_WebhookFormat def)] ;;; ret (a_WebhookFormat def)
     else ret wf) in
  let* tr :=
    (if String.eqb tr "webhook" && String.eqb wu ""
     then warn (dot pre "transport") (String.append (in_quotes "webhook") " needs a valid webhook_url, %q used")
            [AStr (a_Transport def)] ;;; ret (a_Transport def)
     else ret tr) in
  ret (mkAlert tr to wu wf).
End Sections.
