(* ===== verification/Ceiling.v ===== *)
(** The built-in and effective ceilings of a sensor id
    (src/internal/sensor/ceiling.go): the limits no configuration can raise.
    [diskKind] classifies a block device ("ssd", "hdd" or neither); [None] is
    Go's nil function, the parser's case. *)
From stdpp Require Import base gmap strings list.
From Stdlib Require Import ZArith Lia Ascii.
From S2P Require Import Prelude GoLib.
Open Scope Z_scope.

Definition CeilingCPU : Z := 100.
Definition CeilingSSD : Z := 85.
Definition CeilingHDD : Z := 65.
Definition CeilingDefault : Z := 100.

Record PartCeiling := mkPartCeiling { pc_ID : string; pc_Ceiling : Z }.
#[export] Instance PartCeiling_eq_dec : EqDecision PartCeiling.
Proof. solve_decision. Defined.

Section Ceiling.
  Context (diskKind : option (string -> string)).

Definition singleCeiling (id : string) : Z :=
  if (String.eqb id "k10temp" || String.eqb id "coretemp" || String.eqb id "ec:cpu")%bool
  then CeilingCPU
  else if String.eqb id "nvme:max" then CeilingSSD
  else if String.eqb id "drivetemp:max" then CeilingHDD
  else if HasPrefix id "disk:" then
    match diskKind with
    | Some kind =>
        let k := kind (TrimPrefix id "disk:") in
        if String.eqb k "ssd" then CeilingSSD
        else if String.eqb k "hdd" then CeilingHDD else CeilingDefault
    | None => CeilingDefault
    end
  else if (HasPrefix id "hwmon:" && Contains (ToLower id) "cpu")%bool then CeilingCPU
  else CeilingDefault.

(** [configured] lowers a ceiling when it is set and lower. *)
Definition lowered (c configured : Z) : Z :=
  if (0 <? configured) && (configured <? c) then configured else c.

Definition PartCeilings (id : string) (configured : Z) : list PartCeiling :=
  map (fun part0 =>
         let part := TrimSpace part0 in
         mkPartCeiling part (lowered (singleCeiling part) configured))
    (Split id ","%char).

(** The running minimum of the code, with 0 for "none yet". *)
Definition lowest (pcs : list PartCeiling) : Z :=
  fold_left (fun best pc => if (best =? 0) || (pc_Ceiling pc <? best) then pc_Ceiling pc else best)
    pcs 0.

Definition BuiltinCeiling (id : string) : Z :=
  let best := lowest (PartCeilings id 0) in
  if best =? 0 then CeilingDefault else best.

Definition EffectiveCeiling (id : string) (configured : Z) : Z :=
  lowered (BuiltinCeiling id) configured.
End Ceiling.

(** ** Lemmas *)
Lemma singleCeiling_cases dk id :
  singleCeiling dk id = 100 \/ singleCeiling dk id = 85 \/ singleCeiling dk id = 65.
Proof.
  unfold singleCeiling, CeilingCPU, CeilingSSD, CeilingHDD, CeilingDefault.
  repeat case_match; auto.
Qed.

Lemma singleCeiling_bounds dk id : 65 <= singleCeiling dk id <= 100.
Proof. pose proof (singleCeiling_cases dk id). lia. Qed.

Lemma lowered_le c k : lowered c k <= c.
Proof. unfold lowered. bool_cases; split_bools; lia. Qed.

Lemma lowered_configured c k : 0 < k -> lowered c k <= k.
Proof. unfold lowered. intros. destruct (0 <? k) eqn:?, (k <? c) eqn:?; cbn; lia. Qed.

Lemma lowered_min c k : 0 < k -> lowered c k = Z.min c k.
Proof. unfold lowered. intros. destruct (0 <? k) eqn:?, (k <? c) eqn:?; cbn; lia. Qed.

Lemma lowered_pos c k : 0 < c -> 0 < lowered c k.
Proof. unfold lowered. intros. destruct (0 <? k) eqn:?, (k <? c) eqn:?; cbn; lia. Qed.

Lemma Split_nonempty s sep : Split s sep <> [].
Proof.
  unfold Split. generalize (chars s) (@nil ascii). intros l.
  induction l as [|c l IH]; intros cur; cbn; [done|]. by destruct (Ascii.eqb c sep).
Qed.

Section Lowest.
Local Abbreviation step := (fun best pc =>
  if (best =? 0) || (pc_Ceiling pc <? best) then pc_Ceiling pc else best).

Lemma lowest_fold (pcs : list PartCeiling) b :
  Forall (fun pc => 0 < pc_Ceiling pc) pcs -> 0 <= b ->
  let r := fold_left step pcs b in
  (0 < b -> r <= b) /\ Forall (fun pc => r <= pc_Ceiling pc) pcs /\
  (r = b \/ r ∈ map pc_Ceiling pcs) /\ (0 < b \/ pcs <> [] -> 0 < r).
Proof.
  intros Hp. revert b. induction Hp as [|pc pcs Hpc Hp IH]; intros b Hb; cbn [fold_left].
  - cbn. split_and!; auto; [lia|]. intros H. destruct H; [lia|done].
  - cbn zeta in *.
    set (b' := if (b =? 0) || (pc_Ceiling pc <? b) then pc_Ceiling pc else b).
    assert (Hb' : 0 < b' /\ b' <= pc_Ceiling pc /\ (0 < b -> b' <= b) /\
                  (b' = b \/ b' = pc_Ceiling pc)).
    { unfold b'. destruct (b =? 0) eqn:?, (pc_Ceiling pc <? b) eqn:?; cbn; lia. }
    destruct Hb' as (H1 & H2 & H3 & H4).
    destruct (IH b' ltac:(lia)) as (G1 & G2 & G3 & G4).
    specialize (G1 H1). split_and!.
    + intros. specialize (H3 ltac:(lia)). lia.
    + constructor; [lia|done].
    + cbn [map]. destruct G3 as [->|G3]; [|right; by right].
      destruct H4 as [->| ->]; [by left|right; by left].
    + intros _. apply G4. lia.
Qed.

Lemma lowest_spec pcs :
  pcs <> [] -> Forall (fun pc => 0 < pc_Ceiling pc) pcs ->
  lowest pcs ∈ map pc_Ceiling pcs /\ 0 < lowest pcs /\
  Forall (fun pc => lowest pcs <= pc_Ceiling pc) pcs.
Proof.
  intros Hne Hp. destruct (lowest_fold pcs 0 Hp ltac:(lia)) as (_ & H2 & H3 & H4).
  cbn zeta in *. fold (lowest pcs) in *. split_and!; [|auto|done].
  destruct H3 as [H3|]; [|done]. specialize (H4 (or_intror Hne)). lia.
Qed.
End Lowest.

Lemma PartCeilings_Forall dk id k (P : PartCeiling -> Prop) :
  (forall part, P (mkPartCeiling part (lowered (singleCeiling dk part) k))) ->
  Forall P (PartCeilings dk id k).
Proof. intros H. unfold PartCeilings. apply Forall_map, Forall_true. intros x. apply H. Qed.

Lemma PartCeilings_pos dk id k : Forall (fun pc => 0 < pc_Ceiling pc) (PartCeilings dk id k).
Proof.
  apply PartCeilings_Forall. intros part. cbn. apply lowered_pos.
  pose proof (singleCeiling_bounds dk part). lia.
Qed.

Lemma PartCeilings_nonempty dk id k : PartCeilings dk id k <> [].
Proof.
  unfold PartCeilings. intros H. apply map_eq_nil in H. by eapply Split_nonempty.
Qed.

#[export] Hint Resolve PartCeilings_pos PartCeilings_nonempty : fangov.

Lemma lowest_PartCeilings dk id k :
  lowest (PartCeilings dk id k) ∈ map pc_Ceiling (PartCeilings dk id k) /\
  0 < lowest (PartCeilings dk id k) <= 100 /\
  Forall (fun pc => lowest (PartCeilings dk id k) <= pc_Ceiling pc) (PartCeilings dk id k).
Proof.
  destruct (lowest_spec (PartCeilings dk id k)) as (H1 & H2 & H3); [auto with fangov..|].
  split_and!; try done. apply list_elem_of_In, in_map_iff in H1 as (pc & <- & Hin).
  apply list_elem_of_In in Hin.
  assert (Forall (fun pc => pc_Ceiling pc <= 100) (PartCeilings dk id k)) as Hf.
  { apply PartCeilings_Forall. intros part. cbn.
    pose proof (lowered_le (singleCeiling dk part) k).
    pose proof (singleCeiling_bounds dk part). lia. }
  by apply (proj1 (Forall_forall _ _) Hf).
Qed.

(** Lowering every part and taking the lowest is lowering the lowest. *)
Lemma lowest_lowered_le dk parts k :
  let f k part0 := mkPartCeiling (TrimSpace part0) (lowered (singleCeiling dk (TrimSpace part0)) k) in
  parts <> [] ->
  lowest (map (f k) parts) = lowered (lowest (map (f 0) parts)) k.
Proof.
  intros f Hne.
  assert (Hpos : forall k, Forall (fun pc => 0 < pc_Ceiling pc) (map (f k) parts)).
  { intros k'. apply Forall_map, Forall_true. intros x. cbn. apply lowered_pos.
    pose proof (singleCeiling_bounds dk (TrimSpace x)). lia. }
  assert (Hn : forall k, map (f k) parts <> []) by (intros k'; by destruct parts).
  destruct (lowest_spec _ (Hn k) (Hpos k)) as (M1 & P1 & L1).
  destruct (lowest_spec _ (Hn 0) (Hpos 0)) as (M2 & P2 & L2).
  rewrite Forall_map in L1, L2. rewrite Forall_forall in L1, L2.
  rewrite map_map in M1, M2.
  apply list_elem_of_In, in_map_iff in M1 as (x1 & E1 & I1).
  apply list_elem_of_In, in_map_iff in M2 as (x2 & E2 & I2).
  apply list_elem_of_In in I1, I2.
  pose proof (L1 x2 I2) as A. pose proof (L2 x1 I1) as B. cbn in A, B, E1, E2.
  set (l1 := lowest (map (f k) parts)) in *. set (l2 := lowest (map (f 0) parts)) in *.
  clearbody l1 l2. unfold lowered in *.
  repeat match goal with
  | H : context [singleCeiling dk ?x] |- _ =>
      let s := fresh "s" in set (s := singleCeiling dk x) in *; clearbody s
  end. cbn in *.
  destruct (0 <? k) eqn:?; cbn in *; repeat case_match; lia.
Qed.

Lemma EffectiveCeiling_lowest dk id k :
  EffectiveCeiling dk id k = lowest (PartCeilings dk id k).
Proof.
  unfold EffectiveCeiling, BuiltinCeiling.
  pose proof (lowest_PartCeilings dk id 0) as (_ & Hp & _).
  assert ((lowest (PartCeilings dk id 0) =? 0) = false) as -> by lia.
  symmetry. apply lowest_lowered_le, Split_nonempty.
Qed.

(** No configuration raises a ceiling.  Every part of a sensor id is judged
    against a positive limit that is at most its own built-in ceiling (at most 100
    degrees, 85 for an SSD, 65 for a hard disk) and at most the configured value when
    one is set; and the ceiling reported for the channel is the lowest of its parts'
    limits, reached by one of them. *)
Theorem ceiling_not_raised dk id k :
  Forall (fun pc => 0 < pc_Ceiling pc <= singleCeiling dk (pc_ID pc) /\
                    (0 < k -> pc_Ceiling pc <= k) /\ EffectiveCeiling dk id k <= pc_Ceiling pc)
    (PartCeilings dk id k) /\
  (exists pc, pc ∈ PartCeilings dk id k /\ pc_Ceiling pc = EffectiveCeiling dk id k) /\
  singleCeiling dk "nvme:max" = CeilingSSD /\ singleCeiling dk "drivetemp:max" = CeilingHDD.
Proof.
  rewrite EffectiveCeiling_lowest. destruct (lowest_PartCeilings dk id k) as (Hin & _ & Hlow).
  split_and!; [| |done|done].
  - apply Forall_forall. intros pc Hpc.
    assert (Hle : Forall (fun pc => pc_Ceiling pc <= singleCeiling dk (pc_ID pc) /\
                    (0 < k -> pc_Ceiling pc <= k)) (PartCeilings dk id k)).
    { apply PartCeilings_Forall. intros part. split; [apply lowered_le|apply lowered_configured]. }
    pose proof (PartCeilings_pos dk id k) as Hpos. rewrite Forall_forall in Hle, Hpos, Hlow.
    specialize (Hle pc Hpc). specialize (Hpos pc Hpc). specialize (Hlow pc Hpc). cbn in *. tauto.
  - apply list_elem_of_In, in_map_iff in Hin as (pc & Heq & Hin). exists pc.
    split; [by apply list_elem_of_In|done].
Qed.
