(* ===== verification/ConfigChannels.v ===== *)
(** The parser of the configuration file, third part
    (src/internal/config/config.go): the [[channel]] and [[schedule]] tables. *)
From stdpp Require Import base gmap strings list.
From Stdlib Require Import ZArith Lia Ascii.
From S2P Require Import Prelude GoLib GoTime ConfigTypes Curve ConfigFields ConfigWeb Ceiling.
Open Scope Z_scope.

(** The text of an error of [ValidateCurve]. *)
Definition curve_error (e : CurveErr) : Err :=
  match e with
  | ErrPoints n => ("%d points, need %d..%d", [AInt (Z.of_nat n); AInt MinCurvePts; AInt MaxCurvePts])
  | ErrPointLen i n => ("point %d has %d values, need [temp, duty]", [AInt (Z.of_nat i); AInt (Z.of_nat n)])
  | ErrPointTemp i t => ("point %d temp %d outside %d..%d",
                         [AInt (Z.of_nat i); AInt t; AInt MinCurveTemp; AInt MaxCurveTemp])
  | ErrPointDuty i d => ("point %d duty %d outside 0..255", [AInt (Z.of_nat i); AInt d])
  | ErrTempOrder i t prev => ("point %d temp %d not above previous %d", [AInt (Z.of_nat i); AInt t; AInt prev])
  | ErrDutyOrder i d prev => ("point %d duty %d below previous %d", [AInt (Z.of_nat i); AInt d; AInt prev])
  end.

(** [JoinSensors]: [i] counts the parts, [out] holds those seen. *)
Fixpoint join_parts (i : Z) (parts : list string) (out : list string) : Err + list string :=
  match parts with
  | [] => inr out
  | part :: parts' =>
      let part := TrimSpace part in
      if String.eqb part "" then inl ("sensor id %d is empty", [AInt (i + 1)])
      else if Contains part "," then inl ("sensor id %q contains a comma", [AStr part])
      else if contains out part then inl ("sensor id %q listed twice", [AStr part])
      else join_parts (i + 1) parts' (out ++ [part])
  end.
Definition JoinSensors (parts : list string) : Err + string :=
  match parts with
  | [] => inl ("no sensor id", [])
  | _ =>
      if MaxSensorParts <? Z.of_nat (length parts)
      then inl ("%d sensor ids, at most %d", [AInt (Z.of_nat (length parts)); AInt MaxSensorParts])
      else match join_parts 0 parts [] with
           | inl e => inl e
           | inr out => inr (Join out ",")
           end
  end.

(** [clockTime]: the canonical two-digit form of a clock time. *)
Definition clockTime (s : string) : option string :=
  match parse_clock s with Some (h, m) => Some (format_clock h m) | None => None end.

Section Channels.
Context {Prim : Type} `{!Toml Prim}.
Implicit Types (sec : gmap string Prim) (pre : string).

Definition sensorField pre sec : P (option string) :=
  match sec !! "sensor" with
  | None => warn (dot pre "sensor") "missing, channel dropped" [] ;;; ret None
  | Some prim =>
      let parts := match dec_str prim with
                   | Some s => Some (Split s ","%char)
                   | None => dec_strs prim
                   end in
      match parts with
      | None => warn (dot pre "sensor") "not a string or an array of strings, channel dropped" [] ;;; ret None
      | Some parts =>
          match JoinSensors parts with
          | inl (f, args) => warn (dot pre "sensor") "%v, channel dropped" [AErr f args] ;;; ret None
          | inr id => ret (Some id)
          end
      end
  end.

Definition pwmField pre sec : P Z :=
  match sec !! "pwm" with
  | None => warn (dot pre "pwm") "missing, channel dropped" [] ;;; ret 0
  | Some prim =>
      match dec_int prim with
      | None => warn (dot pre "pwm") "not an integer, channel dropped" [] ;;; ret 0
      | Some v =>
          if (v <? 1) || (MaxPWM <? v)
          then warn (dot pre "pwm") "%d outside 1..%d, channel dropped" [AInt v; AInt MaxPWM] ;;; ret 0
          else ret v
      end
  end.

Definition curve pre sec : P Curve :=
  match sec !! "curve" with
  | None => warn (dot pre "curve") "missing, default curve used" [] ;;; ret DefaultCurve
  | Some prim =>
      match dec_points prim with
      | None => warn (dot pre "curve") "not an array of [temp, duty] pairs, default curve used" [] ;;;
                ret DefaultCurve
      | Some pts =>
          match ValidateCurve pts with
          | inl e => let '(f, args) := curve_error e in
                     warn (dot pre "curve") "%v, default curve used" [AErr f args] ;;; ret DefaultCurve
          | inr out => ret out
          end
      end
  end.

(** The end of [stop]: a duty below the minimum is raised. *)
Definition fixed_stop pre (n : Z) : P string :=
  if n <? MinFixedStop
  then warn (dot pre "stop") "fixed stop duty %d below %d (fans would stay off after stop), %d used"
         [AInt n; AInt MinFixedStop; AInt MinFixedStop] ;;; ret (Itoa MinFixedStop)
  else ret (Itoa n).
Definition stop pre sec (sensor : string) : P string :=
  let def := DefaultStop sensor in
  match sec !! "stop" with
  | None => ret def
  | Some prim =>
      match dec_str prim with
      | Some s =>
          if String.eqb (enumValue s) "auto" then ret "auto"
          else
            let bad := warn (dot pre "stop") (String.append "%q is neither " (String.append (in_quotes "auto") " nor 0..255, %q used"))
                         [AStr s; AStr def] ;;; ret def in
            match Atoi (TrimSpace s) with
            | None => bad
            | Some v => if (v <? 0) || (255 <? v) then bad else fixed_stop pre v
            end
      | None =>
          let bad := warn (dot pre "stop") (String.append "neither " (String.append (in_quotes "auto") " nor 0..255, %q used"))
                       [AStr def] ;;; ret def in
          match dec_int prim with
          | None => bad
          | Some n => if (n <? 0) || (255 <? n) then bad else fixed_stop pre n
          end
      end
  end.

Definition ceiling pre sec (sensorID : string) : P Z :=
  match sec !! "ceiling" with
  | None => ret 0
  | Some prim =>
      let built := BuiltinCeiling None sensorID in
      match dec_int prim with
      | None => warn (dot pre "ceiling") "not an integer, built-in ceiling %d used" [AInt built] ;;; ret 0
      | Some v =>
          if v =? 0 then ret 0
          else if (v <? MinCeiling) || (built <? v) then
            warn (dot pre "ceiling")
              "%d outside %d..%d (the built-in ceiling of %s can only be lowered), built-in ceiling %d used"
              [AInt v; AInt MinCeiling; AInt built; AStr sensorID; AInt built] ;;; ret 0
          else ret v
      end
  end.

Definition has sec (key : string) : bool := match sec !! key with Some _ => true | None => false end.

(** The rest of a channel once its name, pwm and sensor are settled. *)
Definition channel_body pre sec (name : string) (pwm : Z) (sensor : string) : P Channel :=
  let* crv := curve pre sec in
  let last := match List.last crv (0, 0) with (t, _) => t end in
  let defCrit := if MaxCritical <? last + 10 then MaxCritical else last + 10 in
  let* critical := intField pre sec "critical" defCrit (last + 1) MaxCritical in
  (if has sec "critical" then ret tt
   else warn (dot pre "critical") "missing, default %d used" [AInt defCrit]) ;;;
  let* stp := stop pre sec sensor in
  let* hyst := intField pre sec "hysteresis" 0 0 HysteresisMax in
  let* minOn := durField pre sec "min_on" 0 0 MinOnMax in
  let* ceil := ceiling pre sec sensor in
  ret (mkChannel name pwm sensor crv critical stp hyst minOn ceil (has sec "hysteresis" || has sec "min_on")).

(** One [[channel]] table; [None] when it is dropped. *)
Definition channel_one (i : Z) sec (names : gset string) (pwms : gset Z) : P (option Channel) :=
  let pre := String.append "channel[" (String.append (Itoa i) "]") in
  let* (name, ok) := strField pre sec "name" "" in
  let named := ok && nameRe name in
  let pre := if named then dot "channel" name else pre in
  unknown pre sec ["name"; "pwm"; "sensor"; "curve"; "critical"; "stop"; "hysteresis"; "min_on"; "ceiling"] ;;;
  if negb named then
    warn (dot pre "name") "missing or not [a-z0-9_]{1,32}, channel dropped" [] ;;; ret None
  else if bool_decide (name ∈ names) then
    warn (dot pre "name") "duplicate name, channel dropped" [] ;;; ret None
  else
    let* pwm := pwmField pre sec in
    if pwm =? 0 then ret None
    else if bool_decide (pwm ∈ pwms) then
      warn (dot pre "pwm") "pwm%d already used by another channel, channel dropped" [AInt pwm] ;;; ret None
    else
      let* sensor := sensorField pre sec in
      match sensor with
      | None => ret None
      | Some sensor => let* ch := channel_body pre sec name pwm sensor in ret (Some ch)
      end.

Fixpoint channels_loop (i : Z) (secs : list (gmap string Prim)) (names : gset string) (pwms : gset Z)
    (out : list Channel) : P (list Channel) :=
  match secs with
  | [] => ret out
  | sec :: secs' =>
      let* c := channel_one i sec names pwms in
      match c with
      | None => channels_loop (i + 1) secs' names pwms out
      | Some ch => channels_loop (i + 1) secs' ({[ cc_Name ch ]} ∪ names) ({[ cc_PWM ch ]} ∪ pwms) (out ++ [ch])
      end
  end.
Definition channels (secs : list (gmap string Prim)) : P (list Channel) := channels_loop 0 secs ∅ ∅ [].

(** ** Schedules *)

(** The trimmed text, "" when absent; [None] when present and not a string. *)
Definition clockField sec (key : string) : option string :=
  match sec !! key with
  | None => Some ""
  | Some prim => match dec_str prim with Some v => Some (TrimSpace v) | None => None end
  end.

(** The days in order, [None] when one is unknown. *)
Fixpoint days_loop pre (days out : list string) : P (option (list string)) :=
  match days with
  | [] => ret (Some out)
  | d :: days' =>
      let d := enumValue d in
      if negb (contains DayNames d) then
        warn (dot pre "days") "%q is not one of %s, entry dropped" [AStr d; AStr (Join DayNames "|")] ;;; ret None
      else if contains out d then
        warn (dot pre "days") "%q listed twice, duplicate ignored" [AStr d] ;;; days_loop pre days' out
      else days_loop pre days' (out ++ [d])
  end.
Definition with_days pre sec (s : Schedule) : P (option Schedule) :=
  match sec !! "days" with
  | None => ret (Some s)
  | Some prim =>
      match dec_strs prim with
      | None => warn (dot pre "days") "not an array of strings, entry dropped" [] ;;; ret None
      | Some days =>
          let* r := days_loop pre days [] in
          match r with
          | None => ret None
          | Some ds => ret (Some (mkSchedule (sc_Preset s) (sc_From s) (sc_To s) ds))
          end
      end
  end.

Definition window_times pre (from to : string) : P (option (string * string)) :=
  match clockTime from with
  | None => warn (dot pre "from") "%q is not HH:MM, entry dropped" [AStr from] ;;; ret None
  | Some f =>
      match clockTime to with
      | None => warn (dot pre "to") "%q is not HH:MM, entry dropped" [AStr to] ;;; ret None
      | Some t =>
          if String.eqb f t
          then warn pre "from and to are equal (%s), entry dropped" [AStr f] ;;; ret None
          else ret (Some (f, t))
      end
  end.

(** One [[schedule]] table: the entry, if it is kept, and whether a fallback
    has been seen by now. *)
Definition schedule_one pre sec (haveFallback : bool) : P (option Schedule * bool) :=
  unknown pre sec ["preset"; "from"; "to"; "days"] ;;;
  let* (preset, _) := strField pre sec "preset" "" in
  let preset := TrimSpace preset in
  if negb (presetRe preset) then
    warn (dot pre "preset") "missing or not %s, entry dropped" [AStr presetRe_text] ;;; ret (None, haveFallback)
  else
    match clockField sec "from", clockField sec "to" with
    | Some from, Some to =>
        if String.eqb from "" && String.eqb to "" then
          if haveFallback then
            warn pre "a second entry without from/to (fallback), entry dropped" [] ;;; ret (None, haveFallback)
          else if has sec "days" then
            warn (dot pre "days") "days ignored on the fallback" [] ;;;
            ret (Some (mkSchedule preset "" "" []), true)
          else
            let* s := with_days pre sec (mkSchedule preset "" "" []) in ret (s, true)
        else if String.eqb from "" || String.eqb to "" then
          warn pre "from and to must both be set (or neither for the fallback), entry dropped" [] ;;;
          ret (None, haveFallback)
        else
          let* w := window_times pre from to in
          match w with
          | None => ret (None, haveFallback)
          | Some (f, t) => let* s := with_days pre sec (mkSchedule preset f t []) in ret (s, haveFallback)
          end
    | _, _ =>
        warn pre (String.append "from/to must be strings (" (String.append (in_quotes "22:00") "), entry dropped")) [] ;;;
        ret (None, haveFallback)
    end.

Fixpoint schedules_loop (i : Z) (secs : list (gmap string Prim)) (haveFallback : bool) (out : list Schedule)
  : P (list Schedule) :=
  match secs with
  | [] => ret out
  | sec :: secs' =>
      let pre := String.append "schedule[" (String.append (Itoa i) "]") in
      if MaxSchedules <=? Z.of_nat (length out) then
        warn pre "more than %d schedule entries, this one and the rest dropped" [AInt MaxSchedules] ;;; ret out
      else
        let* (s, fb) := schedule_one pre sec haveFallback in
        match s with
        | None => schedules_loop (i + 1) secs' fb out
        | Some s => schedules_loop (i + 1) secs' fb (out ++ [s])
        end
  end.
Definition schedules (secs : list (gmap string Prim)) : P (list Schedule) := schedules_loop 0 secs false [].
End Channels.
