(* ===== verification/ConfigParse.v ===== *)
(** [config.Parse] (src/internal/config/config.go): the whole document, and what
    it guarantees of every configuration it returns. *)
From stdpp Require Import base gmap strings list.
From Stdlib Require Import ZArith Lia Ascii.
From S2P Require Import Prelude GoLib GoNet GoTime ConfigTypes Curve ConfigFields ConfigWeb Ceiling ConfigChannels.
Open Scope Z_scope.

(** A decoded document: its top-level keys and [md.Type] of each. *)
Record Doc (Prim : Type) := mkDoc { doc_top : gmap string Prim; doc_type : string -> string }.
Arguments mkDoc {Prim}.
Arguments doc_top {Prim}.
Arguments doc_type {Prim}.

(** ** Syntax errors *)

(** Every quoted excerpt but those that name the key is replaced. *)
Fixpoint redact (fuel : nat) (l : list ascii) : list ascii :=
  match fuel, l with
  | S f, c :: l' =>
      if is_char c "034" then
        match cut_first "034" l' with
        | Some (inner, rest) =>
            (if Contains (of_chars inner) "password_hash" then c :: inner ++ [c]
             else c :: chars "<redacted>" ++ [c]) ++ redact f rest
        | None => l
        end
      else c :: redact f l'
  | _, _ => l
  end.
Definition redactSyntaxError (msg : string) : string :=
  if negb (Contains msg "password_hash") then msg
  else of_chars (redact (String.length msg) (chars msg)).

Section Parse.
Context {Prim : Type} `{!Toml Prim} {U : Url}.
(** The value of [LogRootEnv]. *)
Context (env : string).

Definition table (d : Doc Prim) (name : string) : P (option (gmap string Prim)) :=
  match doc_top d !! name with
  | None => ret None
  | Some prim =>
      let t := doc_type d name in
      let bad := warn name "not a table, defaults used" [] ;;; ret None in
      if negb (String.eqb t "Hash") && negb (String.eqb t "") then bad
      else match dec_table prim with None => bad | Some sec => ret (Some sec) end
  end.

(** A section by its parser, or the default when there is none. *)
Definition section {A} (d : Doc Prim) (name : string) (def : A) (parse : gmap string Prim -> P A) : P A :=
  let* sec := table d name in
  match sec with Some sec => parse sec | None => ret def end.

Definition tables {A} (d : Doc Prim) (name msg : string) (parse : list (gmap string Prim) -> P (list A)) : P (list A) :=
  match doc_top d !! name with
  | None => ret []
  | Some prim =>
      let bad := warn name msg [] ;;; ret [] in
      if negb (String.eqb (doc_type d name) "ArrayHash") then bad
      else match dec_tables prim with None => bad | Some secs => parse secs end
  end.

Definition known_sections : list string :=
  ["daemon"; "web"; "log"; "alert"; "dashboard"; "channel"; "schedule"].

Definition parse_doc (d : Doc Prim) : P Config :=
  iterM (fun k => if contains known_sections k then ret tt else warn k "unknown section, ignored" [])
    (sortedKeys (doc_top d)) ;;;
  let* dm := section d "daemon" DefaultDaemon daemon in
  let* wb := section d "web" DefaultWeb web in
  let* lg := section d "log" DefaultLog (log env) in
  let* al := section d "alert" DefaultAlert alert in
  let* db := section d "dashboard" [] dashboard in
  let* chans := tables d "channel" "not an array of tables ([[channel]]), no channels configured" channels in
  let* scheds := tables d "schedule" "not an array of tables ([[schedule]]), no schedules configured" schedules in
  ret (mkConfig dm wb lg al db chans scheds).

(** [Decode] is [toml.Decode]: a document or the text of its error. *)
Definition Parse (Decode : string -> string + Doc Prim) (raw : string) : Config * list Warning * option Err :=
  match Decode raw with
  | inl err =>
      let msg := redactSyntaxError err in
      (Default, [mkWarning "toml" msg []], Some ("config: %s", [AStr msg]))
  | inr d => let '(cfg, warns) := parse_doc d [] in (cfg, warns, None)
  end.

Definition ParseChannels (Decode : string -> string + Doc Prim) (raw : string)
  : list Channel * list Warning * option Err :=
  match Parse Decode raw with
  | (_, warns, Some e) => ([], warns, Some e)
  | (cfg, warns, None) => (c_Channels cfg, warns, None)
  end.
End Parse.

(** [Config.Channel]: the first channel with the name. *)
Definition Config_Channel (c : Config) (name : string) : option Channel :=
  find (fun ch => String.eqb (cc_Name ch) name) (c_Channels c).

(** ** Well-formed configurations *)
Definition web_ok (w : Web) : Prop :=
  (w_Auth w = "none" \/ w_Auth w = "basic") /\ w_TLS w ∈ TLSModes /\
  (w_TLS w = "off" -> IsLoopbackListen (w_Listen w) = true) /\
  (w_TLS w = "file" -> w_CertFile w <> "" /\ w_KeyFile w <> "") /\
  (w_Auth w = "basic" -> UserRe (w_User w) = true /\ exists ph, ParsePasswordHash (w_PasswordHash w) = inr ph) /\
  (exists host port n, SplitHostPort (w_Listen w) = inr (host, port) /\ Atoi port = Some n /\ 1 <= n <= 65535).
Definition log_ok (env : string) (l : Log) : Prop :=
  (l_File l = "" \/ l_File l = DefaultLogFile \/ ValidLogPath env (l_File l) = None) /\
  MinLogSizeMB <= l_MaxSizeMB l <= MaxLogSizeMB /\ MinLogFiles <= l_MaxFiles l <= MaxLogFiles.
Definition alert_ok {U : Url} (a : Alert) : Prop :=
  a_Transport a ∈ AlertTransports /\ ValidMailTo (a_MailTo a) = true /\ a_WebhookFormat a ∈ WebhookFormats /\
  (a_WebhookURL a = "" \/ ValidWebhookURL (a_WebhookURL a) = None) /\
  (a_Transport a = "webhook" -> a_WebhookURL a <> "").

Definition last_temp (c : Curve) : Z := (List.last c (0, 0)).1.
(** A sensor id the parser builds: one to four distinct trimmed parts. *)
Definition sensor_ok (id : string) : Prop := exists parts,
  id = Join parts "," /\ parts <> [] /\ Z.of_nat (length parts) <= MaxSensorParts /\ NoDup parts /\
  Forall (fun p => p <> "" /\ Contains p "," = false /\ exists q, p = TrimSpace q) parts.
Definition channel_valid (ch : Channel) : Prop :=
  nameRe (cc_Name ch) = true /\ 1 <= cc_PWM ch <= MaxPWM /\ sensor_ok (cc_Sensor ch) /\
  curve_ok (cc_Curve ch) = true /\ last_temp (cc_Curve ch) < cc_Critical ch <= MaxCritical /\
  (cc_Stop ch = "auto" \/ exists n, MinFixedStop <= n <= 255 /\ cc_Stop ch = Itoa n) /\
  0 <= cc_Hysteresis ch <= HysteresisMax /\ 0 <= cc_MinOn ch <= MinOnMax /\
  (cc_Ceiling ch = 0 \/ MinCeiling <= cc_Ceiling ch <= BuiltinCeiling None (cc_Sensor ch)).
Definition channels_ok (chs : list Channel) : Prop :=
  Forall channel_valid chs /\ NoDup (map cc_Name chs) /\ NoDup (map cc_PWM chs).
Definition schedule_valid (s : Schedule) : Prop :=
  presetRe (sc_Preset s) = true /\ NoDup (sc_Days s) /\ Forall (fun d => d ∈ DayNames) (sc_Days s) /\
  (Schedule_Fallback s = true \/
   sc_From s <> sc_To s /\ exists h m h' m', 0 <= h < 24 /\ 0 <= m < 60 /\ 0 <= h' < 24 /\ 0 <= m' < 60 /\
     sc_From s = format_clock h m /\ sc_To s = format_clock h' m').
Definition schedules_ok (l : list Schedule) : Prop :=
  Forall schedule_valid l /\ Z.of_nat (length l) <= MaxSchedules /\
  (length (filter (fun s => Schedule_Fallback s = true) l) <= 1)%nat.
Definition config_valid {U : Url} (env : string) (c : Config) : Prop :=
  daemon_ok (c_Daemon c) /\ web_ok (c_Web c) /\ log_ok env (c_Log c) /\ alert_ok (c_Alert c) /\
  dashboard_ok (c_Sensors c) /\ channels_ok (c_Channels c) /\ schedules_ok (c_Schedules c).
