(* ===== verification/ConfigValid.v ===== *)
(** Every configuration the parser returns is well-formed, and the exact
    conditions under which the web listener is reachable without a login. *)
From stdpp Require Import base gmap strings list.
From Stdlib Require Import ZArith Lia Ascii.
From S2P Require Import Prelude GoLib GoNet GoTime ConfigTypes Curve ConfigFields ConfigWeb Ceiling ConfigChannels ConfigParse.
Open Scope Z_scope.

(** Case analysis on the branches of a decoder. *)
Ltac yc := repeat match goal with
  | |- yields _ (match ?x with _ => _ end) => destruct x eqn:?
  | |- yields _ (let _ := _ in _) => cbv zeta
  | |- yields _ (bind _ (fun _ => _)) => apply yields_seq
  | |- yields _ (ret _) => apply yields_ret
  end.
(** The next step of a decoder with what it yields. *)
Tactic Notation "yb" uconstr(lem) "as" simple_intropattern_list(p) :=
  eapply yields_bind; [apply lem|]; cbv beta; intros p.

(** ** web *)
Definition listen_ok (l : string) : Prop :=
  exists host port n, SplitHostPort l = inr (host, port) /\ Atoi port = Some n /\ 1 <= n <= 65535.
Definition auth_ok (auth user hash : string) : Prop :=
  (auth = "none" \/ auth = "basic") /\
  (auth = "basic" -> UserRe user = true /\ exists ph, ParsePasswordHash hash = inr ph).
Definition tls_ok (listen : string) (r : string * string * string) : Prop :=
  r.1.1 ∈ TLSModes /\ (r.1.1 = "off" -> IsLoopbackListen listen = true) /\
  (r.1.1 = "file" -> r.1.2 <> "" /\ r.2 <> "").

Lemma default_listen_ok : listen_ok (w_Listen DefaultWeb).
Proof. exists "127.0.0.1", "8010", 8010. by vm_compute. Qed.
Lemma default_listen_loopback : IsLoopbackListen (w_Listen DefaultWeb) = true.
Proof. by vm_compute. Qed.

Section Web.
Context {Prim : Type} `{!Toml Prim}.
Implicit Types (sec : gmap string Prim).

Lemma listen_of_yields sec : yields listen_ok (listen_of sec DefaultWeb).
Proof.
  unfold listen_of. apply yields_bind'. intros [l ?]. yc; try apply default_listen_ok.
  eexists _, _, _. split_and!; [done|done| |]; apply orb_false_iff in Heqb0; lia.
Qed.

Lemma auth_mode_yields sec :
  yields (fun r => (r.1 = "none" \/ r.1 = "basic")) (auth_mode sec DefaultWeb).
Proof.
  unfold auth_mode. apply yields_bind'. intros [a ?]. yc; cbn; [by left|].
  apply andb_false_iff in Heqb0 as [H%negb_false_iff%String.eqb_eq|H%negb_false_iff%String.eqb_eq]; auto.
Qed.

Lemma check_basic_yields user hash auth broken : auth = "none" \/ auth = "basic" ->
  yields (fun r => auth_ok r.1 user hash /\ (broken = true -> r.2 = true) /\
                   (auth = "basic" -> r.1 = "none" -> r.2 = true)) (check_basic user hash auth broken).
Proof.
  intros Ha. unfold check_basic. yc; unfold auth_ok; cbn;
    try by (split_and!; auto; done).
  - destruct Ha as [->| ->]; [|done]. by split_and!; auto.
  - apply negb_false_iff, String.eqb_eq in Heqb. apply negb_false_iff in Heqb1. subst auth.
    split_and!; eauto. done.
Qed.

Lemma final_listen_yields listen broken : listen_ok listen ->
  yields (fun l => listen_ok l /\ (broken = true -> IsLoopbackListen l = true) /\
                   (l = listen \/ l = w_Listen DefaultWeb)) (final_listen DefaultWeb listen broken).
Proof.
  intros Hl. unfold final_listen. yc.
  - split_and!; [apply default_listen_ok| |by right]. intros _. apply default_listen_loopback.
  - split_and!; [done| |by left]. intros ->. cbn in Heqb. by apply negb_false_iff in Heqb.
Qed.

Lemma DefaultTLS_ok l :
  (DefaultTLS l = "off" /\ IsLoopbackListen l = true) \/ (DefaultTLS l = "auto" /\ IsLoopbackListen l = false).
Proof. unfold DefaultTLS. case_match; auto. Qed.
Lemma DefaultTLS_modes l : DefaultTLS l ∈ TLSModes.
Proof. apply contains_elem. by destruct (DefaultTLS_ok l) as [[-> _]|[-> _]]. Qed.

Lemma tls_yields sec listen : yields (tls_ok listen) (tls sec listen).
Proof.
  unfold tls.
  eapply (yields_bind (fun r => r.2 = false -> r.1 = DefaultTLS listen)).
  { unfold strField. yc; done. }
  intros [m present] Hm. cbn in Hm. apply yields_bind'. intros [cert ?]. apply yields_bind'. intros [key ?].
  cbv zeta. set (c := TrimSpace cert). set (k := TrimSpace key).
  eapply (yields_bind (fun m => m ∈ TLSModes)).
  { yc; [apply DefaultTLS_modes|]. destruct present; cbn in Heqb1.
    - apply negb_false_iff in Heqb1. by apply contains_elem.
    - rewrite Hm by done. destruct (DefaultTLS_ok listen) as [[-> _]|[-> _]]; by apply contains_elem. }
  cbv beta. intros m1 Hm1.
  eapply (yields_bind (fun m => m ∈ TLSModes /\ (m = "file" -> c <> "" /\ k <> ""))).
  { yc.
    - split; [apply DefaultTLS_modes|]. by destruct (DefaultTLS_ok listen) as [[-> _]|[-> _]].
    - split; [done|]. intros ->. cbn in Heqb1. apply orb_false_iff in Heqb1 as [E1 E2].
      split; intros E; [by rewrite E in E1|by rewrite E in E2]. }
  cbv beta. intros m2 [Hm2 Hf].
  eapply (yields_bind (fun m => m ∈ TLSModes /\ (m = "file" -> c <> "" /\ k <> "") /\
                                (m = "off" -> IsLoopbackListen listen = true))).
  { yc; [split_and!; [by apply contains_elem|done|done]|]. split_and!; [done|done|]. intros ->. cbn in Heqb1.
    by apply negb_false_iff in Heqb1. }
  cbv beta. intros m3 (? & ? & ?). apply yields_ret. by split_and!.
Qed.

Lemma web_yields sec : yields web_ok (web sec).
Proof.
  unfold web. apply yields_seq. cbv zeta.
  yb listen_of_yields as listen Hl.
  yb auth_mode_yields as [auth broken] Ha.
  apply yields_bind'. intros [user ?]. apply yields_bind'. intros [hash ?].
  eapply yields_bind; [by apply check_basic_yields|]. cbv beta. intros [auth1 broken1] [[Hau Hba] _].
  eapply yields_bind; [by apply final_listen_yields|]. cbv beta. intros l [Hl1 _].
  apply yields_bind'. intros hosts.
  yb tls_yields as [[mode cert] key] (Ht1 & Ht2 & Ht3).
  apply yields_bind'. intros behind. apply yields_ret. cbn in *. by split_and!.
Qed.

Lemma DefaultWeb_ok : web_ok DefaultWeb.
Proof.
  unfold web_ok. cbn [w_Auth w_TLS w_Listen DefaultWeb]. split_and!; [by left|by apply contains_elem|done|done|done|].
  apply default_listen_ok.
Qed.
End Web.

(** ** log and alert *)
Section LogAlert.
Context {Prim : Type} `{!Toml Prim} {U : Url} (env : string).
Implicit Types (sec : gmap string Prim).

Lemma strField_def pre sec key def : yields (fun r => r.2 = false -> r.1 = def) (strField pre sec key def).
Proof. unfold strField. yc; done. Qed.

Lemma log_yields sec : yields (log_ok env) (log env sec).
Proof.
  unfold log. apply yields_seq. cbv zeta.
  yb strField_def as [file present] Hf. cbn in Hf.
  eapply (yields_bind (fun f => f = "" \/ f = DefaultLogFile \/ ValidLogPath env f = None)).
  { yc; [by right; left|by right; right|]. apply andb_false_iff in Heqb as [->|E].
    - rewrite Hf by done. right. by left.
    - apply negb_false_iff, String.eqb_eq in E. by left. }
  cbv beta. intros f Hf'.
  do 2 (eapply yields_bind; [by apply intField_def|]; cbv beta; intros ? ?).
  apply yields_ret. unfold log_ok. cbn. tauto.
Qed.

Lemma webhook_url_yields sec : yields (fun u => u = "" \/ ValidWebhookURL u = None) (webhook_url_of sec).
Proof.
  unfold webhook_url_of. yb strField_def as [u present] Hu. cbn in Hu.
  yc; [by left|by right|]. apply andb_false_iff in Heqb as [->|E].
  - rewrite Hu by done. by left.
  - apply negb_false_iff, String.eqb_eq in E. by left.
Qed.

Lemma alert_yields sec : yields alert_ok (alert sec).
Proof.
  unfold alert. apply yields_seq. cbv zeta. apply yields_bind'. intros [tr0 ?].
  eapply (yields_bind (fun t => t ∈ AlertTransports)).
  { yc; [by apply contains_elem|by apply contains_elem]. }
  cbv beta. intros tr Htr. yb strField_def as [to0 p1] Hto. cbn in Hto.
  eapply (yields_bind (fun t => ValidMailTo t = true)).
  { destruct p1; cbn [andb] in *; [|by rewrite Hto by done; apply yields_ret].
    destruct (ValidMailTo (TrimSpace to0)) eqn:E; cbn [negb]; yc; done. }
  cbv beta. intros to Hto'. yb webhook_url_yields as wu Hwu.
  yb strField_def as [wf0 p2] Hwf. cbn in Hwf.
  eapply (yields_bind (fun w => w ∈ WebhookFormats)).
  { set (wf := if String.eqb (enumValue wf0) "" then a_WebhookFormat DefaultAlert else enumValue wf0).
    destruct p2; cbn [andb].
    - destruct (contains WebhookFormats wf) eqn:E; cbn [negb]; yc; by apply contains_elem.
    - apply yields_ret. subst wf. rewrite Hwf by done. by apply contains_elem. }
  cbv beta. intros wf Hwf'.
  eapply (yields_bind (fun t => t ∈ AlertTransports /\ (t = "webhook" -> wu <> ""))).
  { destruct (String.eqb_spec tr "webhook") as [Hw|Hw], (String.eqb_spec wu "") as [Hu|Hu]; cbn [andb]; yc;
      (split; [done || by apply contains_elem|done]). }
  cbv beta. intros t [Ht1 Ht2]. apply yields_ret. unfold alert_ok. cbn. by split_and!.
Qed.

Lemma DefaultLog_ok : log_ok env DefaultLog.
Proof. split_and!; [by right; left|done..]. Qed.
Lemma DefaultAlert_ok : alert_ok DefaultAlert.
Proof. split_and!; [by apply contains_elem|done|by apply contains_elem|by left|done]. Qed.
End LogAlert.

(** ** channels *)
Lemma join_parts_spec i parts out r :
  join_parts i parts out = inr r ->
  Forall (fun p => p <> "" /\ Contains p "," = false /\ exists q, p = TrimSpace q) out -> NoDup out ->
  NoDup r /\ Forall (fun p => p <> "" /\ Contains p "," = false /\ exists q, p = TrimSpace q) r /\
  length r = (length out + length parts)%nat.
Proof.
  revert i out. induction parts as [|p parts IH]; intros i out; cbn [join_parts].
  - intros [= <-] Hf Hn. cbn. split_and!; [done|done|lia].
  - cbv zeta. destruct (String.eqb (TrimSpace p) "") eqn:E1; [done|].
    destruct (Contains (TrimSpace p) ",") eqn:E2; [done|].
    destruct (contains out (TrimSpace p)) eqn:E3; [done|]. intros Hj Hf Hn.
    apply IH in Hj as (? & ? & Hlen).
    + split_and!; [done|done|]. rewrite Hlen, length_app. cbn. lia.
    + apply Forall_app. split; [done|]. constructor; [|done]. split_and!; [|done|by eexists].
      intros E. by rewrite E in E1.
    + apply NoDup_app. split_and!; [done| |apply NoDup_singleton].
      intros x Hx ->%list_elem_of_singleton. apply contains_elem in Hx. congruence.
Qed.

Lemma JoinSensors_ok parts id : JoinSensors parts = inr id -> sensor_ok id.
Proof.
  unfold JoinSensors. destruct parts as [|p parts]; [done|].
  destruct (MaxSensorParts <? _) eqn:E; [done|].
  destruct (join_parts 0 (p :: parts) []) as [|r] eqn:Ej; [done|]. intros [= <-].
  apply join_parts_spec in Ej as (Hn & Hf & Hlen); [|constructor|constructor].
  exists r. split_and!; [done| | |done|done].
  - intros ->. done.
  - rewrite Hlen. apply Z.ltb_ge in E. cbn [length Nat.add] in *. lia.
Qed.

Lemma DefaultStop_cases s : DefaultStop s = "auto" \/ DefaultStop s = Itoa 140.
Proof. unfold DefaultStop. case_match; [by right|by left]. Qed.

Definition stop_text_ok (s : string) : Prop := s = "auto" \/ exists n, MinFixedStop <= n <= 255 /\ s = Itoa n.

Lemma DefaultStop_ok s : stop_text_ok (DefaultStop s).
Proof. destruct (DefaultStop_cases s) as [->| ->]; [by left|]. right. by exists 140. Qed.

Section Channels.
Context {Prim : Type} `{!Toml Prim}.
Implicit Types (sec : gmap string Prim).

Lemma pwmField_yields pre sec : yields (fun v => v = 0 \/ 1 <= v <= MaxPWM) (pwmField pre sec).
Proof. unfold pwmField. yc; try by left. apply orb_false_iff in Heqb. right. lia. Qed.

Lemma sensorField_yields pre sec :
  yields (fun o => match o with Some id => sensor_ok id | None => True end) (sensorField pre sec).
Proof. unfold sensorField. yc; try done; by eapply JoinSensors_ok. Qed.

Lemma curve_yields pre sec : yields (fun c => curve_ok c = true) (curve pre sec).
Proof. unfold curve. yc; try done. by eapply ValidateCurve_spec. Qed.

Lemma fixed_stop_yields pre n : 0 <= n <= 255 -> yields stop_text_ok (fixed_stop pre n).
Proof.
  intros Hn. unfold fixed_stop. yc; right; [by exists MinFixedStop|]. exists n. split; [lia|done].
Qed.
Lemma stop_yields pre sec sensor : yields stop_text_ok (stop pre sec sensor).
Proof.
  unfold stop. yc; try apply DefaultStop_ok; try by left.
  all: apply fixed_stop_yields; match goal with H : (_ || _)%bool = false |- _ => apply orb_false_iff in H end; lia.
Qed.
Lemma ceiling_yields pre sec id :
  yields (fun v => v = 0 \/ MinCeiling <= v <= BuiltinCeiling None id) (ceiling pre sec id).
Proof. unfold ceiling. yc; try by left. apply orb_false_iff in Heqb0. right. lia. Qed.

Lemma curve_ok_last c : curve_ok c = true -> -20 <= last_temp c <= 120.
Proof.
  unfold curve_ok. rewrite !andb_true_iff. intros [[[Hlen _] Hf] _].
  destruct (exists_last (l := c)) as (l & p & ->); [by intros ->|].
  unfold last_temp. rewrite List.last_last. rewrite forallb_app in Hf. apply andb_true_iff in Hf as [_ Hp].
  cbn in Hp. unfold point_ok, MinCurveTemp, MaxCurveTemp in Hp. split_bools. lia.
Qed.

Lemma channel_body_yields pre sec name pwm sensor :
  nameRe name = true -> 1 <= pwm <= MaxPWM -> sensor_ok sensor ->
  yields (fun ch => channel_valid ch /\ cc_Name ch = name /\ cc_PWM ch = pwm) (channel_body pre sec name pwm sensor).
Proof.
  intros Hn Hp Hs. unfold channel_body. yb curve_yields as crv Hc.
  assert (Hl : -20 <= last_temp crv <= 120) by by apply curve_ok_last.
  cbv zeta. replace (let (t, _) := List.last crv (0, 0) in t) with (last_temp crv)
    by (unfold last_temp; by destruct (List.last crv (0, 0))).
  set (def := if MaxCritical <? last_temp crv + 10 then MaxCritical else last_temp crv + 10).
  assert (last_temp crv + 1 <= def <= MaxCritical).
  { subst def. unfold MaxCritical. case_match; lia. }
  eapply yields_bind; [by apply intField_def|]. cbv beta. intros crit Hcrit. apply yields_seq.
  yb stop_yields as stp Hstp.
  eapply yields_bind; [by apply intField_def|]. cbv beta. intros hyst Hhyst.
  eapply yields_bind; [by apply durField_def|]. cbv beta. intros minOn HminOn.
  yb ceiling_yields as ceil Hceil. apply yields_ret. split; [|done].
  unfold stop_text_ok in Hstp. assert (last_temp crv < crit <= MaxCritical) by lia.
  unfold channel_valid. cbn. tauto.
Qed.

Lemma channel_one_yields i sec names pwms :
  yields (fun o => match o with
                   | Some ch => channel_valid ch /\ cc_Name ch ∉ names /\ cc_PWM ch ∉ pwms
                   | None => True
                   end) (channel_one i sec names pwms).
Proof.
  unfold channel_one. cbv zeta. apply yields_bind'. intros [name ok]. apply yields_seq.
  destruct (ok && nameRe name) eqn:E; cbn [negb]; [|by yc]. apply andb_true_iff in E as [_ Hn].
  case_bool_decide as Hin; [by yc|].
  yb pwmField_yields as pwm Hp. destruct (pwm =? 0) eqn:E0; [by yc|].
  case_bool_decide as Hpin; [by yc|].
  yb sensorField_yields as [sensor|] Hs; [|by yc].
  eapply yields_bind; [apply channel_body_yields; [done|lia|done]|]. cbv beta.
  intros ch (Hv & Hcn & Hcp). apply yields_ret. by rewrite Hcn, Hcp.
Qed.

Lemma channels_loop_yields i secs names pwms out :
  channels_ok out -> (forall n, n ∈ map cc_Name out -> n ∈ names) -> (forall n, n ∈ map cc_PWM out -> n ∈ pwms) ->
  yields channels_ok (channels_loop i secs names pwms out).
Proof.
  revert i names pwms out. induction secs as [|sec secs IH]; intros i names pwms out Hout Hn Hp;
    cbn [channels_loop]; [by apply yields_ret|].
  yb channel_one_yields as [ch|] Hch; [|by apply IH].
  destruct Hch as (Hv & Hnn & Hpp). destruct Hout as (Hf & Hnd & Hpd). apply IH.
  - split_and!.
    + apply Forall_app. by split; [|constructor].
    + rewrite map_app. apply NoDup_app. split_and!; [done| |apply NoDup_singleton].
      intros x Hx ->%list_elem_of_singleton. by apply Hnn, Hn.
    + rewrite map_app. apply NoDup_app. split_and!; [done| |apply NoDup_singleton].
      intros x Hx ->%list_elem_of_singleton. by apply Hpp, Hp.
  - intros n. rewrite map_app, elem_of_app. intros [?|?%list_elem_of_singleton]; [|subst]; set_solver.
  - intros n. rewrite map_app, elem_of_app. intros [?|?%list_elem_of_singleton]; [|subst]; set_solver.
Qed.

Lemma channels_ok_nil : channels_ok [].
Proof. split_and!; constructor. Qed.
Lemma channels_yields secs : yields channels_ok (channels secs).
Proof. apply channels_loop_yields; [apply channels_ok_nil|by intros ? ?%elem_of_nil..]. Qed.
End Channels.

(** ** schedules *)
Definition fallbacks (l : list Schedule) : nat := length (filter (fun s => Schedule_Fallback s = true) l).

Section Schedules.
Context {Prim : Type} `{!Toml Prim}.
Implicit Types (sec : gmap string Prim).

Definition days_ok (ds : list string) : Prop := NoDup ds /\ Forall (fun d => d ∈ DayNames) ds.

Lemma days_loop_yields pre days out : days_ok out ->
  yields (fun o => match o with Some ds => days_ok ds | None => True end) (days_loop pre days out).
Proof.
  revert out. induction days as [|d days IH]; intros out Hout; cbn [days_loop]; [by apply yields_ret|].
  cbv zeta. destruct (contains DayNames (enumValue d)) eqn:E1; cbn [negb]; [|by yc].
  destruct (contains out (enumValue d)) eqn:E2; [by apply yields_seq, IH|]. apply IH. destruct Hout as [Hn Hf].
  split.
  - apply NoDup_app. split_and!; [done| |apply NoDup_singleton].
    intros x Hx ->%list_elem_of_singleton. apply contains_elem in Hx. congruence.
  - apply Forall_app. split; [done|]. constructor; [by apply contains_elem|done].
Qed.

Lemma with_days_yields pre sec s : sc_Days s = [] ->
  yields (fun o => match o with
                   | Some s' => sc_Preset s' = sc_Preset s /\ sc_From s' = sc_From s /\ sc_To s' = sc_To s /\
                                days_ok (sc_Days s')
                   | None => True
                   end) (with_days pre sec s).
Proof.
  intros Hd. assert (days_ok []) by (split; constructor). unfold with_days.
  destruct (sec !! "days"); [|apply yields_ret; by rewrite Hd].
  destruct (dec_strs _); [|by yc].
  eapply yields_bind; [by apply days_loop_yields|]. cbv beta. intros [ds|] Hds; by apply yields_ret.
Qed.

Lemma clockTime_ok s t : clockTime s = Some t ->
  exists h m, 0 <= h < 24 /\ 0 <= m < 60 /\ t = format_clock h m.
Proof.
  unfold clockTime. destruct (parse_clock s) as [[h m]|] eqn:E; [|done]. intros [= <-].
  apply parse_clock_bounds in E as [? ?]. by exists h, m.
Qed.

Lemma window_times_yields pre from to :
  yields (fun o => match o with
    | Some (f, t) => f <> t /\ exists h m h' m', 0 <= h < 24 /\ 0 <= m < 60 /\ 0 <= h' < 24 /\ 0 <= m' < 60 /\
                     f = format_clock h m /\ t = format_clock h' m'
    | None => True end) (window_times pre from to).
Proof.
  unfold window_times. destruct (clockTime from) as [f|] eqn:Ef; [|by yc].
  destruct (clockTime to) as [t|] eqn:Et; [|by yc]. destruct (String.eqb_spec f t) as [->|Hne]; [by yc|].
  apply clockTime_ok in Ef as (h & m & ? & ? & ->), Et as (h' & m' & ? & ? & ->).
  apply yields_ret. split; [done|]. by exists h, m, h', m'.
Qed.

Lemma schedule_one_yields pre sec fb :
  yields (fun r => (fb = true -> r.2 = true) /\
                   match r.1 with
                   | Some s => schedule_valid s /\ (Schedule_Fallback s = true -> fb = false /\ r.2 = true)
                   | None => True
                   end) (schedule_one pre sec fb).
Proof.
  unfold schedule_one. apply yields_seq, yields_bind'. intros [preset ?]. cbv zeta.
  destruct (presetRe (TrimSpace preset)) eqn:Hp; cbn [negb]; [|by yc].
  destruct (clockField sec "from") as [from|]; [|by yc]. destruct (clockField sec "to") as [to|]; [|by yc].
  destruct (String.eqb from "" && String.eqb to ""); [|destruct (String.eqb from "" || String.eqb to ""); [by yc|]].
  - destruct fb; [by yc|]. destruct (has sec "days").
    + apply yields_seq, yields_ret. cbn. split; [done|]. split; [|done].
      split_and!; cbn; [done|constructor|constructor|by left].
    + eapply yields_bind; [by apply with_days_yields|]. cbv beta. intros [s|] Hs; apply yields_ret; [|done].
      cbn in *. destruct Hs as (E1 & E2 & E3 & Hd1 & Hd2). split; [done|]. split; [|done].
      split_and!; [by rewrite E1|done|done|]. left. unfold Schedule_Fallback. by rewrite E2, E3.
  - eapply yields_bind; [apply window_times_yields|]. cbv beta. intros [[f t]|] Hw; [|by yc].
    destruct Hw as [Hne (h & m & h' & m' & Hh & Hm & Hh' & Hm' & -> & ->)].
    eapply yields_bind; [by apply with_days_yields|]. cbv beta. intros [s|] Hs; apply yields_ret; [|done].
    cbn in *. destruct Hs as (E1 & E2 & E3 & Hd1 & Hd2). split; [done|]. split.
    + split_and!; [by rewrite E1|done|done|]. right. rewrite E2, E3. split; [done|]. by exists h, m, h', m'.
    + unfold Schedule_Fallback. by rewrite E2.
Qed.

Lemma schedules_loop_yields i secs fb out :
  Forall schedule_valid out -> Z.of_nat (length out) <= MaxSchedules ->
  (fallbacks out <= if fb : bool then 1 else 0)%nat ->
  yields schedules_ok (schedules_loop i secs fb out).
Proof.
  revert i fb out. induction secs as [|sec secs IH]; intros i fb out Hv Hl Hf; cbn [schedules_loop].
  { apply yields_ret. split_and!; [done|done|]. fold (fallbacks out). destruct fb; lia. }
  cbv zeta. destruct (MaxSchedules <=? Z.of_nat (length out)) eqn:E.
  { apply yields_seq, yields_ret. split_and!; [done|done|]. fold (fallbacks out). destruct fb; lia. }
  eapply yields_bind; [apply schedule_one_yields|]. cbv beta. intros [[s|] fb'] [Hmono Hs]; cbn in Hmono, Hs.
  - destruct Hs as [Hsv Hsf]. apply IH.
    + apply Forall_app. by split; [|constructor].
    + rewrite length_app. cbn. lia.
    + unfold fallbacks in *. rewrite filter_app, length_app, filter_cons, filter_nil.
      case_decide as Hd.
      * destruct (Hsf Hd) as [-> ->]. cbn. lia.
      * cbn. destruct fb; [by rewrite Hmono by done; lia|]. destruct fb'; lia.
  - apply IH; [done|done|]. destruct fb; [by rewrite Hmono by done|]. destruct fb'; lia.
Qed.

Lemma schedules_ok_nil : schedules_ok [].
Proof. split_and!; [constructor|done|cbn; lia]. Qed.
Lemma schedules_yields secs : yields schedules_ok (schedules secs).
Proof. apply schedules_loop_yields; [constructor|done|cbn; lia]. Qed.
End Schedules.

(** ** The document *)
Section Document.
Context {Prim : Type} `{!Toml Prim} {U : Url} (env : string).

Lemma section_yields {A} (d : Doc Prim) name (def : A) parse (Q : A -> Prop) :
  Q def -> (forall sec, yields Q (parse sec)) -> yields Q (section d name def parse).
Proof.
  intros Hd Hp. unfold section. apply yields_bind'. intros [sec|]; [apply Hp|by apply yields_ret].
Qed.
Lemma tables_yields {A} (d : Doc Prim) name msg (parse : _ -> P (list A)) (Q : list A -> Prop) :
  Q [] -> (forall secs, yields Q (parse secs)) -> yields Q (tables d name msg parse).
Proof. intros Hn Hp. unfold tables. yc; done || apply Hp. Qed.

Lemma DefaultDaemon_ok : daemon_ok DefaultDaemon.
Proof. unfold daemon_ok. split_and!; try done. by apply contains_elem. Qed.
Lemma dashboard_ok_nil : dashboard_ok [].
Proof. split_and!; [constructor|constructor|done]. Qed.

Lemma Default_valid : config_valid env Default.
Proof.
  split_and!; [apply DefaultDaemon_ok|apply DefaultWeb_ok|apply DefaultLog_ok|apply DefaultAlert_ok|
    apply dashboard_ok_nil|apply channels_ok_nil|apply schedules_ok_nil].
Qed.

Lemma parse_doc_yields (d : Doc Prim) : yields (config_valid env) (parse_doc env d).
Proof.
  unfold parse_doc. apply yields_seq.
  eapply yields_bind; [apply section_yields; [apply DefaultDaemon_ok|apply daemon_yields]|]. intros dm Hdm.
  eapply yields_bind; [apply section_yields; [apply DefaultWeb_ok|apply web_yields]|]. intros wb Hwb.
  eapply yields_bind; [apply section_yields; [apply DefaultLog_ok|apply log_yields]|]. intros lg Hlg.
  eapply yields_bind; [apply section_yields; [apply DefaultAlert_ok|apply alert_yields]|]. intros al Hal.
  eapply yields_bind; [apply section_yields; [apply dashboard_ok_nil|apply dashboard_yields]|]. intros db Hdb.
  eapply yields_bind; [apply tables_yields; [apply channels_ok_nil|apply channels_yields]|]. intros chs Hchs.
  eapply yields_bind; [apply tables_yields; [apply schedules_ok_nil|apply schedules_yields]|]. intros sc Hsc.
  apply yields_ret. by split_and!.
Qed.

(** What [Parse] returns for any text at all. *)
Lemma Parse_valid (Decode : string -> string + Doc Prim) raw : config_valid env (Parse env Decode raw).1.1.
Proof.
  unfold Parse. destruct (Decode raw) as [msg|d]; cbn; [apply Default_valid|].
  pose proof (parse_doc_yields d []) as H. by destruct (parse_doc env d []).
Qed.
End Document.
