(* ===== verification/ConfigRules.v ===== *)
(** The rules of the parser: no invalid value is ever returned, broken
    authentication is never reachable from the network, what the program writes is
    read back, and two inputs that escape the rules. *)
From stdpp Require Import base gmap strings list sorting.
From Stdlib Require Import ZArith Lia Ascii.
From S2P Require Import Prelude GoLib GoNet GoPath GoTime ConfigTypes Curve ConfigFields ConfigWeb Ceiling ConfigChannels ConfigParse ConfigValid.
Open Scope Z_scope.

(** ** A concrete document type for the witnesses *)
Module Demo.
Inductive value :=
  | VInt (z : Z) | VStr (s : string) | VBool (b : bool) | VArr (l : list value) | VTable (l : list (string * value)).
Definition as_int (v : value) : option Z := match v with VInt z => Some z | _ => None end.
Definition as_str (v : value) : option string := match v with VStr s => Some s | _ => None end.
Definition as_bool (v : value) : option bool := match v with VBool b => Some b | _ => None end.
Fixpoint all_some {A} (f : value -> option A) (l : list value) : option (list A) :=
  match l with
  | [] => Some []
  | v :: l' => match f v, all_some f l' with Some a, Some r => Some (a :: r) | _, _ => None end
  end.
Definition as_list {A} (f : value -> option A) (v : value) : option (list A) :=
  match v with VArr l => all_some f l | _ => None end.
Definition as_table (v : value) : option (gmap string value) :=
  match v with VTable l => Some (list_to_map l) | _ => None end.
#[global] Instance demo_toml : Toml value := {|
  dec_int := as_int; dec_str := as_str; dec_bool := as_bool; dec_strs := as_list as_str;
  dec_points := as_list (as_list as_int); dec_table := as_table; dec_tables := as_list as_table |}.
#[global] Instance demo_url : Url := fun s =>
  if HasPrefix s "https://" then Some (mkURL "https" (TrimPrefix s "https://") (TrimPrefix s "https://") false) else None.

(** The document of a table: every section is a table or an array of tables. *)
Definition doc (top : list (string * value)) : Doc value :=
  mkDoc (list_to_map top)
    (fun k => match (list_to_map top : gmap string value) !! k with
              | Some (VTable _) => "Hash" | Some (VArr _) => "ArrayHash" | Some _ => "Other" | None => "" end).
End Demo.

(** ** Keys that are there *)
Section Present.
Context {Prim : Type} `{!Toml Prim}.
Implicit Types (sec : gmap string Prim).

Lemma ret_bind {A B} (a : A) (k : A -> P B) : bind (ret a) k = k a.
Proof. reflexivity. Qed.

Lemma strField_present pre sec key def prim s :
  sec !! key = Some prim -> dec_str prim = Some s -> strField pre sec key def = ret (s, true).
Proof. intros H1 H2. unfold strField. by rewrite H1, H2. Qed.
Lemma strField_absent pre sec key def : sec !! key = None -> strField pre sec key def = ret (def, false).
Proof. intros H1. unfold strField. by rewrite H1. Qed.
Lemma strField_other pre sec key def prim :
  sec !! key = Some prim -> dec_str prim = None -> yields (fun r => r = (def, false)) (strField pre sec key def).
Proof. intros H1 H2. unfold strField. rewrite H1, H2. by yc. Qed.

Lemma intField_present pre sec key def lo hi prim v :
  sec !! key = Some prim -> dec_int prim = Some v -> lo <= v <= hi -> intField pre sec key def lo hi = ret v.
Proof.
  intros H1 H2 Hv. unfold intField. rewrite H1, H2.
  by assert ((v <? lo) || (hi <? v) = false) as -> by (apply orb_false_iff; lia).
Qed.
Lemma intField_absent pre sec key def lo hi : sec !! key = None -> intField pre sec key def lo hi = ret def.
Proof. intros H1. unfold intField. by rewrite H1. Qed.

(** The mode an [auth] text asks for. *)
Lemma auth_mode_asked sec prim s :
  sec !! "auth" = Some prim -> dec_str prim = Some s -> enumValue s <> "none" ->
  yields (fun r => r.1 = "basic" \/ r.1 = "none" /\ r.2 = true) (auth_mode sec DefaultWeb).
Proof.
  intros Hs Hd Hn. unfold auth_mode. rewrite (strField_present _ _ _ _ _ _ Hs Hd), ret_bind. cbv beta iota zeta.
  destruct (String.eqb_spec (enumValue s) "none") as [|_]; [done|].
  destruct (String.eqb_spec (enumValue s) "basic") as [E|_]; cbn [negb andb]; [apply yields_ret; by left|].
  apply yields_seq, yields_ret. by right.
Qed.
Lemma auth_mode_other sec prim :
  sec !! "auth" = Some prim -> dec_str prim = None ->
  yields (fun r => r = ("none", false)) (auth_mode sec DefaultWeb).
Proof.
  intros Hs Hd. unfold auth_mode. eapply yields_bind; [by eapply strField_other|].
  intros ? ->. cbv zeta. by apply yields_ret.
Qed.
End Present.

(** ** The rules *)
Section Rules.
Context {Prim : Type} `{!Toml Prim} {U : Url}.
Implicit Types (sec : gmap string Prim).

(** C13: Rule 8 of the design, "config errors never prevent start": whatever the
    file holds, [Parse] returns a configuration every section of which is
    well-formed (limits, enumerations, channel identities, the listener's rules),
    and only a text that does not decode is an error, with the defaults. *)
Theorem parse_valid (env : string) (Decode : string -> string + Doc Prim) (raw : string) :
  let '(cfg, _, err) := Parse env Decode raw in
  config_valid env cfg /\
  match err with
  | Some _ => cfg = Default /\ exists msg, Decode raw = inl msg
  | None => exists d, Decode raw = inr d
  end.
Proof.
  unfold Parse. destruct (Decode raw) as [msg|d].
  - split; [apply Default_valid|]. eauto.
  - pose proof (parse_doc_yields env d []) as H. destruct (parse_doc env d []) as [cfg ws]. eauto.
Qed.

(** C15: No fail-open for a string: an [auth] setting that is a TOML string other than
    "none" (trimmed and in lower case), misspelt ones included, ends in basic
    authentication with a usable account, or with the listener on the loopback
    interface; either way plain HTTP is only served on the loopback interface.  A setting
    that is no string, such as [auth = true], is not covered: the parser drops it like a
    missing one and leaves the listener where it is ([web_auth_not_string]). *)
Theorem web_fail_closed sec prim s ws :
  sec !! "auth" = Some prim -> dec_str prim = Some s -> enumValue s <> "none" ->
  let w := (web sec ws).1 in
  (w_Auth w = "basic" /\ UserRe (w_User w) = true /\ (exists ph, ParsePasswordHash (w_PasswordHash w) = inr ph) \/
   w_Auth w = "none" /\ IsLoopbackListen (w_Listen w) = true) /\
  (w_TLS w = "off" -> IsLoopbackListen (w_Listen w) = true).
Proof.
  intros Hs Hd Hn. cbv zeta.
  enough (yields (fun w => w_Auth w = "basic" \/ w_Auth w = "none" /\ IsLoopbackListen (w_Listen w) = true) (web sec))
    as Hy.
  { specialize (Hy ws). destruct (web_yields sec ws) as (_ & _ & Htls & _ & Hb & _). split; [|done].
    destruct Hy as [H|H]; [left; destruct (Hb H) as [? ?]; auto|by right]. }
  unfold web. apply yields_seq. cbv zeta. yb listen_of_yields as listen Hl.
  eapply yields_bind; [by eapply auth_mode_asked|]. intros [auth broken] Ha. cbn in Ha.
  apply yields_bind'. intros [user ?]. apply yields_bind'. intros [hash ?].
  eapply yields_bind; [apply (check_basic_yields _ _ auth); tauto|]. cbv beta. intros [auth1 broken1] ([Hau _] & Hk & Hb).
  eapply yields_bind; [by apply final_listen_yields|]. cbv beta. intros l (_ & Hloop & _).
  apply yields_bind'. intros hosts. apply yields_bind'. intros [[mode cert] key].
  apply yields_bind'. intros behind. apply yields_ret. cbn in *.
  destruct Hau as [->| ->]; [right|by left]. split; [done|]. apply Hloop.
  destruct Ha as [->|[_ ->]]; auto.
Qed.

(** C37: The rule above has a hole: an [auth] value that is not a string (a boolean,
    a number) is reported and replaced by "none", and the listener stays on the
    network, without authentication. *)
Theorem web_auth_not_string sec prim prim' l ws :
  sec !! "auth" = Some prim -> dec_str prim = None ->
  sec !! "listen" = Some prim' -> dec_str prim' = Some l -> listen_ok (TrimSpace l) ->
  w_Auth (web sec ws).1 = "none" /\ w_Listen (web sec ws).1 = TrimSpace l.
Proof.
  intros Hs Hd Hl Hdl (host & port & n & Hsp & Hp & Hn).
  enough (yields (fun w => w_Auth w = "none" /\ w_Listen w = TrimSpace l) (web sec)) as Hy by apply Hy.
  unfold web. apply yields_seq. cbv zeta.
  assert (listen_of sec DefaultWeb = ret (TrimSpace l)) as ->.
  { unfold listen_of. rewrite (strField_present _ _ _ _ _ _ Hl Hdl), ret_bind. cbv beta iota zeta.
    rewrite Hsp, Hp. by assert ((n <? 1) || (65535 <? n) = false) as -> by (apply orb_false_iff; lia). }
  rewrite ret_bind. cbv beta.
  eapply yields_bind; [by eapply auth_mode_other|]. intros ? ->.
  apply yields_bind'. intros [user ?]. apply yields_bind'. intros [hash ?].
  change (check_basic user hash "none" false) with (ret ("none", false) : P (string * bool)). rewrite ret_bind.
  change (final_listen DefaultWeb (TrimSpace l) false) with (ret (TrimSpace l) : P string).
  cbv beta iota. rewrite ret_bind. apply yields_bind'. intros hosts. apply yields_bind'. intros [[mode cert] key].
  apply yields_bind'. intros behind. by apply yields_ret.
Qed.
End Rules.

Definition demo_section (l : list (string * Demo.value)) : gmap string Demo.value := list_to_map l.

Theorem web_fail_closed_witness :
  let sec := demo_section [("auth", Demo.VStr "Basic "); ("listen", Demo.VStr "0.0.0.0:8010")] in
  (w_Auth (web sec []).1 = "basic" /\ UserRe (w_User (web sec []).1) = true /\
     (exists ph, ParsePasswordHash (w_PasswordHash (web sec []).1) = inr ph) \/
   w_Auth (web sec []).1 = "none" /\ IsLoopbackListen (w_Listen (web sec []).1) = true) /\
  (w_TLS (web sec []).1 = "off" -> IsLoopbackListen (w_Listen (web sec []).1) = true).
Proof.
  intros sec. apply (web_fail_closed sec (Demo.VStr "Basic ") "Basic " []); [by vm_compute|done|by vm_compute].
Defined.

Theorem web_auth_not_string_witness :
  let sec := demo_section [("auth", Demo.VBool true); ("listen", Demo.VStr "0.0.0.0:8010")] in
  (w_Auth (web sec []).1 = "none" /\ w_Listen (web sec []).1 = "0.0.0.0:8010") /\
  IsLoopbackListen "0.0.0.0:8010" = false.
Proof.
  intros sec. split; [|by vm_compute].
  apply (web_auth_not_string sec (Demo.VBool true) (Demo.VStr "0.0.0.0:8010") "0.0.0.0:8010" []);
    [by vm_compute|done|by vm_compute|done|]. exists "0.0.0.0", "8010", 8010. by vm_compute.
Defined.

(** ** Reading back what the program writes *)

(** Table [sec] holds channel [ch] as [Marshal] writes it: the stop duty as an
    integer ([numericStop]), [min_on] as a duration text, zero values of the
    optional keys left out, no other key. *)
Section RoundTrip.
Context {Prim : Type} `{!Toml Prim}.
Implicit Types (sec : gmap string Prim).

Definition key_is {A} sec key (dec : Prim -> option A) (v : A) : Prop :=
  exists p, sec !! key = Some p /\ dec p = Some v.
Definition channel_keys : list string :=
  ["name"; "pwm"; "sensor"; "curve"; "critical"; "stop"; "hysteresis"; "min_on"; "ceiling"].
Definition optional_int sec key (v : Z) : Prop := if v =? 0 then sec !! key = None else key_is sec key dec_int v.

Record carries sec (ch : Channel) : Prop := {
  ca_keys : forall k, is_Some (sec !! k) -> k ∈ channel_keys;
  ca_name : key_is sec "name" dec_str (cc_Name ch);
  ca_pwm : key_is sec "pwm" dec_int (cc_PWM ch);
  ca_sensor : key_is sec "sensor" dec_str (cc_Sensor ch);
  ca_curve : key_is sec "curve" dec_points (as_points (cc_Curve ch));
  ca_critical : key_is sec "critical" dec_int (cc_Critical ch);
  ca_stop : exists p, sec !! "stop" = Some p /\
    (cc_Stop ch = "auto" /\ dec_str p = Some "auto" \/
     exists n, cc_Stop ch = Itoa n /\ in_int64 n = true /\ dec_str p = None /\ dec_int p = Some n);
  ca_hysteresis : optional_int sec "hysteresis" (cc_Hysteresis ch);
  ca_min_on : if cc_MinOn ch =? 0 then sec !! "min_on" = None
              else exists t, key_is sec "min_on" dec_str t /\ ParseDuration t = Some (cc_MinOn ch);
  ca_ceiling : optional_int sec "ceiling" (cc_Ceiling ch);
  ca_postset : cc_PostSet ch = negb (cc_Hysteresis ch =? 0) || negb (cc_MinOn ch =? 0) }.

Lemma unknown_none pre sec known : (forall k, is_Some (sec !! k) -> k ∈ known) ->
  forall ws, unknown pre sec known ws = (tt, ws).
Proof.
  intros Hk ws. unfold unknown.
  assert (Hf : Forall (fun k => k ∈ known) (sortedKeys sec)).
  { unfold sortedKeys. rewrite Forall_forall. intros k Hin.
    rewrite (merge_sort_Permutation String.le) in Hin. apply list_elem_of_fmap in Hin as ([k' v] & -> & Hin).
    apply elem_of_map_to_list in Hin. apply Hk. by exists v. }
  revert ws. induction Hf as [|k l Hin Hf IH]; intros ws; [done|]. cbn [iterM].
  apply contains_elem in Hin. rewrite Hin. exact (IH ws).
Qed.

Lemma JoinSensors_canonical id : sensor_ok id -> JoinSensors (Split id ","%char) = inr id.
Proof.
  intros (parts & -> & Hne & Hlen & Hnd & Hf).
  rewrite Split_Join; [|done|].
  2: { eapply Forall_impl; [exact Hf|]. cbn. intros p (_ & Hc & _). by apply Contains_char. }
  unfold JoinSensors. destruct parts as [|p0 ps] eqn:E; [done|]. rewrite <- E in *. clear E Hne p0 ps.
  assert (MaxSensorParts <? Z.of_nat (length parts) = false) as -> by lia.
  enough (forall i out, NoDup (out ++ parts) -> join_parts i parts out = inr (out ++ parts)) as -> by done.
  clear Hlen Hnd. induction Hf as [|p parts (Hp & Hc & q & Hq) _ IH]; intros i out Hnd; cbn [join_parts].
  - by rewrite app_nil_r.
  - cbv zeta. assert (TrimSpace p = p) as -> by (rewrite Hq; apply TrimSpace_idem).
    destruct (String.eqb_spec p ""); [done|]. rewrite Hc.
    destruct (contains out p) eqn:E.
    { apply contains_elem in E. apply NoDup_app in Hnd as (_ & Hd & _). exfalso. apply (Hd p E). by left. }
    rewrite IH; [by rewrite <- app_assoc|]. by rewrite <- app_assoc.
Qed.

Lemma optional_intField pre sec key v hi : 0 <= hi -> 0 <= v <= hi -> optional_int sec key v ->
  intField pre sec key 0 0 hi = ret v /\ has sec key = negb (v =? 0).
Proof.
  intros Hhi Hv. unfold optional_int, has. destruct (Z.eqb_spec v 0) as [->|Hn].
  - intros E. rewrite intField_absent by done. by rewrite E.
  - intros (p & Hp & Hd). rewrite (intField_present _ _ _ _ _ _ _ _ Hp Hd) by lia. by rewrite Hp.
Qed.

Lemma min_on_read pre sec ch : 0 <= cc_MinOn ch <= MinOnMax ->
  (if cc_MinOn ch =? 0 then sec !! "min_on" = None
   else exists t, key_is sec "min_on" dec_str t /\ ParseDuration t = Some (cc_MinOn ch)) ->
  durField pre sec "min_on" 0 0 MinOnMax = ret (cc_MinOn ch) /\ has sec "min_on" = negb (cc_MinOn ch =? 0).
Proof.
  intros Hm. unfold durField, durRaw, has. destruct (Z.eqb_spec (cc_MinOn ch) 0) as [->|Hn].
  - intros ->. by rewrite ret_bind.
  - intros (t & (p & Hp & Hd) & Ht). rewrite Hp, Hd, Ht, ret_bind. cbn [negb].
    by assert ((cc_MinOn ch <? 0) || (MinOnMax <? cc_MinOn ch) = false) as -> by (apply orb_false_iff; lia).
Qed.

Lemma stop_read pre sec ch : carries sec ch ->
  (cc_Stop ch = "auto" \/ exists n, MinFixedStop <= n <= 255 /\ cc_Stop ch = Itoa n) ->
  stop pre sec (cc_Sensor ch) = ret (cc_Stop ch).
Proof.
  intros Hc Hs. unfold stop. destruct (ca_stop _ _ Hc) as (p & -> & [[-> ->]|(n & E & Hn & -> & ->)]); [by vm_compute|].
  apply Atoi_Itoa in Hn. rewrite <- E in Hn.
  assert (MinFixedStop <= n <= 255).
  { destruct Hs as [Ha|(n' & Hn' & Hi)]; [by rewrite Ha in Hn|].
    rewrite Hi, Atoi_Itoa in Hn by (unfold in_int64, MinFixedStop in *; lia). by injection Hn as <-. }
  assert ((n <? 0) || (255 <? n) = false) as -> by (unfold MinFixedStop in *; apply orb_false_iff; lia).
  unfold fixed_stop. by assert (n <? MinFixedStop = false) as -> by lia; rewrite E.
Qed.

Lemma ceiling_read pre sec ch : carries sec ch ->
  (cc_Ceiling ch = 0 \/ MinCeiling <= cc_Ceiling ch <= BuiltinCeiling None (cc_Sensor ch)) ->
  ceiling pre sec (cc_Sensor ch) = ret (cc_Ceiling ch).
Proof.
  intros Hc Hv. unfold ceiling. pose proof (ca_ceiling _ _ Hc) as H. unfold optional_int in H.
  destruct (Z.eqb_spec (cc_Ceiling ch) 0) as [E|E]; [by rewrite H, E|]. destruct H as (p & -> & ->).
  destruct (Z.eqb_spec (cc_Ceiling ch) 0); [done|]. destruct Hv as [Hv|Hv]; [done|].
  by assert ((cc_Ceiling ch <? MinCeiling) || (BuiltinCeiling None (cc_Sensor ch) <? cc_Ceiling ch) = false) as ->
    by (apply orb_false_iff; lia).
Qed.

Lemma channel_body_read pre sec ch : carries sec ch -> channel_valid ch ->
  channel_body pre sec (cc_Name ch) (cc_PWM ch) (cc_Sensor ch) = ret ch.
Proof.
  intros Hc (Hn & Hp & Hs & Hcv & Hcr & Hst & Hh & Hm & Hce). unfold channel_body.
  assert (curve pre sec = ret (cc_Curve ch)) as ->.
  { unfold curve. destruct (ca_curve _ _ Hc) as (p & -> & ->).
    assert (ValidateCurve (as_points (cc_Curve ch)) = inr (cc_Curve ch)) as -> by by apply ValidateCurve_spec.
    done. }
  rewrite ret_bind. cbv zeta. replace (let (t, _) := List.last (cc_Curve ch) (0, 0) in t) with (last_temp (cc_Curve ch))
    by (unfold last_temp; by destruct (List.last (cc_Curve ch) (0, 0))).
  destruct (ca_critical _ _ Hc) as (p & Hp1 & Hp2).
  rewrite (intField_present _ _ _ _ _ _ _ _ Hp1 Hp2) by lia. unfold has at 1. rewrite Hp1, !ret_bind.
  rewrite (stop_read _ _ _ Hc Hst), ret_bind.
  destruct (optional_intField pre sec "hysteresis" (cc_Hysteresis ch) HysteresisMax ltac:(done) Hh (ca_hysteresis _ _ Hc))
    as [-> ->]. rewrite ret_bind.
  destruct (min_on_read pre sec ch Hm (ca_min_on _ _ Hc)) as [-> ->]. rewrite ret_bind.
  rewrite (ceiling_read _ _ _ Hc Hce), ret_bind. rewrite <- (ca_postset _ _ Hc). by destruct ch.
Qed.

Lemma channel_one_read i sec names pwms ch ws : carries sec ch -> channel_valid ch ->
  cc_Name ch ∉ names -> cc_PWM ch ∉ pwms -> channel_one i sec names pwms ws = (Some ch, ws).
Proof.
  intros Hc Hv Hnn Hpp. pose proof Hv as (Hn & Hp & Hs & _). unfold channel_one. cbv zeta.
  destruct (ca_name _ _ Hc) as (p & Hp1 & Hp2). rewrite (strField_present _ _ _ _ _ _ Hp1 Hp2), ret_bind.
  cbv beta iota. rewrite Hn. cbn [andb negb]. unfold bind at 1. rewrite (unknown_none _ _ _ (ca_keys _ _ Hc)).
  rewrite bool_decide_eq_false_2 by done.
  assert (pwmField (dot "channel" (cc_Name ch)) sec = ret (cc_PWM ch)) as ->.
  { unfold pwmField. destruct (ca_pwm _ _ Hc) as (q & -> & ->).
    by assert ((cc_PWM ch <? 1) || (MaxPWM <? cc_PWM ch) = false) as -> by (apply orb_false_iff; lia). }
  rewrite ret_bind. assert (cc_PWM ch =? 0 = false) as -> by lia. rewrite bool_decide_eq_false_2 by done.
  assert (sensorField (dot "channel" (cc_Name ch)) sec = ret (Some (cc_Sensor ch))) as ->.
  { unfold sensorField. destruct (ca_sensor _ _ Hc) as (q & -> & ->). by rewrite JoinSensors_canonical. }
  rewrite ret_bind, channel_body_read by done. done.
Qed.

Lemma channels_read secs chs ws : Forall2 carries secs chs -> channels_ok chs ->
  channels secs ws = (chs, ws).
Proof.
  intros Hc Hok. unfold channels.
  enough (forall i names pwms out,
    (forall n, n ∈ names -> n ∈ map cc_Name out) -> (forall n, n ∈ pwms -> n ∈ map cc_PWM out) ->
    channels_ok (out ++ chs) -> channels_loop i secs names pwms out ws = (out ++ chs, ws)) as Hl
    by (apply Hl; [set_solver|set_solver|done]).
  clear Hok. induction Hc as [|sec ch secs chs Hc _ IH]; intros i names pwms out Hn Hp Hok; cbn [channels_loop].
  - by rewrite app_nil_r.
  - destruct Hok as (Hf & Hnd & Hpd). rewrite !map_app in *. cbn [map] in *.
    pose proof Hf as [_ Hv%Forall_inv]%Forall_app.
    apply NoDup_app in Hnd as (Hnd1 & Hnd2 & Hnd3). apply NoDup_app in Hpd as (Hpd1 & Hpd2 & Hpd3).
    unfold bind at 1. rewrite (channel_one_read _ _ _ _ ch) by
      (done || (intros H%Hn; by apply (Hnd2 _ H); left) || (intros H%Hp; by apply (Hpd2 _ H); left)).
    rewrite IH.
    + by rewrite <- app_assoc.
    + intros n. rewrite map_app, elem_of_union, elem_of_app, elem_of_singleton. cbn. intros [->|H]; [right; by left|left; auto].
    + intros n. rewrite map_app, elem_of_union, elem_of_app, elem_of_singleton. cbn. intros [->|H]; [right; by left|left; auto].
    + rewrite <- app_assoc. split_and!; [done|rewrite map_app; apply NoDup_app; by split_and!..].
Qed.

(** C36: A valid channel set survives a write and a read: tables that hold the
    channels the way the program writes them parse to exactly these channels, in
    order, without a warning. *)
Theorem channels_roundtrip secs chs ws : Forall2 carries secs chs -> channels_ok chs ->
  channels secs ws = (chs, ws).
Proof. exact (channels_read secs chs ws). Qed.
End RoundTrip.

(** ** Reading without a warning

    A decoder only adds warnings, so a text that was read without one had every value
    taken as it is written. *)
Definition grows {A} (m : P A) : Prop := forall w0, preserves (fun ws => w0 `prefix_of` ws) m.
Lemma grows_bind {A B} (m : P A) (k : A -> P B) : grows m -> (forall a, grows (k a)) -> grows (bind m k).
Proof. intros Hm Hk w0. apply preserves_bind; [apply Hm|]. intros a. apply Hk. Qed.
Lemma grows_ret {A} (a : A) : grows (ret a).
Proof. intros w0. apply preserves_ret. Qed.
Lemma grows_warn f m a : grows (warn f m a).
Proof. intros w0 ws H. cbn. by apply prefix_app_r. Qed.
Lemma grows_iterM {A} (f : A -> P unit) l : (forall a, grows (f a)) -> grows (iterM f l).
Proof. intros H w0. apply preserves_iterM. intros a. apply H. Qed.
Lemma bind_quiet {A B} (m : P A) (k : A -> P B) ws b : grows m -> (forall a, grows (k a)) ->
  bind m k ws = (b, ws) -> exists a, m ws = (a, ws) /\ k a ws = (b, ws).
Proof.
  intros Hm Hk H. unfold bind in H. specialize (Hm ws ws ltac:(done)). destruct (m ws) as [a ws1] eqn:E. cbn in Hm.
  specialize (Hk a ws1 ws1 ltac:(done)). rewrite H in Hk. cbn in Hk.
  assert (ws1 = ws) as -> by (by apply (anti_symm prefix)). by exists a.
Qed.
Lemma quiet_warn {A} f m a (k : unit -> P A) ws r : (forall u, grows (k u)) -> bind (warn f m a) k ws = (r, ws) -> False.
Proof.
  intros Hk H. apply bind_quiet in H as (u & H & _); [|apply grows_warn|done]. cbn in H.
  apply (f_equal (fun p => length p.2)) in H. cbn in H. rewrite length_app in H. cbn in H. lia.
Qed.
Ltac grow :=
  repeat first
    [ match goal with |- forall _, _ => intro end
    | solve [eauto 2 with grow nocore]
    | apply grows_bind | apply grows_ret | apply grows_warn | apply grows_iterM
    | match goal with |- grows (match ?x with _ => _ end) => destruct x end
    | match goal with |- grows (let _ := _ in _) => cbv zeta end ].
Create HintDb grow discriminated.
(** Leave the branches that warn. *)
Ltac hush H := exfalso; eapply quiet_warn in H; [done|grow].

Section Quiet.
Context {Prim : Type} `{!Toml Prim} {U : Url}.
Implicit Types (sec : gmap string Prim) (pre key : string).
Lemma grows_unknown pre sec known : grows (unknown pre sec known).
Proof. unfold unknown. grow. Qed.
Lemma grows_str pre sec key def : grows (strField pre sec key def).
Proof. unfold strField. grow. Qed.
Lemma grows_int pre sec key def lo hi : grows (intField pre sec key def lo hi).
Proof. unfold intField. grow. Qed.
Lemma grows_bool pre sec key def : grows (boolField pre sec key def).
Proof. unfold boolField. grow. Qed.
Lemma grows_durRaw pre sec key def : grows (durRaw pre sec key def).
Proof. unfold durRaw. grow. Qed.
Hint Resolve grows_unknown grows_str grows_int grows_bool grows_durRaw : grow.
Lemma grows_dur pre sec key def lo hi : grows (durField pre sec key def lo hi).
Proof. unfold durField. grow. Qed.
Hint Resolve grows_dur : grow.
Lemma grows_listen sec def : grows (listen_of sec def).
Proof. unfold listen_of. grow. Qed.
Lemma grows_auth sec def : grows (auth_mode sec def).
Proof. unfold auth_mode. grow. Qed.
Lemma grows_basic u h a b : grows (check_basic u h a b).
Proof. unfold check_basic. grow. Qed.
Lemma grows_final def l b : grows (final_listen def l b).
Proof. unfold final_listen. grow. Qed.
Lemma grows_hosts sec : grows (allowed_hosts sec).
Proof. unfold allowed_hosts. grow. Qed.
Lemma grows_tls sec l : grows (tls sec l).
Proof. unfold tls. grow. Qed.
Hint Resolve grows_listen grows_auth grows_basic grows_final grows_hosts grows_tls : grow.
Lemma grows_web sec : grows (web sec).
Proof. unfold web. grow. Qed.
Lemma grows_pwm pre sec : grows (pwmField pre sec).
Proof. unfold pwmField. grow. Qed.
Lemma grows_sensor pre sec : grows (sensorField pre sec).
Proof. unfold sensorField. grow. Qed.
Lemma grows_curve pre sec : grows (curve pre sec).
Proof. unfold curve. grow. Qed.
Lemma grows_stop pre sec s : grows (stop pre sec s).
Proof. unfold stop, fixed_stop. grow. Qed.
Lemma grows_ceiling pre sec s : grows (ceiling pre sec s).
Proof. unfold ceiling. grow. Qed.
Hint Resolve grows_pwm grows_sensor grows_curve grows_stop grows_ceiling : grow.
Lemma grows_body pre sec n p s : grows (channel_body pre sec n p s).
Proof. unfold channel_body. grow. Qed.
Hint Resolve grows_body : grow.
Lemma grows_one i sec names pwms : grows (channel_one i sec names pwms).
Proof. unfold channel_one. grow. Qed.
Hint Resolve grows_one : grow.
Lemma grows_loop i secs names pwms out : grows (channels_loop i secs names pwms out).
Proof. revert i names pwms out. induction secs as [|sec secs IH]; intros i names pwms out; cbn [channels_loop]; grow; apply IH. Qed.
Hint Resolve grows_loop : grow.
Lemma grows_channels secs : grows (channels secs).
Proof. unfold channels. apply grows_loop. Qed.
Lemma grows_daemon sec : grows (daemon sec).
Proof. unfold daemon, interval_of. grow. Qed.
Lemma grows_log env sec : grows (log env sec).
Proof. unfold log. grow. Qed.
Lemma grows_alert sec : grows (alert sec).
Proof. unfold alert, webhook_url_of. grow. Qed.
Lemma grows_table (d : Doc Prim) name : grows (table d name).
Proof. unfold table. grow. Qed.
Hint Resolve grows_table grows_web grows_channels grows_daemon grows_log grows_alert : grow.
Lemma grows_section {A} (d : Doc Prim) name (def : A) parse : (forall sec, grows (parse sec)) -> grows (section d name def parse).
Proof. intros H. unfold section. grow. Qed.
Lemma grows_tables {A} (d : Doc Prim) name msg (parse : _ -> P (list A)) : (forall secs, grows (parse secs)) -> grows (tables d name msg parse).
Proof. intros H. unfold tables. grow. Qed.
Lemma grows_dashboard sec : grows (dashboard sec).
Proof.
  assert (Hids : forall ids out, grows (dashboard_ids ids out)) by (intros ids; induction ids as [|id ids IH]; intros out; cbn [dashboard_ids]; grow; apply IH).
  unfold dashboard. grow.
Qed.
Lemma grows_days pre days out : grows (days_loop pre days out).
Proof. revert out. induction days as [|d days IH]; intros out; cbn [days_loop]; grow; apply IH. Qed.
Hint Resolve grows_days : grow.
Lemma grows_with_days pre sec s : grows (with_days pre sec s).
Proof. unfold with_days. grow. Qed.
Hint Resolve grows_with_days : grow.
Lemma grows_schedule pre sec fb : grows (schedule_one pre sec fb).
Proof. unfold schedule_one, window_times. grow. Qed.
Hint Resolve grows_schedule : grow.
Lemma grows_schedules secs : grows (schedules secs).
Proof.
  unfold schedules. generalize 0, false, (@nil Schedule). induction secs as [|sec secs IH]; intros i fb out; cbn [schedules_loop]; grow; apply IH.
Qed.

(** A table that holds the section [web] as the encoder writes it. *)
Record carries_web sec (w : Web) : Prop := {
  cw_listen : key_is sec "listen" dec_str (w_Listen w);
  cw_auth : key_is sec "auth" dec_str (w_Auth w);
  cw_user : key_is sec "user" dec_str (w_User w);
  cw_hash : key_is sec "password_hash" dec_str (w_PasswordHash w);
  cw_hosts : if bool_decide (w_AllowedHosts w = []) then sec !! "allowed_hosts" = None else key_is sec "allowed_hosts" dec_strs (w_AllowedHosts w);
  cw_tls : key_is sec "tls" dec_str (w_TLS w);
  cw_cert : key_is sec "cert_file" dec_str (w_CertFile w);
  cw_key : key_is sec "key_file" dec_str (w_KeyFile w);
  cw_behind : key_is sec "behind_tls_proxy" dec_bool (w_BehindTLSProxy w) }.
Lemma key_str pre sec key v def : key_is sec key dec_str v -> strField pre sec key def = ret (v, true).
Proof. intros (p & H1 & H2). by eapply strField_present. Qed.
(** Read without a warning the section has the values written, trimmed and in lower case
    where the parser does that. *)
Lemma web_quiet sec w w' ws : carries_web sec w -> web sec ws = (w', ws) ->
  w' = mkWeb (TrimSpace (w_Listen w)) (enumValue (w_Auth w)) (w_User w) (w_PasswordHash w)
         (filter (fun h => h <> "") (map TrimSpace (w_AllowedHosts w))) (enumValue (w_TLS w)) (TrimSpace (w_CertFile w)) (TrimSpace (w_KeyFile w))
         (w_BehindTLSProxy w).
Proof.
  intros Hc H. unfold web in H. apply bind_quiet in H as (u & _ & H); [|grow..].
  apply bind_quiet in H as (listen & Hl & H); [|grow..].
  assert (listen = TrimSpace (w_Listen w)) as ->.
  { unfold listen_of in Hl. rewrite (key_str _ _ _ _ _ (cw_listen _ _ Hc)), ret_bind in Hl. cbv beta iota zeta in Hl.
    destruct (SplitHostPort _) as [|[? port]]; [hush Hl|]. destruct (Atoi port) as [n|]; [|hush Hl].
    destruct (_ || _); [hush Hl|]. by injection Hl. }
  apply bind_quiet in H as ([auth broken] & Ha & H); [|grow..].
  assert ((auth, broken) = (enumValue (w_Auth w), false)) as Ea.
  { unfold auth_mode in Ha. rewrite (key_str _ _ _ _ _ (cw_auth _ _ Hc)), ret_bind in Ha. cbv beta iota zeta in Ha.
    destruct (negb _ && negb _); [hush Ha|]. by injection Ha as <- <-. }
  injection Ea as -> ->. rewrite (key_str _ _ _ _ _ (cw_user _ _ Hc)), ret_bind in H. cbv beta iota zeta in H.
  rewrite (key_str _ _ _ _ _ (cw_hash _ _ Hc)), ret_bind in H. cbv beta iota zeta in H.
  apply bind_quiet in H as ([auth broken] & Hb & H); [|grow..].
  assert ((auth, broken) = (enumValue (w_Auth w), false)) as Eb.
  { unfold check_basic in Hb. cbv zeta in Hb. destruct (negb _); [by injection Hb as <- <-|]. destruct (_ || _); [hush Hb|].
    destruct (negb _); [hush Hb|]. destruct (ParsePasswordHash _) as [[f args]|]; [hush Hb|]. by injection Hb as <- <-. }
  injection Eb as -> ->. apply bind_quiet in H as (listen & Hf & H); [|grow..]. unfold final_listen in Hf. cbn [andb] in Hf. injection Hf as <-.
  apply bind_quiet in H as (hosts & Hh & H); [|grow..].
  assert (hosts = filter (fun h => h <> "") (map TrimSpace (w_AllowedHosts w))) as ->.
  { unfold allowed_hosts in Hh. pose proof (cw_hosts _ _ Hc) as Hx. case_bool_decide as E.
    - rewrite Hx in Hh. injection Hh as <-. by rewrite E.
    - destruct Hx as (p & Hp1 & Hp2). rewrite Hp1, Hp2 in Hh. by injection Hh. }
  apply bind_quiet in H as ([[mode cert] key] & Ht & H); [|grow..].
  assert ((mode, cert, key) = (enumValue (w_TLS w), TrimSpace (w_CertFile w), TrimSpace (w_KeyFile w))) as Et.
  { unfold tls in Ht. cbv zeta in Ht. rewrite (key_str _ _ _ _ _ (cw_tls _ _ Hc)), ret_bind in Ht. cbv beta iota zeta in Ht.
    rewrite (key_str _ _ _ _ _ (cw_cert _ _ Hc)), ret_bind in Ht. cbv beta iota zeta in Ht.
    rewrite (key_str _ _ _ _ _ (cw_key _ _ Hc)), ret_bind in Ht. cbv beta iota zeta in Ht.
    apply bind_quiet in Ht as (m1 & H1 & Ht); [|grow..]. assert (m1 = enumValue (w_TLS w)) as -> by (destruct (_ && _); [hush H1|by injection H1]).
    apply bind_quiet in Ht as (m2 & H2 & Ht); [|grow..]. assert (m2 = enumValue (w_TLS w)) as -> by (destruct (_ && _); [hush H2|by injection H2]).
    apply bind_quiet in Ht as (m3 & H3 & Ht); [|grow..]. assert (m3 = enumValue (w_TLS w)) as -> by (destruct (_ && _); [hush H3|by injection H3]).
    by injection Ht as <- <- <-. }
  injection Et as -> -> ->. destruct (cw_behind _ _ Hc) as (p & Hp1 & Hp2). unfold boolField in H. rewrite Hp1, Hp2, ret_bind in H.
  by injection H.
Qed.

(** A table that holds a channel as [MarshalChannels] writes it: [carries] for any values,
    a stop of digits is the integer. *)
Definition digits (s : string) : bool := negb (String.eqb s "") && forallb (fun c => between "0" "9" c) (chars s).
Record written sec (ch : Channel) : Prop := {
  wr_keys : forall k, is_Some (sec !! k) -> k ∈ channel_keys;
  wr_name : key_is sec "name" dec_str (cc_Name ch);
  wr_pwm : key_is sec "pwm" dec_int (cc_PWM ch);
  wr_sensor : key_is sec "sensor" dec_str (cc_Sensor ch);
  wr_curve : key_is sec "curve" dec_points (as_points (cc_Curve ch));
  wr_critical : key_is sec "critical" dec_int (cc_Critical ch);
  wr_stop : exists p, sec !! "stop" = Some p /\
    if digits (cc_Stop ch) then dec_str p = None /\ exists n, dec_int p = Some n /\ in_int64 n = true /\ Atoi (cc_Stop ch) = Some n else dec_str p = Some (cc_Stop ch);
  wr_hysteresis : optional_int sec "hysteresis" (cc_Hysteresis ch);
  wr_min_on : if cc_MinOn ch =? 0 then sec !! "min_on" = None
              else exists t, key_is sec "min_on" dec_str t /\ ParseDuration t = Some (cc_MinOn ch);
  wr_ceiling : optional_int sec "ceiling" (cc_Ceiling ch) }.

(** What reading makes of a stop and of a channel, without a warning. *)
Definition stop_read_as (s t : string) : Prop :=
  enumValue s = "auto" /\ t = "auto" \/ exists n, (Atoi s = Some n \/ Atoi (TrimSpace s) = Some n) /\ MinFixedStop <= n <= 255 /\ t = Itoa n.
Definition read_as (c ch : Channel) : Prop :=
  cc_Name ch = cc_Name c /\ cc_PWM ch = cc_PWM c /\ JoinSensors (Split (cc_Sensor c) ","%char) = inr (cc_Sensor ch) /\
  cc_Curve ch = cc_Curve c /\ cc_Critical ch = cc_Critical c /\ stop_read_as (cc_Stop c) (cc_Stop ch) /\
  cc_Hysteresis ch = cc_Hysteresis c /\ cc_MinOn ch = cc_MinOn c /\ cc_Ceiling ch = cc_Ceiling c /\
  cc_PostSet ch = negb (cc_Hysteresis c =? 0) || negb (cc_MinOn c =? 0).

Lemma int_quiet pre sec key def lo hi v v' ws : key_is sec key dec_int v -> intField pre sec key def lo hi ws = (v', ws) -> v' = v.
Proof. intros (p & H1 & H2) H. unfold intField in H. rewrite H1, H2 in H. destruct (_ || _); [hush H|by injection H]. Qed.
Lemma optional_quiet pre sec key lo hi v v' ws : optional_int sec key v -> intField pre sec key 0 lo hi ws = (v', ws) ->
  v' = v /\ has sec key = negb (v =? 0).
Proof.
  unfold optional_int, has. destruct (Z.eqb_spec v 0) as [->|Hn]; intros Hk H.
  - rewrite Hk. rewrite intField_absent in H by done. by injection H as <-.
  - split; [by eapply int_quiet|]. by destruct Hk as (p & -> & _).
Qed.
Lemma as_points_inj c c' : as_points c = as_points c' -> c = c'.
Proof.
  revert c'. induction c as [|[t d] c IH]; intros [|[t' d'] c']; try done. cbn. intros [= -> -> H]. f_equal. by apply IH.
Qed.
Lemma curve_quiet pre sec c c' ws : key_is sec "curve" dec_points (as_points c) -> curve pre sec ws = (c', ws) -> c' = c.
Proof.
  intros (p & H1 & H2) H. unfold curve in H. rewrite H1, H2 in H. destruct (ValidateCurve _) as [e|out] eqn:E.
  - destruct (curve_error e) as [f args]. hush H.
  - injection H as <-. apply ValidateCurve_spec in E as [E _]. symmetry. by apply as_points_inj.
Qed.
Lemma stop_quiet pre sec ch t ws id : written sec ch -> stop pre sec id ws = (t, ws) -> stop_read_as (cc_Stop ch) t.
Proof.
  intros Hw H. unfold stop in H. cbv zeta in H. destruct (wr_stop _ _ Hw) as (p & Hp & Hs). rewrite Hp in H.
  assert (Hfix : forall n ws, fixed_stop pre n ws = (t, ws) -> MinFixedStop <= n /\ t = Itoa n).
  { intros n ws0 Hf. unfold fixed_stop in Hf. destruct (Z.ltb_spec n MinFixedStop); [hush Hf|]. by injection Hf. }
  destruct (digits (cc_Stop ch)).
  - destruct Hs as (Es & n & Hn & _ & Ha). rewrite Es, Hn in H. destruct ((n <? 0) || (255 <? n)) eqn:E; [hush H|].
    apply Hfix in H as [? ->]. right. exists n. apply orb_false_iff in E. split; [by left|]. split; [lia|done].
  - rewrite Hs in H. destruct (String.eqb_spec (enumValue (cc_Stop ch)) "auto") as [E|_]; [left; by injection H as <-|].
    destruct (Atoi (TrimSpace _)) as [n|] eqn:Ea; [|hush H]. destruct ((n <? 0) || (255 <? n)) eqn:E; [hush H|].
    apply Hfix in H as [? ->]. right. exists n. apply orb_false_iff in E. split; [by right|]. split; [lia|done].
Qed.
Lemma body_quiet pre sec c sensor ch ws : written sec c -> channel_body pre sec (cc_Name c) (cc_PWM c) sensor ws = (ch, ws) ->
  JoinSensors (Split (cc_Sensor c) ","%char) = inr sensor -> read_as c ch.
Proof.
  intros Hw H Hs. unfold channel_body in H. apply bind_quiet in H as (crv & Hc & H); [|grow..]. apply curve_quiet with (c := cc_Curve c) in Hc as ->; [|apply Hw].
  cbv zeta in H. apply bind_quiet in H as (critical & Hcr & H); [|grow..]. apply int_quiet with (v := cc_Critical c) in Hcr as ->; [|apply Hw].
  apply bind_quiet in H as (u & _ & H); [|grow..]. apply bind_quiet in H as (stp & Hst & H); [|grow..]. apply (stop_quiet _ _ c) in Hst; [|done].
  apply bind_quiet in H as (hyst & Hh & H); [|grow..]. apply optional_quiet with (v := cc_Hysteresis c) in Hh as [-> E1]; [|apply Hw].
  apply bind_quiet in H as (minOn & Hm & H); [|grow..].
  assert (minOn = cc_MinOn c /\ has sec "min_on" = negb (cc_MinOn c =? 0)) as [-> E2].
  { pose proof (wr_min_on _ _ Hw) as Hx. unfold durField, durRaw, has in *. destruct (Z.eqb_spec (cc_MinOn c) 0) as [->|Hn].
    - rewrite Hx in *. rewrite ret_bind in Hm. by injection Hm as <-.
    - destruct Hx as (t & (p & Hp & Hd) & Ht). rewrite Hp, Hd, Ht, ret_bind in Hm. rewrite Hp. cbn [negb] in Hm. destruct (_ || _); [hush Hm|]. by injection Hm as <-. }
  apply bind_quiet in H as (ceil & Hce & H); [|grow..].
  assert (ceil = cc_Ceiling c) as ->.
  { pose proof (wr_ceiling _ _ Hw) as Hx. unfold optional_int, ceiling in *. destruct (Z.eqb_spec (cc_Ceiling c) 0) as [->|Hn].
    - rewrite Hx in Hce. by injection Hce as <-.
    - destruct Hx as (p & Hp & Hd). rewrite Hp, Hd in Hce. destruct (Z.eqb_spec (cc_Ceiling c) 0); [done|]. destruct (_ || _); [hush Hce|]. by injection Hce as <-. }
  injection H as <-. unfold read_as. cbn. rewrite E1, E2. by split_and!.
Qed.
Lemma one_quiet i sec names pwms c r ws : written sec c -> channel_one i sec names pwms ws = (r, ws) ->
  exists ch, r = Some ch /\ read_as c ch.
Proof.
  intros Hw H. unfold channel_one in H. cbv zeta in H. rewrite (key_str _ _ _ _ _ (wr_name _ _ Hw)), ret_bind in H. cbv beta iota in H.
  apply bind_quiet in H as (u & _ & H); [|grow..]. destruct (negb _); [hush H|]. destruct (bool_decide _); [hush H|].
  apply bind_quiet in H as (pwm & Hp & H); [|grow..].
  assert (pwm = cc_PWM c /\ pwm <> 0) as [-> Hn].
  { unfold pwmField in Hp. destruct (wr_pwm _ _ Hw) as (p & H1 & H2). rewrite H1, H2 in Hp. destruct (_ || _) eqn:E; [hush Hp|].
    injection Hp as <-. apply orb_false_iff in E. split; [done|lia]. }
  rewrite (proj2 (Z.eqb_neq _ _) Hn) in H. destruct (bool_decide _); [hush H|].
  apply bind_quiet in H as (sensor & Hs & H); [|grow..].
  assert (exists id, sensor = Some id /\ JoinSensors (Split (cc_Sensor c) ","%char) = inr id) as (id & -> & Hj).
  { unfold sensorField in Hs. destruct (wr_sensor _ _ Hw) as (p & H1 & H2). rewrite H1, H2 in Hs. cbv zeta in Hs.
    destruct (JoinSensors _) as [[f args]|id]; [hush Hs|]. injection Hs as <-. by exists id. }
  apply bind_quiet in H as (ch & Hb & H); [|grow..]. injection H as <-. exists ch. split; [done|]. by eapply body_quiet.
Qed.
Lemma channels_quiet secs cs chs ws : Forall2 written secs cs -> channels secs ws = (chs, ws) -> Forall2 read_as cs chs.
Proof.
  intros Hw H. unfold channels in H.
  enough (forall i names pwms out, channels_loop i secs names pwms out ws = (chs, ws) -> exists l, chs = out ++ l /\ Forall2 read_as cs l) as Hl
    by (by apply Hl in H as (l & -> & ?)).
  clear H. induction Hw as [|sec c secs cs Hc Hw IH]; intros i names pwms out H; cbn [channels_loop] in H.
  - exists []. injection H as <-. by rewrite app_nil_r.
  - apply bind_quiet in H as (r & H1 & H); [|grow..]. apply (one_quiet _ _ _ _ c) in H1 as (ch & -> & Hr); [|done].
    apply IH in H as (l & -> & Hl). exists (ch :: l). rewrite <- app_assoc. split; [done|by constructor].
Qed.

(** A document that holds a section, and the channels. *)
Definition doc_web (d : Doc Prim) (w : Web) : Prop := exists prim sec,
  doc_top d !! "web" = Some prim /\ doc_type d "web" = "Hash" /\ dec_table prim = Some sec /\ carries_web sec w.
Definition doc_channels (d : Doc Prim) (chans : list Channel) : Prop := chans <> [] -> exists prim secs,
  doc_top d !! "channel" = Some prim /\ doc_type d "channel" = "ArrayHash" /\ dec_tables prim = Some secs /\ Forall2 written secs chans.
Hint Resolve grows_section grows_tables grows_dashboard grows_schedules : grow.
(** The section as it reads. *)
Definition web_as_read (w : Web) : Web :=
  mkWeb (TrimSpace (w_Listen w)) (enumValue (w_Auth w)) (w_User w) (w_PasswordHash w) (filter (fun h => h <> "") (map TrimSpace (w_AllowedHosts w)))
    (enumValue (w_TLS w)) (TrimSpace (w_CertFile w)) (TrimSpace (w_KeyFile w)) (w_BehindTLSProxy w).
Lemma parse_quiet env d cfg ws : parse_doc env d ws = (cfg, ws) ->
  section d "web" DefaultWeb web ws = (c_Web cfg, ws) /\ exists msg, tables d "channel" msg channels ws = (c_Channels cfg, ws).
Proof.
  intros H. unfold parse_doc in H. apply bind_quiet in H as (u & _ & H); [|grow..].
  apply bind_quiet in H as (dm & _ & H); [|grow..]. apply bind_quiet in H as (wb & Hw & H); [|grow..].
  apply bind_quiet in H as (lg & _ & H); [|grow..]. apply bind_quiet in H as (al & _ & H); [|grow..].
  apply bind_quiet in H as (db & _ & H); [|grow..]. apply bind_quiet in H as (chans & Hc & H); [|grow..].
  apply bind_quiet in H as (scheds & _ & H); [|grow..]. injection H as <-. cbn. split; [exact Hw|]. by eexists.
Qed.
Lemma doc_web_read env d w cfg ws : doc_web d w -> parse_doc env d ws = (cfg, ws) -> c_Web cfg = web_as_read w.
Proof.
  intros (prim & sec & H1 & H2 & H3 & Hc) H. apply parse_quiet in H as [H _].
  unfold section, table in H. rewrite H1, H2, H3 in H. cbn [negb andb String.eqb Ascii.eqb Bool.eqb] in H. rewrite ret_bind in H. by apply (web_quiet _ w) in H.
Qed.
Lemma doc_channels_read env d chans cfg ws : chans <> [] -> doc_channels d chans -> parse_doc env d ws = (cfg, ws) -> Forall2 read_as chans (c_Channels cfg).
Proof.
  intros Hne Hd H. destruct (Hd Hne) as (prim & secs & H1 & H2 & H3 & Hc). apply parse_quiet in H as [_ [msg H]].
  unfold tables in H. rewrite H1, H2, H3 in H. cbn [negb String.eqb Ascii.eqb Bool.eqb] in H. by eapply channels_quiet.
Qed.
(** Channels that were read are written so that they are carried. *)
Lemma digits_Itoa n : 0 <= n -> digits (Itoa n) = true.
Proof.
  intros Hn. unfold digits, Itoa. rewrite (proj2 (Z.ltb_ge _ _) Hn), chars_of_chars. unfold itoa_chars.
  destruct (udigits_shape (Z.to_nat (Z.log2 n)) n []) as (d & t & _ & E). rewrite E at 1. cbn [andb negb String.eqb of_chars].
  apply forallb_forall, List.Forall_forall, udigits_Forall; [|constructor].
  intros k Hk. assert (Hin : k ∈ seqZ 0 10) by (apply elem_of_seqZ; lia). clear Hk. revert k Hin. apply Forall_forall. by repeat constructor.
Qed.
Lemma written_carries sec ch : written sec ch -> cc_PostSet ch = negb (cc_Hysteresis ch =? 0) || negb (cc_MinOn ch =? 0) ->
  (cc_Stop ch = "auto" \/ exists n, MinFixedStop <= n <= 255 /\ cc_Stop ch = Itoa n) -> carries sec ch.
Proof.
  intros Hw Hps Hs. destruct Hw as [K1 K2 K3 K4 K5 K6 (p & Hp & Hst) K8 K9 K10]. split; try done. exists p. split; [done|].
  destruct Hs as [E|(n & Hn & E)]; rewrite E in *.
  - left. split; [done|]. exact Hst.
  - right. exists n. rewrite digits_Itoa in Hst by (unfold MinFixedStop in Hn; lia). destruct Hst as (H1 & n' & H2 & H3 & H4).
    assert (in_int64 n = true) as Hi by (unfold in_int64, MinFixedStop in *; lia). rewrite Atoi_Itoa in H4 by done. injection H4 as <-. by split_and!.
Qed.
Lemma written_again chans env d cfg ws ws' : channels_ok chans -> Forall (fun ch => cc_PostSet ch = negb (cc_Hysteresis ch =? 0) || negb (cc_MinOn ch =? 0)) chans ->
  chans <> [] -> doc_channels d chans -> parse_doc env d ws = (cfg, ws') -> c_Channels cfg = chans.
Proof.
  intros Hok Hps Hne Hd H. destruct (Hd Hne) as (prim & secs & H1 & H2 & H3 & Hw).
  assert (Hc : Forall2 carries secs chans).
  { destruct Hok as (Hv & _ & _). clear -Hw Hps Hv. induction Hw as [|sec ch secs chans Hw _ IH]; [constructor|].
    apply Forall_cons in Hps as [? ?], Hv as [Hv ?]. constructor; [|by apply IH]. apply written_carries; [done..|]. apply Hv. }
  assert (Ht : forall msg ws0, (tables d "channel" msg channels ws0).1 = chans).
  { intros msg ws0. unfold tables. rewrite H1, H2, H3. cbn [negb String.eqb Ascii.eqb Bool.eqb]. by rewrite (channels_read secs chans). }
  unfold parse_doc, bind, ret in H. destruct (iterM _ _ _) as [u w0], (section d "daemon" _ _ _) as [dm w1], (section d "web" _ _ _) as [wb w2],
    (section d "log" _ _ _) as [lg w3], (section d "alert" _ _ _) as [al w4], (section d "dashboard" _ _ _) as [db w5].
  match type of H with context [tables d "channel" ?m _ _] => specialize (Ht m w5) end. destruct (tables d "channel" _ _ _) as [chans' w6].
  destruct (tables d "schedule" _ _ _) as [sc w7]. injection H as <- _. exact Ht.
Qed.
End Quiet.

(** The channel "hdd" of the built-in set with post-processing and a lowered
    ceiling, and its table. *)
Definition demo_channel : Channel :=
  mkChannel "hdd" 3 "drivetemp:max,disk:sda" [(30, 87); (55, 255)] 60 "140" 2 (30 * Second) 60 true.
Definition demo_table : gmap string Demo.value := demo_section
  [("name", Demo.VStr "hdd"); ("pwm", Demo.VInt 3); ("sensor", Demo.VStr "drivetemp:max,disk:sda");
   ("curve", Demo.VArr [Demo.VArr [Demo.VInt 30; Demo.VInt 87]; Demo.VArr [Demo.VInt 55; Demo.VInt 255]]);
   ("critical", Demo.VInt 60); ("stop", Demo.VInt 140); ("hysteresis", Demo.VInt 2);
   ("min_on", Demo.VStr "30s"); ("ceiling", Demo.VInt 60)].

Lemma demo_carries : carries demo_table demo_channel.
Proof.
  assert (Hk : map_Forall (fun k _ => k ∈ channel_keys) demo_table) by (by apply (bool_decide_unpack _); vm_compute).
  split.
  - intros k [v Hv]. by eapply Hk.
  - by exists (Demo.VStr "hdd").
  - by exists (Demo.VInt 3).
  - by exists (Demo.VStr "drivetemp:max,disk:sda").
  - by exists (Demo.VArr [Demo.VArr [Demo.VInt 30; Demo.VInt 87]; Demo.VArr [Demo.VInt 55; Demo.VInt 255]]).
  - by exists (Demo.VInt 60).
  - exists (Demo.VInt 140). split; [done|]. right. by exists 140.
  - by exists (Demo.VInt 2).
  - exists "30s". split; [by exists (Demo.VStr "30s")|by vm_compute].
  - by exists (Demo.VInt 60).
  - done.
Qed.
Lemma demo_valid : channels_ok [demo_channel].
Proof.
  split_and!; [|apply NoDup_singleton|apply NoDup_singleton]. constructor; [|done].
  unfold channel_valid. split_and!; try by vm_compute.
  - exists ["drivetemp:max"; "disk:sda"]. split_and!; [done|done|done| |].
    + apply (bool_decide_unpack _). by vm_compute.
    + repeat constructor; try done; [by exists "drivetemp:max"|by exists "disk:sda"].
  - right. by exists 140.
  - right. by vm_compute.
Qed.

Theorem channels_roundtrip_witness : channels [demo_table] [] = ([demo_channel], []).
Proof.
  apply (channels_roundtrip [demo_table] [demo_channel] []); [|apply demo_valid].
  constructor; [apply demo_carries|constructor].
Defined.

(** ** Durations in seconds *)
Section Durations.
Context {Prim : Type} `{!Toml Prim}.
Implicit Types (sec : gmap string Prim).

(** An integer duration is a number of seconds, multiplied in 64 bits: within
    292 years the interval is the default below two seconds, half a minute above
    half a minute and the value in between; but the product wraps every 2^55
    seconds, so a huge value can come back as any interval, unreported. *)
Theorem interval_seconds sec prim n : sec !! "interval" = Some prim -> dec_str prim = None -> dec_int prim = Some n ->
  (- 2 ^ 33 <= n <= 2 ^ 33 ->
   forall ws, (interval_of sec DefaultDaemon ws).1 =
     (if n <? 2 then d_Interval DefaultDaemon else if 30 <? n then MaxInterval else n * Second)) /\
  (forall k s, n = s + k * 2 ^ 55 -> 2 <= s <= 30 ->
   forall ws, interval_of sec DefaultDaemon ws = (s * Second, ws)).
Proof.
  intros Hs Hd Hi. assert (Hr : forall ws, durRaw "daemon" sec "interval" (d_Interval DefaultDaemon) ws =
                                ((wrap64 (n * Second), true), ws)).
  { intros ws. unfold durRaw. by rewrite Hs, Hd, Hi. }
  split.
  - intros Hn ws. unfold interval_of, bind at 1. cbv zeta. rewrite Hr. cbn [negb].
    rewrite wrap64_id by (unfold in_int64, Second; lia). unfold MinInterval, MaxInterval, Second.
    destruct (Z.ltb_spec n 2).
    + by assert (n * (1000 * 1000 * 1000) <? 2 * (1000 * 1000 * 1000) = true) as -> by lia.
    + assert (n * (1000 * 1000 * 1000) <? 2 * (1000 * 1000 * 1000) = false) as -> by lia.
      destruct (Z.ltb_spec 30 n).
      * by assert (30 * (1000 * 1000 * 1000) <? n * (1000 * 1000 * 1000) = true) as -> by lia.
      * by assert (30 * (1000 * 1000 * 1000) <? n * (1000 * 1000 * 1000) = false) as -> by lia.
  - intros k s Hn Hk ws. unfold interval_of, bind at 1. cbv zeta. rewrite Hr. cbn [negb].
    assert (wrap64 (n * Second) = s * Second) as ->.
    { unfold wrap64, two64, Second. subst n.
      replace ((s + k * 2 ^ 55) * (1000 * 1000 * 1000) + 2 ^ 63)
        with (s * (1000 * 1000 * 1000) + 2 ^ 63 + (k * 1953125) * 2 ^ 64) by lia.
      rewrite Z_mod_plus_full, Z.mod_small by lia. lia. }
    unfold MinInterval, MaxInterval, Second.
    assert (s * (1000 * 1000 * 1000) <? 2 * (1000 * 1000 * 1000) = false) as -> by lia.
    by assert (30 * (1000 * 1000 * 1000) <? s * (1000 * 1000 * 1000) = false) as -> by lia.
Qed.
End Durations.

Theorem interval_seconds_witness :
  let sec := demo_section [("interval", Demo.VInt (10 + 2 ^ 55))] in
  interval_of sec DefaultDaemon [] = (10 * Second, []).
Proof.
  intros sec. apply (interval_seconds sec (Demo.VInt (10 + 2 ^ 55)) (10 + 2 ^ 55)) with (k := 1);
    [by vm_compute|done|done|done|lia].
Defined.
