(* ===== verification/ConfigEdit.v ===== *)
(** Editing the text of the configuration file in place
    (src/internal/config/file.go: SetKey, ReplaceChannels).

    Both work on the lines of the text.  The tables ReplaceChannels inserts are the
    output of the TOML encoder, an argument. *)
From stdpp Require Import base gmap strings list.
From Stdlib Require Import ZArith Lia Ascii.
From S2P Require Import Prelude GoLib GoNet GoPath.
Open Scope Z_scope.

(** ** Lines *)
Definition nl : ascii := "010"%char.
Definition lines_of (text : string) : list string :=
  if String.eqb text "" then [] else Split (TrimSuffix text newline) nl.
Definition join (ls : list string) : string := String.append (Join ls newline) newline.
Definition blank (ln : string) : bool := String.eqb (TrimSpace ln) "".

Definition assignedKey (line : string) : string :=
  let t := TrimSpace line in
  if String.eqb t "" || HasPrefix t "#" then ""
  else match Cut t "=" with None => "" | Some (k, _) => TrimSpace k end.
Definition tableHeader (line : string) : option string :=
  let t := TrimSpace line in
  if negb (HasPrefix t "[") then None
  else if HasPrefix t "[[" then
    match Index t "]]" with None => None | Some end_ => Some (TrimSpace (slice t 2 end_)) end
  else match Index t "]" with None => None | Some end_ => Some (TrimSpace (slice t 1 end_)) end.

(** ** SetKey *)
Definition table_header (section : string) : string := String.append "[" (String.append section "]").
Definition dotted_key (section key : string) : string := String.append section (String.append "." key).
Definition assign (key value : string) : string := String.append key (String.append " = " value).
Definition bracket (ln : string) : bool := HasPrefix (TrimSpace ln) "[".
(** The header, then nothing, a space or a comment. *)
Definition is_header (header ln : string) : bool :=
  let t := TrimSpace ln in
  HasPrefix t header &&
  match chars (TrimPrefix t header) with [] => true | c :: _ => is_char c " " || is_char c "#" end.

(** The line of the section's header, the line its body ends at, the first line
    of any table; [n] is the number of lines. *)
Fixpoint scan (header : string) (n i : nat) (lines : list string) (start : option nat) (first : nat)
  : option nat * nat * nat :=
  match lines with
  | [] => (start, n, first)
  | ln :: lines' =>
      if negb (bracket ln) then scan header n (S i) lines' start first
      else
        let first := if Nat.eqb first n then i else first in
        match start with
        | Some _ => (start, i, first)
        | None => scan header n (S i) lines' (if is_header header ln then Some i else None) first
        end
  end.
(** The top-level lines: the one that assigns the dotted key, or the last one of
    the section. *)
Fixpoint dotted_loop (dotted prefix : string) (i : nat) (top : list string) (last : option nat) : nat + option nat :=
  match top with
  | [] => inr last
  | ln :: top' =>
      let k := assignedKey ln in
      if String.eqb k dotted then inl i
      else dotted_loop dotted prefix (S i) top' (if HasPrefix k prefix then Some i else last)
  end.
Fixpoint key_loop (key : string) (i : nat) (body : list string) : option nat :=
  match body with
  | [] => None
  | ln :: body' => if String.eqb (assignedKey ln) key then Some i else key_loop key (S i) body'
  end.
(** Back over the blank lines before [ins], down to [lo]. *)
Fixpoint ins_loop (lo : nat) (lines : list string) (ins : nat) : nat :=
  match ins with
  | O => O
  | S j => if Nat.ltb lo ins && blank (nth j lines "") then ins_loop lo lines j else ins
  end.
Definition insertAt (lines : list string) (i : nat) (line : string) : string :=
  join (take i lines ++ line :: drop i lines).

Definition SetKey (raw section key value : string) : string :=
  let lines := lines_of raw in
  let header := table_header section in
  let '(start, end_, first) := scan header (length lines) 0 lines None (length lines) in
  let newLine := assign key value in
  match start with
  | None =>
      let dotted := dotted_key section key in
      let line := assign dotted value in
      match dotted_loop dotted (String.append section ".") 0 (take first lines) None with
      | inl i => join (<[i := line]> lines)
      | inr (Some last) => insertAt lines (S last) line
      | inr None =>
          let out := match rev lines with
                     | ln :: _ => if negb (blank ln) then lines ++ [""] else lines
                     | [] => lines
                     end in
          join (out ++ [header; newLine])
      end
  | Some start =>
      let body := take (end_ - S start) (drop (S start) lines) in
      match key_loop key (S start) body with
      | Some i => join (<[i := newLine]> lines)
      | None => insertAt lines (ins_loop (S start) lines end_) newLine
      end
  end.

(** ** ReplaceChannels *)

(** The open block, if any: its header line and its last key line. *)
Record blocks := mkBlocks { b_removed : list bool; b_first : option nat; b_open : option (nat * nat) }.
Definition set_range (a b : nat) (l : list bool) : list bool :=
  imap (fun i r => r || ((a <=? i)%nat && (i <=? b)%nat)) l.
Definition closeBlock (st : blocks) : blocks :=
  match b_open st with
  | None => st
  | Some (start, last) =>
      mkBlocks (set_range start last (b_removed st))
        (match b_first st with None => Some start | f => f end) None
  end.
Definition set_open (o : nat * nat) (st : blocks) : blocks := mkBlocks (b_removed st) (b_first st) (Some o).
Definition scan_line (i : nat) (ln : string) (st : blocks) : blocks :=
  match tableHeader ln with
  | Some name =>
      if String.eqb name "channel" then set_open (i, i) (closeBlock st)
      else if HasPrefix name "channel." then
        set_open (match b_open st with None => i | Some (start, _) => start end, i) st
      else closeBlock st
  | None =>
      match b_open st with
      | None => st
      | Some (start, last) =>
          let t := TrimSpace ln in
          if negb (String.eqb t "") && negb (HasPrefix t "#") then set_open (start, i) st else st
      end
  end.
Fixpoint scan_lines (i : nat) (lines : list string) (st : blocks) : blocks :=
  match lines with [] => st | ln :: lines' => scan_lines (S i) lines' (scan_line i ln st) end.
Definition channel_blocks (lines : list string) : blocks :=
  closeBlock (scan_lines 0 lines (mkBlocks (replicate (length lines) false) None None)).
(** Pass 2: what stays, and [body] in front of line [first]. *)
Fixpoint splice (i : nat) (lines : list string) (removed : list bool) (first : option nat) (body : string) : list string :=
  match lines, removed with
  | ln :: lines', r :: removed' =>
      (if bool_decide (first = Some i) then [body] else []) ++ (if r then [] else [ln]) ++
      splice (S i) lines' removed' first body
  | _, _ => []
  end.
(** [marshaled] is [MarshalChannels(chans)]. *)
Definition ReplaceChannels (raw marshaled : string) : string :=
  let lines := lines_of raw in
  let st := channel_blocks lines in
  let body := TrimSuffix marshaled newline in
  let out := splice 0 lines (b_removed st) (b_first st) body in
  let out := match b_first st with
             | Some _ => out
             | None =>
                 (match rev out with
                  | ln :: _ => if negb (blank ln) then out ++ [""] else out
                  | [] => out
                  end) ++ [body]
             end in
  join out.

(** *** Examples *)
Definition text (ls : list string) : string := join ls.
Example SetKey_ex :
  SetKey (text ["[web]"; "listen = 1 # old"; ""; "[alert]"]) "web" "user" "2"
    = text ["[web]"; "listen = 1 # old"; "user = 2"; ""; "[alert]"] /\
  SetKey (text ["[web]"; "listen = 1 # old"; ""; "[alert]"]) "web" "listen" "2" = text ["[web]"; "listen = 2"; ""; "[alert]"] /\
  SetKey (text ["web.user = 1"; "x = 2"; "[alert]"]) "web" "listen" "2" = text ["web.user = 1"; "web.listen = 2"; "x = 2"; "[alert]"] /\
  SetKey (text ["[alert]"; "x = 1"]) "web" "listen" "2" = text ["[alert]"; "x = 1"; ""; "[web]"; "listen = 2"] /\
  SetKey "" "web" "listen" "2" = text ["[web]"; "listen = 2"].
Proof. by vm_compute. Qed.
Definition two_tables : string := text ["[[channel]]"; "name = 1"; ""; "[[channel]]"; "name = 2"].
Example Replace_ex :
  ReplaceChannels (text ["[a]"; "# fans"; "[[channel]]"; "name = 0"; "# more"; "[channel.x]"; "y = 1"; ""; "# s"; "[[schedule]]"]) two_tables
    = text ["[a]"; "# fans"; "[[channel]]"; "name = 1"; ""; "[[channel]]"; "name = 2"; ""; "# s"; "[[schedule]]"].
Proof. by vm_compute. Qed.

(** ** What SetKey does to the lines

    The text as a list of top-level lines followed by tables: [top] and [rest];
    [section_body] finds the body of a table. *)
Fixpoint top (l : list string) : list string :=
  match l with ln :: l' => if bracket ln then [] else ln :: top l' | [] => [] end.
Fixpoint rest (l : list string) : list string :=
  match l with ln :: l' => if bracket ln then l else rest l' | [] => [] end.
Definition opens (h ln : string) : bool := bracket ln && is_header h ln.
Fixpoint section_body (h : string) (l : list string) : option (list string) :=
  match l with
  | [] => None
  | ln :: l' => if opens h ln then Some (top l') else section_body h l'
  end.
Definition has_key (k ln : string) : bool := String.eqb (assignedKey ln) k.
Fixpoint key_index (k : string) (b : list string) : option nat :=
  match b with
  | [] => None
  | ln :: b' => if has_key k ln then Some 0%nat else option_map S (key_index k b')
  end.
(** The body without its trailing blank lines. *)
Fixpoint trimmed (b : list string) : nat :=
  match b with [] => 0%nat | ln :: b' => match trimmed b' with O => if blank ln then 0%nat else 1%nat | n => S n end end.
Definition put (k line : string) (b : list string) : list string :=
  match key_index k b with
  | Some j => <[j := line]> b
  | None => take (trimmed b) b ++ line :: drop (trimmed b) b
  end.

Lemma top_rest l : top l ++ rest l = l.
Proof. induction l as [|ln l IH]; [done|]. cbn. destruct (bracket ln); [done|]. cbn. by rewrite IH. Qed.
Lemma top_plain l : Forall (fun ln => bracket ln = false) (top l).
Proof. induction l as [|ln l IH]; cbn; [constructor|]. destruct (bracket ln) eqn:E; by constructor. Qed.
Lemma rest_head l : match rest l with [] => True | ln :: _ => bracket ln = true end.
Proof. induction l as [|ln l IH]; cbn; [done|]. by destruct (bracket ln) eqn:E. Qed.
Lemma top_app l l' : Forall (fun ln => bracket ln = false) l -> top (l ++ l') = l ++ top l'.
Proof. induction 1 as [|ln l H _ IH]; [done|]. cbn. by rewrite H, IH. Qed.
Lemma top_head l : match l with [] => True | ln :: _ => bracket ln = true end -> top l = [].
Proof. destruct l as [|ln l]; [done|]. cbn. by intros ->. Qed.

Lemma scan_started h n i l s f : n = (i + length l)%nat ->
  exists f', scan h n i l (Some s) f = (Some s, (i + length (top l))%nat, f').
Proof.
  revert i. induction l as [|ln l IH]; intros i Hn; cbn [scan top].
  - exists f. by rewrite Nat.add_0_r, Hn, Nat.add_0_r.
  - destruct (bracket ln); cbn [negb].
    + rewrite Nat.add_0_r. eauto.
    + destruct (IH (S i)) as [f' ->]; [cbn in Hn; lia|]. exists f'. f_equal. f_equal. cbn. lia.
Qed.
Lemma scan_unstarted h n i l f : n = (i + length l)%nat -> section_body h l = None ->
  exists e, scan h n i l None f = (None, e, if Nat.eqb f n then (i + length (top l))%nat else f).
Proof.
  revert i f. induction l as [|ln l IH]; intros i f Hn Hb; cbn [scan top].
  - exists n. cbn in *. do 2 f_equal. destruct (Nat.eqb_spec f n); lia.
  - cbn in Hb. unfold opens in Hb. cbn in Hn. destruct (bracket ln); cbn [negb andb] in *.
    + destruct (is_header h ln); [done|]. destruct (IH (S i) (if Nat.eqb f n then i else f)) as [e He]; [lia|done|].
      exists e. rewrite He. f_equal. cbn. rewrite Nat.add_0_r. destruct (Nat.eqb_spec f n); [|by destruct (Nat.eqb_spec f n)].
      destruct (Nat.eqb_spec i n); [lia|done].
    + destruct (IH (S i) f) as [e He]; [lia|done|]. exists e. rewrite He. f_equal. destruct (Nat.eqb f n); [cbn; lia|done].
Qed.
Lemma section_split h l b : section_body h l = Some b ->
  exists pre hdr, l = pre ++ hdr :: b ++ rest (drop (S (length pre)) l) /\ opens h hdr = true /\ section_body h pre = None /\
    b = top (drop (S (length pre)) l).
Proof.
  induction l as [|ln l IH]; [done|]. cbn [section_body]. destruct (opens h ln) eqn:E.
  - intros [= <-]. exists [], ln. cbn. by rewrite drop_0, top_rest.
  - intros H. destruct (IH H) as (pre & hdr & Hl & Ho & Hp & Hb). exists (ln :: pre), hdr.
    cbn [length drop app section_body]. rewrite E. repeat split; [|done|done|done]. by rewrite <- Hl.
Qed.
Lemma scan_found h n i l f pre hdr tl : n = (i + length l)%nat -> l = pre ++ hdr :: tl ->
  opens h hdr = true -> section_body h pre = None ->
  exists f', scan h n i l None f = (Some (i + length pre)%nat, (i + length pre + 1 + length (top tl))%nat, f').
Proof.
  intros Hn -> Ho. revert i f Hn. induction pre as [|ln pre IH]; intros i f Hn Hp; cbn [scan app length].
  - unfold opens in Ho. apply andb_true_iff in Ho as [-> ->]. cbn [negb].
    cbn in Hn. destruct (scan_started h n (S i) tl i (if Nat.eqb f n then i else f)) as [f' ->]; [lia|].
    exists f'. rewrite Nat.add_0_r. do 2 f_equal. lia.
  - cbn in Hp, Hn. unfold opens in Hp. destruct (bracket ln); cbn [negb andb] in *.
    + destruct (is_header h ln); [done|]. destruct (IH (S i) (if Nat.eqb f n then i else f)) as [f' ->]; [lia|done|].
      exists f'. do 2 f_equal; [f_equal|]; lia.
    + destruct (IH (S i) f) as [f' ->]; [lia|done|]. exists f'. do 2 f_equal; [f_equal|]; lia.
Qed.

Lemma key_loop_index k i b : key_loop k i b = option_map (fun j => (i + j)%nat) (key_index k b).
Proof.
  revert i. induction b as [|ln b IH]; intros i; [done|]. cbn. change (String.eqb (assignedKey ln) k) with (has_key k ln).
  destruct (has_key k ln); cbn; [by rewrite Nat.add_0_r|]. rewrite IH. destruct (key_index k b); cbn; [f_equal; lia|done].
Qed.
Lemma key_index_lt k b j : key_index k b = Some j -> (j < length b)%nat.
Proof.
  revert j. induction b as [|ln b IH]; intros j; [done|]. cbn. destruct (has_key k ln); [intros [= <-]; lia|].
  destruct (key_index k b) as [j'|]; [|done]. intros [= <-]. specialize (IH j' eq_refl). lia.
Qed.
Lemma trimmed_le b : (trimmed b <= length b)%nat.
Proof. induction b as [|ln b IH]; cbn; [lia|]. destruct (trimmed b); [destruct (blank ln); lia|lia]. Qed.
Lemma trimmed_snoc b ln : trimmed (b ++ [ln]) = if blank ln then trimmed b else S (length b).
Proof.
  induction b as [|c b IH]; cbn; [by destruct (blank ln)|]. rewrite IH. by destruct (blank ln).
Qed.
Lemma ins_loop_trimmed p b q : ins_loop (length p) (p ++ b ++ q) (length p + length b)%nat = (length p + trimmed b)%nat.
Proof.
  revert q. induction b as [|ln b IH] using rev_ind; intros q.
  - cbn. rewrite Nat.add_0_r. destruct (length p) as [|n] eqn:E; [done|]. cbn [ins_loop].
    by rewrite (proj2 (Nat.ltb_ge _ _)) by lia.
  - rewrite length_app, trimmed_snoc. cbn [length].
    replace (length p + (length b + 1))%nat with (S (length p + length b)) by lia. cbn [ins_loop].
    rewrite (proj2 (Nat.ltb_lt _ _)) by lia. cbn [andb].
    assert (nth (length p + length b) (p ++ (b ++ [ln]) ++ q) "" = ln) as ->.
    { rewrite app_nth2 by lia. replace (length p + length b - length p)%nat with (length b) by lia.
      rewrite <- app_assoc. rewrite app_nth2 by lia. by rewrite Nat.sub_diag. }
    destruct (blank ln); [|lia]. rewrite <- (IH ([ln] ++ q)). by rewrite <- app_assoc.
Qed.

(** Top-level lines of a section: replaced, or added after the last one. *)
Fixpoint last_with (prefix : string) (b : list string) : option nat :=
  match b with
  | [] => None
  | ln :: b' => match last_with prefix b' with
                | Some j => Some (S j)
                | None => if HasPrefix (assignedKey ln) prefix then Some 0%nat else None
                end
  end.
Definition put_dotted (k prefix line : string) (b : list string) : option (list string) :=
  match key_index k b with
  | Some j => Some (<[j := line]> b)
  | None => match last_with prefix b with
            | Some j => Some (take (S j) b ++ line :: drop (S j) b)
            | None => None
            end
  end.
Lemma dotted_loop_spec k prefix i b lst : dotted_loop k prefix i b lst =
  match key_index k b with
  | Some j => inl (i + j)%nat
  | None => inr (match last_with prefix b with Some j => Some (i + j)%nat | None => lst end)
  end.
Proof.
  revert i lst. induction b as [|ln b IH]; intros i lst; [done|]. cbn.
  change (String.eqb (assignedKey ln) k) with (has_key k ln).
  destruct (has_key k ln); [f_equal; lia|]. rewrite IH. destruct (key_index k b); cbn; [f_equal; lia|].
  f_equal. destruct (last_with prefix b); [f_equal; lia|]. by destruct (HasPrefix _ _); [rewrite Nat.add_0_r|].
Qed.
Lemma last_with_lt p b j : last_with p b = Some j -> (j < length b)%nat.
Proof.
  revert j. induction b as [|ln b IH]; intros j; [done|]. cbn. destruct (last_with p b) as [j'|].
  - intros [= <-]. specialize (IH j' eq_refl). lia.
  - destruct (HasPrefix _ _); [|done]. intros [= <-]. lia.
Qed.

(** The edited lines. *)
Fixpoint in_section (h : string) (f : list string -> list string) (l : list string) : option (list string) :=
  match l with
  | [] => None
  | ln :: l' => if opens h ln then Some (ln :: f (top l') ++ rest l') else option_map (cons ln) (in_section h f l')
  end.
Definition spaced (l : list string) : list string :=
  match rev l with ln :: _ => if blank ln then l else l ++ [""] | [] => l end.
Definition set_lines (section key value : string) (l : list string) : list string :=
  let k := dotted_key section key in
  match in_section (table_header section) (put key (assign key value)) l with
  | Some l' => l'
  | None =>
      match put_dotted k (String.append section ".") (assign k value) (top l) with
      | Some t => t ++ rest l
      | None => spaced l ++ [table_header section; assign key value]
      end
  end.

Lemma in_section_none h f l : section_body h l = None -> in_section h f l = None.
Proof. induction l as [|ln l IH]; [done|]. cbn. destruct (opens h ln); [done|]. intros H. by rewrite IH. Qed.
Lemma in_section_found h f pre hdr tl : opens h hdr = true -> section_body h pre = None ->
  in_section h f (pre ++ hdr :: tl) = Some (pre ++ hdr :: f (top tl) ++ rest tl).
Proof.
  intros Ho. induction pre as [|ln pre IH]; cbn; [by rewrite Ho|]. destruct (opens h ln); [done|]. intros H. by rewrite IH.
Qed.
Lemma insert_mid (p b q : list string) j x : (j < length b)%nat ->
  <[(length p + j)%nat := x]> (p ++ b ++ q) = p ++ <[j := x]> b ++ q.
Proof.
  intros Hj. rewrite insert_app_r. by rewrite insert_app_l.
Qed.
Lemma take_drop_mid (p b q : list string) j x : (j <= length b)%nat ->
  take (length p + j) (p ++ b ++ q) ++ x :: drop (length p + j) (p ++ b ++ q) = p ++ (take j b ++ x :: drop j b) ++ q.
Proof.
  intros Hj. rewrite take_app_add, drop_app_add, take_app_le, drop_app_le by done. by rewrite <- !app_assoc.
Qed.

Lemma SetKey_lines raw section key value :
  SetKey raw section key value = join (set_lines section key value (lines_of raw)).
Proof.
  unfold SetKey, set_lines. set (l := lines_of raw). clearbody l. set (h := table_header section).
  destruct (section_body h l) as [b|] eqn:Hb.
  - destruct (section_split h l b Hb) as (pre & hdr & Hl & Ho & Hp & Hbt). set (tl := drop (S (length pre)) l) in *.
    assert (Hl' : l = pre ++ hdr :: tl) by (by rewrite Hl, Hbt, top_rest).
    destruct (scan_found h (length l) 0 l (length l) pre hdr tl eq_refl Hl' Ho Hp) as [f' ->].
    assert (Hin : forall f, in_section h f l = Some (pre ++ hdr :: f b ++ rest tl)).
    { intros f. rewrite Hl' at 1. rewrite in_section_found by done. by rewrite <- Hbt. }
    rewrite Hin, <- Hbt. cbn [Nat.add].
    assert (Hd : drop (S (length pre)) l = b ++ rest tl) by (fold tl; by rewrite Hbt, top_rest).
    rewrite Hd. rewrite (take_app_length' b) by lia.
    rewrite key_loop_index. unfold put. set (hd := pre ++ [hdr]).
    assert (Hlen : S (length pre) = length hd) by (unfold hd; rewrite length_app; cbn; lia).
    assert (Hll : l = hd ++ b ++ rest tl) by (unfold hd; rewrite Hl', Hbt, top_rest, <- app_assoc; done).
    assert (Hre : forall c, pre ++ hdr :: c = hd ++ c) by (intros; unfold hd; by rewrite <- app_assoc).
    rewrite Hre, Hlen.
    destruct (key_index key b) as [j|] eqn:Hj; cbn [option_map].
    + rewrite Hll. rewrite insert_mid by by eapply key_index_lt. done.
    + unfold insertAt. replace (length pre + 1 + length b)%nat with (length hd + length b)%nat by lia.
      rewrite Hll, ins_loop_trimmed, take_drop_mid by apply trimmed_le. done.
  - destruct (scan_unstarted h (length l) 0 l (length l) eq_refl Hb) as [e ->]. rewrite Nat.eqb_refl. cbn [Nat.add].
    rewrite in_section_none by done.
    assert (take (length (top l)) l = top l) as ->.
    { rewrite <- (top_rest l) at 2. by rewrite take_app_length. }
    rewrite dotted_loop_spec. cbn [Nat.add]. unfold put_dotted.
    destruct (key_index _ (top l)) as [j|] eqn:Hj.
    + rewrite <- (top_rest l) at 1. rewrite insert_app_l by by eapply key_index_lt. done.
    + destruct (last_with _ (top l)) as [j|] eqn:Hlw.
      * unfold insertAt. pose proof (last_with_lt _ _ _ Hlw) as Hlt. rewrite <- (top_rest l) at 1 2.
        rewrite take_app_le, drop_app_le by lia. by rewrite <- app_assoc.
      * unfold spaced. destruct (rev l) as [|ln r]; [done|]. by destruct (blank ln).
Qed.

(** ** Reading a key back

    The value a line-wise reader finds for [key] of [section]. *)
Definition value_text (ln : string) : string :=
  match Cut (TrimSpace ln) "=" with Some (_, v) => TrimSpace v | None => "" end.
Fixpoint value_in (k : string) (b : list string) : option string :=
  match b with [] => None | ln :: b' => if has_key k ln then Some (value_text ln) else value_in k b' end.
Definition lookup (l : list string) (section key : string) : option string :=
  match section_body (table_header section) l with
  | Some b => value_in key b
  | None => value_in (dotted_key section key) (top l)
  end.

(** Bare TOML keys, also joined by dots; values on one line. *)
Definition bare_char (c : ascii) : bool :=
  let n := N_of_ascii c in
  ((97 <=? n) && (n <=? 122) || (65 <=? n) && (n <=? 90) || (48 <=? n) && (n <=? 57) || (n =? 95) || (n =? 45))%N.
Definition bare (s : string) : Prop := s <> "" /\ Forall (fun c => bare_char c = true) (chars s).
Definition key_char (c : ascii) : bool := bare_char c || is_char c ".".
Definition key_ok (s : string) : Prop := s <> "" /\ Forall (fun c => key_char c = true) (chars s).
Definition value_ok (v : string) : Prop := v <> "" /\ TrimSpace v = v /\ Forall (fun c => c <> nl) (chars v).

Lemma key_char_plain c : key_char c = true ->
  is_space c = false /\ c <> "="%char /\ c <> "["%char /\ c <> "]"%char /\ c <> "#"%char /\ c <> nl.
Proof.
  assert (H : forall c : ascii, key_char c = true ->
    negb (is_space c || is_char c "=" || is_char c "[" || is_char c "]" || is_char c "#" || is_char c nl) = true).
  { clear. intros [[] [] [] [] [] [] [] []]; cbv; done. }
  intros Hc. apply H in Hc. apply negb_true_iff in Hc. do 5 (apply orb_false_iff in Hc as [Hc ?]).
  split; [done|]. repeat split; intros ->; done.
Qed.
Lemma bare_key s : bare s -> key_ok s.
Proof.
  intros [H1 H2]. split; [done|]. eapply Forall_impl; [exact H2|]. intros c Hc. unfold key_char. by rewrite Hc.
Qed.
Lemma bare_no_dot s : bare s -> Forall (fun c => c <> "."%char) (chars s).
Proof. intros [_ H]. eapply Forall_impl; [exact H|]. intros c Hc ->. done. Qed.
Lemma dotted_ok s k : bare s -> bare k -> key_ok (dotted_key s k).
Proof.
  intros [Hs1 Hs2] [Hk1 Hk2]. split; [by destruct s|]. unfold dotted_key. rewrite !chars_app.
  apply Forall_app. split; [by apply bare_key|]. apply Forall_app. split; [by repeat constructor|by apply bare_key].
Qed.
Lemma key_ends k : key_ok k -> ends_plain k.
Proof.
  intros [Hne Hk]. assert (Hc : chars k <> []) by by destruct k. split.
  - destruct (chars k) as [|c l]; [done|]. inversion Hk. by apply key_char_plain.
  - destruct (rev (chars k)) as [|c l] eqn:E.
    + apply (f_equal (@rev ascii)) in E. by rewrite rev_involutive in E.
    + assert (Hin : c ∈ chars k) by (apply list_elem_of_In, in_rev; rewrite E; by left).
      rewrite Forall_forall in Hk. by apply key_char_plain, Hk.
Qed.
Lemma key_Forall (P : ascii -> Prop) k : (forall c, key_char c = true -> P c) -> key_ok k -> Forall P (chars k).
Proof. intros H [_ Hk]. eapply Forall_impl; [exact Hk|auto]. Qed.

Lemma assign_trim k v : key_ok k -> value_ok v -> TrimSpace (assign k v) = assign k v.
Proof.
  intros Hk (H1 & H2 & _). apply TrimSpace_ends, ends_append; [by apply key_ends|by apply ends_TrimSpace].
Qed.
Lemma assign_chars k v : chars (assign k v) = (chars k ++ [" "%char]) ++ "="%char :: chars (String " " v).
Proof. unfold assign. rewrite !chars_app. by rewrite <- app_assoc. Qed.
Lemma assign_cut k v : key_ok k -> value_ok v ->
  Cut (TrimSpace (assign k v)) "=" = Some (String.append k " ", String " " v).
Proof.
  intros Hk Hv. rewrite assign_trim by done. unfold Cut. rewrite assign_chars, cut_first_app.
  - f_equal. f_equal; [|apply of_chars_chars]. rewrite <- (of_chars_chars (String.append k " ")). by rewrite chars_app.
  - apply Forall_app. split; [|by repeat constructor]. apply key_Forall; [|done]. intros c Hc. by destruct (key_char_plain c Hc) as (_ & ? & ? & ? & ? & ?).
Qed.
Lemma assign_first k v : key_ok k -> exists c s, assign k v = String c s /\ key_char c = true.
Proof.
  intros [Hne Hk]. destruct k as [|c k]; [done|]. exists c, (String.append k (String.append " = " v)).
  split; [done|]. cbn in Hk. by inversion Hk.
Qed.
Lemma assign_HasPrefix k v d : key_ok k -> value_ok v -> key_char d = false ->
  HasPrefix (TrimSpace (assign k v)) (String d "") = false.
Proof.
  intros Hk Hv Hd. rewrite assign_trim by done. destruct (assign_first k v Hk) as (c & s & -> & Hc).
  destruct (HasPrefix _ _) eqn:E; [|done]. apply HasPrefix_inv in E as [t Ht].
  change (String c s = String d t) in Ht. injection Ht as -> _. congruence.
Qed.
Lemma assign_bracket k v : key_ok k -> value_ok v -> bracket (assign k v) = false.
Proof. intros Hk Hv. by apply assign_HasPrefix. Qed.
Lemma assign_key k v : key_ok k -> value_ok v -> assignedKey (assign k v) = k.
Proof.
  intros Hk Hv. unfold assignedKey. rewrite assign_HasPrefix, assign_cut by done.
  assert (String.eqb (TrimSpace (assign k v)) "" = false) as ->.
  { rewrite assign_trim by done. by destruct (assign_first k v Hk) as (c & s & -> & _). }
  cbn [orb]. change " " with (String " " ""). rewrite TrimSpace_space_r by done. by apply TrimSpace_ends, key_ends.
Qed.
Lemma assign_value k v : key_ok k -> value_ok v -> value_text (assign k v) = v.
Proof.
  intros Hk Hv. unfold value_text. rewrite assign_cut by done. rewrite TrimSpace_space by done. apply Hv.
Qed.
Lemma assign_plain k v : key_ok k -> value_ok v -> Forall (fun c => c <> nl) (chars (assign k v)).
Proof.
  intros Hk (_ & _ & Hv). rewrite assign_chars. apply Forall_app. split; [apply Forall_app; split|].
  - apply key_Forall; [|done]. intros c Hc. by destruct (key_char_plain c Hc) as (_ & ? & ? & ? & ? & ?).
  - by repeat constructor.
  - constructor; [done|]. cbn. by constructor.
Qed.

Lemma header_chars s : chars (table_header s) = "["%char :: chars s ++ ["]"%char].
Proof. unfold table_header. rewrite chars_app. cbn. by rewrite chars_app. Qed.
Lemma header_trim s : TrimSpace (table_header s) = table_header s.
Proof.
  apply TrimSpace_ends. unfold ends_plain. rewrite header_chars. split; [done|].
  change ("["%char :: chars s ++ ["]"%char]) with (("["%char :: chars s) ++ ["]"%char]). by rewrite rev_app_distr.
Qed.
Lemma header_bracket s : bracket (table_header s) = true.
Proof. unfold bracket. rewrite header_trim. apply (HasPrefix_append "[" (String.append s "]")). Qed.
Lemma header_opens s : opens (table_header s) (table_header s) = true.
Proof.
  unfold opens. rewrite header_bracket. unfold is_header. rewrite header_trim.
  rewrite <- (append_nil_r (table_header s)) at 1 3. by rewrite HasPrefix_append, TrimPrefix_append.
Qed.
Lemma opens_bracket h ln : opens h ln = true -> bracket ln = true.
Proof. unfold opens. by intros [? _]%andb_true_iff. Qed.
Lemma bare_no_bracket s : bare s -> Forall (fun c => c <> "]"%char) (chars s).
Proof. intros H. apply key_Forall; [|by apply bare_key]. intros c Hc. by destruct (key_char_plain c Hc) as (_ & _ & _ & ? & _). Qed.
Lemma opens_inj s s' ln : bare s -> bare s' -> opens (table_header s) ln = true -> opens (table_header s') ln = true -> s = s'.
Proof.
  intros Hs Hs' [_ H]%andb_true_iff [_ H']%andb_true_iff.
  apply andb_true_iff in H as [[t Ht]%HasPrefix_inv _], H' as [[t' Ht']%HasPrefix_inv _]. rewrite Ht in Ht'.
  apply (f_equal chars) in Ht'. rewrite !chars_app, !header_chars in Ht'. injection Ht' as Ht'.
  rewrite <- !app_assoc in Ht'. cbn [app] in Ht'.
  pose proof (cut_first_app "]" (chars s) (chars t) (bare_no_bracket s Hs)) as K.
  rewrite Ht', cut_first_app in K by by apply bare_no_bracket. injection K as K _.
  by rewrite <- (of_chars_chars s), <- K, of_chars_chars.
Qed.

(** One line replaced or added. *)
Definition edit (k line : string) (b b' : list string) : Prop := exists a old c,
  b = a ++ old ++ c /\ b' = a ++ line :: c /\ value_in k a = None /\
  (old = [] /\ value_in k c = None \/ exists ln, old = [ln] /\ assignedKey ln = k).

Lemma value_in_app k a b : value_in k (a ++ b) = match value_in k a with Some v => Some v | None => value_in k b end.
Proof. induction a as [|ln a IH]; [done|]. cbn. by destruct (has_key k ln). Qed.
Lemma key_index_shape k b : match key_index k b with
  | Some j => exists a ln c, b = a ++ ln :: c /\ length a = j /\ assignedKey ln = k /\ value_in k a = None
  | None => value_in k b = None end.
Proof.
  induction b as [|ln b IH]; [done|]. cbn. destruct (has_key k ln) eqn:E.
  - exists [], ln, b. apply String.eqb_eq in E. done.
  - destruct (key_index k b) as [j|]; cbn; [|done]. destruct IH as (a & x & c & -> & <- & Hx & Ha).
    exists (ln :: a), x, c. repeat split; [done|]. cbn. by rewrite E.
Qed.
Lemma edit_at k line b j : (j <= length b)%nat -> value_in k b = None -> edit k line b (take j b ++ line :: drop j b).
Proof.
  intros Hj Hb. exists (take j b), [], (drop j b). cbn [app]. rewrite take_drop.
  rewrite <- (take_drop j b), value_in_app in Hb. destruct (value_in k (take j b)); [done|]. by repeat split; [left].
Qed.
Lemma put_edit k line b : edit k line b (put k line b).
Proof.
  unfold put. pose proof (key_index_shape k b) as H. destruct (key_index k b) as [j|].
  - destruct H as (a & ln & c & -> & <- & Hl & Ha). exists a, [ln], c. cbn [app].
    rewrite insert_app_r_alt, Nat.sub_diag by lia. cbn. repeat split; [done|]. right. by exists ln.
  - apply edit_at; [apply trimmed_le|done].
Qed.
Lemma put_dotted_edit k p line b b' : put_dotted k p line b = Some b' -> edit k line b b'.
Proof.
  unfold put_dotted. pose proof (key_index_shape k b) as H. destruct (key_index k b) as [j|].
  - destruct H as (a & ln & c & -> & <- & Hl & Ha). intros [= <-]. exists a, [ln], c. cbn [app].
    rewrite insert_app_r_alt, Nat.sub_diag by lia. cbn. repeat split; [done|]. right. by exists ln.
  - destruct (last_with p b) as [j|] eqn:E; [|done]. intros [= <-]. apply edit_at; [|done].
    apply last_with_lt in E. lia.
Qed.

Lemma edit_same k line b b' : edit k line b b' -> assignedKey line = k -> value_in k b' = Some (value_text line).
Proof.
  intros (a & old & c & -> & -> & Ha & _) Hl. rewrite value_in_app, Ha. cbn. unfold has_key. by rewrite Hl, String.eqb_refl.
Qed.
Lemma edit_other k k' line b b' : edit k line b b' -> assignedKey line = k -> k <> k' -> value_in k' b' = value_in k' b.
Proof.
  intros (a & old & c & -> & -> & Ha & Ho) Hl Hk. rewrite !value_in_app. destruct (value_in k' a); [done|]. cbn.
  unfold has_key. rewrite Hl. destruct (String.eqb_spec k k'); [done|].
  destruct Ho as [[-> _]|(ln & -> & Hln)]; [done|]. cbn. unfold has_key. rewrite Hln. by destruct (String.eqb_spec k k').
Qed.
Lemma edit_plain k line b b' (P : string -> Prop) : edit k line b b' -> P line -> Forall P b -> Forall P b'.
Proof.
  intros (a & old & c & -> & -> & _) Hl. rewrite !Forall_app, Forall_cons. tauto.
Qed.
Lemma key_index_none k b : value_in k b = None -> key_index k b = None.
Proof.
  induction b as [|ln b IH]; [done|]. cbn. destruct (has_key k ln); [done|]. intros H. by rewrite IH.
Qed.
Lemma edit_index k line b b' : edit k line b b' -> assignedKey line = k ->
  exists j, key_index k b' = Some j /\ <[j := line]> b' = b'.
Proof.
  intros (a & old & c & _ & -> & Ha & _) Hl. exists (length a). split.
  - clear -Ha Hl. induction a as [|ln a IH]; cbn; [unfold has_key; by rewrite Hl, String.eqb_refl|].
    cbn in Ha. destruct (has_key k ln); [done|]. by rewrite IH.
  - by rewrite insert_app_r_alt, Nat.sub_diag by lia.
Qed.

(** *** Sections of the edited lines *)
Definition no_bracket (b : list string) : Prop := Forall (fun ln => bracket ln = false) b.
Definition at_header (l : list string) : Prop := match l with [] => True | ln :: _ => bracket ln = true end.

Lemma top_stop b c : no_bracket b -> at_header c -> top (b ++ c) = b.
Proof. intros Hb Hc. rewrite top_app by done. rewrite top_head by done. apply app_nil_r. Qed.
Lemma rest_stop b c : no_bracket b -> at_header c -> rest (b ++ c) = c.
Proof. intros Hb Hc. induction Hb as [|ln b H _ IH]; cbn; [|by rewrite H]. destruct c as [|ln c]; [done|]. cbn. cbn in Hc. by rewrite Hc. Qed.
Lemma section_skip h b l : no_bracket b -> section_body h (b ++ l) = section_body h l.
Proof. induction 1 as [|ln b H _ IH]; [done|]. cbn. unfold opens. by rewrite H. Qed.
Lemma section_none_app h a l : section_body h a = None -> section_body h (a ++ l) = section_body h l.
Proof. induction a as [|ln a IH]; [done|]. cbn. by destruct (opens h ln). Qed.
Lemma section_found_app h a hdr l : opens h hdr = true -> section_body h a = None -> section_body h (a ++ hdr :: l) = Some (top l).
Proof. intros Ho Ha. rewrite section_none_app by done. cbn. by rewrite Ho. Qed.
(** The lines of one table do not matter to another one. *)
Lemma top_prefix pre hdr x y : bracket hdr = true -> top (pre ++ hdr :: x) = top (pre ++ hdr :: y).
Proof. intros Hh. induction pre as [|ln pre IH]; cbn; [by rewrite Hh|]. destruct (bracket ln); [done|]. by rewrite IH. Qed.
Lemma section_mid h pre hdr b b' post : opens h hdr = false -> bracket hdr = true -> no_bracket b -> no_bracket b' ->
  section_body h (pre ++ hdr :: b ++ post) = section_body h (pre ++ hdr :: b' ++ post).
Proof.
  intros Ho Hh Hb Hb'. induction pre as [|ln pre IH]; cbn.
  - rewrite Ho. by rewrite !section_skip.
  - destruct (opens h ln); [|done]. f_equal. by apply top_prefix.
Qed.
(** Lines after a header at the end do not matter to the tables before it. *)
Lemma section_app h l x : at_header x -> section_body h l <> None -> section_body h (l ++ x) = section_body h l.
Proof.
  intros Hx. induction l as [|ln l IH]; [done|]. cbn. destruct (opens h ln); [|done]. intros _. f_equal.
  rewrite <- (top_rest l) at 1. rewrite <- app_assoc. apply top_stop; [apply top_plain|].
  pose proof (rest_head l). by destruct (rest l).
Qed.

Lemma value_in_blank k b : key_ok k -> value_in k (b ++ [""]) = value_in k b.
Proof.
  intros [Hk _]. rewrite value_in_app. destruct (value_in k b); [done|]. cbn [value_in].
  assert (has_key k "" = false) as ->; [|done]. change (String.eqb "" k = false). by apply String.eqb_neq.
Qed.
Lemma section_blank h l : section_body h (l ++ [""]) = section_body h l \/
  exists b, section_body h l = Some b /\ section_body h (l ++ [""]) = Some (b ++ [""]).
Proof.
  induction l as [|ln l IH]; [by left|]. cbn. destruct (opens h ln); [|exact IH].
  assert (H : top (l ++ [""]) = top l \/ top (l ++ [""]) = top l ++ [""]).
  { clear. induction l as [|ln l IH]; [by right|]. cbn. destruct (bracket ln); [by left|].
    destruct IH as [->| ->]; [by left|by right]. }
  destruct H as [->| ->]; [by left|]. right. eauto.
Qed.
Lemma lookup_blank l s k : bare s -> bare k -> lookup (l ++ [""]) s k = lookup l s k.
Proof.
  intros Hs Hk. unfold lookup. destruct (section_blank (table_header s) l) as [->|(b & -> & ->)].
  - destruct (section_body _ l); [done|].
    assert (H : top (l ++ [""]) = top l \/ top (l ++ [""]) = top l ++ [""]).
    { destruct (rest l) as [|r rl] eqn:E; [right|left].
      - rewrite <- (top_rest l) at 1. rewrite E, app_nil_r. by rewrite top_app by apply top_plain.
      - rewrite <- (top_rest l) at 1. rewrite <- app_assoc. apply top_stop; [apply top_plain|].
        pose proof (rest_head l) as Hh. rewrite E in Hh |- *. exact Hh. }
    destruct H as [->| ->]; [done|]. apply value_in_blank. by apply dotted_ok.
  - apply value_in_blank. by apply bare_key.
Qed.

(** *** The three ways a key is set *)
Section Setting.
Context (s k v : string) (Hs : bare s) (Hk : bare k) (Hv : value_ok v).
Let h := table_header s.
Let line := assign k v.
Let dline := assign (dotted_key s k) v.

Definition in_table l l' : Prop := exists pre hdr b b' post,
  l = pre ++ hdr :: b ++ post /\ l' = pre ++ hdr :: b' ++ post /\ opens h hdr = true /\ section_body h pre = None /\
  no_bracket b /\ at_header post /\ edit k line b b'.
Definition in_top l l' : Prop := exists t,
  l' = t ++ rest l /\ section_body h l = None /\ edit (dotted_key s k) dline (top l) t.
Definition appended l l' : Prop :=
  l' = spaced l ++ [h; line] /\ section_body h l = None /\
  Forall (fun ln => HasPrefix (assignedKey ln) (String.append s ".") = false) (top l).

Lemma last_with_none p b : last_with p b = None -> Forall (fun ln => HasPrefix (assignedKey ln) p = false) b.
Proof.
  induction b as [|ln b IH]; [constructor|]. cbn. destruct (last_with p b); [done|].
  destruct (HasPrefix _ _) eqn:E; [done|]. intros _. constructor; [done|by apply IH].
Qed.
Lemma set_lines_cases l : in_table l (set_lines s k v l) \/ in_top l (set_lines s k v l) \/ appended l (set_lines s k v l).
Proof.
  unfold set_lines. fold h line dline. destruct (section_body h l) as [b|] eqn:Hb.
  - left. destruct (section_split h l b Hb) as (pre & hdr & Hl & Ho & Hp & Hbt). set (tl := drop (S (length pre)) l) in *.
    assert (Hl' : l = pre ++ hdr :: tl) by (by rewrite Hl, Hbt, top_rest).
    assert (Hin : in_section h (put k line) l = Some (pre ++ hdr :: put k line b ++ rest tl)).
    { rewrite Hl' at 1. rewrite in_section_found by done. by rewrite <- Hbt. }
    rewrite Hin. exists pre, hdr, b, (put k line b), (rest tl). repeat split; try done.
    + rewrite Hbt. apply top_plain.
    + apply rest_head.
    + apply put_edit.
  - right. rewrite in_section_none by done.
    destruct (put_dotted _ _ _ (top l)) as [t|] eqn:E; [left|right].
    + exists t. repeat split; [done|]. by eapply put_dotted_edit.
    + repeat split; [done|]. unfold put_dotted in E. destruct (key_index _ _); [done|].
      destruct (last_with _ _) eqn:El; [done|]. by apply last_with_none.
Qed.

Lemma line_key : assignedKey line = k.
Proof. apply assign_key; [by apply bare_key|done]. Qed.
Lemma dline_key : assignedKey dline = dotted_key s k.
Proof. apply assign_key; [by apply dotted_ok|done]. Qed.
Lemma line_plain : bracket line = false.
Proof. apply assign_bracket; [by apply bare_key|done]. Qed.
Lemma dline_plain : bracket dline = false.
Proof. apply assign_bracket; [by apply dotted_ok|done]. Qed.
Lemma in_top_plain l t : edit (dotted_key s k) dline (top l) t -> no_bracket t.
Proof. intros He. eapply edit_plain; [exact He|apply dline_plain|apply top_plain]. Qed.
Lemma in_top_section l t h' : no_bracket t -> section_body h' (t ++ rest l) = section_body h' l.
Proof. intros Ht. rewrite <- (top_rest l) at 2. by rewrite !section_skip by (done || apply top_plain). Qed.
Lemma in_top_top l t : no_bracket t -> top (t ++ rest l) = t.
Proof. intros Ht. apply top_stop; [done|]. apply rest_head. Qed.
Lemma spaced_or l : spaced l = l \/ spaced l = l ++ [""].
Proof. unfold spaced. destruct (rev l); [by left|]. destruct (blank _); [by left|by right]. Qed.

(** The key has the new value ... *)
Lemma set_same l : lookup (set_lines s k v l) s k = Some v.
Proof.
  unfold lookup. fold h. destruct (set_lines_cases l) as [Hc|[Hc|Hc]].
  - destruct Hc as (pre & hdr & b & b' & post & _ & -> & Ho & Hp & Hb & Hpost & He).
    rewrite section_found_app by done. rewrite top_stop; [|by eapply edit_plain; [exact He|apply line_plain|]|done].
    erewrite edit_same by (exact He || apply line_key). f_equal. apply assign_value; [by apply bare_key|done].
  - destruct Hc as (t & -> & Hn & He). pose proof (in_top_plain l t He) as Ht.
    rewrite in_top_section, Hn, in_top_top by done.
    erewrite edit_same by (exact He || apply dline_key). f_equal. apply assign_value; [by apply dotted_ok|done].
  - destruct Hc as (-> & Hn & _).
    assert (Hsp : section_body h (spaced l) = None).
    { destruct (spaced_or l) as [->| ->]; [done|]. by rewrite section_none_app. }
    rewrite section_found_app; [|apply header_opens|done].
    assert (Hl : has_key k line = true) by (unfold has_key; rewrite line_key; apply String.eqb_refl).
    cbn [top]. rewrite line_plain. cbn [top value_in]. rewrite Hl. f_equal. apply assign_value; [by apply bare_key|done].
Qed.

Lemma dotted_inj s' k' : bare s' -> bare k' -> dotted_key s k = dotted_key s' k' -> s = s' /\ k = k'.
Proof.
  intros Hs' Hk' H. apply (f_equal chars) in H. unfold dotted_key in H. rewrite !chars_app in H.
  change (chars ".") with ["."%char] in H. cbn [app] in H.
  pose proof (cut_first_app "." (chars s) (chars k) (bare_no_dot s Hs)) as K.
  rewrite H, cut_first_app in K by by apply bare_no_dot. injection K as K1 K2. split.
  - by rewrite <- (of_chars_chars s), <- K1, of_chars_chars.
  - by rewrite <- (of_chars_chars k), <- K2, of_chars_chars.
Qed.
Lemma no_prefix_none b k' : Forall (fun ln => HasPrefix (assignedKey ln) (String.append s ".") = false) b ->
  value_in (dotted_key s k') b = None.
Proof.
  induction 1 as [|ln b H _ IH]; [done|]. cbn. unfold has_key. destruct (String.eqb_spec (assignedKey ln) (dotted_key s k')) as [E|]; [|done].
  exfalso. revert H. rewrite E. unfold dotted_key.
  assert (Ha : String.append s (String.append "." k') = String.append (String.append s ".") k').
  { clear. induction s as [|c s' IH]; [done|].
    change (String c (String.append s' (String.append "." k')) = String c (String.append (String.append s' ".") k')). by rewrite IH. }
  by rewrite Ha, HasPrefix_append.
Qed.

(** ... and every other key the value it had. *)
Lemma set_other l s' k' : bare s' -> bare k' -> (s', k') <> (s, k) ->
  lookup (set_lines s k v l) s' k' = lookup l s' k'.
Proof.
  intros Hs' Hk' Hne.
  assert (Hopen : forall ln, s' <> s -> opens h ln = true -> opens (table_header s') ln = false).
  { intros ln Hd Ho. destruct (opens (table_header s') ln) eqn:E; [|done]. exfalso. apply Hd. by eapply opens_inj. }
  destruct (set_lines_cases l) as [Hc|[Hc|Hc]].
  - destruct Hc as (pre & hdr & b & b' & post & -> & -> & Ho & Hp & Hb & Hpost & He).
    pose proof (opens_bracket _ _ Ho) as Hbr.
    assert (Hb' : no_bracket b') by (by eapply edit_plain; [exact He|apply line_plain|]).
    unfold lookup. destruct (decide (s' = s)) as [->|Hd].
    + fold h. rewrite !section_found_app by done. rewrite !top_stop by done.
      eapply edit_other; [exact He|apply line_key|congruence].
    + rewrite (section_mid _ pre hdr b b' post) by (done || by apply Hopen).
      destruct (section_body _ _); [done|]. by rewrite (top_prefix pre hdr (b' ++ post) (b ++ post)).
  - destruct Hc as (t & -> & Hn & He). pose proof (in_top_plain l t He) as Ht. unfold lookup.
    rewrite in_top_section, in_top_top by done. destruct (section_body (table_header s') l); [done|].
    eapply edit_other; [exact He|apply dline_key|]. intros E. apply Hne. destruct (dotted_inj s' k' Hs' Hk' E) as [<- <-]. done.
  - destruct Hc as (-> & Hn & Hp). rewrite <- (lookup_blank l s' k') by done.
    transitivity (lookup (spaced l) s' k'); [|destruct (spaced_or l) as [->| ->]; [by rewrite lookup_blank|done]].
    assert (Hn' : section_body h (spaced l) = None).
    { destruct (spaced_or l) as [->| ->]; [done|]. by rewrite section_none_app. }
    assert (Hp' : Forall (fun ln => HasPrefix (assignedKey ln) (String.append s ".") = false) (top (spaced l))).
    { destruct (spaced_or l) as [->| ->]; [done|]. clear -Hp Hs. induction l as [|ln l IH]; [constructor; [by destruct s|constructor]|].
      cbn in *. destruct (bracket ln); [done|]. inversion_clear Hp. constructor; [done|auto]. }
    assert (Htop : top (spaced l ++ [h; line]) = top (spaced l)).
    { rewrite <- (top_rest (spaced l)) at 1. rewrite <- app_assoc. apply top_stop; [apply top_plain|].
      pose proof (rest_head (spaced l)). destruct (rest (spaced l)); [|done]. cbn. apply header_bracket. }
    unfold lookup. destruct (decide (s' = s)) as [->|Hd].
    + fold h. rewrite Hn', section_found_app by (done || apply header_opens). cbn [top]. rewrite line_plain. cbn [top value_in].
      assert (has_key k' line = false) as ->.
      { unfold has_key. rewrite line_key. apply String.eqb_neq. congruence. }
      symmetry. by apply no_prefix_none.
    + destruct (section_body (table_header s') (spaced l)) as [b|] eqn:E.
      * rewrite section_app by (apply header_bracket || by rewrite E). by rewrite E.
      * rewrite section_none_app by done. cbn [section_body]. rewrite Hopen by (done || apply header_opens).
        assert (opens (table_header s') line = false) as -> by (unfold opens; by rewrite line_plain). by rewrite Htop.
Qed.

(** Everything else stays, line by line. *)
Definition framed (l l' : list string) : Prop := exists a old new c,
  l = a ++ old ++ c /\ l' = a ++ new ++ c /\
  (old = [] \/ exists ln, old = [ln] /\ (assignedKey ln = k \/ assignedKey ln = dotted_key s k)) /\
  Forall (fun ln => ln ∈ [""; h; line; dline]) new.
Lemma set_framed l : framed l (set_lines s k v l).
Proof.
  assert (Hl : Forall (fun ln => ln ∈ [""; h; line; dline]) [line]) by (constructor; [set_solver|constructor]).
  assert (Hd : Forall (fun ln => ln ∈ [""; h; line; dline]) [dline]) by (constructor; [set_solver|constructor]).
  destruct (set_lines_cases l) as [Hc|[Hc|Hc]].
  - destruct Hc as (pre & hdr & b & b' & post & -> & -> & _ & _ & _ & _ & (a & old & c & -> & -> & _ & Ho)).
    exists (pre ++ hdr :: a), old, [line], (c ++ post). rewrite <- !app_assoc. cbn [app]. rewrite <- ?app_assoc.
    repeat split; [|done]. destruct Ho as [[-> _]|(ln & -> & ?)]; [by left|right; eauto].
  - destruct Hc as (t & -> & _ & (a & old & c & Ht & -> & _ & Ho)).
    exists a, old, [dline], (c ++ rest l). rewrite <- (top_rest l) at 1. rewrite Ht, <- !app_assoc.
    repeat split; [|done]. destruct Ho as [[-> _]|(ln & -> & ?)]; [by left|right; eauto].
  - destruct Hc as (-> & _). destruct (spaced_or l) as [->| ->].
    + exists l, [], [h; line], []. rewrite !app_nil_r. repeat split; [by left|]. constructor; [set_solver|done].
    + exists l, [], [""; h; line], []. rewrite !app_nil_r, <- app_assoc. repeat split; [by left|].
      constructor; [set_solver|constructor; [set_solver|done]].
Qed.

(** Setting a key twice is setting it once. *)
Lemma set_twice l : set_lines s k v (set_lines s k v l) = set_lines s k v l.
Proof.
  destruct (set_lines_cases l) as [Hc|[Hc|Hc]].
  - destruct Hc as (pre & hdr & b & b' & post & _ & -> & Ho & Hp & Hb & Hpost & He).
    unfold set_lines at 1. fold h line. rewrite in_section_found by done.
    assert (Hb' : no_bracket b') by (by eapply edit_plain; [exact He|apply line_plain|]).
    rewrite top_stop, rest_stop by done. unfold put.
    destruct (edit_index _ _ _ _ He line_key) as (j & -> & ->). done.
  - destruct Hc as (t & -> & Hn & He). pose proof (in_top_plain l t He) as Ht.
    unfold set_lines at 1. fold h line dline. rewrite in_section_none by by rewrite in_top_section.
    rewrite in_top_top by done. unfold put_dotted. destruct (edit_index _ _ _ _ He dline_key) as (j & -> & ->).
    rewrite rest_stop by (done || apply rest_head). done.
  - destruct Hc as (-> & Hn & _).
    assert (Hsp : section_body h (spaced l) = None).
    { destruct (spaced_or l) as [->| ->]; [done|]. by rewrite section_none_app. }
    unfold set_lines at 1. fold h line. rewrite in_section_found by (done || apply header_opens).
    cbn [top rest]. rewrite line_plain. unfold put. cbn [key_index top rest].
    assert (has_key k line = true) as -> by (unfold has_key; rewrite line_key; apply String.eqb_refl). done.
Qed.

Definition one_line (ln : string) : Prop := Forall (fun c => c <> nl) (chars ln).
Lemma set_one_line l : Forall one_line l -> Forall one_line (set_lines s k v l).
Proof.
  intros Hl. destruct (set_framed l) as (a & old & new & c & -> & -> & _ & Hn).
  rewrite !Forall_app in *. destruct Hl as (Ha & _ & Hc). split_and!; [done| |done].
  eapply Forall_impl; [exact Hn|]. intros ln Hin.
  assert (Hh : one_line h).
  { unfold one_line, h. rewrite header_chars. constructor; [done|]. apply Forall_app. split; [|by repeat constructor].
    apply key_Forall; [|by apply bare_key]. intros x Hx. by destruct (key_char_plain x Hx) as (_ & _ & _ & _ & _ & ?). }
  repeat (apply elem_of_cons in Hin as [->|Hin]); [constructor|exact Hh|apply assign_plain|apply assign_plain|by apply elem_of_nil in Hin];
    done || (by apply bare_key) || by apply dotted_ok.
Qed.
End Setting.

Lemma lines_of_join ls : ls <> [] -> Forall one_line ls -> lines_of (join ls) = ls.
Proof.
  intros Hne Hl. unfold lines_of, join. rewrite TrimSuffix_append. 
  change (Split (Join ls newline) nl) with (Split (Join ls (String nl EmptyString)) nl). rewrite Split_Join by done.
  destruct (String.eqb_spec (String.append (Join ls newline) newline) "") as [E|]; [|done].
  apply (f_equal String.length) in E. rewrite length_append in E. cbn in E. lia.
Qed.
Lemma lines_one_line raw : Forall one_line (lines_of raw).
Proof. unfold lines_of. destruct (String.eqb raw ""); [constructor|apply Split_plain]. Qed.
Lemma set_lines_nonempty s k v l : set_lines s k v l <> [].
Proof.
  intros E. unfold set_lines in E. destruct (in_section _ _ l) as [l'|] eqn:Ei.
  - subst. destruct l as [|ln l]; [done|]. cbn in Ei. destruct (opens _ ln); [done|]. by destruct (in_section _ _ l).
  - destruct (put_dotted _ _ _ (top l)) as [t|] eqn:Et.
    + apply app_nil in E as [-> _]. apply put_dotted_edit in Et as (a & old & c & _ & Hc & _).
      symmetry in Hc. by apply app_nil in Hc as [_ Hc].
    + by apply app_nil in E as [_ ?].
Qed.

Lemma set_key_lines raw section key value : bare section -> bare key -> value_ok value ->
  let lines := lines_of raw in
  let lines' := lines_of (SetKey raw section key value) in
  lookup lines' section key = Some value /\
  (forall s' k', bare s' -> bare k' -> (s', k') <> (section, key) -> lookup lines' s' k' = lookup lines s' k') /\
  framed section key value lines lines'.
Proof.
  intros Hs Hk Hv. cbn zeta. rewrite !SetKey_lines.
  rewrite lines_of_join by (apply set_lines_nonempty || by apply set_one_line, lines_one_line).
  split_and!; [by apply set_same|by intros; apply set_other|by apply set_framed].
Qed.

(** SetKey sets one key of the configuration file and touches nothing else.  For a
    bare section and key and a value on one line: read back line by line, the key has
    the value, whether the section exists as a table, as dotted keys or not at all;
    every other key of every section reads as before; all other lines stay, in their
    order; and setting the same value again changes nothing. *)
Theorem set_key (raw section key value : string) :
  bare section -> bare key -> value_ok value ->
  let lines := lines_of raw in
  let lines' := lines_of (SetKey raw section key value) in
  lookup lines' section key = Some value /\
  (forall s' k', bare s' -> bare k' -> (s', k') <> (section, key) -> lookup lines' s' k' = lookup lines s' k') /\
  framed section key value lines lines' /\
  SetKey (SetKey raw section key value) section key value = SetKey raw section key value.
Proof.
  intros Hs Hk Hv. cbn zeta. destruct (set_key_lines raw section key value Hs Hk Hv) as (H1 & H2 & H3). split_and!; [done..|].
  rewrite !SetKey_lines. rewrite lines_of_join by (apply set_lines_nonempty || by apply set_one_line, lines_one_line). by rewrite set_twice.
Qed.
Lemma set_key_witness :
  let raw := text ["# fans"; "[web]"; "listen = 1"; ""; "[alert]"; "transport = 2"] in
  SetKey raw "web" "user" "x" = text ["# fans"; "[web]"; "listen = 1"; "user = x"; ""; "[alert]"; "transport = 2"] /\
  lookup (lines_of (SetKey raw "web" "user" "x")) "web" "user" = Some "x".
Proof.
  cbn zeta. split; [by vm_compute|].
  apply (set_key (text ["# fans"; "[web]"; "listen = 1"; ""; "[alert]"; "transport = 2"]) "web" "user" "x");
    (split; [done|]); repeat split; repeat constructor; done.
Defined.
