(* ===== verification/ConfigTables.v ===== *)
(** ReplaceChannels (src/internal/config/file.go): which lines its two passes replace,
    what stays, and what a second replacement does. *)
From stdpp Require Import base gmap strings list.
From Stdlib Require Import ZArith Lia Ascii.
From S2P Require Import Prelude GoLib GoNet GoPath ConfigEdit.
Open Scope Z_scope.

(** ** What ReplaceChannels replaces

    A block is a header of a [channel] table and the lines up to its last key; a
    blank or comment line belongs to it when a key of the block follows. *)
Inductive kind := KChannel | KSub | KOther | KKey | KBlank.
Definition kind_of (ln : string) : kind :=
  match tableHeader ln with
  | Some name => if String.eqb name "channel" then KChannel else if HasPrefix name "channel." then KSub else KOther
  | None => if negb (String.eqb (TrimSpace ln) "") && negb (HasPrefix (TrimSpace ln) "#") then KKey else KBlank
  end.
Fixpoint more (l : list string) : bool :=
  match l with
  | [] => false
  | ln :: l' => match kind_of ln with KChannel | KOther => false | KSub | KKey => true | KBlank => more l' end
  end.
Fixpoint marks (inside : bool) (l : list string) : list bool :=
  match l with
  | [] => []
  | ln :: l' =>
      match kind_of ln with
      | KChannel | KSub => true :: marks true l'
      | KOther => false :: marks false l'
      | KKey => inside :: marks inside l'
      | KBlank => (inside && more l') :: marks inside l'
      end
  end.
Fixpoint first_true (l : list bool) : option nat :=
  match l with [] => None | true :: _ => Some 0%nat | false :: l' => option_map S (first_true l') end.

Lemma scan_line_kind i ln st : scan_line i ln st =
  match kind_of ln with
  | KChannel => set_open (i, i) (closeBlock st)
  | KSub => set_open (match b_open st with None => i | Some (start, _) => start end, i) st
  | KOther => closeBlock st
  | KKey => match b_open st with None => st | Some (start, _) => set_open (start, i) st end
  | KBlank => st
  end.
Proof.
  unfold scan_line, kind_of. destruct (tableHeader ln) as [name|].
  - destruct (String.eqb name "channel"); [done|]. by destruct (HasPrefix name "channel.").
  - destruct (b_open st) as [[start last]|]; by destruct (negb _ && negb _).
Qed.
Lemma set_range_false acc blk n : (0 < blk <= n)%nat ->
  set_range (length acc) (length acc + blk - 1) (acc ++ replicate n false) = acc ++ replicate blk true ++ replicate (n - blk) false.
Proof.
  intros Hb. apply list_eq. intros j. unfold set_range. rewrite list_lookup_imap.
  destruct (decide (j < length acc)%nat) as [Hj|Hj].
  - rewrite !lookup_app_l by done. destruct (acc !! j) as [r|] eqn:E; [|done]. cbn.
    by rewrite (proj2 (Nat.leb_gt _ _)), orb_false_r by done.
  - rewrite !lookup_app_r by lia. destruct (decide (j < length acc + n)%nat) as [Hn|Hn].
    + rewrite (lookup_replicate_2 n false) by lia. cbn. rewrite (proj2 (Nat.leb_le _ _)) by lia. cbn.
      destruct (decide (j < length acc + blk)%nat).
      * rewrite lookup_app_l by (rewrite length_replicate; lia). rewrite (lookup_replicate_2 blk true) by lia.
        by rewrite (proj2 (Nat.leb_le _ _)) by lia.
      * rewrite lookup_app_r by (rewrite length_replicate; lia). rewrite length_replicate.
        rewrite (lookup_replicate_2 (n - blk) false) by lia. by rewrite (proj2 (Nat.leb_gt _ _)) by lia.
    + rewrite !lookup_ge_None_2 by (rewrite ?length_app, ?length_replicate; lia). done.
Qed.
Lemma replicate_snoc_app {A} n (x : A) l : replicate n x ++ x :: l = replicate (S n) x ++ l.
Proof. induction n as [|n IH]; [done|]. cbn. by rewrite IH. Qed.
Lemma close_open acc blk n f : (0 < blk <= n)%nat ->
  closeBlock (mkBlocks (acc ++ replicate n false) f (Some (length acc, length acc + blk - 1)%nat))
    = mkBlocks (acc ++ replicate blk true ++ replicate (n - blk) false)
        (match f with None => Some (length acc) | _ => f end) None.
Proof. intros H. unfold closeBlock. cbn [b_open b_removed b_first]. rewrite set_range_false by exact H. by destruct f. Qed.

Definition from_closed (ls : list string) : Prop := forall acc f,
  let st := closeBlock (scan_lines (length acc) ls (mkBlocks (acc ++ replicate (length ls) false) f None)) in
  b_removed st = acc ++ marks false ls /\
  b_first st = match f with None => option_map (Nat.add (length acc)) (first_true (marks false ls)) | _ => f end.
Definition from_open (ls : list string) : Prop := forall acc blk pend f, (0 < blk)%nat ->
  let st := closeBlock (scan_lines (length acc + blk + pend) ls
              (mkBlocks (acc ++ replicate (blk + pend + length ls) false) f (Some (length acc, length acc + blk - 1)%nat))) in
  b_removed st = acc ++ replicate blk true ++ replicate pend (more ls) ++ marks true ls /\
  b_first st = match f with None => Some (length acc) | _ => f end.

Lemma replicate_snoc2 {A} b p (x : A) l : replicate b x ++ replicate p x ++ x :: l = replicate (b + p + 1) x ++ l.
Proof. rewrite replicate_snoc_app, app_assoc, <- replicate_add. by replace (b + S p)%nat with (b + p + 1)%nat by lia. Qed.

(** One more line in front: outside a block it stays, opens a block, ... *)
Lemma closed_false ls acc f : from_closed ls ->
  let st := closeBlock (scan_lines (S (length acc)) ls (mkBlocks (acc ++ replicate (S (length ls)) false) f None)) in
  b_removed st = acc ++ false :: marks false ls /\
  b_first st = match f with None => option_map (Nat.add (length acc)) (first_true (false :: marks false ls)) | _ => f end.
Proof.
  intros IHc. cbn zeta. specialize (IHc (acc ++ [false]) f). rewrite length_app in IHc. cbn [length] in IHc.
  rewrite Nat.add_1_r, <- !app_assoc in IHc. destruct IHc as [Hr Hf]. cbn [app] in Hr, Hf.
  change (false :: replicate (length ls) false) with (replicate (S (length ls)) false) in Hr, Hf. rewrite Hr, Hf.
  split; [done|]. destruct f; [done|]. cbn. destruct (first_true _); [|done]. cbn. f_equal. lia.
Qed.
Lemma closed_true ls acc f : from_open ls ->
  let st := closeBlock (scan_lines (S (length acc)) ls
              (mkBlocks (acc ++ replicate (S (length ls)) false) f (Some (length acc, length acc)))) in
  b_removed st = acc ++ true :: marks true ls /\ b_first st = match f with None => Some (length acc) | _ => f end.
Proof.
  intros IHo. cbn zeta. specialize (IHo acc 1%nat 0%nat f ltac:(lia)).
  replace (length acc + 1 + 0)%nat with (S (length acc)) in IHo by lia.
  replace (length acc + 1 - 1)%nat with (length acc) in IHo by lia. exact IHo.
Qed.
(** ... inside one it extends the block over the pending lines ... *)
Lemma open_key ls acc blk pend f : from_open ls ->
  let st := closeBlock (scan_lines (S (length acc + blk + pend)) ls
      (mkBlocks (acc ++ replicate (blk + pend + S (length ls)) false) f (Some (length acc, (length acc + blk + pend)%nat)))) in
  b_removed st = acc ++ replicate blk true ++ replicate pend true ++ true :: marks true ls /\
  b_first st = match f with None => Some (length acc) | _ => f end.
Proof.
  intros IHo. cbn zeta. specialize (IHo acc (blk + pend + 1)%nat 0%nat f ltac:(lia)).
  replace (length acc + (blk + pend + 1) + 0)%nat with (S (length acc + blk + pend)) in IHo by lia.
  replace (length acc + (blk + pend + 1) - 1)%nat with (length acc + blk + pend)%nat in IHo by lia.
  replace (blk + pend + 1 + 0 + length ls)%nat with (blk + pend + S (length ls))%nat in IHo by lia.
  rewrite replicate_snoc2. exact IHo.
Qed.
(** ... or ends it. *)
Lemma open_closed (ls : list string) acc blk pend f : (0 < blk)%nat ->
  closeBlock (mkBlocks (acc ++ replicate (blk + pend + S (length ls)) false) f (Some (length acc, (length acc + blk - 1)%nat)))
  = let acc' := acc ++ replicate blk true ++ replicate pend false in
    mkBlocks (acc' ++ replicate (S (length ls)) false) (match f with None => Some (length acc) | _ => f end) None.
Proof.
  intros Hb. cbn zeta. rewrite close_open by lia. f_equal. rewrite <- !app_assoc, <- replicate_add. do 3 f_equal. lia.
Qed.
Lemma open_end ls acc blk pend f : (0 < blk)%nat -> from_open ls -> from_closed ls ->
  let st := closeBlock (mkBlocks (acc ++ replicate (blk + pend + S (length ls)) false) f
              (Some (length acc, (length acc + blk - 1)%nat))) in
  let i := (length acc + blk + pend)%nat in
  let f' := match f with None => Some (length acc) | _ => f end in
  (let st1 := closeBlock (scan_lines (S i) ls (set_open (i, i) st)) in
   b_removed st1 = acc ++ replicate blk true ++ replicate pend false ++ true :: marks true ls /\ b_first st1 = f') /\
  (let st1 := closeBlock (scan_lines (S i) ls st) in
   b_removed st1 = acc ++ replicate blk true ++ replicate pend false ++ false :: marks false ls /\ b_first st1 = f').
Proof.
  intros Hb IHo IHc. cbn zeta. rewrite open_closed by done. cbn zeta.
  set (acc' := acc ++ replicate blk true ++ replicate pend false).
  assert (Hi : (length acc + blk + pend)%nat = length acc') by (unfold acc'; rewrite !length_app, !length_replicate; lia).
  assert (Ha : forall l, acc ++ replicate blk true ++ replicate pend false ++ l = acc' ++ l) by (intros; unfold acc'; by rewrite <- !app_assoc).
  rewrite Hi, !Ha. unfold set_open. cbn [b_removed b_first].
  destruct (closed_true ls acc' (match f with None => Some (length acc) | _ => f end) IHo) as [H1 H2].
  destruct (closed_false ls acc' (match f with None => Some (length acc) | _ => f end) IHc) as [H3 H4].
  rewrite H1, H2, H3, H4. by destruct f.
Qed.

Lemma close_none r f : closeBlock (mkBlocks r f None) = mkBlocks r f None.
Proof. done. Qed.
Lemma scan_marks ls : from_closed ls /\ from_open ls.
Proof.
  induction ls as [|ln ls [IHc IHo]].
  - split; intros acc.
    + intros f. cbn. rewrite app_nil_r. split; [done|]. by destruct f.
    + intros blk pend f Hb. cbn [scan_lines length]. rewrite Nat.add_0_r, close_open by lia. cbn.
      replace (blk + pend - blk)%nat with pend by lia. by rewrite app_nil_r.
  - split.
    + intros acc f. cbn [scan_lines length]. rewrite scan_line_kind. cbn [marks].
      pose proof (closed_false ls acc f IHc) as Hf. destruct (closed_true ls acc f IHo) as [Ht1 Ht2].
      destruct (kind_of ln); rewrite ?close_none; cbn [b_open]; unfold set_open; cbn [b_removed b_first];
        try exact Hf; cbn zeta; rewrite Ht1, Ht2; (split; [done|]); destruct f; cbn; by rewrite ?Nat.add_0_r.
    + intros acc blk pend f Hb. cbn [scan_lines length]. rewrite scan_line_kind. cbn [marks more].
      pose proof (open_key ls acc blk pend f IHo) as Hkey. destruct (open_end ls acc blk pend f Hb IHo IHc) as [Hch Hot].
      destruct (kind_of ln); cbn [b_open]; unfold set_open in *; cbn [b_removed b_first] in *; try done.
      specialize (IHo acc blk (S pend) f Hb).
      replace (length acc + blk + S pend)%nat with (S (length acc + blk + pend)) in IHo by lia.
      replace (blk + S pend + length ls)%nat with (blk + pend + S (length ls))%nat in IHo by lia.
      destruct IHo as [-> ->]. split; [|done]. cbn [andb]. by rewrite replicate_snoc_app.
Qed.
Lemma channel_blocks_marks l : b_removed (channel_blocks l) = marks false l /\ b_first (channel_blocks l) = first_true (marks false l).
Proof.
  destruct (scan_marks l) as [H _]. destruct (H [] None) as [Hr Hf]. cbn [length app] in Hr, Hf.
  unfold channel_blocks. rewrite Hr, Hf. split; [done|]. by destruct (first_true _).
Qed.

(** The lines outside the channel blocks, and those of the blocks. *)
Fixpoint select (keep : bool) (l : list string) (m : list bool) : list string :=
  match l, m with
  | ln :: l', r :: m' => (if Bool.eqb r keep then [] else [ln]) ++ select keep l' m'
  | _, _ => []
  end.
Definition kept (inside : bool) (l : list string) : list string := select true l (marks inside l).
Definition blocked (inside : bool) (l : list string) : list string := select false l (marks inside l).
Definition outside (l : list string) : Prop := Forall (fun ln => kind_of ln <> KChannel /\ kind_of ln <> KSub) l.
(** Lines that stay where they are behind a block. *)
Definition calm (l : list string) : Prop := outside l /\ more l = false /\ marks true l = replicate (length l) false.
(** Channel tables: a header, and no header of another table. *)
Definition is_tables (b : list string) : Prop := match b with
  | [] => False | ln :: b' => kind_of ln = KChannel /\ Forall (fun ln => kind_of ln <> KOther) b' end.

Lemma select_app keep a b m n : length a = length m -> select keep (a ++ b) (m ++ n) = select keep a m ++ select keep b n.
Proof.
  revert m. induction a as [|x a IH]; intros [|r m] H; try done. injection H as H. cbn. rewrite IH by done. by rewrite app_assoc.
Qed.
Lemma marks_length i l : length (marks i l) = length l.
Proof. revert i. induction l as [|ln l IH]; intros i; [done|]. cbn. destruct (kind_of ln); cbn; by rewrite IH. Qed.
Lemma select_false keep l : select keep l (replicate (length l) false) = if keep then l else [].
Proof. induction l as [|x l IH]; [by destruct keep|]. cbn. rewrite IH. by destruct keep. Qed.

Lemma marks_outside l x : outside l -> marks false (l ++ x) = replicate (length l) false ++ marks false x.
Proof.
  induction 1 as [|ln l [H1 H2] _ IH]; [done|]. cbn. destruct (kind_of ln); try done; by rewrite IH.
Qed.
Lemma kept_outside i l : outside (kept i l).
Proof.
  revert i. induction l as [|ln l IH]; intros i; [constructor|]. unfold kept in *. cbn.
  destruct (kind_of ln) eqn:E; cbn; try apply IH.
  - constructor; [by rewrite E|apply IH].
  - destruct i; cbn; [apply IH|]. constructor; [by rewrite E|apply IH].
  - destruct (i && more l); cbn; [apply IH|]. constructor; [by rewrite E|apply IH].
Qed.
Lemma kept_calm l : calm (kept true l).
Proof.
  split; [apply kept_outside|]. induction l as [|ln l [IH1 IH2]]; [done|]. unfold kept in *. cbn.
  destruct (kind_of ln) eqn:E; cbn; try done.
  - rewrite E. split; [done|]. f_equal. pose proof (marks_outside _ [] (kept_outside false l)) as H.
    rewrite !app_nil_r in H. exact H.
  - destruct (more l); cbn; [done|]. rewrite E, IH1, IH2. done.
Qed.
Lemma marks_tables b k : Forall (fun ln => kind_of ln <> KOther) b -> more k = false ->
  marks true (b ++ k) = marks true b ++ marks true k /\ more (b ++ k) = more b.
Proof.
  intros Hb Hk. induction Hb as [|ln b H _ [IH1 IH2]]; [done|]. cbn. destruct (kind_of ln); try done; by rewrite IH1, ?IH2.
Qed.
Lemma tables_calm b k : is_tables b -> calm k ->
  marks false (b ++ k) = marks false b ++ replicate (length k) false.
Proof.
  destruct b as [|ln b]; [done|]. intros [H Hb] (_ & Hk & Hm). cbn. rewrite H. cbn. f_equal.
  rewrite (proj1 (marks_tables b k Hb Hk)). by rewrite Hm.
Qed.

(** The text as lines before the first block, and the rest. *)
Lemma first_block l : match first_true (marks false l) with
  | None => outside l
  | Some j => exists pre ln tl, l = pre ++ ln :: tl /\ length pre = j /\ outside pre /\ (kind_of ln = KChannel \/ kind_of ln = KSub)
  end.
Proof.
  induction l as [|ln l IH]; [constructor|]. cbn. destruct (kind_of ln) eqn:E; cbn [first_true andb].
  1,2: exists [], ln, l; repeat split; [constructor|auto].
  all: destruct (first_true (marks false l)) as [j|]; cbn;
    [destruct IH as (pre & x & tl & -> & <- & Ho & Hx); exists (ln :: pre), x, tl; repeat split; [|done]|];
    constructor; rewrite ?E; done.
Qed.
Lemma splice_keep i l m body : length l = length m -> splice i l m None body = select true l m.
Proof.
  revert i m. induction l as [|x l IH]; intros i [|r m] H; try done. injection H as H. cbn. rewrite IH by done. by destruct r.
Qed.
Lemma splice_late i j l m body : length l = length m -> (j < i)%nat -> splice i l m (Some j) body = select true l m.
Proof.
  revert i m. induction l as [|x l IH]; intros i [|r m] H Hj; try done. injection H as H. cbn [splice select].
  rewrite bool_decide_eq_false_2 by (intros [= ->]; lia). rewrite IH by (done || lia). by destruct r.
Qed.
Lemma splice_at i pre x tl m body : length (x :: tl) = length m ->
  splice i (pre ++ x :: tl) (replicate (length pre) false ++ m) (Some (i + length pre)%nat) body = pre ++ body :: select true (x :: tl) m.
Proof.
  revert i. induction pre as [|p pre IH]; intros i H; cbn [app length replicate].
  - destruct m as [|r m]; [done|]. injection H as H. cbn [splice select]. rewrite bool_decide_eq_true_2 by (f_equal; lia).
    rewrite splice_late by (done || lia). by destruct r.
  - cbn [splice]. rewrite bool_decide_eq_false_2 by (intros [= ?]; lia). cbn [app]. f_equal.
    rewrite <- (IH (S i)) by done. do 2 f_equal. lia.
Qed.

(** The parts of a split text, joined again. *)
Lemma Join_cons p q l : Join (p :: q :: l) newline = String.append p (String.append newline (Join (q :: l) newline)).
Proof. done. Qed.
Lemma Join_app a b : a <> [] -> b <> [] -> Join (a ++ b) newline = String.append (Join a newline) (String.append newline (Join b newline)).
Proof.
  intros Ha Hb. induction a as [|x a IH]; [done|]. destruct a as [|y a].
  - destruct b as [|z b]; [done|]. apply Join_cons.
  - change ((x :: y :: a) ++ b) with (x :: (y :: a) ++ b).
    change (Join (x :: (y :: a) ++ b) newline) with (String.append x (String.append newline (Join ((y :: a) ++ b) newline))).
    rewrite IH by done. rewrite Join_cons. by rewrite !append_assoc.
Qed.
Lemma split_chars_nonempty sep l cur : split_chars sep l cur <> [].
Proof. revert cur. induction l as [|c l IH]; intros cur; cbn; [done|]. by destruct (Ascii.eqb c sep). Qed.
Lemma Join_Split s : Join (Split s nl) newline = s.
Proof.
  unfold Split. rewrite <- (of_chars_chars s) at 2. change (chars s) with (rev [] ++ chars s) at 2.
  generalize (@nil ascii) as cur. induction (chars s) as [|c l IH]; intros cur; cbn [split_chars].
  - by rewrite app_nil_r.
  - destruct (Ascii.eqb_spec c nl) as [->|Hne].
    + specialize (IH []). destruct (split_chars nl l []) as [|p r] eqn:E; [by apply split_chars_nonempty in E|].
      rewrite Join_cons, IH. cbn [rev app]. rewrite of_chars_app. f_equal.
    + rewrite IH. cbn [rev]. by rewrite <- app_assoc.
Qed.
Lemma Join_one x : Join [x] newline = x.
Proof. done. Qed.
Lemma Join_flat a s c : Join (a ++ s :: c) newline = Join (a ++ Split s nl ++ c) newline.
Proof.
  assert (Hn : Split s nl <> []) by apply split_chars_nonempty.
  assert (H : forall c, Join (s :: c) newline = Join (Split s nl ++ c) newline).
  { intros [|x c']; [by rewrite app_nil_r, Join_Split|]. rewrite Join_app by done. by rewrite Join_Split. }
  destruct a as [|x a]; [apply H|]. rewrite !Join_app by (done || by destruct (Split s nl)). by rewrite H.
Qed.

(** The lines of the result. *)
Definition insert_tables (b l : list string) : list string :=
  match first_true (marks false l) with
  | Some j => take j l ++ b ++ kept false (drop j l)
  | None => spaced l ++ b
  end.
Lemma ReplaceChannels_lines raw m :
  ReplaceChannels raw m = join (insert_tables (Split (TrimSuffix m newline) nl) (lines_of raw)).
Proof.
  unfold ReplaceChannels, insert_tables. set (l := lines_of raw). set (body := TrimSuffix m newline). clearbody l body.
  destruct (channel_blocks_marks l) as [-> ->]. pose proof (first_block l) as Hf.
  destruct (first_true (marks false l)) as [j|].
  - destruct Hf as (pre & x & tl & -> & <- & Ho & Hx). rewrite marks_outside by done.
    rewrite (splice_at 0 pre x tl) by (by rewrite marks_length). rewrite take_app_length, drop_app_length.
    unfold join. by rewrite Join_flat.
  - rewrite splice_keep by by rewrite marks_length. pose proof (marks_outside l [] Hf) as Hm. rewrite !app_nil_r in Hm.
    rewrite Hm. rewrite select_false. unfold join.
    assert (Hs : match rev l with ln :: _ => if negb (blank ln) then l ++ [""] else l | [] => l end = spaced l).
    { unfold spaced. destruct (rev l); [done|]. by destruct (blank _). }
    rewrite Hs. by rewrite Join_flat, app_nil_r.
Qed.
Lemma select_incl keep l m : select keep l m ⊆ l.
Proof.
  revert m. induction l as [|x l IH]; intros [|r m]; cbn; [set_solver..|]. specialize (IH m). destruct (Bool.eqb r keep); set_solver.
Qed.
Lemma insert_one_line b l : Forall one_line b -> Forall one_line l -> Forall one_line (insert_tables b l).
Proof.
  intros Hb Hl. unfold insert_tables. destruct (first_true _) as [j|].
  - rewrite !Forall_app. split_and!; [by apply Forall_take|done|]. apply Forall_forall. intros x Hx.
    apply select_incl in Hx. apply (Forall_drop _ j) in Hl. rewrite Forall_forall in Hl. by apply Hl.
  - apply Forall_app. split; [|done]. destruct (spaced_or l) as [->| ->]; [done|]. apply Forall_app. split; [done|by repeat constructor].
Qed.
Lemma lines_of_Replace raw m : is_tables (Split (TrimSuffix m newline) nl) ->
  lines_of (ReplaceChannels raw m) = insert_tables (Split (TrimSuffix m newline) nl) (lines_of raw).
Proof.
  intros Hb. rewrite ReplaceChannels_lines. apply lines_of_join.
  - unfold insert_tables. destruct (Split _ _) as [|x b]; [done|]. destruct (first_true _) as [j|].
    + by destruct (take j _).
    + by destruct (spaced _).
  - apply insert_one_line; [apply Split_plain|apply lines_one_line].
Qed.

Lemma insert_shape b l : exists a c, insert_tables b l = a ++ b ++ c /\ outside a /\ calm c /\
  (kept false l = a ++ c \/ outside l /\ a = spaced l /\ c = []).
Proof.
  unfold insert_tables. pose proof (first_block l) as Hf. destruct (first_true (marks false l)) as [j|].
  - destruct Hf as (pre & x & tl & -> & <- & Ho & Hx). rewrite take_app_length, drop_app_length.
    assert (Hk : kept false (x :: tl) = kept true tl) by (unfold kept; cbn; by destruct Hx as [-> | ->]).
    exists pre, (kept true tl). rewrite Hk. repeat split; [done|apply kept_calm..|left].
    unfold kept at 1. rewrite marks_outside, select_app by (done || by rewrite length_replicate).
    rewrite select_false. f_equal. exact Hk.
  - exists (spaced l), []. rewrite app_nil_r. split; [done|]. split; [|split; [by repeat split; constructor|by right]].
    destruct (spaced_or l) as [->| ->]; [done|]. apply Forall_app. split; [done|]. by constructor; [|constructor].
Qed.
Section Tables.
Context (a b c : list string) (Ha : outside a) (Hb : is_tables b) (Hc : calm c).
Lemma marks_result : marks false (a ++ b ++ c) = replicate (length a) false ++ marks false b ++ replicate (length c) false.
Proof. by rewrite marks_outside, tables_calm. Qed.
Lemma select_result keep : select keep (a ++ b ++ c) (marks false (a ++ b ++ c)) =
  (if keep then a else []) ++ select keep b (marks false b) ++ (if keep then c else []).
Proof.
  rewrite marks_result, select_app by by rewrite length_replicate.
  rewrite select_app by by rewrite marks_length. by rewrite !select_false.
Qed.
Lemma first_true_replicate n l : first_true (replicate n false ++ true :: l) = Some n.
Proof. induction n as [|n IH]; [done|]. cbn. by rewrite IH. Qed.
Lemma insert_again : insert_tables b (a ++ b ++ c) = a ++ b ++ kept false b ++ c.
Proof.
  unfold insert_tables. rewrite marks_result.
  assert (Hf : first_true (replicate (length a) false ++ marks false b ++ replicate (length c) false) = Some (length a)).
  { clear Ha. destruct b as [|x b']; [done|]. destruct Hb as [Hk _]. cbn [marks app]. rewrite Hk.
    apply first_true_replicate. }
  rewrite Hf, take_app_length, drop_app_length. do 2 f_equal.
  unfold kept. rewrite tables_calm by done. rewrite select_app by by rewrite marks_length. by rewrite select_false.
Qed.
Lemma calm_again : calm (kept false b ++ c).
Proof.
  destruct b as [|x b']; [done|]. destruct Hb as [Hk _].
  assert (He : kept false (x :: b') = kept true b') by (unfold kept; cbn; by rewrite Hk).
  rewrite He. destruct (kept_calm b') as (H1 & H2 & H3), Hc as (K1 & K2 & K3). revert H1 H2 H3.
  generalize (kept true b') as k. clear -K1 K2 K3. induction k as [|ln k IH]; [done|]. cbn [app more marks length replicate].
  intros [H1a H1b]%Forall_cons H2 H3. destruct (kind_of ln) eqn:E; try done.
  - split; [constructor; [by rewrite E|by apply Forall_app]|]. cbn. rewrite E. split; [done|]. f_equal.
    rewrite marks_outside by done. pose proof (marks_outside c [] K1) as Hm. rewrite !app_nil_r in Hm.
    by rewrite Hm, length_app, replicate_add.
  - injection H3 as H3 H4. destruct (IH H1b H2 H4) as (I1 & I2 & I3).
    split; [by constructor; [rewrite E|]|]. cbn. rewrite E, I2, I3. done.
Qed.
End Tables.

(** After any number of further replacements. *)
Lemma replace_iter raw m n : let b := Split (TrimSuffix m newline) nl in is_tables b -> exists x c c',
  lines_of (ReplaceChannels raw m) = x ++ b ++ c /\
  lines_of (Nat.iter n (fun text => ReplaceChannels text m) (ReplaceChannels raw m)) = x ++ b ++ c' /\
  length c' = (length c + n * length (kept false b))%nat.
Proof.
  intros b Hb. destruct (insert_shape b (lines_of raw)) as (x & c & Hs & Hx & Hc & _). exists x, c.
  rewrite (lines_of_Replace raw m Hb). fold b. rewrite Hs.
  assert (H : exists c', lines_of (Nat.iter n (fun text => ReplaceChannels text m) (ReplaceChannels raw m)) = x ++ b ++ c' /\
    calm c' /\ length c' = (length c + n * length (kept false b))%nat).
  { induction n as [|n (c' & Hl & Hc' & Hn)].
    - exists c. change (Nat.iter 0 _ _) with (ReplaceChannels raw m). rewrite (lines_of_Replace raw m Hb). fold b. rewrite Hs.
      repeat split; [apply Hc..|lia].
    - exists (kept false b ++ c'). rewrite Nat.iter_succ, (lines_of_Replace _ m Hb). fold b. rewrite Hl, insert_again by done.
      split; [done|]. split; [by apply calm_again|]. rewrite length_app. lia. }
  destruct H as (c' & ? & _ & ?). by exists c'.
Qed.

(** ReplaceChannels swaps the channel tables and nothing else.  For an encoder output
    that consists of [[channel]] tables: the new text has exactly these tables; every
    line outside the old channel blocks stays, in its order - the blank lines between
    the new tables are the only ones added.  But those are not taken away again: they
    are not part of any block, so each further replacement (each preset switch) leaves
    them behind and the file grows by them, without bound; only a set of tables
    without blank lines between them can be written twice without a change. *)
Theorem replace_channels (raw m : string) :
  let b := Split (TrimSuffix m newline) nl in
  is_tables b ->
  let again := fun text => ReplaceChannels text m in
  let lines' := lines_of (ReplaceChannels raw m) in
  blocked false lines' = blocked false b /\
  (exists a c, kept false lines' = a ++ kept false b ++ c /\
     (kept false (lines_of raw) = a ++ c \/ a = spaced (lines_of raw) /\ c = [])) /\
  (forall n, length (lines_of (Nat.iter n again (ReplaceChannels raw m))) = (length lines' + n * length (kept false b))%nat) /\
  (kept false b = [] -> again (ReplaceChannels raw m) = ReplaceChannels raw m).
Proof.
  intros b Hb. cbn zeta. rewrite lines_of_Replace by done. fold b.
  destruct (insert_shape b (lines_of raw)) as (x & c & Hs & Hx & Hc & Hk). split_and!.
  - unfold blocked at 1. rewrite Hs, select_result by done. by rewrite app_nil_r.
  - exists x, c. split; [|tauto]. unfold kept at 1. by rewrite Hs, select_result by done.
  - intros n. destruct (replace_iter raw m n Hb) as (x' & c0 & c' & H0 & Hn & Hl). fold b in H0, Hn, Hl.
    rewrite lines_of_Replace in H0 by done. fold b in H0. rewrite H0. cbv beta in *. rewrite Hn, !length_app. lia.
  - intros He. cbv beta. etransitivity; [apply ReplaceChannels_lines|]. rewrite lines_of_Replace by done. fold b.
    rewrite Hs, insert_again, He by done. cbn [app]. rewrite <- Hs. symmetry. apply ReplaceChannels_lines.
Qed.

(** Two tables the way the encoder separates them: one more blank line with every
    preset switch. *)
Lemma replace_channels_witness :
  let raw := text ["[web]"; "listen = 1"] in
  ReplaceChannels (ReplaceChannels raw two_tables) two_tables
    = text ["[web]"; "listen = 1"; ""; "[[channel]]"; "name = 1"; ""; "[[channel]]"; "name = 2"; ""] /\
  length (lines_of (Nat.iter 30 (fun t => ReplaceChannels t two_tables) (ReplaceChannels raw two_tables))) = 38%nat.
Proof.
  split; [by vm_compute|]. rewrite (fun H => proj1 (proj2 (proj2 (replace_channels _ two_tables H)))); [by vm_compute|].
  assert (Split (TrimSuffix two_tables newline) nl = ["[[channel]]"; "name = 1"; ""; "[[channel]]"; "name = 2"]) as ->
    by by vm_compute.
  split; [by vm_compute|]. repeat (constructor; [by vm_compute|]). constructor.
Defined.
