(* ===== verification/LogFile.v ===== *)
(** The rotating log file (src/internal/logfile/logfile.go): the writer with its
    rotation, and the readers of its tail.

    The file system knows names and open files apart: a descriptor stays valid when its
    file is renamed or removed.  [fs_bad] are paths on which every operation fails, and
    the outside world may change anything between two calls. *)
From stdpp Require Import base gmap strings list.
From Stdlib Require Import ZArith Lia Ascii.
From S2P Require Import Prelude GoLib GoNet GoPath.
Open Scope Z_scope.

Definition TailLimit : Z := Z.shiftl 1 20.
Definition PrefixErr : string := "<3>".
Definition PrefixWarning : string := "<4>".

(** ** Files *)
Inductive Node := NFile (content : string) | NSymlink | NDir | NOther.
Record Fs := mkFs { fs_names : gmap string nat; fs_nodes : gmap nat Node; fs_next : nat; fs_dir : bool; fs_dirBad : bool; fs_bad : gset string }.
#[export] Instance eta_Fs : Eta Fs := fun s => mkFs (fs_names s) (fs_nodes s) (fs_next s) (fs_dir s) (fs_dirBad s) (fs_bad s).
Inductive LogErr := LNotExist | LBad | LSymlink | LDir | LNotRegular | LClosed | LEmptyPath.
Definition node (s : Fs) (path : string) : option Node := match fs_names s !! path with Some i => fs_nodes s !! i | None => None end.
Definition is_bad (s : Fs) (path : string) : bool := bool_decide (path ∈ fs_bad s).
Definition text (n : option Node) : string := match n with Some (NFile c) => c | _ => "" end.
Definition Remove (path : string) (s : Fs) : option LogErr * Fs :=
  if is_bad s path then (Some LBad, s)
  else match fs_names s !! path with None => (Some LNotExist, s) | Some _ => (None, s <| fs_names := delete path (fs_names s) |>) end.
Definition Rename (src dst : string) (s : Fs) : option LogErr * Fs :=
  if is_bad s src || is_bad s dst then (Some LBad, s)
  else match fs_names s !! src with
  | None => (Some LNotExist, s)
  | Some i => (None, s <| fs_names := <[dst := i]> (delete src (fs_names s)) |>)
  end.
Definition MkdirAll (s : Fs) : option LogErr * Fs := if fs_dirBad s then (Some LBad, s) else (None, s <| fs_dir := true |>).
(** [OpenFile] for appending, without following a link. *)
Definition OpenFile (path : string) (s : Fs) : (LogErr + nat) * Fs :=
  if is_bad s path then (inl LBad, s)
  else match fs_names s !! path with
  | Some i => (inr i, s)
  | None =>
      if negb (fs_dir s) then (inl LNotExist, s)
      else (inr (fs_next s), s <| fs_names := <[path := fs_next s]> (fs_names s) |> <| fs_nodes := <[fs_next s := NFile ""]> (fs_nodes s) |> <| fs_next := S (fs_next s) |>)
  end.
Definition set_text (i : nat) (f : string -> string) (s : Fs) : Fs :=
  s <| fs_nodes := alter (fun n => match n with NFile c => NFile (f c) | n => n end) i (fs_nodes s) |>.
Definition size_of (n : option Node) : Z := Z.of_nat (String.length (text n)).

(** ** The writer *)
Record Writer := mkWriter { lw_path : string; lw_maxSize : Z; lw_maxFiles : Z; lw_f : option nat; lw_closed : bool }.
#[export] Instance eta_Writer : Eta Writer := fun w => mkWriter (lw_path w) (lw_maxSize w) (lw_maxFiles w) (lw_f w) (lw_closed w).
Definition LM (A : Type) : Type := Writer * Fs -> A * (Writer * Fs).

Definition checkTarget (path : string) (s : Fs) : option LogErr :=
  if is_bad s path then Some LBad
  else match node s path with
  | None | Some (NFile _) => None
  | Some NSymlink => Some LSymlink
  | Some NDir => Some LDir
  | Some NOther => Some LNotRegular
  end.
Definition open : LM (option LogErr) := fun '(w, s) =>
  match checkTarget (lw_path w) s with
  | Some e => (Some e, (w, s))
  | None =>
      match OpenFile (lw_path w) s with
      | (inl e, s) => (Some e, (w, s))
      | (inr i, s) => (None, (w <| lw_f := Some i |>, s))
      end
  end.
Definition New_log (path : string) (maxSizeMB maxFiles : Z) (s : Fs) : option LogErr * (Writer * Fs) :=
  let w := mkWriter path (wrap64 (Z.shiftl (if maxSizeMB <? 1 then 1 else maxSizeMB) 20)) (if maxFiles <? 1 then 1 else maxFiles) None false in
  if String.eqb path "" then (Some LEmptyPath, (w, s))
  else match checkTarget path s with
  | Some e => (Some e, (w, s))
  | None => match MkdirAll s with (Some e, s) => (Some e, (w, s)) | (None, s) => open (w, s) end
  end.
Definition ensureOpenLocked : LM (option LogErr) := fun '(w, s) =>
  if lw_closed w then (Some LClosed, (w, s))
  else match lw_f w with
  | Some _ => (None, (w, s))
  | None => match MkdirAll s with (Some e, s) => (Some e, (w, s)) | (None, s) => open (w, s) end
  end.
Definition numbered_path (path : string) (i : Z) : string := String.append path (String.append "." (Itoa i)).
(** [for i := maxFiles; i >= 1; i--] over the numbers [nums]. *)
Fixpoint shift_loop (path : string) (maxFiles : Z) (nums : list Z) (s : Fs) : option LogErr * Fs :=
  match nums with
  | [] => (None, s)
  | i :: nums' =>
      let src := numbered_path path i in
      if i =? maxFiles then shift_loop path maxFiles nums' (Remove src s).2
      else match Rename src (numbered_path path (i + 1)) s with
      | (None, s) | (Some LNotExist, s) => shift_loop path maxFiles nums' s
      | (Some e, s) => (Some e, s)
      end
  end.
Definition rotateLocked : LM (option LogErr) := fun '(w, s) =>
  let w := w <| lw_f := None |> in
  let reopen e s := let '(_, st) := open (w, s) in (Some e, st) in
  match shift_loop (lw_path w) (lw_maxFiles w) (rev (seqZ 1 (lw_maxFiles w))) s with
  | (Some e, s) => reopen e s
  | (None, s) =>
      match Rename (lw_path w) (numbered_path (lw_path w) 1) s with
      | (None, s) | (Some LNotExist, s) => open (w, s)
      | (Some e, s) => reopen e s
      end
  end.
Definition append_to (p : string) (w : Writer) (s : Fs) : option LogErr * (Writer * Fs) :=
  match lw_f w with
  | Some i => (None, (w, set_text i (fun c => String.append c p) s))
  | None => (Some LClosed, (w, s))
  end.
Definition sizeLocked (w : Writer) (s : Fs) : Z := match lw_f w with Some i => size_of (fs_nodes s !! i) | None => 0 end.
(** A failed rotation keeps the old file, or opens it once more. *)
Definition Write (p : string) : LM (option LogErr) := fun st =>
  let '(e, (w, s)) := ensureOpenLocked st in
  match e with
  | Some e => (Some e, (w, s))
  | None =>
      let size := sizeLocked w s in
      if (0 <? size) && (lw_maxSize w <? size + Z.of_nat (String.length p)) then
        let '(e, (w, s)) := rotateLocked (w, s) in
        match e, lw_f w with
        | Some _, None => match ensureOpenLocked (w, s) with (Some e, st) => (Some e, st) | (None, (w, s)) => append_to p w s end
        | _, _ => append_to p w s
        end
      else append_to p w s
  end.
Definition Close : LM unit := fun '(w, s) => (tt, (w <| lw_closed := true |> <| lw_f := None |>, s)).
Definition Clear : LM (option LogErr) := fun st =>
  let '(e, (w, s)) := ensureOpenLocked st in
  match e, lw_f w with
  | None, Some i => (None, (w, set_text i (fun _ => "") s))
  | _, _ => (e, (w, s))
  end.
(** [Truncate], from another process: an existing file. *)
Definition Truncate (path : string) (s : Fs) : option LogErr * Fs :=
  if is_bad s path then (Some LBad, s)
  else match fs_names s !! path with None => (Some LNotExist, s) | Some i => (None, set_text i (fun _ => "") s) end.

(** ** Reading *)
Definition is_nl (c : ascii) : bool := is_char c "010".
Definition is_cr (c : ascii) : bool := is_char c "013".
Definition trim_right (p : ascii -> bool) (l : list ascii) : list ascii := rev (drop_while p (rev l)).
(** [start], and whether a line was cut there. *)
Definition tail_text (limit : nat) (content : list ascii) : list ascii :=
  if (limit <? length content)%nat
  then match cut_first "010"%char (drop (length content - limit) content) with Some (_, rest) => rest | None => [] end
  else content.
Definition tailFrom (limit : nat) (content : string) (n : Z) : list string :=
  let buf := trim_right is_nl (tail_text limit (chars content)) in
  match buf with
  | [] => []
  | _ =>
      let parts := Split (of_chars buf) "010"%char in
      let parts := drop (length parts - Z.to_nat n) parts in
      map (fun p => of_chars (trim_right is_cr (chars p))) parts
  end.
(** [follow] is what reading through a link or from a device gives. *)
Definition openSized (follow : string -> LogErr + string) (path : string) (s : Fs) : LogErr + option string :=
  if is_bad s path then inl LBad
  else match node s path with
  | None => inr None
  | Some (NFile c) => inr (Some c)
  | Some NDir => inl LDir
  | Some NSymlink | Some NOther => match follow path with inl e => inl e | inr c => inr (Some c) end
  end.
Definition ReadLines (follow : string -> LogErr + string) (path : string) (s : Fs) (n : Z) : LogErr + list string :=
  if n <=? 0 then inr []
  else match openSized follow path s with
  | inl e => inl e
  | inr None => inr []
  | inr (Some c) => inr (tailFrom (Z.to_nat TailLimit) c n)
  end.
Definition Lines (follow : string -> LogErr + string) (w : Writer) (s : Fs) (n : Z) : LogErr + list string := ReadLines follow (lw_path w) s n.
Definition Export (follow : string -> LogErr + string) (w : Writer) (s : Fs) : LogErr + string :=
  match openSized follow (lw_path w) s with inl e => inl e | inr None => inr "" | inr (Some c) => inr c end.

(** ** Stamps *)
Definition StripPrefix (p : list ascii) : list ascii :=
  match p with
  | a :: b :: c :: rest =>
      let n := N_of_ascii b in
      if is_char a "<" && ((48 <=? n) && (n <=? 55))%N && is_char c ">" then rest else p
  | _ => p
  end.
Definition Timestamped (stamp p : string) : LM (option LogErr) := Write (String.append stamp (of_chars (StripPrefix (chars p)))).

Example tail_ex :
  tailFrom 9 (Join ["first"; "second"; "third"; ""; ""] newline) 5 = ["third"] /\
  tailFrom 99 (Join ["first"; "second"; "third"; ""; ""] newline) 2 = ["second"; "third"] /\
  of_chars (StripPrefix (chars "<4>alert")) = "alert".
Proof. by vm_compute. Qed.

(** ** Names *)
Section Rotation.
Variable (path : string).
Definition name_of (i : Z) : string := if i =? 0 then path else numbered_path path i.
Lemma name_of_inj i j : 0 <= i -> 0 <= j -> name_of i = name_of j -> i = j.
Proof.
  assert (Hne : forall k, numbered_path path k <> path).
  { intros k H. apply (f_equal String.length) in H. unfold numbered_path in H. rewrite !length_append in H. cbn in H. lia. }
  unfold name_of. intros Hi Hj. destruct (Z.eqb_spec i 0), (Z.eqb_spec j 0); subst; try done.
  - intros H. by destruct (Hne j).
  - intros H. by destruct (Hne i).
  - unfold numbered_path. intros H%append_inj_l. injection H as H. by apply Itoa_inj.
Qed.

(** A file system nothing is wrong with: every name is a regular file of its own. *)
Record fs_ok (s : Fs) : Prop := {
  fo_bad : fs_bad s = ∅; fo_dirBad : fs_dirBad s = false; fo_dir : fs_dir s = true;
  fo_file p i : fs_names s !! p = Some i -> (i < fs_next s)%nat /\ exists c, fs_nodes s !! i = Some (NFile c);
  fo_inj p q i : fs_names s !! p = Some i -> fs_names s !! q = Some i -> p = q }.
Lemma fs_ok_good s p : fs_ok s -> is_bad s p = false.
Proof. intros H. unfold is_bad. rewrite (fo_bad _ H). by apply bool_decide_eq_false_2. Qed.
Lemma Remove_ok p s : fs_ok s -> let s' := (Remove p s).2 in
  fs_ok s' /\ fs_names s' = delete p (fs_names s) /\ fs_nodes s' = fs_nodes s /\ fs_next s' = fs_next s.
Proof.
  intros H. unfold Remove. rewrite fs_ok_good by done. destruct (fs_names s !! p) eqn:E; cbn.
  - split; [|done]. destruct H as [H1 H2 H3 H4 H5], s. cbn in *. split; cbn; try done.
    + intros q i Hq. apply lookup_delete_Some in Hq as [_ Hq]. by eapply H4.
    + intros q r i Hq Hr. apply lookup_delete_Some in Hq as [_ Hq], Hr as [_ Hr]. by eapply H5.
  - split; [done|]. split; [|done]. symmetry. by apply delete_id.
Qed.
Lemma Rename_ok a b s : fs_ok s -> a <> b -> let '(e, s') := Rename a b s in
  fs_ok s' /\ fs_nodes s' = fs_nodes s /\ fs_next s' = fs_next s /\
  match fs_names s !! a with
  | Some i => e = None /\ fs_names s' = <[b := i]> (delete a (fs_names s))
  | None => e = Some LNotExist /\ s' = s
  end.
Proof.
  intros H Hab. unfold Rename. rewrite !fs_ok_good by done. cbn [orb]. destruct (fs_names s !! a) as [i|] eqn:E; [|done].
  split; [|done]. destruct H as [H1 H2 H3 H4 H5], s. cbn in *. split; cbn; try done.
  - intros q j. rewrite lookup_insert_Some, lookup_delete_Some. intros [[_ <-]|(_ & _ & Hq)]; eauto.
  - intros q r j. rewrite !lookup_insert_Some, !lookup_delete_Some.
    intros [[<- <-]|(? & ? & Hq)] [[<- ?]|(? & ? & Hr)]; subst; try done; [exfalso; eauto..|by eapply H5].
Qed.

(** ** Shifting *)
(** All numbers above [k] are done. *)
Definition shifted (n k : Z) (s0 s : Fs) : Prop :=
  (forall j, k + 1 < j <= n -> fs_names s !! name_of j = fs_names s0 !! name_of (j - 1)) /\
  (k < n -> fs_names s !! name_of (k + 1) = None) /\
  (forall j, 0 <= j <= k -> fs_names s !! name_of j = fs_names s0 !! name_of j) /\
  fs_nodes s = fs_nodes s0 /\ fs_next s = fs_next s0.
Lemma shift_one n k s0 s : 0 <= k < n -> fs_ok s -> shifted n (k + 1) s0 s ->
  let s' := if k + 1 =? n then (Remove (name_of (k + 1)) s).2 else (Rename (name_of (k + 1)) (name_of (k + 1 + 1)) s).2 in
  fs_ok s' /\ shifted n k s0 s'.
Proof.
  intros Hk Hs (H1 & H2 & H3 & H4 & H5). destruct (Z.eqb_spec (k + 1) n) as [En|Hne].
  - destruct (Remove_ok (name_of (k + 1)) s Hs) as (Ho & En' & Ed & Ex). split; [done|]. split_and!; rewrite ?Ed, ?Ex; try done; rewrite En'.
    + intros j Hj. lia.
    + intros _. by rewrite lookup_delete_eq.
    + intros j Hj. rewrite lookup_delete_ne by (intros E%name_of_inj; lia). apply H3. lia.
  - assert (Hd : name_of (k + 1) <> name_of (k + 1 + 1)) by (intros E%name_of_inj; lia).
    pose proof (Rename_ok _ _ s Hs Hd) as Hr. destruct (Rename _ _ s) as [e s']. destruct Hr as (Ho & Ed & Ex & Hr). cbn. split; [done|].
    specialize (H2 ltac:(lia)). pose proof (H3 (k + 1) ltac:(lia)) as Hk1.
    destruct (fs_names s !! name_of (k + 1)) as [i|] eqn:E.
    + destruct Hr as [_ Hr]. split_and!; rewrite ?Ed, ?Ex; try done; rewrite Hr.
      * intros j Hj. destruct (decide (j = k + 1 + 1)) as [->|Hj'].
        { rewrite lookup_insert_eq. by replace (k + 1 + 1 - 1) with (k + 1) by lia. }
        rewrite lookup_insert_ne by (intros E'%name_of_inj; lia). rewrite lookup_delete_ne by (intros E'%name_of_inj; lia). apply H1. lia.
      * intros _. rewrite lookup_insert_ne by (intros E'%name_of_inj; lia). by rewrite lookup_delete_eq.
      * intros j Hj. rewrite lookup_insert_ne by (intros E'%name_of_inj; lia). rewrite lookup_delete_ne by (intros E'%name_of_inj; lia). apply H3. lia.
    + destruct Hr as [_ ->]. split_and!; try done.
      * intros j Hj. destruct (decide (j = k + 1 + 1)) as [->|Hj']; [|apply H1; lia]. replace (k + 1 + 1 - 1) with (k + 1) by lia. by rewrite H2, <- Hk1.
      * intros j Hj. apply H3. lia.
Qed.
Lemma shift_spec n (k : nat) s0 s : Z.of_nat k <= n -> fs_ok s -> shifted n (Z.of_nat k) s0 s ->
  exists s', shift_loop path n (rev (seqZ 1 (Z.of_nat k))) s = (None, s') /\ fs_ok s' /\ shifted n 0 s0 s'.
Proof.
  revert s. induction k as [|k IH]; intros s Hk Hs Hm; [by exists s|].
  rewrite Nat2Z.inj_succ in *. rewrite <- Z.add_1_r in *. rewrite seqZ_app, rev_app_distr by lia. cbn [seqZ rev app]. 
  change (seqZ (1 + Z.of_nat k) 1) with [1 + Z.of_nat k]. cbn [rev app shift_loop].
  replace (1 + Z.of_nat k) with (Z.of_nat k + 1) by lia.
  assert (En : forall i, 0 < i -> numbered_path path i = name_of i) by (intros i Hi; unfold name_of; by rewrite (proj2 (Z.eqb_neq i 0)) by lia).
  rewrite !En by lia. pose proof (shift_one n (Z.of_nat k) s0 s ltac:(lia) Hs Hm) as H.
  destruct (Z.eqb_spec (Z.of_nat k + 1) n) as [E|E].
  - destruct H as [Ho Hm']. apply IH; [lia|done..].
  - pose proof (Rename_ok (name_of (Z.of_nat k + 1)) (name_of (Z.of_nat k + 1 + 1)) s Hs ltac:(intros E'%name_of_inj; lia)) as Hr.
    destruct (Rename _ _ s) as [e s']. cbn in H. destruct H as [Ho Hm'].
    destruct Hr as (_ & _ & _ & Hr). destruct (fs_names s !! _); destruct Hr as [-> _]; apply IH; (lia || done).
Qed.

(** ** One write *)
Record quiet (w : Writer) (s : Fs) : Prop := {
  q_fs : fs_ok s; q_path : lw_path w = path; q_closed : lw_closed w = false; q_files : 1 <= lw_maxFiles w;
  q_open : exists i, lw_f w = Some i /\ fs_names s !! path = Some i }.
Definition same_limits (w w' : Writer) : Prop := lw_maxSize w' = lw_maxSize w /\ lw_maxFiles w' = lw_maxFiles w.
Lemma node_names s s' p q : fs_names s' !! p = fs_names s !! q -> fs_nodes s' = fs_nodes s -> node s' p = node s q.
Proof. unfold node. by intros -> ->. Qed.
Lemma open_spec w s : fs_ok s -> lw_path w = path -> fs_names s !! path = None -> lw_closed w = false -> 1 <= lw_maxFiles w ->
  exists w' s', open (w, s) = (None, (w', s')) /\ quiet w' s' /\ same_limits w w' /\ node s' path = Some (NFile "") /\
    forall p, p <> path -> node s' p = node s p.
Proof.
  intros Hs Hp Hn Hc Hm. unfold open, checkTarget, OpenFile. rewrite Hp, fs_ok_good by done. unfold node at 1. rewrite Hn, (fo_dir _ Hs). cbn.
  eexists _, _. split; [done|]. split_and!.
  - split; cbn; try done.
    + destruct Hs as [H1 H2 H3 H4 H5], s as [nm nd nx d db bd]. cbn in *. split; cbn; try done.
      * intros q j. rewrite lookup_insert_Some. intros [[_ <-]|[_ Hq]]; [split; [lia|exists ""; by rewrite lookup_insert_eq]|].
        destruct (H4 _ _ Hq) as [Hlt [c Hc']]. split; [lia|]. exists c. by rewrite lookup_insert_ne by lia.
      * intros q r j. rewrite !lookup_insert_Some. intros [[<- <-]|[? Hq]] [[<- Hj]|[? Hr]]; try done; [by apply H4 in Hr as [? _]; lia|subst; by apply H4 in Hq as [? _]; lia|by eapply H5].
    + exists (fs_next s). split; [done|]. by rewrite lookup_insert_eq.
  - done.
  - unfold node. cbn. by rewrite !lookup_insert_eq.
  - intros p Hne. unfold node. cbn. rewrite lookup_insert_ne by done. destruct (fs_names s !! p) as [j|] eqn:E; [|done].
    apply (fo_file _ Hs) in E as [? _]. by rewrite lookup_insert_ne by lia.
Qed.
Lemma rotate_spec w s : quiet w s -> exists w' s', rotateLocked (w, s) = (None, (w', s')) /\ quiet w' s' /\ same_limits w w' /\
  node s' path = Some (NFile "") /\ forall j, 1 <= j <= lw_maxFiles w -> node s' (name_of j) = node s (name_of (j - 1)).
Proof.
  intros [Hs Hp Hc Hm (i & Hf & Hi)]. unfold rotateLocked. cbv zeta.
  change (lw_path (w <| lw_f := None |>)) with (lw_path w). change (lw_maxFiles (w <| lw_f := None |>)) with (lw_maxFiles w). rewrite Hp.
  destruct (shift_spec (lw_maxFiles w) (Z.to_nat (lw_maxFiles w)) s s) as (s1 & E & Hs1 & Hsh); [lia|done| |].
  { rewrite Z2Nat.id by lia. split_and!; try done; lia. }
  rewrite Z2Nat.id in E by lia. rewrite E. destruct Hsh as (H1 & H2 & H3 & H4 & H5). specialize (H3 0 ltac:(lia)).
  assert (Hd : name_of 0 <> name_of 1) by (intros E'%name_of_inj; lia). pose proof (Rename_ok _ _ s1 Hs1 Hd) as Hr.
  change (numbered_path path 1) with (name_of 1). change (name_of 0) with path in *.
  destruct (Rename path (name_of 1) s1) as [e s2]. destruct Hr as (Hs2 & En & Ex & Hr). rewrite H3, Hi in Hr. destruct Hr as [-> Hr].
  destruct (open_spec (w <| lw_f := None |>) s2) as (w' & s' & -> & Hq & Hl & Hnew & Hold); try done.
  { by rewrite Hr, lookup_insert_ne, lookup_delete_eq. }
  exists w', s'. split; [done|]. split_and!; [done|done|done|]. intros j Hj. rewrite Hold by (intros E'; change path with (name_of 0) in E'; apply name_of_inj in E'; lia).
  apply node_names; [|congruence]. rewrite Hr. destruct (decide (j = 1)) as [->|Hj1].
  - rewrite lookup_insert_eq. change (name_of (1 - 1)) with path. by rewrite Hi.
  - rewrite lookup_insert_ne by (intros E'%name_of_inj; lia).
    rewrite lookup_delete_ne by (intros E'; change path with (name_of 0) in E'; apply name_of_inj in E'; lia). apply H1. lia.
Qed.
Lemma append_spec w s p : quiet w s -> exists s', append_to p w s = (None, (w, s')) /\ quiet w s' /\
  text (node s' path) = String.append (text (node s path)) p /\ forall q, q <> path -> node s' q = node s q.
Proof.
  intros [Hs Hp Hc Hm (i & Hf & Hi)]. unfold append_to. rewrite Hf. eexists. split; [done|].
  destruct (fo_file _ Hs _ _ Hi) as [Hlt [c Hc']]. split_and!.
  - split; try done; [|by exists i]. destruct Hs as [H1 H2 H3 H4 H5]. split; cbn; try done.
    intros q j Hq. destruct (H4 _ _ Hq) as [? [c' E]]. split; [done|]. destruct (decide (i = j)) as [->|Hne].
    + rewrite lookup_alter_eq, E. cbn. eauto.
    + rewrite lookup_alter_ne by done. eauto.
  - unfold node. cbn. rewrite Hi, lookup_alter_eq, Hc'. done.
  - intros q Hq. unfold node. cbn. destruct (fs_names s !! q) as [j|] eqn:E; [|done]. rewrite lookup_alter_ne; [done|]. intros ->. apply Hq. by eapply fo_inj.
Qed.
Lemma Write_spec w s p : quiet w s -> let size := size_of (node s path) in
  exists w' s', Write p (w, s) = (None, (w', s')) /\ quiet w' s' /\ same_limits w w' /\
  if (0 <? size) && (lw_maxSize w <? size + Z.of_nat (String.length p))
  then text (node s' path) = p /\ forall j, 1 <= j <= lw_maxFiles w -> node s' (name_of j) = node s (name_of (j - 1))
  else text (node s' path) = String.append (text (node s path)) p /\ forall q, q <> path -> node s' q = node s q.
Proof.
  intros Hq. pose proof Hq as [Hs Hp Hc Hm (i & Hf & Hi)]. cbn zeta. unfold Write, ensureOpenLocked. rewrite Hc, Hf. cbv zeta iota beta.
  assert (Esz : sizeLocked w s = size_of (node s path)) by (unfold sizeLocked, node; by rewrite Hf, Hi). rewrite Esz.
  destruct ((0 <? _) && _).
  - destruct (rotate_spec w s Hq) as (w1 & s1 & -> & Hq1 & Hl & Hnew & Hold). destruct (append_spec w1 s1 p Hq1) as (s2 & E & Hq2 & Ht & Ho).
    exists w1, s2. rewrite E. split; [by destruct (lw_f w1)|]. split_and!; [done|done| |].
    + rewrite Ht, Hnew. done.
    + intros j Hj. rewrite Ho by (intros E'; change path with (name_of 0) in E'; apply name_of_inj in E'; lia). by apply Hold.
  - destruct (append_spec w s p Hq) as (s2 & E & Hq2 & Ht & Ho). exists w, s2. rewrite E. done.
Qed.

(** ** Any number of writes *)
Definition glue (l : list string) : string := fold_right String.append "" l.
Lemma glue_app l1 l2 : glue (l1 ++ l2) = String.append (glue l1) (glue l2).
Proof. induction l1 as [|x l1 IH]; [done|]. change (glue ((x :: l1) ++ l2)) with (String.append x (glue (l1 ++ l2))). by rewrite IH, <- append_assoc. Qed.
(** The log as a reader sees it, oldest file first. *)
Definition view (n : Z) (s : Fs) : string := glue (map (fun j => text (node s (name_of j))) (rev (seqZ 0 (n + 1)))).
Fixpoint writes (ps : list string) : LM (option LogErr) := fun st =>
  match ps with
  | [] => (None, st)
  | p :: ps' => match Write p st with (Some e, st) => (Some e, st) | (None, st) => writes ps' st end
  end.
Record logged (written : string) (ps : list string) (w : Writer) (s : Fs) : Prop := {
  lo_quiet : quiet w s;
  lo_suffix : exists dropped, written = String.append dropped (view (lw_maxFiles w) s) /\
    (dropped = "" \/ lw_maxSize w < Z.of_nat (String.length (view (lw_maxFiles w) s)));
  lo_size j : 0 <= j <= lw_maxFiles w -> size_of (node s (name_of j)) <= lw_maxSize w \/ text (node s (name_of j)) ∈ ps }.
Lemma view_split n s : 1 <= n -> view n s = String.append (glue (map (fun j => text (node s (name_of j))) (rev (seqZ 1 n)))) (text (node s path)).
Proof.
  intros Hn. unfold view. rewrite seqZ_cons by lia. replace (Z.pred (n + 1)) with n by lia. cbn [rev]. rewrite map_app, glue_app. cbn [map glue fold_right]. by rewrite append_nil_r.
Qed.
(** Rotation drops the oldest file and starts the newest. *)
Lemma view_rotated n s s' : 1 <= n -> (forall j, 1 <= j <= n -> node s' (name_of j) = node s (name_of (j - 1))) ->
  view n s = String.append (text (node s (name_of n))) (glue (map (fun j => text (node s' (name_of j))) (rev (seqZ 1 n)))).
Proof.
  intros Hn Hold. unfold view. rewrite seqZ_app, rev_app_distr, map_app, glue_app by lia.
  change (seqZ (0 + n) 1) with [0 + n]. cbn [rev app map glue fold_right]. rewrite append_nil_r, Z.add_0_l.
  f_equal. f_equal. rewrite !map_rev. f_equal. replace (seqZ 1 n) with (map (Z.add 1) (seqZ 0 n)) by (apply (fmap_add_seqZ 1 0)).
  rewrite map_map. apply map_ext_in. intros j Hj. apply list_elem_of_In, elem_of_seqZ in Hj. rewrite Hold by lia. by replace (1 + j - 1) with j by lia.
Qed.
Lemma logged_step written ps w s p : logged written ps w s ->
  exists w' s', Write p (w, s) = (None, (w', s')) /\ same_limits w w' /\ logged (String.append written p) (ps ++ [p]) w' s'.
Proof.
  intros [Hq (d & Hw & Hd) Hsz]. pose proof (q_files _ _ Hq) as Hn. set (n := lw_maxFiles w) in *.
  destruct (Write_spec w s p Hq) as (w' & s' & E & Hq' & [Hms Hmf] & H). exists w', s'. split; [done|]. split; [done|].
  fold n in H, Hmf. destruct ((0 <? _) && _) eqn:Er.
  - destruct H as [Hnew Hold]. apply andb_true_iff in Er as [E0%Z.ltb_lt Er%Z.ltb_lt].
    rewrite (view_rotated n s s') in Hw, Hd by done. split; [done| |]; rewrite ?Hmf, ?Hms.
    + exists (String.append d (text (node s (name_of n)))). rewrite view_split, Hnew by done. split; [by rewrite Hw, !append_assoc|right].
      rewrite length_append.
      assert (Hone : (String.length (text (node s path)) <= String.length (glue (map (fun j => text (node s' (name_of j))) (rev (seqZ 1 n)))))%nat).
      { rewrite seqZ_cons by lia. cbn [rev]. rewrite map_app, glue_app, length_append. cbn [map]. rewrite (Hold 1) by lia.
        change (name_of (1 - 1)) with path. cbn [glue fold_right]. rewrite append_nil_r. lia. }
      unfold size_of in Er. lia.
    + intros j Hj. destruct (decide (j = 0)) as [->|Hj0].
      * right. change (name_of 0) with path. rewrite Hnew. apply elem_of_app. right. by apply list_elem_of_singleton.
      * rewrite Hold by lia. destruct (Hsz (j - 1) ltac:(lia)) as [?|?]; [by left|right]. apply elem_of_app. by left.
  - destruct H as [Hnew Hold]. assert (Hoth : forall j, 1 <= j <= n -> node s' (name_of j) = node s (name_of j)).
    { intros j Hj. apply Hold. change path with (name_of 0). intros E'%name_of_inj; lia. }
    assert (Ev : view n s' = String.append (view n s) p).
    { rewrite !view_split, Hnew, append_assoc by done. f_equal. f_equal. apply map_ext_in. intros j Hj.
      apply in_rev, list_elem_of_In, elem_of_seqZ in Hj. by rewrite Hoth by lia. }
    split; [done| |]; rewrite ?Hmf, ?Hms.
    + exists d. rewrite Ev, Hw, append_assoc. split; [done|]. destruct Hd as [?|?]; [by left|right]. rewrite length_append. lia.
    + intros j Hj. destruct (decide (j = 0)) as [->|Hj0].
      * change (name_of 0) with path in *. unfold size_of in *. rewrite Hnew. rewrite length_append. destruct (decide (0 < Z.of_nat (String.length (text (node s path))))) as [Hpos|Hz].
        { left. rewrite (proj2 (Z.ltb_lt _ _) Hpos) in Er. apply Z.ltb_ge in Er. lia. }
        right. destruct (text (node s path)); [|cbn in Hz; lia]. apply elem_of_app. right. by apply list_elem_of_singleton.
      * rewrite Hoth by lia. destruct (Hsz j Hj) as [?|?]; [by left|right]. apply elem_of_app. by left.
Qed.
Lemma logged_writes ps : forall written qs w s, logged written qs w s ->
  exists w' s', writes ps (w, s) = (None, (w', s')) /\ same_limits w w' /\ logged (String.append written (glue ps)) (qs ++ ps) w' s'.
Proof.
  induction ps as [|p ps IH]; intros written qs w s H; cbn [writes].
  - exists w, s. rewrite append_nil_r, app_nil_r. done.
  - destruct (logged_step written qs w s p H) as (w1 & s1 & -> & Hl & H1). destruct (IH _ _ _ _ H1) as (w2 & s2 & -> & Hl2 & H2).
    exists w2, s2. unfold same_limits in *. rewrite <- append_assoc in H2 || rewrite append_assoc in H2. rewrite <- app_assoc in H2. split; [done|]. split; [destruct Hl, Hl2; split; congruence|]. exact H2.
Qed.
(** A path that has no files yet. *)
Definition unused (n : Z) (s : Fs) : Prop := forall j, 0 <= j <= n -> fs_names s !! name_of j = None.
Lemma New_log_ok mb files s : fs_ok s -> path <> "" -> 1 <= mb < 2 ^ 43 -> 1 <= files -> unused files s ->
  exists w s', New_log path mb files s = (None, (w, s')) /\ lw_maxSize w = mb * 2 ^ 20 /\ lw_maxFiles w = files /\ logged "" [] w s'.
Proof.
  intros Hs Hp Hmb Hf Hu. unfold New_log, checkTarget, MkdirAll. rewrite fs_ok_good, (fo_dirBad _ Hs) by done.
  pose proof (Hu 0 ltac:(lia)) as H0. change (name_of 0) with path in H0. unfold node at 1. rewrite H0.
  rewrite (proj2 (String.eqb_neq path "") Hp). rewrite (proj2 (Z.ltb_ge mb 1)), (proj2 (Z.ltb_ge files 1)) by lia.
  rewrite Z.shiftl_mul_pow2, wrap64_id by (lia || (unfold in_int64; apply andb_true_iff; rewrite Z.leb_le, Z.ltb_lt; lia)).
  assert (Es : s <| fs_dir := true |> = s) by (destruct s; cbn; f_equal; by rewrite <- (fo_dir _ Hs)). rewrite Es.
  set (w0 := mkWriter path (mb * 2 ^ 20) files None false).
  destruct (open_spec w0 s) as (w & s' & E & Hq & [Hms Hmf] & Hnew & Hold); try done.
  exists w, s'. rewrite E. split; [done|]. cbn in Hms, Hmf. split; [done|]. split; [done|].
  assert (Hempty : forall j, 0 <= j <= files -> text (node s' (name_of j)) = "").
  { intros j Hj. destruct (decide (j = 0)) as [->|Hj0]; [change (name_of 0) with path; by rewrite Hnew|].
    rewrite Hold by (change path with (name_of 0); intros E'%name_of_inj; lia). unfold node. by rewrite Hu by lia. }
  split; [done| |].
  - exists "". split; [|by left]. rewrite Hmf. unfold view. assert (Hz : forall l, (forall j, In j l -> 0 <= j <= files) -> glue (map (fun j => text (node s' (name_of j))) l) = "").
    { intros l. induction l as [|j l IH]; intros Hl; [done|]. change (String.append (text (node s' (name_of j))) (glue (map (fun j => text (node s' (name_of j))) l)) = "").
      rewrite Hempty by (apply Hl; by left). apply IH. intros k Hk. apply Hl. by right. }
    rewrite Hz; [done|]. intros j Hj. apply in_rev, list_elem_of_In, elem_of_seqZ in Hj. lia.
  - intros j Hj. left. rewrite Hmf in Hj. unfold size_of. rewrite Hempty by done. rewrite Hms. cbn. lia.
Qed.
End Rotation.

(** C6: A log opened on an unused path takes every line: no write fails, the files from the
    oldest rotation to the current one always hold an unbroken end of all that was written
    (nothing is lost but the oldest lines, and only once more than the size limit is kept),
    and each file is within the limit or holds one single write. *)
Theorem log_suffix path mb files ps s : fs_ok s -> path <> "" -> 1 <= mb < 2 ^ 43 -> 1 <= files -> unused path files s ->
  exists w0 s0 w1 s1 dropped,
    New_log path mb files s = (None, (w0, s0)) /\ writes ps (w0, s0) = (None, (w1, s1)) /\
    glue ps = String.append dropped (view path files s1) /\
    (dropped = "" \/ mb * 2 ^ 20 < Z.of_nat (String.length (view path files s1))) /\
    forall j, 0 <= j <= files -> size_of (node s1 (name_of path j)) <= mb * 2 ^ 20 \/ text (node s1 (name_of path j)) ∈ ps.
Proof.
  intros Hs Hp Hmb Hf Hu. destruct (New_log_ok path mb files s Hs Hp Hmb Hf Hu) as (w0 & s0 & E0 & Hms & Hmf & H0).
  destruct (logged_writes path ps "" [] w0 s0 H0) as (w1 & s1 & E1 & [Hl1 Hl2] & [_ (d & Hd & Hc) Hz]).
  rewrite Hl1, Hl2, Hms, Hmf in *. exists w0, s0, w1, s1, d. done.
Qed.
Definition empty_fs : Fs := mkFs ∅ ∅ 0 true false ∅.
Lemma empty_fs_ok : fs_ok empty_fs.
Proof. by split. Qed.
Lemma log_suffix_witness : exists w0 s0 w1 s1 dropped,
  New_log "/var/log/n5-fangov.log" 1 2 empty_fs = (None, (w0, s0)) /\ writes ["one"; "two"] (w0, s0) = (None, (w1, s1)) /\
  glue ["one"; "two"] = String.append dropped (view "/var/log/n5-fangov.log" 2 s1) /\
  (dropped = "" \/ 1 * 2 ^ 20 < Z.of_nat (String.length (view "/var/log/n5-fangov.log" 2 s1))) /\
  forall j, 0 <= j <= 2 -> size_of (node s1 (name_of "/var/log/n5-fangov.log" j)) <= 1 * 2 ^ 20 \/ text (node s1 (name_of "/var/log/n5-fangov.log" j)) ∈ ["one"; "two"].
Proof. apply (log_suffix "/var/log/n5-fangov.log" 1 2 ["one"; "two"] empty_fs); [apply empty_fs_ok|done|lia|lia|intros j _; apply lookup_empty]. Defined.
