(* ===== verification/WebTable.v ===== *)
(** Tables of the web server that hold one entry per source and are kept bounded: when
    one is full, entries idle for some time go, and if there is none the oldest one
    (the pruneLocked of src/internal/web/ratelimit.go and of token.go). *)
From stdpp Require Import base gmap strings list.
From Stdlib Require Import ZArith Lia Ascii.
From S2P Require Import Prelude GoLib GoPath.
Open Scope Z_scope.

Section Table.
Context {Mo : MapOrder} {A : Type} (last : A -> Z) (idle : Z).
Implicit Types (b : gmap string A) (now : Z).

(** One turn of the loop: the entries left, and the oldest one so far ("" for none). *)
Definition prune_one now (st : gmap string A * (string * Z)) (kv : string * A) : gmap string A * (string * Z) :=
  let '(b, (oldestIP, oldest)) := st in
  if idle <? now - last kv.2 then (delete kv.1 b, (oldestIP, oldest))
  else if String.eqb oldestIP "" || (last kv.2 <? oldest) then (b, (kv.1, last kv.2))
  else (b, (oldestIP, oldest)).
Definition prune_loop now b : gmap string A * string :=
  let '(b, (oldest, _)) := fold_left (prune_one now) (map_iter b) (b, ("", 0)) in (b, oldest).

(** No entry has the empty key. *)
Definition named b : Prop := b !! "" = None.
Lemma prune_fold now b rest st :
  NoDup (map fst rest) -> (forall kv, kv ∈ rest -> kv.1 <> "" /\ is_Some (st.1 !! kv.1)) -> st.1 ⊆ b ->
  (st.2.1 = "" -> forall k, is_Some (st.1 !! k) -> k ∈ map fst rest) ->
  (st.2.1 <> "" -> is_Some (st.1 !! st.2.1) /\ st.2.1 ∉ map fst rest) ->
  let r := fold_left (prune_one now) rest st in
  r.1 ⊆ b /\ (r.2.1 = "" -> r.1 = ∅) /\ (r.2.1 <> "" -> is_Some (r.1 !! r.2.1)).
Proof.
  revert st. induction rest as [|[k f] rest IH]; intros [m [ip t]]; cbn [fst snd map fold_left]; intros Hnd Hin Hsub Hnone Hsome.
  - split_and!; [done| |by intros []%Hsome]. intros He. apply map_eq. intros k. rewrite lookup_empty.
    destruct (m !! k) eqn:E; [|done]. exfalso. eapply not_elem_of_nil. apply (Hnone He k). eauto.
  - apply NoDup_cons in Hnd as [Hk Hnd]. destruct (Hin (k, f)) as [Hne _]; [by left|]. cbn in Hne.
    set (st' := prune_one now (m, (ip, t)) (k, f)). assert (Hst : st' = if idle <? now - last f then (delete k m, (ip, t))
      else if String.eqb ip "" || (last f <? t) then (m, (k, last f)) else (m, (ip, t))) by done.
    clearbody st'. subst st'. destruct (_ <? now - _).
    + apply IH; cbn [fst snd]; [done| |by etransitivity; [apply delete_subseteq|]| |].
      * intros [k' f'] H. destruct (Hin (k', f')) as [H1 H2]; [by right|]. cbn in *. split; [done|].
        rewrite lookup_delete_ne; [done|]. intros ->. apply Hk. apply list_elem_of_fmap. by exists (k', f').
      * intros He k' [x H]. apply lookup_delete_Some in H as [H1 H2]. specialize (Hnone He k' ltac:(eauto)).
        apply elem_of_cons in Hnone as [->|?]; done.
      * intros He. destruct (Hsome He) as [H1 H2]. apply not_elem_of_cons in H2 as [H2 H3]. split; [|done].
        by rewrite lookup_delete_ne.
    + assert (Hrest : forall kv, kv ∈ rest -> kv.1 <> "" /\ is_Some (m !! kv.1)) by (intros; apply Hin; by right).
      assert (Hm : is_Some (m !! k)) by (apply (Hin (k, f)); by left).
      destruct (String.eqb_spec ip "") as [->|Hip]; [|destruct (_ <? t)]; cbn [orb]; apply IH; cbn [fst snd]; try done.
      intros He. destruct (Hsome He) as [H1 H2]. apply not_elem_of_cons in H2 as [H2 H3]. done.
Qed.
Lemma prune_room now b (n : nat) : named b -> (0 < n)%nat -> (size b <= n)%nat ->
  let r := prune_loop now b in
  let b' := if (Z.of_nat n <=? Z.of_nat (size r.1)) && negb (String.eqb r.2 "") then delete r.2 r.1 else r.1 in
  (size b' < n)%nat /\ b' ⊆ b.
Proof.
  intros Hb Hn Hsz. unfold prune_loop. pose proof (prune_fold now b (map_iter b) (b, ("", 0))) as H. cbn [fst snd] in H.
  destruct H as (H1 & H2 & H3).
  - apply map_iter_NoDup.
  - intros [k f] Hin%elem_of_map_iter. cbn. split; [|eauto]. intros ->. unfold named in Hb. congruence.
  - done.
  - intros _ k [f Hf]. apply list_elem_of_fmap. exists (k, f). split; [done|]. by apply elem_of_map_iter.
  - done.
  - destruct (fold_left _ _ _) as [m [ip t]]. cbn [fst snd] in *. destruct (Z.leb_spec (Z.of_nat n) (Z.of_nat (size m))) as [Hl|Hl]; cbn [andb].
    + destruct (String.eqb_spec ip "") as [->|Hip]; cbn [negb].
      * rewrite (H2 eq_refl) in Hl |- *. rewrite map_size_empty in *. split; [lia|apply map_empty_subseteq].
      * rewrite map_size_delete_Some by auto. pose proof (map_subseteq_size _ _ H1). split; [lia|].
        etransitivity; [apply delete_subseteq|done].
    + split; [lia|done].
Qed.
End Table.

(** A stand-in for sha256 in examples: 64 characters. *)
Definition padded (t : string) : string := of_chars (take 64 (chars t ++ replicate 64 "0"%char)).
Lemma padded_length t : String.length (padded t) = 64%nat.
Proof.
  unfold padded. transitivity (length (chars (of_chars (take 64 (chars t ++ replicate 64 "0"%char))))).
  - by induction (of_chars _) as [|c x IH]; [|cbn; rewrite IH].
  - rewrite chars_of_chars, length_take, length_app, length_replicate. lia.
Qed.
