(* ===== verification/WebSession.v ===== *)
(** Cookie sessions (src/internal/web/session.go): the store, its mirror file, and what
    a browser's token is good for.

    [sha] is hex(sha256(token)); the random token is an argument of [Create].  A time is
    in nanoseconds.  The mirror is the list of entries it decodes to. *)
From stdpp Require Import base gmap strings list sorting.
From Stdlib Require Import ZArith Lia Ascii.
From S2P Require Import Prelude GoLib GoPath WebTable.
Open Scope Z_scope.

Definition sessionTTL : Z := 12 * Hour.
Definition sessionRememberTTL : Z := 30 * 24 * Hour.
Definition sessionMax : Z := 50.
Definition sessionTouch : Z := Minute.

Record Session := mkSession {
  se_ID : string; se_User : string; se_IP : string; se_Created : Z; se_Expires : Z; se_LastSeen : Z; se_Remember : bool }.
#[export] Instance eta_Session : Eta Session := fun s => mkSession (se_ID s) (se_User s) (se_IP s)
  (se_Created s) (se_Expires s) (se_LastSeen s) (se_Remember s).
#[export] Instance Session_eq : EqDecision Session.
Proof. solve_decision. Defined.
Abbreviation Sessions := (gmap string Session).
Record sessionFile := mkSessionFile { sf_Epoch : string; sf_Sessions : list (string * Session) }.
(** [ss_path]: whether there is a mirror; [ss_file]: what it decodes to. *)
Record sessionStore := mkStore { ss_path : bool; ss_file : option sessionFile; ss_epoch : string; ss_byKey : Sessions }.
#[export] Instance eta_sessionStore : Eta sessionStore := fun s =>
  mkStore (ss_path s) (ss_file s) (ss_epoch s) (ss_byKey s).

Section Store.
Context {Mo : MapOrder} (sha : string -> string) (CredentialEpoch_sha : string -> string).
Implicit Types (s : sessionStore) (now : Z) (ok : bool).

(** [CredentialEpoch]: the hash of user, newline and stored password hash. *)
Definition CredentialEpoch (user hash : string) : string :=
  CredentialEpoch_sha (String.append user (String.append newline hash)).
Definition key_le (a b : string * Session) : Prop := String.le a.1 b.1.
#[global] Instance key_le_dec : RelDecision key_le.
Proof. intros a b. unfold key_le. apply _. Defined.
(** [ok]: the file could be written. *)
Definition saveLocked ok s : sessionStore :=
  if negb (ss_path s) then s
  else if ok then s <| ss_file := Some (mkSessionFile (ss_epoch s) (merge_sort key_le (map_iter (ss_byKey s)))) |>
  else s.
Definition SetEpoch ok (epoch : string) s : sessionStore :=
  if String.eqb (ss_epoch s) epoch then s else saveLocked ok (s <| ss_epoch := epoch |>).

Definition alive now (x : Session) : bool := now <? se_Expires x.
Definition live now (m : Sessions) : Sessions := filter (fun kv => alive now kv.2 = true) m.
Definition pruneLocked now (m : Sessions) : Sessions * bool :=
  (live now m, negb (forallb (fun kv => alive now kv.2) (map_iter m))).
Definition older (acc : option (string * Z)) (kv : string * Session) : option (string * Z) :=
  match acc with
  | None => Some (kv.1, se_Created kv.2)
  | Some (_, t) => if se_Created kv.2 <? t then Some (kv.1, se_Created kv.2) else acc
  end.
Definition dropOldestLocked (m : Sessions) : Sessions :=
  match fold_left older (map_iter m) None with Some (k, _) => delete k m | None => m end.
(** Every round drops one. *)
Fixpoint drop_while_full (limit : Z) (fuel : nat) (m : Sessions) : Sessions :=
  match fuel with
  | O => m
  | S f => if limit <=? Z.of_nat (size m) then drop_while_full limit f (dropOldestLocked m) else m
  end.
Definition make_room (limit : Z) (m : Sessions) : Sessions := drop_while_full limit (size m) m.

(** [rand]: the encoded random bytes, or that there were none. *)
Definition Create ok now (rand : option string) (user : string) (remember : bool) (ip : string) s
  : option (string * Session) * sessionStore :=
  match rand with
  | None => (None, s)
  | Some token =>
      let key := sha token in
      let ttl := if remember then sessionRememberTTL else sessionTTL in
      let sess := mkSession (String.substring 0 8 key) user ip now (now + ttl) now remember in
      let m := make_room sessionMax (pruneLocked now (ss_byKey s)).1 in
      (Some (token, sess), saveLocked ok (s <| ss_byKey := <[key := sess]> m |>))
  end.
Definition Lookup ok now (token : string) s : option Session * sessionStore :=
  if String.eqb token "" then (None, s)
  else
    let key := sha token in
    match ss_byKey s !! key with
    | None => (None, s)
    | Some sess =>
        if negb (alive now sess) then (None, saveLocked ok (s <| ss_byKey := delete key (ss_byKey s) |>))
        else if sessionTouch <=? now - se_LastSeen sess
        then let sess := sess <| se_LastSeen := now |> in
             (Some sess, saveLocked ok (s <| ss_byKey := <[key := sess]> (ss_byKey s) |>))
        else (Some sess, s)
    end.
Definition Revoke ok (token : string) s : sessionStore :=
  if String.eqb token "" then s
  else match ss_byKey s !! sha token with
       | Some _ => saveLocked ok (s <| ss_byKey := delete (sha token) (ss_byKey s) |>)
       | None => s
       end.
(** What one entry becomes: gone, or renamed. *)
Definition revoked_entry (keep newUser : string) (k : string) (x : Session) : option Session :=
  if negb (String.eqb k keep) then None
  else if negb (String.eqb newUser "") && negb (String.eqb (se_User x) newUser)
  then Some (x <| se_User := newUser |>) else Some x.
Definition RevokeAllRename ok (keepToken newUser : string) s : sessionStore :=
  let keep := if String.eqb keepToken "" then "" else sha keepToken in
  let m := map_imap (revoked_entry keep newUser) (ss_byKey s) in
  if bool_decide (m = ss_byKey s) then s else saveLocked ok (s <| ss_byKey := m |>).
Definition RevokeAll ok (keepToken : string) s : sessionStore := RevokeAllRename ok keepToken "" s.

(** Newest first; equal times by id. *)
Definition newer (a b : Session) : Prop :=
  se_Created b < se_Created a \/ (se_Created a = se_Created b /\ String.le (se_ID a) (se_ID b)).
#[global] Instance newer_dec : RelDecision newer.
Proof. intros a b. unfold newer. apply _. Defined.
Definition List_sessions ok now s : list Session * sessionStore :=
  let '(m, changed) := pruneLocked now (ss_byKey s) in
  let s := s <| ss_byKey := m |> in
  let s := if changed then saveLocked ok s else s in
  (merge_sort newer (map snd (map_iter (ss_byKey s))), s).

Definition load_entry now (m : Sessions) (e : string * Session) : Sessions :=
  if negb (Nat.eqb (String.length e.1) 64) || negb (alive now e.2) then m
  else <[e.1 := e.2 <| se_ID := String.substring 0 8 e.1 |>]> m.
Definition load now s : sessionStore :=
  if negb (ss_path s) then s
  else match ss_file s with
       | None => s
       | Some f =>
           if negb (String.eqb (ss_epoch s) "") && negb (String.eqb (sf_Epoch f) (ss_epoch s)) then s
           else s <| ss_byKey := make_room (sessionMax + 1) (fold_left (load_entry now) (sf_Sessions f) ∅) |>
       end.
Definition NewSessionStoreEpoch now (path : bool) (file : option sessionFile) (epoch : string) : sessionStore :=
  load now (mkStore path file epoch ∅).
End Store.

(** ** The abstract store: sessions by key, nothing else

    No file, no restart, no time of last use; expired sessions are not seen. *)
Definition strip (x : Session) : Session := x <| se_LastSeen := 0 |>.
Inductive Op :=
  | OCreate (now : Z) (token user : string) (remember : bool) (ip : string)
  | OLookup (now : Z) (token : string)
  | ORevoke (now : Z) (token : string)
  | ORevokeAll (now : Z) (keep newUser : string)
  | OList (now : Z)
  | OSetEpoch (now : Z) (epoch : string)
  | ORestart (now : Z).
Inductive Ans := ADone | ASession (x : option Session) | AList (l : list Session).
Definition op_time (o : Op) : Z :=
  match o with
  | OCreate t _ _ _ _ | OLookup t _ | ORevoke t _ | ORevokeAll t _ _ | OList t | OSetEpoch t _ | ORestart t => t
  end.

Section Refine.
Context {Mo : MapOrder} (sha : string -> string).

(** The store, every write of the mirror succeeding; a restart loads the mirror under
    the epoch in effect. *)
Definition step (o : Op) (s : sessionStore) : Ans * sessionStore :=
  match o with
  | OCreate now token user remember ip =>
      let '(r, s) := Create sha true now (Some token) user remember ip s in (ASession (strip <$> (snd <$> r)), s)
  | OLookup now token => let '(r, s) := Lookup sha true now token s in (ASession (strip <$> r), s)
  | ORevoke _ token => (ADone, Revoke sha true token s)
  | ORevokeAll _ keep newUser => (ADone, RevokeAllRename sha true keep newUser s)
  | OList now => let '(l, s) := List_sessions true now s in (AList (map strip l), s)
  | OSetEpoch _ epoch => (ADone, SetEpoch true epoch s)
  | ORestart now => (ADone, NewSessionStoreEpoch now (ss_path s) (ss_file s) (ss_epoch s))
  end.
Definition spec_step (o : Op) (a : Sessions) : Ans * Sessions :=
  match o with
  | OCreate now token user remember ip =>
      let key := sha token in
      let x := mkSession (String.substring 0 8 key) user ip now
                 (now + if remember then sessionRememberTTL else sessionTTL) 0 remember in
      (ASession (Some x), <[key := x]> (make_room sessionMax (live now a)))
  | OLookup now token => (ASession (if String.eqb token "" then None else live now a !! sha token), a)
  | ORevoke _ token => (ADone, if String.eqb token "" then a else delete (sha token) a)
  | ORevokeAll _ keep newUser =>
      (ADone, map_imap (revoked_entry (if String.eqb keep "" then "" else sha keep) newUser) a)
  | OList now => (AList (merge_sort newer (map snd (map_iter (live now a)))), a)
  | OSetEpoch _ _ | ORestart _ => (ADone, a)
  end.
Fixpoint run {S} (f : Op -> S -> Ans * S) (ops : list Op) (s : S) : list Ans :=
  match ops with [] => [] | o :: ops' => let '(a, s') := f o s in a :: run f ops' s' end.

(** *** Live sessions *)
Lemma live_lookup now m k : live now m !! k = match m !! k with Some x => if alive now x then Some x else None | None => None end.
Proof.
  unfold live. rewrite map_lookup_filter. destruct (m !! k) as [x|]; [|done]. cbn. by destruct (alive now x).
Qed.
Lemma live_later now now' m : now <= now' -> live now' (live now m) = live now' m.
Proof.
  intros H. apply map_eq. intros k. rewrite !live_lookup. destruct (m !! k) as [x|]; [|done].
  unfold alive. destruct (Z.ltb_spec now (se_Expires x)), (Z.ltb_spec now' (se_Expires x)); lia || done.
Qed.
Lemma live_strip now m : live now (strip <$> m) = strip <$> live now m.
Proof.
  apply map_eq. intros k. rewrite live_lookup, !lookup_fmap, live_lookup. destruct (m !! k) as [[]|]; [|done]. cbn.
  unfold alive. cbn. by destruct (_ <? _).
Qed.
Lemma live_insert now k x m : alive now x = true -> live now (<[k := x]> m) = <[k := x]> (live now m).
Proof.
  intros Hx. apply map_eq. intros k'. rewrite live_lookup. destruct (decide (k = k')) as [<-|Hne].
  - by rewrite !lookup_insert_eq, Hx.
  - by rewrite !lookup_insert_ne, live_lookup by done.
Qed.
Lemma live_delete now k m : live now (delete k m) = delete k (live now m).
Proof.
  apply map_eq. intros k'. rewrite live_lookup. destruct (decide (k = k')) as [<-|Hne].
  - by rewrite !lookup_delete_eq.
  - by rewrite !lookup_delete_ne, live_lookup by done.
Qed.
Lemma live_delete_dead now k m x : m !! k = Some x -> alive now x = false -> live now (delete k m) = live now m.
Proof.
  intros Hk Hx. rewrite live_delete. apply delete_id. by rewrite live_lookup, Hk, Hx.
Qed.
Lemma live_imap now keep u m : live now (map_imap (revoked_entry keep u) m) = map_imap (revoked_entry keep u) (live now m).
Proof.
  apply map_eq. intros k. rewrite live_lookup, !map_lookup_imap, live_lookup. destruct (m !! k) as [x|]; [|done]. cbn.
  unfold revoked_entry, alive. destruct (now <? se_Expires x) eqn:E, (String.eqb k keep); cbn; rewrite ?E; try done;
    destruct (negb (String.eqb u "") && negb _); cbn; destruct x; cbn in *; by rewrite ?E.
Qed.
Lemma strip_imap keep u m : strip <$> map_imap (revoked_entry keep u) m = map_imap (revoked_entry keep u) (strip <$> m).
Proof.
  apply map_eq. intros k. rewrite lookup_fmap, !map_lookup_imap, lookup_fmap. destruct (m !! k) as [[]|]; [|done]. cbn.
  unfold revoked_entry. cbn. destruct (String.eqb k keep); cbn; [|done]. by destruct (negb _ && negb _).
Qed.

(** *** Making room *)
Lemma older_strip l acc : fold_left older (map (fun kv => (kv.1, strip kv.2)) l) acc = fold_left older l acc.
Proof. revert acc. induction l as [|[k []] l IH]; intros acc; [done|]. cbn. apply IH. Qed.
Lemma dropOldest_strip m : dropOldestLocked (strip <$> m) = strip <$> dropOldestLocked m.
Proof.
  unfold dropOldestLocked. rewrite map_iter_fmap, older_strip. destruct (fold_left _ _ _) as [[k t]|]; [|done].
  by rewrite fmap_delete.
Qed.
Lemma make_room_strip limit m : make_room limit (strip <$> m) = strip <$> make_room limit m.
Proof.
  unfold make_room. rewrite map_size_fmap. generalize (size m) as n. intros n. revert m. induction n as [|n IH]; intros m; [done|].
  cbn. rewrite map_size_fmap. destruct (limit <=? _); [|done]. by rewrite dropOldest_strip, IH.
Qed.
Lemma older_some l acc : (exists p, acc = Some p) -> exists p, fold_left older l acc = Some p.
Proof. revert acc. induction l as [|kv l IH]; intros acc [[k t] ->]; [eauto|]. cbn. apply IH. destruct (_ <? _); eauto. Qed.
Lemma older_in l acc k t : fold_left older l acc = Some (k, t) -> acc = Some (k, t) \/ k ∈ map fst l.
Proof.
  revert acc. induction l as [|kv l IH]; intros acc H; [by left|]. cbn in H. apply IH in H as [H|H]; [|right; by right].
  destruct acc as [[k0 t0]|]; cbn in H.
  - destruct (_ <? t0); [injection H as <- _; right; by left|by left].
  - injection H as <- _. right. by left.
Qed.
Lemma dropOldest_size m : (0 < size m)%nat -> size (dropOldestLocked m) = (size m - 1)%nat.
Proof.
  intros Hs. unfold dropOldestLocked. pose proof (map_iter_length m) as Hl.
  destruct (map_iter m) as [|kv l] eqn:E; [cbn in Hl; lia|]. cbn [fold_left older].
  destruct (older_some l (Some (kv.1, se_Created kv.2))) as [[k t] Hk]; [eauto|]. rewrite Hk.
  assert (Hin : k ∈ map fst (map_iter m)).
  { rewrite E. cbn. destruct (older_in l _ k t Hk) as [[= <- _]|?]; [by left|by right]. }
  apply list_elem_of_fmap in Hin as ([k' x] & -> & Hin). apply elem_of_map_iter in Hin. cbn.
  rewrite map_size_delete_Some by eauto. lia.
Qed.
Lemma make_room_size limit m : 0 < limit -> Z.of_nat (size (make_room limit m)) < limit.
Proof.
  intros Hl. unfold make_room. assert (H : forall n m, (size m <= n)%nat -> Z.of_nat (size (drop_while_full limit n m)) < limit).
  { clear m. induction n as [|n IH]; intros m Hn; [cbn; lia|]. cbn. destruct (Z.leb_spec limit (Z.of_nat (size m))); [|lia].
    apply IH. rewrite dropOldest_size by lia. lia. }
  by apply H.
Qed.
Lemma make_room_id limit m : Z.of_nat (size m) < limit -> make_room limit m = m.
Proof. intros H. unfold make_room. destruct (size m) eqn:E; [done|]. cbn. rewrite E. by rewrite (proj2 (Z.leb_gt _ _)). Qed.
Lemma dropOldest_sub m : dropOldestLocked m ⊆ m.
Proof. unfold dropOldestLocked. destruct (fold_left _ _ _) as [[k t]|]; [apply delete_subseteq|done]. Qed.
Lemma make_room_sub limit m : make_room limit m ⊆ m.
Proof.
  unfold make_room. generalize (size m) as n. intros n. revert m. induction n as [|n IH]; intros m; [done|]. cbn.
  destruct (_ <=? _); [|done]. etransitivity; [apply IH|apply dropOldest_sub].
Qed.

(** *** Sorting stripped sessions *)
Lemma list_merge_strip l1 l2 : list_merge newer (map strip l1) (map strip l2) = map strip (list_merge newer l1 l2).
Proof.
  revert l2. induction l1 as [|x1 l1 IH1]; [by intros []|]. induction l2 as [|x2 l2 IH2]; [done|].
  change (map strip (x1 :: l1)) with (strip x1 :: map strip l1). change (map strip (x2 :: l2)) with (strip x2 :: map strip l2) in *.
  assert (Hd : newer (strip x1) (strip x2) <-> newer x1 x2) by by destruct x1, x2.
  cbn [list_merge]. destruct (decide (newer (strip x1) (strip x2))) as [H|H], (decide (newer x1 x2)) as [H'|H']; try tauto.
  - cbn [map]. f_equal. apply (IH1 (x2 :: l2)).
  - cbn [map]. f_equal. exact IH2.
Qed.
Lemma merge_to_stack_strip st l : merge_list_to_stack newer (map (fmap (map strip)) st) (map strip l)
  = map (fmap (map strip)) (merge_list_to_stack newer st l).
Proof.
  revert l. induction st as [|[l'|] st IH]; intros l; [done| |done]. cbn. rewrite list_merge_strip. by rewrite IH.
Qed.
Lemma merge_stack_strip st : merge_stack newer (map (fmap (map strip)) st) = map strip (merge_stack newer st).
Proof. induction st as [|[l|] st IH]; [done| |exact IH]. cbn. by rewrite IH, list_merge_strip. Qed.
Lemma merge_sort_strip l : merge_sort newer (map strip l) = map strip (merge_sort newer l).
Proof.
  unfold merge_sort. change (@nil (option (list Session))) with (map (fmap (M := option) (map strip)) []) at 1.
  generalize (@nil (option (list Session))) as st. induction l as [|x l IH]; intros st; cbn; [apply merge_stack_strip|].
  change [strip x] with (map strip [x]). by rewrite merge_to_stack_strip, IH.
Qed.

(** *** The invariant of the store and its file *)
Definition entry_ok (e : string * Session) : Prop := String.length e.1 = 64%nat /\ se_ID e.2 = String.substring 0 8 e.1.
Definition file_ok now s : Prop :=
  match ss_file s with
  | None => live now (ss_byKey s) = ∅
  | Some f => sf_Epoch f = ss_epoch s /\ NoDup (map fst (sf_Sessions f)) /\ Forall entry_ok (sf_Sessions f) /\
      (length (sf_Sessions f) <= 50)%nat /\ live now (list_to_map (sf_Sessions f)) = live now (ss_byKey s)
  end.
Definition store_ok now s : Prop :=
  ss_path s = true /\ map_Forall (fun k x => entry_ok (k, x)) (ss_byKey s) /\ (size (ss_byKey s) <= 50)%nat /\ file_ok now s.
Definition shows now s (a : Sessions) : Prop := strip <$> live now (ss_byKey s) = live now a.

Lemma sorted_entries m : merge_sort key_le (map_iter m) ≡ₚ map_iter m.
Proof. apply merge_sort_Permutation. Qed.
Lemma save_ok now s : ss_path s = true -> map_Forall (fun k x => entry_ok (k, x)) (ss_byKey s) -> (size (ss_byKey s) <= 50)%nat ->
  store_ok now (saveLocked true s) /\ ss_byKey (saveLocked true s) = ss_byKey s.
Proof.
  intros Hp Hf Hs. unfold saveLocked. rewrite Hp. cbn [negb]. destruct s as [p f e m]. cbn in *. split; [|done].
  split_and!; [done|done|done|]. unfold file_ok. cbn. pose proof (sorted_entries m) as Hperm. split_and!.
  - done.
  - rewrite Hperm. apply map_iter_NoDup.
  - rewrite Hperm. apply Forall_forall. intros [k x] Hin. apply elem_of_map_iter in Hin. by apply Hf.
  - rewrite (Permutation_length Hperm), map_iter_length. done.
  - f_equal. rewrite <- (list_to_map_iter m) at 2. apply list_to_map_proper; [|done]. rewrite Hperm. apply map_iter_NoDup.
Qed.
Lemma file_later now now' s : now <= now' -> file_ok now s -> file_ok now' s.
Proof.
  intros H. unfold file_ok. destruct (ss_file s) as [f|].
  - intros (H1 & H2 & H3 & H4 & H5). split_and!; [done..|]. rewrite <- (live_later now now'), H5 by done. by apply live_later.
  - intros He. rewrite <- (live_later now now'), He by done. by apply map_eq.
Qed.
Lemma store_later now now' s : now <= now' -> store_ok now s -> store_ok now' s.
Proof. intros H (H1 & H2 & H3 & H4). split_and!; [done..|]. by eapply file_later. Qed.
Lemma shows_later now now' s a : now <= now' -> shows now s a -> shows now' s a.
Proof.
  intros H Hs. unfold shows in *. rewrite <- (live_later now now' (ss_byKey s)), <- (live_later now now' a), <- Hs by done.
  by rewrite live_strip.
Qed.
End Refine.

(** ** The store refines the abstract one *)
Section Simulation.
Context {Mo : MapOrder} (sha : string -> string) (sha_length : forall t, String.length (sha t) = 64%nat).
Implicit Types (s : sessionStore) (a : Sessions).

Lemma restarted now f : NoDup (map fst (sf_Sessions f)) -> Forall entry_ok (sf_Sessions f) ->
  fold_left (load_entry now) (sf_Sessions f) ∅ = live now (list_to_map (sf_Sessions f)).
Proof.
  destruct f as [e l]. cbn. intros Hn Hf.
  assert (H : forall m, (forall k, k ∈ map fst l -> m !! k = None) -> fold_left (load_entry now) l m = live now (list_to_map l) ∪ m).
  { induction l as [|[k x] l IH]; intros m Hm; cbn [fold_left list_to_map foldr].
    - apply map_eq. intros k. by rewrite lookup_union_r.
    - apply NoDup_cons in Hn as [Hk Hn]. apply Forall_cons in Hf as [[Hlen HID] Hf]. cbn in Hlen, HID.
      assert (Hmk : m !! k = None) by (apply Hm; by left).
      rewrite IH; [|done..|]; clear IH; cbn [fst snd].
      2: { intros k' Hk'. unfold load_entry. cbn [fst snd]. destruct (negb _ || _); [apply Hm; by right|].
           rewrite lookup_insert_ne; [apply Hm; by right|]. intros ->. done. }
      unfold load_entry. cbn [fst snd]. rewrite Hlen. cbn [Nat.eqb negb orb].
      apply map_eq. intros k'. rewrite !lookup_union, !live_lookup.
      destruct (decide (k = k')) as [<-|Hne].
      + rewrite lookup_insert_eq. rewrite (not_elem_of_list_to_map_1 l k) by done.
        destruct (alive now x); cbn [negb]; [|done]. rewrite lookup_insert_eq, Hmk.
        cbn. f_equal. destruct x; cbn in *. by subst.
      + rewrite lookup_insert_ne by done. destruct (alive now x); cbn [negb]; [by rewrite lookup_insert_ne|done]. }
  rewrite H by done. apply map_eq. intros k. by rewrite lookup_union_l.
Qed.

(** Any change of the sessions that the store saves. *)
Lemma session_saved now s m a : store_ok now s -> map_Forall (fun k x => entry_ok (k, x)) m -> (size m <= 50)%nat ->
  strip <$> live now m = live now a ->
  let s' := saveLocked true (s <| ss_byKey := m |>) in store_ok now s' /\ shows now s' a.
Proof.
  intros (Hp & _) Hm Hs Ha. cbn zeta. destruct (save_ok now (s <| ss_byKey := m |>)) as [H1 H2]; [by destruct s..|].
  split; [done|]. unfold shows. rewrite H2. by destruct s.
Qed.
Lemma entries_sub (m m' : Sessions) : m ⊆ m' -> map_Forall (fun k x => entry_ok (k, x)) m' -> (size m' <= 50)%nat ->
  map_Forall (fun k x => entry_ok (k, x)) m /\ (size m <= 50)%nat.
Proof.
  intros H Hf Hs. split; [intros k x Hk; by apply Hf, (lookup_weaken m m')|]. pose proof (map_subseteq_size _ _ H). lia.
Qed.
Lemma live_sub now (m : Sessions) : live now m ⊆ m.
Proof. apply map_filter_subseteq. Qed.

Lemma step_create now token user remember ip s a : store_ok now s -> shows now s a ->
  let o := OCreate now token user remember ip in
  (step sha o s).1 = (spec_step sha o a).1 /\ store_ok now (step sha o s).2 /\ shows now (step sha o s).2 (spec_step sha o a).2.
Proof.
  intros Hs Ha. cbn [step spec_step Create fst snd pruneLocked fmap option_fmap option_map]. split; [done|].
  assert (Hlt : 0 < if remember then sessionRememberTTL else sessionTTL) by by destruct remember.
  pose proof Hs as (_ & Hf & Hn & _). pose proof (make_room_sub sessionMax (live now (ss_byKey s))) as Hsub.
  apply session_saved.
  - done.
  - apply map_Forall_insert_2; [by split; cbn|]. eapply entries_sub; [|done..]. etransitivity; [apply Hsub|apply live_sub].
  - pose proof (make_room_size sessionMax (live now (ss_byKey s)) ltac:(done)) as Hr. unfold sessionMax in *.
    match goal with |- (size (<[?k := ?x]> ?m) <= _)%nat => pose proof (map_size_insert k x m) as Hi end.
    rewrite Hi. destruct (_ !! _); cbn [id]; lia.
  - rewrite live_insert, fmap_insert by (unfold alive; cbn; apply Z.ltb_lt; lia).
    rewrite live_insert by (unfold alive; cbn; apply Z.ltb_lt; lia). f_equal.
    rewrite <- live_strip, <- make_room_strip. unfold shows in Ha. by rewrite Ha.
Qed.
Lemma shows_lookup now s a k : shows now s a -> live now a !! k = strip <$> live now (ss_byKey s) !! k.
Proof. intros Ha. unfold shows in Ha. rewrite <- Ha. apply lookup_fmap. Qed.
Lemma step_lookup now token s a : store_ok now s -> shows now s a ->
  let r := step sha (OLookup now token) s in
  r.1 = (spec_step sha (OLookup now token) a).1 /\ store_ok now r.2 /\ shows now r.2 a.
Proof.
  intros Hs Ha. pose proof Hs as (_ & Hf & Hn & _). cbn [step spec_step fst snd]. unfold Lookup.
  destruct (String.eqb token ""); [done|]. pose proof (shows_lookup _ _ _ (sha token) Ha) as Hl. rewrite Hl, live_lookup.
  destruct (ss_byKey s !! sha token) as [x|] eqn:E; [|done]. destruct (alive now x) eqn:Ex; cbn [negb fmap option_fmap option_map].
  - destruct (sessionTouch <=? _); [|done]. split; [by destruct x|]. apply session_saved; [done| | |].
    + apply map_Forall_insert_2; [|done]. pose proof (Hf _ _ E) as [? ?]. by split; destruct x.
    + rewrite map_size_insert_Some by eauto. done.
    + rewrite live_insert by by destruct x. unfold shows in Ha. rewrite <- Ha, fmap_insert.
      apply insert_id. rewrite lookup_fmap, live_lookup, E, Ex. by destruct x.
  - split; [done|]. apply session_saved; [done| | |].
    + by apply map_Forall_delete.
    + pose proof (map_subseteq_size _ _ (delete_subseteq (ss_byKey s) (sha token))). lia.
    + rewrite (live_delete_dead _ _ _ x) by done. done.
Qed.
Lemma step_revoke now token s a : store_ok now s -> shows now s a ->
  let r := step sha (ORevoke now token) s in
  store_ok now r.2 /\ shows now r.2 (spec_step sha (ORevoke now token) a).2.
Proof.
  intros Hs Ha. pose proof Hs as (_ & Hf & Hn & _). cbn [step spec_step fst snd]. unfold Revoke.
  destruct (String.eqb token ""); [done|]. destruct (ss_byKey s !! sha token) as [x|] eqn:E.
  - apply session_saved; [done| | |].
    + by apply map_Forall_delete.
    + pose proof (map_subseteq_size _ _ (delete_subseteq (ss_byKey s) (sha token))). lia.
    + rewrite !live_delete, fmap_delete. unfold shows in Ha. by rewrite Ha.
  - split; [done|]. unfold shows. rewrite live_delete, delete_id; [done|]. by rewrite (shows_lookup now s a), live_lookup, E.
Qed.
Lemma imap_size (f : string -> Session -> option Session) (m : Sessions) : (size (map_imap f m) <= size m)%nat.
Proof.
  rewrite <- !size_dom. apply subseteq_size. intros k. rewrite !elem_of_dom, map_lookup_imap.
  intros [x H]. destruct (m !! k); [eauto|done].
Qed.
Lemma step_revoke_all now keep u s a : store_ok now s -> shows now s a ->
  let r := step sha (ORevokeAll now keep u) s in
  store_ok now r.2 /\ shows now r.2 (spec_step sha (ORevokeAll now keep u) a).2.
Proof.
  intros Hs Ha. pose proof Hs as (_ & Hf & Hn & _). cbn [step spec_step fst snd]. unfold RevokeAllRename.
  set (k := if String.eqb keep "" then _ else _). clearbody k.
  assert (Hv : strip <$> live now (map_imap (revoked_entry k u) (ss_byKey s)) = live now (map_imap (revoked_entry k u) a)).
  { rewrite !live_imap, strip_imap. unfold shows in Ha. by rewrite Ha. }
  destruct (bool_decide_reflect (map_imap (revoked_entry k u) (ss_byKey s) = ss_byKey s)) as [He|He].
  - split; [done|]. unfold shows. by rewrite <- Hv, He.
  - apply session_saved; [done| | |done].
    + intros key x Hx. rewrite map_lookup_imap in Hx. destruct (ss_byKey s !! key) as [y|] eqn:E; [|done].
      pose proof (Hf _ _ E) as [? ?]. cbn in Hx. unfold revoked_entry in Hx. destruct (negb _); [done|].
      destruct (_ && _); injection Hx as <-; by split; destruct y.
    + pose proof (imap_size (revoked_entry k u) (ss_byKey s)). lia.
Qed.
Lemma prune_id now (m : Sessions) : (pruneLocked now m).2 = false -> live now m = m.
Proof.
  cbn. intros H. apply negb_false_iff in H. rewrite forallb_forall in H. apply map_eq. intros k. rewrite live_lookup.
  destruct (m !! k) as [x|] eqn:E; [|done]. apply elem_of_map_iter in E. apply list_elem_of_In in E. rewrite (H _ E : alive now x = true). done.
Qed.
Lemma step_list now s a : store_ok now s -> shows now s a ->
  let r := step sha (OList now) s in
  r.1 = (spec_step sha (OList now) a).1 /\ store_ok now r.2 /\ shows now r.2 a.
Proof.
  intros Hs Ha. pose proof Hs as (_ & Hf & Hn & _). cbn [step spec_step fst snd]. unfold List_sessions.
  pose proof (prune_id now (ss_byKey s)) as Hid. cbn [pruneLocked fst snd] in *.
  assert (Hl : strip <$> live now (live now (ss_byKey s)) = live now a) by (rewrite live_later by lia; exact Ha).
  assert (Hans : merge_sort newer (map snd (map_iter (live now a))) = map strip (merge_sort newer (map snd (map_iter (live now (ss_byKey s)))))).
  { unfold shows in Ha. rewrite <- Ha, map_iter_fmap, <- merge_sort_strip. f_equal. rewrite !map_map. done. }
  rewrite Hans. destruct (negb _).
  - destruct (session_saved now s (live now (ss_byKey s)) a) as [H1 H2]; [done|..|done|].
    1,2: by apply (entries_sub _ _ (live_sub now (ss_byKey s))).
    assert (Hk : ss_byKey (saveLocked true (s <| ss_byKey := live now (ss_byKey s) |>)) = live now (ss_byKey s)).
    { unfold saveLocked. destruct s as [[] f e m]; done. }
    rewrite Hk. done.
  - rewrite (Hid eq_refl). destruct s as [p f e m]. done.
Qed.
Lemma step_epoch now e s a : store_ok now s -> shows now s a ->
  let r := step sha (OSetEpoch now e) s in store_ok now r.2 /\ shows now r.2 a.
Proof.
  intros Hs Ha. pose proof Hs as (Hp & Hf & Hn & _). cbn [step snd]. unfold SetEpoch. destruct (String.eqb _ _); [done|].
  destruct (save_ok now (s <| ss_epoch := e |>)) as [H1 H2]; [by destruct s..|]. split; [done|]. unfold shows. rewrite H2. by destruct s.
Qed.
(** A restart finds exactly the live sessions. *)
Lemma restart_live now s : store_ok now s ->
  NewSessionStoreEpoch now (ss_path s) (ss_file s) (ss_epoch s) = s <| ss_byKey := live now (ss_byKey s) |>.
Proof.
  intros (Hp & Hf & Hn & Hfile). unfold NewSessionStoreEpoch, load. cbn [ss_path ss_file ss_epoch]. destruct s as [p f e m]. cbn in *. subst p.
  cbn [negb]. unfold file_ok in Hfile. cbn [ss_file ss_epoch ss_byKey] in Hfile. destruct f as [f|].
  - destruct Hfile as (He & Hnd & Hfo & Hlen & Hl). rewrite He, String.eqb_refl. cbn [negb]. rewrite andb_false_r.
    rewrite restarted by done. pose proof (map_subseteq_size _ _ (live_sub now (list_to_map (sf_Sessions f)))) as Hsz.
    assert (Hsz' : (size (list_to_map (sf_Sessions f) : Sessions) <= 50)%nat).
    { rewrite <- size_dom, dom_list_to_map_L. rewrite size_list_to_set by done. by rewrite length_fmap. }
    rewrite make_room_id by (unfold sessionMax; lia). by rewrite Hl.
  - by rewrite Hfile.
Qed.
Lemma restart_other now s epoch : store_ok now s -> epoch <> ""%string -> epoch <> ss_epoch s ->
  ss_byKey (NewSessionStoreEpoch now (ss_path s) (ss_file s) epoch) = ∅.
Proof.
  intros (Hp & _ & _ & Hfile) He Hne. unfold NewSessionStoreEpoch, load, file_ok in *. cbn [ss_path ss_file ss_epoch]. rewrite Hp. cbn [negb].
  destruct (ss_file s) as [f|]; [|done]. destruct Hfile as (-> & _).
  rewrite (proj2 (String.eqb_neq epoch "") He), (proj2 (String.eqb_neq (ss_epoch s) epoch)) by done. done.
Qed.
Lemma live_ok now s : store_ok now s -> store_ok now (s <| ss_byKey := live now (ss_byKey s) |>).
Proof.
  intros (Hp & Hf & Hn & Hfile). destruct (entries_sub _ _ (live_sub now (ss_byKey s)) Hf Hn). destruct s as [p f e m]. split_and!; [done..|].
  unfold file_ok in *. cbn in *. rewrite (live_later now now m) by lia. done.
Qed.
Lemma step_restart now s a : store_ok now s -> shows now s a ->
  let r := step sha (ORestart now) s in store_ok now r.2 /\ shows now r.2 a.
Proof.
  intros Hs Ha. cbn [step snd]. rewrite restart_live by done. split; [by apply live_ok|]. unfold shows in *.
  destruct s as [p f e m]. cbn in *. by rewrite live_later by lia.
Qed.
End Simulation.

(** The times of the operations do not go back. *)
Fixpoint in_order (now : Z) (ops : list Op) : Prop :=
  match ops with [] => True | o :: ops' => now <= op_time o /\ in_order (op_time o) ops' end.

Lemma step_sim {Mo : MapOrder} sha now o s a : (forall t, String.length (sha t) = 64%nat) -> now <= op_time o ->
  store_ok now s -> shows now s a ->
  (step sha o s).1 = (spec_step sha o a).1 /\ store_ok (op_time o) (step sha o s).2 /\
  shows (op_time o) (step sha o s).2 (spec_step sha o a).2.
Proof.
  intros Hsha Ht Hs Ha. apply (store_later now (op_time o)) in Hs; [|done]. apply (shows_later now (op_time o)) in Ha; [|done].
  destruct o; cbn [op_time] in *.
  - by apply step_create.
  - by apply step_lookup.
  - split; [done|]. by apply step_revoke.
  - split; [done|]. by apply step_revoke_all.
  - by apply step_list.
  - split; [done|]. by apply step_epoch.
  - split; [done|]. by apply step_restart.
Qed.

(** C14: the session store with its expiry, its last-use stamps, its mirror file and any
    number of daemon restarts answers every sequence of operations like a plain map from
    token hashes to sessions: a created session is found until it expires, is revoked or
    is the oldest of fifty when another one is created; RevokeAll keeps one session and
    renames it; a restart changes nothing.  The times may be any that do not go back;
    every write of the mirror succeeds and sha256 in hex has 64 characters. *)
Theorem session_refines {Mo : MapOrder} (sha : string -> string) (epoch : string) (t0 : Z) (ops : list Op) :
  (forall t, String.length (sha t) = 64%nat) -> in_order t0 ops ->
  run (step sha) ops (NewSessionStoreEpoch t0 true None epoch) = run (spec_step sha) ops ∅.
Proof.
  intros Hsha. assert (Hs : store_ok t0 (NewSessionStoreEpoch t0 true None epoch)).
  { split_and!; [done|apply map_Forall_empty|exact (Nat.le_0_l 50)|]. by apply map_eq. }
  assert (Ha : shows t0 (NewSessionStoreEpoch t0 true None epoch) ∅) by done.
  revert Hs Ha. generalize (NewSessionStoreEpoch t0 true None epoch) as s. generalize (∅ : Sessions) as a. revert t0.
  induction ops as [|o ops IH]; intros t0 a s Hs Ha Ho; [done|]. destruct Ho as [Ht Ho].
  destruct (step_sim sha t0 o s a Hsha Ht Hs Ha) as (H1 & H2 & H3). cbn [run].
  destruct (step sha o s) as [r s'], (spec_step sha o a) as [r' a']. cbn in *. subst r'. f_equal. by apply (IH (op_time o)).
Qed.

(** Two logins, a password change that keeps the second one, a restart. *)
Lemma session_refines_witness :
  let ops := [OCreate 0 "aa" "root" false "::1"; OCreate 5 "bb" "root" true "::1"; ORevokeAll 6 "bb" "admin"; ORestart 7;
              OLookup 8 "aa"; OLookup (13 * Hour) "bb"; OLookup (31 * 24 * Hour) "bb"] in
  in_order 0 ops /\
  run (step padded) ops (NewSessionStoreEpoch 0 true None "e") = run (spec_step padded) ops ∅ /\
  drop 3 (run (spec_step padded) ops ∅) =
    [ADone; ASession None; ASession (Some (mkSession "bb000000" "admin" "::1" 5 (30 * 24 * Hour + 5) 0 true)); ASession None].
Proof.
  cbn zeta. assert (Ho : in_order 0 [OCreate 0 "aa" "root" false "::1"; OCreate 5 "bb" "root" true "::1"; ORevokeAll 6 "bb" "admin"; ORestart 7;
              OLookup 8 "aa"; OLookup (13 * Hour) "bb"; OLookup (31 * 24 * Hour) "bb"]) by by repeat split.
  split; [done|]. split; [|by vm_compute].
  apply session_refines; [apply padded_length|done].
Defined.
