(* ===== verification/WebLimit.v ===== *)
(** The limiter of failed logins (src/internal/web/ratelimit.go): delays per source, the
    cap on sleeping attempts and on concurrent password checks.

    A time and a duration are in nanoseconds.  [fail] sleeps without the lock, so it is
    two operations, [fail_start] and [fail_end]; anything may happen between them. *)
From stdpp Require Import base gmap strings list.
From Stdlib Require Import ZArith Lia Ascii.
From S2P Require Import Prelude GoLib GoNet GoPath WebTable.
Open Scope Z_scope.

Definition limitFree : Z := 5.
Definition limitBase : Z := 250 * Millisecond.
Definition limitMax : Z := 2 * Second.
Definition limitReset : Z := 10 * Minute.
Definition limitEntries : Z := 4096.
Definition limitConcurrent : Z := 4.
Definition limitHashConcurrent : Z := 4.
Definition limitFullLogEvery : Z := limitReset.

Record authFails := mkFails { af_n : Z; af_last : Z }.
Abbreviation Buckets := (gmap string authFails).
(** [sleepers] is shared by pointer: [sl_ptr] tells one from the next of the same address. *)
Record sleepers := mkSleepers { sl_ptr : nat; sl_n : Z }.
Record authLimiter := mkLimiter {
  al_byIP : Buckets; al_bearer : Buckets; al_sleeping : gmap string sleepers; al_hashSem : Z;
  al_fullLogged : option Z; al_nextPtr : nat }.
#[export] Instance eta_authLimiter : Eta authLimiter := fun l =>
  mkLimiter (al_byIP l) (al_bearer l) (al_sleeping l) (al_hashSem l) (al_fullLogged l) (al_nextPtr l).
Definition newAuthLimiter : authLimiter := mkLimiter ∅ ∅ ∅ 0 None 0.

(** ** Keys *)
Definition parseAddr (ip : string) : option Addr := Unmap <$> ParseAddr ip.
Definition limitKey (ip : string) : string :=
  match parseAddr ip with
  | None => ip
  | Some (Addr4 b) => Addr_String (Addr4 b)
  | Some (Addr6 b) => Prefix64_String b
  end.
Definition addrKey (ip : string) : string :=
  match parseAddr ip with None => ip | Some a => Addr_String a end.
Example keys_ex :
  map limitKey ["192.168.0.7"; "::ffff:192.168.0.7"; "fe80::1%vmbr0"; "2001:db8:1:2:3:4:5:6"; "2001:db8:1:2::1"; "local"]
    = ["192.168.0.7"; "192.168.0.7"; "fe80::/64"; "2001:db8:1:2::/64"; "2001:db8:1:2::/64"; "local"] /\
  map addrKey ["::ffff:192.168.0.7"; "fe80::1%vmbr0"; "2001:db8:1:2:0:0:5:6"; "local"]
    = ["192.168.0.7"; "fe80::1"; "2001:db8:1:2::5:6"; "local"].
Proof. by vm_compute. Qed.

(** ** Delays *)
Definition delayFor (n : Z) : Z :=
  if n <=? limitFree then 0
  else
    let k := n - limitFree - 1 in
    if 8 <? k then limitMax
    else let d := Z.shiftl limitBase k in if limitMax <? d then limitMax else d.

Section Limiter.
Context {Mo : MapOrder}.
Implicit Types (l : authLimiter) (now : Z) (b : Buckets).

(** The entries left, and whether the log says that the table is full. *)
Definition pruneLocked now b (fullLogged : option Z) : Buckets * option Z :=
  let '(b, oldestIP) := prune_loop af_last limitReset now b in
  if (limitEntries <=? Z.of_nat (size b)) && negb (String.eqb oldestIP "") then
    (delete oldestIP b,
     match fullLogged with
     | Some t => if (limitFullLogEvery <=? now - t) || (now <? t) then Some now else fullLogged
     | None => Some now
     end)
  else (b, fullLogged).

(** The bucket of [key] after another failure, in the table it ends up in. *)
Definition count now (key : string) b (fullLogged : option Z) : Z * Buckets * option Z :=
  let '(n, b, fl) :=
    match b !! key with
    | None =>
        let '(b, fl) := if limitEntries <=? Z.of_nat (size b) then pruneLocked now b fullLogged else (b, fullLogged) in
        (0, b, fl)
    | Some f => (if limitReset <? now - af_last f then 0 else af_n f, b, fullLogged)
    end in
  (n + 1, <[key := mkFails (n + 1) now]> b, fl).

(** Which table: [fail] and [failBearer]. *)
Inductive Kind := KPassword | KBearer.
Definition table (k : Kind) l : Buckets := match k with KPassword => al_byIP l | KBearer => al_bearer l end.
Definition set_table (k : Kind) b l : authLimiter :=
  match k with KPassword => l <| al_byIP := b |> | KBearer => l <| al_bearer := b |> end.
(** The count, the delay, and the pointer the attempt holds while it sleeps. *)
Definition fail_start (k : Kind) now (ip : string) l : Z * Z * option nat * authLimiter :=
  let '(n, b, fl) := count now (limitKey ip) (table k l) (al_fullLogged l) in
  let l := set_table k b l <| al_fullLogged := fl |> in
  let d := delayFor n in
  if 0 <? d then
    let addr := addrKey ip in
    match al_sleeping l !! addr with
    | Some sl => (n, d, Some (sl_ptr sl), l <| al_sleeping := <[addr := mkSleepers (sl_ptr sl) (sl_n sl + 1)]> (al_sleeping l) |>)
    | None =>
        let p := al_nextPtr l in
        (n, d, Some p, l <| al_sleeping := <[addr := mkSleepers p 1]> (al_sleeping l) |> <| al_nextPtr := S p |>)
    end
  else (n, d, None, l).
Definition fail_end (ip : string) (sl : option nat) l : authLimiter :=
  let addr := addrKey ip in
  match sl, al_sleeping l !! addr with
  | Some p, Some cur =>
      if (sl_ptr cur =? p)%nat then
        if sl_n cur - 1 <=? 0 then l <| al_sleeping := delete addr (al_sleeping l) |>
        else l <| al_sleeping := <[addr := mkSleepers p (sl_n cur - 1)]> (al_sleeping l) |>
      else l
  | _, _ => l
  end.
Definition busy (ip : string) l : bool :=
  match al_sleeping l !! addrKey ip with Some sl => limitConcurrent <=? sl_n sl | None => false end.
Definition acquire l : bool * authLimiter :=
  if al_hashSem l <? limitHashConcurrent then (true, l <| al_hashSem := al_hashSem l + 1 |>) else (false, l).
Definition release l : authLimiter := l <| al_hashSem := al_hashSem l - 1 |>.
Definition reset (ip : string) l : authLimiter :=
  l <| al_byIP := delete (limitKey ip) (al_byIP l) |> <| al_sleeping := delete (addrKey ip) (al_sleeping l) |>.
Definition resetBearer (ip : string) l : authLimiter := l <| al_bearer := delete (limitKey ip) (al_bearer l) |>.
End Limiter.

Example delays_ex : map delayFor [1; 5; 6; 7; 8; 9; 10; 100; 10 ^ 18]
  = [0; 0; 250 * Millisecond; 500 * Millisecond; Second; 2 * Second; 2 * Second; 2 * Second; 2 * Second].
Proof. by vm_compute. Qed.

(** ** The tables stay bounded *)
Lemma delayFor_bounds n : 0 <= delayFor n <= limitMax /\ (n <= limitFree -> delayFor n = 0) /\ (9 <= n -> delayFor n = limitMax).
Proof.
  unfold delayFor. destruct (Z.leb_spec n limitFree) as [H|H]; unfold limitFree in *.
  - split_and!; [by vm_compute|by vm_compute|done|lia].
  - destruct (Z.ltb_spec 8 (n - 5 - 1)) as [H'|H']; [split_and!; [by vm_compute|by vm_compute|lia|done]|].
    assert (n - 5 - 1 ∈ seqZ 0 9) as Hk by (apply elem_of_seqZ; lia).
    assert (Hall : Forall (fun k => let d := if limitMax <? Z.shiftl limitBase k then limitMax else Z.shiftl limitBase k in
      0 <= d <= limitMax /\ (3 <= k -> d = limitMax)) (seqZ 0 9)).
    { repeat constructor; vm_compute; try done; intros; lia. }
    rewrite Forall_forall in Hall. specialize (Hall _ Hk). cbn zeta in *. split_and!; [tauto|tauto|lia|]. intros. apply Hall. lia.
Qed.

Section Bounded.
Context {Mo : MapOrder}.
Implicit Types (l : authLimiter) (b : Buckets).

Lemma pruneLocked_room now b fl : named b -> (size b <= 4096)%nat -> (size (pruneLocked now b fl).1 < 4096)%nat /\ (pruneLocked now b fl).1 ⊆ b.
Proof.
  intros Hb Hsz. unfold pruneLocked. pose proof (prune_room af_last limitReset now b 4096 Hb ltac:(lia) Hsz) as H.
  destruct (prune_loop _ _ _ _) as [m ip]. change (4096%nat) with (Z.to_nat limitEntries) in *. unfold limitEntries in *.
  destruct (_ && _); exact H.
Qed.

Definition buckets_ok b : Prop := named b /\ (size b <= 4096)%nat /\ map_Forall (fun _ f => 1 <= af_n f) b.
Definition limiter_ok l : Prop := buckets_ok (al_byIP l) /\ buckets_ok (al_bearer l).
Lemma count_ok now key b fl : key <> "" -> buckets_ok b -> buckets_ok (count now key b fl).1.2 /\ 1 <= (count now key b fl).1.1.
Proof.
  intros Hk (H1 & H2 & H3). unfold count. destruct (b !! key) as [f|] eqn:E.
  - pose proof (H3 _ _ E) as Hn. cbn in Hn. cbn [fst snd]. assert (Hf : 1 <= (if limitReset <? now - af_last f then 0 else af_n f) + 1) by (case_match; lia).
    split; [|done]. split_and!.
    + unfold named. by rewrite lookup_insert_ne.
    + by rewrite map_size_insert_Some by eauto.
    + by apply map_Forall_insert_2.
  - set (p := if _ <=? _ then _ else _). assert (Hp : p.1 ⊆ b /\ (size p.1 < 4096)%nat).
    { unfold p. destruct (Z.leb_spec limitEntries (Z.of_nat (size b))) as [Hl|Hl]; unfold limitEntries in Hl.
      - destruct (pruneLocked_room now b fl); done.
      - cbn. split; [done|lia]. }
    destruct p as [b' fl']. cbn [fst snd] in *. destruct Hp as [Hs Hz]. split; [|lia]. split_and!.
    + unfold named. rewrite lookup_insert_ne by done. destruct (b' !! "") eqn:E'; [|done]. apply (lookup_weaken _ _ _ _ E') in Hs. unfold named in H1. congruence.
    + rewrite map_size_insert. destruct (b' !! key); cbn [id]; lia.
    + apply map_Forall_insert_2; [cbn; lia|]. intros k x Hx. by apply (H3 k), (lookup_weaken b' b).
Qed.
End Bounded.

(** ** Sequences of operations *)
Inductive Op :=
  | OFail (k : Kind) (now : Z) (ip : string)
  | OWake (ip : string) (sl : option nat)
  | OReset (ip : string)
  | OResetBearer (ip : string).

Section Runs.
Context {Mo : MapOrder}.
Implicit Types (l : authLimiter) (b : Buckets) (o : Op).

Definition op_run o l : authLimiter :=
  match o with
  | OFail k now ip => (fail_start k now ip l).2
  | OWake ip sl => fail_end ip sl l
  | OReset ip => reset ip l
  | OResetBearer ip => resetBearer ip l
  end.
Fixpoint run (ops : list Op) l : authLimiter := match ops with [] => l | o :: ops' => run ops' (op_run o l) end.

Lemma table_start k k' now ip l :
  table k' (fail_start k now ip l).2 =
    if match k, k' with KPassword, KPassword | KBearer, KBearer => true | _, _ => false end
    then (count now (limitKey ip) (table k l) (al_fullLogged l)).1.2 else table k' l.
Proof.
  unfold fail_start. destruct (count _ _ _ _) as [[n b] fl]. destruct l as [p q s h f x].
  destruct k, k'; cbn; destruct (0 <? _); cbn; try done; by destruct (s !! _).
Qed.
Lemma table_wake k ip sl l : table k (fail_end ip sl l) = table k l.
Proof. unfold fail_end. destruct sl as [p|]; [|done]. destruct l as [? ? s ? ? ?], k; cbn; repeat case_match; done. Qed.
Lemma limiter_run_ok ops l : Forall (fun o => match o with OFail _ _ ip => limitKey ip <> "" | _ => True end) ops ->
  limiter_ok l -> limiter_ok (run ops l).
Proof.
  intros Hops. revert l. induction Hops as [|o ops Ho _ IH]; intros l Hl; [done|]. apply IH.
  assert (Hdel : forall k b, buckets_ok b -> buckets_ok (delete k b)).
  { intros k b (H1 & H2 & H3). split_and!; [|etransitivity; [apply map_subseteq_size, delete_subseteq|done]|by apply map_Forall_delete].
    unfold named in *. destruct (decide (k = "")) as [->|]; [by rewrite lookup_delete_eq|by rewrite lookup_delete_ne]. }
  destruct Hl as [Hp Hb]. destruct o as [k now ip|ip sl|ip|ip]; cbn [op_run].
  - pose proof (table_start k KPassword now ip l) as H1. pose proof (table_start k KBearer now ip l) as H2.
    unfold limiter_ok. change (al_byIP ?x) with (table KPassword x). change (al_bearer ?x) with (table KBearer x).
    rewrite H1, H2. destruct k; cbn [table]; (split; [|done]) || (split; [done|]); by apply count_ok.
  - pose proof (table_wake KPassword ip sl l) as H1. pose proof (table_wake KBearer ip sl l) as H2. cbn in H1, H2.
    split; by rewrite ?H1, ?H2.
  - destruct l. split; [by apply Hdel|done].
  - destruct l. split; [done|by apply Hdel].
Qed.

(** ** The guesses of one source *)
Context (k : Kind) (key : string).
Definition same_kind k' : bool := match k, k' with KPassword, KPassword | KBearer, KBearer => true | _, _ => false end.
(** No success of this kind from the source. *)
Definition keeps o : Prop :=
  match o with
  | OReset ip => k = KPassword -> limitKey ip <> key
  | OResetBearer ip => k = KBearer -> limitKey ip <> key
  | _ => True
  end.
(** The table of the kind has room at every moment: nobody is evicted. *)
Fixpoint roomy ops l : Prop :=
  match ops with [] => True | o :: ops' => Z.of_nat (size (table k l)) < limitEntries /\ roomy ops' (op_run o l) end.
(** Time, count and delay of every failure of the source. *)
Fixpoint answers ops l : list (Z * Z * Z) :=
  match ops with
  | [] => []
  | o :: ops' =>
      match o with
      | OFail k' now ip =>
          if same_kind k' && String.eqb (limitKey ip) key
          then let r := fail_start k' now ip l in [(now, r.1.1.1, r.1.1.2)] else []
      | _ => []
      end ++ answers ops' (op_run o l)
  end.
(** The same from the bucket alone. *)
Definition next_count (now : Z) (f : option authFails) : Z :=
  match f with None => 1 | Some f => (if limitReset <? now - af_last f then 0 else af_n f) + 1 end.
Fixpoint bucket_answers (times : list Z) (f : option authFails) : list (Z * Z * Z) :=
  match times with
  | [] => []
  | t :: times' => let n := next_count t f in (t, n, delayFor n) :: bucket_answers times' (Some (mkFails n t))
  end.
Definition times ops : list Z :=
  omap (fun o => match o with
                 | OFail k' now ip => if same_kind k' && String.eqb (limitKey ip) key then Some now else None
                 | _ => None end) ops.

Lemma count_room now key' b fl : Z.of_nat (size b) < limitEntries ->
  count now key' b fl = (next_count now (b !! key'), <[key' := mkFails (next_count now (b !! key')) now]> b, fl).
Proof.
  intros H. unfold count. destruct (b !! key'); [done|]. by rewrite (proj2 (Z.leb_gt _ _)).
Qed.
Lemma start_answer k' now ip l : (fail_start k' now ip l).1.1.1 = (count now (limitKey ip) (table k' l) (al_fullLogged l)).1.1 /\
  (fail_start k' now ip l).1.1.2 = delayFor (count now (limitKey ip) (table k' l) (al_fullLogged l)).1.1.
Proof.
  unfold fail_start. destruct (count _ _ _ _) as [[n b] fl]. cbn. destruct (0 <? _); [|done]. by destruct (_ !! _).
Qed.
Lemma answers_bucket ops l : Forall keeps ops -> roomy ops l -> answers ops l = bucket_answers (times ops) (table k l !! key).
Proof.
  intros Hk. revert l. induction Hk as [|o ops Ho _ IH]; intros l; [done|]. cbn [roomy answers]. intros [Hr Hro].
  assert (Hsame : forall l', table k l' = table k l -> answers ops l' = bucket_answers (times ops) (table k l' !! key) ->
    answers ops l' = bucket_answers (times ops) (table k l !! key)) by (by intros l' ->).
  destruct o as [k' now ip|ip sl|ip|ip]; cbn [op_run] in *; unfold times; cbn [omap list_omap]; fold (times ops); rewrite IH by done.
  - rewrite (table_start k' k). fold (same_kind k').
    assert (Hkk : same_kind k' = true -> k' = k) by (unfold same_kind; by destruct k, k').
    assert (Hdir : (match k', k with KPassword, KPassword | KBearer, KBearer => true | _, _ => false end) = same_kind k')
      by (unfold same_kind; by destruct k, k').
    rewrite Hdir. destruct (same_kind k'); [|done]. rewrite Hkk by done. rewrite count_room by done. cbn [fst snd andb].
    destruct (String.eqb_spec (limitKey ip) key) as [He|He]; cbn [app].
    + destruct (start_answer k now ip l) as [-> ->]. rewrite count_room by done. rewrite He, lookup_insert_eq. done.
    + by rewrite lookup_insert_ne.
  - by rewrite table_wake.
  - unfold keeps in Ho. destruct l, k; cbn; [|done]. by rewrite lookup_delete_ne by auto.
  - unfold keeps in Ho. destruct l, k; cbn; [done|]. by rewrite lookup_delete_ne by auto.
Qed.
End Runs.

(** Every failure is sent when the answer to the one before it is there. *)
Fixpoint sequential (a : list (Z * Z * Z)) : Prop :=
  match a with
  | (t, _, d) :: ((t', _, _) :: _) as a' => t + d <= t' /\ sequential a'
  | _ => True
  end.
Definition span (a : list (Z * Z * Z)) : Z :=
  match a with [] => 0 | (t0, _, _) :: _ => let '(t1, _, d1) := List.last a (0, 0, 0) in t1 + d1 - t0 end.

Lemma next_count_pos now f : (forall x, f = Some x -> 1 <= af_n x) -> 1 <= next_count now f.
Proof. intros Hf. unfold next_count. destruct f as [x|]; [specialize (Hf x eq_refl); case_match; lia|lia]. Qed.
Lemma bucket_guesses times f t0 : (forall x, f = Some x -> 1 <= af_n x) ->
  sequential (bucket_answers times f) ->
  match bucket_answers times f with
  | [] => True
  | (t, n, d) :: _ =>
      let '(t1, _, d1) := List.last (bucket_answers times f) (0, 0, 0) in
      2 * Second * (Z.of_nat (length times) - 1) + (t + d - t0) <=
        t1 + d1 - t0 + 2 * Second * (8 - Z.min n 8)
  end.
Proof.
  revert f. induction times as [|t times IH]; intros f Hf Hs; [done|]. cbn [bucket_answers] in *. cbv zeta in *.
  pose proof (next_count_pos t f Hf) as Hn.
  destruct (delayFor_bounds (next_count t f)) as (Hd1 & _ & _).
  specialize (IH (Some (mkFails (next_count t f) t)) ltac:(by intros ? [= <-])).
  destruct times as [|t' times]; [cbn in *; unfold Second in *; lia|].
  cbn [bucket_answers] in *. cbv zeta in *. cbn [sequential] in Hs. destruct Hs as [Ht Hs]. specialize (IH Hs).
  set (n := next_count t f) in *. set (n' := next_count t' (Some (mkFails n t))) in *.
  set (rest := bucket_answers times (Some (mkFails n' t'))) in *.
  assert (Hl : List.last ((t, n, delayFor n) :: (t', n', delayFor n') :: rest) (0, 0, 0) = List.last ((t', n', delayFor n') :: rest) (0, 0, 0)) by done.
  rewrite Hl. destruct (List.last _ _) as [[t1 n1] d1]. cbn [length] in *. clear Hl.
  destruct (delayFor_bounds n') as (Hd1' & _ & Hd9). unfold limitMax, Second in *.
  assert (Hn' : n' = n + 1 \/ n' = 1 /\ 600 * 1000000000 < t' - t).
  { unfold n', next_count. cbn [af_n af_last]. destruct (Z.ltb_spec limitReset (t' - t)) as [H|H]; [right|left]; unfold limitReset, Minute, Second in H; lia. }
  destruct Hn' as [Hn'|[Hn' Hgap]].
  - destruct (Z.le_gt_cases 9 n') as [H9|H9]; [specialize (Hd9 H9)|]; lia.
  - lia.
Qed.

Definition named_op (o : Op) : Prop := match o with OFail _ _ ip => limitKey ip <> "" | _ => True end.

(** C26: guessing is slow.  Whatever has happened before, of any source (password
    failures or rejected tokens), the table of failures has at most 4096 buckets.  And from there on: as
    long as a source has no success of the kind and nobody is evicted, N failures sent
    one after the other take at least 2 s * (N - 8) - whatever other sources do
    meanwhile, whatever happens to the other kind, and however the source spreads its
    failures over its addresses or waits for its counter to expire. *)
Theorem guesses_bounded {Mo : MapOrder} (k : Kind) (key : string) (before ops : list Op) :
  Forall named_op before ->
  let l := run before newAuthLimiter in
  (size (table k l) <= 4096)%nat /\
  (Forall (keeps k key) ops -> roomy k ops l -> sequential (answers k key ops l) ->
   2 * Second * (Z.of_nat (length (answers k key ops l)) - 8) <= span (answers k key ops l)).
Proof.
  intros Hb l. assert (Hl : limiter_ok l).
  { apply limiter_run_ok; [done|]. split; (split_and!; [done|exact (Nat.le_0_l 4096)|apply map_Forall_empty]). }
  assert (Ht : buckets_ok (table k l)) by (destruct Hl, k; done).
  split; [apply Ht|]. intros Hk Hr. rewrite (answers_bucket k key ops l Hk Hr). intros Hs.
  assert (Hf : forall x, table k l !! key = Some x -> 1 <= af_n x) by (intros x; apply Ht).
  pose proof (bucket_guesses (times k key ops) (table k l !! key)) as H. revert H Hs.
  unfold span. generalize (times k key ops) as ts. intros [|t ts]; [cbn; unfold Second; lia|]. intros H Hs.
  specialize (H t Hf Hs). cbn [bucket_answers] in *. cbv zeta in *.
  set (n := next_count t (table k l !! key)) in *.
  assert (Hn : 1 <= n) by by apply next_count_pos.
  destruct (delayFor_bounds n) as (Hd & _ & _).
  assert (Hlen : forall ts f, length (bucket_answers ts f) = length ts) by (clear; induction ts as [|t ts IH]; intros f; cbn; [done|by rewrite IH]).
  destruct (List.last _ _) as [[t1 n1] d1]. cbn [length] in *. rewrite Hlen. unfold Second in *. lia.
Qed.

(** Ten failures from two addresses of one /64, as fast as the server answers. *)
Lemma guesses_bounded_witness :
  let t := map (fun x => x * (250 * Millisecond)) [0; 0; 0; 0; 0; 0; 1; 3; 7; 15] in
  let ops := map (fun x => OFail KPassword x "2001:db8::5") (take 5 t) ++ map (fun x => OFail KPassword x "2001:db8::6") (drop 5 t) in
  let a := answers KPassword "2001:db8::/64" ops newAuthLimiter in
  length a = 10%nat /\ span a = 23 * (250 * Millisecond) /\ 2 * Second * (10 - 8) <= 23 * (250 * Millisecond).
Proof.
  intros t ops a. split; [by vm_compute|]. assert (Hs : span a = 23 * (250 * Millisecond)) by by vm_compute.
  split; [done|]. rewrite <- Hs. pose proof (guesses_bounded KPassword "2001:db8::/64" [] ops) as H.
  destruct H as [_ H]; [constructor|]. change (Z.of_nat (length (answers KPassword "2001:db8::/64" ops (run [] newAuthLimiter))) ) with 10 in H.
  apply H.
  - by repeat constructor.
  - by repeat split.
  - vm_compute. by repeat split.
Defined.
