(* ===== verification/WebToken.v ===== *)
(** API tokens (src/internal/web/token.go).

    [sha] is hex(sha256(secret)).  A time is in nanoseconds; the zero time of Expires
    and LastUsed is [None].  The mirror file is the list of entries it decodes to. *)
From stdpp Require Import base gmap strings list sorting.
From Stdlib Require Import ZArith Lia Ascii.
From S2P Require Import Prelude GoLib GoNet GoPath ConfigWeb WebTable.
Open Scope Z_scope.

Definition tokenPrefix : string := "n5t_".
Definition tokenMax : Z := 50.
Definition tokenTouch : Z := Minute.
Definition tokenIDLen : nat := 8.
Definition ScopeRead : string := "read".
Definition ScopeControl : string := "control".
Definition ScopeAdmin : string := "admin".
(** [^[A-Za-z0-9][A-Za-z0-9 ._-]{0,31}$] *)
Definition TokenNameRe (s : string) : bool :=
  match chars s with
  | c :: l => alnum c && forallb (fun c => alnum c || one_of " ._-" c) l && (length l <=? 31)%nat
  | [] => false
  end.

Record Token := mkToken {
  tk_ID : string; tk_Name : string; tk_Scope : string; tk_Created : Z; tk_Expires : option Z;
  tk_LastUsed : option Z; tk_LastIP : string }.
#[export] Instance eta_Token : Eta Token := fun t => mkToken (tk_ID t) (tk_Name t) (tk_Scope t)
  (tk_Created t) (tk_Expires t) (tk_LastUsed t) (tk_LastIP t).
#[export] Instance Token_eq : EqDecision Token.
Proof. solve_decision. Defined.
Definition Expired (t : Token) (now : Z) : bool :=
  match tk_Expires t with Some e => e <=? now | None => false end.
Definition scopeRank (s : string) : Z :=
  if String.eqb s ScopeRead then 1 else if String.eqb s ScopeControl then 2 else if String.eqb s ScopeAdmin then 3 else 0.
Definition ScopeAllows (have need : string) : bool := (scopeRank need <=? scopeRank have) && (0 <? scopeRank need).
Definition ValidTokenID (id : string) : bool :=
  (String.length id =? tokenIDLen)%nat && match DecodeString id with Some _ => true | None => false end.

Abbreviation Tokens := (gmap string Token).
Record tokenFile := mkTokenFile { tf_Format : Z; tf_Tokens : list (string * Token) }.
Record tokenStore := mkTokenStore { ts_path : bool; ts_file : option tokenFile; ts_byKey : Tokens }.
#[export] Instance eta_tokenStore : Eta tokenStore := fun s => mkTokenStore (ts_path s) (ts_file s) (ts_byKey s).
Inductive TokenErr := ErrTokenName | ErrTokenScope | ErrTokenTaken | ErrTokenLimit | ErrTokenRand.

(** [strings.EqualFold] on two names, which are ASCII. *)
Definition fold_eq (a b : string) : bool := bool_decide (fold_case (chars a) = fold_case (chars b)).

Section Store.
Context {Mo : MapOrder} (sha : string -> string).
Implicit Types (s : tokenStore) (now : Z) (ok : bool).

Definition tkey_le (a b : string * Token) : Prop := String.le a.1 b.1.
#[global] Instance tkey_le_dec : RelDecision tkey_le.
Proof. intros a b. unfold tkey_le. apply _. Defined.
(** [ok]: the file could be written. *)
Definition saveLocked ok s : tokenStore :=
  if negb (ts_path s) then s
  else if ok then s <| ts_file := Some (mkTokenFile 1 (merge_sort tkey_le (map_iter (ts_byKey s)))) |>
  else s.
(** [rand]: the encoded random bytes, or that there were none. *)
Definition Create ok now (rand : option string) (name scope : string) (expires : option Z) s
  : (TokenErr + string * Token) * tokenStore :=
  if negb (TokenNameRe name) then (inl ErrTokenName, s)
  else
    let scope := if String.eqb scope "" then ScopeRead else scope in
    if scopeRank scope =? 0 then (inl ErrTokenScope, s)
    else
      match rand with
      | None => (inl ErrTokenRand, s)
      | Some r =>
          let secret := String.append tokenPrefix r in
          let key := sha secret in
          let t := mkToken (String.substring 0 tokenIDLen key) name scope now expires None "" in
          if existsb (fun kv => fold_eq (tk_Name kv.2) name) (map_iter (ts_byKey s)) then (inl ErrTokenTaken, s)
          else if tokenMax <=? Z.of_nat (size (ts_byKey s)) then (inl ErrTokenLimit, s)
          else (inr (secret, t), saveLocked ok (s <| ts_byKey := <[key := t]> (ts_byKey s) |>))
      end.
(** The token, or whether it is only expired. *)
Definition Lookup ok now (secret ip : string) s : (bool + Token) * tokenStore :=
  if negb (HasPrefix secret tokenPrefix) then (inl false, s)
  else
    let key := sha secret in
    match ts_byKey s !! key with
    | None => (inl false, s)
    | Some t =>
        if Expired t now then (inl true, s)
        else if match tk_LastUsed t with Some u => (tokenTouch <=? now - u) || (now <? u) | None => true end then
          let t := t <| tk_LastUsed := Some now |> <| tk_LastIP := ip |> in
          (inr t, saveLocked ok (s <| ts_byKey := <[key := t]> (ts_byKey s) |>))
        else (inr t, s)
    end.
Definition Revoke ok (id : string) s : bool * tokenStore :=
  match find (fun kv => String.eqb (tk_ID kv.2) id) (map_iter (ts_byKey s)) with
  | Some (k, _) => (true, saveLocked ok (s <| ts_byKey := delete k (ts_byKey s) |>))
  | None => (false, s)
  end.
Definition newer (a b : Token) : Prop :=
  tk_Created b < tk_Created a \/ (tk_Created a = tk_Created b /\ String.le (tk_ID a) (tk_ID b)).
#[global] Instance newer_dec : RelDecision newer.
Proof. intros a b. unfold newer. apply _. Defined.
Definition List_tokens s : list Token := merge_sort newer (map snd (map_iter (ts_byKey s))).

Fixpoint load_entries (l : list (string * Token)) (m : Tokens) : Tokens :=
  match l with
  | [] => m
  | (key, t) :: l' =>
      if negb (String.length key =? 64)%nat || negb (TokenNameRe (tk_Name t)) || (scopeRank (tk_Scope t) =? 0)
      then load_entries l' m
      else
        let m := <[key := t <| tk_ID := String.substring 0 tokenIDLen key |>]> m in
        if tokenMax <=? Z.of_nat (size m) then m else load_entries l' m
  end.
Definition load s : tokenStore :=
  if negb (ts_path s) then s
  else match ts_file s with
       | None => s
       | Some f => if negb (tf_Format f =? 1) then s else s <| ts_byKey := load_entries (tf_Tokens f) (ts_byKey s) |>
       end.
Definition NewTokenStore (path : bool) (file : option tokenFile) : tokenStore := load (mkTokenStore path file ∅).
End Store.

Example TokenNameRe_ex : map TokenNameRe ["Home Assistant"; " x"; ""; "a/b"; "0123456789abcdef0123456789abcdef"; "0123456789abcdef0123456789abcdefg"]
  = [true; false; false; false; true; false].
Proof. by vm_compute. Qed.

(** ** What the store keeps *)
Inductive Op :=
  | OCreate (now : Z) (rand : option string) (name scope : string) (expires : option Z)
  | OLookup (now : Z) (secret ip : string)
  | ORevoke (id : string)
  | ORestart.
Section Kept.
Context {Mo : MapOrder} (sha : string -> string) (sha_length : forall t, String.length (sha t) = 64%nat).
Implicit Types (s : tokenStore) (m : Tokens).

(** Every write of the mirror succeeds. *)
Definition op_run (o : Op) s : tokenStore :=
  match o with
  | OCreate now rand name scope expires => (Create sha true now rand name scope expires s).2
  | OLookup now secret ip => (Lookup sha true now secret ip s).2
  | ORevoke id => (Revoke true id s).2
  | ORestart => NewTokenStore (ts_path s) (ts_file s)
  end.
Definition run (ops : list Op) s : tokenStore := fold_left (fun s o => op_run o s) ops s.

Definition token_ok (key : string) (t : Token) : Prop :=
  String.length key = 64%nat /\ TokenNameRe (tk_Name t) = true /\ scopeRank (tk_Scope t) <> 0 /\
  tk_ID t = String.substring 0 tokenIDLen key.
Definition distinct_names m : Prop :=
  forall k1 k2 t1 t2, m !! k1 = Some t1 -> m !! k2 = Some t2 -> fold_eq (tk_Name t1) (tk_Name t2) = true -> k1 = k2.
Definition tokens_ok m : Prop := map_Forall token_ok m /\ distinct_names m /\ (size m <= 50)%nat.
Definition mirrored s : Prop :=
  ts_path s = true /\
  match ts_file s with
  | None => ts_byKey s = ∅
  | Some f => tf_Format f = 1 /\ NoDup (map fst (tf_Tokens f)) /\ list_to_map (tf_Tokens f) = ts_byKey s
  end.

Lemma load_all l m : Forall (fun e => token_ok e.1 e.2) l -> NoDup (map fst l) -> (forall k, k ∈ map fst l -> m !! k = None) ->
  (size m + length l <= 50)%nat -> load_entries l m = list_to_map l ∪ m.
Proof.
  intros Hl. revert m. induction Hl as [|[k t] l (Hlen & Hname & Hscope & HID) _ IH]; intros m Hnd Hm Hsz; cbn [fst snd] in *.
  - apply map_eq. intros k. by rewrite lookup_union_r.
  - apply NoDup_cons in Hnd as [Hk Hnd]. cbn [load_entries]. rewrite Hlen, Hname. rewrite (proj2 (Z.eqb_neq _ _) Hscope).
    cbn [Nat.eqb negb orb]. assert (Ht : t <| tk_ID := String.substring 0 tokenIDLen k |> = t) by (destruct t; cbn in *; by subst).
    rewrite Ht. cbn [list_to_map foldr fst snd]. cbn [map fst length] in *.
    assert (Hmk : m !! k = None) by (apply Hm; by left).
    assert (Hu : <[k := t]> (list_to_map l) ∪ m = list_to_map l ∪ <[k := t]> m).
    { apply map_eq. intros k'. destruct (decide (k = k')) as [<-|Hne].
      - rewrite lookup_union, lookup_union, !lookup_insert_eq. rewrite (not_elem_of_list_to_map_1 l k) by done. by destruct (m !! k).
      - by rewrite !lookup_union, !lookup_insert_ne by done. }
    change (<[k := t]> (list_to_map l) ∪ m) with (list_to_map ((k, t) :: l) ∪ m) in Hu.
    destruct (Z.leb_spec tokenMax (Z.of_nat (size (<[k := t]> m)))) as [Hf|Hf].
    + rewrite map_size_insert_None in Hf by done. unfold tokenMax in Hf. assert (l = []) as -> by (destruct l; [done|cbn in *; lia]).
      etransitivity; [|symmetry; exact Hu]. cbn. apply map_eq. intros k'. by rewrite lookup_union_r.
    + rewrite IH; [by symmetry| done| |rewrite map_size_insert_None by done; lia].
      intros k' Hk'. rewrite lookup_insert_ne; [apply Hm; by right|]. intros ->. done.
Qed.
Lemma reload s : mirrored s -> tokens_ok (ts_byKey s) -> NewTokenStore (ts_path s) (ts_file s) = s.
Proof.
  intros [Hp Hf] (Hok & _ & Hsz). unfold NewTokenStore, load. cbn [ts_path ts_file ts_byKey]. rewrite Hp. cbn [negb].
  destruct s as [p f m]. cbn in *. subst p. destruct f as [f|]; [|by subst]. destruct Hf as (-> & Hnd & Hm). cbn [Z.eqb negb].
  assert (Hl : Forall (fun e => token_ok e.1 e.2) (tf_Tokens f)).
  { apply Forall_forall. intros [k t] Hin. apply Hok. rewrite <- Hm. by apply elem_of_list_to_map_1. }
  assert (E : load_entries (tf_Tokens f) ∅ = m); [|by rewrite E].
  rewrite load_all; [|done..|].
  - rewrite <- Hm. apply map_eq. intros k. by rewrite lookup_union_l.
  - rewrite map_size_empty. rewrite <- Hm in Hsz. rewrite <- size_dom, dom_list_to_map_L, size_list_to_set, length_fmap in Hsz by done. lia.
Qed.
Lemma token_saved s m : ts_path s = true -> tokens_ok m -> let s' := saveLocked true (s <| ts_byKey := m |>) in mirrored s' /\ tokens_ok (ts_byKey s').
Proof.
  intros Hp Hm. destruct s as [p f m0]. cbn in *. subst p. unfold saveLocked. cbn. split; [|done]. split; [done|]. cbn.
  assert (Hperm : merge_sort tkey_le (map_iter m) ≡ₚ map_iter m) by apply merge_sort_Permutation.
  split; [done|]. split; [rewrite Hperm; apply map_iter_NoDup|].
  rewrite <- (list_to_map_iter m) at 2. apply list_to_map_proper; [|done]. rewrite Hperm. apply map_iter_NoDup.
Qed.
Lemma create_names m key t : distinct_names m -> existsb (fun kv => fold_eq (tk_Name kv.2) (tk_Name t)) (map_iter m) = false ->
  distinct_names (<[key := t]> m).
Proof.
  intros Hd He. assert (Hno : forall k x, m !! k = Some x -> fold_eq (tk_Name x) (tk_Name t) = false).
  { intros k x Hx. apply not_true_is_false. intros Hf. eapply eq_true_false_abs; [|exact He]. apply existsb_exists.
    exists (k, x). split; [|done]. by apply list_elem_of_In, elem_of_map_iter. }
  assert (Hsym : forall a b, fold_eq a b = fold_eq b a).
  { intros a b. unfold fold_eq. apply bool_decide_ext. split; by intros. }
  intros k1 k2 t1 t2 [[<- <-]|[Hn1 H1]]%lookup_insert_Some [[<- <-]|[Hn2 H2]]%lookup_insert_Some Hf; [done| | |by eapply Hd].
  - rewrite Hsym, (Hno k2 t2) in Hf by done. done.
  - rewrite (Hno k1 t1) in Hf by done. done.
Qed.
Lemma op_ok o s : mirrored s /\ tokens_ok (ts_byKey s) -> mirrored (op_run o s) /\ tokens_ok (ts_byKey (op_run o s)).
Proof.
  intros [Hm Hok]. pose proof Hm as [Hp _]. pose proof Hok as (Hf & Hd & Hsz). destruct o as [now rand name scope expires|now secret ip|id|]; cbn [op_run].
  - unfold Create. destruct (TokenNameRe name) eqn:En; [|done]. cbn [negb]. set (sc := if String.eqb scope "" then _ else _).
    destruct (Z.eqb_spec (scopeRank sc) 0) as [|Hsc]; [done|]. destruct rand as [r|]; [|done]. cbv zeta.
    set (key := sha _). set (t := mkToken _ _ _ _ _ _ _). destruct (existsb _ _) eqn:Ee; [done|].
    destruct (Z.leb_spec tokenMax (Z.of_nat (size (ts_byKey s)))) as [|Hlt]; [done|]. unfold tokenMax in Hlt. cbn [snd]. apply token_saved; [done|]. split_and!.
    + apply map_Forall_insert_2; [|done]. by split_and!; [apply sha_length|..].
    + by apply create_names.
    + rewrite map_size_insert. destruct (_ !! key); cbn [id]; lia.
  - unfold Lookup. destruct (negb _); [done|]. destruct (ts_byKey s !! sha secret) as [t|] eqn:E; [|done].
    destruct (Expired t now); [done|]. destruct (match tk_LastUsed t with Some _ => _ | None => _ end); [|done]. cbn [snd]. apply token_saved; [done|]. split_and!.
    + apply map_Forall_insert_2; [|done]. pose proof (Hf _ _ E) as (? & ? & ? & ?). by split_and!; destruct t.
    + intros k1 k2 t1 t2 H1 H2 H. apply lookup_insert_Some in H1, H2. destruct H1 as [[<- <-]|[_ H1]], H2 as [[<- <-]|[_ H2]].
      * done.
      * apply (Hd (sha secret) k2 t t2 E H2). by destruct t.
      * apply (Hd k1 (sha secret) t1 t H1 E). by destruct t.
      * by apply (Hd k1 k2 t1 t2).
    + by rewrite map_size_insert_Some by eauto.
  - unfold Revoke. destruct (find _ _) as [[k t]|]; [|done]. cbn [snd]. apply token_saved; [done|]. split_and!.
    + by apply map_Forall_delete.
    + intros k1 k2 t1 t2 [_ H1]%lookup_delete_Some [_ H2]%lookup_delete_Some. by apply (Hd k1 k2 t1 t2).
    + pose proof (map_subseteq_size _ _ (delete_subseteq (ts_byKey s) k)). lia.
  - by rewrite reload.
Qed.

(** The token store.  After any sequence of creations, look-ups, revocations and
    restarts: at most fifty tokens, each with a valid name and one of the three scopes,
    no two names equal up to case; and a restart finds in the mirror file exactly the
    tokens in memory, with their scopes, expiry and last use.  Every write of the mirror
    succeeds and sha256 in hex has 64 characters. *)
Theorem tokens_kept ops :
  let s := run ops (NewTokenStore true None) in
  map_Forall token_ok (ts_byKey s) /\ distinct_names (ts_byKey s) /\ (size (ts_byKey s) <= 50)%nat /\
  NewTokenStore true (ts_file s) = s.
Proof.
  intros s. assert (H : mirrored s /\ tokens_ok (ts_byKey s)).
  { unfold s, run. assert (H0 : mirrored (NewTokenStore true None) /\ tokens_ok (ts_byKey (NewTokenStore true None))).
    { split; [done|]. split_and!; [apply map_Forall_empty|by intros ? ? ? ?|exact (Nat.le_0_l 50)]. }
    revert H0. generalize (NewTokenStore true None) as s0. induction ops as [|o ops IH]; intros s0 H0; [done|]. cbn. apply IH. by apply op_ok. }
  destruct H as [Hm Hok]. pose proof (reload s Hm Hok) as Hr. destruct Hm as [Hp _]. rewrite Hp in Hr. destruct Hok as (? & ? & ?). done.
Qed.
End Kept.

(** Two tokens, a third one of the same name refused, a use, a revocation, a restart. *)
Lemma tokens_kept_witness :
  let ops := [OCreate 1 (Some "a") "Grafana" "" None; OCreate 2 (Some "b") "ha" "admin" (Some 500); OCreate 3 (Some "c") "GRAFANA" "read" None;
              OLookup 4 "n5t_b" "::1"; ORevoke "n5t_a000"; ORestart] in
  map_iter (ts_byKey (run padded ops (NewTokenStore true None))) =
    [(padded "n5t_b", mkToken "n5t_b000" "ha" "admin" 2 (Some 500) (Some 4) "::1")] /\
  NewTokenStore true (ts_file (run padded ops (NewTokenStore true None))) = run padded ops (NewTokenStore true None).
Proof. split; [by vm_compute|]. apply (tokens_kept padded padded_length). Defined.
