(* ===== verification/WebTokenRate.v ===== *)
(** The request limiter of API tokens (src/internal/web/token.go): a token bucket per
    token id, in binary64 arithmetic.  A time is in nanoseconds. *)
From stdpp Require Import base gmap strings list.
From Stdlib Require Import ZArith QArith Qround Lia Lqa.
From S2P Require Import Prelude GoLib Float64 GoPath WebTable.
Open Scope Z_scope.

Definition tokenRatePerSec : Q := inject_Z 20.
Definition tokenRateBurst : Q := inject_Z 40.
Definition tokenRateEntries : Z := 256.
Definition tokenRateIdle : Z := 10 * Minute.
(** [Duration.Seconds]: whole seconds, and the rest divided by 1e9. *)
Definition Seconds (d : Z) : Q :=
  fadd (of_int (Z.quot d Second)) (fdiv (of_int (Z.rem d Second)) (of_int (10 ^ 9))).

Record tokenBucket := mkBucket { tb_tokens : Q; tb_last : Z }.
Abbreviation TokenBuckets := (gmap string tokenBucket).
Section Limiter.
Context {Mo : MapOrder}.
Definition pruneLocked (now : Z) (tab : TokenBuckets) : TokenBuckets :=
  let '(tab, oldestID) := prune_loop tb_last tokenRateIdle now tab in
  if (tokenRateEntries <=? Z.of_nat (size tab)) && negb (String.eqb oldestID "") then delete oldestID tab else tab.
(** The bucket after the time that has passed. *)
Definition refill (now : Z) (b : tokenBucket) : tokenBucket :=
  let el := Seconds (now - tb_last b) in
  let tokens :=
    if flt 0 el then
      let t := fadd (tb_tokens b) (fmul el tokenRatePerSec) in
      if flt tokenRateBurst t then tokenRateBurst else t
    else tb_tokens b in
  mkBucket tokens now.
Definition allow (now : Z) (id : string) (tab : TokenBuckets) : bool * TokenBuckets :=
  let '(b, tab) :=
    match tab !! id with
    | None =>
        let tab := if tokenRateEntries <=? Z.of_nat (size tab) then pruneLocked now tab else tab in
        (mkBucket tokenRateBurst now, tab)
    | Some b => (refill now b, tab)
    end in
  if flt (tb_tokens b) 1 then (false, <[id := b]> tab)
  else (true, <[id := mkBucket (fsub (tb_tokens b) 1) (tb_last b)]> tab).
End Limiter.

Example Seconds_ex : map (fun d => Qred (Seconds d)) [0; 1500000000; - 250000000] = [0%Q; (3 # 2)%Q; (- 1 # 4)%Q].
Proof. by vm_compute. Qed.

(** ** Rounding errors *)
Section Errors.
Local Open Scope Q_scope.
Definition g : Q := pow2 (-45).
Lemma round64_up x : 0 <= x -> x <= 128 -> round64 x <= x + g.
Proof.
  intros H0 H1. set (m := Qceiling (x * inject_Z (2 ^ 45))).
  assert (Hg : g == / inject_Z (2 ^ 45)) by done.
  assert (Hx : x == x * inject_Z (2 ^ 45) * g) by (rewrite Hg; field; by vm_compute).
  pose proof (Qle_ceiling (x * inject_Z (2 ^ 45))) as Hc. fold m in Hc.
  pose proof (Qceiling_lt (x * inject_Z (2 ^ 45))) as Hl. fold m in Hl.
  assert (Hgp : 0 < g) by by vm_compute.
  assert (Hup : x <= inject_Z m * g) by (rewrite Hx; by apply Qmult_le_compat_r, Qlt_le_weak).
  assert (Hlo : inject_Z m * g <= x + g).
  { assert (E : x + g == (x * inject_Z (2 ^ 45) + 1) * g) by (rewrite Hg; field; by vm_compute). rewrite E.
    apply Qmult_le_compat_r; [|by apply Qlt_le_weak]. unfold Zminus in Hl. rewrite inject_Z_plus in Hl.
    change (inject_Z (- (1))) with (-1) in Hl. lra. }
  assert (Hm : (Z.abs m < 2 ^ 53)%Z).
  { assert (inject_Z m < inject_Z (2 ^ 53)) as Hm2.
    { assert (x * inject_Z (2 ^ 45) <= 128 * inject_Z (2 ^ 45)) by (apply Qmult_le_compat_r; [done|by vm_compute]).
      unfold Zminus in Hl. rewrite inject_Z_plus in Hl. change (inject_Z (- (1))) with (-1) in Hl.
      change (inject_Z (2 ^ 45)) with (35184372088832) in *. change (inject_Z (2 ^ 53)) with (9007199254740992). lra. }
    rewrite <- Zlt_Qlt in Hm2.
    assert (0 <= m)%Z.
    { rewrite Zle_Qle. eapply Qle_trans; [|exact Hc]. apply Qmult_le_0_compat; [done|by vm_compute]. }
    lia. }
  eapply Qle_trans; [apply round64_le, Hup|]. unfold g in *. rewrite round64_exact by done. exact Hlo.
Qed.
Lemma round64_nonneg x : 0 <= x -> 0 <= round64 x.
Proof. intros H. change 0 with (round64 0). by apply round64_le. Qed.
Lemma g_small : 0 < g /\ 43 * g <= 1 # 100000000000.
Proof. split; by vm_compute. Qed.

(** A duration in seconds. *)
Definition secs (d : Z) : Q := inject_Z d * (1 # 1000000000).
Lemma secs_le a b : (a <= b)%Z -> secs a <= secs b.
Proof. intros H. unfold secs. apply Qmult_le_compat_r; [by rewrite <- Zle_Qle|by vm_compute]. Qed.
Lemma Seconds_bounds d : (0 <= d)%Z -> 0 <= Seconds d /\ ((d < 2 * Second)%Z -> Seconds d <= secs d + 2 * g /\ Seconds d <= 3).
Proof.
  intros Hd. unfold Seconds. set (r := Z.rem d Second). set (q := Z.quot d Second).
  assert (Hr : (0 <= r < Second)%Z) by (apply Z.rem_bound_pos; unfold Second; lia).
  assert (Hq : (0 <= q)%Z) by (apply Z.quot_pos; unfold Second; lia).
  assert (Hdq : d = (Second * q + r)%Z) by apply Z.quot_rem'.
  rewrite (of_int_exact r) by (unfold Second in Hr; lia). rewrite (of_int_exact (10 ^ 9)) by done.
  change (inject_Z (10 ^ 9)) with 1000000000. unfold fdiv.
  assert (Hx0 : 0 <= inject_Z r / 1000000000).
  { apply Qle_shift_div_l; [done|]. rewrite Qmult_0_l. change 0 with (inject_Z 0). rewrite <- Zle_Qle. lia. }
  assert (Hx1 : inject_Z r / 1000000000 <= 1).
  { apply Qle_shift_div_r; [done|]. change (1 * 1000000000) with (inject_Z 1000000000). rewrite <- Zle_Qle. unfold Second in Hr. lia. }
  pose proof (round64_up (inject_Z r / 1000000000) Hx0 ltac:(lra)) as Hf.
  pose proof (round64_nonneg _ Hx0) as Hf0. set (f := round64 (inject_Z r / 1000000000)) in *.
  assert (Hoq : 0 <= of_int q).
  { apply round64_nonneg. change 0 with (inject_Z 0). by rewrite <- Zle_Qle. }
  split; [apply round64_nonneg; lra|]. intros H2.
  assert (Hq1 : (q <= 1)%Z) by (unfold Second in *; lia). rewrite of_int_exact by lia.
  assert (Hqq : 0 <= inject_Z q <= 1) by (split; [change 0 with (inject_Z 0)|change 1 with (inject_Z 1)]; by rewrite <- Zle_Qle).
  pose proof (g_small) as [Hg0 Hg1]. unfold fadd.
  pose proof (round64_up (inject_Z q + f) ltac:(lra) ltac:(lra)) as Ha.
  assert (Hs : secs d == inject_Z q + inject_Z r / 1000000000).
  { unfold secs. rewrite Hdq, inject_Z_plus, inject_Z_mult. change (inject_Z Second) with 1000000000. field. }
  rewrite Hs. split; lra.
Qed.

Definition full (b : tokenBucket) : Prop := 0 <= tb_tokens b <= 40.
Lemma refill_bounds now b : full b -> (tb_last b <= now)%Z ->
  full (refill now b) /\ tb_tokens (refill now b) <= tb_tokens b + 20 * secs (now - tb_last b) + 42 * g.
Proof.
  intros [H0 H40] Ht. unfold refill, full. cbn [tb_tokens]. set (d := (now - tb_last b)%Z).
  assert (Hd : (0 <= d)%Z) by (unfold d; lia). destruct (Seconds_bounds d Hd) as [Hs0 Hs2].
  pose proof (secs_le 0 d Hd) as Hsec. change (secs 0) with (0 * (1 # 1000000000)) in Hsec. pose proof g_small as [Hg0 Hg1].
  destruct (flt 0 (Seconds d)); [|split; [done|lra]].
  assert (Hm0 : 0 <= fmul (Seconds d) tokenRatePerSec) by (apply round64_nonneg, Qmult_le_0_compat; [done|by vm_compute]).
  set (t := fadd (tb_tokens b) (fmul (Seconds d) tokenRatePerSec)).
  assert (Ht0 : 0 <= t) by (apply round64_nonneg; lra). change tokenRateBurst with 40.
  destruct (Z.lt_ge_cases d (2 * Second)) as [H2|H2].
  - destruct (Hs2 H2) as [Hs Hs3]. unfold fmul, tokenRatePerSec in *. change (inject_Z 20) with 20 in *.
    pose proof (round64_up (Seconds d * 20) ltac:(lra) ltac:(lra)) as Hm.
    assert (Hts : t <= tb_tokens b + round64 (Seconds d * 20) + g).
    { unfold t, fadd. apply (round64_up (tb_tokens b + round64 (Seconds d * 20))); lra. }
    destruct (flt 40 t) eqn:E; [apply flt_spec in E|apply flt_false in E]; split; [lra|lra|lra|lra].
  - pose proof (secs_le _ _ H2) as H2s. change (secs (2 * Second)) with (2000000000 * (1 # 1000000000)) in H2s.
    destruct (flt 40 t) eqn:E; [apply flt_spec in E|apply flt_false in E]; split; [lra|lra|lra|lra].
Qed.
Lemma take_bounds x : 1 <= x -> x <= 40 -> 0 <= fsub x 1 /\ fsub x 1 <= 40 /\ fsub x 1 <= x - 1 + g.
Proof.
  intros H1 H2. pose proof g_small as [Hg0 Hg1]. unfold fsub. pose proof (round64_up (x - 1) ltac:(lra) ltac:(lra)).
  pose proof (round64_nonneg (x - 1) ltac:(lra)). split_and!; lra.
Qed.
End Errors.

(** ** One bucket *)
Definition bucket_allow (now : Z) (f : option tokenBucket) : bool * tokenBucket :=
  let b := match f with None => mkBucket tokenRateBurst now | Some b => refill now b end in
  if flt (tb_tokens b) 1 then (false, b) else (true, mkBucket (fsub (tb_tokens b) 1) (tb_last b)).
Fixpoint granted_b (times : list Z) (f : option tokenBucket) : Z :=
  match times with
  | [] => 0
  | t :: times' => let '(ok, b) := bucket_allow t f in (if ok then 1 else 0) + granted_b times' (Some b)
  end.
Fixpoint ascending_from (t0 : Z) (times : list Z) : Prop :=
  match times with [] => True | t :: times' => t0 <= t /\ ascending_from t times' end.

Lemma bucket_allow_full now f : (forall b, f = Some b -> full b /\ tb_last b <= now) ->
  full (bucket_allow now f).2 /\ tb_last (bucket_allow now f).2 = now.
Proof.
  intros Hf. unfold bucket_allow. set (b := match f with None => _ | Some b => _ end).
  assert (Hb : full b /\ tb_last b = now).
  { unfold b. destruct f as [x|]; [destruct (Hf x eq_refl) as [H1 H2]; split; [by apply refill_bounds|done]|].
    split; [|done]. split; by vm_compute. }
  destruct Hb as [[H0 H40] Hl]. destruct (flt (tb_tokens b) 1) eqn:E; [by split|]. apply flt_false in E. cbn. split; [|done].
  by destruct (take_bounds (tb_tokens b) E H40) as (H1 & H2 & _).
Qed.
Lemma last_cons_default {A} (x d : A) l : List.last (x :: l) d = List.last l x.
Proof.
  revert x d. induction l as [|y l IH]; intros x d; [done|].
  change (List.last (y :: l) d = List.last (y :: l) x). by rewrite !IH.
Qed.
Section Bucket.
Local Open Scope Q_scope.
Lemma bucket_allow_spend now b : full b -> (tb_last b <= now)%Z ->
  inject_Z (if (bucket_allow now (Some b)).1 then 1 else 0) + tb_tokens (bucket_allow now (Some b)).2
    <= tb_tokens b + 20 * secs (now - tb_last b) + 43 * g.
Proof.
  intros Hb Ht. destruct (refill_bounds now b Hb Ht) as [[H0 H40] Hr]. pose proof g_small as [Hg _]. unfold bucket_allow.
  destruct (flt (tb_tokens (refill now b)) 1) eqn:E; cbn [fst snd tb_tokens].
  - change (inject_Z 0) with 0. lra.
  - apply flt_false in E. destruct (take_bounds (tb_tokens (refill now b)) E H40) as (_ & _ & H1). change (inject_Z 1) with 1. lra.
Qed.
Lemma granted_b_bound times b : full b -> ascending_from (tb_last b) times ->
  inject_Z (granted_b times (Some b)) <=
    tb_tokens b + 20 * secs (List.last times (tb_last b) - tb_last b) + 43 * g * inject_Z (Z.of_nat (length times)).
Proof.
  revert b. induction times as [|t times IH]; intros b Hb Ha.
  - cbn [granted_b List.last length]. rewrite Z.sub_diag. change (secs 0) with (0 * (1 # 1000000000)).
    change (inject_Z 0) with 0. change (inject_Z (Z.of_nat 0)) with 0. destruct Hb. lra.
  - destruct Ha as [Ht Ha]. cbn [granted_b].
    pose proof (bucket_allow_spend t b Hb Ht) as Hs. pose proof (bucket_allow_full t (Some b) ltac:(by intros ? [= <-])) as [Hf Hl].
    destruct (bucket_allow t (Some b)) as [ok b']. cbn [fst snd] in *. rewrite <- Hl in Ha. specialize (IH b' Hf Ha).
    rewrite inject_Z_plus.
    assert (Hlast : List.last (t :: times) (tb_last b) = List.last times (tb_last b')).
    { rewrite Hl. apply last_cons_default. }
    rewrite Hlast. cbn [length].
    assert (Hsec : secs (List.last times (tb_last b') - tb_last b) == secs (List.last times (tb_last b') - tb_last b') + secs (t - tb_last b)).
    { unfold secs. rewrite <- Qmult_plus_distr_l, <- inject_Z_plus. do 2 f_equiv. lia. }
    rewrite Hsec. rewrite Nat2Z.inj_succ, <- Z.add_1_r, inject_Z_plus. change (inject_Z 1) with 1. lra.
Qed.
End Bucket.

(** ** The table *)
Section Table.
Context {Mo : MapOrder}.
Implicit Types (tab : TokenBuckets) (ops : list (Z * string)).

(** Requests: when, and the id of the token. *)
Fixpoint run ops tab : TokenBuckets := match ops with [] => tab | (now, id) :: ops' => run ops' (allow now id tab).2 end.
Fixpoint granted (id : string) ops tab : Z :=
  match ops with
  | [] => 0
  | (now, id') :: ops' =>
      let '(ok, tab) := allow now id' tab in
      (if String.eqb id' id && ok then 1 else 0) + granted id ops' tab
  end.
Fixpoint roomy ops tab : Prop :=
  match ops with [] => True | (now, id) :: ops' => Z.of_nat (size tab) < tokenRateEntries /\ roomy ops' (allow now id tab).2 end.
Definition times_of (id : string) ops : list Z := map fst (filter (fun o => o.2 = id) ops).
Definition table_ok (now : Z) tab : Prop :=
  named tab /\ (size tab <= 256)%nat /\ map_Forall (fun _ b => full b /\ tb_last b <= now) tab.

Lemma allow_room now id tab : Z.of_nat (size tab) < tokenRateEntries ->
  allow now id tab = ((bucket_allow now (tab !! id)).1, <[id := (bucket_allow now (tab !! id)).2]> tab).
Proof.
  intros H. unfold allow, bucket_allow. destruct (tab !! id) as [b|].
  - by destruct (flt _ 1).
  - rewrite (proj2 (Z.leb_gt _ _)) by done. by destruct (flt _ 1).
Qed.
Lemma granted_bucket id ops tab : roomy ops tab -> granted id ops tab = granted_b (times_of id ops) (tab !! id).
Proof.
  revert tab. induction ops as [|[now id'] ops IH]; intros tab; [done|]. cbn [roomy granted]. intros [Hr Hro].
  rewrite allow_room in Hro |- * by done. cbn [snd] in Hro. rewrite IH by done. unfold times_of. rewrite filter_cons. cbn [snd].
  destruct (String.eqb_spec id' id) as [->|Hne]; [rewrite decide_True by done|rewrite decide_False by done].
  - rewrite lookup_insert_eq. cbn [map fst granted_b]. by destruct (bucket_allow now (tab !! id)).
  - by rewrite lookup_insert_ne.
Qed.
Lemma allow_ok now t id tab : id <> "" -> t <= now -> table_ok t tab -> table_ok now (allow now id tab).2.
Proof.
  intros Hid Ht (H1 & H2 & H3).
  assert (H3' : map_Forall (fun _ b => full b /\ tb_last b <= now) tab).
  { intros k b Hk. destruct (H3 k b Hk). split; [done|lia]. }
  assert (Hput : forall tab' b, tab' ⊆ tab -> (size tab' < 256)%nat \/ tab' = tab /\ is_Some (tab !! id) -> full b -> tb_last b = now ->
    table_ok now (<[id := b]> tab')).
  { intros tab' b Hs Hz Hb Hl. split_and!.
    - unfold named. rewrite lookup_insert_ne by done. destruct (tab' !! "") eqn:E; [|done]. apply (lookup_weaken _ _ _ _ E) in Hs.
      unfold named in H1. congruence.
    - rewrite map_size_insert. destruct Hz as [Hz|[-> [x ->]]]; [destruct (tab' !! id); cbn [Datatypes.id]; lia|done].
    - apply map_Forall_insert_2; [split; [done|lia]|]. intros k x Hx. by apply (H3' k), (lookup_weaken tab' tab). }
  pose proof (bucket_allow_full now (tab !! id)) as Hf. unfold bucket_allow in Hf. unfold allow.
  destruct (tab !! id) as [b|] eqn:E.
  - specialize (Hf ltac:(intros x [= <-]; by apply (H3' id))).
    destruct (flt _ 1); (apply Hput; [done|right; eauto|apply Hf..]).
  - specialize (Hf ltac:(done)). set (tab' := if _ <=? _ then _ else _).
    assert (Hby : tab' ⊆ tab /\ (size tab' < 256)%nat).
    { unfold tab'. destruct (Z.leb_spec tokenRateEntries (Z.of_nat (size tab))) as [Hl|Hl]; unfold tokenRateEntries in Hl; [|split; [done|lia]].
      pose proof (prune_room tb_last tokenRateIdle now tab 256 H1 ltac:(lia) H2) as Hp. unfold pruneLocked.
      destruct (prune_loop _ _ _ _) as [m ip]. change (256%nat) with (Z.to_nat tokenRateEntries) in Hp. unfold tokenRateEntries in *.
      destruct (_ && _); split; apply Hp. }
    clearbody tab'. destruct (flt _ 1); (apply Hput; [apply Hby|left; apply Hby|apply Hf..]).
Qed.
Lemma rate_run_ok ops t tab : Forall (fun o => o.2 <> "") ops -> ascending_from t (map fst ops) -> table_ok t tab ->
  table_ok (List.last (map fst ops) t) (run ops tab).
Proof.
  intros Hn. revert t tab. induction Hn as [|[now id] ops Hid _ IH]; intros t tab; [done|]. cbn [map ascending_from fst run]. intros [Ht Ha] Hok.
  rewrite last_cons_default. apply IH; [done|]. by apply (allow_ok now t).
Qed.
End Table.

Lemma refill_now b : refill (tb_last b) b = b.
Proof. unfold refill. rewrite Z.sub_diag. replace (flt 0 (Seconds 0)) with false by by vm_compute. by destruct b. Qed.
Lemma granted_first t ts f : (forall b, f = Some b -> full b /\ tb_last b <= t) -> exists b,
  full b /\ tb_last b = t /\ granted_b (t :: ts) f = granted_b (t :: ts) (Some b).
Proof.
  intros Hf. set (b := match f with None => mkBucket tokenRateBurst t | Some b => refill t b end).
  assert (Hl : tb_last b = t) by by destruct f.
  assert (Hb : full b) by (destruct f as [x|]; [apply refill_bounds; by apply Hf|split; by vm_compute]).
  exists b. split_and!; [done..|]. cbn [granted_b].
  assert (E : bucket_allow t f = bucket_allow t (Some b)); [|by rewrite E].
  unfold bucket_allow. fold b. assert (Hr : refill t b = b) by (rewrite <- Hl at 1; apply refill_now). by rewrite Hr.
Qed.
Lemma ascending_weaken t t' l : t <= t' -> ascending_from t' l -> ascending_from t l.
Proof. destruct l as [|x l]; [done|]. cbn. intros ? [? ?]. split; [lia|done]. Qed.
Lemma times_ascending t id ops : ascending_from t (map fst ops) -> ascending_from t (times_of id ops).
Proof.
  revert t. induction ops as [|[x id'] ops IH]; intros t; [done|]. cbn [map ascending_from fst]. intros [Ht Ha]. unfold times_of. rewrite filter_cons. cbn [snd].
  destruct (decide _); cbn [map ascending_from fst]; [split; [done|by apply IH]|]. eapply ascending_weaken; [exact Ht|]. by apply IH.
Qed.
Lemma ascending_app t l l' : ascending_from t (l ++ l') -> ascending_from t l /\ ascending_from (List.last l t) l'.
Proof.
  revert t. induction l as [|x l IH]; intros t; [done|]. cbn [app ascending_from]. rewrite last_cons_default. intros [Ht Ha].
  destruct (IH x Ha). by split.
Qed.

(** The request limit of a token.  The table never holds more than 256 buckets, and
    while there is room in it: of the requests with one token, however they are spread,
    at most 40 + 20 T are let through within T seconds - in the binary64 arithmetic of
    the code, whose rounding adds less than a nanosecond's worth per request. *)
Theorem token_rate {Mo : MapOrder} (id : string) (t0 : Z) (before ops : list (Z * string)) :
  Forall (fun o => o.2 <> "") before -> ascending_from t0 (map fst (before ++ ops)) ->
  let tab := run before ∅ in
  (size tab <= 256)%nat /\
  (roomy ops tab ->
   match times_of id ops with
   | [] => granted id ops tab = 0
   | t :: ts => (granted id ops tab - 40) * Second <= 20 * (List.last ts t - t) + Z.of_nat (length (t :: ts))
   end).
Proof.
  intros Hn Ha tab. rewrite map_app in Ha. apply ascending_app in Ha as [Hb Ha].
  assert (Hok : table_ok (List.last (map fst before) t0) tab).
  { apply rate_run_ok; [done..|]. split_and!; [done|exact (Nat.le_0_l 256)|apply map_Forall_empty]. }
  split; [apply Hok|]. intros Hr. rewrite (granted_bucket id ops tab Hr). apply (times_ascending _ id) in Ha.
  destruct (times_of id ops) as [|t ts]; [done|]. destruct Ha as [Ht Ha].
  destruct (granted_first t ts (tab !! id)) as (b & Hfull & Hl & ->).
  { intros b Hbk. destruct Hok as (_ & _ & Hok). destruct (Hok _ _ Hbk). split; [done|lia]. }
  pose proof (granted_b_bound (t :: ts) b Hfull) as H. rewrite Hl in H. specialize (H (conj (Z.le_refl t) Ha)).
  rewrite last_cons_default in H. destruct Hfull as [_ H40]. pose proof g_small as [Hg0 Hg1].
  set (N := granted_b (t :: ts) (Some b)) in *. set (T := List.last ts t - t) in *. set (n := Z.of_nat (length (t :: ts))) in *.
  assert (Hn0 : 0 <= n) by (unfold n; lia). clearbody N T n. clear -H H40 Hg0 Hg1 Hn0.
  assert (Hq : (inject_Z ((N - 40) * Second) <= inject_Z (20 * T + n))%Q); [|by rewrite <- Zle_Qle in Hq].
  unfold Z.sub. rewrite inject_Z_mult, !inject_Z_plus, inject_Z_mult. change (inject_Z Second) with 1000000000%Q.
  change (inject_Z (- (40))) with (-40)%Q. change (inject_Z 20) with 20%Q. unfold secs in H.
  assert (Hnq : (0 <= inject_Z n)%Q) by (change 0%Q with (inject_Z 0); by rewrite <- Zle_Qle).
  assert (Hgn : (43 * g * inject_Z n <= (1 # 100000000000) * inject_Z n)%Q) by by apply Qmult_le_compat_r.
  lra.
Qed.

(** Forty-two requests at once, and one 100 ms later. *)
Lemma token_rate_witness :
  let ops := replicate 42 (5, "c0ffee00") ++ [(100000005, "c0ffee00")] in
  granted "c0ffee00" ops ∅ = 41 /\ (41 - 40) * Second <= 20 * 100000000 + 43.
Proof.
  intros ops. assert (Hg : granted "c0ffee00" ops ∅ = 41) by by vm_compute. split; [done|].
  pose proof (token_rate "c0ffee00" 0 [] ops ltac:(constructor) ltac:(repeat split; by vm_compute)) as [_ H].
  specialize (H ltac:(repeat split; by vm_compute)).
  change (run [] ∅) with (∅ : TokenBuckets) in H. rewrite Hg in H. by vm_compute in H |- *.
Defined.
