(* ===== verification/WebPassword.v ===== *)
(** Password hashes (PasswordHash, LegacyPasswordHash, VerifyPassword of
    src/internal/web/web.go).  The functions of package crypto are parameters. *)
From stdpp Require Import base gmap strings list.
From Stdlib Require Import ZArith Lia Ascii.
From S2P Require Import Prelude GoLib GoNet GoPath ConfigWeb.
Open Scope Z_scope.

(** sha256 of a text and PBKDF2-HMAC-SHA256 of password, salt, iterations and key
    length, in bytes. *)
Class Crypto := { sha256 : string -> list Z; pbkdf2 : string -> list Z -> Z -> Z -> list Z }.
Definition hex_text (b : list Z) : string := of_chars (flat_map (fun x => [hex_char (x / 16); hex_char (x mod 16)]) b).
Section Password.
Context {Cr : Crypto}.
Definition sha_hex (t : string) : string := hex_text (sha256 t).
(** [PasswordHash] with the salt it draws. *)
Definition PasswordHash (salt : list Z) (user password : string) : string :=
  Join [PBKDF2Prefix; Itoa PBKDF2Iter; hex_text salt; hex_text (pbkdf2 password salt PBKDF2Iter PBKDF2KeyLen)] "$".
Definition user_password (user password : string) : string := String.append user (String.append ":" password).
Definition LegacyPasswordHash (user password : string) : string := sha_hex (user_password user password).
Definition VerifyPassword (user password stored : string) : bool :=
  match ParsePasswordHash stored with
  | inl _ => false
  | inr ph =>
      match ph_Legacy ph with
      | _ :: _ => bool_decide (sha256 (user_password user password) = ph_Legacy ph)
      | [] => bool_decide (pbkdf2 password (ph_Salt ph) (ph_Iter ph) (Z.of_nat (length (ph_Key ph))) = ph_Key ph)
      end
  end.
Definition is_legacy (stored : string) : bool :=
  match ParsePasswordHash stored with inr ph => match ph_Legacy ph with _ :: _ => true | [] => false end | inl _ => false end.
End Password.


(** ** Hex *)
Definition bytes (b : list Z) : Prop := Forall (fun x => 0 <= x < 256) b.
Lemma hex_char_digit d : 0 <= d < 16 -> hex_digit (hex_char d) = Some d /\ is_space (hex_char d) = false /\ hex_char d <> "$"%char.
Proof.
  intros H. assert (Hin : d ∈ seqZ 0 16) by (apply elem_of_seqZ; lia). clear H. revert d Hin. apply Forall_forall.
  repeat constructor; by vm_compute.
Qed.
Lemma chars_hex b : chars (hex_text b) = flat_map (fun x => [hex_char (x / 16); hex_char (x mod 16)]) b.
Proof. apply chars_of_chars. Qed.
Lemma nibbles x : 0 <= x < 256 -> 0 <= x / 16 < 16 /\ 0 <= x mod 16 < 16 /\ 16 * (x / 16) + x mod 16 = x.
Proof. intros H. pose proof (Z.div_mod x 16). pose proof (Z.mod_pos_bound x 16). lia. Qed.
Lemma Decode_hex b : bytes b -> DecodeString (hex_text b) = Some b.
Proof.
  unfold DecodeString. rewrite chars_hex. induction 1 as [|x b Hx _ IH]; [done|]. cbn [flat_map app hex_bytes].
  destruct (nibbles x Hx) as (H1 & H2 & H3). rewrite (proj1 (hex_char_digit _ H1)), (proj1 (hex_char_digit _ H2)), IH. by rewrite H3.
Qed.
Lemma hex_clean b : bytes b -> Forall (fun c => is_space c = false /\ c <> "$"%char) (chars (hex_text b)).
Proof.
  rewrite chars_hex. induction 1 as [|x b Hx _ IH]; [constructor|]. cbn. destruct (nibbles x Hx) as (H1 & H2 & _).
  repeat constructor; [by apply hex_char_digit..|exact IH].
Qed.
Lemma hex_length b : String.length (hex_text b) = (2 * length b)%nat.
Proof.
  transitivity (length (chars (hex_text b))); [by induction (hex_text b) as [|c x IH]; [|cbn; rewrite IH]|].
  rewrite chars_hex. induction b as [|x b IH]; [done|]. cbn [flat_map app length]. lia.
Qed.
Lemma plain_ends s : s <> ""%string -> Forall (fun c => is_space c = false /\ c <> "$"%char) (chars s) -> ends_plain s.
Proof.
  intros Hne H. pose proof (Forall_rev H) as Hr. assert (Hc : chars s <> []) by by destruct s. unfold ends_plain.
  assert (Hrc : rev (chars s) <> []) by (intros E; apply Hc; rewrite <- (rev_involutive (chars s)); by rewrite E).
  split; [destruct H as [|c l [? _]]|destruct Hr as [|c l [? _]]]; done.
Qed.

Section Verify.
Context {Cr : Crypto}.
Hypothesis (sha256_bytes : forall t, bytes (sha256 t) /\ length (sha256 t) = 32%nat).
Hypothesis (pbkdf2_bytes : forall p salt i n, bytes (pbkdf2 p salt i n) /\ length (pbkdf2 p salt i n) = Z.to_nat n).

Lemma parse_PasswordHash salt user password : bytes salt -> (8 <= length salt)%nat ->
  ParsePasswordHash (PasswordHash salt user password) =
    inr (mkPasswordHash [] PBKDF2Iter salt (pbkdf2 password salt PBKDF2Iter PBKDF2KeyLen)).
Proof.
  intros Hs Hl. unfold PasswordHash. set (key := pbkdf2 _ _ _ _). destruct (pbkdf2_bytes password salt PBKDF2Iter PBKDF2KeyLen) as [Hk Hkl].
  fold key in Hk, Hkl. set (parts := [PBKDF2Prefix; Itoa PBKDF2Iter; hex_text salt; hex_text key]).
  assert (Hsplit : Split (Join parts "$") "$"%char = parts).
  { apply Split_Join; [done|]. unfold parts. apply Forall_cons. split; [by repeat constructor|]. apply Forall_cons. split.
    - apply (bool_decide_unpack _). by vm_compute.
    - repeat constructor; (eapply Forall_impl; [apply hex_clean; eassumption|]); by intros ? []. }
  assert (Hkne : hex_text key <> ""%string) by (intros E; pose proof (hex_length key) as Hlen; rewrite E, Hkl in Hlen; done).
  assert (Hpre : Join parts "$" = String.append (String.append PBKDF2Prefix "$") (Join [Itoa PBKDF2Iter; hex_text salt; hex_text key] "$")).
  { by rewrite append_assoc. }
  assert (Htrim : TrimSpace (Join parts "$") = Join parts "$").
  { assert (E : Join parts "$" = String.append "pbkdf2" (String.append (String.append "$" (String.append (Itoa PBKDF2Iter)
      (String.append "$" (String.append (hex_text salt) "$")))) (hex_text key))) by by rewrite !append_assoc.
    rewrite E. apply TrimSpace_ends, ends_append; [done|]. apply plain_ends; [done|]. by apply hex_clean. }
  unfold ParsePasswordHash. rewrite Htrim. cbv zeta. rewrite Hpre at 1. rewrite HasPrefix_append, Hsplit. unfold parts.
  rewrite Atoi_Itoa by done. rewrite (Decode_hex salt Hs), (Decode_hex key Hk). rewrite Hkl.
  rewrite (proj2 (Nat.ltb_ge _ _)) by lia. done.
Qed.
Lemma parse_Legacy user password :
  ParsePasswordHash (LegacyPasswordHash user password) = inr (mkPasswordHash (sha256 (user_password user password)) 0 [] []).
Proof.
  unfold LegacyPasswordHash, sha_hex. set (b := sha256 _). destruct (sha256_bytes (user_password user password)) as [Hb Hl]. fold b in Hb, Hl.
  assert (Hlen : String.length (hex_text b) = 64%nat) by (rewrite hex_length; lia).
  unfold ParsePasswordHash. rewrite TrimSpace_ends.
  2: { apply plain_ends; [|by apply hex_clean]. intros E. by rewrite E in Hlen. }
  cbv zeta. assert (Hp : HasPrefix (hex_text b) (String.append PBKDF2Prefix "$") = false).
  { apply not_true_is_false. intros H. apply HasPrefix_inv in H as [t Ht]. pose proof (hex_clean b Hb) as Hc. rewrite Ht, chars_app in Hc.
    apply Forall_app in Hc as [Hc _]. rewrite Forall_forall in Hc. destruct (Hc "$"%char) as [_ Hne]; [|done]. by do 6 right; left. }
  rewrite Hp, Hlen, (Decode_hex b Hb). done.
Qed.

(** A password verifies against the hash that was stored for it, in both forms, and
    another one only if the hash function maps it to the same key: the stored text -
    random salt, iteration count and key in hex, or the old sha256 - is parsed back to
    exactly what was written.  sha256 gives 32 bytes, PBKDF2 as many as asked for. *)
Theorem password_verifies (salt : list Z) (user password user' password' : string) :
  bytes salt -> (8 <= length salt)%nat ->
  VerifyPassword user' password' (PasswordHash salt user password) =
    bool_decide (pbkdf2 password' salt PBKDF2Iter PBKDF2KeyLen = pbkdf2 password salt PBKDF2Iter PBKDF2KeyLen) /\
  VerifyPassword user' password' (LegacyPasswordHash user password) =
    bool_decide (sha256 (user_password user' password') = sha256 (user_password user password)) /\
  is_legacy (PasswordHash salt user password) = false /\ is_legacy (LegacyPasswordHash user password) = true.
Proof.
  intros Hs Hl. unfold VerifyPassword, is_legacy. rewrite parse_PasswordHash, parse_Legacy by done. cbn [ph_Legacy ph_Salt ph_Iter ph_Key].
  destruct (pbkdf2_bytes password salt PBKDF2Iter PBKDF2KeyLen) as [_ ->]. rewrite Z2Nat.id by done.
  destruct (sha256_bytes (user_password user password)) as [_ Hlen]. destruct (sha256 (user_password user password)); done.
Qed.
End Verify.

(** A stand-in for package crypto in examples. *)
Module Example_crypto.
Definition char_bytes (s : string) : list Z := map (fun c => Z.of_N (N_of_ascii c)) (chars s).
#[export] Instance crypto : Crypto := {|
  sha256 := fun t => take 32 (char_bytes t ++ replicate 32 48);
  pbkdf2 := fun p salt _ n => take (Z.to_nat n) (char_bytes p ++ map (fun x => x mod 256) salt ++ replicate (Z.to_nat n) 7) |}.
Lemma char_bytes_ok s : bytes (char_bytes s).
Proof.
  unfold char_bytes, bytes. apply Forall_fmap, Forall_forall. intros c _. cbn. pose proof (N_ascii_bounded c). lia.
Qed.
Lemma sha256_bytes t : bytes (sha256 t) /\ length (sha256 t) = 32%nat.
Proof.
  split; cbn [sha256 crypto]; [|rewrite length_take, length_app, length_replicate; lia].
  apply Forall_take, Forall_app. split; [apply char_bytes_ok|]. apply Forall_replicate. lia.
Qed.
Lemma pbkdf2_bytes p salt i n : bytes (pbkdf2 p salt i n) /\ length (pbkdf2 p salt i n) = Z.to_nat n.
Proof.
  split; cbn [pbkdf2 crypto]; [|rewrite length_take, !length_app, length_replicate; lia].
  apply Forall_take, Forall_app. split; [apply char_bytes_ok|]. apply Forall_app. split; [|apply Forall_replicate; lia].
  apply Forall_fmap, Forall_forall. intros x _. cbn. apply Z.mod_pos_bound. lia.
Qed.
End Example_crypto.
Lemma password_verifies_witness :
  let salt := replicate 16 171 in
  PasswordHash (Cr := Example_crypto.crypto) salt "root" "secret" =
    "pbkdf2$210000$abababababababababababababababab$736563726574abababababababababababababababab07070707070707070707" /\
  VerifyPassword (Cr := Example_crypto.crypto) "root" "secret" (PasswordHash (Cr := Example_crypto.crypto) salt "root" "secret") = true /\
  VerifyPassword (Cr := Example_crypto.crypto) "root" "Secret" (PasswordHash (Cr := Example_crypto.crypto) salt "root" "secret") = false.
Proof.
  intros salt. split; [by vm_compute|]. assert (Hs : bytes salt) by (apply Forall_replicate; lia).
  pose proof (fun p => proj1 (password_verifies (Cr := Example_crypto.crypto) Example_crypto.sha256_bytes Example_crypto.pbkdf2_bytes
    salt "root" "secret" "root" p Hs ltac:(cbn; lia))) as H.
  split; rewrite H; by vm_compute.
Defined.
