(* ===== verification/WebGuard.v ===== *)
(** The guard of the web server (src/internal/web/web.go, openapi.go): who reaches which
    route.

    A request is what the methods of *http.Request return.  The pattern
    matching of http.ServeMux and the account store are parameters. *)
From stdpp Require Import base gmap strings list.
From Stdlib Require Import ZArith Lia Ascii.
From S2P Require Import Prelude GoLib GoNet GoPath ConfigWeb WebSession WebLimit WebToken WebTokenRate WebPassword.
Open Scope Z_scope.

(** ** Routes *)
Inductive class := classPublic | classFiltered | classProtected.
#[export] Instance class_eq : EqDecision class.
Proof. solve_decision. Defined.
Definition scopeRead : string := ScopeRead.
Definition scopeControl : string := ScopeControl.
Definition scopeAdmin : string := ScopeAdmin.
Definition scopeSession : string := "session".
Record route := R { rt_Method : string; rt_Path : string; rt_Class : class; rt_Scope : string }.
Definition pattern (r : route) : string := String.append (rt_Method r) (String.append " " (rt_Path r)).
Definition routeTable : list route :=
  [R "GET" "/api/version" classPublic scopeRead; R "GET" "/api/about" classPublic scopeRead;
   R "GET" "/api/session" classPublic scopeRead; R "GET" "/api/openapi.json" classPublic scopeRead;
   R "GET" "/healthz" classPublic scopeRead; R "POST" "/api/login" classPublic scopeSession;
   R "POST" "/api/logout" classPublic scopeSession; R "GET" "/api/state" classFiltered scopeRead;
   R "GET" "/api/history" classFiltered scopeRead; R "GET" "/api/history.csv" classProtected scopeRead;
   R "GET" "/api/schedules" classProtected scopeRead; R "GET" "/api/system" classProtected scopeRead;
   R "GET" "/api/sensors" classProtected scopeRead; R "GET" "/api/profiles" classProtected scopeRead;
   R "GET" "/api/presets" classProtected scopeRead; R "GET" "/api/presets/{name}" classProtected scopeRead;
   R "GET" "/api/alerts" classProtected scopeRead; R "GET" "/api/dashboard" classProtected scopeRead;
   R "GET" "/api/driver" classProtected scopeRead; R "GET" "/api/health" classProtected scopeRead;
   R "GET" "/api/tls" classProtected scopeRead; R "PUT" "/api/override/{name}" classProtected scopeControl;
   R "DELETE" "/api/override/{name}" classProtected scopeControl;
   R "POST" "/api/presets/{name}/apply" classProtected scopeControl;
   R "POST" "/api/alerts/ack" classProtected scopeControl; R "PUT" "/api/dashboard" classProtected scopeControl;
   R "GET" "/api/config" classProtected scopeAdmin; R "PUT" "/api/config" classProtected scopeAdmin;
   R "GET" "/api/config/export" classProtected scopeAdmin; R "POST" "/api/config/import" classProtected scopeAdmin;
   R "PUT" "/api/presets/{name}" classProtected scopeAdmin;
   R "POST" "/api/presets/{name}/rename" classProtected scopeAdmin;
   R "DELETE" "/api/presets/{name}" classProtected scopeAdmin; R "GET" "/api/log" classProtected scopeAdmin;
   R "GET" "/api/log/export" classProtected scopeAdmin; R "DELETE" "/api/log" classProtected scopeAdmin;
   R "GET" "/api/tls/cert.crt" classProtected scopeAdmin; R "GET" "/api/tls/cert.cer" classProtected scopeAdmin;
   R "POST" "/api/tls/regenerate" classProtected scopeAdmin; R "POST" "/api/tls/upload" classProtected scopeAdmin;
   R "POST" "/api/tls/reset" classProtected scopeAdmin; R "PUT" "/api/alerts" classProtected scopeAdmin;
   R "POST" "/api/alerts/test" classProtected scopeAdmin; R "POST" "/api/alerts/template" classProtected scopeAdmin;
   R "GET" "/api/account" classProtected scopeSession; R "POST" "/api/account/password" classProtected scopeSession;
   R "POST" "/api/account/user" classProtected scopeSession;
   R "POST" "/api/account/sessions/revoke" classProtected scopeSession;
   R "GET" "/api/tokens" classProtected scopeSession; R "POST" "/api/tokens" classProtected scopeSession;
   R "DELETE" "/api/tokens/{id}" classProtected scopeSession].
Definition byPattern (pat : string) : option route := find (fun r => String.eqb (pattern r) pat) routeTable.

(** ** Parameters *)
(** The pattern of the route the mux picks for a method and a path ("" for none). *)
Class Mux := mux_Handler : string -> string -> string.
Record AuthConfig := mkAuth { au_Mode : string; au_User : string; au_PasswordHash : string }.
(** [AccountStore.Update], if there is a store: user, password hash, the store; the
    credentials now in effect. *)
Class Account (St : Type) := acc_Update : option (string -> string -> St -> option AuthConfig * St).
(** What a store promises: "" keeps a value, anything else is the value from now on; the
    mode stays. *)
Class AccountLaws {St : Type} (Ac : Account St) (Current : St -> AuthConfig) : Prop := {
  acc_updated Update user hash st next st' : Ac = Some Update -> Update user hash st = (Some next, st') ->
    Current st' = next /\ au_Mode next = au_Mode (Current st) /\
    (user <> "" -> au_User next = user) /\ (hash <> "" -> au_PasswordHash next = hash);
  acc_failed Update user hash st st' : Ac = Some Update -> Update user hash st = (None, st') -> Current st' = Current st }.

(** ** The server *)
Record Request := mkRequest {
  rq_Method : string; rq_Path : string; rq_Host : string; rq_RemoteAddr : string; rq_Cookie : option string;
  rq_Authorization : string; rq_BasicAuth : option (string * string); rq_Csrf : string }.
(** [sv_store]: the account store behind the server. *)
Record Server {St : Type} := mkServer {
  sv_auth : AuthConfig; sv_sessions : sessionStore; sv_tokens : tokenStore; sv_limiter : authLimiter;
  sv_tokenLimit : TokenBuckets; sv_anyHost : bool; sv_allowed : gset string; sv_store : St }.
Arguments Server St : clear implicits.
#[export] Instance eta_Server {St} : Eta (Server St) := fun s => mkServer St (sv_auth s) (sv_sessions s) (sv_tokens s)
  (sv_limiter s) (sv_tokenLimit s) (sv_anyHost s) (sv_allowed s) (sv_store s).
Arguments mkServer {St}.
Inductive Via := ViaNone | ViaCookie | ViaBasic | ViaBearer | ViaSocket.
#[export] Instance Via_eq : EqDecision Via.
Proof. solve_decision. Defined.
Record Caller := mkCaller {
  ca_Authenticated : bool; ca_User : string; ca_Via : Via; ca_Scope : string; ca_TokenID : string; ca_token : string }.
(** The time, whether files can be written, fresh random bytes. *)
Record Env := mkEnv { e_now : Z; e_ok : bool; e_salt : list Z }.
(** Refused with a status, or passed on with the caller. *)
Inductive Answer := Refuse (status : Z) | Serve (c : Caller).
Definition anonymous : Caller := mkCaller false "" ViaNone "" "" "".
Definition socket_caller : Caller := mkCaller true "" ViaSocket "" "" "".
Definition csrfValue : string := "1".

Definition normalizeHost (host : string) : string :=
  let h := TrimSpace host in
  let h := match SplitHostPort h with inr (hp, _) => hp | inl _ => h end in
  let h := TrimSuffix (TrimPrefix h "[") "]" in
  ToLower (TrimSuffix h ".").
Definition hostAllowed {St} (s : Server St) (host : string) : bool :=
  if sv_anyHost s then true
  else
    let h := normalizeHost host in
    if String.eqb h "" then false
    else if String.eqb h "localhost" || match ParseIP h with Some _ => true | None => false end then true
    else bool_decide (h ∈ sv_allowed s).
(** [allowed_hosts] of the configuration. *)
Definition add_host {St} (s : Server St) (h : string) : Server St :=
  let h := normalizeHost h in
  if String.eqb h "" then s else if String.eqb h "*" then s <| sv_anyHost := true |>
  else s <| sv_allowed := {[h]} ∪ sv_allowed s |>.
Definition remoteIP (r : Request) : string :=
  match SplitHostPort (rq_RemoteAddr r) with
  | inr (h, _) => h
  | inl _ => if String.eqb (rq_RemoteAddr r) "" || String.eqb (rq_RemoteAddr r) "@" then "local" else rq_RemoteAddr r
  end.
Definition bearerSecret (authz : string) : option string :=
  if (String.length authz <=? 7)%nat || negb (EqualFold (String.substring 0 7 authz) "bearer ") then None
  else
    let secret := TrimSpace (String.substring 7 (String.length authz - 7) authz) in
    if String.eqb secret "" then None else Some secret.
Definition is_write (r : Request) : bool :=
  negb (String.eqb (rq_Method r) "GET" || String.eqb (rq_Method r) "HEAD" || String.eqb (rq_Method r) "OPTIONS").

Section Guard.
Context {Mo : MapOrder} {Cr : Crypto} {Mx : Mux} {St : Type} {Ac : Account St}.
Implicit Types (s : Server St) (r : Request) (env : Env).

(** New: the credentials, the mirror files and the allowed hosts. *)
Definition NewServer (auth : AuthConfig) (now : Z) (mirrored : bool) (sessions : option sessionFile) (tokens : option tokenFile)
  (hosts : list string) (store : St) : Server St :=
  fold_left add_host hosts
    (mkServer auth (NewSessionStoreEpoch now mirrored sessions (CredentialEpoch sha_hex (au_User auth) (au_PasswordHash auth)))
       (NewTokenStore mirrored tokens) newAuthLimiter ∅ false ∅ store).

Definition basicMode s : bool := EqualFold (au_Mode (sv_auth s)) "basic".
Definition routeFor (meth path : string) : option route := byPattern (mux_Handler meth path).
Definition not_protected (o : option route) : bool :=
  match o with Some rt => negb (bool_decide (rt_Class rt = classProtected)) | None => false end.
Definition publicPath r : bool :=
  if negb (HasPrefix (rq_Path r) "/api/") then true
  else match routeFor (rq_Method r) (rq_Path r) with
       | Some rt => not_protected (Some rt)
       | None => existsb (fun m => not_protected (routeFor m (rq_Path r))) ["GET"; "POST"; "PUT"; "DELETE"]
       end.
Definition scopeAllowed r (c : Caller) : bool :=
  match routeFor (rq_Method r) (rq_Path r) with
  | None => true
  | Some rt => negb (String.eqb (rt_Scope rt) scopeSession) && ScopeAllows (ca_Scope c) (rt_Scope rt)
  end.

Definition credentialsOK s (user pass : string) : bool :=
  String.eqb user (au_User (sv_auth s)) && VerifyPassword user pass (au_PasswordHash (sv_auth s)).
Definition authorized s r : bool :=
  match rq_BasicAuth r with None => false | Some (user, pass) => credentialsOK s user pass end.
Definition upgradeLegacyHash env (user password : string) s : Server St :=
  match acc_Update with
  | None => s
  | Some Update =>
      if negb (is_legacy (au_PasswordHash (sv_auth s))) then s
      else
        let '(r, st) := Update "" (PasswordHash (e_salt env) user password) (sv_store s) in
        let s := s <| sv_store := st |> in
        match r with
           | None => s
           | Some next =>
               s <| sv_auth := next |>
                 <| sv_sessions := SetEpoch (e_ok env) (CredentialEpoch sha_hex (au_User next) (au_PasswordHash next)) (sv_sessions s) |>
           end
  end.
(** A failure is counted; the sleep between its two halves is over when it is answered. *)
Definition count_failure (k : Kind) env (ip : string) s : Server St :=
  let '(_, _, sl, l) := fail_start k (e_now env) ip (sv_limiter s) in s <| sv_limiter := fail_end ip sl l |>.

Definition resolveBearer env r (secret : string) s : (Z + Caller) * Server St :=
  let ip := remoteIP r in
  if busy ip (sv_limiter s) then (inl 429, s)
  else
    let '(t, tokens) := WebToken.Lookup sha_hex (e_ok env) (e_now env) secret ip (sv_tokens s) in
    let s := s <| sv_tokens := tokens |> in
    match t with
    | inl _ => (inl 401, count_failure KBearer env ip s)
    | inr t =>
        let s := s <| sv_limiter := resetBearer ip (sv_limiter s) |> in
        let '(ok, tab) := allow (e_now env) (tk_ID t) (sv_tokenLimit s) in
        let s := s <| sv_tokenLimit := tab |> in
        if negb ok then (inl 429, s)
        else (inr (mkCaller true (tk_Name t) ViaBearer (tk_Scope t) (tk_ID t) ""), s)
    end.
Definition resolveBasic env r s : (Z + Caller) * Server St :=
  let ip := remoteIP r in
  if busy ip (sv_limiter s) then (inl 429, s)
  else
    let '(got, l) := acquire (sv_limiter s) in
    if negb got then (inl 429, s)
    else
      let ok := authorized s r in
      let s := s <| sv_limiter := release l |> in
      if negb ok then (inl 401, count_failure KPassword env ip s)
      else
        let '(user, pass) := default ("", "") (rq_BasicAuth r) in
        let s := s <| sv_limiter := reset ip (sv_limiter s) |> in
        (inr (mkCaller true user ViaBasic "" "" ""), upgradeLegacyHash env user pass s).
Definition resolveCaller env r s : (Z + Caller) * Server St :=
  if negb (basicMode s) then (inr (mkCaller true "" ViaNone "" "" ""), s)
  else
    let '(found, s) :=
      match rq_Cookie r with
      | Some v =>
          if String.eqb v "" then (None, s)
          else let '(x, ss) := WebSession.Lookup sha_hex (e_ok env) (e_now env) v (sv_sessions s) in
               ((fun x => mkCaller true (se_User x) ViaCookie "" "" v) <$> x, s <| sv_sessions := ss |>)
      | None => (None, s)
      end in
    match found with
    | Some c => (inr c, s)
    | None =>
        if String.eqb (rq_Authorization r) "" then (inr anonymous, s)
        else match bearerSecret (rq_Authorization r) with
             | Some secret => resolveBearer env r secret s
             | None => resolveBasic env r s
             end
    end.
Definition guard env r s : Answer * Server St :=
  if negb (hostAllowed s (rq_Host r)) then (Refuse 421, s)
  else
    let '(res, s) := resolveCaller env r s in
    match res with
    | inl status => (Refuse status, s)
    | inr c =>
        if is_write r && negb (bool_decide (ca_Via c = ViaBearer)) && negb (String.eqb (rq_Csrf r) csrfValue) then (Refuse 403, s)
        else if negb (ca_Authenticated c) && negb (publicPath r) then (Refuse 401, s)
        else if bool_decide (ca_Via c = ViaBearer) && negb (scopeAllowed r c) then (Refuse 403, s)
        else (Serve c, s)
    end.
(** The handler of the unix socket: no checks. *)
Definition socket r : Answer := Serve socket_caller.
End Guard.

(** ** What the guard lets through *)
Section Protects.
Context {Mo : MapOrder} {Cr : Crypto} {Mx : Mux} {St : Type} {Ac : Account St}.
Implicit Types (s : Server St) (r : Request) (env : Env).

(** The request carries what its caller claims to be. *)
Definition proves (now : Z) s r (c : Caller) : Prop :=
  match ca_Via c with
  | ViaCookie => exists v x, rq_Cookie r = Some v /\ ss_byKey (sv_sessions s) !! sha_hex v = Some x /\ alive now x = true /\
      ca_User c = se_User x
  | ViaBasic => exists pass, rq_BasicAuth r = Some (ca_User c, pass) /\ ca_User c = au_User (sv_auth s) /\
      VerifyPassword (ca_User c) pass (au_PasswordHash (sv_auth s)) = true /\ busy (remoteIP r) (sv_limiter s) = false
  | ViaBearer => exists secret t, bearerSecret (rq_Authorization r) = Some secret /\ ts_byKey (sv_tokens s) !! sha_hex secret = Some t /\
      Expired t now = false /\ ca_Scope c = tk_Scope t
  | ViaNone | ViaSocket => False
  end.

Lemma routeFor_in m p rt : routeFor m p = Some rt -> rt ∈ routeTable.
Proof. unfold routeFor, byPattern. intros [H _]%find_some. by apply list_elem_of_In. Qed.
(** The table itself: what writes is protected or is the login, and no token of scope
    read covers it. *)
Lemma table_writes rt : rt ∈ routeTable ->
  (rt_Class rt <> classProtected -> rt_Method rt = "GET" \/ rt_Path rt = "/api/login" \/ rt_Path rt = "/api/logout") /\
  (ScopeAllows ScopeRead (rt_Scope rt) = true -> rt_Method rt = "GET").
Proof.
  intros Hin. assert (Hall : Forall (fun rt =>
    (bool_decide (rt_Class rt = classProtected) || String.eqb (rt_Method rt) "GET" || String.eqb (rt_Path rt) "/api/login" || String.eqb (rt_Path rt) "/api/logout") &&
    (negb (ScopeAllows ScopeRead (rt_Scope rt)) || String.eqb (rt_Method rt) "GET") = true) routeTable).
  { apply Forall_forall. intros x Hx. apply list_elem_of_In in Hx. revert x Hx. apply forallb_forall. by vm_compute. }
  rewrite Forall_forall in Hall. specialize (Hall rt Hin). apply andb_true_iff in Hall as [H1 H2]. split.
  - intros Hc. rewrite bool_decide_eq_false_2 in H1 by done. cbn [orb] in H1.
    apply orb_true_iff in H1 as [H1|H1%String.eqb_eq]; [apply orb_true_iff in H1 as [H1%String.eqb_eq|H1%String.eqb_eq]|]; auto.
  - intros Hs. rewrite Hs in H2. by apply String.eqb_eq in H2.
Qed.

Lemma session_lookup ok now token ss x ss' : WebSession.Lookup sha_hex ok now token ss = (Some x, ss') ->
  exists y, ss_byKey ss !! sha_hex token = Some y /\ alive now y = true /\ se_User x = se_User y.
Proof.
  unfold WebSession.Lookup. destruct (String.eqb token ""); [done|]. destruct (ss_byKey ss !! sha_hex token) as [y|]; [|done].
  destruct (alive now y) eqn:E; [|done]. cbn [negb]. destruct (_ <=? _); intros [= <- _]; exists y; [|done]. split; [done|]. split; [done|]. by destruct y.
Qed.
Lemma token_lookup ok now secret ip ts t ts' : WebToken.Lookup sha_hex ok now secret ip ts = (inr t, ts') ->
  exists u, ts_byKey ts !! sha_hex secret = Some u /\ Expired u now = false /\ tk_Scope t = tk_Scope u.
Proof.
  unfold WebToken.Lookup. destruct (negb _); [done|]. destruct (ts_byKey ts !! sha_hex secret) as [u|]; [|done].
  destruct (Expired u now) eqn:E; [done|]. destruct (match tk_LastUsed u with Some _ => _ | None => _ end); intros [= <- _]; exists u; [|done].
  split; [done|]. split; [done|]. by destruct u.
Qed.
(** [s1]: the server after the cookie has been looked up. *)
Definition same_secrets s1 s : Prop := sv_auth s1 = sv_auth s /\ sv_tokens s1 = sv_tokens s /\ sv_limiter s1 = sv_limiter s.
Lemma bearer_proves env r secret s1 s c s' : same_secrets s1 s -> bearerSecret (rq_Authorization r) = Some secret ->
  resolveBearer env r secret s1 = (inr c, s') -> ca_Authenticated c = true /\ proves (e_now env) s r c.
Proof.
  intros (H1 & H2 & H3) Hs. unfold resolveBearer. rewrite H2, H3. destruct (busy _ _); [done|].
  destruct (WebToken.Lookup _ _ _ _ _ _) as [[b|t] ts] eqn:E; [done|].
  destruct (allow _ _ _) as [ok tab]. destruct ok; [|done]. intros [= <- _]. split; [done|]. unfold proves. cbn.
  destruct (token_lookup _ _ _ _ _ _ _ E) as (u & Hu1 & Hu2 & Hu3). by exists secret, u.
Qed.
Lemma basic_proves env r s1 s c s' : same_secrets s1 s ->
  resolveBasic env r s1 = (inr c, s') -> ca_Authenticated c = true /\ proves (e_now env) s r c.
Proof.
  intros (H1 & H2 & H3). unfold resolveBasic, authorized, credentialsOK. rewrite H1, H3. destruct (busy _ _) eqn:Eb; [done|].
  destruct (acquire _) as [[] l]; [|done]. cbn [negb].
  destruct (rq_BasicAuth r) as [[user pass]|] eqn:Er; [|done]. destruct (_ && _) eqn:Ea; [|done]. cbn [negb default].
  intros [= <- _]. split; [done|]. unfold proves. cbn.
  apply andb_true_iff in Ea as [Hu%String.eqb_eq Hv]. by exists pass.
Qed.
Lemma resolve_proves env r s c s' : basicMode s = true -> resolveCaller env r s = (inr c, s') ->
  c = anonymous \/ ca_Authenticated c = true /\ proves (e_now env) s r c.
Proof.
  intros Hm. unfold resolveCaller. rewrite Hm. cbn [negb].
  assert (Hrest : forall s1, same_secrets s1 s ->
    (if String.eqb (rq_Authorization r) "" then (inr anonymous, s1)
     else match bearerSecret (rq_Authorization r) with
          | Some secret => resolveBearer env r secret s1 | None => resolveBasic env r s1 end) = (inr c, s') ->
    c = anonymous \/ ca_Authenticated c = true /\ proves (e_now env) s r c).
  { intros s1 Hs. destruct (String.eqb _ _); [intros [= <- _]; by left|]. intros H. right.
    destruct (bearerSecret _) as [secret|] eqn:Es; [by eapply bearer_proves|by eapply basic_proves]. }
  destruct (rq_Cookie r) as [v|] eqn:Ec; [|by apply Hrest]. destruct (String.eqb v ""); [by apply Hrest|].
  destruct (WebSession.Lookup _ _ _ _ _) as [[x|] ss] eqn:E; cbn [fmap option_fmap option_map].
  - intros [= <- _]. right. split; [done|]. unfold proves. cbn.
    destruct (session_lookup _ _ _ _ _ _ E) as (y & H1 & H2 & H3). exists v, y. by rewrite H3.
  - apply Hrest. by destruct s.
Qed.

(** C4: with auth = basic nothing protected happens without a credential.  A request the
    guard passes on (1) names an allowed host; (2) carries the CSRF header or a bearer
    token if it can change anything; (3) belongs to a caller that is signed in only if
    the request holds a live session's cookie, the user's password, or an unexpired
    token; (4) if it is anonymous and asks for a route of the API, that route is not
    protected: a read, the login or the logout; (5) if it carries a token, the route
    is none of the session-only ones and within the token's scope - a read-only token
    only reads.  And (6) a browser with a live session is never turned away. *)
Theorem guard_protects env r s : basicMode s = true ->
  (forall c s', guard env r s = (Serve c, s') ->
     hostAllowed s (rq_Host r) = true /\
     (is_write r = true -> rq_Csrf r = csrfValue \/ ca_Via c = ViaBearer) /\
     (ca_Authenticated c = true -> proves (e_now env) s r c) /\
     (forall rt, routeFor (rq_Method r) (rq_Path r) = Some rt ->
        (ca_Authenticated c = false -> HasPrefix (rq_Path r) "/api/" = true ->
           rt_Class rt <> classProtected /\ (rt_Method rt = "GET" \/ rt_Path rt = "/api/login" \/ rt_Path rt = "/api/logout")) /\
        (ca_Via c = ViaBearer -> rt_Scope rt <> scopeSession /\ ScopeAllows (ca_Scope c) (rt_Scope rt) = true /\
           (ca_Scope c = ScopeRead -> rt_Method rt = "GET")))) /\
  (forall v x, rq_Cookie r = Some v -> v <> "" -> ss_byKey (sv_sessions s) !! sha_hex v = Some x -> alive (e_now env) x = true ->
     hostAllowed s (rq_Host r) = true -> (is_write r = true -> rq_Csrf r = csrfValue) ->
     exists c s', guard env r s = (Serve c, s') /\ ca_User c = se_User x).
Proof.
  intros Hm. split.
  - intros c s'. unfold guard. destruct (hostAllowed s (rq_Host r)); [|done]. cbn [negb].
    destruct (resolveCaller env r s) as [[status|c0] s1] eqn:E; [done|]. destruct (is_write r && _ && _) eqn:Ew; [done|].
    destruct (negb _ && _) eqn:Ep; [done|]. destruct (bool_decide _ && _) eqn:Es; [done|]. intros [= <- _].
    apply (resolve_proves env r s) in E; [|done]. split_and!.
    + done.
    + intros Hw. rewrite Hw in Ew. cbn [andb] in Ew. apply andb_false_iff in Ew as [Ew|Ew]; apply negb_false_iff in Ew.
      * right. by apply bool_decide_eq_true in Ew.
      * left. by apply String.eqb_eq in Ew.
    + intros Hc. by destruct E as [->|[_ ?]].
    + intros rt Hrt. pose proof (table_writes rt (routeFor_in _ _ _ Hrt)) as [Ht1 Ht2]. split.
      * intros Ha Hpre. rewrite Ha in Ep. cbn [negb andb] in Ep. apply negb_false_iff in Ep. unfold publicPath in Ep.
        rewrite Hpre, Hrt in Ep. cbn in Ep. apply negb_true_iff, bool_decide_eq_false in Ep. auto.
      * intros Hv. rewrite bool_decide_eq_true_2 in Es by done. cbn [andb] in Es. apply negb_false_iff in Es. unfold scopeAllowed in Es.
        rewrite Hrt in Es. apply andb_true_iff in Es as [Es1 Es2]. apply negb_true_iff, String.eqb_neq in Es1.
        split_and!; [done|done|]. intros Hsc. rewrite Hsc in Es2. auto.
  - intros v x Hc Hv Hx Hl Hh Hw. unfold guard. rewrite Hh. cbn [negb]. unfold resolveCaller. rewrite Hm, Hc. cbn [negb].
    rewrite (proj2 (String.eqb_neq _ _) Hv). unfold WebSession.Lookup. rewrite (proj2 (String.eqb_neq _ _) Hv), Hx, Hl. cbn [negb].
    assert (Hcsrf : is_write r && negb (bool_decide (ViaCookie = ViaBearer)) && negb (String.eqb (rq_Csrf r) csrfValue) = false).
    { destruct (is_write r); [|done]. rewrite Hw by done. done. }
    destruct (_ <=? _); cbn [fmap option_fmap option_map ca_Via ca_Authenticated]; rewrite Hcsrf; cbn; eexists _, _; (split; [done|]); by destruct x.
Qed.
End Protects.

(** *** A server with one account, a browser that signed in, and a read-only token *)
Module Example_server.
#[global] Existing Instance Example_crypto.crypto.
(** Paths without parameters. *)
#[global] Instance mux : Mux := fun m p => String.append m (String.append " " p).
#[global] Instance account : Account unit := None.
Definition credentials : AuthConfig := mkAuth "basic" "root" (PasswordHash (replicate 16 1) "root" "secret").
Definition env (now : Z) : Env := mkEnv now true (replicate 16 2).
Definition server : Server unit :=
  let s := NewServer credentials 0 true None None ["fans.lan"] tt in
  s <| sv_sessions := (WebSession.Create sha_hex true 0 (Some "cookie") "root" false "::1" (sv_sessions s)).2 |>
    <| sv_tokens := (WebToken.Create sha_hex true 0 (Some "tok") "ha" "" None (sv_tokens s)).2 |>.
Definition ask (m p : string) (cookie : option string) (authz csrf : string) (basic : option (string * string)) : Request :=
  mkRequest m p "fans.lan:8443" "192.168.0.9:51000" cookie authz basic csrf.
Definition status (r : Request) : Z * string :=
  match (guard (env 5) r server).1 with Refuse st => (st, "") | Serve c => (200, ca_User c) end.
Example guard_ex :
  map status
    [ask "PUT" "/api/config" (Some "cookie") "" "1" None; ask "PUT" "/api/config" (Some "cookie") "" "" None;
     ask "PUT" "/api/config" None "" "1" None; ask "GET" "/api/state" None "" "" None;
     ask "GET" "/api/presets" None "Bearer n5t_tok" "" None; ask "PUT" "/api/config" None "Bearer n5t_tok" "" None;
     ask "GET" "/api/tokens" None "Bearer n5t_tok" "" None; ask "GET" "/api/presets" None "bearer n5t_no" "" None;
     ask "GET" "/api/presets" None "Basic cm9vdDpzZWNyZXQ=" "" (Some ("root", "secret"));
     ask "GET" "/api/presets" None "Basic eDp5" "" (Some ("root", "Secret"));
     mkRequest "GET" "/" "evil.example" "192.168.0.9:51000" None "" None ""]
  = [(200, "root"); (403, ""); (401, ""); (200, ""); (200, "ha"); (403, ""); (403, ""); (401, ""); (200, "root"); (401, ""); (421, "")].
Proof. by vm_compute. Qed.
End Example_server.

Lemma guard_protects_witness :
  let r := Example_server.ask "PUT" "/api/config" (Some "cookie") "" "1" None in
  basicMode Example_server.server = true /\
  exists c s', guard (Example_server.env 5) r Example_server.server = (Serve c, s') /\ ca_User c = "root" /\
    proves 5 Example_server.server r c.
Proof.
  intros r. split; [by vm_compute|]. pose proof (guard_protects (Example_server.env 5) r Example_server.server eq_refl) as [H1 H2].
  destruct (H2 "cookie" (mkSession (String.substring 0 8 (sha_hex "cookie")) "root" "::1" 0 (12 * Hour) 0 false)) as (c & s' & Hg & Hu);
    [done|done|by vm_compute|done|by vm_compute|done|].
  exists c, s'. split; [done|]. split; [done|]. destruct (H1 c s' Hg) as (_ & _ & H3 & _). apply H3.
  assert (Hc : (guard (Example_server.env 5) r Example_server.server).1 = Serve (mkCaller true "root" ViaCookie "" "" "cookie")) by by vm_compute.
  rewrite Hg in Hc. by injection Hc as ->.
Defined.
