(* ===== verification/WebAccount.v ===== *)
(** Login, account changes and token management (src/internal/web/session_api.go,
    account_api.go, token_api.go), behind the guard.

    A handler gets the decoded request body, or the status decodeJSON answered; it
    answers with a status.  [c] is the caller the guard resolved. *)
From stdpp Require Import base gmap strings list.
From Stdlib Require Import ZArith Lia Ascii.
From S2P Require Import Prelude GoLib GoNet GoPath ConfigTypes ConfigWeb WebTable WebSession WebLimit WebToken WebPassword WebGuard.
Open Scope Z_scope.

Inductive Body (A : Type) := Bad (status : Z) | Decoded (a : A).
Arguments Bad {A}.
Arguments Decoded {A}.
(** [utf8.RuneCountInString] of a valid text: the bytes that continue no rune. *)
Definition RuneCount (s : string) : Z :=
  Z.of_nat (length (List.filter (fun c => let n := N_of_ascii c in negb ((128 <=? n) && (n <=? 191))%N) (chars s))).
Definition MinPasswordLen : Z := 8.
Definition MaxPasswordLen : Z := 128.
Definition TokenTTLDefault : Z := 90.
Definition TokenTTLMax : Z := 3650.

Section Account.
Context {Mo : MapOrder} {Cr : Crypto} {Mx : Mux} {St : Type} {Ac : Account St}.
Implicit Types (s : Server St) (r : Request) (env : Env) (c : Caller).

(** ** Sessions *)

(** The cookie that is set; [rand] is what the session store draws. *)
Definition login env (rand : option string) r (body : Body (string * string * bool)) s : Z * option string * Server St :=
  let ip := remoteIP r in
  if negb (basicMode s) then (409, None, s)
  else if busy ip (sv_limiter s) then (429, None, s)
  else match body with
  | Bad status => (status, None, s)
  | Decoded (user, password, remember) =>
      let '(got, l) := acquire (sv_limiter s) in
      if negb got then (429, None, s)
      else
        let ok := credentialsOK s user password in
        let s := s <| sv_limiter := release l |> in
        if negb ok then (401, None, count_failure KPassword env ip s)
        else
          let s := s <| sv_limiter := reset ip (sv_limiter s) |> in
          let s := upgradeLegacyHash env user password s in
          let '(res, ss) := WebSession.Create sha_hex (e_ok env) (e_now env) rand user remember ip (sv_sessions s) in
          let s := s <| sv_sessions := ss |> in
          match res with
          | None => (500, None, s)
          | Some (token, _) => (200, Some token, s)
          end
  end.
Definition logout env r s : Z * Server St :=
  match rq_Cookie r with
  | Some v => if String.eqb v "" then (204, s) else (204, s <| sv_sessions := WebSession.Revoke sha_hex (e_ok env) v (sv_sessions s) |>)
  | None => (204, s)
  end.

(** ** The account *)

(** A status when the answer was written. *)
Definition account (change : bool) s : option Z :=
  match acc_Update with
  | None => Some 501
  | Some _ => if change && negb (basicMode s) then Some 409 else None
  end.
Definition verifyCurrent env r (current : string) s : option Z * Server St :=
  let ip := remoteIP r in
  if busy ip (sv_limiter s) then (Some 429, s)
  else
    let '(got, l) := acquire (sv_limiter s) in
    if negb got then (Some 429, s)
    else
      let cfg := sv_auth s in
      let ok := VerifyPassword (au_User cfg) current (au_PasswordHash cfg) in
      let s := s <| sv_limiter := release l |> in
      if negb ok then (Some 403, count_failure KPassword env ip s)
      else (None, s <| sv_limiter := reset ip (sv_limiter s) |>).
Definition applyAccount env c (user hash : string) s : option Z * Server St :=
  match acc_Update with
  | None => (Some 501, s)
  | Some Update =>
      let '(res, st) := Update user hash (sv_store s) in
      let s := s <| sv_store := st |> in
      match res with
      | None => (Some 500, s)
      | Some cfg =>
          let s := s <| sv_auth := cfg |> in
          let ss := SetEpoch (e_ok env) (CredentialEpoch sha_hex (au_User cfg) (au_PasswordHash cfg)) (sv_sessions s) in
          let ss := RevokeAllRename sha_hex (e_ok env) (ca_token c) (au_User cfg) ss in
          (None, s <| sv_sessions := ss |>)
      end
  end.
(** [{"current_password", "new_password"}] *)
Definition accountPassword env r c (body : Body (string * string)) s : Z * Server St :=
  match account true s with
  | Some status => (status, s)
  | None =>
      match body with
      | Bad status => (status, s)
      | Decoded (current, new) =>
          if (RuneCount new <? MinPasswordLen) || (MaxPasswordLen <? RuneCount new) then (400, s)
          else
            let '(no, s) := verifyCurrent env r current s in
            match no with
            | Some status => (status, s)
            | None =>
                let '(no, s) := applyAccount env c "" (PasswordHash (e_salt env) (au_User (sv_auth s)) new) s in
                (default 200 no, s)
            end
      end
  end.
(** [{"current_password", "user"}] *)
Definition accountUser env r c (body : Body (string * string)) s : Z * Server St :=
  match account true s with
  | Some status => (status, s)
  | None =>
      match body with
      | Bad status => (status, s)
      | Decoded (current, user) =>
          if negb (UserRe user) then (400, s)
          else
            let '(no, s) := verifyCurrent env r current s in
            match no with
            | Some status => (status, s)
            | None =>
                let '(no, s) := applyAccount env c user (PasswordHash (e_salt env) user current) s in
                (default 200 no, s)
            end
      end
  end.
(** [{"others"}]; the number of sessions revoked. *)
Definition accountRevoke env c (body : Body bool) s : Z * Z * Server St :=
  match account false s with
  | Some status => (status, 0, s)
  | None =>
      match body with
      | Bad status => (status, 0, s)
      | Decoded false => (400, 0, s)
      | Decoded true =>
          let '(before, ss) := List_sessions (e_ok env) (e_now env) (sv_sessions s) in
          let ss := RevokeAll sha_hex (e_ok env) (ca_token c) ss in
          let '(after, ss) := List_sessions (e_ok env) (e_now env) ss in
          (200, Z.of_nat (length before) - Z.of_nat (length after), s <| sv_sessions := ss |>)
      end
  end.

(** ** Tokens *)

(** [{"name", "scope", "ttl_days"}]; the secret. *)
Definition createToken env (rand : option string) (body : Body (string * string * option Z)) s : Z * option string * Server St :=
  if negb (basicMode s) then (409, None, s)
  else match body with
  | Bad status => (status, None, s)
  | Decoded (name, scope, ttl_days) =>
      let ttl := default TokenTTLDefault ttl_days in
      if (ttl <? 0) || (TokenTTLMax <? ttl) then (400, None, s)
      else
        let expires := if 0 <? ttl then Some (e_now env + ttl * 24 * Hour) else None in
        let '(res, ts) := WebToken.Create sha_hex (e_ok env) (e_now env) rand name scope expires (sv_tokens s) in
        let s := s <| sv_tokens := ts |> in
        match res with
        | inl ErrTokenTaken | inl ErrTokenLimit => (409, None, s)
        | inl ErrTokenName | inl ErrTokenScope => (400, None, s)
        | inl ErrTokenRand => (500, None, s)
        | inr (secret, _) => (201, Some secret, s)
        end
  end.
Definition revokeToken env (id : string) s : Z * Server St :=
  if negb (ValidTokenID id) then (400, s)
  else
    let '(found, ts) := WebToken.Revoke (e_ok env) id (sv_tokens s) in
    (if found then 200 else 404, s <| sv_tokens := ts |>).
End Account.

(** ** What an account change does *)
Section Change.
Context {Mo : MapOrder} {Cr : Crypto} {Mx : Mux} {St : Type} {Ac : Account St} (Current : St -> AuthConfig) `{!AccountLaws Ac Current}.
Hypothesis (pbkdf2_bytes : forall p salt i n, bytes (pbkdf2 p salt i n) /\ length (pbkdf2 p salt i n) = Z.to_nat n).
Implicit Types (s : Server St) (r : Request) (env : Env) (c : Caller).

Lemma verifyCurrent_ok env r current s s1 : verifyCurrent env r current s = (None, s1) ->
  VerifyPassword (au_User (sv_auth s)) current (au_PasswordHash (sv_auth s)) = true /\
  sv_auth s1 = sv_auth s /\ sv_sessions s1 = sv_sessions s /\ sv_store s1 = sv_store s.
Proof.
  unfold verifyCurrent. destruct (busy _ _); [done|]. destruct (acquire _) as [[] l]; [|done]. cbn [negb].
  destruct (VerifyPassword _ _ _); [|done]. intros [= <-]. by destruct s.
Qed.
Lemma verifyCurrent_no env r current s status s1 : verifyCurrent env r current s = (Some status, s1) ->
  status <> 200 /\ sv_auth s1 = sv_auth s /\ sv_sessions s1 = sv_sessions s /\ sv_store s1 = sv_store s.
Proof.
  unfold verifyCurrent, count_failure. destruct (busy _ _); [by intros [= <- <-]|]. destruct (acquire _) as [[] l]; [|by intros [= <- <-]]. cbn [negb].
  destruct (VerifyPassword _ _ _); [done|]. destruct (fail_start _ _ _ _) as [[[n d] sl] l']. intros [= <- <-]. by destruct s.
Qed.
(** The sessions after the change: the caller's, under its new name. *)
Lemma revoked_only keep u now ss : store_ok now ss ->
  let ss' := RevokeAllRename sha_hex true keep u ss in
  store_ok now ss' /\ ss_epoch ss' = ss_epoch ss /\
  ss_byKey ss' = map_imap (revoked_entry (if String.eqb keep "" then "" else sha_hex keep) u) (ss_byKey ss).
Proof.
  intros Hs. pose proof (step_revoke_all sha_hex now keep u ss (ss_byKey (ss <| ss_byKey := strip <$> live now (ss_byKey ss) |>)) Hs) as H.
  split; [apply H; unfold shows; cbn; by rewrite live_strip, live_later by lia|].
  unfold RevokeAllRename. set (m := map_imap _ _). destruct (bool_decide_reflect (m = ss_byKey ss)) as [E|_]; [by rewrite E|].
  unfold saveLocked. destruct ss as [[] f e k]; done.
Qed.
Lemma epoch_set now e ss : store_ok now ss -> let ss' := SetEpoch true e ss in
  store_ok now ss' /\ ss_epoch ss' = e /\ ss_byKey ss' = ss_byKey ss.
Proof.
  intros Hs. pose proof (step_epoch sha_hex now e ss (strip <$> live now (ss_byKey ss)) Hs) as H. split.
  { apply H. unfold shows. by rewrite live_strip, live_later by lia. }
  unfold SetEpoch. destruct (String.eqb_spec (ss_epoch ss) e) as [E|_]; [done|]. unfold saveLocked. destruct ss as [[] f e0 k]; done.
Qed.
Lemma applyAccount_ok env c user hash s s1 : e_ok env = true -> store_ok (e_now env) (sv_sessions s) ->
  applyAccount env c user hash s = (None, s1) ->
  let a := sv_auth s1 in
  a = Current (sv_store s1) /\ (user <> "" -> au_User a = user) /\ (hash <> "" -> au_PasswordHash a = hash) /\
  store_ok (e_now env) (sv_sessions s1) /\ ss_epoch (sv_sessions s1) = CredentialEpoch sha_hex (au_User a) (au_PasswordHash a) /\
  ss_byKey (sv_sessions s1) =
    map_imap (revoked_entry (if String.eqb (ca_token c) "" then "" else sha_hex (ca_token c)) (au_User a)) (ss_byKey (sv_sessions s)).
Proof.
  intros Hok Hs. unfold applyAccount. destruct acc_Update as [Update|] eqn:Eu; [|done].
  destruct (Update user hash (sv_store s)) as [[cfg|] st] eqn:E; [|done]. rewrite Hok. intros [= <-]. cbn zeta.
  destruct (acc_updated Update _ _ _ _ _ Eu E) as (H1 & _ & H2 & H3).
  set (e := CredentialEpoch sha_hex (au_User cfg) (au_PasswordHash cfg)).
  destruct (epoch_set (e_now env) e (sv_sessions s) Hs) as (Hs1 & He1 & Hb1).
  destruct (revoked_only (ca_token c) (au_User cfg) (e_now env) (SetEpoch true e (sv_sessions s)) Hs1) as (Hs2 & He2 & Hb2).
  destruct s as [au ss tk l tl ah al st0]. cbn in *. split_and!; [done|done|done|done|by rewrite He2|by rewrite Hb2, Hb1].
Qed.

Lemma fresh_hash_verifies salt user password user' : bytes salt -> (8 <= length salt)%nat ->
  VerifyPassword user' password (PasswordHash salt user password) = true.
Proof.
  intros Hs Hl. unfold VerifyPassword. rewrite parse_PasswordHash by done. cbn.
  destruct (pbkdf2_bytes password salt PBKDF2Iter PBKDF2KeyLen) as [_ ->]. by apply bool_decide_eq_true.
Qed.
Lemma fresh_hash_nonempty salt user password : PasswordHash salt user password <> ""%string.
Proof. done. Qed.

(** What holds once a change of account has been answered with 200: [ss] are the
    sessions before, [s'] the server after it. *)
Definition account_switched (now : Z) c (ss : sessionStore) s' : Prop :=
  let a := sv_auth s' in
  let key := sha_hex (ca_token c) in
  let ss' := sv_sessions s' in
  a = Current (sv_store s') /\
  (forall k x, ss_byKey ss' !! k = Some x -> ca_token c <> ""%string /\ k = key) /\
  (forall x, ca_token c <> ""%string -> ss_byKey ss !! key = Some x -> exists x', ss_byKey ss' !! key = Some x' /\
     se_Expires x' = se_Expires x /\ (au_User a <> ""%string -> se_User x' = au_User a)) /\
  (forall epoch, epoch <> ""%string ->
     ss_byKey (NewSessionStoreEpoch now (ss_path ss') (ss_file ss') epoch) =
       if bool_decide (epoch = CredentialEpoch sha_hex (au_User a) (au_PasswordHash a)) then live now (ss_byKey ss') else ∅).

Lemma switched env c user hash s s1 : e_ok env = true -> store_ok (e_now env) (sv_sessions s) ->
  applyAccount env c user hash s = (None, s1) -> account_switched (e_now env) c (sv_sessions s) s1.
Proof.
  intros Hok Hs Ha. destruct (applyAccount_ok env c user hash s s1 Hok Hs Ha) as (H1 & _ & _ & H2 & H3 & H4). unfold account_switched.
  split_and!; [done| | |].
  - intros k x Hx. rewrite H4, map_lookup_imap in Hx. destruct (ss_byKey (sv_sessions s) !! k) as [y|] eqn:Ey; [|done]. cbn in Hx.
    unfold revoked_entry in Hx. destruct (String.eqb_spec k (if String.eqb (ca_token c) "" then "" else sha_hex (ca_token c))%string) as [->|]; [|done].
    destruct (String.eqb_spec (ca_token c) "") as [E|E]; [|done]. destruct Hs as (_ & Hf & _). destruct (Hf _ _ Ey) as [Hlen _]. done.
  - intros x Hc Hx. rewrite H4, map_lookup_imap, Hx. rewrite (proj2 (String.eqb_neq _ _) Hc). cbn. unfold revoked_entry. rewrite String.eqb_refl. cbn.
    destruct (String.eqb_spec (au_User (sv_auth s1)) "") as [E|E]; cbn [negb andb]; [by exists x|].
    destruct (String.eqb_spec (se_User x) (au_User (sv_auth s1))) as [E'|E']; cbn [negb]; [by exists x|]. eexists. split; [done|]. by destruct x.
  - intros epoch He. set (ss' := sv_sessions s1) in *. pose proof (restart_live (e_now env) ss' H2) as Hr. rewrite <- H3.
    destruct (bool_decide_reflect (epoch = ss_epoch ss')) as [->|Hne]; [rewrite Hr; by destruct ss'|].
    by apply restart_other.
Qed.

Lemma applyAccount_no env c user hash s status s1 : applyAccount env c user hash s = (Some status, s1) ->
  status <> 200 /\ sv_auth s1 = sv_auth s /\ sv_sessions s1 = sv_sessions s.
Proof.
  unfold applyAccount. destruct acc_Update as [Update|]; [|by intros [= <- <-]].
  destruct (Update _ _ _) as [[cfg|] st]; [done|]. intros [= <- <-]. by destruct s.
Qed.
Lemma account_no change s status : account change s = Some status -> status <> 200.
Proof. unfold account. destruct acc_Update; [|by intros [= <-]]. destruct (_ && _); [by intros [= <-]|done]. Qed.
(** Both changes: the password is asked for, then the account is written. *)
Definition verified_change env r c (current user : string) (hash : Server St -> string) s : Z * Server St :=
  let '(no, s) := verifyCurrent env r current s in
  match no with
  | Some status => (status, s)
  | None => let '(no, s) := applyAccount env c user (hash s) s in (default 200 no, s)
  end.
Lemma verified_change_inv env r c current user hash s status s' : verified_change env r c current user hash s = (status, s') ->
  (status = 200 /\ VerifyPassword (au_User (sv_auth s)) current (au_PasswordHash (sv_auth s)) = true /\
     exists s1, sv_auth s1 = sv_auth s /\ sv_sessions s1 = sv_sessions s /\ applyAccount env c user (hash s1) s1 = (None, s')) \/
  (status <> 200 /\ sv_auth s' = sv_auth s /\ sv_sessions s' = sv_sessions s).
Proof.
  unfold verified_change. destruct (verifyCurrent env r current s) as [[st|] s1] eqn:Ev.
  - intros [= <- <-]. right. by destruct (verifyCurrent_no _ _ _ _ _ _ Ev) as (? & ? & ? & _).
  - destruct (verifyCurrent_ok _ _ _ _ _ Ev) as (H1 & H2 & H3 & _).
    destruct (applyAccount env c user (hash s1) s1) as [[st|] s2] eqn:Ea; intros [= <- <-].
    + right. destruct (applyAccount_no _ _ _ _ _ _ _ Ea) as (? & -> & ->). done.
    + left. split; [done|]. split; [done|]. by exists s1.
Qed.

(** C39: changing the password or the name of the account.  A change is answered with 200
    only to someone who knows the current password; then the new password verifies (for
    a rename: the current one, under the new name), the account store and the server
    agree on the credentials, every session but the caller's is gone - also for a daemon
    restarted under any other credentials - and the caller's goes on under the new name,
    also after a restart.  An answer other than 200 leaves credentials and sessions as
    they were.  The account store keeps what it promises ([AccountLaws]); the mirror of
    the sessions can be written. *)
Theorem account_changed env r c (current next : string) s :
  e_ok env = true -> store_ok (e_now env) (sv_sessions s) -> bytes (e_salt env) -> (8 <= length (e_salt env))%nat ->
  (forall s', accountPassword env r c (Decoded (current, next)) s = (200, s') ->
     VerifyPassword (au_User (sv_auth s)) current (au_PasswordHash (sv_auth s)) = true /\
     VerifyPassword (au_User (sv_auth s')) next (au_PasswordHash (sv_auth s')) = true /\
     account_switched (e_now env) c (sv_sessions s) s') /\
  (forall s', accountUser env r c (Decoded (current, next)) s = (200, s') ->
     VerifyPassword (au_User (sv_auth s)) current (au_PasswordHash (sv_auth s)) = true /\
     VerifyPassword next current (au_PasswordHash (sv_auth s')) = true /\ au_User (sv_auth s') = next /\
     account_switched (e_now env) c (sv_sessions s) s') /\
  (forall status s', accountPassword env r c (Decoded (current, next)) s = (status, s') \/
                     accountUser env r c (Decoded (current, next)) s = (status, s') ->
     status <> 200 -> sv_auth s' = sv_auth s /\ sv_sessions s' = sv_sessions s).
Proof.
  intros Hok Hs Hsalt Hlen.
  set (newhash := fun s1 : Server St => PasswordHash (e_salt env) (au_User (sv_auth s1)) next).
  assert (Hp : accountPassword env r c (Decoded (current, next)) s = match account true s with Some st => (st, s) | None =>
    if (RuneCount next <? MinPasswordLen) || (MaxPasswordLen <? RuneCount next) then (400, s)
    else verified_change env r c current "" newhash s end) by done.
  assert (Hu : accountUser env r c (Decoded (current, next)) s = match account true s with Some st => (st, s) | None =>
    if negb (UserRe next) then (400, s)
    else verified_change env r c current next (fun _ => PasswordHash (e_salt env) next current) s end) by done.
  rewrite Hp, Hu. destruct (account true s) as [st|] eqn:Eac.
  { pose proof (account_no _ _ _ Eac). split_and!; [by intros ? [= ? _]|by intros ? [= ? _]|by intros ? ? [[= _ <-]|[= _ <-]]]. }
  split_and!.
  - intros s'. destruct (_ || _); [done|]. intros [(_ & Hv & s1 & E1 & E2 & Ha)|[? _]]%verified_change_inv; [|done].
    rewrite <- E2 in Hs. destruct (applyAccount_ok _ _ _ _ _ _ Hok Hs Ha) as (_ & _ & Hh & _).
    specialize (Hh (fresh_hash_nonempty _ _ _)). clear Hp Hu; subst newhash; cbv beta in *. split; [done|]. split.
    + rewrite Hh. exact (fresh_hash_verifies _ _ _ _ Hsalt Hlen).
    + rewrite <- E2. by apply (switched _ _ _ _ _ _ Hok Hs Ha).
  - intros s'. destruct (UserRe next) eqn:Ere; [|done]. cbn [negb].
    intros [(_ & Hv & s1 & E1 & E2 & Ha)|[? _]]%verified_change_inv; [|done].
    rewrite <- E2 in Hs. destruct (applyAccount_ok _ _ _ _ _ _ Hok Hs Ha) as (_ & Hn & Hh & _). specialize (Hh (fresh_hash_nonempty _ _ _)).
    clear Hp Hu. split; [done|]. split; [|split].
    + rewrite Hh. exact (fresh_hash_verifies _ _ _ _ Hsalt Hlen).
    + apply Hn. by intros ->.
    + rewrite <- E2. by apply (switched _ _ _ _ _ _ Hok Hs Ha).
  - intros status s' [H|H] Hne; revert H; 
      (match goal with |- context [if ?b then _ else _] => destruct b; [by intros [= _ <-]|] end);
      by intros [(? & _)|(_ & ? & ?)]%verified_change_inv.
Qed.
End Change.

(** A store that keeps the credentials and nothing else. *)
Module Example_account.
#[global] Instance store : Account AuthConfig := Some (fun user hash a =>
  let pick (new old : string) := if String.eqb new "" then old else new in
  let a := mkAuth (au_Mode a) (pick user (au_User a)) (pick hash (au_PasswordHash a)) in (Some a, a)).
#[global] Instance laws : AccountLaws store id.
Proof.
  split; unfold store; intros Update user hash a; [intros next a'|intros a']; intros HU; apply Some_inj in HU; subst Update; [|done].
  intros [= <- <-]. split; [done|]. split; [done|]. cbn. split; intros H; by rewrite (proj2 (String.eqb_neq _ _) H).
Qed.
Definition server : Server AuthConfig :=
  let auth := Example_server.credentials in
  let s := NewServer auth 0 true None None [] auth in
  s <| sv_sessions := (WebSession.Create sha_hex true 1 (Some "other") "root" false "::1"
        (WebSession.Create sha_hex true 0 (Some "cookie") "root" false "::1" (sv_sessions s)).2).2 |>.
Definition request : Request := Example_server.ask "POST" "/api/account/password" (Some "cookie") "" "1" None.
Definition me : Caller := mkCaller true "root" ViaCookie "" "" "cookie".
Definition sessions_of (s : Server AuthConfig) : list (string * string) :=
  map (fun kv => (kv.1, se_User kv.2)) (map_iter (ss_byKey (sv_sessions s))).
End Example_account.
Lemma account_changed_witness :
  let s := Example_account.server in
  let env := Example_server.env 5 in
  let answer := accountPassword env Example_account.request Example_account.me (Decoded ("secret", "new secret")) s in
  WebSession.store_ok 5 (sv_sessions s) /\ Example_account.sessions_of s <> Example_account.sessions_of answer.2 /\ answer.1 = 200 /\
  VerifyPassword (au_User (sv_auth answer.2)) "new secret" (au_PasswordHash (sv_auth answer.2)) = true /\
  account_switched id 5 Example_account.me (sv_sessions s) answer.2.
Proof.
  intros s env answer.
  assert (Hsha : forall t, String.length (sha_hex t) = 64%nat).
  { intros t. unfold sha_hex. rewrite hex_length. by destruct (Example_crypto.sha256_bytes t) as [_ ->]. }
  assert (Hs : WebSession.store_ok 5 (sv_sessions s)).
  { set (s0 := NewSessionStoreEpoch 0 true None (ss_epoch (sv_sessions s))).
    assert (H0 : WebSession.store_ok 0 s0 /\ WebSession.shows 0 s0 ∅).
    { split; [|done]. split_and!; [done|apply map_Forall_empty|exact (Nat.le_0_l 50)|]. by apply map_eq. }
    destruct H0 as [H0 H0'].
    destruct (WebSession.step_sim sha_hex 0 (WebSession.OCreate 0 "cookie" "root" false "::1") s0 ∅ Hsha ltac:(done) H0 H0') as (_ & H1 & H1').
    destruct (WebSession.step_sim sha_hex 0 (WebSession.OCreate 1 "other" "root" false "::1") _ _ Hsha ltac:(done) H1 H1') as (_ & H2 & _).
    by apply (WebSession.store_later 1). }
  pose proof (account_changed (Ac := Example_account.store) id Example_crypto.pbkdf2_bytes env Example_account.request
    Example_account.me "secret" "new secret" s eq_refl Hs) as H.
  destruct H as [H _]; [apply (bool_decide_unpack _); by vm_compute|cbn; lia|].
  assert (E : answer.1 = 200) by by vm_compute. destruct (H answer.2) as (_ & H1 & H2).
  { unfold answer in *. rewrite (surjective_pairing (accountPassword _ _ _ _ _)). by rewrite E. }
  split; [exact Hs|]. split; [|exact (conj E (conj H1 H2))]. by vm_compute.
Defined.
