(* ===== verification/History.v ===== *)
(** The tiered history store behind the dashboard charts
    (src/internal/history/history.go): one raw point per regulation cycle for
    two hours, one-minute means for a day, five-minute means for a week.

    Maps are [gmap]s (a nil map is the empty one, so [normalise] and
    [clonePoint] are identities on the values), floats are binary64 ([Float64]).
    The file is its decoded layout [file]: [encoding/json] writes a float64 so
    that it reads back as the same value, so encoding and decoding is the
    identity on it; [None] is a file that does not decode. *)
From stdpp Require Import base gmap strings list fin_maps sorting.
From Stdlib Require Import ZArith QArith Lia Lqa.
From S2P Require Import Prelude GoLib Float64.
Open Scope Z_scope.

Record Point := mkPoint {
  p_TS : Z; p_Temp : gmap string Q; p_Duty : gmap string Z; p_RPM : gmap string Z;
  p_Extra : gmap string Q }.
#[export] Instance eta_Point : Eta Point := fun p =>
  mkPoint (p_TS p) (p_Temp p) (p_Duty p) (p_RPM p) (p_Extra p).

Definition RawSpan : Z := 2 * Hour.
Definition Min1Span : Z := 24 * Hour.
Definition Min1Bucket : Z := Minute.
Definition Min5Span : Z := 7 * 24 * Hour.
Definition Min5Bucket : Z := 5 * Minute.
Definition format : Z := 1.

Definition RawCapacity (interval : Z) : Z :=
  if interval <=? 0 then 1
  else let n := Z.quot RawSpan interval in if n <? 1 then 1 else n.

(** ** Averaged tiers *)
Record sum := mkSum { s_total : Q; s_n : Z }.
Definition sum0 : sum := mkSum 0 0.
Definition sum_add (s : sum) (v : Q) : sum := mkSum (fadd (s_total s) v) (s_n s + 1).
Definition mean (s : sum) : Q := fdiv (s_total s) (of_int (s_n s)).

Record acc := mkAcc {
  a_start : Z; a_temp : gmap string sum; a_duty : gmap string sum; a_rpm : gmap string sum;
  a_extra : gmap string sum }.
Definition newAcc (start : Z) : acc := mkAcc start ∅ ∅ ∅ ∅.

(** [a[k] = a[k].add(v)] for every entry of the point's map. *)
Definition add_entry (s : option sum) (v : option Q) : option sum :=
  match v with
  | Some v => Some (sum_add (default sum0 s) v)
  | None => s
  end.
Definition add_all (a : gmap string sum) (m : gmap string Q) : gmap string sum :=
  merge add_entry a m.
(** Negative duties are the "unknown" marker and are skipped. *)
Definition known_duties (m : gmap string Z) : gmap string Q :=
  omap (fun v => if v <? 0 then None else Some (of_int v)) m.
Definition acc_add (a : acc) (p : Point) : acc :=
  mkAcc (a_start a) (add_all (a_temp a) (p_Temp p)) (add_all (a_duty a) (known_duties (p_Duty p)))
    (add_all (a_rpm a) (of_int <$> p_RPM p)) (add_all (a_extra a) (p_Extra p)).

Definition milli_mean (s : sum) : Q := fdiv (fround (fmul (mean s) (of_int 1000))) (of_int 1000).
Definition int_mean (s : sum) : Z := to_int (fround (mean s)).
Definition acc_point (a : acc) : Point :=
  mkPoint (a_start a) (milli_mean <$> a_temp a) (int_mean <$> a_duty a) (int_mean <$> a_rpm a)
    (milli_mean <$> a_extra a).

Record tier := mkTier {
  t_bucket : Z; t_span : Z; t_capacity : nat; t_pts : list Point; t_open : option acc }.
#[export] Instance eta_tier : Eta tier := fun t =>
  mkTier (t_bucket t) (t_span t) (t_capacity t) (t_pts t) (t_open t).

Definition bucketStart (t : tier) (ts : Z) : Z :=
  ts - Z.rem (Z.rem ts (t_bucket t) + t_bucket t) (t_bucket t).

Definition closeOpen (t : tier) : tier :=
  match t_open t with
  | None => t
  | Some a => t <| t_pts := keep_last (t_capacity t) (t_pts t ++ [acc_point a]) |> <| t_open := None |>
  end.

(** The part of [push] after an open bucket was closed. *)
Definition open_bucket (t : tier) (start : Z) (p : Point) : tier :=
  match last (t_pts t) with
  | Some lst =>
      if start <=? p_TS lst
      then t <| t_pts := removelast (t_pts t) |>
             <| t_open := Some (acc_add (acc_add (newAcc (p_TS lst)) lst) p) |>
      else t <| t_open := Some (acc_add (newAcc start) p) |>
  | None => t <| t_open := Some (acc_add (newAcc start) p) |>
  end.
Definition tier_push (t : tier) (p : Point) : tier :=
  let start := bucketStart t (p_TS p) in
  match t_open t with
  | Some a =>
      if a_start a <? start then open_bucket (closeOpen t) start p
      else t <| t_open := Some (acc_add a p) |>
  | None => open_bucket t start p
  end.

Definition tier_all (t : tier) : list Point :=
  match t_open t with None => t_pts t | Some a => t_pts t ++ [acc_point a] end.

Definition keepSince (pts : list Point) (cut : Z) : list Point :=
  List.filter (fun p => cut <=? p_TS p) pts.

(** The unix second [span] before [now]. *)
Definition cut_before (now : Time) (span : Z) : Z := tUnix (tAdd now (- span)).

Definition tier_load (t : tier) (pts : list Point) (now : Time) (raw : list Point) : tier :=
  let kept := keep_last (t_capacity t) (keepSince pts (cut_before now (t_span t))) in
  let t := t <| t_open := None |> <| t_pts := kept |> in
  match last kept with
  | None => t
  | Some lst =>
      let later := List.filter (fun p => p_TS lst <=? p_TS p) raw in
      let rebuild := existsb (fun p => bucketStart t (p_TS p) =? p_TS lst) later in
      let t := if rebuild then t <| t_pts := removelast kept |> else t in
      fold_left tier_push later t
  end.

(** ** The store *)
Record Store := mkStore {
  h_path : string; h_interval : Z; h_raw : list Point; h_rawCap : Z; h_min1 : tier;
  h_min5 : tier; h_saveFailed : bool }.
#[export] Instance eta_Store : Eta Store := fun s =>
  mkStore (h_path s) (h_interval s) (h_raw s) (h_rawCap s) (h_min1 s) (h_min5 s) (h_saveFailed s).

Record file := mkFile {
  f_Format : Z; f_Interval : Z; f_Raw : list Point; f_Min1 : list Point; f_Min5 : list Point }.

Definition trimRaw (s : Store) : Store :=
  s <| h_raw := keep_last (Z.to_nat (h_rawCap s)) (h_raw s) |>.

Definition Load (content : option file) (now : Time) (s : Store) : Store :=
  if String.eqb (h_path s) "" then s
  else
    match content with
    | None => s
    | Some f =>
        if negb (f_Format f =? format) then s
        else
          let s := trimRaw (s <| h_raw := keepSince (f_Raw f) (cut_before now RawSpan) |>) in
          s <| h_min1 := tier_load (h_min1 s) (f_Min1 f) now (h_raw s) |>
            <| h_min5 := tier_load (h_min5 s) (f_Min5 f) now (h_raw s) |>
    end.

Definition empty_store (path : string) (interval : Z) : Store :=
  mkStore path interval [] (RawCapacity interval)
    (mkTier (Z.quot Min1Bucket Second) Min1Span (Z.to_nat (Z.quot Min1Span Min1Bucket)) [] None)
    (mkTier (Z.quot Min5Bucket Second) Min5Span (Z.to_nat (Z.quot Min5Span Min5Bucket)) [] None)
    false.
Definition New (path : string) (interval : Z) (content : option file) (now : Time) : Store :=
  Load content now (empty_store path interval).

Definition SetInterval (interval : Z) (s : Store) : Store :=
  trimRaw (s <| h_interval := interval |> <| h_rawCap := RawCapacity interval |>).

Definition Push (p : Point) (s : Store) : Store :=
  let s := trimRaw (s <| h_raw := h_raw s ++ [p] |>) in
  s <| h_min1 := tier_push (h_min1 s) p |> <| h_min5 := tier_push (h_min5 s) p |>.

Definition Range (now : Time) (span since : Z) (s : Store) : list Point :=
  let cut := cut_before now span in
  let src := if span <=? RawSpan then h_raw s
             else if span <=? Min1Span then tier_all (h_min1 s) else tier_all (h_min5 s) in
  List.filter (fun p => (cut <=? p_TS p) && (since <? p_TS p)) src.

(** What [Save] writes. *)
Definition save_file (s : Store) : file :=
  mkFile format (h_interval s) (h_raw s) (tier_all (h_min1 s)) (tier_all (h_min5 s)).

(** [Save], given the file write ([true]: it succeeded). *)
Definition Save {W} (write : file -> M W bool) (s : Store) : M W (bool * Store) :=
  if String.eqb (h_path s) "" then ret (true, s)
  else
    let* ok := write (save_file s) in
    if ok then ret (true, s) else ret (false, s <| h_saveFailed := true |>).

(** ** Bucket arithmetic *)
Lemma rem_rem_mod x b : 0 < b -> Z.rem (Z.rem x b + b) b = x mod b.
Proof.
  intros Hb. pose proof (Z.rem_bound_abs x b ltac:(lia)) as Hr.
  rewrite Z.rem_mod_nonneg by lia.
  replace (Z.rem x b + b) with (x + (1 - Z.quot x b) * b)
    by (pose proof (Z.quot_rem x b ltac:(lia)); lia).
  by rewrite Z.mod_add by lia.
Qed.

Lemma bucketStart_eq t ts : 0 < t_bucket t -> bucketStart t ts = t_bucket t * (ts / t_bucket t).
Proof.
  intros Hb. unfold bucketStart. rewrite rem_rem_mod by done.
  pose proof (Z.div_mod ts (t_bucket t)). lia.
Qed.

Lemma bucketStart_le t ts : 0 < t_bucket t -> bucketStart t ts <= ts.
Proof.
  intros Hb. rewrite bucketStart_eq by done. pose proof (Z.mul_div_le ts (t_bucket t)). lia.
Qed.

Lemma bucketStart_mono t a b : 0 < t_bucket t -> a <= b -> bucketStart t a <= bucketStart t b.
Proof.
  intros Hb H. rewrite !bucketStart_eq by done.
  apply Z.mul_le_mono_nonneg_l; [lia|]. by apply Z.div_le_mono.
Qed.

(** A bucket start at or before a point is at or before the point's bucket. *)
Lemma bucketStart_aligned t a b : 0 < t_bucket t -> bucketStart t a <= b ->
  bucketStart t a <= bucketStart t b.
Proof.
  intros Hb H. rewrite !bucketStart_eq in * by done.
  apply Z.mul_le_mono_nonneg_l; [lia|]. apply Z.div_le_lower_bound; lia.
Qed.

(** ** Sizes *)
Definition tier_cap (t : tier) : Prop := (length (t_pts t) <= t_capacity t)%nat.

Lemma length_removelast {A} (l : list A) : length (removelast l) = Nat.pred (length l).
Proof. induction l as [|a [|b l] IH]; [done..|]. cbn in *. by rewrite IH. Qed.

Lemma closeOpen_fields t :
  t_bucket (closeOpen t) = t_bucket t /\ t_span (closeOpen t) = t_span t /\
  t_capacity (closeOpen t) = t_capacity t.
Proof. unfold closeOpen. by destruct (t_open t). Qed.

Lemma open_bucket_fields t start p :
  t_bucket (open_bucket t start p) = t_bucket t /\ t_span (open_bucket t start p) = t_span t /\
  t_capacity (open_bucket t start p) = t_capacity t.
Proof. unfold open_bucket. by repeat case_match. Qed.

Lemma tier_push_fields t p :
  t_bucket (tier_push t p) = t_bucket t /\ t_span (tier_push t p) = t_span t /\
  t_capacity (tier_push t p) = t_capacity t.
Proof.
  unfold tier_push. pose proof (closeOpen_fields t). repeat case_match; cbn; try done.
  - destruct (open_bucket_fields (closeOpen t) (bucketStart t (p_TS p)) p) as (-> & -> & ->).
    apply closeOpen_fields.
  - apply open_bucket_fields.
Qed.

Lemma closeOpen_cap t : tier_cap t -> tier_cap (closeOpen t).
Proof.
  unfold closeOpen, tier_cap. destruct (t_open t); [|done]. cbn. rewrite keep_last_length. lia.
Qed.

Lemma open_bucket_cap t start p : tier_cap t -> tier_cap (open_bucket t start p).
Proof.
  unfold open_bucket, tier_cap. repeat case_match; cbn; try done.
  rewrite length_removelast. lia.
Qed.

Lemma tier_push_cap t p : tier_cap t -> tier_cap (tier_push t p).
Proof.
  unfold tier_push. intros H. repeat case_match; cbn; try done.
  - by apply open_bucket_cap, closeOpen_cap.
  - by apply open_bucket_cap.
Qed.

Lemma fold_push_cap ps t : tier_cap t -> tier_cap (fold_left tier_push ps t).
Proof. revert t. induction ps; cbn; auto using tier_push_cap. Qed.

Lemma fold_push_fields ps t :
  t_bucket (fold_left tier_push ps t) = t_bucket t /\
  t_span (fold_left tier_push ps t) = t_span t /\
  t_capacity (fold_left tier_push ps t) = t_capacity t.
Proof.
  revert t. induction ps as [|p ps IH]; intros t; [done|]. cbn [fold_left].
  destruct (IH (tier_push t p)) as (-> & -> & ->). apply tier_push_fields.
Qed.

Lemma tier_load_cap t pts now raw : tier_cap (tier_load t pts now raw).
Proof.
  unfold tier_load. set (kept := keep_last _ _).
  assert (Hk : (length kept <= t_capacity t)%nat) by (unfold kept; rewrite keep_last_length; lia).
  destruct (last kept); [|done].
  apply fold_push_cap. case_match; unfold tier_cap; cbn; [rewrite length_removelast|]; lia.
Qed.

Lemma tier_load_capacity t pts now raw : t_capacity (tier_load t pts now raw) = t_capacity t.
Proof.
  unfold tier_load. destruct (last _); [|done]. cbn zeta.
  match goal with |- t_capacity (fold_left _ ?l ?t0) = _ =>
    destruct (fold_push_fields l t0) as (_ & _ & ->) end.
  by case_match.
Qed.

Record store_caps (s : Store) : Prop := {
  sc_raw : (length (h_raw s) <= Z.to_nat (h_rawCap s))%nat;
  sc_rawCap : 1 <= h_rawCap s;
  sc_min1 : tier_cap (h_min1 s) /\ t_capacity (h_min1 s) = 1440%nat;
  sc_min5 : tier_cap (h_min5 s) /\ t_capacity (h_min5 s) = 2016%nat }.

Lemma RawCapacity_pos i : 1 <= RawCapacity i.
Proof. unfold RawCapacity. repeat case_match; lia. Qed.

Lemma trimRaw_caps s :
  1 <= h_rawCap s -> tier_cap (h_min1 s) /\ t_capacity (h_min1 s) = 1440%nat ->
  tier_cap (h_min5 s) /\ t_capacity (h_min5 s) = 2016%nat -> store_caps (trimRaw s).
Proof.
  intros. split; try done. cbn. rewrite keep_last_length. lia.
Qed.

Lemma Push_caps p s : store_caps s -> store_caps (Push p s).
Proof.
  intros [Hr Hc [H1 C1] [H5 C5]]. unfold Push. split; cbn.
  - rewrite keep_last_length. lia.
  - done.
  - split; [by apply tier_push_cap|]. destruct (tier_push_fields (h_min1 s) p) as (_ & _ & ->). done.
  - split; [by apply tier_push_cap|]. destruct (tier_push_fields (h_min5 s) p) as (_ & _ & ->). done.
Qed.

Lemma SetInterval_caps i s : store_caps s -> store_caps (SetInterval i s).
Proof. intros [??[??][??]]. apply trimRaw_caps; cbn; auto. apply RawCapacity_pos. Qed.

Lemma Load_caps content now s : store_caps s -> store_caps (Load content now s).
Proof.
  intros Hs. unfold Load. destruct (String.eqb _ _); [done|]. destruct content as [f|]; [|done].
  destruct (negb _); [done|]. destruct Hs as [Hr Hc [H1 C1] [H5 C5]]. split; cbn.
  - rewrite keep_last_length. lia.
  - done.
  - split; [apply tier_load_cap|]. by rewrite tier_load_capacity.
  - split; [apply tier_load_cap|]. by rewrite tier_load_capacity.
Qed.

Lemma New_caps path i content now : store_caps (New path i content now).
Proof.
  apply Load_caps. split; cbn; [lia|apply RawCapacity_pos|split; [|done]|split; [|done]];
    unfold tier_cap; cbn; lia.
Qed.
#[export] Hint Resolve Push_caps SetInterval_caps Load_caps New_caps : fangov.

(** ** Order: one point per bucket, oldest first *)
Definition stamps (ps : list Point) : list Z := map p_TS ps.
Definition tier_sorted (t : tier) : Prop :=
  StronglySorted Z.lt (stamps (tier_all t)) /\ (0 < t_capacity t)%nat /\ 0 < t_bucket t.

Lemma StronglySorted_snoc (l : list Z) x :
  StronglySorted Z.lt (l ++ [x]) <-> StronglySorted Z.lt l /\ Forall (fun y => y < x) l.
Proof.
  induction l as [|a l IH]; cbn.
  - split; [|repeat constructor]. intros _. repeat constructor.
  - split.
    + intros [Hs Hf]%StronglySorted_inv. apply IH in Hs as [Hs Hl].
      apply Forall_app in Hf as [Hf Hx]. inversion_clear Hx.
      split; constructor; auto.
    + intros [[Hs Hf]%StronglySorted_inv Hl]. inversion_clear Hl.
      constructor; [by apply IH|]. apply Forall_app. auto.
Qed.

Lemma stamps_app a b : stamps (a ++ b) = stamps a ++ stamps b.
Proof. apply map_app. Qed.

Lemma stamps_keep_last n l : stamps (keep_last n l) = keep_last n (stamps l).
Proof. unfold stamps, keep_last. by rewrite skipn_map, length_map. Qed.

Lemma StronglySorted_keep_last n (l : list Z) :
  StronglySorted Z.lt l -> StronglySorted Z.lt (keep_last n l).
Proof.
  unfold keep_last. generalize (length l - n)%nat. intros k. revert l.
  induction k as [|k IH]; intros l Hs; [done|]. destruct l; [done|].
  cbn. apply IH. by apply StronglySorted_inv in Hs as [? _].
Qed.

Lemma last_snoc_split {A} (l : list A) x : last l = Some x -> l = removelast l ++ [x].
Proof.
  intros H. apply last_Some in H as [l' ->]. by rewrite removelast_last.
Qed.

Lemma keep_last_snoc {A} n (l : list A) x :
  (0 < n)%nat -> keep_last n (l ++ [x]) = keep_last (n - 1) l ++ [x].
Proof.
  intros Hn. unfold keep_last. rewrite length_app. cbn.
  replace (length l + 1 - n)%nat with (length l - (n - 1))%nat by lia.
  rewrite drop_app_le by lia. done.
Qed.

Lemma open_bucket_stamps t start p :
  t_open t = None -> StronglySorted Z.lt (stamps (t_pts t)) ->
  StronglySorted Z.lt (stamps (tier_all (open_bucket t start p))).
Proof.
  intros Ho Hs. unfold open_bucket. destruct (last (t_pts t)) as [lst|] eqn:El.
  - apply last_snoc_split in El as Hl. destruct (start <=? p_TS lst) eqn:E.
    + cbn. rewrite stamps_app. cbn. rewrite Hl, stamps_app in Hs. exact Hs.
    + cbn. rewrite stamps_app. apply StronglySorted_snoc. split; [done|].
      rewrite Hl, stamps_app in Hs |- *. apply StronglySorted_snoc in Hs as [_ Hf].
      apply Forall_app. split; [|repeat constructor; cbn; lia].
      eapply Forall_impl; [exact Hf|]. cbn. lia.
  - apply last_None in El. unfold tier_all. cbn. rewrite El. cbn. repeat constructor.
Qed.

Lemma tier_push_sorted t p : tier_sorted t -> tier_sorted (tier_push t p).
Proof.
  intros (Hs & Hc & Hb). destruct (tier_push_fields t p) as (E1 & _ & E2).
  unfold tier_sorted. rewrite E1, E2. split; [|done].
  unfold tier_push. unfold tier_all in Hs. destruct (t_open t) as [a|] eqn:Ho.
  - rewrite stamps_app in Hs. destruct (a_start a <? bucketStart t (p_TS p)) eqn:E.
    + apply open_bucket_stamps; unfold closeOpen; rewrite Ho; cbn; [done|].
      rewrite stamps_keep_last, stamps_app. by apply StronglySorted_keep_last.
    + cbn. by rewrite stamps_app.
  - by apply open_bucket_stamps.
Qed.

Lemma fold_push_sorted ps t : tier_sorted t -> tier_sorted (fold_left tier_push ps t).
Proof. revert t. induction ps; cbn; auto using tier_push_sorted. Qed.

(** ** Means stay between the pushed values *)
Section Means.
Context (lo hi : Z).
Hypothesis Hlo : 0 <= lo.
Hypothesis Hhi : lo <= hi <= 2 ^ 16.

(** A sum of at most [k] known values between [lo] and [hi]. *)
Definition sum_ok (k : Z) (s : sum) : Prop :=
  exists T, s_total s = inject_Z T /\ 1 <= s_n s <= k /\ lo * s_n s <= T <= hi * s_n s.

Lemma sum_ok_mono k k' s : k <= k' -> sum_ok k s -> sum_ok k' s.
Proof. intros Hk (T & ? & ? & ?). exists T. split_and!; lia || done. Qed.

Lemma sum_add_ok k s v :
  k < 2 ^ 32 -> (s = sum0 \/ sum_ok k s) -> 0 <= k -> lo <= v <= hi ->
  sum_ok (k + 1) (sum_add s (of_int v)).
Proof using Hlo Hhi.
  intros Hk Hs Hk0 Hv. unfold sum_add, fadd. rewrite of_int_exact by lia.
  destruct Hs as [->|(T & HT & Hn & Hb)].
  - exists v. cbn. rewrite Qplus_0_l, round64_int_eq by lia. split_and!; lia || done.
  - exists (T + v). cbn [s_total s_n]. rewrite HT.
    rewrite <- inject_Z_plus, round64_int_eq by nia. split_and!; nia || done.
Qed.

Lemma int_mean_between k s : k < 2 ^ 32 -> sum_ok k s -> lo <= int_mean s <= hi.
Proof using Hlo Hhi.
  intros Hk (T & HT & Hn & Hb). unfold int_mean, mean, fdiv.
  rewrite HT, of_int_exact by lia.
  assert (Hpos : (0 < inject_Z (s_n s))%Q)
    by (change 0%Q with (inject_Z 0); rewrite <- Zlt_Qlt; lia).
  assert (H : (inject_Z lo <= inject_Z T / inject_Z (s_n s) <= inject_Z hi)%Q).
  { split.
    - apply Qle_shift_div_l; [done|]. rewrite <- inject_Z_mult, <- Zle_Qle. lia.
    - apply Qle_shift_div_r; [done|]. rewrite <- inject_Z_mult, <- Zle_Qle. lia. }
  destruct H as [H1 H2].
  assert (Hr : (inject_Z lo <= round64 (inject_Z T / inject_Z (s_n s)) <= inject_Z hi)%Q)
    by (apply round64_between; lia || done).
  pose proof (fround_int_between lo hi (round64 (inject_Z T / inject_Z (s_n s)))) as Hf.
  destruct Hf as [Hf1 Hf2]; [tauto|tauto|].
  split.
  - rewrite <- (to_int_inject lo). by apply to_int_le.
  - rewrite <- (to_int_inject hi). by apply to_int_le.
Qed.
End Means.

Section DutyMeans.
Context (key : string) (lo hi : Z).
Hypothesis Hlo : 0 <= lo.
Hypothesis Hhi : lo <= hi <= 2 ^ 16.

Definition point_between (p : Point) : Prop :=
  forall d, p_Duty p !! key = Some d -> lo <= d <= hi.
(** A pushed point may carry the "unknown" marker. *)
Definition pushed_between (p : Point) : Prop :=
  forall d, p_Duty p !! key = Some d -> d < 0 \/ lo <= d <= hi.
Definition acc_between (k : Z) (a : acc) : Prop :=
  forall s, a_duty a !! key = Some s -> sum_ok lo hi k s.
Definition tier_between (k : Z) (t : tier) : Prop :=
  0 <= k /\ Forall point_between (t_pts t) /\
  match t_open t with Some a => acc_between k a | None => True end.

Lemma add_all_lookup a m (i : string) :
  add_all a m !! i = match m !! i with
                     | Some v => Some (sum_add (default sum0 (a !! i)) v)
                     | None => a !! i
                     end.
Proof.
  unfold add_all. rewrite lookup_merge. unfold diag_None, add_entry.
  by destruct (a !! i), (m !! i).
Qed.

Lemma acc_add_between k a p :
  0 <= k < 2 ^ 32 -> acc_between k a -> pushed_between p -> acc_between (k + 1) (acc_add a p).
Proof using Hlo Hhi.
  intros Hk Ha Hp s. cbn [acc_add a_duty]. rewrite add_all_lookup. unfold known_duties.
  rewrite lookup_omap. destruct (p_Duty p !! key) as [d|] eqn:Ed; cbn.
  - destruct (d <? 0) eqn:E.
    + intros Hs. eapply sum_ok_mono; [|by apply Ha]. lia.
    + intros [= <-]. destruct (Hp d Ed) as [?|?]; [lia|].
      apply sum_add_ok; try done; try lia.
      destruct (a_duty a !! key) as [s0|] eqn:Es; cbn; [right; by apply Ha|by left].
  - intros Hs. eapply sum_ok_mono; [|by apply Ha]. lia.
Qed.

Lemma newAcc_between k start : acc_between k (newAcc start).
Proof. intros s. cbn. by rewrite lookup_empty. Qed.

Lemma point_pushed p : point_between p -> pushed_between p.
Proof. intros H d Hd. right. by apply H. Qed.

Lemma acc_point_between k a : k < 2 ^ 32 -> acc_between k a -> point_between (acc_point a).
Proof using Hlo Hhi.
  intros Hk Ha d. cbn. rewrite lookup_fmap.
  destruct (a_duty a !! key) as [s|] eqn:Es; cbn; [|done]. intros [= <-].
  by eapply int_mean_between; [..|apply Ha].
Qed.

Lemma removelast_Forall (P : Point -> Prop) l : Forall P l -> Forall P (removelast l).
Proof. induction 1 as [|x l Hx Hl IH]; cbn; [constructor|]. destruct l; auto. Qed.

Lemma open_bucket_between k t start p :
  k + 2 < 2 ^ 32 -> tier_between k t -> t_open t = None -> pushed_between p ->
  tier_between (k + 2) (open_bucket t start p).
Proof using Hlo Hhi.
  intros Hk (Hk0 & Hp & _) Ho Hpb. unfold open_bucket.
  assert (Hfresh : forall st, acc_between (k + 2) (acc_add (newAcc st) p)).
  { intros st. replace (k + 2) with (k + 1 + 1) by lia. apply acc_add_between; [lia| |done].
    apply newAcc_between. }
  destruct (last (t_pts t)) as [lst|] eqn:El; [destruct (start <=? p_TS lst)|];
    split_and!; cbn; try done; try lia; try apply Hfresh.
  - by apply removelast_Forall.
  - replace (k + 2) with (k + 1 + 1) by lia. apply acc_add_between; [lia| |done].
    apply acc_add_between; [lia|apply newAcc_between|]. apply point_pushed.
    apply last_Some in El as [l' El]. rewrite El in Hp.
    apply Forall_app in Hp as [_ Hp]. by inversion_clear Hp.
Qed.

Lemma closeOpen_between k t : k < 2 ^ 32 -> tier_between k t -> tier_between k (closeOpen t).
Proof using Hlo Hhi.
  intros Hk (Hk0 & Hp & Ha). unfold closeOpen. destruct (t_open t) as [a|] eqn:Ho.
  - split_and!; cbn; [done| |done]. apply keep_last_Forall, Forall_app. split; [done|].
    constructor; [by eapply acc_point_between|constructor].
  - split_and!; try done. by rewrite Ho.
Qed.

Lemma tier_push_between k t p :
  k + 2 < 2 ^ 32 -> tier_between k t -> pushed_between p -> tier_between (k + 2) (tier_push t p).
Proof using Hlo Hhi.
  intros Hk Ht Hp. unfold tier_push. destruct Ht as (Hk0 & Hps & Ha).
  destruct (t_open t) as [a|] eqn:Ho.
  - destruct (_ <? _).
    + apply open_bucket_between; try done.
      * apply closeOpen_between; [lia|]. split_and!; try done. by rewrite Ho.
      * unfold closeOpen. by rewrite Ho.
    + split_and!; cbn; try done; try lia. replace (k + 2) with (k + 1 + 1) by lia.
      intros s Hs. apply (sum_ok_mono _ _ (k + 1)); [lia|].
      apply (acc_add_between k a p); [lia|done|done|exact Hs].
  - apply open_bucket_between; try done. split_and!; try done. by rewrite Ho.
Qed.

Lemma fold_push_between ps : forall k t,
  k + 2 * Z.of_nat (length ps) < 2 ^ 32 -> tier_between k t -> Forall pushed_between ps ->
  tier_between (k + 2 * Z.of_nat (length ps)) (fold_left tier_push ps t).
Proof using Hlo Hhi.
  induction ps as [|p ps IH]; intros k t Hk Ht Hp; cbn [length] in *.
  - by replace (k + 2 * Z.of_nat 0) with k by lia.
  - inversion_clear Hp. cbn [fold_left].
    replace (k + 2 * Z.of_nat (S (length ps))) with (k + 2 + 2 * Z.of_nat (length ps)) by lia.
    apply IH; [lia| |done]. apply tier_push_between; [lia|done..].
Qed.

Lemma tier_all_between k t : k < 2 ^ 32 -> tier_between k t -> Forall point_between (tier_all t).
Proof using Hlo Hhi.
  intros Hk (Hk0 & Hp & Ha). unfold tier_all. destruct (t_open t) as [a|]; [|done].
  apply Forall_app. split; [done|]. constructor; [by eapply acc_point_between|constructor].
Qed.
End DutyMeans.

(** ** A store that was saved and loaded is the store *)
Section RoundTrip.
(** [t] after pushing [ps] in time order into an empty tier: the open bucket
    holds exactly the points from its start on. *)
Record tier_of (t : tier) (ps : list Point) : Prop := {
  to_bucket : 0 < t_bucket t;
  to_open : match t_open t with
            | None => ps = [] /\ t_pts t = []
            | Some a =>
                let later := List.filter (fun p => a_start a <=? p_TS p) ps in
                later <> [] /\ a = fold_left acc_add later (newAcc (a_start a)) /\
                Forall (fun p => bucketStart t (p_TS p) <= a_start a) ps /\
                (exists ts, a_start a = bucketStart t ts) /\
                Forall (fun q => p_TS q < a_start a) (t_pts t)
            end }.

Lemma acc_start_fold ps a : a_start (fold_left acc_add ps a) = a_start a.
Proof. revert a. induction ps as [|p ps IH]; intros a; [done|]. cbn. by rewrite IH. Qed.

Lemma filter_snoc {A} (f : A -> bool) l x :
  List.filter f (l ++ [x]) = List.filter f l ++ (if f x then [x] else []).
Proof. induction l as [|a l IH]; cbn; [by destruct (f x)|]. destruct (f a); cbn; by rewrite IH. Qed.

Lemma filter_none {A} (f : A -> bool) l : Forall (fun x => f x = false) l -> List.filter f l = [].
Proof. induction 1 as [|x l Hx _ IH]; cbn; [done|]. by rewrite Hx. Qed.

Lemma filter_all {A} (f : A -> bool) l : Forall (fun x => f x = true) l -> List.filter f l = l.
Proof. induction 1 as [|x l Hx _ IH]; cbn; [done|]. by rewrite Hx, IH. Qed.

(** A point later than the open bucket starts a fresh one. *)
Lemma fresh_of t ps p pts :
  0 < t_bucket t ->
  Forall (fun q => bucketStart t (p_TS q) < bucketStart t (p_TS p)) ps ->
  Forall (fun q => p_TS q < bucketStart t (p_TS p)) pts ->
  tier_of (mkTier (t_bucket t) (t_span t) (t_capacity t) pts
             (Some (acc_add (newAcc (bucketStart t (p_TS p))) p))) (ps ++ [p]).
Proof.
  intros Hb Hps Hpts. pose proof (bucketStart_le t (p_TS p) Hb).
  set (start := bucketStart t (p_TS p)) in *.
  split; [done|]. cbn [t_open t_pts acc_add a_start newAcc].
  assert (Hf : List.filter (fun q => start <=? p_TS q) (ps ++ [p]) = [p]).
  { rewrite filter_snoc, filter_none; [by rewrite (proj2 (Z.leb_le _ _))|].
    eapply Forall_impl; [exact Hps|]. intros q Hq. cbn in Hq. apply Z.leb_gt.
    destruct (Z.le_gt_cases start (p_TS q)) as [Hc|]; [|done].
    apply bucketStart_aligned in Hc; [unfold start in *; lia|done]. }
  rewrite Hf. split_and!; try done.
  - apply Forall_app. split.
    + eapply Forall_impl; [exact Hps|]. intros q Hq. unfold bucketStart in *. cbn in *. lia.
    + constructor; [|constructor]. unfold start, bucketStart. cbn. lia.
  - by exists (p_TS p).
Qed.

(** A point of the open bucket joins it. *)
Lemma join_of t ps p a :
  tier_of t ps -> t_open t = Some a -> bucketStart t (p_TS p) <= a_start a ->
  Forall (fun q => p_TS q <= p_TS p) ps ->
  tier_of (t <| t_open := Some (acc_add a p) |>) (ps ++ [p]).
Proof.
  intros [Hb Ho] Eo Hj Hle. rewrite Eo in Ho. destruct Ho as (Hne & Ha & Hall & [ts Hts] & Hpts).
  split; [done|]. cbn [t_open upd t_pts acc_add a_start].
  assert (Hbp : a_start a <= p_TS p).
  { destruct (List.filter (fun q => a_start a <=? p_TS q) ps) as [|q qs] eqn:Ef; [done|].
    assert (In q (q :: qs)) as Hq by by left. rewrite <- Ef in Hq.
    apply filter_In in Hq as [Hq1 Hq2]. apply list_elem_of_In in Hq1.
    pose proof (proj1 (Forall_forall _ _) Hle q Hq1). cbn in *. lia. }
  cbn zeta in *. rewrite filter_snoc, (proj2 (Z.leb_le _ _) Hbp). split_and!; try done.
  - by destruct (List.filter _ ps).
  - rewrite fold_left_app. cbn [fold_left]. by rewrite <- Ha.
  - apply Forall_app. split; [done|]. constructor; [exact Hj|constructor].
  - by exists ts.
Qed.

Lemma tier_push_of t ps p :
  tier_of t ps -> Forall (fun q => p_TS q <= p_TS p) ps -> tier_of (tier_push t p) (ps ++ [p]).
Proof.
  intros Ht Hle. pose proof Ht as [Hb Ho]. unfold tier_push.
  destruct (t_open t) as [a|] eqn:Eo; [destruct (a_start a <? bucketStart t (p_TS p)) eqn:E|].
  - destruct Ho as (_ & _ & Hall & _ & Hpts).
    assert (Hl : Forall (fun q => p_TS q < bucketStart t (p_TS p)) (t_pts (closeOpen t))).
    { unfold closeOpen. rewrite Eo. cbn. apply keep_last_Forall, Forall_app. split.
      - eapply Forall_impl; [exact Hpts|]. cbn. lia.
      - constructor; [cbn; lia|constructor]. }
    assert (Hnew : tier_of (upd t_open (fun _ => Some (acc_add (newAcc (bucketStart t (p_TS p))) p))
                              (closeOpen t)) (ps ++ [p])).
    { unfold closeOpen in *. rewrite Eo in *. refine (fresh_of t ps p _ Hb _ Hl).
      eapply Forall_impl; [exact Hall|]. cbn. lia. }
    unfold open_bucket. destruct (last (t_pts (closeOpen t))) as [lst|] eqn:El; [|done].
    apply last_Some in El as [l' El]. rewrite El in Hl.
    apply Forall_app in Hl as [_ Hl]. inversion_clear Hl.
    by rewrite (proj2 (Z.leb_gt _ _)) by done.
  - apply (join_of t ps p a); [done..|lia|done].
  - destruct Ho as [-> Hp]. unfold open_bucket. rewrite Hp.
    pose proof (fresh_of t [] p (t_pts t) Hb) as Hf. rewrite Hp in Hf.
    unfold upd. cbn. rewrite Hp. apply Hf; constructor.
Qed.

Lemma fold_push_of ps : forall t qs,
  tier_of t qs -> StronglySorted Z.le (stamps (qs ++ ps)) ->
  tier_of (fold_left tier_push ps t) (qs ++ ps).
Proof.
  induction ps as [|p ps IH]; intros t qs Ht Hs; cbn [fold_left].
  - by rewrite app_nil_r.
  - replace (qs ++ p :: ps) with ((qs ++ [p]) ++ ps) in * by by rewrite <- app_assoc.
    apply IH; [|done]. apply tier_push_of; [done|].
    unfold stamps in Hs. rewrite !map_app in Hs. clear -Hs.
    induction qs as [|q qs IH]; [constructor|]. cbn in Hs.
    apply StronglySorted_inv in Hs as [Hs Hf]. constructor; [|by apply IH].
    rewrite !Forall_app in Hf. destruct Hf as [[_ Hf] _]. by inversion_clear Hf.
Qed.

(** Pushing points of the open bucket into it folds them into its sums. *)
Lemma fold_push_join qs : forall t a,
  t_open t = Some a -> Forall (fun q => bucketStart t (p_TS q) <= a_start a) qs ->
  fold_left tier_push qs t = t <| t_open := Some (fold_left acc_add qs a) |>.
Proof.
  induction qs as [|q qs IH]; intros t a Ho Hq; cbn [fold_left].
  - destruct t; cbn in *. by subst.
  - inversion_clear Hq. unfold tier_push at 2. rewrite Ho.
    rewrite (proj2 (Z.ltb_ge _ _)) by done. rewrite (IH _ (acc_add a q)); [done..|].
    eapply Forall_impl; [eassumption|]. intros x Hx. exact Hx.
Qed.

Lemma tier_reload t0 t ps raw now :
  tier_of t ps ->
  t_bucket t0 = t_bucket t -> t_span t0 = t_span t -> t_capacity t0 = t_capacity t ->
  (length (tier_all t) <= t_capacity t)%nat ->
  Forall (fun p => cut_before now (t_span t) <= p_TS p) (tier_all t) ->
  (forall a, t_open t = Some a ->
     List.filter (fun p => a_start a <=? p_TS p) raw =
     List.filter (fun p => a_start a <=? p_TS p) ps) ->
  tier_load t0 (tier_all t) now raw = t.
Proof.
  intros [Hb Ho] Eb Es Ec Hlen Hcut Hraw. unfold tier_load.
  assert (keep_last (t_capacity t0) (keepSince (tier_all t) (cut_before now (t_span t0)))
          = tier_all t) as ->.
  { rewrite Es, Ec. unfold keepSince. rewrite filter_all, keep_last_all; [done|done|].
    eapply Forall_impl; [exact Hcut|]. intros p Hp. by apply Z.leb_le. }
  destruct t0 as [b0 s0 c0 pts0 op0], t as [b s c pts op]. cbn in *. subst.
  unfold tier_all in *. cbn in *. destruct op as [a|]; [|by destruct Ho as [_ ->]].
  rewrite last_snoc. cbn [acc_point p_TS].
  destruct Ho as (Hne & Ha & Hall & [ts Hts] & Hpts). cbn [t_pts] in *.
  rewrite (Hraw a eq_refl).
  set (later := List.filter (fun p => a_start a <=? p_TS p) ps) in *.
  assert (Hbs : Forall (fun p => bucketStart (mkTier b s c pts (Some a)) (p_TS p) = a_start a) later).
  { apply Forall_forall. intros p Hp. apply list_elem_of_In, filter_In in Hp as [Hp1 Hp2].
    apply list_elem_of_In in Hp1. pose proof (proj1 (Forall_forall _ _) Hall p Hp1) as H1.
    cbn in H1. rewrite Hts in Hp2 |- *. apply Z.leb_le, bucketStart_aligned in Hp2; [lia|done]. }
  destruct later as [|p later]; [done|]. inversion_clear Hbs as [|? ? Hp Hbs']. cbn [existsb].
  change (bucketStart _ (p_TS p)) with (bucketStart (mkTier b s c pts (Some a)) (p_TS p)).
  rewrite Hp, Z.eqb_refl. cbn [orb fold_left upd]. rewrite removelast_last.
  unfold tier_push at 2. cbn [t_open].
  change (bucketStart _ (p_TS p)) with (bucketStart (mkTier b s c pts (Some a)) (p_TS p)).
  rewrite Hp. unfold open_bucket. cbn [t_pts].
  assert (Hop : match last pts with
                | Some lst => (a_start a <=? p_TS lst) = false
                | None => True end).
  { destruct (last pts) as [lst|] eqn:El; [|done]. apply last_Some in El as [l' ->].
    apply Forall_app in Hpts as [_ Hl]. inversion_clear Hl. by apply Z.leb_gt. }
  cbn [upd t_pts] in *.
  destruct (last pts) as [lst|]; [rewrite Hop|]; unfold upd; cbn [t_bucket t_span t_capacity t_pts].
  all: rewrite (fold_push_join later _ (acc_add (newAcc (a_start a)) p));
    [unfold upd; cbn; by rewrite Ha at 2|done|].
  all: eapply Forall_impl; [exact Hbs'|]; intros x Hx; cbn in Hx |- *;
    unfold bucketStart in *; cbn in *; lia.
Qed.
End RoundTrip.

(** ** The store over a run *)
Definition push_all (ps : list Point) (s : Store) : Store := fold_left (fun s p => Push p s) ps s.

Lemma keep_last_keep_last {A} n (l : list A) x :
  keep_last n (keep_last n l ++ [x]) = keep_last n (l ++ [x]).
Proof.
  unfold keep_last. rewrite !length_app, length_drop. cbn [length].
  destruct n as [|n].
  { rewrite !drop_ge; [done|..]; rewrite ?length_app, ?length_drop; cbn; lia. }
  rewrite !drop_app_le by (rewrite ?length_drop; lia). rewrite drop_drop. do 2 f_equal. lia.
Qed.

Lemma keep_last_nil {A} n : keep_last n ([] : list A) = [].
Proof. unfold keep_last. apply drop_nil. Qed.

Lemma push_all_fields ps s l :
  h_raw s = keep_last (Z.to_nat (h_rawCap s)) l ->
  push_all ps s = mkStore (h_path s) (h_interval s) (keep_last (Z.to_nat (h_rawCap s)) (l ++ ps))
    (h_rawCap s) (fold_left tier_push ps (h_min1 s)) (fold_left tier_push ps (h_min5 s))
    (h_saveFailed s).
Proof.
  revert s l. induction ps as [|p ps IH]; intros s l Hr; cbn [push_all fold_left].
  - rewrite app_nil_r, <- Hr. by destruct s.
  - fold (push_all ps (Push p s)). rewrite (IH _ (l ++ [p])).
    + unfold Push, trimRaw, upd. cbn. by rewrite <- app_assoc.
    + unfold Push, trimRaw, upd. cbn. by rewrite Hr, keep_last_keep_last.
Qed.

Lemma tier_of_empty t : 0 < t_bucket t -> t_pts t = [] -> t_open t = None -> tier_of t [].
Proof. intros Hb Hp Ho. split; [done|]. by rewrite Ho. Qed.

(** What a reload needs: nothing the file holds is out of its span or over
    capacity, and the raw tier still covers the open buckets. *)
Record restorable (now : Time) (ps : list Point) (s : Store) : Prop := {
  rs_raw : Forall (fun p => cut_before now RawSpan <= p_TS p) (h_raw s);
  rs_min1 : Forall (fun p => cut_before now Min1Span <= p_TS p) (tier_all (h_min1 s)) /\
            (length (tier_all (h_min1 s)) <= 1440)%nat;
  rs_min5 : Forall (fun p => cut_before now Min5Span <= p_TS p) (tier_all (h_min5 s)) /\
            (length (tier_all (h_min5 s)) <= 2016)%nat;
  rs_open : forall t a, t = h_min1 s \/ t = h_min5 s -> t_open t = Some a ->
            Forall (fun p => p_TS p < a_start a) (take (length ps - length (h_raw s)) ps) }.

Lemma raw_covers (start : Z) n (ps : list Point) :
  Forall (fun p => p_TS p < start) (take (length ps - length (keep_last n ps)) ps) ->
  List.filter (fun p => start <=? p_TS p) (keep_last n ps) =
  List.filter (fun p => start <=? p_TS p) ps.
Proof.
  rewrite keep_last_length. intros H.
  trans (List.filter (fun p => start <=? p_TS p)
           (take (length ps - n) ps ++ drop (length ps - n) ps)); [|by rewrite take_drop].
  rewrite List.filter_app, (filter_none _ (take _ _)); [done|].
  replace (length ps - Nat.min n (length ps))%nat with (length ps - n)%nat in H by lia.
  eapply Forall_impl; [exact H|]. intros p Hp. cbn in Hp. by apply Z.leb_gt.
Qed.

Lemma push_all_tiers ps path interval :
  StronglySorted Z.le (stamps ps) ->
  let s := push_all ps (empty_store path interval) in
  tier_of (h_min1 s) ps /\ tier_of (h_min5 s) ps /\
  h_raw s = keep_last (Z.to_nat (RawCapacity interval)) ps.
Proof.
  intros Hs s. unfold s. rewrite (push_all_fields ps (empty_store path interval) [])
    by (cbn; by rewrite keep_last_nil).
  cbn. split_and!; [..|done]; apply (fold_push_of ps _ []); try done; by apply tier_of_empty.
Qed.

(** saving and loading the history loses nothing.  For every sequence of
    points pushed in time order (from the start of the daemon), if what the file
    holds is still inside the tier spans and capacities and the raw tier still
    covers the open buckets, then [New] on the file [Save] wrote rebuilds exactly
    the saved store: raw points, closed means and the running sums of the open
    one- and five-minute buckets, so a restart inside a bucket continues its mean. *)
Theorem history_reload path interval ps now :
  path <> ""%string -> StronglySorted Z.le (stamps ps) ->
  let s := push_all ps (empty_store path interval) in
  restorable now ps s -> New path interval (Some (save_file s)) now = s.
Proof.
  intros Hp Hs s [R0 [R1 L1] [R5 L5] Ro].
  destruct (push_all_tiers ps path interval Hs) as (T1 & T5 & Hr). fold s in T1, T5, Hr.
  pose proof (push_all_fields ps (empty_store path interval) []
    ltac:(cbn; by rewrite keep_last_nil)) as Hf. fold s in Hf.
  unfold New, Load. cbn [h_path empty_store]. rewrite (proj2 (String.eqb_neq _ _)) by done.
  cbn [save_file f_Format f_Raw f_Min1 f_Min5].
  assert (HF1 := fold_push_fields ps (h_min1 (empty_store path interval))).
  assert (HF5 := fold_push_fields ps (h_min5 (empty_store path interval))).
  unfold keepSince. rewrite (filter_all _ (h_raw s)).
  2:{ eapply Forall_impl; [exact R0|]. intros p H. by apply Z.leb_le. }
  assert (Hkr : keep_last (Z.to_nat (RawCapacity interval)) (h_raw s) = h_raw s).
  { apply keep_last_all. rewrite Hr, keep_last_length. lia. }
  assert (Hcov : forall t a, t = h_min1 s \/ t = h_min5 s -> t_open t = Some a ->
    List.filter (fun p => a_start a <=? p_TS p) (h_raw s) =
    List.filter (fun p => a_start a <=? p_TS p) ps).
  { intros t a Ht Ha. pose proof (Ro t a Ht Ha) as H. rewrite Hr in H |- *. by apply raw_covers. }
  rewrite Hf in T1, T5, R1, R5, L1, L5, Hcov |- *. cbn in HF1, HF5, T1, T5, Hcov.
  destruct HF1 as (B1 & S1 & C1), HF5 as (B5 & S5 & C5).
  unfold upd, trimRaw. cbn. unfold upd. cbn. rewrite <- Hr, Hkr.
  assert (Hcov' : forall t, t = fold_left tier_push ps (h_min1 (empty_store path interval)) \/
      t = fold_left tier_push ps (h_min5 (empty_store path interval)) ->
    forall a, t_open t = Some a ->
    List.filter (fun p => a_start a <=? p_TS p) (h_raw s) =
    List.filter (fun p => a_start a <=? p_TS p) ps) by (rewrite Hr; intros; by eapply Hcov).
  f_equal.
  - apply (tier_reload _ _ ps); [exact T1|exact (eq_sym B1)|exact (eq_sym S1)|exact (eq_sym C1)
      |rewrite C1; exact L1|rewrite S1; exact R1|]. apply Hcov'. by left.
  - apply (tier_reload _ _ ps); [exact T5|exact (eq_sym B5)|exact (eq_sym S5)|exact (eq_sym C5)
      |rewrite C5; exact L5|rewrite S5; exact R5|]. apply Hcov'. by right.
Qed.

(** A run where the hypotheses of the reload hold: three points, two of them in
    one minute. *)
Definition sample_point (ts d : Z) : Point :=
  mkPoint ts {["cpu" := of_int 40]} {["cpu" := d]} ∅ ∅.
Definition sample_points : list Point :=
  [sample_point 100010 80; sample_point 100020 90; sample_point 100075 (-1)].
Definition sample_now : Time := mkTime 0 (100080 * Second).

Lemma history_reload_witness :
  let s := push_all sample_points (empty_store "/var/lib/h.json" (10 * Second)) in
  (length (tier_all (h_min1 s)) = 2)%nat /\
  New "/var/lib/h.json" (10 * Second) (Some (save_file s)) sample_now = s.
Proof.
  split; [by vm_compute|].
  apply (history_reload "/var/lib/h.json" (10 * Second) sample_points sample_now).
  - done.
  - vm_compute. repeat constructor; done.
  - split.
    + apply (bool_decide_unpack _). by vm_compute.
    + split; [apply (bool_decide_unpack _); by vm_compute|]. vm_compute. lia.
    + split; [apply (bool_decide_unpack _); by vm_compute|]. vm_compute. lia.
    + intros t a _ _. vm_compute. constructor.
Defined.

(** Operations on a store, as the daemon performs them. *)
Inductive hist_op := HPush (p : Point) | HSetInterval (i : Z) | HLoad (c : option file) (now : Time).
Definition hist_step (s : Store) (o : hist_op) : Store :=
  match o with
  | HPush p => Push p s
  | HSetInterval i => SetInterval i s
  | HLoad c now => Load c now s
  end.

(** The history never outgrows its tiers.  From any file, after any sequence of
    pushes, interval changes and loads, the raw tier holds at most the raw
    capacity of the active interval (two hours of cycles, at least one), the
    one-minute tier at most 1440 closed means and the five-minute tier 2016. *)
Theorem history_bounded path interval content now ops :
  let s := fold_left hist_step ops (New path interval content now) in
  (length (h_raw s) <= Z.to_nat (h_rawCap s))%nat /\
  (length (t_pts (h_min1 s)) <= 1440)%nat /\ (length (t_pts (h_min5 s)) <= 2016)%nat.
Proof.
  assert (H : forall s, store_caps s -> store_caps (fold_left hist_step ops s)).
  { induction ops as [|[] ops IH]; intros s Hs; cbn; auto with fangov. }
  cbn zeta. destruct (H _ (New_caps path interval content now)) as [Hr _ [H1 C1] [H5 C5]].
  unfold tier_cap in *. rewrite C1 in H1. rewrite C5 in H5. auto.
Qed.

(** The points of an averaged tier are in strictly ascending time order, one
    point per bucket, whatever the time stamps of the pushed points (a clock step
    back joins the open bucket instead of reordering the chart). *)
Theorem history_ordered (t : tier) ps :
  0 < t_bucket t -> (0 < t_capacity t)%nat -> t_pts t = [] -> t_open t = None ->
  StronglySorted Z.lt (stamps (tier_all (fold_left tier_push ps t))).
Proof.
  intros Hb Hc Hp Ho. apply fold_push_sorted. split_and!; try done.
  unfold tier_all. rewrite Ho, Hp. constructor.
Qed.
Lemma history_ordered_witness :
  stamps (tier_all (fold_left tier_push
    (sample_points ++ [sample_point 99000 70]) (mkTier 60 Min1Span 1440 [] None))) = [99960; 100020]
  /\ StronglySorted Z.lt (stamps (tier_all (fold_left tier_push
    (sample_points ++ [sample_point 99000 70]) (mkTier 60 Min1Span 1440 [] None)))).
Proof.
  split; [by vm_compute|].
  apply (history_ordered (mkTier 60 Min1Span 1440 [] None)); [done|cbn; lia|done..].
Defined.

(** A mean of duties is a duty that was written.  If every known duty pushed
    for a channel lies between [lo] and [hi] (the marker -1 of a failed write is
    skipped), then every mean a tier shows for it, closed or open, lies between
    them too, in the binary64 arithmetic of the code. *)
Theorem history_duty_means (key : string) lo hi (t : tier) ps :
  0 <= lo <= hi -> hi <= 255 -> Z.of_nat (length ps) < 2 ^ 30 ->
  t_pts t = [] -> t_open t = None -> Forall (pushed_between key lo hi) ps ->
  Forall (point_between key lo hi) (tier_all (fold_left tier_push ps t)).
Proof.
  intros Hl Hh Hn Hp Ho Hps.
  apply (tier_all_between key lo hi ltac:(lia) ltac:(lia) (0 + 2 * Z.of_nat (length ps))); [lia|].
  apply fold_push_between; [lia..| |done]. split_and!; [done|by rewrite Hp|by rewrite Ho].
Qed.
Lemma history_duty_means_witness :
  tier_all (fold_left tier_push sample_points (mkTier 300 Min5Span 2016 [] None)) =
    [mkPoint 99900 {["cpu" := of_int 40]} {["cpu" := 85]} ∅ ∅] /\
  Forall (point_between "cpu" 80 90)
    (tier_all (fold_left tier_push sample_points (mkTier 300 Min5Span 2016 [] None))).
Proof.
  split; [by vm_compute|].
  apply (history_duty_means "cpu" 80 90 (mkTier 300 Min5Span 2016 [] None) sample_points);
    [lia|lia|cbn; lia|done|done|].
  unfold sample_points.
  do 3 (apply Forall_cons_2; [intros d; unfold sample_point; cbn [p_Duty];
    rewrite lookup_singleton_eq; intros [= <-]; lia|]).
  apply Forall_nil_2.
Defined.
