(* ===== verification/Sanitize.v ===== *)
(** The profile-specific corrections of the channel list and the comparison of
    channel sets (SanitizeChannels, sameChannelSet and hddLike of
    src/internal/control/controller.go). *)
From stdpp Require Import base gmap strings list.
From Stdlib Require Import ZArith Lia Ascii.
From S2P Require Import Prelude GoLib ConfigTypes.
Open Scope Z_scope.

Definition MinHDDOverride : Z := 60.

(** A correction that was made. *)
Inductive SanNote := SanAdded (pwm : Z) (name : string) | SanForcedStop (name : string).

(** [byPWM[pwm]]: the last index that has the pwm. *)
Fixpoint last_index (pwm : Z) (chans : list Channel) : option nat :=
  match chans with
  | [] => None
  | ch :: rest =>
      match last_index pwm rest with
      | Some j => Some (S j)
      | None => if cc_PWM ch =? pwm then Some 0%nat else None
      end
  end.

(** One built-in channel: [names] and the list grow as the code's do; [byPWM] is
    taken from the list before the loop. *)
Definition sanitize_one (orig : list Channel) (def : Channel)
    (st : list Channel * list string * list SanNote) : list Channel * list string * list SanNote :=
  let '(out, names, notes) := st in
  match last_index (cc_PWM def) orig with
  | None =>
      let def := if bool_decide (cc_Name def ∈ names)
                 then def <| cc_Name := String.append "pwm" (Itoa (cc_PWM def)) |> else def in
      (out ++ [def], cc_Name def :: names, notes ++ [SanAdded (cc_PWM def) (cc_Name def)])
  | Some i =>
      match out !! i with
      | Some ch =>
          if (cc_PWM def =? 3) && String.eqb (cc_Stop ch) "auto"
          then (<[i := ch <| cc_Stop := HDDStop |>]> out, names, notes ++ [SanForcedStop (cc_Name ch)])
          else st
      | None => st
      end
  end.

Definition SanitizeChannels (profileName : string) (chans : list Channel)
  : list Channel * list SanNote :=
  if negb (String.eqb profileName "n5pro") then (chans, [])
  else
    let '(out, _, notes) :=
      fold_left (fun st def => sanitize_one chans def st) N5ProChannels
        (chans, map cc_Name chans, []) in
    (out, notes).

(** The last channel with a name decides the pwm the name maps to. *)
Definition name_to_pwm (chans : list Channel) : gmap string Z :=
  fold_left (fun m ch => <[cc_Name ch := cc_PWM ch]> m) chans ∅.
Definition sameChannelSet (a b : list Channel) : bool :=
  (length a =? length b)%nat &&
  forallb (fun ch => match name_to_pwm a !! cc_Name ch with
                     | Some pwm => pwm =? cc_PWM ch
                     | None => false
                     end) b.

(** A channel that must not run at a low manual duty. *)
Definition hddLike (profileName : string) (cc : Channel) : bool :=
  match StopDuty cc with
  | Some _ => true
  | None => String.eqb profileName "n5pro" && (cc_PWM cc =? 3)
  end.

(** ** Lemmas *)
Lemma last_index_Some pwm chans j : last_index pwm chans = Some j ->
  exists ch, chans !! j = Some ch /\ cc_PWM ch = pwm.
Proof.
  revert j. induction chans as [|c rest IH]; intros j; cbn; [done|].
  destruct (last_index pwm rest) as [k|]; [intros [= <-]; by apply IH|].
  destruct (cc_PWM c =? pwm) eqn:E; [|done]. intros [= <-]. exists c. split; [done|lia].
Qed.

Lemma last_index_None pwm chans : last_index pwm chans = None <->
  Forall (fun ch => cc_PWM ch <> pwm) chans.
Proof.
  induction chans as [|c rest IH]; cbn; [split; [constructor|done]|].
  destruct (last_index pwm rest) as [k|].
  - split; [done|]. intros Hf. inversion_clear Hf. by apply IH in H0.
  - destruct (cc_PWM c =? pwm) eqn:E; split; try done.
    + intros Hf. inversion_clear Hf. lia.
    + intros _. constructor; [lia|by apply IH].
Qed.

(** With distinct pwms the index is the channel's own. *)
Lemma last_index_unique pwm chans j k ch :
  NoDup (map cc_PWM chans) -> last_index pwm chans = Some j -> chans !! k = Some ch ->
  cc_PWM ch = pwm -> k = j.
Proof.
  intros Hnd (c & Hc & Hp)%last_index_Some Hk Hpk.
  eapply (NoDup_lookup (map cc_PWM chans)); [done|..].
  - rewrite list_lookup_fmap, Hk. cbn. by rewrite Hpk.
  - rewrite list_lookup_fmap, Hc. cbn. by rewrite Hp.
Qed.

(** The input list with the stop of its pwm3 channel forced. *)
Definition force_stop (chans : list Channel) : list Channel :=
  match last_index 3 chans with
  | Some i =>
      match chans !! i with
      | Some ch => if String.eqb (cc_Stop ch) "auto"
                   then <[i := ch <| cc_Stop := HDDStop |>]> chans else chans
      | None => chans
      end
  | None => chans
  end.

(** What the loop appends for pwm [k]: nothing when the list has it, otherwise one
    channel with the built-in stop value. *)
Definition appended (chans : list Channel) (k : Z) (stop : string) (l : list Channel) : Prop :=
  match last_index k chans with
  | Some _ => l = []
  | None => exists ch, l = [ch] /\ cc_PWM ch = k /\ cc_Stop ch = stop
  end.

Lemma sanitize_one_low chans def out names notes : (cc_PWM def =? 3) = false ->
  exists l names' notes',
    sanitize_one chans def (out, names, notes) = (out ++ l, names', notes') /\
    appended chans (cc_PWM def) (cc_Stop def) l.
Proof.
  intros Hne. unfold sanitize_one, appended.
  destruct (last_index (cc_PWM def) chans) as [i|].
  - exists [], names, notes. rewrite app_nil_r, Hne. split; [|done]. by destruct (out !! i).
  - eexists [_], _, _. split; [done|]. eexists. split; [done|]. by case_match.
Qed.

Lemma sanitize_one_3 chans def l names notes : cc_PWM def = 3 ->
  exists l' names' notes',
    sanitize_one chans def (chans ++ l, names, notes) = (force_stop chans ++ l ++ l', names', notes') /\
    appended chans 3 (cc_Stop def) l'.
Proof.
  intros Hp. unfold sanitize_one, appended, force_stop. rewrite Hp.
  destruct (last_index 3 chans) as [i|] eqn:E.
  - apply last_index_Some in E as (ch & Hi & _). rewrite Hi.
    rewrite lookup_app_l by (by eapply lookup_lt_Some). rewrite Hi.
    destruct (String.eqb (cc_Stop ch) "auto"); cbn.
    + rewrite insert_app_l by (by eapply lookup_lt_Some). eexists [], _, _. by rewrite app_nil_r.
    + eexists [], _, _. by rewrite app_nil_r.
  - eexists [_], _, _. rewrite <- app_assoc. split; [done|].
    eexists. split; [done|]. by case_match.
Qed.

Lemma SanitizeChannels_shape chans : exists a1 a2 a3 notes,
  SanitizeChannels "n5pro" chans = (force_stop chans ++ a1 ++ a2 ++ a3, notes) /\
  appended chans 1 "auto" a1 /\ appended chans 2 "auto" a2 /\ appended chans 3 "140" a3.
Proof.
  unfold SanitizeChannels. cbn [String.eqb Ascii.eqb Bool.eqb negb].
  unfold N5ProChannels, n5pro_balanced. cbn [length Nat.eqb fold_left].
  match goal with |- context [sanitize_one _ ?d (chans, ?n, ?m)] =>
    destruct (sanitize_one_low chans d chans n m eq_refl) as (a1 & n1 & t1 & -> & H1) end.
  match goal with |- context [sanitize_one _ ?d (chans ++ a1, ?n, ?m)] =>
    destruct (sanitize_one_low chans d (chans ++ a1) n m eq_refl) as (a2 & n2 & t2 & -> & H2) end.
  rewrite <- app_assoc.
  match goal with |- context [sanitize_one _ ?d (chans ++ ?l, ?n, ?m)] =>
    destruct (sanitize_one_3 chans d l n m eq_refl) as (a3 & n3 & t3 & -> & H3) end.
  rewrite <- app_assoc. by exists a1, a2, a3, t3.
Qed.

Lemma force_stop_pwms chans : map cc_PWM (force_stop chans) = map cc_PWM chans.
Proof.
  unfold force_stop. repeat case_match; try done.
  change (cc_PWM <$> <[n := upd cc_Stop (fun _ => HDDStop) c]> chans = cc_PWM <$> chans).
  rewrite list_fmap_insert. apply list_insert_id. by rewrite list_lookup_fmap, H0.
Qed.

Lemma force_stop_not_auto chans ch : NoDup (map cc_PWM chans) ->
  ch ∈ force_stop chans -> cc_PWM ch = 3 -> cc_Stop ch <> "auto"%string.
Proof.
  intros Hnd Hin Hp. apply list_elem_of_lookup in Hin as (k & Hk).
  assert (Hex : exists c, chans !! k = Some c /\ cc_PWM c = 3).
  { assert (cc_PWM <$> chans !! k = Some 3) as He.
    { rewrite <- list_lookup_fmap. change (cc_PWM <$> chans) with (map cc_PWM chans).
      rewrite <- force_stop_pwms. change (map cc_PWM (force_stop chans)) with (cc_PWM <$> force_stop chans).
      by rewrite list_lookup_fmap, Hk, <- Hp. }
    destruct (chans !! k) as [c|]; [|done]. injection He as He. by exists c. }
  destruct Hex as (c & Hc & Hpc). unfold force_stop in Hk.
  destruct (last_index 3 chans) as [i|] eqn:E.
  - assert (k = i) as -> by (by eapply last_index_unique). rewrite Hc in Hk.
    destruct (String.eqb (cc_Stop c) "auto") eqn:Es.
    + rewrite list_lookup_insert_eq in Hk by (by eapply lookup_lt_Some). by injection Hk as <-.
    + rewrite Hc in Hk. injection Hk as <-. by apply String.eqb_neq.
  - apply last_index_None in E. rewrite Forall_forall in E.
    destruct (E c); [|done]. by eapply list_elem_of_lookup_2.
Qed.

Lemma last_index_in pwm chans : pwm ∈ map cc_PWM chans -> last_index pwm chans <> None.
Proof.
  intros Hin Hn. apply last_index_None in Hn. rewrite Forall_forall in Hn.
  apply list_elem_of_In, in_map_iff in Hin as (c & Hc & Hin).
  apply (Hn c); [by apply list_elem_of_In|done].
Qed.

Lemma appended_in chans k stop l pre post : appended chans k stop l ->
  k ∈ map cc_PWM (force_stop chans ++ pre ++ l ++ post).
Proof.
  unfold appended. intros H. rewrite !map_app, force_stop_pwms.
  destruct (last_index k chans) as [i|] eqn:E.
  - apply last_index_Some in E as (c & Hc & <-). apply elem_of_app. left.
    apply list_elem_of_In, in_map, list_elem_of_In. by eapply list_elem_of_lookup_2.
  - destruct H as (ch & -> & <- & _). apply elem_of_app. right. apply elem_of_app. right.
    apply elem_of_app. left. by left.
Qed.

(** A list that has pwm1..3 and no "auto" on pwm3 is left alone. *)
Lemma SanitizeChannels_id chans :
  1 ∈ map cc_PWM chans -> 2 ∈ map cc_PWM chans -> 3 ∈ map cc_PWM chans ->
  (forall ch, ch ∈ chans -> cc_PWM ch = 3 -> cc_Stop ch <> "auto"%string) ->
  SanitizeChannels "n5pro" chans = (chans, []).
Proof.
  intros H1 H2 H3 Hs. unfold SanitizeChannels. cbn [String.eqb Ascii.eqb Bool.eqb negb].
  unfold N5ProChannels, n5pro_balanced. cbn [length Nat.eqb fold_left].
  assert (Hid : forall def names, cc_PWM def ∈ map cc_PWM chans ->
    sanitize_one chans def (chans, names, []) = (chans, names, [])).
  { intros def names Hd. unfold sanitize_one.
    destruct (last_index (cc_PWM def) chans) as [i|] eqn:E; [|by apply last_index_in in Hd].
    apply last_index_Some in E as (c & Hc & Hp). rewrite Hc.
    destruct (cc_PWM def =? 3) eqn:E3; [|done]. cbn.
    destruct (String.eqb (cc_Stop c) "auto") eqn:Es; [|done].
    apply String.eqb_eq in Es. exfalso. eapply (Hs c); [|lia|done]. by eapply list_elem_of_lookup_2. }
  by rewrite !Hid.
Qed.

Lemma sanitized_spec profile chans : NoDup (map cc_PWM chans) ->
  let out := fst (SanitizeChannels profile chans) in
  profile = "n5pro"%string ->
  (forall k, 1 <= k <= 3 -> k ∈ map cc_PWM out) /\
  (forall ch, ch ∈ out -> cc_PWM ch = 3 -> cc_Stop ch <> "auto"%string) /\
  take (length chans) out = force_stop chans.
Proof.
  intros Hnd out ->. unfold out.
  destruct (SanitizeChannels_shape chans) as (a1 & a2 & a3 & notes & -> & A1 & A2 & A3). cbn [fst].
  split_and!.
  - intros k Hk. assert (k = 1 \/ k = 2 \/ k = 3) as [->|[->| ->]] by lia.
    + exact (appended_in chans 1 _ a1 [] (a2 ++ a3) A1).
    + exact (appended_in chans 2 _ a2 a1 a3 A2).
    + replace (a1 ++ a2 ++ a3) with ((a1 ++ a2) ++ a3 ++ []) by (by rewrite app_nil_r, app_assoc).
      exact (appended_in chans 3 _ a3 (a1 ++ a2) [] A3).
  - intros ch Hin Hp. apply elem_of_app in Hin as [Hin|Hin].
    + by eapply force_stop_not_auto.
    + unfold appended in *. rewrite !elem_of_app in Hin.
      repeat match goal with H : match last_index ?k chans with _ => _ end |- _ =>
        destruct (last_index k chans); [subst|destruct H as (? & -> & ? & ?)] end;
      repeat match goal with H : _ \/ _ |- _ => destruct H as [H|H] end;
      try (by inversion Hin); apply list_elem_of_singleton in Hin; subst; try lia; congruence.
  - assert (length (force_stop chans) = length chans) as <-.
    { rewrite <- (length_map cc_PWM), force_stop_pwms. apply length_map. }
    by rewrite take_app_length.
Qed.

(** C33: on the N5 Pro the fans the daemon drives are all managed.  Whatever the
    configuration names (with distinct pwm numbers, as the parser guarantees), the
    corrected list has a channel for pwm1, pwm2 and pwm3, no channel on pwm3
    stops with "auto", the configured channels keep their places with nothing
    changed but a forced pwm3 stop, and correcting it again changes nothing. *)
Theorem sanitize_safe chans : NoDup (map cc_PWM chans) ->
  let out := fst (SanitizeChannels "n5pro" chans) in
  (forall k, 1 <= k <= 3 -> k ∈ map cc_PWM out) /\
  (forall ch, ch ∈ out -> cc_PWM ch = 3 -> cc_Stop ch <> "auto"%string) /\
  take (length chans) out = force_stop chans /\
  SanitizeChannels "n5pro" out = (out, []).
Proof.
  intros Hnd out. destruct (sanitized_spec "n5pro" chans Hnd eq_refl) as (H1 & H2 & H3).
  fold out in H1, H2, H3. split_and!; try done. apply SanitizeChannels_id; try done; apply H1; lia.
Qed.
Lemma sanitize_safe_witness :
  let chans := [mkChannel "disks" 3 "drivetemp:max" DefaultCurve 60 "auto" 0 0 0 false] in
  map cc_PWM (fst (SanitizeChannels "n5pro" chans)) = [3; 1; 2] /\
  map cc_Stop (fst (SanitizeChannels "n5pro" chans)) = ["140"; "auto"; "auto"] /\
  SanitizeChannels "n5pro" (fst (SanitizeChannels "n5pro" chans)) =
    (fst (SanitizeChannels "n5pro" chans), []).
Proof.
  split; [by vm_compute|]. split; [by vm_compute|].
  apply (sanitize_safe [mkChannel "disks" 3 "drivetemp:max" DefaultCurve 60 "auto" 0 0 0 false]).
  repeat constructor. by intros ?%not_elem_of_nil.
Defined.

(** An accepted configuration is not always the channel set of itself.  The
    correction may name the channel it adds "pwm1" although a configured channel
    has that name; the daemon then refuses a reload of the very configuration it
    runs. *)
Theorem sanitize_duplicate_name :
  let chans := [mkChannel "cpu" 2 "k10temp" DefaultCurve 88 "auto" 0 0 0 false;
                mkChannel "pwm1" 4 "k10temp" DefaultCurve 88 "auto" 0 0 0 false;
                mkChannel "hdd" 3 "drivetemp:max" DefaultCurve 60 "140" 0 0 0 false] in
  let out := fst (SanitizeChannels "n5pro" chans) in
  NoDup (map cc_Name chans) /\ NoDup (map cc_PWM chans) /\
  map cc_Name out = ["cpu"; "pwm1"; "hdd"; "pwm1"] /\ sameChannelSet out out = false.
Proof.
  cbn zeta. split_and!; [..|by vm_compute|by vm_compute];
    apply (bool_decide_unpack _); by vm_compute.
Qed.
