(* ===== verification/ControlTypes.v ===== *)
(** The data of package control (src/internal/control): the runtime state of a
    channel, the controller, the snapshot, and the interfaces the controller runs
    against: the device (profile.Device), the sensors (SensorFactory and
    SensorReader) and the host (clock, run directory, alert sink, emergency hook,
    history file), each a type class over an abstract world [W].

    A system state [Sys] is the controller, the world and a ghost log of what the
    controller did to the outside ([Event], newest first); the program never
    reads the log.  Texts (log lines, alert bodies) are reduced to the
    constructors that determine them; [Printf], [logOnce] and [logClear] only
    print and are left out.  Counters are unbounded integers. *)
From stdpp Require Import base gmap strings list.
From Stdlib Require Import ZArith QArith Lia.
From S2P Require Import Prelude GoLib Float64 ConfigTypes Ceiling History.
Open Scope Z_scope.

(** ** Errors

    An error value is the list of the sentinels [errors.Is] finds in it. *)
Inductive Sentinel :=
| ETIMEDOUT | EAGAIN | ENODATA | ENODEV | EOther
| ErrDCRMismatch | ErrVerify | ErrImplausible | ErrNoDevice | ErrMonitorOnly | ErrNotExist
| ErrNotFound | ErrWriteDisabled | ErrDriverMissing | ErrNoDiskHwmon.
#[export] Instance Sentinel_eq_dec : EqDecision Sentinel.
Proof. solve_decision. Defined.
Definition Err : Type := list Sentinel.
Definition errors_Is (e : Err) (s : Sentinel) : bool := existsb (fun x => bool_decide (x = s)) e.

(** ** Modes, statuses *)
Inductive Mode := ModeAuto | ModeManual | ModeCritical | ModeStall | ModeSensor | ModeFailsafe.
#[export] Instance Mode_eq_dec : EqDecision Mode.
Proof. solve_decision. Defined.
Definition Mode_eqb (a b : Mode) : bool := bool_decide (a = b).

Inductive Status := StatusStarting | StatusOK | StatusWriteError | StatusSensorError | StatusDryRun.
#[export] Instance Status_eq_dec : EqDecision Status.
Proof. solve_decision. Defined.

(** The text of [channel.sensorErr]. *)
Inductive SensorErr :=
| SeNone | SeUnresolved | SeRead (e : Err) | SeImplausible (v : Z) | SeFrozen (d raw : Z).
Definition SeIsNone (e : SensorErr) : bool := match e with SeNone => true | _ => false end.

Record Part := mkPart { pt_ID : string; pt_Value : Z }.

(** ** The runtime channel *)
Record channel {Rd : Type} := mkCh {
  ch_cfg : Channel; ch_hasTach : bool; ch_sensor : option Rd;
  ch_cur : Z; ch_written : bool;
  ch_regDuty : Z; ch_regAt : Time; ch_regPending : bool;
  ch_rpm : Z; ch_temp : Z; ch_tempOK : bool; ch_target : Z; ch_mode : Mode;
  ch_sensorBad : bool; ch_sensorErr : SensorErr;
  ch_stallCnt : Z; ch_stalled : bool; ch_recov : Z;
  ch_ceiling : Z; ch_partCeil : list PartCeiling; ch_parts : list Part;
  ch_ceilHit : bool; ch_ceilPart : string; ch_ceilPartTemp : Z; ch_ceilPartCeil : Z;
  ch_ceilCycles : Z; ch_emergencyFired : bool;
  ch_held : Z; ch_heldOK : bool; ch_lastCurve : Z; ch_haveCurve : bool;
  ch_holding : bool; ch_holdTarget : Z; ch_holdStart : Time; ch_holdUntil : Time }.
#[global] Arguments channel : clear implicits.
#[global] Arguments mkCh {Rd}.
#[export] Instance eta_channel {Rd} : Eta (channel Rd) := fun c =>
  mkCh (ch_cfg c) (ch_hasTach c) (ch_sensor c) (ch_cur c) (ch_written c)
    (ch_regDuty c) (ch_regAt c) (ch_regPending c) (ch_rpm c) (ch_temp c) (ch_tempOK c)
    (ch_target c) (ch_mode c) (ch_sensorBad c) (ch_sensorErr c) (ch_stallCnt c) (ch_stalled c)
    (ch_recov c) (ch_ceiling c) (ch_partCeil c) (ch_parts c) (ch_ceilHit c) (ch_ceilPart c)
    (ch_ceilPartTemp c) (ch_ceilPartCeil c) (ch_ceilCycles c) (ch_emergencyFired c) (ch_held c)
    (ch_heldOK c) (ch_lastCurve c) (ch_haveCurve c) (ch_holding c) (ch_holdTarget c)
    (ch_holdStart c) (ch_holdUntil c).

(** ** Snapshot *)
Record ChannelState := mkChannelState {
  cs_Name : string; cs_PWM : Z; cs_Sensor : string; cs_Temp : Q; cs_Duty : Z; cs_Target : Z;
  cs_RPM : Z; cs_Mode : Mode; cs_HeldTemp : Q; cs_HoldUntil : Z; cs_Ceiling : Z;
  cs_CeilingHit : bool }.
#[export] Instance eta_ChannelState : Eta ChannelState := fun c =>
  mkChannelState (cs_Name c) (cs_PWM c) (cs_Sensor c) (cs_Temp c) (cs_Duty c) (cs_Target c)
    (cs_RPM c) (cs_Mode c) (cs_HeldTemp c) (cs_HoldUntil c) (cs_Ceiling c) (cs_CeilingHit c).

Record Snapshot := mkSnapshot {
  sn_TS : Z; sn_Status : Status; sn_Profile : string; sn_DryRun : bool;
  sn_Channels : list ChannelState; sn_ExtraTemps : gmap string Q; sn_Watched : gmap string Q;
  sn_Alerts : gmap string Z; sn_Uptime : Z }.

(** ** The controller *)
Record Options := mkOptions { o_DryRun : bool; o_RunDir : bool; o_SyncAlerts : bool }.

Record watchedSensor {Rd : Type} := mkWatched { ws_id : string; ws_sensor : option Rd }.
#[global] Arguments watchedSensor : clear implicits.
#[global] Arguments mkWatched {Rd}.

(** [rs_last] is [None] for the zero time. *)
Record readErrState := mkReadErr { rs_last : option Time; rs_suppressed : Z }.

(** A goroutine that runs the emergency hook ([go run()]). *)
Record HookJob := mkHookJob { hj_env : list (string * string); hj_channel : string }.

(** A configuration with its [dashboard] list: [c_Sensors]. *)
Record Controller {Rd : Type} := mkController {
  k_opts : Options; k_cfg : Config; k_chans : list (channel Rd);
  k_overrides : gmap string Z; k_snap : option Snapshot; k_hist : Store;
  k_alerts : gmap string Z; k_alertAt : gmap string Time;
  k_extra : list (string * string); k_pending : option Config;
  k_watched : list (watchedSensor Rd); k_watchDirty : bool;
  k_readErrs : gmap string readErrState; k_stopped : bool; k_lastCycle : Z;
  k_n : Z; k_wrErr : Z; k_fsFail : Z; k_lastRaw : Z; k_sameRaw : Z; k_haveRaw : bool;
  k_started : Time; k_lastSave : Time; k_stopOnce : bool; k_jobs : list HookJob }.
#[global] Arguments Controller : clear implicits.
#[global] Arguments mkController {Rd}.
#[export] Instance eta_Controller {Rd} : Eta (Controller Rd) := fun c =>
  mkController (k_opts c) (k_cfg c) (k_chans c) (k_overrides c) (k_snap c) (k_hist c)
    (k_alerts c) (k_alertAt c) (k_extra c) (k_pending c) (k_watched c) (k_watchDirty c)
    (k_readErrs c) (k_stopped c) (k_lastCycle c) (k_n c) (k_wrErr c) (k_fsFail c) (k_lastRaw c)
    (k_sameRaw c) (k_haveRaw c) (k_started c) (k_lastSave c) (k_stopOnce c) (k_jobs c).

(** ** The interfaces *)

(** One pwm output of a device ([profile.Channel]). *)
Record DevChannel := mkDevChannel { dc_Index : Z; dc_HasTach : bool }.

(** [profile.Device], with the optional interfaces: [dev_ReadEnable] (enableReader)
    and [dev_VerifyRegister] (RegisterVerifier; [RegisterSettle] is then its
    settle time). *)
Class Device (W : Type) := {
  dev_ProfileName : string;
  dev_Channels : list DevChannel;
  dev_ReadRPM : Z -> M W (Err + Z);
  dev_ReadDuty : Z -> M W (Err + Z);
  dev_EnterManual : Z -> M W (option Err);
  dev_WriteDuty : Z -> Z -> M W (option Err);
  dev_SafeStop : Z -> string -> M W (option Err);
  dev_ReadEnable : option (Z -> M W (Err + string));
  dev_VerifyRegister : option (Z -> Z -> M W (option Err));
  dev_RegisterSettle : Z -> Z }.

(** SensorFactory, SensorReader and PartsReader ([sen_Parts] is [None] for a
    reader that has no parts), and the block device classifier. *)
Class Sensors (W Rd : Type) := {
  sen_New : string -> M W (option Rd);
  sen_Read : Rd -> M W (Err + Z);
  sen_Parts : Rd -> W -> option (list Part);
  sen_DiskKind : W -> option (string -> string) }.

Inductive HookResult := HookExit0 | HookTimeout | HookExit (code : Z) | HookError.

Inductive AlertMsg :=
| AlConfigChannels (notes : list string)
| AlSensor (lines : list (string * SensorErr * Z)) (all : bool)
| AlTemp (parts : list (string * Z))
| AlCeiling (name part : string) (temp ceil critical : Z)
| AlStall (name : string) (cur : Z)
| AlWrite
| AlDevice (cycles : Z)
| AlEmergency (name : string) (res : HookResult).

(** The clock, sd_notify, the run directory, the alert sink, the hook and the
    history file.  [host_Alert] stands for [alert.Alert] and for the goroutine
    that delivers it. *)
Class Host (W : Type) := {
  host_now : M W Time;
  host_Notify : M W unit;
  host_Status : Status -> M W unit;
  host_ReadFile : string -> M W (Err + string);
  host_ReadRun : string -> M W (option string);
  host_ListRun : M W (list string);
  host_WriteRun : string -> string -> M W bool;
  host_RemoveRun : string -> M W unit;
  host_WriteState : Snapshot -> M W unit;
  host_Alert : string -> AlertMsg -> M W unit;
  host_HookCheck : M W bool;
  host_Exec : list (string * string) -> M W HookResult;
  host_SaveHistory : file -> M W bool;
  host_LoadHistory : M W (option file) }.

(** ** System state *)
Inductive Event :=
| EvWrite (pwm duty : Z) (ok : bool)
| EvStop (pwm : Z) (stop : string)
| EvAlert (kind : string) (at_ : Time) (cooldown : Z)
| EvWarn (source : string) (at_ : Time)
| EvHook (name : string) (cycles : Z).

Record Sys {W Rd : Type} := mkSys { s_c : Controller Rd; s_w : W; s_ev : list Event }.
#[global] Arguments Sys : clear implicits.
#[global] Arguments mkSys {W Rd}.

Section Primitives.
Context {W Rd : Type}.
Local Abbreviation MS := (M (Sys W Rd)).

Definition lift {A} (m : M W A) : MS A :=
  fun s => let '(a, w) := m (s_w s) in (a, mkSys (s_c s) w (s_ev s)).
Definition getc : MS (Controller Rd) := gets s_c.
Definition world : MS W := gets s_w.
Definition modc (f : Controller Rd -> Controller Rd) : MS unit :=
  modify (fun s => mkSys (f (s_c s)) (s_w s) (s_ev s)).
Definition emit (e : Event) : MS unit :=
  modify (fun s => mkSys (s_c s) (s_w s) (e :: s_ev s)).
(** A loop over the controller's channels; the body updates the channel it is
    given and does not look at the others. *)
Definition for_chans (f : channel Rd -> MS (channel Rd)) : MS unit :=
  let* c := getc in
  let* chs := mapM f (k_chans c) in
  modc (fun c => c <| k_chans := chs |>).
End Primitives.
