(* ===== verification/Hwmon.v ===== *)
(** Package hwmon (src/internal/hwmon): the view on a sysfs root, reads, verified
    writes, and the sensors of block devices.

    The operating system is the class [Os] over an abstract world [W]: reads look at
    the world, [os_Overwrite] (open write-only with truncate, write, close) changes
    it.  An error is the list of the sentinels it wraps, its text is left out. *)
From stdpp Require Import base gmap strings list sorting.
From Stdlib Require Import ZArith Lia Ascii.
From S2P Require Import Prelude GoLib GoNet GoPath ControlTypes.
Open Scope Z_scope.

Class Os (W : Type) := {
  os_ReadFile : string -> W -> Err + string;
  os_ReadDir : string -> W -> option (list string);
  os_Exists : string -> W -> bool;
  os_IsDir : string -> W -> bool;
  os_Overwrite : string -> string -> M W (option Err) }.

(** [sort.Slice] by a number. *)
Definition by_number {A} (a b : Z * A) : Prop := a.1 <= b.1.
#[export] Instance by_number_dec {A} : RelDecision (@by_number A).
Proof. intros a b. unfold by_number. apply _. Defined.
Definition sort_numbered {A} (l : list (Z * A)) : list A := map snd (merge_sort by_number l).

Record HwDevice := mkHwDevice { hd_Path : string; hd_Name : string }.

Definition sameValue (want got : string) : bool :=
  if String.eqb want got then true
  else match Atoi want, Atoi got with Some a, Some b => a =? b | _, _ => false end.

(** [hwmonIndex]: "hwmon14" is 14. *)
Definition hwmonIndex (name : string) : option Z :=
  if negb (HasPrefix name "hwmon") then None
  else match Atoi (TrimPrefix name "hwmon") with
       | Some n => if n <? 0 then None else Some n
       | None => None
       end.

(** [^[a-z0-9]{1,32}$] *)
Definition blockDevRe (s : string) : bool :=
  forallb (fun c => let n := N_of_ascii c in ((97 <=? n) && (n <=? 122) || (48 <=? n) && (n <=? 57))%N) (chars s) &&
  (1 <=? String.length s)%nat && (String.length s <=? 32)%nat.
Definition ValidBlockDev (dev : string) : bool := blockDevRe dev.
Definition virtualBlock : list string := ["zd"; "loop"; "dm-"; "ram"; "md"; "nbd"; "drbd"; "rbd"; "zram"; "sr"; "fd"].
Definition VirtualBlock (name : string) : bool := existsb (fun p => HasPrefix name p) virtualBlock.

Definition sort_strings (l : list string) : list string := merge_sort String.le l.

Section Fs.
Context {W : Type} {O : Os W}.
Context (root : string).

Definition ClassDir : string := JoinPath [root; "class"; "hwmon"].
Definition Abs (p : string) : string := if IsAbs p then p else JoinPath [root; p].

Definition ReadString (path : string) (w : W) : Err + string :=
  match os_ReadFile (Abs path) w with inl e => inl e | inr b => inr (TrimSpace b) end.
Definition ReadInt (path : string) (w : W) : Err + Z :=
  match ReadString path w with
  | inl e => inl e
  | inr s => match Atoi s with None => inl [EOther] | Some n => inr n end
  end.
Definition Exists (path : string) (w : W) : bool := os_Exists (Abs path) w.

Definition List_devices (w : W) : Err + list HwDevice :=
  match os_ReadDir ClassDir w with
  | None => inl [EOther]
  | Some entries =>
      inr (sort_numbered (flat_map (fun e =>
        match hwmonIndex e with
        | None => []
        | Some n =>
            let p := JoinPath [ClassDir; e] in
            match ReadString (JoinPath [p; "name"]) w with
            | inr name => if String.eqb name "" then [] else [(n, mkHwDevice p name)]
            | inl _ => []
            end
        end) entries))
  end.
Definition FindByName (name : string) (w : W) : list HwDevice :=
  match List_devices w with
  | inl _ => []
  | inr devs => List.filter (fun d => String.eqb (hd_Name d) name) devs
  end.
Definition FindByRegexp (re : string -> bool) (w : W) : list HwDevice :=
  match List_devices w with inl _ => [] | inr devs => List.filter (fun d => re (hd_Name d)) devs end.

Definition VerifyValue (path want : string) (w : W) : option Err :=
  match ReadString path w with
  | inl e => Some e
  | inr got => if sameValue (TrimSpace want) got then None else Some [ErrVerify]
  end.
Definition WriteVerify (path value : string) : M W (option Err) :=
  let* e := os_Overwrite (Abs path) value in
  match e with
  | Some e => ret (Some e)
  | None => gets (VerifyValue (Abs path) value)
  end.

(** ** Block devices *)
Definition BlockDevices (w : W) : list string :=
  match os_ReadDir (JoinPath [root; "block"]) w with
  | None => []
  | Some entries => sort_strings (List.filter (fun n => negb (VirtualBlock n || negb (ValidBlockDev n))) entries)
  end.

(** [filepath.Glob] of [dir/hwmon*], ordered by number. *)
Definition glob_hwmon (dir : string) (w : W) : list string :=
  match os_ReadDir dir w with
  | None => []
  | Some entries =>
      sort_numbered (flat_map (fun e => match hwmonIndex e with
                                        | Some n => [(n, JoinPath [dir; e])]
                                        | None => []
                                        end) entries)
  end.
Definition DiskHwmon (dev : string) (w : W) : Err + string :=
  if negb (ValidBlockDev dev) then inl [ErrNotExist]
  else
    let base := JoinPath [root; "block"; dev] in
    if negb (os_IsDir base w) then inl [ErrNotExist]
    else
      match find (fun p => Exists (JoinPath [p; "temp1_input"]) w)
              (glob_hwmon (JoinPath [base; "device"; "hwmon"]) w ++ glob_hwmon (JoinPath [base; "device"]) w) with
      | Some p => inr p
      | None => inl [ErrNoDiskHwmon]
      end.
Definition DiskTemp (dev : string) (w : W) : Err + Z :=
  match DiskHwmon dev w with
  | inl e => inl e
  | inr p => ReadInt (JoinPath [p; "temp1_input"]) w
  end.
End Fs.

(** ** Lemmas *)
Section Lemmas.
Context {W : Type} {O : Os W} (root : string).

Lemma Abs_Abs p : IsAbs root = true -> Abs root (Abs root p) = Abs root p.
Proof.
  intros Hr. unfold Abs. destruct (IsAbs p) eqn:E; [by rewrite E|].
  by rewrite IsAbs_JoinPath.
Qed.

(** A write that reports no error has stored the value: what the attribute reads
    now is the value written, as a text or as a number. *)
Lemma WriteVerify_ok path value w :
  (WriteVerify root path value w).1 = None ->
  exists got, ReadString root (Abs root path) (WriteVerify root path value w).2 = inr got /\
    sameValue (TrimSpace value) got = true.
Proof.
  unfold WriteVerify, bind. destruct (os_Overwrite (Abs root path) value w) as [[e|] w1]; cbn; [done|].
  unfold VerifyValue. destruct (ReadString root (Abs root path) w1) as [e|got]; [done|].
  destruct (sameValue (TrimSpace value) got) eqn:E; [|done]. eauto.
Qed.

Lemma sameValue_int n got : in_int64 n = true -> 0 <= n -> sameValue (Itoa n) got = true -> Atoi got = Some n.
Proof.
  intros Hn H0. unfold sameValue. destruct (String.eqb_spec (Itoa n) got) as [<-|_]; [intros _; by apply Atoi_Itoa|].
  rewrite Atoi_Itoa by done. destruct (Atoi got); [|done]. by intros ->%Z.eqb_eq.
Qed.
Lemma TrimSpace_Itoa n : 0 <= n -> TrimSpace (Itoa n) = Itoa n.
Proof. intros Hn. rewrite <- (TrimSpace_Itoa_nl n) by done. apply TrimSpace_idem. Qed.

Lemma WriteVerify_int path n w : 0 <= n -> in_int64 n = true ->
  (WriteVerify root path (Itoa n) w).1 = None ->
  ReadInt root (Abs root path) (WriteVerify root path (Itoa n) w).2 = inr n.
Proof.
  intros Hn Hi H. apply WriteVerify_ok in H as (got & Hg & Hs). unfold ReadInt. rewrite Hg.
  rewrite TrimSpace_Itoa in Hs by done. by rewrite (sameValue_int n got).
Qed.
End Lemmas.
