(* ===== verification/N5Driver.v ===== *)
(** Package n5driver (src/internal/n5driver/n5driver.go): the state of the kernel
    driver and the register dumps it prints. *)
From stdpp Require Import base gmap strings list sorting.
From Stdlib Require Import ZArith Lia Ascii.
From S2P Require Import Prelude GoLib GoNet GoPath ControlTypes Hwmon.
Open Scope Z_scope.

Definition ModuleName : string := "minisforum_n5_it5571".
Definition PackageName : string := "minisforum-n5-it5571-dkms".
Definition SysVendor : string := "Micro Computer (HK) Tech Limited".

(** ** The state of the module *)
Record State := mkState {
  st_Loaded : bool; st_Version : string; st_SrcVersion : string; st_Taint : string;
  st_Params : gmap string string; st_HwmonPath : string; st_Attrs : list string; st_PWMVisible : bool;
  st_DCRPath : string }.

Definition Param (s : State) (name : string) : string := default "" (st_Params s !! name).
Definition yes (v : string) : bool := String.eqb v "Y" || String.eqb v "y" || String.eqb v "1".
Definition Forced (s : State) : bool := yes (Param s "force").
Definition WriteDisabled (s : State) : bool := negb (String.eqb (st_HwmonPath s) "") && negb (st_PWMVisible s).

Definition Mode (s : State) : string :=
  if negb (st_Loaded s) && String.eqb (st_HwmonPath s) "" then "not-loaded"
  else if String.eqb (st_HwmonPath s) "" then "no-hwmon"
  else if st_PWMVisible s then "write-enabled" else "write-disabled".

Definition writeDisabledWhy (s : State) : string :=
  if Forced s then "force-loaded"
  else if negb (String.eqb (Param s "experimental_write") "") && negb (yes (Param s "experimental_write"))
  then "experimental_write=N"
  else "board not in the driver's write allowlist, DMI vendor mismatch, or experimental_write off".
Definition Findings (s : State) : list string :=
  (if Forced s then ["force=Y: the driver bound without a known DMI match; from driver 0.2.1+sr1 that binding is always read-only"]
   else []) ++
  (if WriteDisabled s then
     [String.append "write disabled: the driver hides the pwm nodes (" (String.append (writeDisabledWhy s)
        "); fans stay under EC control and n5-fangov cannot regulate")]
   else []) ++
  (if yes (Param s "debug_regs") then ["debug_regs=Y: register dump for validation only, it must not stay in modprobe.d"]
   else []).

Section Read.
Context {W : Type} {O : Os W}.
(** Whether a directory entry is neither a directory nor a symbolic link. *)
Context (plain_file : string -> W -> bool).

Definition readTrim (p : string) (w : W) : string :=
  match os_ReadFile p w with inl _ => "" | inr b => TrimSpace b end.
Definition DCRPath (sysRoot : string) : string := JoinPath [sysRoot; "kernel"; "debug"; ModuleName; "dcr"].
Definition ECRAMPath (sysRoot : string) : string := JoinPath [sysRoot; "kernel"; "debug"; ModuleName; "ecram"].

Definition findHwmon (sysRoot : string) (w : W) : string :=
  let dir := JoinPath [sysRoot; "class"; "hwmon"] in
  match os_ReadDir dir w with
  | None => ""
  | Some ents =>
      default "" (find (fun p => String.eqb (readTrim (JoinPath [p; "name"]) w) ModuleName)
                    (map (fun n => JoinPath [dir; n]) (sort_strings ents)))
  end.

Definition Read (sysRoot : string) (w : W) : State :=
  let mod_ := JoinPath [sysRoot; "module"; ModuleName] in
  let params := match os_ReadDir (JoinPath [mod_; "parameters"]) w with
                | Some ents => list_to_map (map (fun e => (e, readTrim (JoinPath [mod_; "parameters"; e]) w)) ents)
                | None => ∅
                end in
  let hw := findHwmon sysRoot w in
  mkState (os_IsDir mod_ w) (readTrim (JoinPath [mod_; "version"]) w) (readTrim (JoinPath [mod_; "srcversion"]) w)
    (readTrim (JoinPath [mod_; "taint"]) w) params hw
    (if String.eqb hw "" then []
     else match os_ReadDir hw w with
          | Some ents => sort_strings (List.filter (fun e => plain_file (JoinPath [hw; e]) w) ents)
          | None => []
          end)
    (negb (String.eqb hw "") && os_Exists (JoinPath [hw; "pwm1"]) w && os_Exists (JoinPath [hw; "pwm1_enable"]) w)
    (if os_Exists (DCRPath sysRoot) w then DCRPath sysRoot else "").
End Read.

(** ** The duty registers

    A dump is the list of its sixteen bytes. *)
Definition DCR : Type := list Z.
Definition Reg (d : DCR) (n : Z) : Z := nth (Z.to_nat (2 + n)) d 0.
Definition ChannelDCR (pwm : Z) : option Z :=
  if (pwm =? 1) || (pwm =? 2) || (pwm =? 3) then Some pwm else if pwm =? 4 then Some 5 else None.
Definition DCR_Channel (d : DCR) (pwm : Z) : option Z :=
  match ChannelDCR pwm with Some n => Some (Reg d n) | None => None end.
Definition DCR_String (d : DCR) : string :=
  String.append "1800:" (String.concat "" (map (fun v => String " " (hex2 v)) d)).

(** Bytes seen so far: [None] where none was. *)
Abbreviation Dump := (list (option Z)).
Definition empty_dump (n : nat) : Dump := repeat None n.

(** The bytes of a line from offset [off] on; [None] for a bad byte.  [over] says
    what a byte past the end means: the end of the line, or an error. *)
Fixpoint fill (over_ok : bool) (off : nat) (fs : list string) (d : Dump) : option Dump :=
  match fs with
  | [] => Some d
  | f :: fs' =>
      if (length d <=? off)%nat then if over_ok then Some d else None
      else match ParseHex f 255 with
           | None => None
           | Some v => fill over_ok (S off) fs' (<[off := Some v]> d)
           end
  end.
Definition dump_line (base : Z) (over_ok : bool) (line : string) (d : Dump) : option Dump :=
  match Cut (TrimSpace line) ":" with
  | None => Some d
  | Some (addr, rest) =>
      match ParseHex (TrimSpace addr) 65535 with
      | None => Some d
      | Some a =>
          if (a <? base) || (base + Z.of_nat (length d) <=? a) then Some d
          else fill over_ok (Z.to_nat (a - base)) (Fields rest) d
      end
  end.
Fixpoint dump_lines (base : Z) (over_ok : bool) (lines : list string) (d : Dump) : option Dump :=
  match lines with
  | [] => Some d
  | line :: lines' =>
      match dump_line base over_ok line d with None => None | Some d => dump_lines base over_ok lines' d end
  end.
Definition seen (d : Dump) (off : nat) : bool := match d !! off with Some (Some _) => true | _ => false end.
Definition dump_bytes (d : Dump) : list Z := map (default 0) d.

Definition ParseDCR (s : string) : option DCR :=
  match dump_lines 6144 true (Split s "010"%char) (empty_dump 16) with
  | None => None
  | Some d => if forallb (seen d) (seq 3 5) then Some (dump_bytes d) else None
  end.

(** ** The EC memory *)
Definition ECRAM : Type := list Z.
Definition Hex (e : ECRAM) (lo hi : Z) : string :=
  Join (map hex2 (take (Z.to_nat (hi - lo + 1)) (drop (Z.to_nat lo) e))) " ".
Definition ParseECRAM (s : string) : option ECRAM :=
  match dump_lines 0 false (Split s "010"%char) (empty_dump 256) with
  | None => None
  | Some d => if forallb (seen d) (seq 0 256) then Some (dump_bytes d) else None
  end.

(** ** Bounded reads

    A read of the dump either returns or is still blocked when [DCRTimeout] is
    over; [dcrBlocked] is set until it returns. *)
Inductive Timed := Returned (r : Err + string) | Blocked.
Definition ReadDCR (dcrBlocked : bool) (read : Timed) : option DCR * bool :=
  if dcrBlocked then (None, true)
  else match read with
       | Returned (inl _) => (None, false)
       | Returned (inr b) => (ParseDCR b, false)
       | Blocked => (None, true)
       end.
Definition ReadECRAM (read : Timed) : option ECRAM :=
  match read with Returned (inr b) => ParseECRAM b | _ => None end.

Example ParseDCR_ex :
  ParseDCR "1803: 55 4a 57 57 8c" = Some [0; 0; 0; 85; 74; 87; 87; 140; 0; 0; 0; 0; 0; 0; 0; 0] /\
  ParseDCR "1803: 55 4a 57 57" = None /\ ParseDCR "1803: 55 4a 57 57 1ff" = None /\ ParseDCR "" = None.
Proof. by vm_compute. Qed.

(** ** Round trip *)
Lemma fields_token tok rest : Forall (fun c => is_space c = false) tok -> tok <> [] ->
  fields_loop (tok ++ " "%char :: rest) [] = of_chars tok :: fields_loop rest [].
Proof.
  intros Hf Hne. enough (forall cur, fields_loop (tok ++ " "%char :: rest) cur =
    match rev cur ++ tok with [] => fields_loop rest [] | l => of_chars l :: fields_loop rest [] end) as H.
  { rewrite H. by destruct tok. }
  clear Hne. induction Hf as [|c tok Hc _ IH]; intros cur.
  - rewrite app_nil_r. destruct cur as [|x cur]; [done|]. cbn [app fields_loop]. change (is_space " ") with true. cbv iota.
    cbn [rev]. by destruct (rev cur ++ [x]) eqn:E; [destruct (rev cur)|].
  - cbn [app fields_loop]. rewrite Hc. rewrite IH. cbn [rev]. by rewrite <- app_assoc.
Qed.
Lemma fields_last tok : Forall (fun c => is_space c = false) tok -> tok <> [] -> fields_loop tok [] = [of_chars tok].
Proof.
  intros Hf Hne. enough (forall cur, fields_loop tok cur = match rev cur ++ tok with [] => [] | l => [of_chars l] end) as H.
  { rewrite H. by destruct tok. }
  clear Hne. induction Hf as [|c tok Hc _ IH]; intros cur.
  - rewrite app_nil_r. destruct cur as [|x cur]; [done|]. cbn [fields_loop rev].
    by destruct (rev cur ++ [x]) eqn:E; [destruct (rev cur)|].
  - cbn [fields_loop]. rewrite Hc, IH. cbn [rev]. by rewrite <- app_assoc.
Qed.

Definition byte_ok (b : Z) : Prop := 0 <= b <= 255.
Lemma hex2_plain b : byte_ok b -> Forall (fun c => is_space c = false /\ c <> ":"%char /\ c <> "010"%char) (chars (hex2 b)).
Proof.
  intros Hb. assert (Hall : forallb (fun n => forallb (fun c => negb (is_space c) && negb (is_char c ":") && negb (is_char c "010"))
      (chars (hex2 (Z.of_nat n)))) (seq 0 256) = true) by by vm_compute.
  rewrite forallb_forall in Hall. specialize (Hall (Z.to_nat b) ltac:(apply in_seq; unfold byte_ok in *; lia)).
  rewrite Z2Nat.id in Hall by (unfold byte_ok in *; lia). rewrite Forall_forall. intros c Hc%list_elem_of_In.
  rewrite forallb_forall in Hall. specialize (Hall c Hc). rewrite !andb_true_iff, !negb_true_iff in Hall.
  destruct Hall as [[? H1%Ascii.eqb_neq] H2%Ascii.eqb_neq]. done.
Qed.

Definition byte_texts (d : list Z) : list ascii := flat_map (fun b => " "%char :: chars (hex2 b)) d.

Lemma fields_byte_texts d : Forall byte_ok d -> fields_loop (byte_texts d) [] = map hex2 d.
Proof.
  assert (Htok : forall b, byte_ok b -> Forall (fun c => is_space c = false) (chars (hex2 b)) /\ chars (hex2 b) <> []).
  { intros b Hb. split; [|done]. eapply Forall_impl; [by apply hex2_plain|]. by intros c (? & _). }
  induction 1 as [|b d Hb Hd IH]; [done|].
  cbn [byte_texts flat_map app fields_loop map]. change (is_space " ") with true. cbv iota. cbn [app].
  destruct (Htok b Hb) as [Hf Hne]. destruct d as [|b' d].
  - cbn [flat_map]. rewrite app_nil_r. rewrite (fields_last _ Hf Hne). by rewrite of_chars_chars.
  - cbn [byte_texts flat_map app fields_loop] in IH. change (is_space " ") with true in IH. cbv iota in IH. cbn [app] in IH.
    cbn [flat_map app]. rewrite (fields_token _ _ Hf Hne), of_chars_chars. by rewrite IH.
Qed.

Lemma insert_at {A} (pre suf : list A) x y : <[length pre := y]> (pre ++ x :: suf) = (pre ++ [y]) ++ suf.
Proof. induction pre as [|z pre IH]; [done|]. cbn. by f_equal. Qed.
Lemma fill_bytes over vs (pre suf : Dump) : Forall byte_ok vs -> (length vs <= length suf)%nat ->
  fill over (length pre) (map hex2 vs) (pre ++ suf) = Some (pre ++ map Some vs ++ drop (length vs) suf).
Proof.
  intros Hb. revert pre suf. induction Hb as [|v vs Hv Hvs IH]; intros pre suf Hl; cbn [map fill]; [done|].
  destruct suf as [|x suf]; cbn [length] in Hl; [lia|].
  destruct (Nat.leb_spec (length (pre ++ x :: suf)) (length pre)) as [H|_]; [rewrite length_app in H; cbn in H; lia|].
  rewrite ParseHex_hex2 by apply Hv.
  rewrite insert_at.
  replace (S (length pre)) with (length (pre ++ [Some v])) by (rewrite length_app; cbn; lia).
  rewrite IH by lia. cbn [drop length app]. by rewrite <- app_assoc.
Qed.

Lemma byte_texts_plain d : Forall byte_ok d -> Forall (fun c => c <> "010"%char) (byte_texts d).
Proof.
  induction 1 as [|b d Hb _ IH]; [constructor|]. cbn [byte_texts flat_map]. constructor; [done|].
  apply Forall_app. split; [|exact IH]. eapply Forall_impl; [by apply hex2_plain|]. by intros c (_ & _ & ?).
Qed.
Lemma byte_texts_last d : Forall byte_ok d -> d <> [] -> exists l c, byte_texts d = l ++ [c] /\ is_space c = false.
Proof.
  intros Hb Hne. destruct (exists_last Hne) as (d' & b & ->). apply Forall_app in Hb as [_ Hb%Forall_inv].
  unfold byte_texts. rewrite flat_map_app. cbn [flat_map]. rewrite app_nil_r.
  pose proof (hex2_plain b Hb) as Hp. destruct (exists_last (l := chars (hex2 b)) ltac:(done)) as (l & c & E).
  rewrite E in *. exists (flat_map (fun b => " "%char :: chars (hex2 b)) d' ++ " "%char :: l), c.
  split; [by rewrite <- app_assoc|]. apply Forall_app in Hp as [_ Hp%Forall_inv]. by destruct Hp.
Qed.
Lemma chars_DCR_String d : chars (DCR_String d) = chars "1800:" ++ byte_texts d.
Proof.
  unfold DCR_String. rewrite chars_app. f_equal. induction d as [|b d IH]; [done|].
  cbn [map byte_texts flat_map]. destruct d as [|b' d].
  - cbn [map flat_map]. by rewrite app_nil_r.
  - cbn [map] in *. change (String.concat "" (String " " (hex2 b) :: String " " (hex2 b') :: map (fun v => String " " (hex2 v)) d))
      with (String.append (String " " (hex2 b)) (String.concat "" (String " " (hex2 b') :: map (fun v => String " " (hex2 v)) d))).
    rewrite chars_app, IH. done.
Qed.

(** The register dump of the driver reads back: what it prints for sixteen bytes
    is parsed to these bytes, so a duty register the kernel reports is compared
    with the duty that was written. *)
Theorem dcr_roundtrip (d : DCR) : length d = 16%nat -> Forall byte_ok d -> ParseDCR (DCR_String d) = Some d.
Proof.
  intros Hlen Hb. destruct (byte_texts_last d Hb) as (l & c & El & Hc); [by intros ->|].
  assert (Hs : DCR_String d = of_chars (chars "1800:" ++ byte_texts d)) by by rewrite <- chars_DCR_String, of_chars_chars.
  unfold ParseDCR. assert (Split (DCR_String d) "010"%char = [DCR_String d]) as ->.
  { unfold Split. rewrite split_chars_plain; [by cbn [rev app]; rewrite of_chars_chars|]. rewrite chars_DCR_String.
    apply Forall_app. split; [by repeat constructor|by apply byte_texts_plain]. }
  cbn [dump_lines]. unfold dump_line.
  assert (TrimSpace (DCR_String d) = DCR_String d) as ->.
  { rewrite Hs, El. change (chars "1800:" ++ l ++ [c]) with ("1"%char :: (chars "800:" ++ l) ++ [c]). by apply TrimSpace_id. }
  unfold Cut. rewrite chars_DCR_String. change (chars "1800:" ++ byte_texts d) with (chars "1800" ++ ":"%char :: byte_texts d).
  rewrite cut_first_app by (by repeat constructor). cbv beta iota.
  change (ParseHex (TrimSpace (of_chars (chars "1800"))) 65535) with (Some 6144). cbv beta iota.
  change ((6144 <? 6144) || (6144 + Z.of_nat (length (empty_dump 16)) <=? 6144)) with false. cbv iota.
  unfold Fields. rewrite chars_of_chars, fields_byte_texts by done.
  change (Z.to_nat (6144 - 6144)) with (length ([] : Dump)). change (empty_dump 16) with ([] ++ empty_dump 16).
  rewrite fill_bytes by (done || (rewrite Hlen; done)). rewrite Hlen. cbn [app]. change (drop 16 (empty_dump 16)) with ([] : Dump).
  rewrite app_nil_r. assert (forallb (seen (map Some d)) (seq 3 5) = true) as ->.
  { apply forallb_forall. intros i Hi%in_seq. unfold seen. rewrite list_lookup_fmap.
    destruct (lookup_lt_is_Some_2 d i ltac:(lia)) as [x ->]. done. }
  unfold dump_bytes. rewrite map_map. f_equal. cbn. apply map_id.
Qed.

Theorem dcr_roundtrip_witness :
  ParseDCR (DCR_String [0; 255; 0; 85; 74; 87; 87; 140; 0; 0; 0; 0; 0; 0; 0; 1])
  = Some [0; 255; 0; 85; 74; 87; 87; 140; 0; 0; 0; 0; 0; 0; 0; 1].
Proof.
  apply dcr_roundtrip; [done|]. repeat constructor; done.
Defined.
