(* ===== verification/HwStatus.v ===== *)
(** Package hwstatus (src/internal/hwstatus/hwstatus.go): what is known about a
    product, board, BIOS and EC firmware.  The embedded table is an argument. *)
From stdpp Require Import base gmap strings list.
From Stdlib Require Import ZArith Lia Ascii.
From S2P Require Import Prelude GoLib GoNet GoPath ControlTypes Hwmon N5Driver.
Open Scope Z_scope.

(** [Status] is the text the table uses. *)
Definition Validated : string := "validated".
Definition Tested : string := "tested".
Definition Experimental : string := "experimental".
Definition Unknown : string := "unknown".
Definition Verified (s : string) : bool := String.eqb s Validated || String.eqb s Tested.
Definition Valid (s : string) : bool :=
  String.eqb s Validated || String.eqb s Tested || String.eqb s Experimental || String.eqb s Unknown.

Record Entry := mkEntry {
  en_Product : string; en_Board : string; en_BIOS : string; en_EC : string; en_Status : string;
  en_Origin : string; en_Date : string; en_Note : string }.
#[export] Instance Entry_eq_dec : EqDecision Entry.
Proof. solve_decision. Defined.
Record Meta := mkMeta { me_Source : string; me_SHA : string; me_Generated : string }.

Definition origins (o : string) : option string :=
  if String.eqb o "eigen" || String.eqb o "own" then Some "own"
  else if String.eqb o "upstream" then Some "upstream"
  else if String.eqb o "bericht" || String.eqb o "report" then Some "report"
  else None.

Inductive ParseErr :=
  | FieldCount (line n : nat) | EmptyKey (line : nat) | BadStatus (line : nat) | BadOrigin (line : nat)
  | NeedsOwn (line : nat) | NoRows | NoMeta.

(** A "#" line: the metadata it sets. *)
Definition meta_line (line : string) (m : Meta) : Meta :=
  match Cut (TrimSpace (TrimPrefix line "#")) ":" with
  | None => m
  | Some (k, v) =>
      let v := TrimSpace v in
      let k := TrimSpace k in
      if String.eqb k "source" then mkMeta v (me_SHA m) (me_Generated m)
      else if String.eqb k "source-table-sha256" then mkMeta (me_Source m) v (me_Generated m)
      else if String.eqb k "generated" then mkMeta (me_Source m) (me_SHA m) v
      else m
  end.
Definition row_line (n : nat) (line : string) : ParseErr + Entry :=
  match map TrimSpace (Split line "009"%char) with
  | [f0; f1; f2; f3; f4; f5; f6; f7] =>
      if String.eqb f0 "" || String.eqb f1 "" || String.eqb f2 "" || String.eqb f3 "" then inl (EmptyKey n)
      else if negb (Valid f4) then inl (BadStatus n)
      else match origins (ToLower f5) with
           | None => inl (BadOrigin n)
           | Some o => if Verified f4 && negb (String.eqb o "own") then inl (NeedsOwn n)
                       else inr (mkEntry f0 f1 f2 f3 f4 o f6 f7)
           end
  | l => inl (FieldCount n (length l))
  end.
(** [strings.TrimRight(line, "\r")] *)
Definition trim_cr (s : string) : string :=
  of_chars (rev (drop_while (fun c => is_char c "013") (rev (chars s)))).
Fixpoint parse_lines (n : nat) (lines : list string) (out : list Entry) (m : Meta) : ParseErr + (list Entry * Meta) :=
  match lines with
  | [] => inr (out, m)
  | l :: lines' =>
      let line := trim_cr l in
      if String.eqb (TrimSpace line) "" then parse_lines (S n) lines' out m
      else if HasPrefix line "#" then parse_lines (S n) lines' out (meta_line line m)
      else match row_line (S n) line with
           | inl e => inl e
           | inr e => parse_lines (S n) lines' (out ++ [e]) m
           end
  end.
Definition Parse (s : string) : ParseErr + (list Entry * Meta) :=
  match parse_lines 0 (ScanLines s) [] (mkMeta "" "" "") with
  | inl e => inl e
  | inr (out, m) =>
      match out with
      | [] => inl NoRows
      | _ => if String.eqb (me_Source m) "" || String.eqb (me_Generated m) "" then inl NoMeta else inr (out, m)
      end
  end.

(** ** Identity *)
Record Identity := mkIdentity {
  id_Product : string; id_Board : string; id_BoardVersion : string; id_SysVendor : string; id_BIOS : string;
  id_BIOSDate : string; id_EC : string }.
Definition ReadIdentity {W} {O : Os W} (sysRoot : string) (w : W) : Identity :=
  let rd name := readTrim (JoinPath [sysRoot; "class"; "dmi"; "id"; name]) w in
  mkIdentity (rd "product_name") (rd "board_name") (rd "board_version") (rd "sys_vendor") (rd "bios_version")
    (rd "bios_date") (rd "ec_firmware_release").
Definition Key (id : Identity) : string :=
  let or s := if String.eqb s "" then "?" else s in
  String.concat "" [or (id_Product id); " / "; or (id_Board id); " / BIOS "; or (id_BIOS id); " / EC "; or (id_EC id)].

(** ** Lookup *)
Record Result := mkResult { re_Status : string; re_Key : string; re_Entry : option Entry; re_Reason : string }.

(** How well a row fits: 2 for the BIOS, 1 for the EC firmware, 0 for "*"; [None]
    when it does not fit. *)
Definition field_score (pat val : string) (exact : Z) : option Z :=
  if String.eqb pat val && negb (String.eqb val "") then Some exact else if String.eqb pat "*" then Some 0 else None.
Definition score (e : Entry) (id : Identity) : option Z :=
  if negb (String.eqb (en_Product e) (id_Product id)) || negb (String.eqb (en_Board e) (id_Board id)) then None
  else
    match field_score (en_BIOS e) (id_BIOS id) 2, field_score (en_EC e) (id_EC id) 1 with
    | Some x, Some y => Some (x + y)
    | _, _ => None
    end.
Fixpoint best_row (t : list Entry) (id : Identity) (best : option Entry) (bestScore : Z) : option Entry :=
  match t with
  | [] => best
  | e :: t' =>
      match score e id with
      | Some s => if bestScore <? s then best_row t' id (Some e) s else best_row t' id best bestScore
      | None => best_row t' id best bestScore
      end
  end.
Definition lookupIn (t : list Entry) (id : Identity) : Result :=
  match best_row t id None (-1) with
  | None => mkResult Unknown (Key id) None
              "this product/board/BIOS/EC firmware combination is not in the hardware results table"
  | Some e =>
      mkResult (en_Status e) (Key id) (Some e)
        (if String.eqb (en_Origin e) "upstream"
         then String.append (en_Status e) " per the driver author (upstream), not tested by this project"
         else if String.eqb (en_Origin e) "report"
         then String.append (en_Status e) " from a user report, not tested by this project"
         else String.append (en_Status e) " on the reference device")
  end.
Definition ForProfile (t : list Entry) (profileName : string) (id : Identity) : Result :=
  if negb (String.eqb profileName "n5pro") then
    mkResult Unknown (Key id) None
      (if String.eqb profileName "monitor" then "monitoring only, no fan control"
       else "no hardware results for this profile (from documentation, untested)")
  else
    let r := lookupIn t id in
    match re_Entry r with
    | Some _ => if negb (String.eqb (id_Product id) "N5 PRO")
                then mkResult (re_Status r) (re_Key r) (re_Entry r)
                       (String.append (re_Reason r) "; the n5pro channel table is measured on the N5 PRO only")
                else r
    | None => r
    end.

Definition writeBoards (product board : string) : bool :=
  (String.eqb product "N5" || String.eqb product "N5 PRO") && String.eqb board "F8NAA".
Definition WriteCapable (id : Identity) : bool :=
  writeBoards (id_Product id) (id_Board id) && String.eqb (id_SysVendor id) SysVendor.
Definition Describe (r : Result) : string :=
  String.concat "" [re_Status r; " ("; re_Key r; ": "; re_Reason r; ")"].

(** ** Lemmas *)
Lemma score_nonneg e id s : score e id = Some s -> 0 <= s.
Proof.
  unfold score, field_score. intros H. repeat case_match; simplify_eq; lia.
Qed.

(** The first of the rows that fit best. *)
Definition fits_best (t : list Entry) (id : Identity) (i : nat) (e : Entry) : Prop :=
  t !! i = Some e /\ exists s, score e id = Some s /\
    (forall j e' s', t !! j = Some e' -> score e' id = Some s' -> s' <= s /\ ((j < i)%nat -> s' < s)).

Lemma best_row_spec t id best bs :
  (best = None -> bs = -1) ->
  match best_row t id best bs with
  | Some e =>
      (best = Some e /\ forall j e' s', t !! j = Some e' -> score e' id = Some s' -> s' <= bs) \/
      exists i s, t !! i = Some e /\ score e id = Some s /\ bs < s /\
        forall j e' s', t !! j = Some e' -> score e' id = Some s' -> s' <= s /\ ((j < i)%nat -> s' < s)
  | None => best = None /\ forall j e', t !! j = Some e' -> score e' id = None
  end.
Proof.
  revert best bs. induction t as [|e t IH]; intros best bs Hb; cbn [best_row].
  { destruct best; [by left|done]. }
  destruct (score e id) as [s|] eqn:Es; [destruct (Z.ltb_spec bs s) as [Hlt|Hge]|].
  - specialize (IH (Some e) s ltac:(done)). destruct (best_row t id (Some e) s) as [e0|]; [|by destruct IH].
    right. destruct IH as [[[= <-] Hle]|(i & s0 & Hi & Hs0 & Hlt0 & Hall)].
    + exists 0%nat, s. split_and!; [done|done|done|].
      intros [|j] e' s' He' Hs'; [injection He' as <-; rewrite Es in Hs'; injection Hs' as <-; lia|].
      specialize (Hle j e' s' He' Hs'). lia.
    + exists (S i), s0. split_and!; [done|done|lia|].
      intros [|j] e' s' He' Hs'; [injection He' as <-; rewrite Es in Hs'; injection Hs' as <-; lia|].
      specialize (Hall j e' s' He' Hs'). lia.
  - specialize (IH best bs Hb). destruct (best_row t id best bs) as [e0|].
    + destruct IH as [[-> Hle]|(i & s0 & Hi & Hs0 & Hlt0 & Hall)].
      * left. split; [done|]. intros [|j] e' s' He' Hs'; [injection He' as <-; rewrite Es in Hs'; by injection Hs' as <-|].
        by eapply Hle.
      * right. exists (S i), s0. split_and!; [done|done|lia|].
        intros [|j] e' s' He' Hs'; [injection He' as <-; rewrite Es in Hs'; injection Hs' as <-; lia|].
        specialize (Hall j e' s' He' Hs'). lia.
    + destruct IH as [-> _]. specialize (Hb eq_refl). apply score_nonneg in Es. lia.
  - specialize (IH best bs Hb). destruct (best_row t id best bs) as [e0|].
    + destruct IH as [[-> Hle]|(i & s0 & Hi & Hs0 & Hlt0 & Hall)].
      * left. split; [done|]. intros [|j] e' s' He' Hs'; [injection He' as <-; congruence|by eapply Hle].
      * right. exists (S i), s0. split_and!; [done|done|lia|].
        intros [|j] e' s' He' Hs'; [injection He' as <-; congruence|]. specialize (Hall j e' s' He' Hs'). lia.
    + destruct IH as [-> Hall]. split; [done|]. intros [|j] e' He'; [by injection He' as <-|by eapply Hall].
Qed.

(** Lookup answers with the first row that fits the machine best, the BIOS
    counting more than the EC firmware and both more than "*"; without a fitting
    row the hardware is unknown, and an unread BIOS or EC version only fits "*". *)
Theorem lookup_best (t : list Entry) (id : Identity) :
  match re_Entry (lookupIn t id) with
  | Some e => re_Status (lookupIn t id) = en_Status e /\ exists i, fits_best t id i e
  | None => re_Status (lookupIn t id) = Unknown /\ forall j e, t !! j = Some e -> score e id = None
  end.
Proof.
  unfold lookupIn. pose proof (best_row_spec t id None (-1) ltac:(done)) as H.
  destruct (best_row t id None (-1)) as [e|]; cbn [re_Entry re_Status].
  - split; [done|]. destruct H as [[? _]|(i & s & Hi & Hs & _ & Hall)]; [done|]. exists i. split; [done|]. eauto.
  - split; [done|]. by destruct H.
Qed.

(** Only results of this project are "validated" or "tested". *)
Lemma parse_lines_own n lines out m r m' :
  parse_lines n lines out m = inr (r, m') ->
  Forall (fun e => Verified (en_Status e) = true -> en_Origin e = "own") out ->
  Forall (fun e => Verified (en_Status e) = true -> en_Origin e = "own") r.
Proof.
  revert n out m. induction lines as [|l lines IH]; intros n out m; cbn [parse_lines]; [by intros [= <- <-]|].
  cbv zeta. destruct (String.eqb (TrimSpace (trim_cr l)) ""); [apply IH|].
  destruct (HasPrefix (trim_cr l) "#"); [apply IH|].
  destruct (row_line (S n) (trim_cr l)) as [|e] eqn:E; [done|]. intros H Hf. apply (IH _ _ _ H).
  apply Forall_app. split; [done|]. constructor; [|done]. unfold row_line in E.
  repeat case_match; try done. injection E as <-. cbn. intros Hv.
  match goal with E : (_ && negb _)%bool = false |- _ =>
    apply andb_false_iff in E as [E|E]; [congruence|by apply negb_false_iff, String.eqb_eq in E] end.
Qed.
