(* ===== verification/ControlAlert.v ===== *)
(** Alerts and rate-limited driver warnings of the controller:
    [raise] and the alert stamps (src/internal/control/controller.go),
    [noteReadErr] and [noteReadOK] (readerr.go), [dcrDeviation] (dcr.go). *)
From stdpp Require Import base gmap strings list.
From Stdlib Require Import ZArith Lia.
From S2P Require Import Prelude GoLib ConfigTypes ControlTypes.
Open Scope Z_scope.

Definition ReadErrInterval : Z := 5 * Minute.
Definition DCRWarnInterval : Z := ReadErrInterval.

Section Alerts.
  Context {W Rd : Type} `{Host W}.
  Local Abbreviation MS := (M (Sys W Rd)).

(** [int64(d.Seconds())]. *)
Definition whole_seconds (d : Z) : Z := Z.quot d Second.

(** The cooldown decision of [raise] at time [nowT]. *)
Definition suppressed (c : Controller Rd) (kind : string) (nowT : Time) : bool :=
  let cool := d_AlertCooldown (c_Daemon (k_cfg c)) in
  match k_alertAt c !! kind with
  | Some at_ => let el := tSub nowT at_ in (0 <=? el) && (el <? cool)
  | None =>
      match k_alerts c !! kind with
      | Some lst => let d := tUnix nowT - lst in (0 <=? d) && (d <? whole_seconds cool)
      | None => false
      end
  end.

Definition raise (kind : string) (msg : AlertMsg) : MS unit :=
  let* nowT := lift host_now in
  let* c := getc in
  if suppressed c kind nowT then ret tt
  else
    modc (fun c => c <| k_alerts := <[kind := tUnix nowT]> (k_alerts c) |>
                     <| k_alertAt := <[kind := nowT]> (k_alertAt c) |>) ;;;
    (if o_RunDir (k_opts c)
     then let* _ := lift (host_WriteRun (String.append "alert." kind)
                            (String.append (Itoa (tUnix nowT)) newline)) in ret tt
     else ret tt) ;;;
    emit (EvAlert kind nowT (d_AlertCooldown (c_Daemon (k_cfg c)))) ;;;
    lift (host_Alert kind msg).

(** The stamp files of the run directory: kind and unix second. *)
Definition loadAlertStamps : MS unit :=
  let* names := lift host_ListRun in
  iterM (fun name =>
    if HasPrefix name "alert." then
      let* content := lift (host_ReadRun name) in
      match content with
      | None => ret tt
      | Some b =>
          match Atoi (TrimSpace b) with
          | None => ret tt
          | Some ts => modc (fun c =>
              c <| k_alerts := <[TrimPrefix name "alert." := ts]> (k_alerts c) |>)
          end
      end
    else ret tt) names.

(** ** Rate-limited warnings

    A state without a first warning ([rs_last = None]) has nothing suppressed. *)
Definition driverErrnos : list Sentinel := [ETIMEDOUT; EAGAIN; ENODATA; ENODEV].
Definition driverErrno (e : Err) : bool := existsb (errors_Is e) driverErrnos.

(** A warning about [key] at [now]: logged, or counted when the last one is less
    than [interval] ago. *)
Definition limited (key : string) (interval : Z) (now : Time) : MS unit :=
  let* c := getc in
  let st := default (mkReadErr None 0) (k_readErrs c !! key) in
  match rs_last st with
  | Some lst =>
      if tSub now lst <? interval
      then modc (fun c => c <| k_readErrs :=
             <[key := mkReadErr (Some lst) (rs_suppressed st + 1)]> (k_readErrs c) |>)
      else modc (fun c => c <| k_readErrs := <[key := mkReadErr (Some now) 0]> (k_readErrs c) |>) ;;;
           emit (EvWarn key now)
  | None => modc (fun c => c <| k_readErrs := <[key := mkReadErr (Some now) 0]> (k_readErrs c) |>) ;;;
            emit (EvWarn key now)
  end.

Definition noteReadErr (source : string) (e : Err) : MS unit :=
  if negb (driverErrno e) then ret tt
  else let* now := lift host_now in limited source ReadErrInterval now.

Definition noteReadOK (source : string) : MS unit :=
  let* now := lift host_now in
  let* c := getc in
  match k_readErrs c !! source with
  | None => ret tt
  | Some st =>
      match rs_last st with
      | Some lst =>
          if (rs_suppressed st =? 0) || (tSub now lst <? ReadErrInterval) then ret tt
          else modc (fun c => c <| k_readErrs := <[source := mkReadErr (Some now) 0]> (k_readErrs c) |>) ;;;
               emit (EvWarn source now)
      | None => ret tt
      end
  end.

(** A register deviation is a warning, every other error is passed on. *)
Definition dcrDeviation (name : string) (e : option Err) : MS (option Err) :=
  match e with
  | None => ret None
  | Some e =>
      if negb (errors_Is e ErrDCRMismatch) then ret (Some e)
      else let* now := lift host_now in
           limited (String.append "dcr " name) DCRWarnInterval now ;;; ret None
  end.
End Alerts.
