(* ===== verification/ControlSense.v ===== *)
(** The reading half of a regulation cycle (src/internal/control/controller.go
    and watched.go): resolving sensors and ceilings, reading channel sensors with
    the staleness check, tachometers, extra and watched temperatures. *)
From stdpp Require Import base gmap strings list.
From Stdlib Require Import ZArith QArith Lia.
From S2P Require Import Prelude GoLib Float64 ConfigTypes Curve Ceiling History ControlTypes ControlAlert.
Open Scope Z_scope.

Definition MinPlausible : Z := -20000.
Definition MaxPlausible : Z := 120000.
Definition Plausible (milli : Z) : bool := (MinPlausible <=? milli) && (milli <=? MaxPlausible).

Definition staleSensor : string := "k10temp".
Definition resolveEvery : Z := 60.

Record cycleState := mkCycle {
  cy_n : Z; cy_d : Daemon; cy_ovr : gmap string Z; cy_nBad : Z; cy_extra : gmap string Q;
  cy_watchedVals : gmap string Q }.
#[export] Instance eta_cycleState : Eta cycleState := fun c =>
  mkCycle (cy_n c) (cy_d c) (cy_ovr c) (cy_nBad c) (cy_extra c) (cy_watchedVals c).

(** Where a channel goes while its temperature is unknown. *)
Definition safeDuty {Rd} (ch : channel Rd) : Z :=
  match StopDuty (ch_cfg ch) with Some d => d | None => 255 end.

Section Sense.
  Context {W Rd : Type} `{Device W} `{Sensors W Rd} `{Host W}.
  Local Abbreviation MS := (M (Sys W Rd)).

Definition resolveSensor (cc : Channel) : MS (option Rd) := lift (sen_New (cc_Sensor cc)).

(** The lowest effective ceiling of the parts and the parts' own. *)
Definition ceilingOf (cc : Channel) : MS (Z * list PartCeiling) :=
  let* w := world in
  let parts := PartCeilings (sen_DiskKind w) (cc_Sensor cc) (cc_Ceiling cc) in
  let low := lowest parts in
  ret (if low =? 0 then CeilingDefault else low, parts).

Definition partsOf (rd : Rd) (id : string) (v : Z) : MS (list Part) :=
  let* w := world in
  ret (match sen_Parts rd w with
       | Some (p :: ps) => p :: ps
       | _ => [mkPart id v]
       end).

(** Install a reader and the ceilings that come with it. *)
Definition install (ch : channel Rd) (rd : Rd) : MS (channel Rd) :=
  let* cp := ceilingOf (ch_cfg ch) in
  ret (ch <| ch_sensor := Some rd |> <| ch_ceiling := cp.1 |> <| ch_partCeil := cp.2 |>).

(** [resolveSensor] and, when it finds a reader, [install]. *)
Definition try_resolve (ch : channel Rd) : MS (channel Rd) :=
  let* s := resolveSensor (ch_cfg ch) in
  match s with Some rd => install ch rd | None => ret ch end.

Definition reresolve : MS unit := for_chans try_resolve.

Definition sensor_src (ch : channel Rd) : string :=
  String.concat "" ["sensor "; cc_Sensor (ch_cfg ch); " (channel "; cc_Name (ch_cfg ch); ")"].

(** The first loop of [readSensors]: one channel's sensor. *)
Definition read_one (ch : channel Rd) : MS (channel Rd) :=
  let ch := ch <| ch_tempOK := false |> <| ch_sensorErr := SeNone |> in
  let* ch := match ch_sensor ch with None => try_resolve ch | Some _ => ret ch end in
  match ch_sensor ch with
  | None => ret (ch <| ch_sensorErr := SeUnresolved |>)
  | Some rd =>
      let* r := lift (sen_Read rd) in
      match r with
      | inl e => noteReadErr (sensor_src ch) e ;;; ret (ch <| ch_sensorErr := SeRead e |>)
      | inr v =>
          noteReadOK (sensor_src ch) ;;;
          if negb (Plausible v) then ret (ch <| ch_sensorErr := SeImplausible v |>)
          else let* ps := partsOf rd (cc_Sensor (ch_cfg ch)) v in
               ret (ch <| ch_temp := v |> <| ch_tempOK := true |> <| ch_parts := ps |>)
      end
  end.

(** The staleness check on the first channel. *)
Definition stale_check (d : Daemon) : MS unit :=
  let* c := getc in
  match k_chans c with
  | ch :: rest =>
      if (ch_tempOK ch && String.eqb (cc_Sensor (ch_cfg ch)) staleSensor)%bool then
        let raw := ch_temp ch in
        let same := if (k_haveRaw c && (raw =? k_lastRaw c))%bool then k_sameRaw c + 1 else 0 in
        let ch := if d_StaleCycles d <=? same
                  then ch <| ch_tempOK := false |>
                          <| ch_sensorErr := SeFrozen (d_StaleCycles d * d_Interval d) raw |>
                  else ch in
        modc (fun c => c <| k_sameRaw := same |> <| k_lastRaw := raw |> <| k_haveRaw := true |>
                         <| k_chans := ch :: rest |>)
      else ret tt
  | [] => ret tt
  end.

(** The second loop: one channel's transition; [true] when it became bad. *)
Definition judge_one (ch : channel Rd) : MS (channel Rd * bool) :=
  let bad := negb (ch_tempOK ch) in
  if bad then
    let newly := negb (ch_sensorBad ch) in
    let* ch := match ch_sensor ch with Some _ => try_resolve ch | None => ret ch end in
    ret (ch <| ch_sensorBad := true |>, newly)
  else ret (ch <| ch_sensorBad := false |>, false).

Definition fan_src (ch : channel Rd) : string :=
  String.concat "" ["fan"; Itoa (cc_PWM (ch_cfg ch)); "_input (channel "; cc_Name (ch_cfg ch); ")"].

Definition read_rpm (ch : channel Rd) : MS (channel Rd) :=
  let ch := ch <| ch_rpm := -1 |> in
  if negb (ch_hasTach ch) then ret ch
  else
    let* r := lift (dev_ReadRPM (cc_PWM (ch_cfg ch))) in
    match r with
    | inl e => noteReadErr (fan_src ch) e ;;; ret ch
    | inr v => noteReadOK (fan_src ch) ;;; ret (if 0 <=? v then ch <| ch_rpm := v |> else ch)
    end.
Definition readRPMs : MS unit := for_chans read_rpm.

Definition readExtra : MS (gmap string Q) :=
  let* c := getc in
  foldM (fun out idp =>
    let* r := lift (host_ReadFile idp.2) in
    match r with
    | inl e => noteReadErr (String.append "sensor " idp.1) e ;;; ret out
    | inr b =>
        noteReadOK (String.append "sensor " idp.1) ;;;
        match Atoi (TrimSpace b) with
        | Some v => ret (if Plausible v then <[idp.1 := temp_float v]> out else out)
        | None => ret out
        end
    end) ∅ (k_extra c).

(** ** Watched dashboard sensors *)
Definition buildWatched (ids : list string) : MS (list (watchedSensor Rd)) :=
  mapM (fun id => let* s := lift (sen_New id) in ret (mkWatched id s)) ids.

(** One watched sensor in cycle [n]: the (possibly newly resolved) sensor and its
    value. *)
Definition read_watched_one (n : Z) (w : watchedSensor Rd)
  : MS (watchedSensor Rd * option (string * Q)) :=
  let* w := match ws_sensor w with
            | Some _ => ret w
            | None => if (n =? 0) || negb (n mod resolveEvery =? 0) then ret w
                      else let* s := lift (sen_New (ws_id w)) in ret (mkWatched (ws_id w) s)
            end in
  match ws_sensor w with
  | None => ret (w, None)
  | Some rd =>
      let* r := lift (sen_Read rd) in
      match r with
      | inl _ => ret (w, None)
      | inr v => ret (w, if (v <? MinPlausible) || (MaxPlausible <? v) then None
                         else Some (ws_id w, temp_float v))
      end
  end.
Definition readWatched (n : Z) : MS (gmap string Q) :=
  let* c := getc in
  let* rs := mapM (read_watched_one n) (k_watched c) in
  modc (fun c => c <| k_watched := map fst rs |>) ;;;
  ret (fold_left (fun m (r : watchedSensor Rd * option (string * Q)) =>
         match r.2 with Some (id, v) => <[id := v]> m | None => m end) rs ∅).

(** ** readSensors *)
Definition readSensors (cs : cycleState) : MS cycleState :=
  for_chans read_one ;;;
  stale_check (cy_d cs) ;;;
  let* c := getc in
  let* rs := mapM judge_one (k_chans c) in
  modc (fun c => c <| k_chans := map fst rs |>) ;;;
  let chans := map fst rs in
  let nBad := Z.of_nat (length (List.filter (fun ch => negb (ch_tempOK ch)) chans)) in
  let newlyBad := map fst (List.filter snd rs) in
  let* extra := readExtra in
  let* vals := readWatched (cy_n cs) in
  readRPMs ;;;
  (match newlyBad with
   | [] => ret tt
   | _ => raise "sensor"
            (AlSensor (map (fun ch => (cc_Name (ch_cfg ch), ch_sensorErr ch, safeDuty ch)) newlyBad)
               (nBad =? Z.of_nat (length chans)))
   end) ;;;
  ret (cs <| cy_nBad := nBad |> <| cy_extra := extra |> <| cy_watchedVals := vals |>).
End Sense.
