(* ===== verification/Sensor.v ===== *)
(** Package sensor (src/internal/sensor/sensor.go): sensor ids and the temperature
    sources they resolve to.

    A source is a value; [Read] returns it with the readable parts of the composite
    updated, as the method updates its receiver.  The profile's device takes part
    with its extra temperatures and its title. *)
From stdpp Require Import base gmap strings list sorting.
From Stdlib Require Import ZArith Lia Ascii.
From S2P Require Import Prelude GoLib GoNet GoPath Curve ControlTypes ControlSense Hwmon.
Open Scope Z_scope.

Definition MinParts : Z := 2.
Definition MaxParts : Z := 4.

(** [single] and [maximum]. *)
Inductive Leaf := Single (id path : string) | Maximum (id : string) (paths : list string).
Record composite := mkComposite { cp_id : string; cp_parts : list (string * Leaf); cp_last : option (list Part) }.
Inductive Source := SLeaf (l : Leaf) | SComposite (c : composite).

Definition leaf_ID (l : Leaf) : string := match l with Single id _ | Maximum id _ => id end.
Definition ID (s : Source) : string := match s with SLeaf l => leaf_ID l | SComposite c => cp_id c end.

Definition checkPlausible (v : Z) : Err + Z := if negb (Plausible v) then inl [ErrImplausible] else inr v.

(** The highest of the readings that succeed, else the first error. *)
Fixpoint best_of (l : list (Err + Z)) (best : option Z) (firstErr : option Err) : option Z * option Err :=
  match l with
  | [] => (best, firstErr)
  | inl e :: l' => best_of l' best (match firstErr with None => Some e | f => f end)
  | inr v :: l' =>
      best_of l' (match best with Some b => if b <? v then Some v else Some b | None => Some v end) firstErr
  end.

Record Dev := mkDev { dv_Title : string; dv_ExtraTemps : gmap string string }.
Record Info := mkInfo { in_ID : string; in_Description : string; in_Kind : string }.

(** [^hwmon:([^:]+):temp([0-9]+)$] *)
Definition all_digits (l : list ascii) : bool :=
  match l with [] => false | _ => forallb (fun c => match digit_of c with Some _ => true | None => false end) l end.
Definition hwmonIDRe (id : string) : option (string * string) :=
  if negb (HasPrefix id "hwmon:") then None
  else match Cut (TrimPrefix id "hwmon:") ":" with
       | None => None
       | Some (name, rest) =>
           if String.eqb name "" || negb (HasPrefix rest "temp") then None
           else let n := TrimPrefix rest "temp" in
                if all_digits (chars n) then Some (name, n) else None
       end.
(** [^disk:([a-z0-9]{1,32})$] *)
Definition diskIDRe (id : string) : option string :=
  if negb (HasPrefix id "disk:") then None
  else let d := TrimPrefix id "disk:" in if blockDevRe d then Some d else None.
(** [^temp([0-9]+)_input$] *)
Definition tempInRe (name : string) : option string :=
  if negb (HasPrefix name "temp") || negb (HasSuffix name "_input") then None
  else let n := TrimSuffix (TrimPrefix name "temp") "_input" in if all_digits (chars n) then Some n else None.

(** [n, _ := strconv.Atoi(digits)]: the largest [int] when it does not fit. *)
Definition atoi_digits (s : string) : Z := match Atoi s with Some n => n | None => 2 ^ 63 - 1 end.

Section Sensor.
Context {W : Type} {O : Os W}.
Context (root : string).

Definition leaf_inputs (l : Leaf) : list string := match l with Single _ p => [p] | Maximum _ ps => ps end.
Definition read_input (path : string) (w : W) : Err + Z :=
  match ReadInt root path w with inl e => inl e | inr v => checkPlausible v end.

Definition read_leaf (l : Leaf) (w : W) : Err + Z :=
  match l with
  | Single _ p => read_input p w
  | Maximum _ ps =>
      match best_of (map (fun p => read_input p w) ps) None None with
      | (Some v, _) => inr v
      | (None, Some e) => inl e
      | (None, None) => inl [ErrNoDevice]
      end
  end.

Definition Read (s : Source) (w : W) : (Err + Z) * Source :=
  match s with
  | SLeaf l => (read_leaf l w, s)
  | SComposite c =>
      let readings := map (fun p => (p.1, read_leaf p.2 w)) (cp_parts c) in
      let last := flat_map (fun r => match r.2 with inr v => [mkPart r.1 v] | inl _ => [] end) readings in
      let c := mkComposite (cp_id c) (cp_parts c) (Some last) in
      (match best_of (map snd readings) None None with
       | (Some v, _) => inr v
       | (None, Some e) => inl e
       | (None, None) => inl []
       end, SComposite c)
  end.
(** [Parts]: only a composite has them; nil before the first read. *)
Definition Parts (s : Source) : option (list Part) :=
  match s with SLeaf _ => None | SComposite c => Some (default [] (cp_last c)) end.

(** ** Resolution *)
Definition listOrEmpty (w : W) : list HwDevice := match List_devices root w with inr l => l | inl _ => [] end.

(** [filepath.Glob] of [devPath/temp*_input], ordered by number. *)
Definition tempInputs (devPath : string) (w : W) : list string :=
  match os_ReadDir devPath w with
  | None => []
  | Some entries =>
      sort_numbered (flat_map (fun e => match tempInRe e with
                                        | Some n => [(atoi_digits n, JoinPath [devPath; e])]
                                        | None => []
                                        end) entries)
  end.
Definition allTempInputs (name : string) (w : W) : list string :=
  flat_map (fun d => tempInputs (hd_Path d) w) (FindByName root name w).

Definition temp1 (d : HwDevice) : string := JoinPath [hd_Path d; "temp1_input"].

(** [Parse] of an id without a comma. *)
Definition parse_one (id : string) (dev : option Dev) (w : W) : Err + Leaf :=
  let id := TrimSpace id in
  if String.eqb id "" then inl [EOther]
  else if HasPrefix id "disk:" then
    match diskIDRe id with
    | None => inl [EOther]
    | Some d => match DiskHwmon root d w with
                | inl _ => inl [ErrNoDevice]
                | inr p => inr (Single id (JoinPath [p; "temp1_input"]))
                end
    end
  else if String.eqb id "k10temp" then
    match FindByName root "k10temp" w with
    | [] => inl [ErrNoDevice]
    | d :: _ => inr (Single id (temp1 d))
    end
  else if String.eqb id "coretemp" then
    match allTempInputs "coretemp" w with
    | [] => inl [ErrNoDevice]
    | ps => inr (Maximum id ps)
    end
  else if String.eqb id "nvme:max" || String.eqb id "drivetemp:max" then
    match map temp1 (FindByName root (TrimSuffix id ":max") w) with
    | [] => inl [ErrNoDevice]
    | ps => inr (Maximum id ps)
    end
  else if HasPrefix id "hwmon:" then
    match hwmonIDRe id with
    | None => inl [EOther]
    | Some (name, n) =>
        let devs := match FindByName root name w with
                    | [] => List.filter (fun d => String.eqb (Base (hd_Path d)) name) (listOrEmpty w)
                    | l => l
                    end in
        match devs with
        | [] => inl [ErrNoDevice]
        | d :: _ =>
            let p := JoinPath [hd_Path d; String.append "temp" (String.append n "_input")] in
            if negb (Exists root p w) then inl [ErrNoDevice] else inr (Single id p)
        end
    end
  else if HasPrefix id "ec:" then
    match dev with
    | None => inl [EOther]
    | Some dev => match dv_ExtraTemps dev !! id with
                  | None => inl [ErrNoDevice]
                  | Some p => inr (Single id p)
                  end
    end
  else inl [EOther].

(** The trimmed, distinct, non-empty parts of a composite id. *)
Fixpoint composite_ids (raw seen : list string) : option (list string) :=
  match raw with
  | [] => Some seen
  | part :: raw' =>
      let part := TrimSpace part in
      if String.eqb part "" || existsb (fun s => String.eqb s part) seen then None
      else composite_ids raw' (seen ++ [part])
  end.
Definition parseComposite (id : string) (dev : option Dev) (w : W) : Err + Source :=
  let raw := Split id ","%char in
  let n := Z.of_nat (length raw) in
  if (n <? MinParts) || (MaxParts <? n) then inl [EOther]
  else
    match composite_ids raw [] with
    | None => inl [EOther]
    | Some ids =>
        let parsed := map (fun part => (part, parse_one part dev w)) ids in
        let parts := flat_map (fun r => match r.2 with inr l => [(r.1, l)] | inl _ => [] end) parsed in
        match parts with
        | [] => inl (match flat_map (fun r => match r.2 with inl e => [e] | inr _ => [] end) parsed with
                     | e :: _ => e | [] => [] end)
        | _ => inr (SComposite (mkComposite (Join ids ",") parts None))
        end
    end.

(** A part of a composite id holds no comma, so its [Parse] is [parse_one]. *)
Definition Parse (id : string) (dev : option Dev) (w : W) : Err + Source :=
  let id := TrimSpace id in
  if Contains id "," then parseComposite id dev w
  else match parse_one id dev w with inl e => inl e | inr l => inr (SLeaf l) end.

(** ** The dropdown *)
Definition DiskKind (dev : string) (w : W) : string :=
  if HasPrefix dev "nvme" then "ssd"
  else match ReadInt root (JoinPath ["block"; dev; "queue"; "rotational"]) w with
       | inl _ => ""
       | inr v => if v =? 1 then "hdd" else if v =? 0 then "ssd" else ""
       end.
Definition diskModel (dev : string) (w : W) : string :=
  match ReadString root (JoinPath ["block"; dev; "device"; "model"]) w with
  | inl _ => "disk"
  | inr s => let s := Join (Fields s) " " in if String.eqb s "" then "disk" else s
  end.
Definition hwmonName (hw : string) (w : W) : string :=
  match ReadString root (JoinPath [hw; "name"]) w with
  | inr s => if String.eqb s "" then Base hw else s
  | inl _ => Base hw
  end.

Definition text (parts : list string) : string := String.concat "" parts.
Definition addKind (dev : option Dev) (w : W) (id desc kind : string) : list Info :=
  match Parse id dev w with
  | inl _ => []
  | inr src =>
      let desc := match (Read src w).1 with
                  | inr v => text [desc; " (now "; FormatFloat1 (temp_float v); " C)"]
                  | inl _ => desc
                  end in
      [mkInfo id desc kind]
  end.
(** The hwmon devices with the first of every name. *)
Fixpoint first_named (devs : list HwDevice) (seen : list string) : list HwDevice :=
  match devs with
  | [] => []
  | d :: ds => if existsb (String.eqb (hd_Name d)) seen then first_named ds seen
               else d :: first_named ds (hd_Name d :: seen)
  end.
Definition Known (dev : option Dev) (w : W) : list Info :=
  let add id desc := addKind dev w id desc "" in
  add "k10temp" "AMD CPU temperature (Tctl)" ++
  add "coretemp" "Intel CPU temperature (hottest core/package)" ++
  add "nvme:max" "hottest NVMe SSD" ++
  add "drivetemp:max" "hottest SATA/SAS drive" ++
  flat_map (fun d => match DiskHwmon root d w with
                     | inl _ => []
                     | inr hw => addKind dev w (String.append "disk:" d)
                                   (text [diskModel d w; " ("; d; ", "; hwmonName hw w; ")"]) (DiskKind d w)
                     end) (BlockDevices root w) ++
  match dev with
  | None => []
  | Some dv => flat_map (fun id => add id (text [dv_Title dv; " sensor "; TrimPrefix id "ec:"]))
                 (sort_strings (map fst (map_to_list (dv_ExtraTemps dv))))
  end ++
  flat_map (fun d =>
    flat_map (fun p =>
      let n := default "" (tempInRe (Base p)) in
      let label := match ReadString root (JoinPath [hd_Path d; text ["temp"; n; "_label"]]) w with
                   | inr s => if String.eqb s "" then "" else String.append " " s
                   | inl _ => ""
                   end in
      add (text ["hwmon:"; hd_Name d; ":temp"; n])
          (text [hd_Name d; " temp"; n; label; " ["; Base (hd_Path d); "]"])) (tempInputs (hd_Path d) w))
    (first_named (listOrEmpty w) []) ++
  [mkInfo "hwmon:<name>:tempN" "any hwmon device by name and temperature index" "";
   mkInfo "ec:<label>" "extra temperature of the detected fan controller profile" ""].
End Sensor.

(** ** Reading *)
Definition successes (l : list (Err + Z)) : list Z := flat_map (fun r => match r with inr v => [v] | inl _ => [] end) l.

Lemma best_of_spec l best firstErr :
  match (best_of l best firstErr).1 with
  | Some v => v ∈ match best with Some b => [b] | None => [] end ++ successes l /\
              (forall u, u ∈ match best with Some b => [b] | None => [] end ++ successes l -> u <= v)
  | None => best = None /\ successes l = [] /\
            ((best_of l best firstErr).2 = None -> firstErr = None /\ l = [])
  end.
Proof.
  revert best firstErr. induction l as [|[e|v] l IH]; intros best firstErr; cbn [best_of successes flat_map app].
  - destruct best as [b|]; cbn; [|done]. split; [by left|]. intros u ->%list_elem_of_singleton. lia.
  - specialize (IH best (match firstErr with None => Some e | f => f end)). fold (successes l).
    destruct (best_of l best _) as [[v|] er]; cbn in *; [done|]. destruct IH as (? & ? & Hn). split_and!; [done|done|].
    intros Her. destruct (Hn Her) as [Hf _]. by destruct firstErr.
  - fold (successes l). destruct best as [b|].
    + specialize (IH (if b <? v then Some v else Some b) firstErr).
      assert ((if b <? v then Some v else Some b) = Some (Z.max b v)) as E by (destruct (Z.ltb_spec b v); f_equal; lia).
      rewrite E in *. destruct (best_of l (Some (Z.max b v)) firstErr) as [[m|] er]; cbn in *; [|by destruct IH].
      destruct IH as [Hin Hle]. split.
      * apply elem_of_cons in Hin as [->|Hin]; [|set_solver]. destruct (Z.max_spec b v) as [[_ ->]|[_ ->]]; set_solver.
      * intros u Hu. pose proof (Hle (Z.max b v) ltac:(by left)).
        apply elem_of_cons in Hu as [->|Hu]; [lia|]. apply elem_of_cons in Hu as [->|Hu]; [lia|]. apply Hle. by right.
    + specialize (IH (Some v) firstErr). destruct (best_of l (Some v) firstErr) as [[m|] er]; cbn in *; [done|]. by destruct IH.
Qed.

Lemma elem_of_flat_map {A B} (f : A -> list B) l b : b ∈ flat_map f l <-> exists a, a ∈ l /\ b ∈ f a.
Proof.
  rewrite list_elem_of_In, in_flat_map. split; intros (a & Ha & Hb); exists a; by rewrite ?list_elem_of_In in *.
Qed.

Section Reading.
Context {W : Type} {O : Os W} (root : string).

(** The plausible readings of the inputs of a source. *)
Definition readings (s : Source) (w : W) : list Z :=
  flat_map (fun l => successes (map (fun p => read_input root p w) (leaf_inputs l)))
    (match s with SLeaf l => [l] | SComposite c => map snd (cp_parts c) end).

Lemma read_leaf_spec l w :
  match read_leaf root l w with
  | inr v => v ∈ successes (map (fun p => read_input root p w) (leaf_inputs l)) /\
             forall u, u ∈ successes (map (fun p => read_input root p w) (leaf_inputs l)) -> u <= v
  | inl _ => successes (map (fun p => read_input root p w) (leaf_inputs l)) = []
  end.
Proof.
  destruct l as [id p|id ps]; cbn [read_leaf leaf_inputs].
  - cbn. destruct (read_input root p w); cbn; [done|]. split; [by left|]. intros u ->%list_elem_of_singleton. lia.
  - pose proof (best_of_spec (map (fun p => read_input root p w) ps) None None) as H.
    destruct (best_of _ None None) as [[v|] [e|]]; cbn in *; try done; by destruct H as (_ & ? & _).
Qed.

Lemma successes_plausible ps w v : v ∈ successes (map (fun p => read_input root p w) ps) -> Plausible v = true.
Proof.
  unfold successes. intros ([e|u] & Hr & Hv)%elem_of_flat_map; [by apply elem_of_nil in Hv|].
  apply list_elem_of_singleton in Hv as ->. apply list_elem_of_fmap in Hr as (p & Hp & _).
  unfold read_input, checkPlausible in Hp. destruct (ReadInt root p w); [done|].
  destruct (Plausible z) eqn:E; cbn in Hp; [by injection Hp as ->|done].
Qed.

(** A source reads the highest temperature its readable inputs show, over all
    devices of all its parts; an input that fails or is implausible is passed over
    as long as one is readable, and an error means that none is.  What a read
    returns is always within -20..120 degrees. *)
Theorem read_highest (s : Source) (w : W) :
  match (Read root s w).1 with
  | inr v => v ∈ readings s w /\ (forall u, u ∈ readings s w -> u <= v) /\ Plausible v = true
  | inl _ => readings s w = []
  end.
Proof.
  assert (Hpl : forall v, v ∈ readings s w -> Plausible v = true).
  { unfold readings. intros v (l & _ & Hv)%elem_of_flat_map. by eapply successes_plausible. }
  destruct s as [l|c]; cbn [Read fst].
  - unfold readings. cbn [flat_map]. rewrite app_nil_r. pose proof (read_leaf_spec l w) as H.
    destruct (read_leaf root l w) as [e|v]; [done|]. destruct H as [Hin Hle]. split_and!; [done|done|].
    by eapply successes_plausible.
  - set (rs := map snd (map (fun p => (p.1, read_leaf root p.2 w)) (cp_parts c))).
    assert (Hrs : rs = map (fun l => read_leaf root l w) (map snd (cp_parts c))).
    { unfold rs. rewrite !map_map. by apply map_ext. }
    assert (Hin : forall v, v ∈ successes rs -> v ∈ readings (SComposite c) w).
    { intros v Hv. unfold successes in Hv. apply elem_of_flat_map in Hv as (r & Hr & Hv). rewrite Hrs in Hr.
      apply list_elem_of_fmap in Hr as (l & -> & Hl). unfold readings. apply elem_of_flat_map. exists l. split; [done|].
      pose proof (read_leaf_spec l w) as H. destruct (read_leaf root l w) as [e|u]; [by apply elem_of_nil in Hv|].
      apply list_elem_of_singleton in Hv as ->. by destruct H. }
    assert (Hout : forall u, u ∈ readings (SComposite c) w -> exists v, v ∈ successes rs /\ u <= v).
    { unfold readings. intros u (l & Hl & Hu)%elem_of_flat_map. pose proof (read_leaf_spec l w) as H.
      destruct (read_leaf root l w) as [e|v] eqn:E; [rewrite H in Hu; by apply elem_of_nil in Hu|].
      destruct H as [_ Hle]. exists v. split; [|by apply Hle]. unfold successes. apply elem_of_flat_map. exists (inr v).
      split; [|by left]. rewrite Hrs. apply list_elem_of_fmap. by exists l. }
    pose proof (best_of_spec rs None None) as H. fold rs.
    destruct (best_of rs None None) as [[v|] er]; cbn [fst snd app] in *.
    + destruct H as [Hv Hle]. split_and!; [by apply Hin| |by apply Hpl, Hin].
      intros u Hu. destruct (Hout u Hu) as (v' & Hv' & ?). specialize (Hle v' Hv'). lia.
    + destruct H as (_ & Hnil & _). assert (readings (SComposite c) w = []) as Hr.
      { destruct (readings (SComposite c) w) as [|u us] eqn:E; [done|].
        destruct (Hout u ltac:(left)) as (v & Hv & _). rewrite Hnil in Hv. by apply elem_of_nil in Hv. }
      by destruct er.
Qed.
End Reading.
