(* ===== verification/Profile.v ===== *)
(** Package profile (src/internal/profile): the profiles, their detection, and the
    device they drive through sysfs.  Texts for people (Notes, the bodies of
    errors) are left out; an error is the list of the sentinels it wraps. *)
From stdpp Require Import base gmap strings list sorting.
From Stdlib Require Import ZArith Lia Ascii.
From S2P Require Import Prelude GoLib GoNet GoPath ControlTypes Hwmon N5Driver HwStatus Sensor.
Open Scope Z_scope.

Record PChannel := mkPChannel { pc_Index : Z; pc_Label : string; pc_HasTach : bool }.

(** The state of [ReadDCR]: the flag of a read that is still blocked, and how the
    next read of a file ends. *)
Class TimedRead (W : Type) := {
  tm_blocked : W -> bool;
  tm_set_blocked : bool -> W -> W;
  tm_read : string -> M W Timed }.

Section Device.
Context {W : Type} {O : Os W} {T : TimedRead W}.

Definition ReadDCR_file (path : string) : M W (option DCR) :=
  let* blocked := gets tm_blocked in
  if blocked then ret None
  else
    let* r := tm_read path in
    let '(d, b) := ReadDCR false r in
    modify (tm_set_blocked b) ;;; ret d.

(** [hwVerify] is [verifyDCR] on a path where there is one. *)
Record pwmDevice := mkPwm {
  pd_prof : string; pd_root : string; pd_path : string; pd_chans : list PChannel; pd_extra : gmap string string;
  pd_autoValue : Z -> string; pd_hwVerify : option string; pd_settle : option (Z -> Z) }.

Section Ops.
Context (d : pwmDevice).
Definition attr (name : string) : string := JoinPath [pd_path d; name].
Definition numbered (pre : string) (ch : Z) (post : string) : string := text [pre; Itoa ch; post].
Definition channel (ch : Z) : option PChannel := find (fun c => pc_Index c =? ch) (pd_chans d).

Definition ReadRPM (ch : Z) (w : W) : Err + Z :=
  match channel ch with
  | None => inl [EOther]
  | Some c => if negb (pc_HasTach c) then inr (-1) else ReadInt (pd_root d) (attr (numbered "fan" ch "_input")) w
  end.
Definition ReadDuty (ch : Z) (w : W) : Err + Z :=
  match channel ch with None => inl [EOther] | Some _ => ReadInt (pd_root d) (attr (numbered "pwm" ch "")) w end.
Definition ReadEnable (ch : Z) (w : W) : Err + string :=
  match channel ch with
  | None => inl [EOther]
  | Some _ => ReadString (pd_root d) (attr (numbered "pwm" ch "_enable")) w
  end.
Definition EnterManual (ch : Z) : M W (option Err) :=
  let* cur := gets (ReadEnable ch) in
  match cur with
  | inl e => ret (Some e)
  | inr cur => if String.eqb cur "1" then ret None
               else WriteVerify (pd_root d) (attr (numbered "pwm" ch "_enable")) "1"
  end.
Definition WriteDuty (ch duty : Z) : M W (option Err) :=
  if (duty <? 0) || (255 <? duty) then ret (Some [EOther])
  else
    let* e := EnterManual ch in
    match e with
    | Some e => ret (Some e)
    | None => WriteVerify (pd_root d) (attr (numbered "pwm" ch "")) (Itoa duty)
    end.

Definition verifyDCR (path : string) (ch duty : Z) : M W (option Err) :=
  let* there := gets (os_Exists path) in
  if negb there then ret None
  else
    let* r := ReadDCR_file path in
    match r with
    | None => ret None
    | Some dcr =>
        match DCR_Channel dcr ch with
        | None => ret None
        | Some v => if v =? duty then ret None else ret (Some [ErrDCRMismatch])
        end
    end.
Definition VerifyRegister (ch duty : Z) : M W (option Err) :=
  match pd_hwVerify d with None => ret None | Some path => verifyDCR path ch duty end.
Definition RegisterSettle (ch : Z) : Z :=
  match pd_hwVerify d, pd_settle d with Some _, Some f => f ch | _, _ => 0 end.

Definition SafeStop (ch : Z) (stop : string) : M W (option Err) :=
  match channel ch with
  | None => ret (Some [EOther])
  | Some _ =>
      if String.eqb stop "auto"
      then WriteVerify (pd_root d) (attr (numbered "pwm" ch "_enable")) (pd_autoValue d ch)
      else match Atoi stop with
           | None => ret (Some [EOther])
           | Some duty => if (duty <? 0) || (255 <? duty) then ret (Some [EOther]) else WriteDuty ch duty
           end
  end.
End Ops.

(** ** Channel tables *)

(** [^pwm([0-9]+)$] *)
Definition pwmFileRe (name : string) : option string :=
  if negb (HasPrefix name "pwm") then None
  else let n := TrimPrefix name "pwm" in if all_digits (chars n) then Some n else None.

Definition scanChannels (root path : string) (w : W) : list PChannel :=
  match os_ReadDir path w with
  | None => []
  | Some entries =>
      sort_numbered (flat_map (fun e =>
        match pwmFileRe e with
        | None => []
        | Some m =>
            let n := atoi_digits m in
            if negb (Exists root (JoinPath [path; numbered "pwm" n "_enable"]) w) then []
            else
              let label := match ReadString root (JoinPath [path; numbered "fan" n "_label"]) w with
                           | inr s => if String.eqb s "" then String.append "PWM " (Itoa n) else s
                           | inl _ => String.append "PWM " (Itoa n)
                           end in
              [(n, mkPChannel n label (Exists root (JoinPath [path; numbered "fan" n "_input"]) w))]
        end) entries)
  end.

(** ** n5pro *)
Definition N5ProHwmonName : string := ModuleName.
Definition RegisterPoll : Z := 200 * Millisecond.
Definition n5proChannels : list PChannel :=
  [mkPChannel 1 "CPU Fan" true; mkPChannel 2 "SSD Fan" true; mkPChannel 3 "HDD Fan" true; mkPChannel 4 "PCIe Fan" false].
Definition N5ProSettleHDD : Z := 5 * Second.
Definition N5ProSettle : Z := 2 * Second.
Definition n5proSettle (ch : Z) : Z := if ch =? 3 then N5ProSettleHDD else N5ProSettle.

Definition ecLabelID (label : string) : string :=
  let s := ToLower (TrimSpace label) in
  let s := TrimSuffix s " temp" in
  let s := TrimSuffix s " temperature" in
  of_chars (flat_map (fun c =>
    let n := N_of_ascii c in
    if ((97 <=? n) && (n <=? 122) || (48 <=? n) && (n <=? 57))%N then [c]
    else if is_char c " " || is_char c "-" || is_char c "_" then ["_"%char] else []) (chars s)).

Definition n5proExtraTemps (root path : string) (w : W) : gmap string string :=
  fold_left (fun out n =>
    let input := JoinPath [path; numbered "temp" n "_input"] in
    if negb (Exists root input w) then out
    else
      let id := match ReadString root (JoinPath [path; numbered "temp" n "_label"]) w with
                | inr label => if String.eqb label "" then String.append "temp" (Itoa n) else ecLabelID label
                | inl _ => String.append "temp" (Itoa n)
                end in
      <[String.append "ec:" id := input]> out) [1; 2; 3; 4] ∅.

Inductive Device := PwmDevice (d : pwmDevice) | MonitorDevice (path : string).

Definition n5pro_Detect (root : string) (w : W) : Err + Device :=
  match FindByName root N5ProHwmonName w with
  | [] => inl [ErrNotFound]
  | hw :: _ =>
      let there a := Exists root (JoinPath [hd_Path hw; a]) w in
      if negb (there "pwm1") && negb (there "pwm1_enable") then inl [ErrWriteDisabled]
      else if negb (forallb (fun c => there (numbered "pwm" (pc_Index c) "") &&
                                       there (numbered "pwm" (pc_Index c) "_enable")) n5proChannels)
      then inl [EOther]
      else inr (PwmDevice (mkPwm "n5pro" root (hd_Path hw) n5proChannels (n5proExtraTemps root (hd_Path hw) w)
                  (fun _ => "2") (Some (DCRPath root)) (Some n5proSettle)))
  end.

(** ** The generic chips *)
Record generic := mkGeneric { ge_name : string; ge_match : string -> bool; ge_fallback : string }.
Definition two_digits_after (pre : string) (s : string) : bool :=
  HasPrefix s pre && (String.length s =? String.length pre + 2)%nat && all_digits (chars (TrimPrefix s pre)).
Definition NCT67xx : generic := mkGeneric "nct67xx" (two_digits_after "nct67") "5".
Definition IT87xx : generic :=
  mkGeneric "it87xx" (fun s => two_digits_after "it86" s || two_digits_after "it87" s) "2".

Definition originals (root path : string) (chans : list PChannel) (w : W) : gmap Z string :=
  fold_left (fun m c =>
    match ReadString root (JoinPath [path; numbered "pwm" (pc_Index c) "_enable"]) w with
    | inr v => if String.eqb v "" then m else <[pc_Index c := v]> m
    | inl _ => m
    end) chans ∅.
Definition generic_auto (g : generic) (original : gmap Z string) (ch : Z) : string :=
  match original !! ch with
  | Some v => if negb (String.eqb v "1") then v else ge_fallback g
  | None => ge_fallback g
  end.
Definition generic_Detect (g : generic) (root : string) (w : W) : Err + Device :=
  match FindByRegexp root (ge_match g) w with
  | [] => inl [ErrNotFound]
  | hw :: _ =>
      let chans := scanChannels root (hd_Path hw) w in
      match chans with
      | [] => inl [EOther]
      | _ => inr (PwmDevice (mkPwm (ge_name g) root (hd_Path hw) chans ∅
                    (generic_auto g (originals root (hd_Path hw) chans w)) None None))
      end
  end.

Definition monitor_Detect (root : string) (w : W) : Err + Device :=
  match List_devices root w with
  | inl e => inl e
  | inr [] => inl [ErrNotFound]
  | inr _ => inr (MonitorDevice (ClassDir root))
  end.

(** ** Detection *)
Definition Names : list string := ["n5pro"; "nct67xx"; "it87xx"; "monitor"].
Definition detect_one (name root : string) (w : W) : Err + Device :=
  if String.eqb name "n5pro" then n5pro_Detect root w
  else if String.eqb name "nct67xx" then generic_Detect NCT67xx root w
  else if String.eqb name "it87xx" then generic_Detect IT87xx root w
  else monitor_Detect root w.

Definition n5Board (tbl : list Entry) (id : Identity) : bool :=
  if String.eqb (id_Product id) "" || String.eqb (id_Board id) "" then false
  else existsb (fun e => String.eqb (en_Product e) (id_Product id) && String.eqb (en_Board e) (id_Board id)) tbl.

(** The profiles in order, under "auto". *)
Fixpoint detect_auto (id : Identity) (board : bool) (names : list string) (root : string) (w : W) : Err + Device :=
  let readOnlyBoard := board && negb (WriteCapable id) in
  match names with
  | [] => inl [EOther]
  | p :: names' =>
      if String.eqb p "monitor" && (board && WriteCapable id) then inl [ErrDriverMissing]
      else match detect_one p root w with
           | inr dev => inr dev
           | inl e => if errors_Is e ErrWriteDisabled && negb readOnlyBoard then inl e
                      else detect_auto id board names' root w
           end
  end.
Definition Detect (tbl : list Entry) (root want : string) (w : W) : Err + Device :=
  let want := TrimSpace want in
  if String.eqb want "" || String.eqb want "auto" then
    let id := ReadIdentity root w in
    detect_auto id (n5Board tbl id) Names root w
  else if negb (existsb (String.eqb want) Names) then inl [EOther]
  else detect_one want root w.

Definition dev_profile (d : Device) : string := match d with PwmDevice d => pd_prof d | MonitorDevice _ => "monitor" end.
End Device.

(** [pwmDevice] is the device the controller drives. *)
#[export] Instance pwm_device {W} {O : Os W} {T : TimedRead W} (d : pwmDevice) : ControlTypes.Device W := {|
  dev_ProfileName := pd_prof d;
  dev_Channels := map (fun c => mkDevChannel (pc_Index c) (pc_HasTach c)) (pd_chans d);
  dev_ReadRPM := fun ch => gets (ReadRPM d ch);
  dev_ReadDuty := fun ch => gets (ReadDuty d ch);
  dev_EnterManual := EnterManual d;
  dev_WriteDuty := WriteDuty d;
  dev_SafeStop := SafeStop d;
  dev_ReadEnable := Some (fun ch => gets (ReadEnable d ch));
  dev_VerifyRegister := Some (VerifyRegister d);
  dev_RegisterSettle := RegisterSettle d |}.
(** The monitoring device refuses every write. *)
Definition monitor_device {W} : ControlTypes.Device W := {|
  dev_ProfileName := "monitor";
  dev_Channels := [];
  dev_ReadRPM := fun _ => ret (inl [ErrMonitorOnly]);
  dev_ReadDuty := fun _ => ret (inl [ErrMonitorOnly]);
  dev_EnterManual := fun _ => ret (Some [ErrMonitorOnly]);
  dev_WriteDuty := fun _ _ => ret (Some [ErrMonitorOnly]);
  dev_SafeStop := fun _ _ => ret (Some [ErrMonitorOnly]);
  dev_ReadEnable := None;
  dev_VerifyRegister := None;
  dev_RegisterSettle := fun _ => 0 |}.

(** ** What a write promises *)
Section Promises.
Context {W : Type} {O : Os W} {T : TimedRead W} (d : pwmDevice).
Hypothesis Habs : IsAbs (pd_path d) = true.

Lemma attr_abs name : Abs (pd_root d) (attr d name) = attr d name.
Proof. unfold Abs, attr. by rewrite IsAbs_JoinPath. Qed.
Lemma ReadString_abs p w : Abs (pd_root d) p = p -> ReadString (pd_root d) (Abs (pd_root d) p) w = ReadString (pd_root d) p w.
Proof. by intros ->. Qed.

Lemma WriteDuty_enabled ch duty w : 0 <= duty <= 255 -> ReadEnable d ch w = inr "1" ->
  WriteDuty d ch duty w = WriteVerify (pd_root d) (attr d (numbered "pwm" ch "")) (Itoa duty) w.
Proof.
  intros Hd He. unfold WriteDuty, EnterManual. assert ((duty <? 0) || (255 <? duty) = false) as -> by (apply orb_false_iff; lia).
  unfold bind, gets. rewrite He. done.
Qed.

(** The channel is in manual mode: its enable attribute reads 1. *)
Definition in_manual (ch : Z) (w : W) : Prop := exists v, ReadEnable d ch w = inr v /\ sameValue "1" v = true.
(** Writing the duty file leaves what the enable file holds. *)
Definition apart (ch : Z) : Prop := forall v w,
  os_ReadFile (attr d (numbered "pwm" ch "_enable")) (os_Overwrite (attr d (numbered "pwm" ch "")) v w).2 =
  os_ReadFile (attr d (numbered "pwm" ch "_enable")) w.
Lemma EnterManual_ok ch w : (EnterManual d ch w).1 = None -> in_manual ch (EnterManual d ch w).2.
Proof.
  unfold EnterManual, bind, gets. destruct (ReadEnable d ch w) as [e|cur] eqn:E; [done|]. destruct (String.eqb_spec cur "1") as [->|_].
  - intros _. exists "1". by split.
  - intros H. apply WriteVerify_ok in H as (got & Hg & Hs). exists got. split; [|exact Hs].
    unfold ReadEnable in *. destruct (channel d ch); [|done]. by rewrite attr_abs in Hg.
Qed.
Lemma WriteVerify_apart ch v w : apart ch -> in_manual ch w -> in_manual ch (WriteVerify (pd_root d) (attr d (numbered "pwm" ch "")) v w).2.
Proof.
  intros Ha (cur & He & Hs). exists cur. split; [|done]. unfold WriteVerify, bind. rewrite attr_abs. specialize (Ha v w).
  destruct (os_Overwrite _ _ w) as [e w1]. cbn [snd] in Ha. assert (E : ReadEnable d ch w1 = inr cur); [|by destruct e].
  unfold ReadEnable in *. destruct (channel d ch); [|done]. rewrite <- He. unfold ReadString. rewrite !attr_abs. by rewrite Ha.
Qed.

(** What a successful duty write did: the range was right, the channel was put into
    manual mode, and then the duty was written and read back. *)
Definition written (ch duty : Z) (w w' : W) : Prop :=
  0 <= duty <= 255 /\
  (exists w1, EnterManual d ch w = (None, w1) /\ in_manual ch w1 /\
     WriteVerify (pd_root d) (attr d (numbered "pwm" ch "")) (Itoa duty) w1 = (None, w')) /\
  ReadDuty d ch w' = inr duty /\ (apart ch -> in_manual ch w').
Lemma WriteDuty_verified ch duty w : (WriteDuty d ch duty w).1 = None -> written ch duty w (WriteDuty d ch duty w).2.
Proof.
  unfold WriteDuty. destruct ((duty <? 0) || (255 <? duty)) eqn:E; [done|]. apply orb_false_iff in E as [E1 E2].
  pose proof (EnterManual_ok ch w) as Hm. unfold bind. destruct (EnterManual d ch w) as [[e|] w1] eqn:Em; [done|]. intros H. specialize (Hm eq_refl). cbn [snd] in Hm.
  assert (Hch : exists c, channel d ch = Some c).
  { unfold EnterManual, bind, gets, ReadEnable in Em. destruct (channel d ch); [eauto|done]. }
  destruct Hch as [c Hc]. split; [lia|]. split; [|split].
  - exists w1. split; [done|]. split; [done|]. by destruct (WriteVerify _ _ _ w1); cbn in H; subst.
  - unfold ReadDuty. rewrite Hc. apply WriteVerify_int in H; [|lia|unfold in_int64; lia]. by rewrite attr_abs in H.
  - intros Ha. by apply WriteVerify_apart.
Qed.
Lemma WriteDuty_refused ch duty w : ~ 0 <= duty <= 255 -> WriteDuty d ch duty w = (Some [EOther], w).
Proof. intros H. unfold WriteDuty. by assert ((duty <? 0) || (255 <? duty) = true) as -> by (apply orb_true_iff; lia). Qed.

(** C38: A duty write that reports success has put the channel into manual mode and
    stored the duty: the range is checked; the duty is only written in a world where the
    enable attribute reads manual, and what the duty attribute reads afterwards is the
    duty; the channel is then still in manual mode, if writing the duty file leaves the
    enable file alone.  A channel that is already in manual mode is not put into it
    again (one write, to pwmN only).  A duty out of range is refused and writes nothing,
    so does an unknown channel, and if manual mode fails the duty is not written.  A stop
    that reports success wrote a fixed duty in the same way, or left the enable attribute
    at the chip's value for automatic; a stop that is no duty in range writes nothing. *)
Theorem writes_verified (ch : Z) (w : W) :
  (forall duty, (WriteDuty d ch duty w).1 = None ->
     written ch duty w (WriteDuty d ch duty w).2 /\
     (ReadEnable d ch w = inr "1" ->
        WriteDuty d ch duty w = WriteVerify (pd_root d) (attr d (numbered "pwm" ch "")) (Itoa duty) w)) /\
  (forall duty, ~ 0 <= duty <= 255 -> WriteDuty d ch duty w = (Some [EOther], w)) /\
  (forall duty, channel d ch = None -> WriteDuty d ch duty w = (Some [EOther], w)) /\
  (forall duty e, 0 <= duty <= 255 -> (EnterManual d ch w).1 = Some e -> WriteDuty d ch duty w = EnterManual d ch w) /\
  (forall stop, (SafeStop d ch stop w).1 = None ->
     if String.eqb stop "auto"
     then exists v, ReadEnable d ch (SafeStop d ch stop w).2 = inr v /\ sameValue (TrimSpace (pd_autoValue d ch)) v = true
     else exists duty, Atoi stop = Some duty /\ written ch duty w (SafeStop d ch stop w).2) /\
  (forall stop, stop <> "auto" -> (forall duty, Atoi stop = Some duty -> ~ 0 <= duty <= 255) -> SafeStop d ch stop w = (Some [EOther], w)).
Proof.
  split_and!.
  - intros duty H. pose proof (WriteDuty_verified ch duty w H) as Hw. split; [done|]. intros He. apply WriteDuty_enabled; [apply Hw|done].
  - intros duty. apply WriteDuty_refused.
  - intros duty Hc. destruct (decide (0 <= duty <= 255)); [|by apply WriteDuty_refused].
    unfold WriteDuty, EnterManual, ReadEnable, bind, gets. rewrite Hc. by destruct (_ || _).
  - intros duty e Hd. unfold WriteDuty, bind. assert ((duty <? 0) || (255 <? duty) = false) as -> by (apply orb_false_iff; lia).
    destruct (EnterManual d ch w) as [[e'|] w1]; [done|by intros [=]].
  - intros stop. unfold SafeStop. destruct (channel d ch) as [c|] eqn:Hc; [|done].
    destruct (String.eqb stop "auto").
    + intros H. apply WriteVerify_ok in H as (got & Hg & Hs). exists got. split; [|done].
      unfold ReadEnable. rewrite Hc. by rewrite attr_abs in Hg.
    + destruct (Atoi stop) as [duty|]; [|done]. destruct ((duty <? 0) || (255 <? duty)); [done|].
      intros H. exists duty. split; [done|]. by apply WriteDuty_verified.
  - intros stop Hne Hs. unfold SafeStop. destruct (channel d ch); [|done]. rewrite (proj2 (String.eqb_neq _ _) Hne).
    destruct (Atoi stop) as [duty|]; [|done]. specialize (Hs duty eq_refl).
    by assert ((duty <? 0) || (255 <? duty) = true) as -> by (apply orb_true_iff; lia).
Qed.
End Promises.

Section Detection.
Context {W : Type} {O : Os W} {T : TimedRead W}.

Lemma detect_auto_no_monitor id names root (w : W) dev :
  WriteCapable id = true -> (forall p, p ∈ names -> p ∈ Names) ->
  detect_auto id true names root w = inr dev -> dev_profile dev <> "monitor".
Proof.
  intros Hw. induction names as [|p names IH]; intros Hn; cbn [detect_auto]; [done|]. rewrite Hw. cbn [andb negb].
  destruct (String.eqb_spec p "monitor") as [|Hp]; cbn [andb]; [done|].
  destruct (detect_one p root w) as [e|dv] eqn:Ed.
  - destruct (errors_Is e ErrWriteDisabled && true); [done|]. apply IH. intros q Hq. apply Hn. by right.
  - intros [= <-]. unfold detect_one in Ed.
    assert (Hgen : forall g, ge_name g <> "monitor" -> generic_Detect g root w = inr dv -> dev_profile dv <> "monitor").
    { intros g Hg. unfold generic_Detect. destruct (FindByRegexp _ _ _); [done|]. by destruct (scanChannels _ _ _); [|intros [= <-]]. }
    destruct (String.eqb_spec p "n5pro") as [_|H1'].
    { unfold n5pro_Detect in Ed. repeat case_match; try done. by injection Ed as <-. }
    destruct (String.eqb_spec p "nct67xx") as [_|H2']; [by apply (Hgen NCT67xx)|].
    destruct (String.eqb_spec p "it87xx") as [_|H3']; [by apply (Hgen IT87xx)|].
    specialize (Hn p ltac:(by left)). unfold Names in Hn. exfalso.
    do 4 (apply elem_of_cons in Hn as [->|Hn]; [done|]). by apply elem_of_nil in Hn.
Qed.

(** Automatic detection never falls back to monitoring silently where the driver
    can write: on a board of the hardware table with write support the device found
    is a controllable one, or detection fails. *)
Theorem no_silent_monitor (tbl : list Entry) (root want : string) (w : W) (dev : Device) :
  let id := ReadIdentity root w in
  n5Board tbl id = true -> WriteCapable id = true -> TrimSpace want = "" \/ TrimSpace want = "auto" ->
  Detect tbl root want w = inr dev -> dev_profile dev <> "monitor".
Proof.
  intros id Hb Hc Hw. unfold Detect. cbv zeta.
  assert (String.eqb (TrimSpace want) "" || String.eqb (TrimSpace want) "auto" = true) as ->
    by (destruct Hw as [->| ->]; done).
  fold id. rewrite Hb. by apply detect_auto_no_monitor.
Qed.
End Detection.

(** ** A concrete machine: an N5 PRO with its driver *)
Module Demo.
Definition World : Type := gmap string string.
(** The entries of a directory: what follows it in the paths of the files. *)
Definition entries (dir : string) (w : World) : list string :=
  sort_strings (remove_dups (flat_map (fun p =>
    if HasPrefix p (String.append dir "/")
    then match Cut (String.append (TrimPrefix p (String.append dir "/")) "/") "/" with Some (e, _) => [e] | None => [] end
    else []) (map fst (map_to_list w)))).
#[global] Instance demo_os : Os World := {|
  os_ReadFile := fun p w => match w !! p with Some b => inr b | None => inl [ErrNotExist] end;
  os_ReadDir := fun p w => match entries p w with [] => None | l => Some l end;
  os_Exists := fun p w => match w !! p with Some _ => true | None => negb (bool_decide (entries p w = [])) end;
  os_IsDir := fun p w => negb (bool_decide (entries p w = []));
  os_Overwrite := fun p v w => match w !! p with Some _ => (None, <[p := v]> w) | None => (Some [ErrNotExist], w) end |}.
#[global] Instance demo_timed : TimedRead World := {|
  tm_blocked := fun _ => false; tm_set_blocked := fun _ w => w; tm_read := fun _ => ret (Returned (inl [ErrNotExist])) |}.

Definition hw (a : string) : string := String.append "/sys/class/hwmon/hwmon4/" a.
Definition machine : World := list_to_map (
  [(hw "name", ModuleName)] ++
  flat_map (fun n => [(hw (numbered "pwm" n ""), "100"); (hw (numbered "pwm" n "_enable"), "2");
                      (hw (numbered "fan" n "_input"), "1200")]) [1; 2; 3; 4] ++
  [("/sys/class/dmi/id/product_name", "N5 PRO"); ("/sys/class/dmi/id/board_name", "F8NAA");
   ("/sys/class/dmi/id/sys_vendor", SysVendor)]).
Definition table : list Entry := [mkEntry "N5 PRO" "F8NAA" "*" "*" "tested" "own" "" ""].
Definition device : pwmDevice :=
  mkPwm "n5pro" "/sys" "/sys/class/hwmon/hwmon4" n5proChannels ∅ (fun _ => "2") (Some (DCRPath "/sys")) (Some n5proSettle).
End Demo.

Example detect_ex : match Detect Demo.table "/sys" "auto" Demo.machine with
  | inr (PwmDevice d) => pd_path d = "/sys/class/hwmon/hwmon4" | _ => False end.
Proof. by vm_compute. Qed.

(** The channel was in automatic mode (2): the duty is written and the mode is manual. *)
Lemma demo_apart : apart Demo.device 3.
Proof.
  intros v w. change (attr Demo.device (numbered "pwm" 3 "_enable")) with (Demo.hw "pwm3_enable"). change (attr Demo.device (numbered "pwm" 3 "")) with (Demo.hw "pwm3").
  unfold os_Overwrite, os_ReadFile, Demo.demo_os. destruct (w !! Demo.hw "pwm3") eqn:E; cbn [snd]; [|done]. by rewrite (lookup_insert_ne (M := gmap string) w (Demo.hw "pwm3") (Demo.hw "pwm3_enable") v) by done.
Qed.
Theorem writes_verified_witness :
  let out := WriteDuty Demo.device 3 140 Demo.machine in
  ReadEnable Demo.device 3 Demo.machine = inr "2" /\ out.1 = None /\ ReadDuty Demo.device 3 out.2 = inr 140 /\ in_manual Demo.device 3 out.2 /\
  WriteDuty Demo.device 3 300 Demo.machine = (Some [EOther], Demo.machine).
Proof.
  intros out. destruct (writes_verified Demo.device eq_refl 3 Demo.machine) as (Hok & Hbad & _).
  split; [by vm_compute|]. assert (E : out.1 = None) by by vm_compute. split; [exact E|].
  destruct (Hok 140 E) as [(_ & _ & Hr & Hm) _]. split; [exact Hr|]. split; [exact (Hm demo_apart)|]. apply Hbad. lia.
Defined.
Theorem no_silent_monitor_witness :
  match Detect Demo.table "/sys" "auto" Demo.machine with inr dev => dev_profile dev <> "monitor" | inl _ => False end.
Proof.
  destruct (Detect Demo.table "/sys" "auto" Demo.machine) as [e|dev] eqn:E; [by vm_compute in E|].
  apply (no_silent_monitor Demo.table "/sys" "auto" Demo.machine dev); [by vm_compute|by vm_compute|by right|done].
Defined.
