(* ===== verification/ControlTarget.v ===== *)
(** The deciding half of a regulation cycle (src/internal/control/controller.go):
    hysteresis, minimum on-time, ceilings with the emergency hook, critical
    temperature, overrides, and the stall detection. *)
From stdpp Require Import base gmap strings list.
From Stdlib Require Import ZArith QArith Lia.
From S2P Require Import Prelude GoLib Float64 ConfigTypes Curve Ceiling ControlTypes ControlAlert ControlSense.
Open Scope Z_scope.

Definition ceilingRecover : Z := 3.
Definition stallRecoverCycles : Z := 3.

Section Pure.
  Context {Rd : Type}.
  Local Abbreviation chan := (channel Rd).

(** [heldTemp]: the temperature the curve is evaluated at. *)
Definition heldTemp (ch : chan) : chan * Z :=
  let n := cc_Hysteresis (ch_cfg ch) in
  if (n <=? 0) || negb (ch_heldOK ch) then
    (ch <| ch_held := ch_temp ch |> <| ch_heldOK := true |>, ch_temp ch)
  else
    let d := ch_temp ch - ch_held ch in
    if (n * 1000 <=? d) || (n * 1000 <=? - d)
    then (ch <| ch_held := ch_temp ch |>, ch_temp ch)
    else (ch, ch_held ch).

(** [minOnHold]: the curve output after the minimum on-time. *)
Definition minOnHold (ch : chan) (curve : Z) (now : Time) : chan * Z :=
  let d := cc_MinOn (ch_cfg ch) in
  let prev := ch_lastCurve ch in
  let havePrev := ch_haveCurve ch in
  let ch := ch <| ch_lastCurve := curve |> <| ch_haveCurve := true |> in
  if d <=? 0 then (ch <| ch_holding := false |>, curve)
  else
    let ch := if (ch_holding ch && negb (tBefore now (ch_holdUntil ch)))%bool
              then ch <| ch_holding := false |> else ch in
    let ch := if (havePrev && (prev <? curve) && (negb (ch_holding ch) || (ch_holdTarget ch <? curve)))%bool
              then ch <| ch_holding := true |> <| ch_holdTarget := curve |>
                      <| ch_holdStart := now |> <| ch_holdUntil := tAdd now d |>
              else ch in
    (ch, if (ch_holding ch && (curve <? ch_holdTarget ch))%bool then ch_holdTarget ch else curve).

(** The effective ceiling of a part, the channel's for an unknown id. *)
Fixpoint partCeiling_in (pcs : list PartCeiling) (id : string) (dflt : Z) : Z :=
  match pcs with
  | [] => dflt
  | pc :: rest => if String.eqb (pc_ID pc) id then pc_Ceiling pc else partCeiling_in rest id dflt
  end.
Definition partCeiling (ch : chan) (id : string) : Z :=
  partCeiling_in (ch_partCeil ch) id (ch_ceiling ch).

Record Hottest := mkHottest { ho_part : Part; ho_ceil : Z; ho_found : bool; ho_excess : Z; ho_allBelow : bool }.
Definition hottest_step (ch : chan) (h : Hottest) (p : Part) : Hottest :=
  let limit := partCeiling ch (pt_ID p) * 1000 in
  let below := (ho_allBelow h && negb (limit - ceilingRecover * 1000 <=? pt_Value p))%bool in
  if ((limit <=? pt_Value p) && (negb (ho_found h) || (ho_excess h <? pt_Value p - limit)))%bool
  then mkHottest p (Z.quot limit 1000) true (pt_Value p - limit) below
  else mkHottest (ho_part h) (ho_ceil h) (ho_found h) (ho_excess h) below.
Definition hottestPart (ch : chan) : Hottest :=
  fold_left (hottest_step ch) (ch_parts ch) (mkHottest (mkPart "" 0) 0 false 0 true).
End Pure.

Definition hook_env (name sensor part : string) (temp ceil rpm cycles : Z) : list (string * string) :=
  [("N5_CHANNEL", name); ("N5_SENSOR", sensor); ("N5_PART", part); ("N5_TEMP", FormatFloat1 (temp_float temp));
   ("N5_CEILING", Itoa ceil); ("N5_RPM", Itoa rpm); ("N5_CYCLES", Itoa cycles)].

Section Targets.
  Context {W Rd : Type} `{Host W}.
  Local Abbreviation MS := (M (Sys W Rd)).

(** The body of the goroutine [run]: the hook, then the alert. *)
Definition run_hook (j : HookJob) : MS unit :=
  let* res := lift (host_Exec (hj_env j)) in
  raise "emergency" (AlEmergency (hj_channel j) res).

(** Why the emergency action is due. *)
Definition emergency_due (ch : channel Rd) (d : Daemon) : bool :=
  (ch_hasTach ch && ch_stalled ch && (d_EmergencyCycles d <=? ch_ceilCycles ch)) ||
  (3 * d_EmergencyCycles d <=? ch_ceilCycles ch).

Definition emergency (ch : channel Rd) (d : Daemon) : MS (channel Rd) :=
  if (ch_emergencyFired ch || negb (d_Emergency d) || (d_EmergencyCycles d <=? 0))%bool then ret ch
  else if negb (emergency_due ch d) then ret ch
  else
    let ch := ch <| ch_emergencyFired := true |> in
    let* ok := lift host_HookCheck in
    if negb ok then ret ch
    else
      let '(part, temp, ceil) :=
        if String.eqb (ch_ceilPart ch) "" then (cc_Sensor (ch_cfg ch), ch_temp ch, ch_ceiling ch)
        else (ch_ceilPart ch, ch_ceilPartTemp ch, ch_ceilPartCeil ch) in
      let job := mkHookJob (hook_env (cc_Name (ch_cfg ch)) (cc_Sensor (ch_cfg ch)) part temp ceil
                              (ch_rpm ch) (ch_ceilCycles ch)) (cc_Name (ch_cfg ch)) in
      emit (EvHook (cc_Name (ch_cfg ch)) (ch_ceilCycles ch)) ;;;
      let* c := getc in
      (if o_SyncAlerts (k_opts c) then run_hook job
       else modc (fun c => c <| k_jobs := k_jobs c ++ [job] |>)) ;;;
      ret ch.

(** [applyCeiling], run on a channel whose temperature is known. *)
Definition applyCeiling (ch : channel Rd) (d : Daemon) : MS (channel Rd) :=
  let h := hottestPart ch in
  let ch := if ho_found h
            then ch <| ch_ceilPart := pt_ID (ho_part h) |> <| ch_ceilPartTemp := pt_Value (ho_part h) |>
                    <| ch_ceilPartCeil := ho_ceil h |>
            else ch in
  let* ch :=
    if (negb (ch_ceilHit ch) && ho_found h)%bool then
      raise "ceiling" (AlCeiling (cc_Name (ch_cfg ch)) (pt_ID (ho_part h)) (pt_Value (ho_part h))
                         (ho_ceil h) (cc_Critical (ch_cfg ch))) ;;;
      ret (ch <| ch_ceilHit := true |> <| ch_ceilCycles := 0 |>)
    else if (ch_ceilHit ch && ho_allBelow h)%bool then
      ret (ch <| ch_ceilHit := false |> <| ch_ceilCycles := 0 |> <| ch_emergencyFired := false |>)
    else ret ch in
  if negb (ch_ceilHit ch) then ret ch
  else
    emergency (ch <| ch_target := 255 |> <| ch_mode := ModeCritical |> <| ch_holding := false |>
                  <| ch_ceilCycles := ch_ceilCycles ch + 1 |>) d.

Definition is_critical (ch : channel Rd) : bool := cc_Critical (ch_cfg ch) * 1000 <=? ch_temp ch.

(** The target and mode before the ceiling rule: curve, hold, override, critical. *)
Definition base_target (ovr : gmap string Z) (now : Time) (ch : channel Rd) : channel Rd :=
  let ch := ch <| ch_mode := ModeAuto |> in
  let '(ch, held) := heldTemp ch in
  let '(ch, target) := minOnHold ch (Interpolate (cc_Curve (ch_cfg ch)) held) now in
  let ch := ch <| ch_target := target |> in
  let ch := match ovr !! cc_Name (ch_cfg ch) with
            | Some v => ch <| ch_holding := false |> <| ch_target := v |> <| ch_mode := ModeManual |>
            | None => ch
            end in
  if is_critical ch then ch <| ch_target := 255 |> <| ch_mode := ModeCritical |> else ch.

(** One channel of [computeTargets]. *)
Definition compute_one (d : Daemon) (ovr : gmap string Z) (now : Time) (ch : channel Rd)
  : MS (channel Rd) :=
  if negb (ch_tempOK ch) then
    ret (ch <| ch_heldOK := false |> <| ch_haveCurve := false |> <| ch_holding := false |>
            <| ch_target := if ch_ceilHit ch then 255 else safeDuty ch |> <| ch_mode := ModeSensor |>)
  else applyCeiling (base_target ovr now ch) d.

Definition computeTargets (cs : cycleState) : MS unit :=
  let* now := lift host_now in
  for_chans (compute_one (cy_d cs) (cy_ovr cs) now) ;;;
  let* c := getc in
  let ok := List.filter ch_tempOK (k_chans c) in
  if existsb is_critical ok
  then raise "temp" (AlTemp (map (fun ch => (cc_Name (ch_cfg ch), ch_temp ch)) ok))
  else ret tt.

(** ** Stall detection *)
Definition stall_one (d : Daemon) (ch : channel Rd) : MS (channel Rd) :=
  if negb (ch_hasTach ch) then ret ch
  else if ch_stalled ch then
    let ch := ch <| ch_target := 255 |> <| ch_mode := ModeStall |>
                 <| ch_recov := if 0 <? ch_rpm ch then ch_recov ch + 1 else 0 |> in
    ret (if stallRecoverCycles <=? ch_recov ch
         then ch <| ch_stalled := false |> <| ch_stallCnt := 0 |> <| ch_recov := 0 |> else ch)
  else if ((ch_rpm ch =? 0) && ch_written ch && (d_StallMinDuty d <=? ch_cur ch))%bool then
    let ch := ch <| ch_stallCnt := ch_stallCnt ch + 1 |> in
    if d_StallCycles d <=? ch_stallCnt ch then
      let ch := ch <| ch_stalled := true |> <| ch_target := 255 |> <| ch_mode := ModeStall |> in
      raise "stall" (AlStall (cc_Name (ch_cfg ch)) (ch_cur ch)) ;;; ret ch
    else ret ch
  else ret (ch <| ch_stallCnt := 0 |>).
Definition checkStall (cs : cycleState) : MS unit := for_chans (stall_one (cy_d cs)).
End Targets.
