(* ===== verification/ControlWrite.v ===== *)
(** The writing half of a regulation cycle (src/internal/control/controller.go,
    dcr.go): register checks, the slewed duty writes, the all-channel failsafe,
    device loss, snapshot, history, and the cycle itself. *)
From stdpp Require Import base gmap strings list.
From Stdlib Require Import ZArith QArith Lia.
From S2P Require Import Prelude GoLib Float64 ConfigTypes Curve Ceiling History ControlTypes ControlAlert ControlSense ControlTarget.
Open Scope Z_scope.

Definition deviceLostCycles : Z := 6.
Definition rewriteEvery : Z := 6.
Definition historySaveEvery : Z := 10 * Minute.
Definition writeErrorsBeforeFailsafe : Z := 2.

(** The only error [cycle] returns. *)
Inductive RunErr := ErrDeviceLost.

Section Writing.
  Context {W Rd : Type} `{Device W} `{Sensors W Rd} `{Host W}.
  Local Abbreviation MS := (M (Sys W Rd)).

(** ** Register comparison (dcr.go) *)
Definition noteRegisterWrite (ch : channel Rd) (duty : Z) : MS (channel Rd) :=
  match dev_VerifyRegister with
  | None => ret ch
  | Some _ =>
      if dev_RegisterSettle (cc_PWM (ch_cfg ch)) <=? 0 then ret ch
      else if (ch_regPending ch && (ch_regDuty ch =? duty))%bool then ret ch
      else let* now := lift host_now in
           ret (ch <| ch_regDuty := duty |> <| ch_regAt := now |> <| ch_regPending := true |>)
  end.

Definition check_register (now : Time) (verify : Z -> Z -> M W (option Err)) (ch : channel Rd)
  : MS (channel Rd) :=
  if negb (ch_regPending ch) || (tSub now (ch_regAt ch) <? dev_RegisterSettle (cc_PWM (ch_cfg ch)))
  then ret ch
  else
    let* e := lift (verify (cc_PWM (ch_cfg ch)) (ch_regDuty ch)) in
    let* _ := dcrDeviation (cc_Name (ch_cfg ch)) e in
    ret (ch <| ch_regPending := false |>).
Definition checkRegisters : MS unit :=
  let* c := getc in
  match dev_VerifyRegister with
  | Some verify =>
      if o_DryRun (k_opts c) then ret tt
      else let* now := lift host_now in for_chans (check_register now verify)
  | None => ret tt
  end.

(** ** Writes *)

(** The duty write itself, with its ghost event. *)
Definition dev_write (pwm duty : Z) : MS (option Err) :=
  let* e := lift (dev_WriteDuty pwm duty) in
  emit (EvWrite pwm duty (match e with None => true | _ => false end)) ;;; ret e.

(** [write]: [Some e] is the error, the channel carries the register note. *)
Definition write (ch : channel Rd) (duty n : Z) : MS (channel Rd * option Err) :=
  let* c := getc in
  if o_DryRun (k_opts c) then ret (ch, None)
  else
    (match dev_ReadEnable with
     | Some readEnable =>
         if ((0 <? n) && ch_written ch)%bool
         then let* _ := lift (readEnable (cc_PWM (ch_cfg ch))) in ret tt else ret tt
     | None => ret tt
     end) ;;;
    let* e := dev_write (cc_PWM (ch_cfg ch)) duty in
    let* e := dcrDeviation (cc_Name (ch_cfg ch)) e in
    match e with
    | Some e => ret (ch, Some e)
    | None => let* ch := noteRegisterWrite ch duty in ret (ch, None)
    end.

(** The duty [writePhase] wants on a channel in cycle [n]. *)
Definition next_duty (d : Daemon) (n : Z) (ch : channel Rd) : Z :=
  if ((0 <? n) && Mode_eqb (ch_mode ch) ModeAuto && (0 <=? ch_cur ch))%bool
  then Slew (ch_cur ch) (ch_target ch) (d_StepUp d) (d_StepDown d) else ch_target ch.

(** One channel of [writePhase]; the flags are (write error, wrote). *)
Definition write_one (d : Daemon) (n : Z) (ch : channel Rd) : MS (channel Rd * (bool * bool)) :=
  let* c := getc in
  if o_DryRun (k_opts c) then
    let* r := lift (dev_ReadDuty (cc_PWM (ch_cfg ch))) in
    ret (match r with
         | inr v => if (0 <=? v) && (v <=? 255) then ch <| ch_cur := v |> else ch
         | inl _ => ch
         end, (false, false))
  else
    let next := next_duty d n ch in
    if negb (next =? ch_cur ch) || (n mod rewriteEvery =? 0) then
      let* r := write ch next n in
      match r.2 with
      | Some _ => ret (r.1 <| ch_cur := -1 |>, (true, false))
      | None => ret (r.1 <| ch_cur := next |> <| ch_written := true |>, (false, true))
      end
    else ret (ch, (false, false)).

Definition writePhase (d : Daemon) (n : Z) : MS (bool * bool) :=
  let* c := getc in
  if k_stopped c then ret (false, false)
  else
    checkRegisters ;;;
    let* c := getc in
    let* rs := mapM (write_one d n) (k_chans c) in
    modc (fun c => c <| k_chans := map fst rs |>) ;;;
    ret (existsb (fun r => r.2.1) rs, existsb (fun r => r.2.2) rs).

(** One channel of [failsafeAll]; [true]: the write succeeded. *)
Definition failsafe_one (mode : Mode) (ch : channel Rd) : MS (channel Rd * bool) :=
  let* c := getc in
  let ch := ch <| ch_mode := mode |> <| ch_target := 255 |> in
  let* r := write ch 255 (k_n c) in
  match r.2 with
  | Some _ => ret (r.1 <| ch_cur := -1 |>, false)
  | None => ret (if o_DryRun (k_opts c) then r.1
                 else r.1 <| ch_cur := 255 |> <| ch_written := true |>, true)
  end.

(** [failsafeAll]: [true] when not a single write succeeded. *)
Definition failsafeAll (mode : Mode) : MS bool :=
  let* c := getc in
  match k_stopped c, k_chans c with
  | true, _ | _, [] => ret false
  | false, chans =>
      let* rs := mapM (failsafe_one mode) chans in
      modc (fun c => c <| k_chans := map fst rs |>) ;;;
      ret (negb (existsb snd rs))
  end.

Definition noteFailsafe (allFailed : bool) : MS (option RunErr) :=
  if negb allFailed then modc (fun c => c <| k_fsFail := 0 |>) ;;; ret None
  else
    modc (fun c => c <| k_fsFail := k_fsFail c + 1 |>) ;;;
    let* c := getc in
    if k_fsFail c <? deviceLostCycles then ret None
    else raise "device" (AlDevice (k_fsFail c)) ;;; ret (Some ErrDeviceLost).

(** ** Publishing *)
Definition channel_state (ch : channel Rd) : ChannelState :=
  let temp := if ch_tempOK ch then temp_float (ch_temp ch) else of_int (-999) in
  let held := if (ch_tempOK ch && (0 <? cc_Hysteresis (ch_cfg ch)) && ch_heldOK ch &&
                  negb (ch_held ch =? ch_temp ch))%bool then temp_float (ch_held ch) else of_int 0 in
  mkChannelState (cc_Name (ch_cfg ch)) (cc_PWM (ch_cfg ch)) (cc_Sensor (ch_cfg ch)) temp
    (ch_cur ch) (ch_target ch) (ch_rpm ch) (ch_mode ch) held
    (if (ch_holding ch && Mode_eqb (ch_mode ch) ModeAuto)%bool then tUnix (ch_holdUntil ch) else 0)
    (ch_ceiling ch) (ch_ceilHit ch).

Definition buildSnapshot (c : Controller Rd) (status : Status) (extra watched : gmap string Q)
    (now : Time) : Snapshot :=
  mkSnapshot (tUnix now) status dev_ProfileName (o_DryRun (k_opts c))
    (map channel_state (k_chans c)) extra watched (k_alerts c)
    (whole_seconds (tSub now (k_started c))).

(** The history point of a cycle. *)
Definition history_point (chans : list (channel Rd)) (watched : gmap string Q) (now : Time) : Point :=
  mkPoint (tUnix now)
    (fold_left (fun m ch => if ch_tempOK ch
       then <[cc_Name (ch_cfg ch) := temp_float (ch_temp ch)]> m else m) chans ∅)
    (fold_left (fun m ch => <[cc_Name (ch_cfg ch) := ch_cur ch]> m) chans ∅)
    (fold_left (fun m ch => if 0 <=? ch_rpm ch
       then <[cc_Name (ch_cfg ch) := ch_rpm ch]> m else m) chans ∅)
    watched.

Definition writeState (sn : Snapshot) : MS unit :=
  let* c := getc in
  if (negb (o_RunDir (k_opts c)) || k_stopped c)%bool then ret tt else lift (host_WriteState sn).

Definition finishCycle (cs : cycleState) (status : Status) : MS unit :=
  let* c := getc in
  let status := if (o_DryRun (k_opts c) && bool_decide (status = StatusOK))%bool
                then StatusDryRun else status in
  let* now := lift host_now in
  let* c := getc in
  let sn := buildSnapshot c status (cy_extra cs) (cy_watchedVals cs) now in
  modc (fun c => c <| k_snap := Some sn |>
                   <| k_hist := Push (history_point (k_chans c) (cy_watchedVals cs) now) (k_hist c) |>) ;;;
  writeState sn ;;;
  modc (fun c => c <| k_n := k_n c + 1 |> <| k_lastCycle := tUnixNano now |>) ;;;
  lift (host_Status status).

(** ** writeAndFinish, in the steps Stop can interleave with *)

(** After a failed write phase: count, and run the failsafe from the second
    consecutive cycle on. *)
Definition note_write_errors : MS (option RunErr) :=
  modc (fun c => c <| k_wrErr := k_wrErr c + 1 |>) ;;;
  let* c := getc in
  if k_wrErr c <? writeErrorsBeforeFailsafe then ret None
  else
    raise "write" AlWrite ;;;
    reresolve ;;;
    let* allFailed := failsafeAll ModeFailsafe in
    noteFailsafe allFailed.

Definition note_writes_ok (wrote : bool) : MS unit :=
  modc (fun c => (if wrote then c <| k_wrErr := 0 |> else c) <| k_fsFail := 0 |>).

Definition cycle_status (cs : cycleState) (nchans : nat) (werr : bool) : Status :=
  if ((0 <? cy_nBad cs) && (cy_nBad cs =? Z.of_nat nchans))%bool then StatusSensorError
  else if werr then StatusWriteError else StatusOK.

Definition writeAndFinish (cs : cycleState) : MS (option RunErr) :=
  let* r := writePhase (cy_d cs) (cy_n cs) in
  let* lost := if (r.1 : bool) then note_write_errors else note_writes_ok r.2 ;;; ret None in
  let* c := getc in
  finishCycle cs (cycle_status cs (length (k_chans c)) r.1) ;;;
  ret lost.

(** [saveHistory] of the loop. *)
Definition saveHistory : MS unit :=
  let* now := lift host_now in
  let* c := getc in
  if tSub now (k_lastSave c) <? historySaveEvery then ret tt
  else
    modc (fun c => c <| k_lastSave := now |>) ;;;
    let* c := getc in
    let* r := lift (Save host_SaveHistory (k_hist c)) in
    modc (fun c => c <| k_hist := r.2 |>).
End Writing.
#[global] Arguments write : simpl never.
#[global] Arguments finishCycle : simpl never.
