(* ===== verification/ControlApi.v ===== *)
(** The controller's construction, its API and its loop
    (src/internal/control/controller.go, watched.go): [New], overrides and their
    files, [Apply] and the swap at the start of a cycle, [Stop], the stand-alone
    [Failsafe] and [FullSpeed], [cycle] and [Run]. *)
From stdpp Require Import base gmap strings list.
From Stdlib Require Import ZArith QArith Lia.
From S2P Require Import Prelude GoLib Float64 ConfigTypes Curve Ceiling History Sanitize ControlTypes ControlAlert ControlSense ControlTarget ControlWrite.
Open Scope Z_scope.

(** What [SetOverride], [ClearOverride] and [Apply] refuse. *)
Inductive ApiErr :=
| ErrDutyRange (duty : Z) | ErrUnknownChannel (name : string) | ErrMinDuty (name : string)
| ErrRestartRequired.

Section Api.
  Context {W Rd : Type} `{Device W} `{Sensors W Rd} `{Host W}.
  Local Abbreviation MS := (M (Sys W Rd)).

Definition zero_time : Time := mkTime 0 0.

(** ** Construction *)
Definition new_channel (cc : Channel) (hasTach : bool) (ceil : Z * list PartCeiling) (cur : Z)
    (rd : option Rd) : channel Rd :=
  {| ch_cfg := cc; ch_hasTach := hasTach; ch_sensor := rd; ch_cur := cur; ch_written := false;
     ch_regDuty := 0; ch_regAt := zero_time; ch_regPending := false; ch_rpm := -1; ch_temp := 0;
     ch_tempOK := false; ch_target := 255; ch_mode := ModeAuto; ch_sensorBad := false;
     ch_sensorErr := SeNone; ch_stallCnt := 0; ch_stalled := false; ch_recov := 0;
     ch_ceiling := ceil.1; ch_partCeil := ceil.2; ch_parts := []; ch_ceilHit := false;
     ch_ceilPart := ""; ch_ceilPartTemp := 0; ch_ceilPartCeil := 0; ch_ceilCycles := 0;
     ch_emergencyFired := false; ch_held := 0; ch_heldOK := false; ch_lastCurve := 0;
     ch_haveCurve := false; ch_holding := false; ch_holdTarget := 0; ch_holdStart := zero_time;
     ch_holdUntil := zero_time |}.

(** The device channel of a pwm: the last entry with the index. *)
Definition dev_channel (pwm : Z) : option DevChannel :=
  last (List.filter (fun dc => dc_Index dc =? pwm) dev_Channels).

(** [buildChannels]: the managed channels and the names of the dropped ones. *)
Fixpoint buildChannels (ccs : list Channel) : MS (list (channel Rd) * list string) :=
  match ccs with
  | [] => ret ([], [])
  | cc :: rest =>
      match dev_channel (cc_PWM cc) with
      | None =>
          let* r := buildChannels rest in ret (r.1, cc_Name cc :: r.2)
      | Some dc =>
          let* ceil := ceilingOf cc in
          let* v := lift (dev_ReadDuty (cc_PWM cc)) in
          let cur := match v with
                     | inl _ => 255
                     | inr v => if (v <? 0) || (255 <? v) then 255 else v
                     end in
          let* rd := resolveSensor cc in
          let* r := buildChannels rest in
          ret (new_channel cc (dc_HasTach dc) ceil cur rd :: r.1, r.2)
      end
  end.

Definition note_text (n : SanNote) : string :=
  match n with SanAdded _ name => name | SanForcedStop name => name end.
Definition reportNotes (notes : list string) : MS unit :=
  match notes with [] => ret tt | _ => raise "config-channels" (AlConfigChannels notes) end.

Definition override_file (name : string) : string := String.append "override." name.
Definition removeRunFile (name : string) : MS unit :=
  let* c := getc in
  if negb (o_RunDir (k_opts c)) then ret tt else lift (host_RemoveRun name).

(** Whether an override may be in effect on a channel. *)
Definition override_ok (cc : Channel) (duty : Z) : bool :=
  negb ((duty <? 0) || (255 <? duty) || (hddLike dev_ProfileName cc && (duty <? MinHDDOverride))).

Definition loadOverrides : MS unit :=
  let* c := getc in
  iterM (fun ch : channel Rd =>
    let name := cc_Name (ch_cfg ch) in
    let* content := lift (host_ReadRun (override_file name)) in
    match content with
    | None => ret tt
    | Some b =>
        match Atoi (TrimSpace b) with
        | Some v =>
            if override_ok (ch_cfg ch) v
            then modc (fun c => c <| k_overrides := <[name := v]> (k_overrides c) |>)
            else removeRunFile (override_file name)
        | None => removeRunFile (override_file name)
        end
    end) (k_chans c).

(** [New] on a controller whose maps are empty: [init_controller] is the composite
    literal, [New] the rest of the function. *)
Definition init_controller (opts : Options) (cfg : Config) (extra : list (string * string)) (store : Store)
  : Controller Rd :=
  {| k_opts := opts; k_cfg := cfg; k_chans := []; k_overrides := ∅; k_snap := None;
     k_hist := store; k_alerts := ∅; k_alertAt := ∅; k_extra := extra; k_pending := None;
     k_watched := []; k_watchDirty := false; k_readErrs := ∅; k_stopped := false;
     k_lastCycle := 0; k_n := 0; k_wrErr := 0; k_fsFail := 0; k_lastRaw := 0; k_sameRaw := 0;
     k_haveRaw := false; k_started := zero_time; k_lastSave := zero_time; k_stopOnce := false;
     k_jobs := [] |}.

Definition New : MS unit :=
  let* c := getc in
  (if o_RunDir (k_opts c) then loadAlertStamps else ret tt) ;;;
  let '(chans, notes) := SanitizeChannels dev_ProfileName (c_Channels (k_cfg c)) in
  modc (fun c => c <| k_cfg := (k_cfg c) <| c_Channels := chans |> |>) ;;;
  let* r := buildChannels chans in
  modc (fun c => c <| k_chans := r.1 |>) ;;;
  reportNotes (map note_text notes ++ r.2) ;;;
  let* ws := buildWatched (c_Sensors (k_cfg c)) in
  modc (fun c => c <| k_watched := ws |>) ;;;
  (if o_RunDir (k_opts c) then loadOverrides else ret tt) ;;;
  let* started := lift host_now in
  modc (fun c => c <| k_started := started |> <| k_lastSave := started |>) ;;;
  let* now := lift host_now in
  modc (fun c => c <| k_snap := Some (buildSnapshot c StatusStarting ∅ ∅ now) |>).

(** ** Overrides *)
Definition findLocked (c : Controller Rd) (name : string) : option (channel Rd) :=
  List.find (fun ch => String.eqb (cc_Name (ch_cfg ch)) name) (k_chans c).

Definition SetOverride (name : string) (duty : Z) : MS (option ApiErr) :=
  if (duty <? 0) || (255 <? duty) then ret (Some (ErrDutyRange duty))
  else
    let* c := getc in
    match findLocked c name with
    | None => ret (Some (ErrUnknownChannel name))
    | Some ch =>
        if (hddLike dev_ProfileName (ch_cfg ch) && (duty <? MinHDDOverride))%bool
        then ret (Some (ErrMinDuty name))
        else
          modc (fun c => c <| k_overrides := <[name := duty]> (k_overrides c) |>) ;;;
          (if o_RunDir (k_opts c)
           then let* _ := lift (host_WriteRun (override_file name)
                                  (String.append (Itoa duty) newline)) in ret tt
           else ret tt) ;;;
          ret None
    end.

Definition ClearOverride (name : string) : MS (option ApiErr) :=
  let* c := getc in
  match findLocked c name with
  | None => ret (Some (ErrUnknownChannel name))
  | Some _ =>
      modc (fun c => c <| k_overrides := delete name (k_overrides c) |>) ;;;
      removeRunFile (override_file name) ;;;
      ret None
  end.

(** ** Watched sensors *)
Definition clean_ids (ids : list string) : list string :=
  fold_left (fun out id0 =>
    let id := TrimSpace id0 in
    if String.eqb id "" || bool_decide (id ∈ out) then out else out ++ [id]) ids [].
Definition SetWatched (ids : list string) : MS unit :=
  let clean := clean_ids ids in
  modc (fun c => c <| k_cfg := (k_cfg c) <| c_Sensors := clean |> |>
                   <| k_pending := (fun p => p <| c_Sensors := clean |>) <$> k_pending c |>
                   <| k_watchDirty := true |>).

(** ** Apply and the swap at the start of a cycle *)
Definition Apply (cfg : Config) : MS (option ApiErr) :=
  let '(chans, notes) := SanitizeChannels dev_ProfileName (c_Channels cfg) in
  let cfg := cfg <| c_Channels := chans |> in
  let* c := getc in
  let base := match k_pending c with Some p => p | None => k_cfg c end in
  if (negb (String.eqb (d_Profile (c_Daemon cfg)) (d_Profile (c_Daemon base))) ||
      negb (sameChannelSet (c_Channels cfg) (c_Channels base)))%bool
  then ret (Some ErrRestartRequired)
  else
    modc (fun c => c <| k_pending := Some cfg |>) ;;;
    reportNotes (map note_text notes) ;;;
    ret None.

(** One channel's update: the new config, the ceilings and, when the sensor id
    changed, the new reader. *)
Record chanUpdate := mkUpdate {
  up_cfg : Channel; up_sensor : option (option Rd); up_ceil : Z * list PartCeiling }.

(** [byName[name]]: the last channel with the name, the zero value without one. *)
Definition zero_channel_cfg : Channel := mkChannel "" 0 "" [] 0 "" 0 0 0 false.
Definition by_name (chans : list Channel) (name : string) : Channel :=
  default zero_channel_cfg (last (List.filter (fun cc => String.eqb (cc_Name cc) name) chans)).

Definition prepare_update (cfg : Config) (ch : channel Rd) : MS chanUpdate :=
  let cc := by_name (c_Channels cfg) (cc_Name (ch_cfg ch)) in
  let* ceil := ceilingOf cc in
  if String.eqb (cc_Sensor cc) (cc_Sensor (ch_cfg ch)) then ret (mkUpdate cc None ceil)
  else let* rd := resolveSensor cc in ret (mkUpdate cc (Some rd) ceil).

(** [swapChannelConfig] on one channel. *)
Definition swap_one (ch : channel Rd) (up : chanUpdate) : channel Rd :=
  let ch := match up_sensor up with
            | Some rd =>
                ch <| ch_sensor := rd |> <| ch_heldOK := false |> <| ch_haveCurve := false |>
                   <| ch_holding := false |> <| ch_ceilHit := false |> <| ch_ceilCycles := 0 |>
                   <| ch_emergencyFired := false |> <| ch_parts := [] |> <| ch_ceilPart := "" |>
            | None => ch
            end in
  ch <| ch_cfg := up_cfg up |> <| ch_ceiling := (up_ceil up).1 |> <| ch_partCeil := (up_ceil up).2 |>.

(** [retimeHolds] on one channel whose min_on was [oldMinOn]. *)
Definition retime_one (now : Time) (oldMinOn : Z) (ch : channel Rd) : channel Rd :=
  let d := cc_MinOn (ch_cfg ch) in
  if negb (ch_holding ch) || (d =? oldMinOn) then ch
  else if d <=? 0 then ch <| ch_holding := false |>
  else let until := tAdd (ch_holdStart ch) d in
       ch <| ch_holdUntil := if tAfter until now then until else now |>.

Definition apply_one (now : Time) (p : channel Rd * chanUpdate) : channel Rd :=
  retime_one now (cc_MinOn (ch_cfg p.1)) (swap_one p.1 p.2).

Definition applyPendingLocked : MS unit :=
  let* c := getc in
  match k_pending c with
  | None => ret tt
  | Some cfg =>
      let old := k_cfg c in
      modc (fun c => c <| k_pending := None |> <| k_cfg := cfg |>) ;;;
      let* ups := mapM (prepare_update cfg) (k_chans c) in
      let* now := lift host_now in
      let firstSensorChanged := match ups with
                                | up :: _ => match up_sensor up with Some _ => true | None => false end
                                | [] => false
                                end in
      modc (fun c => c <| k_chans := map (apply_one now) (combine (k_chans c) ups) |>) ;;;
      (if (firstSensorChanged : bool)
       then modc (fun c => c <| k_haveRaw := false |> <| k_sameRaw := 0 |>) else ret tt) ;;;
      (if bool_decide (c_Sensors cfg = c_Sensors old) then ret tt
       else modc (fun c => c <| k_watchDirty := true |>)) ;;;
      (if d_Interval (c_Daemon cfg) =? d_Interval (c_Daemon old) then ret tt
       else modc (fun c => c <| k_hist := SetInterval (d_Interval (c_Daemon cfg)) (k_hist c) |>))
  end.

(** ** The cycle *)

(** Everything of [cycle] up to the end of [checkStall]: reads and decisions. *)
Definition cycle_decide : MS cycleState :=
  lift host_Notify ;;;
  applyPendingLocked ;;;
  let* c := getc in
  (if k_watchDirty c
   then let* ws := buildWatched (c_Sensors (k_cfg c)) in
        modc (fun c => c <| k_watched := ws |> <| k_watchDirty := false |>)
   else ret tt) ;;;
  let* c := getc in
  let cs := mkCycle (k_n c) (c_Daemon (k_cfg c)) (k_overrides c) 0 ∅ ∅ in
  (if ((0 <? k_n c) && (k_n c mod resolveEvery =? 0))%bool then reresolve else ret tt) ;;;
  let* cs := readSensors cs in
  computeTargets cs ;;;
  checkStall cs ;;;
  ret cs.

Definition cycle : MS (option RunErr) :=
  let* cs := cycle_decide in
  writeAndFinish cs.

(** ** Stop *)
Definition stop_one (ch : channel Rd) : MS unit :=
  let* e := lift (dev_SafeStop (cc_PWM (ch_cfg ch)) (cc_Stop (ch_cfg ch))) in
  emit (EvStop (cc_PWM (ch_cfg ch)) (cc_Stop (ch_cfg ch))) ;;;
  let* _ := dcrDeviation (cc_Name (ch_cfg ch)) e in ret tt.
Definition safeStopLocked : MS unit :=
  let* c := getc in
  (if o_DryRun (k_opts c) then ret tt else iterM stop_one (k_chans c)) ;;;
  removeRunFile "state.json".

Definition save_history_now : MS unit :=
  let* c := getc in
  let* r := lift (Save host_SaveHistory (k_hist c)) in
  modc (fun c => c <| k_hist := r.2 |>).

Definition Stop : MS unit :=
  let* c := getc in
  if k_stopOnce c then ret tt
  else
    modc (fun c => c <| k_stopOnce := true |> <| k_stopped := true |>) ;;;
    safeStopLocked ;;;
    save_history_now.

(** ** Run: at most [fuel] cycles until the context is done ([wait] false). *)
Inductive RunResult := RunCancelled | RunLost | RunFuel.
Fixpoint run_loop (wait : M W bool) (fuel : nat) : MS RunResult :=
  match fuel with
  | O => ret RunFuel
  | S f =>
      let* e := cycle in
      match e with
      | Some ErrDeviceLost => ret RunLost
      | None =>
          saveHistory ;;;
          let* more := lift wait in
          if (more : bool) then run_loop wait f else ret RunCancelled
      end
  end.
Definition Run (wait : M W bool) (fuel : nat) : MS RunResult :=
  let* r := run_loop wait fuel in Stop ;;; ret r.
End Api.

(** ** Without a running controller *)
Section Standalone.
  Context {W : Type} `{Device W} `{Host W}.

Definition RegisterPoll : Z := 200 * Millisecond.

(** [WaitRegister] (src/internal/profile/n5pro.go) with at most [fuel] reads. *)
Fixpoint WaitRegister (verify : Z -> Z -> M W (option Err)) (sleep : Z -> M W unit) (ch duty : Z)
    (deadline : Time) (fuel : nat) : M W (option Err) :=
  match fuel with
  | O => ret None
  | S f =>
      let* e := verify ch duty in
      match e with
      | None => ret None
      | Some e =>
          let* now := host_now in
          if negb (tBefore now deadline) then ret (Some e)
          else sleep RegisterPoll ;;; WaitRegister verify sleep ch duty deadline f
      end
  end.

(** [failsafeRegisters]; its result is only logged. *)
Definition failsafeRegisters (sleep : Z -> M W unit) (fuel : nat) (fixed : list Channel) : M W unit :=
  match dev_VerifyRegister, fixed with
  | None, _ | _, [] => ret tt
  | Some verify, _ =>
      let* start := host_now in
      iterM (fun ch =>
        let settle := dev_RegisterSettle (cc_PWM ch) in
        if settle <=? 0 then ret tt
        else let* _ := WaitRegister verify sleep (cc_PWM ch) (default 0 (StopDuty ch))
                         (tAdd start settle) fuel in ret tt) fixed
  end.

(** One channel of [Failsafe]: the error to report and whether its register is to
    be compared. *)
Definition failsafe_channel (ch : Channel) : M W (list (Channel * Err) * list Channel) :=
  if negb (existsb (fun dc => dc_Index dc =? cc_PWM ch) dev_Channels) then ret ([], [])
  else
    let* e := dev_SafeStop (cc_PWM ch) (cc_Stop ch) in
    ret (match e with
         | Some e => if errors_Is e ErrDCRMismatch then ([], []) else ([(ch, e)], [])
         | None => match StopDuty ch with Some _ => ([], [ch]) | None => ([], []) end
         end).

Definition Failsafe (sleep : Z -> M W unit) (fuel : nat) (cfg : Config) : M W (list (Channel * Err)) :=
  let chans := fst (SanitizeChannels dev_ProfileName (c_Channels cfg)) in
  let* rs := mapM failsafe_channel chans in
  failsafeRegisters sleep fuel (concat (map snd rs)) ;;;
  ret (concat (map fst rs)).

Definition FullSpeed (cfg : Config) : M W (list (Channel * Err)) :=
  let* rs := mapM (fun ch =>
    let* e := dev_EnterManual (cc_PWM ch) in
    match e with
    | Some e => ret [(ch, e)]
    | None => let* e := dev_WriteDuty (cc_PWM ch) 255 in
              ret (match e with Some e => [(ch, e)] | None => [] end)
    end) (c_Channels cfg) in
  ret (concat rs).
End Standalone.
