(* ===== verification/ControlDemo.v ===== *)
(** A concrete world for the controller's witnesses: sensors with set readings, a
    device that stores duties (or refuses every write), a clock that the loop's
    wait advances, an in-memory run directory. *)
From stdpp Require Import base gmap strings list.
From Stdlib Require Import ZArith QArith Lia.
From S2P Require Import Prelude GoLib ConfigTypes Ceiling History ControlTypes ControlAlert ControlSense ControlTarget ControlWrite ControlApi.
Open Scope Z_scope.

Module Demo.

Record World := mkWorld {
  w_now : Z; w_temps : gmap string Z; w_rpm : Z; w_duty : gmap Z Z; w_dead : bool;
  w_run : gmap string string }.
#[global] Instance eta_World : Eta World := fun w =>
  mkWorld (w_now w) (w_temps w) (w_rpm w) (w_duty w) (w_dead w) (w_run w).

#[global] Instance demo_device : Device World := {|
  dev_ProfileName := "n5pro";
  dev_Channels := [mkDevChannel 1 true; mkDevChannel 2 true; mkDevChannel 3 true; mkDevChannel 4 false];
  dev_ReadRPM := fun ch w => (inr (w_rpm w), w);
  dev_ReadDuty := fun ch w => (inr (default 100 (w_duty w !! ch)), w);
  dev_EnterManual := fun ch w => (None, w);
  dev_WriteDuty := fun ch d w =>
    if (w_dead w || (d <? 0) || (255 <? d))%bool then (Some [ENODEV], w)
    else (None, w <| w_duty := <[ch := d]> (w_duty w) |>);
  dev_SafeStop := fun ch stop w => (None, w);
  dev_ReadEnable := None;
  dev_VerifyRegister := None;
  dev_RegisterSettle := fun _ => 0 |}.

(** The same device after its driver has gone: every write fails. *)
Definition dead_device : Device World := {|
  dev_ProfileName := "n5pro";
  dev_Channels := [mkDevChannel 1 true; mkDevChannel 2 true; mkDevChannel 3 true];
  dev_ReadRPM := fun ch w => (inl [ENODEV], w);
  dev_ReadDuty := fun ch w => (inl [ENODEV], w);
  dev_EnterManual := fun ch w => (Some [ENODEV], w);
  dev_WriteDuty := fun ch d w => (Some [ENODEV], w);
  dev_SafeStop := fun ch stop w => (Some [ENODEV], w);
  dev_ReadEnable := None;
  dev_VerifyRegister := None;
  dev_RegisterSettle := fun _ => 0 |}.

#[global] Instance demo_sensors : Sensors World string := {|
  sen_New := fun id w => (Some id, w);
  sen_Read := fun id w => (match w_temps w !! id with Some v => inr v | None => inl [ENODATA] end, w);
  sen_Parts := fun _ _ => None;
  sen_DiskKind := fun _ => None |}.

#[global] Instance demo_host : Host World := {|
  host_now := fun w => (mkTime (w_now w) (w_now w), w);
  host_Notify := ret tt;
  host_Status := fun _ => ret tt;
  host_ReadFile := fun _ => ret (inl [ErrNotExist]);
  host_ReadRun := fun name w => (w_run w !! name, w);
  host_ListRun := fun w => (map fst (map_to_list (w_run w)), w);
  host_WriteRun := fun name b w => (true, w <| w_run := <[name := b]> (w_run w) |>);
  host_RemoveRun := fun name w => (tt, w <| w_run := delete name (w_run w) |>);
  host_WriteState := fun _ => ret tt;
  host_Alert := fun _ _ => ret tt;
  host_HookCheck := ret true;
  host_Exec := fun _ => ret HookExit0;
  host_SaveHistory := fun _ => ret true;
  host_LoadHistory := ret None |}.

(** Ten seconds pass. *)
Definition tick : M World bool := fun w => (true, w <| w_now := w_now w + 10 * Second |>).

Definition cpu_channel : Channel :=
  mkChannel "cpu" 1 "k10temp" [(35, 60); (60, 150); (80, 255)] 88 "auto" 0 0 0 false.
Definition hdd_channel : Channel :=
  mkChannel "hdd" 3 "drivetemp:max" [(30, 87); (42, 140); (55, 255)] 60 "140" 0 0 0 false.
Definition config : Config := mkConfig DefaultDaemon DefaultWeb DefaultLog DefaultAlert [] [cpu_channel; hdd_channel] [].
Definition options : Options := mkOptions false true true.

Definition world (cpu hdd : Z) : World :=
  mkWorld (1000 * Second) (<["k10temp" := cpu]> (<["drivetemp:max" := hdd]> ∅)) 1200 ∅ false ∅.

(** The system before [New], and after it. *)
Definition start_on (opts : Options) (w : World) : Sys World string :=
  mkSys (init_controller opts config [] (empty_store "" (10 * Second))) w [].
Definition started (w : World) : Sys World string := snd (New (start_on options w)).

Definition exec {A} (m : M (Sys World string) A) (s : Sys World string) : Sys World string := snd (m s).
Definition set_world (f : World -> World) (s : Sys World string) : Sys World string :=
  mkSys (s_c s) (f (s_w s)) (s_ev s).
Definition duties (s : Sys World string) : list (string * Z * Mode) :=
  map (fun ch => (cc_Name (ch_cfg ch), ch_cur ch, ch_mode ch)) (k_chans (s_c s)).

End Demo.
