(* ===== verification/ControlFrame.v ===== *)
(** Reasoning about the controller's operations: which of them are quiet (they
    touch nothing but alerts, warnings, hook jobs and the world, and write no
    duty), what an operation returns whatever the state, and how a loop over the
    channels maps them. *)
From stdpp Require Import base gmap strings list.
From Stdlib Require Import ZArith QArith Lia.
From S2P Require Import Prelude GoLib ConfigTypes Curve Ceiling History ControlTypes ControlAlert ControlSense ControlTarget ControlWrite ControlApi.
Open Scope Z_scope.

(** ** Running a computation *)
Lemma bind_run {S A B} (m : M S A) (k : A -> M S B) (s : S) : bind m k s = k (fst (m s)) (snd (m s)).
Proof. unfold bind. by destruct (m s). Qed.
Lemma bind_getc {W Rd A} (k : Controller Rd -> M (Sys W Rd) A) (s : Sys W Rd) : bind getc k s = k (s_c s) s.
Proof. done. Qed.

(** ** Quiet computations *)
Definition quiet_event (e : Event) : Prop :=
  match e with EvWrite _ _ _ | EvStop _ _ => False | _ => True end.

(** The controller without what alerts and warnings change. *)
Definition core {Rd} (c : Controller Rd) : Controller Rd :=
  c <| k_alerts := ∅ |> <| k_alertAt := ∅ |> <| k_readErrs := ∅ |> <| k_jobs := [] |>.

Definition frame {W Rd} (s s' : Sys W Rd) : Prop :=
  core (s_c s') = core (s_c s) /\
  exists new, s_ev s' = new ++ s_ev s /\ Forall quiet_event new.

#[export] Instance frame_preorder {W Rd} : PreOrder (@frame W Rd).
Proof.
  split.
  - intros s. split; [done|]. by exists [].
  - intros s1 s2 s3 [C1 (n1 & E1 & F1)] [C2 (n2 & E2 & F2)]. split; [congruence|].
    exists (n2 ++ n1). rewrite E2, E1, app_assoc. split; [done|]. by apply Forall_app.
Qed.

Definition quiet {W Rd A} (m : M (Sys W Rd) A) : Prop := forall s, frame s (snd (m s)).

Section Quiet.
Context {W Rd : Type}.
Implicit Types s : Sys W Rd.

Lemma quiet_ret {A} (a : A) : quiet (ret a : M (Sys W Rd) A).
Proof. by intros s. Qed.
Lemma quiet_gets {A} (f : Sys W Rd -> A) : quiet (gets f).
Proof. by intros s. Qed.
Lemma quiet_bind {A B} (m : M (Sys W Rd) A) (k : A -> M (Sys W Rd) B) :
  quiet m -> (forall a, quiet (k a)) -> quiet (bind m k).
Proof.
  intros Hm Hk s. unfold bind. specialize (Hm s). destruct (m s) as [a s1].
  etransitivity; [exact Hm|]. apply Hk.
Qed.
Lemma quiet_lift {A} (m : M W A) : quiet (lift m : M (Sys W Rd) A).
Proof. intros s. unfold lift. destruct (m (s_w s)). split; [done|]. by exists []. Qed.
Lemma quiet_modc (f : Controller Rd -> Controller Rd) :
  (forall c, core (f c) = core c) -> quiet (modc f : M (Sys W Rd) unit).
Proof. intros Hf s. split; [apply Hf|]. by exists []. Qed.
Lemma quiet_emit e : quiet_event e -> quiet (emit e : M (Sys W Rd) unit).
Proof. intros He s. split; [done|]. exists [e]. by repeat constructor. Qed.
Lemma quiet_mapM {A B} (f : A -> M (Sys W Rd) B) l :
  (forall a, quiet (f a)) -> quiet (mapM f l).
Proof.
  intros Hf. induction l as [|a l IH]; cbn [mapM]; [apply quiet_ret|].
  apply quiet_bind; [done|]. intros. apply quiet_bind; [done|]. intros. apply quiet_ret.
Qed.
Lemma quiet_iterM {A} (f : A -> M (Sys W Rd) unit) l :
  (forall a, quiet (f a)) -> quiet (iterM f l).
Proof.
  intros Hf. induction l as [|a l IH]; cbn [iterM]; [apply quiet_ret|]. by apply quiet_bind.
Qed.
Lemma quiet_foldM {A B} (f : B -> A -> M (Sys W Rd) B) l b :
  (forall b a, quiet (f b a)) -> quiet (foldM f b l).
Proof.
  intros Hf. revert b. induction l as [|a l IH]; intros b; cbn [foldM]; [apply quiet_ret|].
  by apply quiet_bind.
Qed.

(** A property of the state that quiet computations keep. *)
Definition framed (I : Sys W Rd -> Prop) : Prop := forall s s', frame s s' -> I s -> I s'.
Lemma quiet_preserves {A} I (m : M (Sys W Rd) A) : framed I -> quiet m -> preserves I m.
Proof. intros HI Hm s Hs. by eapply HI; [apply Hm|]. Qed.
Lemma quiet_triple {A} I (Q : A -> Prop) (m : M (Sys W Rd) A) :
  framed I -> quiet m -> yields Q m -> triple I m (fun a s => Q a /\ I s).
Proof. intros HI Hm HQ s Hs. split; [apply HQ|]. by eapply HI; [apply Hm|]. Qed.

Lemma frame_core s s' : frame s s' -> core (s_c s') = core (s_c s).
Proof. by intros []. Qed.
End Quiet.

Create HintDb quiet discriminated.
#[export] Hint Resolve quiet_ret quiet_gets quiet_lift : quiet.
Ltac quiet_step :=
  match goal with
  | |- forall _, _ => intro
  | |- quiet (bind _ _) => apply quiet_bind
  | |- quiet (mapM _ _) => apply quiet_mapM
  | |- quiet (iterM _ _) => apply quiet_iterM
  | |- quiet (foldM _ _ _) => apply quiet_foldM
  | |- quiet (modc _) => solve [apply quiet_modc; intros; reflexivity]
  | |- quiet (emit _) => solve [apply quiet_emit; exact I]
  | |- quiet (match ?x with _ => _ end) => destruct x eqn:?
  | |- quiet (let _ := _ in _) => cbv zeta
  | |- quiet _ => solve [auto 2 with quiet nocore]
  end.
Ltac qt := repeat quiet_step.

(** ** Alerts and warnings are quiet *)
Section QuietOps.
Context {W Rd : Type} `{Device W} `{Sensors W Rd} `{Host W}.

Lemma quiet_getc : quiet (getc : M (Sys W Rd) _).
Proof. apply quiet_gets. Qed.
Lemma quiet_world : quiet (world : M (Sys W Rd) _).
Proof. apply quiet_gets. Qed.
Hint Resolve quiet_getc quiet_world : quiet.

Lemma quiet_raise kind msg : quiet (raise kind msg : M (Sys W Rd) unit).
Proof. unfold raise. qt. Qed.
Lemma quiet_limited key i now : quiet (limited key i now : M (Sys W Rd) unit).
Proof. unfold limited. qt. Qed.
Hint Resolve quiet_raise quiet_limited : quiet.
Lemma quiet_noteReadErr src e : quiet (noteReadErr src e : M (Sys W Rd) unit).
Proof. unfold noteReadErr. qt. Qed.
Lemma quiet_noteReadOK src : quiet (noteReadOK src : M (Sys W Rd) unit).
Proof. unfold noteReadOK. qt. Qed.
Lemma quiet_dcrDeviation name e : quiet (dcrDeviation name e : M (Sys W Rd) _).
Proof. unfold dcrDeviation. qt. Qed.
Lemma quiet_loadAlertStamps : quiet (loadAlertStamps : M (Sys W Rd) unit).
Proof. unfold loadAlertStamps. qt. Qed.
Hint Resolve quiet_noteReadErr quiet_noteReadOK quiet_dcrDeviation quiet_loadAlertStamps : quiet.

Lemma quiet_resolveSensor cc : quiet (resolveSensor cc : M (Sys W Rd) _).
Proof. unfold resolveSensor. qt. Qed.
Lemma quiet_ceilingOf cc : quiet (ceilingOf cc : M (Sys W Rd) _).
Proof. unfold ceilingOf. qt. Qed.
Lemma quiet_partsOf rd id v : quiet (partsOf rd id v : M (Sys W Rd) _).
Proof. unfold partsOf. qt. Qed.
Hint Resolve quiet_resolveSensor quiet_ceilingOf quiet_partsOf : quiet.
Lemma quiet_try_resolve ch : quiet (try_resolve ch : M (Sys W Rd) _).
Proof. unfold try_resolve, install. qt. Qed.
Hint Resolve quiet_try_resolve : quiet.
Lemma quiet_read_one ch : quiet (read_one ch : M (Sys W Rd) _).
Proof. unfold read_one. qt. Qed.
Lemma quiet_judge_one ch : quiet (judge_one ch : M (Sys W Rd) _).
Proof. unfold judge_one. qt. Qed.
Lemma quiet_read_rpm ch : quiet (read_rpm ch : M (Sys W Rd) _).
Proof. unfold read_rpm. qt. Qed.
Lemma quiet_readExtra : quiet (readExtra : M (Sys W Rd) _).
Proof. unfold readExtra. qt. Qed.
Lemma quiet_buildWatched ids : quiet (buildWatched ids : M (Sys W Rd) _).
Proof. unfold buildWatched. qt. Qed.
Lemma quiet_read_watched_one n w : quiet (read_watched_one n w : M (Sys W Rd) _).
Proof. unfold read_watched_one. qt. Qed.
Lemma quiet_run_hook j : quiet (run_hook j : M (Sys W Rd) unit).
Proof. unfold run_hook. qt. Qed.
Hint Resolve quiet_read_one quiet_judge_one quiet_read_rpm quiet_readExtra quiet_buildWatched
  quiet_read_watched_one quiet_run_hook : quiet.
Lemma quiet_emergency ch d : quiet (emergency ch d : M (Sys W Rd) _).
Proof. unfold emergency. qt. Qed.
Hint Resolve quiet_emergency : quiet.
Lemma quiet_applyCeiling ch d : quiet (applyCeiling ch d : M (Sys W Rd) _).
Proof. unfold applyCeiling. qt. Qed.
Hint Resolve quiet_applyCeiling : quiet.
Lemma quiet_compute_one d ovr now ch : quiet (compute_one d ovr now ch : M (Sys W Rd) _).
Proof. unfold compute_one. qt. Qed.
Lemma quiet_stall_one d ch : quiet (stall_one d ch : M (Sys W Rd) _).
Proof. unfold stall_one. qt. Qed.
Lemma quiet_noteRegisterWrite ch duty : quiet (noteRegisterWrite ch duty : M (Sys W Rd) _).
Proof. unfold noteRegisterWrite. qt. Qed.
Lemma quiet_check_register now v ch : quiet (check_register now v ch : M (Sys W Rd) _).
Proof. unfold check_register. qt. Qed.
Lemma quiet_prepare_update cfg ch : quiet (prepare_update cfg ch : M (Sys W Rd) _).
Proof. unfold prepare_update. qt. Qed.
Lemma quiet_writeState sn : quiet (writeState sn : M (Sys W Rd) unit).
Proof. unfold writeState. qt. Qed.
Lemma quiet_removeRunFile name : quiet (removeRunFile name : M (Sys W Rd) unit).
Proof. unfold removeRunFile. qt. Qed.
Lemma quiet_reportNotes notes : quiet (reportNotes notes : M (Sys W Rd) unit).
Proof. unfold reportNotes. qt. Qed.
Lemma quiet_buildChannels ccs : quiet (buildChannels ccs : M (Sys W Rd) _).
Proof. induction ccs as [|cc ccs IH]; cbn [buildChannels]; qt; exact IH. Qed.
End QuietOps.
#[export] Hint Resolve quiet_getc quiet_world quiet_raise quiet_limited quiet_noteReadErr
  quiet_noteReadOK quiet_dcrDeviation quiet_loadAlertStamps quiet_resolveSensor quiet_ceilingOf
  quiet_partsOf quiet_try_resolve quiet_read_one quiet_judge_one quiet_read_rpm quiet_readExtra
  quiet_buildWatched quiet_read_watched_one quiet_run_hook quiet_emergency quiet_applyCeiling
  quiet_compute_one quiet_stall_one quiet_noteRegisterWrite quiet_check_register
  quiet_prepare_update quiet_writeState quiet_removeRunFile quiet_reportNotes
  quiet_buildChannels : quiet.
