(* ===== verification/ControlStep.v ===== *)
(** What one pass over the channels does to each of them: reads change only
    reading fields, decisions are pure functions of the channel
    ([compute_result], [stall_result]), writes change only the duty and register
    fields; and how the phases of a cycle compose them. *)
From stdpp Require Import base gmap strings list.
From Stdlib Require Import ZArith QArith Lia.
From S2P Require Import Prelude GoLib ConfigTypes Curve Ceiling History ControlTypes ControlAlert ControlSense ControlTarget ControlWrite ControlApi ControlFrame.
Open Scope Z_scope.

(** ** The parts of a channel the passes leave alone *)
Definition read_core {Rd} (ch : channel Rd) : channel Rd :=
  ch <| ch_sensor := None |> <| ch_temp := 0 |> <| ch_tempOK := false |> <| ch_sensorErr := SeNone |>
     <| ch_sensorBad := false |> <| ch_parts := [] |> <| ch_ceiling := 0 |> <| ch_partCeil := [] |>
     <| ch_rpm := 0 |>.
Definition write_core {Rd} (ch : channel Rd) : channel Rd :=
  ch <| ch_cur := 0 |> <| ch_written := false |> <| ch_regDuty := 0 |> <| ch_regAt := mkTime 0 0 |>
     <| ch_regPending := false |>.

(** ** Decisions as functions *)
Section Results.
Context {Rd : Type}.

(** The ceiling rule without its alerts and its hook run. *)
Definition ceil_result (d : Daemon) (ch : channel Rd) : channel Rd :=
  let h := hottestPart ch in
  let ch := if ho_found h
            then ch <| ch_ceilPart := pt_ID (ho_part h) |> <| ch_ceilPartTemp := pt_Value (ho_part h) |>
                    <| ch_ceilPartCeil := ho_ceil h |>
            else ch in
  let ch := if (negb (ch_ceilHit ch) && ho_found h)%bool
            then ch <| ch_ceilHit := true |> <| ch_ceilCycles := 0 |>
            else if (ch_ceilHit ch && ho_allBelow h)%bool
            then ch <| ch_ceilHit := false |> <| ch_ceilCycles := 0 |> <| ch_emergencyFired := false |>
            else ch in
  if negb (ch_ceilHit ch) then ch
  else
    let ch := ch <| ch_target := 255 |> <| ch_mode := ModeCritical |> <| ch_holding := false |>
                 <| ch_ceilCycles := ch_ceilCycles ch + 1 |> in
    if (ch_emergencyFired ch || negb (d_Emergency d) || (d_EmergencyCycles d <=? 0))%bool then ch
    else if emergency_due ch d then ch <| ch_emergencyFired := true |> else ch.

Definition compute_result (d : Daemon) (ovr : gmap string Z) (now : Time) (ch : channel Rd) : channel Rd :=
  if negb (ch_tempOK ch) then
    ch <| ch_heldOK := false |> <| ch_haveCurve := false |> <| ch_holding := false |>
       <| ch_target := if ch_ceilHit ch then 255 else safeDuty ch |> <| ch_mode := ModeSensor |>
  else ceil_result d (base_target ovr now ch).

Definition stall_result (d : Daemon) (ch : channel Rd) : channel Rd :=
  if negb (ch_hasTach ch) then ch
  else if ch_stalled ch then
    let ch := ch <| ch_target := 255 |> <| ch_mode := ModeStall |>
                 <| ch_recov := if 0 <? ch_rpm ch then ch_recov ch + 1 else 0 |> in
    if stallRecoverCycles <=? ch_recov ch
    then ch <| ch_stalled := false |> <| ch_stallCnt := 0 |> <| ch_recov := 0 |> else ch
  else if ((ch_rpm ch =? 0) && ch_written ch && (d_StallMinDuty d <=? ch_cur ch))%bool then
    let ch := ch <| ch_stallCnt := ch_stallCnt ch + 1 |> in
    if d_StallCycles d <=? ch_stallCnt ch
    then ch <| ch_stalled := true |> <| ch_target := 255 |> <| ch_mode := ModeStall |> else ch
  else ch <| ch_stallCnt := 0 |>.

Definition decide_result d ovr now (ch : channel Rd) : channel Rd :=
  stall_result d (compute_result d ovr now ch).
End Results.

Section PerChannel.
Context {W Rd : Type} `{Device W} `{Sensors W Rd} `{Host W}.

Lemma try_resolve_core ch :
  yields (S := Sys W Rd) (fun ch' => read_core ch' = read_core ch /\ ch_temp ch' = ch_temp ch /\
    ch_tempOK ch' = ch_tempOK ch /\ ch_sensorErr ch' = ch_sensorErr ch /\ ch_parts ch' = ch_parts ch /\
    ch_sensorBad ch' = ch_sensorBad ch)
    (try_resolve ch).
Proof. unfold try_resolve, install. yld; done. Qed.

Lemma read_one_core ch : yields (S := Sys W Rd) (fun ch' => read_core ch' = read_core ch) (read_one ch).
Proof.
  unfold read_one. cbv zeta.
  apply (yields_bind (fun ch' => read_core ch' = read_core ch)).
  - destruct (ch_sensor _); [by apply yields_ret|].
    eapply yields_mono; [apply try_resolve_core|]. by intros a (-> & _).
  - intros ch1 <-. yld; done.
Qed.

(** A good reading is a plausible one, and a channel without one has a reason. *)
Lemma read_one_plausible ch : yields (S := Sys W Rd) (fun ch' =>
  if ch_tempOK ch' then Plausible (ch_temp ch') = true /\ ch_sensorErr ch' = SeNone
  else ch_sensorErr ch' <> SeNone) (read_one ch).
Proof.
  unfold read_one. cbv zeta.
  apply (yields_bind (fun ch' => ch_tempOK ch' = false /\ ch_sensorErr ch' = SeNone)).
  - destruct (ch_sensor _); [by apply yields_ret|].
    eapply yields_mono; [apply try_resolve_core|]. intros a (_ & _ & -> & -> & _). done.
  - intros ch1 [H1' H2']. yld; cbn; rewrite ?H1'; try done.
Qed.

Lemma judge_one_core ch : yields (S := Sys W Rd) (fun r => read_core r.1 = read_core ch /\
  ch_tempOK r.1 = ch_tempOK ch /\ ch_temp r.1 = ch_temp ch) (judge_one ch).
Proof.
  unfold judge_one. cbv zeta. destruct (negb (ch_tempOK ch)) eqn:E.
  - apply (yields_bind (fun ch' => read_core ch' = read_core ch /\ ch_tempOK ch' = ch_tempOK ch /\
      ch_temp ch' = ch_temp ch)).
    + destruct (ch_sensor _); [|by apply yields_ret].
      eapply yields_mono; [apply try_resolve_core|]. intros a (? & ? & ? & _). by split_and!.
    + intros a (Ha & Hb & Hc). apply yields_ret. cbn. by rewrite <- Ha.
  - by apply yields_ret.
Qed.

Lemma read_rpm_core ch : yields (S := Sys W Rd) (fun ch' => read_core ch' = read_core ch /\
  ch_tempOK ch' = ch_tempOK ch /\ ch_temp ch' = ch_temp ch) (read_rpm ch).
Proof. unfold read_rpm. yld; bool_cases; done. Qed.

Lemma emergency_returns ch d :
  returns (emergency ch d : M (Sys W Rd) _)
    (if (ch_emergencyFired ch || negb (d_Emergency d) || (d_EmergencyCycles d <=? 0))%bool then ch
     else if emergency_due ch d then ch <| ch_emergencyFired := true |> else ch).
Proof.
  apply returns_yields. unfold emergency. yld; done.
Qed.

Lemma applyCeiling_returns ch d : returns (applyCeiling ch d : M (Sys W Rd) _) (ceil_result d ch).
Proof.
  apply returns_yields. unfold applyCeiling, ceil_result. cbv zeta.
  set (h := hottestPart ch). set (ch1 := if ho_found h then _ else ch).
  apply (yields_bind (fun x => x = if (negb (ch_ceilHit ch1) && ho_found h)%bool
            then ch1 <| ch_ceilHit := true |> <| ch_ceilCycles := 0 |>
            else if (ch_ceilHit ch1 && ho_allBelow h)%bool
            then ch1 <| ch_ceilHit := false |> <| ch_ceilCycles := 0 |> <| ch_emergencyFired := false |>
            else ch1)).
  - yld; done.
  - intros a ->. match goal with |- yields _ (if negb (ch_ceilHit ?x) then _ else _) => set (ch2 := x) end.
    destruct (ch_ceilHit ch2); cbn [negb]; [apply emergency_returns|by apply yields_ret].
Qed.

Lemma compute_one_returns d ovr now ch :
  returns (compute_one d ovr now ch : M (Sys W Rd) _) (compute_result d ovr now ch).
Proof.
  unfold compute_one, compute_result. destruct (ch_tempOK ch); cbn [negb].
  - apply applyCeiling_returns.
  - by intros s.
Qed.

Lemma stall_one_returns d ch : returns (stall_one d ch : M (Sys W Rd) _) (stall_result d ch).
Proof. apply returns_yields. unfold stall_one, stall_result. cbv zeta. yld; done. Qed.

Lemma noteRegisterWrite_core ch duty : yields (S := Sys W Rd) (fun ch' => write_core ch' = write_core ch /\
  ch_cur ch' = ch_cur ch /\ ch_written ch' = ch_written ch) (noteRegisterWrite ch duty).
Proof. unfold noteRegisterWrite. yld; done. Qed.

Local Hint Resolve noteRegisterWrite_core : yld.

Lemma check_register_core now v ch : yields (S := Sys W Rd) (fun ch' => write_core ch' = write_core ch /\
  ch_cur ch' = ch_cur ch /\ ch_written ch' = ch_written ch) (check_register now v ch).
Proof. unfold check_register. yld; done. Qed.

Lemma write_core_yields ch duty n : yields (S := Sys W Rd) (fun r => write_core r.1 = write_core ch /\
  ch_cur r.1 = ch_cur ch /\ ch_written r.1 = ch_written ch) (write ch duty n).
Proof.
  unfold write. yld; done.
Qed.

Lemma write_one_core d n ch : yields (S := Sys W Rd) (fun r => write_core r.1 = write_core ch) (write_one d n ch).
Proof.
  unfold write_one. apply yields_bind'. intros c. destruct (o_DryRun _).
  - yld. cbn [fst]. by repeat case_match.
  - cbv zeta. destruct (_ || _)%bool; [|by apply yields_ret].
    eapply yields_bind; [apply write_core_yields|]. intros r (Hr & _).
    destruct r.2; apply yields_ret; cbn; by rewrite <- Hr.
Qed.

Lemma failsafe_one_core mode ch : yields (S := Sys W Rd) (fun r =>
  write_core r.1 = write_core (ch <| ch_mode := mode |> <| ch_target := 255 |>)) (failsafe_one mode ch).
Proof.
  unfold failsafe_one. apply yields_bind'. intros c. cbv zeta.
  eapply yields_bind; [apply write_core_yields|]. intros r (Hr & _).
  destruct r.2; apply yields_ret; [|destruct (o_DryRun _)]; cbn; by rewrite <- Hr.
Qed.
End PerChannel.
