(* ===== verification/ControlPhase.v ===== *)
(** How the phases of a cycle compose: [goes C R m] says that from a state in [C]
    the computation [m] relates every channel to its successor by [R] and keeps
    everything else that belongs to no cycle ([lcore]). *)
From stdpp Require Import base gmap strings list.
From Stdlib Require Import ZArith QArith Lia.
From S2P Require Import Prelude GoLib ConfigTypes Curve Ceiling History ControlTypes ControlAlert ControlSense ControlTarget ControlWrite ControlApi ControlFrame ControlStep.
Open Scope Z_scope.

(** The controller without the channels and what a cycle keeps for itself. *)
Definition lcore {Rd} (c : Controller Rd) : Controller Rd :=
  (core c) <| k_chans := [] |> <| k_lastRaw := 0 |> <| k_sameRaw := 0 |> <| k_haveRaw := false |>
    <| k_watched := [] |> <| k_watchDirty := false |> <| k_wrErr := 0 |> <| k_fsFail := 0 |>
    <| k_snap := None |> <| k_hist := empty_store "" 0 |> <| k_n := 0 |> <| k_lastCycle := 0 |>.

Section Phase.
Context {W Rd : Type}.
Implicit Types (s : Sys W Rd) (R : channel Rd -> channel Rd -> Prop).

Definition phase R s s' : Prop :=
  lcore (s_c s') = lcore (s_c s) /\ Forall2 R (k_chans (s_c s)) (k_chans (s_c s')).

(** Conditions on what no cycle changes. *)
Definition fixed (C : Controller Rd -> Prop) : Prop :=
  forall c c', lcore c' = lcore c -> C c -> C c'.

Definition goes {A} (C : Controller Rd -> Prop) R (m : M (Sys W Rd) A) : Prop :=
  forall s, C (s_c s) -> phase R s (snd (m s)).

Definition rcomp R1 R2 : channel Rd -> channel Rd -> Prop := fun a c => exists b, R1 a b /\ R2 b c.

Lemma Forall2_rcomp R1 R2 l1 l2 l3 :
  Forall2 R1 l1 l2 -> Forall2 R2 l2 l3 -> Forall2 (rcomp R1 R2) l1 l3.
Proof.
  intros H. revert l3. induction H; intros l3 H'; inversion_clear H'; constructor; auto.
  by eexists.
Qed.

Lemma lcore_core (c c' : Controller Rd) : core c' = core c -> lcore c' = lcore c /\ k_chans c' = k_chans c.
Proof.
  intros H. split; [unfold lcore; by rewrite H|].
  change (k_chans (core c') = k_chans (core c)). by rewrite H.
Qed.

Lemma Forall2_eq_refl {A} (l : list A) : Forall2 eq l l.
Proof. induction l; by constructor. Qed.

Lemma lcore_chans (c c' : Controller Rd) chs :
  core c' = core c -> lcore (c' <| k_chans := chs |>) = lcore c.
Proof. intros H%lcore_core. destruct H as [H _]. exact H. Qed.

Lemma goes_quiet {A} C (m : M (Sys W Rd) A) : quiet m -> goes C eq m.
Proof.
  intros Hm s _. destruct (Hm s) as [Hc _]. unfold phase. apply lcore_core in Hc as [Hc ->].
  split; [done|apply Forall2_eq_refl].
Qed.

Lemma goes_bind {A B} C R1 R2 (m : M (Sys W Rd) A) (k : A -> M (Sys W Rd) B) :
  fixed C -> goes C R1 m -> (forall a, goes C R2 (k a)) -> goes C (rcomp R1 R2) (bind m k).
Proof.
  intros HC Hm Hk s Hs. unfold bind. specialize (Hm s Hs). destruct (m s) as [a s1]. cbn in Hm.
  destruct Hm as [L1 F1]. destruct (Hk a s1) as [L2 F2]; [by eapply HC|].
  split; [congruence|]. by eapply Forall2_rcomp.
Qed.

Lemma goes_mono {A} C R R' (m : M (Sys W Rd) A) :
  goes C R m -> (forall a b, R a b -> R' a b) -> goes C R' m.
Proof.
  intros Hm HR s Hs. destruct (Hm s Hs) as [L F]. split; [done|]. by eapply Forall2_impl.
Qed.

Lemma goes_bind_l {A B} C R (m : M (Sys W Rd) A) (k : A -> M (Sys W Rd) B) :
  fixed C -> quiet m -> (forall a, goes C R (k a)) -> goes C R (bind m k).
Proof.
  intros HC Hm Hk. eapply goes_mono; [apply goes_bind; [done|by apply goes_quiet|exact Hk]|].
  by intros a b (x & -> & ?).
Qed.

Lemma goes_bind_r {A B} C R (m : M (Sys W Rd) A) (k : A -> M (Sys W Rd) B) :
  fixed C -> goes C R m -> (forall a, goes C eq (k a)) -> goes C R (bind m k).
Proof.
  intros HC Hm Hk. eapply goes_mono; [by apply goes_bind|]. by intros a b (x & ? & <-).
Qed.

(** Reading the state learns that the condition holds of it. *)
Lemma goes_getc {B} C R (k : Controller Rd -> M (Sys W Rd) B) :
  (forall c, C c -> goes C R (k c)) -> goes C R (bind getc k).
Proof. intros Hk s Hs. cbn. by apply Hk. Qed.

Lemma goes_modc C R f :
  (forall c, C c -> lcore (f c) = lcore c /\ Forall2 R (k_chans c) (k_chans (f c))) ->
  goes C R (modc f : M (Sys W Rd) unit).
Proof. intros Hf s Hs. by apply Hf. Qed.

(** A computation that keeps the core (it may write duties). *)
Definition stable {A} (m : M (Sys W Rd) A) : Prop :=
  forall s, core (s_c (snd (m s))) = core (s_c s).

Lemma stable_quiet {A} (m : M (Sys W Rd) A) : quiet m -> stable m.
Proof. intros Hm s. apply Hm. Qed.
Lemma stable_bind {A B} (m : M (Sys W Rd) A) (k : A -> M (Sys W Rd) B) :
  stable m -> (forall a, stable (k a)) -> stable (bind m k).
Proof.
  intros Hm Hk s. unfold bind. specialize (Hm s). destruct (m s) as [a s1]. cbn in Hm.
  by rewrite Hk.
Qed.
Lemma stable_emit e : stable (emit e : M (Sys W Rd) unit).
Proof. done. Qed.
Lemma stable_mapM {A B} (f : A -> M (Sys W Rd) B) l : (forall a, stable (f a)) -> stable (mapM f l).
Proof.
  intros Hf. induction l as [|a l IH]; cbn [mapM]; [done|].
  apply stable_bind; [done|]. intros. by apply stable_bind.
Qed.

(** A loop over the channels whose results carry extra values. *)
Lemma goes_loop {B C'} C R (f : channel Rd -> M (Sys W Rd) (channel Rd * B))
    (k : list (channel Rd * B) -> M (Sys W Rd) C') :
  fixed C -> (forall ch, stable (f ch)) ->
  (forall ch s, C (s_c s) -> R ch (fst (f ch s)).1) ->
  (forall rs, quiet (k rs)) ->
  goes C R (let* c := getc in let* rs := mapM f (k_chans c) in
            modc (fun c => c <| k_chans := map fst rs |>) ;;; k rs).
Proof.
  intros HC Hst HR Hk s Hs. cbn. unfold bind at 1.
  assert (Hm : forall l s, C (s_c s) -> let r := mapM f l s in
    core (s_c (snd r)) = core (s_c s) /\ Forall2 R l (map fst (fst r))).
  { clear s Hs. induction l as [|ch l IH]; intros s Hs; cbn [mapM]; [by repeat constructor|].
    cbn zeta. unfold bind. pose proof (Hst ch s) as H1. pose proof (HR ch s Hs) as H2.
    destruct (f ch s) as [b s1]. cbn in H1, H2.
    assert (Hs1 : C (s_c s1)) by (eapply HC; [|exact Hs]; by apply lcore_core).
    destruct (IH s1 Hs1) as [H3 H4]. destruct (mapM f l s1) as [bs s2]. cbn in *.
    split; [congruence|]. by constructor. }
  destruct (Hm (k_chans (s_c s)) s Hs) as [H1 H2].
  destruct (mapM f (k_chans (s_c s)) s) as [rs s1]. cbn in H1, H2 |- *.
  set (s2 := mkSys _ _ _). destruct (Hk rs s2) as [H3 _].
  apply lcore_core in H3 as [H3 H4]. split.
  - rewrite H3. by apply lcore_chans.
  - rewrite H4. cbn. exact H2.
Qed.

Lemma goes_for_chans C R (f : channel Rd -> M (Sys W Rd) (channel Rd)) :
  fixed C -> (forall ch, quiet (f ch)) -> (forall ch, yields (R ch) (f ch)) ->
  goes C R (for_chans f).
Proof.
  intros HC Hq Hy s Hs. unfold for_chans. cbn. unfold bind at 1.
  pose proof (quiet_mapM f (k_chans (s_c s)) Hq s) as [H1 _].
  pose proof (yields_mapM R f (k_chans (s_c s)) ltac:(intros; apply Hy) s) as H2.
  destruct (mapM f (k_chans (s_c s)) s) as [chs s1]. cbn in *. split; [|done].
  by apply lcore_chans.
Qed.

(** Every channel satisfies [P] in the end. *)
Definition ends {A} (P : channel Rd -> Prop) (m : M (Sys W Rd) A) : Prop :=
  forall s, Forall P (k_chans (s_c (snd (m s)))).
Lemma ends_bind {A B} P (m : M (Sys W Rd) A) (k : A -> M (Sys W Rd) B) :
  (forall a, ends P (k a)) -> ends P (bind m k).
Proof. intros Hk s. unfold bind. destruct (m s) as [a s1]. apply Hk. Qed.
Lemma goes_ends {A} (P : channel Rd -> Prop) (m : M (Sys W Rd) A) :
  goes (fun _ => True) (fun _ ch' => P ch') m -> ends P m.
Proof.
  intros Hm s. destruct (Hm s Logic.I) as [_ HF]. induction HF; constructor; auto.
Qed.

(** The computation keeps a projection of the controller. *)
Definition keeps {T A} (proj : Controller Rd -> T) (m : M (Sys W Rd) A) : Prop :=
  forall s, proj (s_c (snd (m s))) = proj (s_c s).
(** ... one that alerts and warnings do not change. *)
Class Quietly {T} (proj : Controller Rd -> T) : Prop :=
  quietly : forall c, proj (core c) = proj c.

Section Keeps.
Context {T : Type} (proj : Controller Rd -> T) `{!Quietly proj}.

Lemma keeps_quiet {A} (m : M (Sys W Rd) A) : quiet m -> keeps proj m.
Proof using Type*.
  intros Hm s. destruct (Hm s) as [Hc _]. by rewrite <- (quietly (s_c (snd (m s)))), Hc, quietly.
Qed.
Lemma keeps_stable {A} (m : M (Sys W Rd) A) : stable m -> keeps proj m.
Proof using Type*.
  intros Hm s. by rewrite <- (quietly (s_c (snd (m s)))), Hm, quietly.
Qed.
Lemma keeps_bind {A B} (m : M (Sys W Rd) A) (k : A -> M (Sys W Rd) B) :
  keeps proj m -> (forall a, keeps proj (k a)) -> keeps proj (bind m k).
Proof.
  intros Hm Hk s. unfold bind. specialize (Hm s). destruct (m s) as [a s1]. cbn in Hm.
  by rewrite Hk.
Qed.
Lemma keeps_modc f : (forall c, proj (f c) = proj c) -> keeps proj (modc f : M (Sys W Rd) unit).
Proof. intros Hf s. apply Hf. Qed.
Lemma keeps_mapM {A B} (f : A -> M (Sys W Rd) B) l : (forall a, keeps proj (f a)) -> keeps proj (mapM f l).
Proof.
  intros Hf. induction l as [|a l IH]; cbn [mapM]; [done|].
  apply keeps_bind; [done|]. intros. by apply keeps_bind.
Qed.
Lemma keeps_iterM {A} (f : A -> M (Sys W Rd) unit) l : (forall a, keeps proj (f a)) -> keeps proj (iterM f l).
Proof.
  intros Hf. induction l as [|a l IH]; cbn [iterM]; [done|]. by apply keeps_bind.
Qed.
Lemma keeps_for_chans f : (forall c chs, proj (c <| k_chans := chs |>) = proj c) ->
  (forall ch, keeps proj (f ch)) -> keeps proj (for_chans f : M (Sys W Rd) unit).
Proof using Type*.
  intros Hc Hf. unfold for_chans. apply keeps_bind; [apply keeps_quiet; auto with quiet|].
  intros c. apply keeps_bind; [by apply keeps_mapM|]. intros chs. apply keeps_modc. intros. apply Hc.
Qed.
End Keeps.
End Phase.

Create HintDb keeps discriminated.
Ltac kp_step :=
  match goal with
  | |- forall _, _ => intro
  | |- keeps _ (bind _ _) => apply keeps_bind
  | |- keeps _ (mapM _ _) => apply keeps_mapM
  | |- keeps _ (iterM _ _) => apply keeps_iterM
  | |- keeps _ (for_chans _) => apply keeps_for_chans; [exact _|intros; reflexivity|]
  | |- keeps _ (modc _) => solve [apply keeps_modc; intros; first [reflexivity|case_match; reflexivity]]
  | |- keeps _ (match ?x with _ => _ end) => destruct x eqn:?
  | |- keeps _ (let _ := _ in _) => cbv zeta
  | |- keeps _ _ => solve [auto 2 with keeps nocore]
  | |- keeps _ _ => solve [apply keeps_quiet; [exact _|]; qt]
  | |- keeps _ (emit _) => intro; reflexivity
  end.
Ltac kp := repeat kp_step.
