(* ===== verification/ControlSafety.v ===== *)
(** What every regulation cycle guarantees of the fans: full speed at the critical
    temperature, at a ceiling and on a stall; the safe duty without a reading. *)
From stdpp Require Import base gmap strings list.
From Stdlib Require Import ZArith QArith Lia.
From S2P Require Import Prelude GoLib ConfigTypes Curve Ceiling History ControlTypes ControlAlert ControlSense ControlTarget ControlWrite ControlApi ControlDemo ControlFrame ControlStep ControlPhase.
Open Scope Z_scope.

(** The daemon regulates: not a dry run, not stopped. *)
Definition live {Rd} (c : Controller Rd) : Prop :=
  o_DryRun (k_opts c) = false /\ k_stopped c = false.
Definition always {Rd} (c : Controller Rd) : Prop := True.

(** A channel that must run at full speed. *)
Definition hot {Rd} (ch : channel Rd) : bool :=
  (ch_tempOK ch && is_critical ch) || ch_ceilHit ch || (ch_hasTach ch && ch_stalled ch).

(** What the decisions leave behind. *)
Definition decided {Rd} (ch : channel Rd) : Prop :=
  (hot ch = true -> ch_target ch = 255 /\ ch_mode ch <> ModeAuto) /\
  (ch_tempOK ch = false -> (ch_target ch = 255 \/ ch_target ch = safeDuty ch) /\ ch_mode ch <> ModeAuto).

(** What a whole cycle leaves behind. *)
Definition served {Rd} (ch : channel Rd) : Prop :=
  (hot ch = true -> ch_target ch = 255 /\ (ch_cur ch = 255 \/ ch_cur ch = -1)) /\
  (ch_tempOK ch = false -> ch_cur ch = 255 \/ ch_cur ch = safeDuty ch \/ ch_cur ch = -1).

Section Decisions.
Context {Rd : Type}.
Implicit Types ch : channel Rd.

(** What the curve, the hold, the override and critical leave alone. *)
Definition dec_core ch : channel Rd :=
  ch <| ch_held := 0 |> <| ch_heldOK := false |> <| ch_lastCurve := 0 |> <| ch_haveCurve := false |>
     <| ch_holding := false |> <| ch_holdTarget := 0 |> <| ch_holdStart := mkTime 0 0 |>
     <| ch_holdUntil := mkTime 0 0 |> <| ch_target := 0 |> <| ch_mode := ModeAuto |>.

Lemma heldTemp_core ch : dec_core (heldTemp ch).1 = dec_core ch.
Proof. unfold heldTemp. cbv zeta. by repeat case_match. Qed.
Lemma minOnHold_core ch curve now : dec_core (minOnHold ch curve now).1 = dec_core ch.
Proof. unfold minOnHold. cbv zeta. by repeat case_match. Qed.

(** [base_target] without the critical step. *)
Definition plain_target (ovr : gmap string Z) (now : Time) ch : channel Rd :=
  let ch := ch <| ch_mode := ModeAuto |> in
  let hd := heldTemp ch in
  let mo := minOnHold hd.1 (Interpolate (cc_Curve (ch_cfg hd.1)) hd.2) now in
  let ch := mo.1 <| ch_target := mo.2 |> in
  match ovr !! cc_Name (ch_cfg ch) with
  | Some v => ch <| ch_holding := false |> <| ch_target := v |> <| ch_mode := ModeManual |>
  | None => ch
  end.
Lemma base_target_plain ovr now ch : base_target ovr now ch =
  let ch := plain_target ovr now ch in
  if is_critical ch then ch <| ch_target := 255 |> <| ch_mode := ModeCritical |> else ch.
Proof.
  unfold base_target, plain_target. cbv zeta.
  destruct (heldTemp _) as [ch1 held]. by destruct (minOnHold _ _ _) as [ch2 tgt].
Qed.

Lemma plain_target_core ovr now ch : dec_core (plain_target ovr now ch) = dec_core ch.
Proof.
  unfold plain_target. cbv zeta.
  set (ch0 := ch <| ch_mode := ModeAuto |>).
  set (mo := minOnHold _ _ _).
  assert (dec_core mo.1 = dec_core ch) as <-.
  { unfold mo. rewrite minOnHold_core, heldTemp_core. done. }
  clearbody mo. destruct mo as [x tgt]. destruct (ovr !! _), x; reflexivity.
Qed.

Lemma dec_core_fields ch ch' : dec_core ch' = dec_core ch ->
  ch_cfg ch' = ch_cfg ch /\ ch_temp ch' = ch_temp ch /\ ch_tempOK ch' = ch_tempOK ch /\
  ch_ceilHit ch' = ch_ceilHit ch /\ ch_hasTach ch' = ch_hasTach ch /\
  ch_stalled ch' = ch_stalled ch /\ ch_cur ch' = ch_cur ch.
Proof.
  intros Hc. change (ch_cfg (dec_core ch') = ch_cfg (dec_core ch) /\
    ch_temp (dec_core ch') = ch_temp (dec_core ch) /\
    ch_tempOK (dec_core ch') = ch_tempOK (dec_core ch) /\
    ch_ceilHit (dec_core ch') = ch_ceilHit (dec_core ch) /\
    ch_hasTach (dec_core ch') = ch_hasTach (dec_core ch) /\
    ch_stalled (dec_core ch') = ch_stalled (dec_core ch) /\
    ch_cur (dec_core ch') = ch_cur (dec_core ch)). by rewrite Hc.
Qed.

Lemma base_target_keeps ovr now ch :
  ch_cfg (base_target ovr now ch) = ch_cfg ch /\ ch_temp (base_target ovr now ch) = ch_temp ch /\
  ch_tempOK (base_target ovr now ch) = ch_tempOK ch /\ ch_ceilHit (base_target ovr now ch) = ch_ceilHit ch /\
  ch_hasTach (base_target ovr now ch) = ch_hasTach ch /\ ch_stalled (base_target ovr now ch) = ch_stalled ch /\
  ch_cur (base_target ovr now ch) = ch_cur ch.
Proof.
  apply dec_core_fields. rewrite base_target_plain. cbv zeta.
  rewrite <- (plain_target_core ovr now ch). by case_match.
Qed.

Lemma plain_target_critical ovr now ch : is_critical (plain_target ovr now ch) = is_critical ch.
Proof.
  pose proof (plain_target_core ovr now ch) as Hc%dec_core_fields.
  unfold is_critical. by destruct Hc as (-> & -> & _).
Qed.

Lemma base_target_critical ovr now ch : is_critical ch = true ->
  ch_target (base_target ovr now ch) = 255 /\ ch_mode (base_target ovr now ch) = ModeCritical.
Proof.
  intros Hc. rewrite base_target_plain. cbv zeta. by rewrite plain_target_critical, Hc.
Qed.

Lemma ceil_result_keeps d ch :
  ch_cfg (ceil_result d ch) = ch_cfg ch /\ ch_temp (ceil_result d ch) = ch_temp ch /\
  ch_tempOK (ceil_result d ch) = ch_tempOK ch /\
  ch_hasTach (ceil_result d ch) = ch_hasTach ch /\ ch_stalled (ceil_result d ch) = ch_stalled ch /\
  ch_cur (ceil_result d ch) = ch_cur ch.
Proof.
  unfold ceil_result. cbv zeta. generalize (hottestPart ch). intros h. destruct ch. cbn.
  by repeat case_match.
Qed.

(** At a ceiling the target is 255 in mode critical; otherwise it is untouched. *)
Lemma ceil_result_target d ch :
  if ch_ceilHit (ceil_result d ch)
  then ch_target (ceil_result d ch) = 255 /\ ch_mode (ceil_result d ch) = ModeCritical
  else ch_target (ceil_result d ch) = ch_target ch /\ ch_mode (ceil_result d ch) = ch_mode ch.
Proof.
  unfold ceil_result. cbv zeta. set (h := hottestPart ch).
  match goal with |- context [if negb (ch_ceilHit ?x) then _ else _] => set (ch2 := x) end.
  assert (Ht : ch_target ch2 = ch_target ch /\ ch_mode ch2 = ch_mode ch)
    by (unfold ch2; by repeat case_match).
  destruct (ch_ceilHit ch2) eqn:E; cbn [negb].
  - repeat case_match; cbn in *; try done; congruence.
  - by rewrite E.
Qed.

Lemma compute_result_decided d ovr now ch :
  let ch' := compute_result d ovr now ch in
  ((ch_tempOK ch' && is_critical ch') || ch_ceilHit ch' = true ->
     ch_target ch' = 255 /\ ch_mode ch' <> ModeAuto) /\
  (ch_tempOK ch' = false -> (ch_target ch' = 255 \/ ch_target ch' = safeDuty ch') /\ ch_mode ch' <> ModeAuto).
Proof.
  cbn zeta. unfold compute_result. destruct (ch_tempOK ch) eqn:Eok; cbn [negb].
  - pose proof (ceil_result_target d (base_target ovr now ch)) as Ht.
    pose proof (ceil_result_keeps d (base_target ovr now ch)) as (Kc & Kt & Ko & _).
    pose proof (base_target_keeps ovr now ch) as (Bc & Bt & Bo & _).
    split; [|congruence]. intros Hh.
    destruct (ch_ceilHit (ceil_result d (base_target ovr now ch))) eqn:E.
    { destruct Ht as [-> ->]. done. }
    rewrite orb_false_r in Hh. apply andb_true_iff in Hh as [_ Hcrit].
    assert (is_critical ch = true) as Hc.
    { unfold is_critical in *. by rewrite Kc, Kt, Bc, Bt in Hcrit. }
    apply (base_target_critical ovr now) in Hc as [Hc1 Hc2].
    destruct Ht as [-> ->]. rewrite Hc1, Hc2. done.
  - cbn. rewrite Eok. cbn. split.
    + intros ->. done.
    + intros _. split; [|done]. destruct (ch_ceilHit ch); auto.
Qed.

Lemma stall_result_keeps d ch :
  ch_cfg (stall_result d ch) = ch_cfg ch /\ ch_temp (stall_result d ch) = ch_temp ch /\
  ch_tempOK (stall_result d ch) = ch_tempOK ch /\ ch_ceilHit (stall_result d ch) = ch_ceilHit ch /\
  ch_hasTach (stall_result d ch) = ch_hasTach ch /\ ch_cur (stall_result d ch) = ch_cur ch.
Proof. unfold stall_result. cbv zeta. by repeat case_match. Qed.

Lemma stall_result_target d ch :
  (ch_hasTach ch && ch_stalled (stall_result d ch) = true ->
     ch_target (stall_result d ch) = 255 /\ ch_mode (stall_result d ch) = ModeStall) /\
  (ch_target (stall_result d ch) = ch_target ch /\ ch_mode (stall_result d ch) = ch_mode ch \/
   ch_target (stall_result d ch) = 255 /\ ch_mode (stall_result d ch) = ModeStall).
Proof.
  unfold stall_result. cbv zeta. destruct (ch_hasTach ch) eqn:Et; cbn [negb andb]; [|split; [done|auto]].
  destruct (ch_stalled ch) eqn:Es.
  - case_match; cbn; auto.
  - repeat case_match; cbn; rewrite ?Es; split; first [done|by auto|intros; discriminate].
Qed.

Lemma decide_result_decided d ovr now ch : decided (decide_result d ovr now ch).
Proof.
  unfold decided, decide_result. pose proof (compute_result_decided d ovr now ch) as [H1 H2].
  set (ch1 := compute_result d ovr now ch) in *.
  pose proof (stall_result_keeps d ch1) as (Kc & Kt & Ko & Kh & Kf & Kd).
  pose proof (stall_result_target d ch1) as [S1 S2].
  unfold hot, is_critical, safeDuty in *. rewrite Kc, Kt, Ko, Kh, Kf. split.
  - intros Hh. apply orb_true_iff in Hh as [Hh|Hh].
    + destruct (H1 Hh) as [T M]. destruct S2 as [[-> ->]|[-> ->]]; done.
    + destruct (S1 Hh) as [-> ->]. done.
  - intros Hn. destruct (H2 Hn) as [T M]. destruct S2 as [[-> ->]|[-> ->]]; auto.
Qed.
End Decisions.

(** ** The writing phases *)
Section WritePhases.
Context {W Rd : Type} `{Device W} `{Sensors W Rd} `{Host W}.
Local Abbreviation MS := (M (Sys W Rd)).

Lemma fixed_live : fixed (@live Rd).
Proof.
  intros c c' Hl [Hd Hs]. split.
  - change (o_DryRun (k_opts (lcore c')) = false). by rewrite Hl.
  - change (k_stopped (lcore c') = false). by rewrite Hl.
Qed.
Lemma fixed_always : fixed (@always Rd).
Proof. exact (fun _ _ _ _ => Logic.I). Qed.

Lemma stable_dev_write pwm duty : stable (dev_write pwm duty : MS _).
Proof.
  unfold dev_write. apply stable_bind; [apply stable_quiet; auto with quiet|].
  intros e. by apply stable_bind.
Qed.
Lemma stable_write ch duty n : stable (write ch duty n : MS _).
Proof.
  unfold write. apply stable_bind; [apply stable_quiet; qt|]. intros c.
  case_match; [by apply stable_quiet; qt|].
  apply stable_bind; [apply stable_quiet; qt|]. intros _.
  apply stable_bind; [apply stable_dev_write|]. intros e. apply stable_quiet; qt.
Qed.
Lemma stable_write_one d n ch : stable (write_one d n ch : MS _).
Proof.
  unfold write_one. apply stable_bind; [apply stable_quiet; qt|]. intros c.
  case_match; [by apply stable_quiet; qt|]. cbv zeta. case_match; [|done].
  apply stable_bind; [apply stable_write|]. intros r. by destruct r.2.
Qed.
Lemma stable_failsafe_one mode ch : stable (failsafe_one mode ch : MS _).
Proof.
  unfold failsafe_one. apply stable_bind; [apply stable_quiet; qt|]. intros c. cbv zeta.
  apply stable_bind; [apply stable_write|]. intros r. by destruct r.2.
Qed.

(** A live write phase puts every channel at the duty it wants, or at the unknown
    duty -1 when the write failed. *)
Definition written_by d n (ch ch' : channel Rd) : Prop :=
  write_core ch' = write_core ch /\ (ch_cur ch' = next_duty d n ch \/ ch_cur ch' = -1).

Lemma write_one_live d n ch (s : Sys W Rd) : live (s_c s) ->
  written_by d n ch (fst (write_one d n ch s)).1.
Proof.
  intros [Hd _]. split; [apply write_one_core|].
  unfold write_one. unfold bind at 1. cbn. rewrite Hd. cbv zeta.
  destruct (negb (next_duty d n ch =? ch_cur ch) || (n mod rewriteEvery =? 0)) eqn:E.
  - unfold bind. destruct (write ch (next_duty d n ch) n s) as [[ch1 e] s1]. destruct e; cbn; auto.
  - cbn. apply orb_false_iff in E as [E _]. apply negb_false_iff in E. lia.
Qed.

Lemma goes_checkRegisters : goes always
  (fun ch ch' => write_core ch' = write_core ch /\ ch_cur ch' = ch_cur ch) (checkRegisters : MS _).
Proof.
  unfold checkRegisters. apply goes_getc. intros c _. destruct dev_VerifyRegister as [v|].
  - case_match.
    + eapply goes_mono; [apply goes_quiet; qt|]. by intros a b ->.
    + apply goes_bind_l; [apply fixed_always|qt|]. intros now.
      apply goes_for_chans; [apply fixed_always|qt|].
      intros ch. eapply yields_mono; [apply check_register_core|]. by intros a (? & ? & _).
  - eapply goes_mono; [apply goes_quiet; qt|]. by intros a b ->.
Qed.

Lemma next_duty_core d n (ch ch' : channel Rd) : write_core ch' = write_core ch ->
  ch_cur ch' = ch_cur ch -> next_duty d n ch' = next_duty d n ch.
Proof.
  intros Hw Hc. unfold next_duty. rewrite Hc.
  change (ch_mode ch') with (ch_mode (write_core ch')). change (ch_target ch') with (ch_target (write_core ch')).
  by rewrite Hw.
Qed.

Lemma goes_writePhase d n : goes live (written_by d n) (writePhase d n : MS _).
Proof.
  unfold writePhase. apply goes_getc. intros c0 [_ ->].
  eapply goes_mono; [apply goes_bind|].
  - apply fixed_live.
  - intros s _. by apply goes_checkRegisters.
  - intros _. apply goes_loop; [apply fixed_live|apply stable_write_one|apply write_one_live|qt].
  - intros a b (x & [Hw Hc] & [Hw' Hc']). split; [congruence|].
    by rewrite <- (next_duty_core d n a x).
Qed.

(** The failsafe puts every channel at 255, or at -1. *)
Definition failsafed (ch ch' : channel Rd) : Prop :=
  write_core ch' = write_core (ch <| ch_mode := ModeFailsafe |> <| ch_target := 255 |>) /\
  (ch_cur ch' = 255 \/ ch_cur ch' = -1).

Lemma goes_failsafeAll : goes live failsafed (failsafeAll ModeFailsafe : MS _).
Proof.
  unfold failsafeAll. intros s Hs. unfold bind at 1. cbn. pose proof Hs as [Hd Hst]. rewrite Hst.
  destruct (k_chans (s_c s)) as [|c0 cs] eqn:Ec; [by split; cbn; rewrite ?Ec; constructor|].
  pose proof (goes_loop (W := W) live failsafed (failsafe_one ModeFailsafe)
    (fun rs => ret (negb (existsb snd rs))) fixed_live (stable_failsafe_one ModeFailsafe)) as Hl.
  assert (Hone : forall ch (s : Sys W Rd), live (s_c s) ->
    failsafed ch (fst (failsafe_one ModeFailsafe ch s)).1).
  { clear. intros ch s [Hd _]. split; [apply failsafe_one_core|].
    unfold failsafe_one. unfold bind at 1. cbn. rewrite Hd. unfold bind.
    destruct (write _ 255 _ s) as [[ch1 e] s1]. destruct e; cbn; auto. }
  specialize (Hl Hone (fun rs => quiet_ret _) s Hs). unfold bind at 1 in Hl. cbn in Hl. by rewrite Ec in Hl.
Qed.

Lemma goes_reresolve C : fixed C ->
  goes C (fun ch ch' => read_core ch' = read_core ch /\ ch_temp ch' = ch_temp ch /\
    ch_tempOK ch' = ch_tempOK ch) (reresolve : MS _).
Proof.
  intros HC. unfold reresolve. apply goes_for_chans; [done|qt|].
  intros ch. eapply yields_mono; [apply try_resolve_core|]. by intros a (? & ? & ? & _).
Qed.

Lemma goes_count C f : fixed C -> (forall c, lcore (f c) = lcore c) -> (forall c, k_chans (f c) = k_chans c) ->
  goes C eq (modc f : MS unit).
Proof. intros HC Hl Hc. apply goes_modc. intros c _. rewrite Hc. split; [done|apply Forall2_eq_refl]. Qed.

Lemma goes_noteFailsafe C b : fixed C -> goes C eq (noteFailsafe b : MS _).
Proof.
  intros HC. unfold noteFailsafe. case_match.
  - apply goes_bind_r; [done|by apply goes_count|]. intros. apply goes_quiet. qt.
  - apply goes_bind_r; [done|by apply goes_count|]. intros. apply goes_quiet. qt.
Qed.

(** Reading fields and full speed survive a failsafe round. *)
Definition after_errors (ch ch' : channel Rd) : Prop :=
  ch' = ch \/
  (ch_cfg ch' = ch_cfg ch /\ ch_temp ch' = ch_temp ch /\ ch_tempOK ch' = ch_tempOK ch /\
   ch_ceilHit ch' = ch_ceilHit ch /\ ch_hasTach ch' = ch_hasTach ch /\ ch_stalled ch' = ch_stalled ch /\
   ch_target ch' = 255 /\ (ch_cur ch' = 255 \/ ch_cur ch' = -1)).

Lemma read_core_fields (ch ch' : channel Rd) : read_core ch' = read_core ch ->
  ch_cfg ch' = ch_cfg ch /\ ch_ceilHit ch' = ch_ceilHit ch /\ ch_hasTach ch' = ch_hasTach ch /\
  ch_stalled ch' = ch_stalled ch /\ ch_cur ch' = ch_cur ch /\ ch_target ch' = ch_target ch /\
  ch_mode ch' = ch_mode ch.
Proof.
  intros Hc. change (ch_cfg (read_core ch') = ch_cfg (read_core ch) /\
    ch_ceilHit (read_core ch') = ch_ceilHit (read_core ch) /\
    ch_hasTach (read_core ch') = ch_hasTach (read_core ch) /\
    ch_stalled (read_core ch') = ch_stalled (read_core ch) /\
    ch_cur (read_core ch') = ch_cur (read_core ch) /\
    ch_target (read_core ch') = ch_target (read_core ch) /\
    ch_mode (read_core ch') = ch_mode (read_core ch)). by rewrite Hc.
Qed.

Lemma write_core_fields (ch ch' : channel Rd) : write_core ch' = write_core ch ->
  ch_cfg ch' = ch_cfg ch /\ ch_temp ch' = ch_temp ch /\ ch_tempOK ch' = ch_tempOK ch /\
  ch_ceilHit ch' = ch_ceilHit ch /\ ch_hasTach ch' = ch_hasTach ch /\
  ch_stalled ch' = ch_stalled ch /\ ch_target ch' = ch_target ch /\ ch_mode ch' = ch_mode ch.
Proof.
  intros Hc. change (ch_cfg (write_core ch') = ch_cfg (write_core ch) /\
    ch_temp (write_core ch') = ch_temp (write_core ch) /\
    ch_tempOK (write_core ch') = ch_tempOK (write_core ch) /\
    ch_ceilHit (write_core ch') = ch_ceilHit (write_core ch) /\
    ch_hasTach (write_core ch') = ch_hasTach (write_core ch) /\
    ch_stalled (write_core ch') = ch_stalled (write_core ch) /\
    ch_target (write_core ch') = ch_target (write_core ch) /\
    ch_mode (write_core ch') = ch_mode (write_core ch)). by rewrite Hc.
Qed.

Lemma goes_note_write_errors : goes live after_errors (note_write_errors : MS _).
Proof.
  unfold note_write_errors. eapply goes_mono; [apply goes_bind|].
  - apply fixed_live.
  - apply (goes_count live); [apply fixed_live|done|done].
  - intros _. apply (goes_getc live after_errors). intros c _. case_match.
    + eapply goes_mono; [apply goes_quiet; qt|]. intros a b ->. by left.
    + eapply goes_mono; [apply goes_bind_l; [apply fixed_live|qt|]; intros _;
        apply goes_bind; [apply fixed_live|apply (goes_reresolve live fixed_live)|]; intros _;
        apply goes_bind_r; [apply fixed_live|apply goes_failsafeAll|]; intros b;
        apply goes_noteFailsafe, fixed_live|].
      intros a b (x & (Hr & Ht & Ho) & Hw & Hc). right.
      apply read_core_fields in Hr as (? & ? & ? & ? & _).
      apply write_core_fields in Hw as (? & ? & ? & ? & ? & ? & ? & _). cbn in *.
      split_and!; congruence || done.
  - intros a b (x & <- & ?). done.
Qed.

Lemma goes_finishCycle C cs status : fixed C -> goes C eq (finishCycle cs status : MS _).
Proof.
  intros HC. unfold finishCycle. apply goes_getc. intros c _.
  apply goes_bind_l; [done|qt|]. intros now. apply goes_getc. intros c' _.
  apply goes_bind_r; [done|by apply goes_count|]. intros _.
  apply goes_bind_l; [done|qt|]. intros _.
  apply goes_bind_r; [done|by apply goes_count|]. intros _. apply goes_quiet. qt.
Qed.

Lemma goes_note_writes_ok C b : fixed C -> goes C eq (note_writes_ok b : MS _).
Proof. intros HC. apply goes_count; [done|..]; intros c; by destruct b. Qed.

Lemma served_step d n (a b c : channel Rd) :
  decided a -> written_by d n a b -> after_errors b c -> served c.
Proof.
  intros [D1 D2] [Hw Hc] Ha. apply write_core_fields in Hw as (Wc & Wt & Wo & Wh & Wf & Ws & Wg & Wm).
  assert (Hnext : ch_mode a <> ModeAuto -> next_duty d n a = ch_target a).
  { intros Hm. unfold next_duty, Mode_eqb. rewrite bool_decide_false by done.
    by rewrite andb_false_r. }
  assert (Hhot : hot b = hot a /\ safeDuty b = safeDuty a).
  { unfold hot, is_critical, safeDuty. by rewrite Wc, Wt, Wo, Wh, Wf, Ws. }
  destruct Hhot as [Hhot Hsafe].
  destruct Ha as [->|(Ac & At & Ao & Ah & Af & As & Ag & Ad)].
  - split.
    + rewrite Hhot. intros Hh. destruct (D1 Hh) as [T M]. rewrite Wg, T. split; [done|].
      rewrite Hnext, T in Hc by done. done.
    + rewrite Wo, Hsafe. intros Hn. destruct (D2 Hn) as [T M]. rewrite Hnext in Hc by done.
      destruct Hc as [->| ->]; [|auto]. destruct T as [->| ->]; auto.
  - assert (hot c = hot b) as Hc'.
    { unfold hot, is_critical. by rewrite Ac, At, Ao, Ah, Af, As. }
    split; [by auto|]. intros _. destruct Ad; auto.
Qed.

Lemma goes_writeAndFinish cs : goes live (fun a c => decided a -> served c) (writeAndFinish cs : MS _).
Proof.
  unfold writeAndFinish. eapply goes_mono; [apply goes_bind|].
  - apply fixed_live.
  - apply goes_writePhase.
  - intros r. apply (goes_bind live after_errors eq); [apply fixed_live| |].
    + destruct r.1.
      * apply goes_note_write_errors.
      * eapply goes_mono; [apply goes_bind_r; [apply fixed_live|apply goes_note_writes_ok, fixed_live|]|].
        -- intros. apply goes_quiet. qt.
        -- intros a b ->. by left.
    + intros lost. apply goes_getc. intros c _.
      apply goes_bind_r; [apply fixed_live|apply goes_finishCycle, fixed_live|].
      intros _. apply goes_quiet. qt.
  - intros a c (b & Hw & b' & Ha & <-) Hd. by eapply served_step.
Qed.

(** ** The deciding phases *)
Lemma ends_decide cs : ends decided (computeTargets cs ;;; checkStall cs ;;; ret cs : MS _).
Proof.
  apply goes_ends. eapply goes_mono; [apply goes_bind|].
  - exact fixed_always.
  - unfold computeTargets. apply goes_bind_l; [exact fixed_always|qt|]. intros now.
    apply (goes_bind_r _ (fun ch ch' => exists now, ch' = compute_result (cy_d cs) (cy_ovr cs) now ch));
      [exact fixed_always| |intros; apply goes_quiet; qt].
    apply goes_for_chans; [exact fixed_always|qt|]. intros ch s. exists now. apply compute_one_returns.
  - intros _. apply (goes_bind_r _ (fun ch ch' => ch' = stall_result (cy_d cs) ch));
      [exact fixed_always| |intros; apply goes_quiet; qt].
    apply goes_for_chans; [exact fixed_always|qt|]. intros ch. apply stall_one_returns.
  - intros a b (x & (now & ->) & ->). apply decide_result_decided.
Qed.

Lemma ends_cycle_decide : ends decided (cycle_decide : MS _).
Proof. unfold cycle_decide. do 7 (apply ends_bind; intros ?). apply ends_decide. Qed.

(** The deciding half never changes the options or the stopped flag. *)
Definition run_flags (c : Controller Rd) : Options * bool := (k_opts c, k_stopped c).
#[local] Instance run_flags_quiet : Quietly run_flags.
Proof. done. Qed.
Lemma keeps_cycle_decide : keeps run_flags (cycle_decide : MS _).
Proof.
  unfold cycle_decide, applyPendingLocked, readSensors, stale_check, readWatched, readRPMs, computeTargets,
    checkStall, reresolve.
  kp.
Qed.

Lemma live_cycle_decide (s : Sys W Rd) : live (s_c s) -> live (s_c (snd (cycle_decide s))).
Proof.
  pose proof (keeps_cycle_decide s) as Hk. unfold run_flags in Hk. injection Hk as Ho Hs.
  unfold live. by rewrite Ho, Hs.
Qed.
End WritePhases.

(** C1: a fan whose channel is too hot runs at full speed.  After every regulation
    cycle of a daemon that is neither stopped nor in dry run, whatever the state,
    the readings, the overrides and the device did: a channel whose reading is at or
    above its critical temperature, that is in the ceiling state, or whose fan is
    detected as stalled has target 255 and has been set to 255 - or its write
    failed and the duty counts as unknown (-1); and a channel without a reading
    is at 255, at its configured safe duty, or unknown after a failed write. *)
Theorem cycle_serves {W Rd} `{Device W} `{Sensors W Rd} `{Host W} (s : Sys W Rd) :
  live (s_c s) -> Forall served (k_chans (s_c (snd (cycle s)))).
Proof.
  intros Hl. unfold cycle, bind.
  pose proof (live_cycle_decide s Hl) as Hl'. pose proof (ends_cycle_decide s) as Hd.
  destruct (cycle_decide s) as [cs s1]. cbn in *.
  destruct (goes_writeAndFinish cs s1 Hl') as [_ HF].
  induction HF as [|a c l l' Hac _ IH]; [constructor|].
  inversion_clear Hd. constructor; auto.
Qed.

(** A CPU at 90 degrees (critical 88) and a disk without a reading. *)
Lemma cycle_serves_witness :
  let s := Demo.set_world (fun w => w <| Demo.w_temps := {["k10temp" := 90000]} |>)
             (Demo.exec cycle (Demo.started (Demo.world 50000 35000))) in
  Demo.duties (Demo.exec cycle s) = [("cpu", 255, ModeCritical); ("hdd", 140, ModeSensor); ("ssd", 255, ModeSensor)]
  /\ Forall served (k_chans (s_c (snd (cycle s)))).
Proof.
  split; [by vm_compute|]. apply cycle_serves. split; by vm_compute.
Defined.
