(* ===== verification/ControlBounds.v ===== *)
(** Every duty the controller keeps or writes is a duty: the invariant [sys_ok] and
    its preservation by the phases of a cycle and by the API. *)
From stdpp Require Import base gmap strings list.
From Stdlib Require Import ZArith QArith Lia.
From S2P Require Import Prelude GoLib ConfigTypes Curve Ceiling History Sanitize ControlTypes ControlAlert ControlSense ControlTarget ControlWrite ControlApi ControlFrame ControlStep ControlPhase ControlSafety.
Open Scope Z_scope.

(** ** The invariant *)
Definition chancfg_ok (cc : Channel) : Prop :=
  (cc_Curve cc = [] \/ curve_ok (cc_Curve cc) = true) /\ stop_ok cc = true.
Definition cfg_ok (cfg : Config) : Prop :=
  0 <= d_StepUp (c_Daemon cfg) /\ 0 <= d_StepDown (c_Daemon cfg) /\ Forall chancfg_ok (c_Channels cfg).
Definition chan_ok {Rd} (ch : channel Rd) : Prop :=
  chancfg_ok (ch_cfg ch) /\ -1 <= ch_cur ch <= 255 /\ 0 <= ch_target ch <= 255 /\
  (ch_holding ch = true -> 0 <= ch_holdTarget ch <= 255).
Definition ovr_ok (ovr : gmap string Z) : Prop := map_Forall (fun _ v => 0 <= v <= 255) ovr.
Definition ctl_ok {Rd} (c : Controller Rd) : Prop :=
  cfg_ok (k_cfg c) /\ (forall p, k_pending c = Some p -> cfg_ok p) /\ Forall chan_ok (k_chans c) /\
  ovr_ok (k_overrides c).
Definition event_ok (e : Event) : Prop :=
  match e with
  | EvWrite _ d _ => 0 <= d <= 255
  | EvStop _ stop => stop = "auto"%string \/ stop = ""%string \/
      match Atoi stop with Some d => 0 <= d <= 255 | None => True end
  | _ => True
  end.
Definition sys_ok {W Rd} (s : Sys W Rd) : Prop := ctl_ok (s_c s) /\ Forall event_ok (s_ev s).

(** ** Decisions *)
Lemma Interpolate_ok cc m : chancfg_ok cc -> 0 <= Interpolate (cc_Curve cc) m <= 255.
Proof.
  intros [[->|Hc] _]; [cbn; lia|].
  pose proof (Interpolate_between _ m Hc) as Hb.
  apply curve_ok_shape in Hc as (p & rest & Hcv & Hne & Hp & Hr & Ha). rewrite Hcv in *.
  cbn [first_duty last_duty] in Hb.
  apply point_ok_bounds in Hp as ?. pose proof (last_ok _ _ Hp Hr) as ?%point_ok_bounds. lia.
Qed.

Lemma StopDuty_ok cc d : stop_ok cc = true -> StopDuty cc = Some d -> 0 <= d <= 255.
Proof. unfold stop_ok, duty_ok. intros H E. rewrite E in H. lia. Qed.

Lemma safeDuty_ok {Rd} (ch : channel Rd) : chancfg_ok (ch_cfg ch) -> 0 <= safeDuty ch <= 255.
Proof.
  intros [_ Hs]. unfold safeDuty. destruct (StopDuty _) eqn:E; [|lia]. by eapply StopDuty_ok.
Qed.

Section Decisions.
Context {Rd : Type}.
Implicit Types ch : channel Rd.

Lemma minOnHold_ok ch curve now :
  0 <= curve <= 255 -> (ch_holding ch = true -> 0 <= ch_holdTarget ch <= 255) ->
  0 <= (minOnHold ch curve now).2 <= 255 /\
  (ch_holding (minOnHold ch curve now).1 = true ->
     0 <= ch_holdTarget (minOnHold ch curve now).1 <= 255).
Proof.
  intros Hc Hh. unfold minOnHold. cbv zeta. destruct (cc_MinOn _ <=? 0); [cbn; split; [lia|done]|].
  set (ch1 := if (ch_holding _ && _)%bool then _ else _).
  assert (H1 : ch_holding ch1 = true -> 0 <= ch_holdTarget ch1 <= 255).
  { unfold ch1. case_match; cbn; [done|exact Hh]. }
  clearbody ch1.
  set (ch2 := if (_ && _ && _)%bool then _ else ch1).
  assert (H2 : ch_holding ch2 = true -> 0 <= ch_holdTarget ch2 <= 255).
  { unfold ch2. case_match; cbn; [lia|exact H1]. }
  clearbody ch2. cbn. split; [|exact H2].
  destruct (ch_holding ch2 && (curve <? ch_holdTarget ch2))%bool eqn:E; [|lia].
  apply andb_true_iff in E as [E _]. by apply H2.
Qed.

Lemma plain_target_ok ovr now ch : ovr_ok ovr -> chan_ok ch -> chan_ok (plain_target ovr now ch).
Proof.
  intros Ho (Hcfg & Hcur & Ht & Hh). pose proof (plain_target_core ovr now ch) as Hk%dec_core_fields.
  destruct Hk as (Kc & _ & _ & _ & _ & _ & Kd).
  unfold chan_ok. rewrite Kc, Kd. split_and!; try done; try lia; clear Kc Kd.
  all: unfold plain_target; cbv zeta; set (hd := heldTemp _).
  all: assert (Hd : dec_core hd.1 = dec_core ch) by (unfold hd; rewrite heldTemp_core; by destruct ch).
  all: assert (Hhd : ch_holding hd.1 = ch_holding ch /\ ch_holdTarget hd.1 = ch_holdTarget ch)
         by (unfold hd, heldTemp; cbv zeta; by repeat case_match).
  all: destruct (dec_core_fields _ _ Hd) as (Hc & _); destruct Hhd as [Hh1 Hh2].
  all: destruct (minOnHold_ok hd.1 (Interpolate (cc_Curve (ch_cfg hd.1)) hd.2) now) as [M1 M2];
         [by apply Interpolate_ok; rewrite Hc|by rewrite Hh1, Hh2|].
  all: clearbody hd; set (mo := minOnHold _ _ _) in *; clearbody mo.
  all: destruct (ovr !! _) as [v|] eqn:E; cbn; try done.
  all: try (by apply (Ho _ v E)); lia.
Qed.

Lemma base_target_ok ovr now ch : ovr_ok ovr -> chan_ok ch -> chan_ok (base_target ovr now ch).
Proof.
  intros Ho Hch. pose proof (plain_target_ok ovr now ch Ho Hch) as Hok.
  rewrite base_target_plain. cbv zeta. case_match; [|exact Hok].
  destruct Hok as (H1 & H2 & H3 & H4). unfold chan_ok. cbn. split_and!; try done; lia.
Qed.

Lemma ceil_result_holding d ch : ch_holding (ceil_result d ch) = true ->
  ch_holding ch = true /\ ch_holdTarget (ceil_result d ch) = ch_holdTarget ch.
Proof.
  unfold ceil_result. cbv zeta. generalize (hottestPart ch). intros h. destruct ch. cbn.
  by repeat case_match.
Qed.

Lemma ceil_result_ok d ch : chan_ok ch -> chan_ok (ceil_result d ch).
Proof.
  intros (H1 & H2 & H3 & H4). pose proof (ceil_result_keeps d ch) as (Kc & _ & _ & _ & _ & Kd).
  pose proof (ceil_result_target d ch) as Ht. pose proof (ceil_result_holding d ch) as Hh.
  unfold chan_ok. rewrite Kc, Kd. split_and!; try done; try lia.
  - case_match; destruct Ht as [-> _]; lia.
  - case_match; destruct Ht as [-> _]; lia.
  - intros Hx. destruct (Hh Hx) as [? ->]. by apply H4.
Qed.

Lemma compute_result_ok d ovr now ch : ovr_ok ovr -> chan_ok ch -> chan_ok (compute_result d ovr now ch).
Proof.
  intros Ho Hch. unfold compute_result. destruct (ch_tempOK ch); cbn [negb].
  - by apply ceil_result_ok, base_target_ok.
  - destruct Hch as (H1 & H2 & H3 & H4). pose proof (safeDuty_ok ch H1).
    unfold chan_ok. cbn. split_and!; try done; try lia; destruct (ch_ceilHit ch); lia.
Qed.

Lemma stall_result_ok d ch : chan_ok ch -> chan_ok (stall_result d ch).
Proof.
  intros (H1 & H2 & H3 & H4). pose proof (stall_result_keeps d ch) as (Kc & _ & _ & _ & _ & Kd).
  pose proof (stall_result_target d ch) as [_ Ht].
  assert (Hh : ch_holding (stall_result d ch) = ch_holding ch /\
               ch_holdTarget (stall_result d ch) = ch_holdTarget ch).
  { unfold stall_result. cbv zeta. destruct ch. cbn. by repeat case_match. }
  destruct Hh as [Hh1 Hh2]. unfold chan_ok. rewrite Kc, Kd, Hh1, Hh2.
  destruct Ht as [[-> _]|[-> _]]; split_and!; done || lia.
Qed.

Lemma chan_ok_read ch ch' : read_core ch' = read_core ch -> chan_ok ch -> chan_ok ch'.
Proof.
  intros Hr. change (chan_ok (read_core ch) -> chan_ok (read_core ch')). by rewrite Hr.
Qed.

Lemma chan_ok_write ch ch' : write_core ch' = write_core ch -> -1 <= ch_cur ch' <= 255 ->
  chan_ok ch -> chan_ok ch'.
Proof.
  intros Hw Hc (H1 & _ & H3 & H4).
  change (chancfg_ok (ch_cfg (write_core ch)) ) in H1. change (0 <= ch_target (write_core ch) <= 255) in H3.
  change (ch_holding (write_core ch) = true -> 0 <= ch_holdTarget (write_core ch) <= 255) in H4.
  rewrite <- Hw in H1, H3, H4. exact (conj H1 (conj Hc (conj H3 H4))).
Qed.

Lemma next_duty_ok d n ch : 0 <= d_StepUp d -> 0 <= d_StepDown d -> chan_ok ch ->
  0 <= next_duty d n ch <= 255.
Proof.
  intros Hu Hd (_ & Hc & Ht & _). unfold next_duty. case_match; [|lia]. split_bools.
  pose proof (Slew_between (ch_cur ch) (ch_target ch) _ _ Hu Hd). lia.
Qed.
End Decisions.

(** ** Phases *)
Section Phases.
Context {W Rd : Type} `{Device W} `{Sensors W Rd} `{Host W}.
Local Abbreviation MS := (M (Sys W Rd)).

Lemma ctl_ok_lcore (c c' : Controller Rd) :
  lcore c' = lcore c -> Forall chan_ok (k_chans c') -> ctl_ok c -> ctl_ok c'.
Proof.
  intros Hl Hf (Hcfg & Hpend & _ & Hovr).
  change (cfg_ok (k_cfg (lcore c))) in Hcfg.
  change (forall p, k_pending (lcore c) = Some p -> cfg_ok p) in Hpend.
  change (ovr_ok (k_overrides (lcore c))) in Hovr. rewrite <- Hl in *.
  exact (conj Hcfg (conj Hpend (conj Hf Hovr))).
Qed.

Lemma Forall2_ok (R : channel Rd -> channel Rd -> Prop) l l' :
  (forall a b, R a b -> chan_ok a -> chan_ok b) -> Forall2 R l l' -> Forall chan_ok l -> Forall chan_ok l'.
Proof.
  intros HR HF. induction HF as [|a b l l' Hab HF IH]; intros Hl; [constructor|].
  inversion_clear Hl. constructor; eauto.
Qed.

(** A phase that maps good channels to good ones keeps the controller good. *)
Lemma goes_ok {A} R (m : MS A) :
  goes always R m -> (forall a b, R a b -> chan_ok a -> chan_ok b) ->
  preserves (fun s => ctl_ok (s_c s)) m.
Proof.
  intros Hm HR s Hs. destruct (Hm s Logic.I) as [Hl HF]. eapply ctl_ok_lcore; [exact Hl| |exact Hs].
  eapply Forall2_ok; [exact HR|exact HF|apply Hs].
Qed.

Lemma framed_ctl_ok : framed (fun s : Sys W Rd => ctl_ok (s_c s)).
Proof.
  intros s s' [Hc _] Hs. apply lcore_core in Hc as [Hl Hc].
  eapply ctl_ok_lcore; [exact Hl| |exact Hs]. rewrite Hc. apply Hs.
Qed.
Lemma framed_sys_ok : framed (@sys_ok W Rd).
Proof.
  intros s s' Hf [Hc He]. split; [by eapply framed_ctl_ok|].
  destruct Hf as [_ (new & -> & Hn)]. apply Forall_app. split; [|done].
  eapply Forall_impl; [exact Hn|]. by intros [].
Qed.

(** [event_ok] of the log is kept by everything that writes no duty. *)
Definition log_ok (s : Sys W Rd) : Prop := Forall event_ok (s_ev s).
Lemma framed_log_ok : framed log_ok.
Proof.
  intros s s' [_ (new & He & Hn)] Hs. unfold log_ok. rewrite He. apply Forall_app.
  split; [|done]. eapply Forall_impl; [exact Hn|]. by intros [].
Qed.
Lemma log_quiet {A} (m : MS A) : quiet m -> preserves log_ok m.
Proof. apply quiet_preserves, framed_log_ok. Qed.
Lemma log_modc f : preserves log_ok (modc f : MS unit).
Proof. by intros s. Qed.
Lemma log_for_chans f : (forall ch, quiet (f ch)) -> preserves log_ok (for_chans f : MS unit).
Proof.
  intros Hf. unfold for_chans. apply preserves_bind; [by intros s|]. intros c.
  apply preserves_bind; [by apply preserves_mapM; intros; apply log_quiet|]. intros. apply log_modc.
Qed.
End Phases.

(** Walk a computation that writes nothing. *)
Ltac lg := repeat first [ apply log_modc | apply log_for_chans; intros; solve [qt]
                        | apply log_quiet; solve [qt] | progress prs ].

Section Cycle.
Context {W Rd : Type} `{Device W} `{Sensors W Rd} `{Host W}.
Local Abbreviation MS := (M (Sys W Rd)).
Local Abbreviation ctl := (fun s : Sys W Rd => ctl_ok (s_c s)).

Lemma ctl_quiet {A} (m : MS A) : quiet m -> preserves ctl m.
Proof. apply quiet_preserves, framed_ctl_ok. Qed.
Lemma ctl_modc f : (forall c, ctl_ok c -> ctl_ok (f c)) -> preserves ctl (modc f : MS unit).
Proof. intros Hf s Hs. by apply Hf. Qed.

Definition same_read (a b : channel Rd) : Prop := read_core b = read_core a.

Lemma goes_stale d : goes always same_read (stale_check d : MS _).
Proof.
  intros s _. unfold stale_check, bind, getc, gets. cbn.
  destruct (k_chans (s_c s)) as [|ch rest] eqn:Ec.
  - split; [done|]. cbn. rewrite Ec. constructor.
  - destruct (_ && _)%bool; cbn.
    + split; [done|]. cbn. rewrite Ec. constructor; [by case_match|].
      clear. induction rest; by constructor.
    + split; [done|]. rewrite Ec. clear. generalize (ch :: rest). intros l.
      induction l; by constructor.
Qed.

Lemma goes_judge {B} (k : list (channel Rd * bool) -> MS B) : (forall rs, goes always same_read (k rs)) ->
  goes always same_read (let* c := getc in let* rs := mapM judge_one (k_chans c) in
    modc (fun c => c <| k_chans := map fst rs |>) ;;; k rs).
Proof.
  intros Hk.
  assert (Hj : goes always same_read (let* c := getc in let* rs := mapM judge_one (k_chans c) in
    modc (fun c => c <| k_chans := map fst rs |>) ;;; ret rs : MS _)).
  { apply goes_loop; [exact fixed_always|intros; apply stable_quiet; qt| |intros; apply quiet_ret].
    intros ch s _. apply judge_one_core. }
  intros s Hs. pose proof (goes_bind always same_read same_read _ k fixed_always Hj Hk s Hs) as Hg.
  unfold bind in *. destruct (getc s) as [c s1]. destruct (mapM judge_one (k_chans c) s1) as [rs s2].
  destruct (modc _ s2) as [u s3]. cbn in *. destruct Hg as [Hl HF]. split; [exact Hl|].
  eapply Forall2_impl; [exact HF|]. intros a b (x & Ha & Hb). unfold same_read in *. congruence.
Qed.

Lemma goes_readWatched n : goes always eq (readWatched n : MS _).
Proof.
  unfold readWatched. apply goes_getc. intros c _. apply goes_bind_l; [exact fixed_always|qt|].
  intros rs.
  apply goes_bind_r; [exact fixed_always|apply goes_count; [exact fixed_always|by intros []..]|]. intros _. apply goes_quiet. qt.
Qed.

Lemma goes_mono_read {A} (m : MS A) : goes always eq m -> goes always same_read m.
Proof. intros Hm. eapply goes_mono; [exact Hm|]. by intros a b ->. Qed.

Lemma goes_read_bind {A B} (m : MS A) (k : A -> MS B) :
  goes always same_read m -> (forall a, goes always same_read (k a)) -> goes always same_read (bind m k).
Proof.
  intros Hm Hk. eapply goes_mono; [by apply goes_bind; [exact fixed_always|..]|].
  intros a b (x & Ha & Hb). unfold same_read in *. congruence.
Qed.

(** Reading changes reading fields only. *)
Lemma goes_readSensors cs : goes always same_read (readSensors cs : MS _).
Proof.
  unfold readSensors. apply goes_read_bind.
  { apply goes_for_chans; [exact fixed_always|qt|apply read_one_core]. }
  intros _. apply goes_read_bind; [apply goes_stale|]. intros _. apply goes_judge. intros rs. cbv zeta.
  apply goes_read_bind; [apply goes_mono_read, goes_quiet; qt|]. intros extra.
  apply goes_read_bind; [apply goes_mono_read, goes_readWatched|]. intros vals.
  apply goes_read_bind.
  { unfold readRPMs. apply goes_for_chans; [exact fixed_always|qt|].
    intros ch. eapply yields_mono; [apply read_rpm_core|]. by intros a (? & _). }
  intros _. apply goes_mono_read, goes_quiet. qt.
Qed.

Lemma ctl_readSensors cs : preserves ctl (readSensors cs : MS _).
Proof. eapply goes_ok; [apply goes_readSensors|]. intros a b. apply chan_ok_read. Qed.

Lemma ctl_reresolve : preserves ctl (reresolve : MS _).
Proof.
  eapply goes_ok; [apply (goes_reresolve always fixed_always)|]. cbn. intros a b (Hr & _).
  by apply chan_ok_read.
Qed.

Lemma ctl_decide cs : ovr_ok (cy_ovr cs) ->
  preserves ctl (computeTargets cs ;;; checkStall cs ;;; ret cs : MS _).
Proof.
  intros Ho. apply preserves_bind; [|intros _; apply preserves_bind; [|intros; apply preserves_ret]].
  - unfold computeTargets. apply preserves_bind; [apply ctl_quiet; qt|]. intros now.
    apply preserves_bind; [|intros; apply ctl_quiet; qt].
    apply (goes_ok (fun ch ch' => ch' = compute_result (cy_d cs) (cy_ovr cs) now ch));
      [apply goes_for_chans; [exact fixed_always|qt|]; intros ch; apply compute_one_returns|].
    cbn. intros a b -> Ha. by apply compute_result_ok.
  - unfold checkStall. apply (goes_ok (fun ch ch' => ch' = stall_result (cy_d cs) ch));
      [apply goes_for_chans; [exact fixed_always|qt|]; intros ch; apply stall_one_returns|].
    cbn. intros a b -> Ha. by apply stall_result_ok.
Qed.

(** ** The swap of an accepted configuration *)
Lemma by_name_ok chans name : Forall chancfg_ok chans -> chancfg_ok (by_name chans name).
Proof.
  intros Hf. unfold by_name. destruct (last _) as [cc|] eqn:E; cbn; [|split; [by left|done]].
  apply last_Some in E as [l El].
  assert (Hin : In cc (List.filter (fun cc => String.eqb (cc_Name cc) name) chans))
    by (rewrite El; apply in_or_app; right; by left).
  apply filter_In in Hin as [Hin _]. rewrite Forall_forall in Hf. apply Hf. by apply list_elem_of_In.
Qed.

Lemma prepare_update_cfg cfg (ch : channel Rd) : cfg_ok cfg ->
  yields (S := Sys W Rd) (fun up => chancfg_ok (up_cfg up)) (prepare_update cfg ch).
Proof.
  intros (_ & _ & Hf). unfold prepare_update. cbv zeta. yld; by apply by_name_ok.
Qed.

Lemma apply_one_ok now (ch : channel Rd) (up : @chanUpdate Rd) : chan_ok ch -> chancfg_ok (up_cfg up) ->
  chan_ok (apply_one now (ch, up)).
Proof.
  intros (_ & Hcur & Htgt & Hhold) Hu. unfold apply_one, retime_one, swap_one. cbn [fst snd].
  destruct (up_sensor up), ch; cbn in *; repeat case_match; unfold chan_ok; cbn in *;
    split_and!; try done; lia.
Qed.

Lemma map_apply_ok now (chans : list (channel Rd)) (ups : list (@chanUpdate Rd)) : Forall chan_ok chans ->
  Forall (fun up => chancfg_ok (up_cfg up)) ups -> Forall chan_ok (map (apply_one now) (combine chans ups)).
Proof.
  intros Hc. revert ups. induction Hc as [|ch chans Hch Hc IH]; intros ups Hu; [constructor|].
  destruct Hu; cbn; constructor; [by apply apply_one_ok|by apply IH].
Qed.

Lemma ctl_applyPending : preserves ctl (applyPendingLocked : MS _).
Proof.
  unfold applyPendingLocked. intros s Hs. unfold bind at 1. cbn.
  destruct (k_pending (s_c s)) as [cfg|] eqn:Ep; [|done].
  destruct Hs as (H1' & H2' & H3' & H4'). specialize (H2' cfg Ep).
  unfold bind at 1. cbn.
  assert (Hups : triple (fun s1 : Sys W Rd => ctl_ok (s_c s1)) (mapM (prepare_update cfg) (k_chans (s_c s)))
    (fun ups s1 => Forall (fun up => chancfg_ok (up_cfg up)) ups /\ ctl_ok (s_c s1))).
  { apply (triple_mapM _ _ _ (fun _ => True)); [by apply Forall_true|]. intros ch _.
    apply quiet_triple; [apply framed_ctl_ok|qt|by apply prepare_update_cfg]. }
  unfold bind at 1. match goal with |- context [mapM _ _ ?s1] => specialize (Hups s1) end.
  destruct (mapM _ _ _) as [ups s2]. cbn in Hups.
  destruct Hups as [Hu Hs2]; [by split_and!|].
  match goal with |- ctl_ok (s_c (snd (?m s2))) => enough (preserves ctl m) as Hm by by apply Hm end.
  apply preserves_bind; [apply ctl_quiet; qt|]. intros now. cbv zeta. apply preserves_bind.
  { apply ctl_modc. intros c (? & ? & Hc & ?). split_and!; try done. cbn. by apply map_apply_ok. }
  intros _. apply preserves_bind; [|intros _; apply preserves_bind; [|intros _]];
    case_match; try (intros ? Hx; exact Hx).
Qed.

Lemma ctl_begin : preserves ctl (lift host_Notify ;;; applyPendingLocked ;;;
  let* c := getc in
  (if k_watchDirty c
   then let* ws := buildWatched (c_Sensors (k_cfg c)) in
        modc (fun c => c <| k_watched := ws |> <| k_watchDirty := false |>)
   else ret tt) : MS _).
Proof.
  apply preserves_bind; [apply ctl_quiet; qt|]. intros _. apply preserves_bind; [apply ctl_applyPending|].
  intros _. apply preserves_bind; [by intros s|]. intros c. case_match; [|by intros s].
  apply preserves_bind; [apply ctl_quiet; qt|]. intros ws s Hx. exact Hx.
Qed.
End Cycle.
