(* ===== verification/ControlLoop.v ===== *)
(** The controller as a system of goroutines: the regulation loop, Stop, the API
    calls and the hook goroutines, interleaved at their critical sections.

    A step is one section the code runs under a mutex (or a stretch that touches
    only what the loop owns).  The loop's cycle is cut where it takes the hardware
    mutex: decide, write, handle write errors, publish.  [Stop] is cut between
    the atomic flag, which it sets outside the mutex, and its hardware part under
    it; a section reads the flag once, at its start, so setting the flag during
    a section is the same as setting it right after.  The world may change at any
    time. *)
From stdpp Require Import base gmap strings list relations.
From Stdlib Require Import ZArith QArith Lia.
From S2P Require Import Prelude GoLib ConfigTypes Curve Ceiling History Sanitize ControlTypes ControlAlert ControlSense ControlTarget ControlWrite ControlApi ControlDemo ControlFrame ControlStep ControlPhase ControlSafety ControlBounds.
Open Scope Z_scope.

(** Where the loop is. *)
Inductive loop_pc :=
| PIdle
| PWrite (cs : cycleState)
| PErrors (cs : cycleState) (werr wrote : bool)
| PFinish (cs : cycleState) (werr : bool) (lost : option RunErr)
| PExit (lost : bool).
(** How far Stop is. *)
Inductive stop_pc := SIdle | SFlagged | SStopped.

Inductive api_op :=
| OpSetOverride (name : string) (duty : Z)
| OpClearOverride (name : string)
| OpSetWatched (ids : list string)
| OpApply (cfg : Config).

Section Loop.
Context {W Rd : Type} `{Device W} `{Sensors W Rd} `{Host W}.
Local Abbreviation MS := (M (Sys W Rd)).

Record conf := mkConf { cf_s : Sys W Rd; cf_loop : loop_pc; cf_stop : stop_pc }.

Definition api_run (o : api_op) : MS unit :=
  match o with
  | OpSetOverride name duty => let* _ := SetOverride name duty in ret tt
  | OpClearOverride name => let* _ := ClearOverride name in ret tt
  | OpSetWatched ids => SetWatched ids
  | OpApply cfg => let* _ := Apply cfg in ret tt
  end.

Definition handle_errors (werr wrote : bool) : MS (option RunErr) :=
  if werr then note_write_errors else note_writes_ok wrote ;;; ret None.
Definition publish (cs : cycleState) (werr : bool) : MS unit :=
  let* c := getc in finishCycle cs (cycle_status cs (length (k_chans c)) werr).
Definition set_stop_flag : MS unit :=
  modc (fun c => c <| k_stopOnce := true |> <| k_stopped := true |>).
(** A hook goroutine takes its turn. *)
Definition next_job : MS unit :=
  let* c := getc in
  match k_jobs c with
  | [] => ret tt
  | j :: js => modc (fun c => c <| k_jobs := js |>) ;;; run_hook j
  end.

(** [accepts] restricts the configurations [Apply] is called with. *)
Inductive step (accepts : Config -> Prop) : conf -> conf -> Prop :=
| step_decide s st :
    step accepts (mkConf s PIdle st) (mkConf (snd (cycle_decide s)) (PWrite (fst (cycle_decide s))) st)
| step_write s cs st :
    let r := writePhase (cy_d cs) (cy_n cs) s in
    step accepts (mkConf s (PWrite cs) st) (mkConf (snd r) (PErrors cs (fst r).1 (fst r).2) st)
| step_errors s cs werr wrote st :
    let r := handle_errors werr wrote s in
    step accepts (mkConf s (PErrors cs werr wrote) st) (mkConf (snd r) (PFinish cs werr (fst r)) st)
| step_finish s cs werr st :
    step accepts (mkConf s (PFinish cs werr None) st)
      (mkConf (snd (saveHistory (snd (publish cs werr s)))) PIdle st)
| step_lost s cs werr st :
    step accepts (mkConf s (PFinish cs werr (Some ErrDeviceLost)) st)
      (mkConf (snd (publish cs werr s)) (PExit true) st)
| step_cancel s st : step accepts (mkConf s PIdle st) (mkConf s (PExit false) st)
| step_api s o l st : (forall cfg, o = OpApply cfg -> accepts cfg) ->
    step accepts (mkConf s l st) (mkConf (snd (api_run o s)) l st)
| step_job s l st : step accepts (mkConf s l st) (mkConf (snd (next_job s)) l st)
| step_flag s l : step accepts (mkConf s l SIdle) (mkConf (snd (set_stop_flag s)) l SFlagged)
| step_stop s l : step accepts (mkConf s l SFlagged)
    (mkConf (snd (save_history_now (snd (safeStopLocked s)))) l SStopped)
| step_world s w l st : step accepts (mkConf s l st) (mkConf (mkSys (s_c s) w (s_ev s)) l st).

Definition reachable accepts : conf -> conf -> Prop := rtc (step accepts).

Lemma writeAndFinish_steps cs (s : Sys W Rd) :
  let r := writePhase (cy_d cs) (cy_n cs) s in
  let e := handle_errors (fst r).1 (fst r).2 (snd r) in
  writeAndFinish cs s = (fst e, snd (publish cs (fst r).1 (snd e))).
Proof.
  unfold writeAndFinish, handle_errors, publish, bind. cbn zeta.
  destruct (writePhase (cy_d cs) (cy_n cs) s) as [[werr wrote] s2]. cbn [fst snd].
  destruct werr; cbn zeta.
  - destruct (note_write_errors s2) as [lost s3]. unfold getc, gets. cbn [fst snd].
    by destruct (finishCycle _ _ s3) as [[] s4].
  - destruct (note_writes_ok wrote s2) as [[] s3]. unfold ret, getc, gets. cbn [fst snd].
    by destruct (finishCycle _ _ s3) as [[] s4].
Qed.

(** The steps of the loop, run without interruption, are the code's [cycle]. *)
Lemma cycle_of_steps accepts s st :
  fst (cycle s) = None ->
  reachable accepts (mkConf s PIdle st) (mkConf (snd (saveHistory (snd (cycle s)))) PIdle st).
Proof.
  unfold cycle, bind. intros Hn. eapply rtc_l; [apply step_decide|].
  destruct (cycle_decide s) as [cs s1]. cbn [fst snd].
  rewrite writeAndFinish_steps in Hn |- *. cbn [fst snd] in Hn |- *.
  eapply rtc_l; [apply step_write|]. eapply rtc_l; [apply step_errors|].
  rewrite Hn. eapply rtc_l; [apply step_finish|]. apply rtc_refl.
Qed.

(** ** Invariants of reachable configurations *)
Lemma reachable_inv accepts (I : conf -> Prop) :
  (forall a b, I a -> step accepts a b -> I b) ->
  forall a b, reachable accepts a b -> I a -> I b.
Proof. intros HI a b Hr. induction Hr as [|a b c Hab _ IH]; [done|]. intros Ha. eauto. Qed.

(** ** The hardware log *)
Definition is_hw (e : Event) : bool :=
  match e with EvWrite _ _ _ | EvStop _ _ => true | _ => false end.
Definition hw_log (s : Sys W Rd) : list Event := List.filter is_hw (s_ev s).
Definition stop_event (ch : channel Rd) : Event := EvStop (cc_PWM (ch_cfg ch)) (cc_Stop (ch_cfg ch)).

(** The daemon is stopped, and the hardware log is [hw]. *)
Definition halted (hw : list Event) (s : Sys W Rd) : Prop :=
  k_stopped (s_c s) = true /\ hw_log s = hw.

Lemma filter_quiet new : Forall quiet_event new -> List.filter is_hw new = [].
Proof. induction 1 as [|e l He _ IH]; [done|]. cbn. destruct e; cbn in *; done. Qed.

Lemma framed_halted hw : framed (halted hw).
Proof.
  intros s s' [Hc (new & He & Hn)] [Hs Hl]. split.
  - change (k_stopped (core (s_c s')) = true). by rewrite Hc.
  - unfold hw_log in *. by rewrite He, List.filter_app, filter_quiet.
Qed.
Lemma halted_quiet {A} hw (m : MS A) : quiet m -> preserves (halted hw) m.
Proof. apply quiet_preserves, framed_halted. Qed.
Lemma halted_modc hw f : (forall c, k_stopped (f c) = k_stopped c \/ k_stopped (f c) = true) ->
  preserves (halted hw) (modc f : MS unit).
Proof. intros Hf s [Hs Hl]. split; [|done]. cbn. destruct (Hf (s_c s)); congruence. Qed.
Lemma halted_for_chans hw f : (forall ch, quiet (f ch)) -> preserves (halted hw) (for_chans f : MS unit).
Proof.
  intros Hf. unfold for_chans. apply preserves_bind; [by intros s|]. intros c.
  apply preserves_bind; [by apply preserves_mapM; intros; apply halted_quiet|].
  intros. apply halted_modc. by left.
Qed.
Ltac hl := repeat first
  [ apply halted_quiet; solve [qt] | apply halted_for_chans; intros; solve [qt]
  | apply halted_modc; first [by left | by right | by intros; case_match; left] | progress prs ].

Lemma halted_writePhase hw d n : preserves (halted hw) (writePhase d n : MS _).
Proof. intros s Hs. unfold writePhase, bind. cbn. pose proof Hs as [Hst _]. by rewrite Hst. Qed.
Lemma halted_failsafeAll hw mode : preserves (halted hw) (failsafeAll mode : MS _).
Proof. intros s Hs. unfold failsafeAll, bind. cbn. pose proof Hs as [Hst _]. by rewrite Hst. Qed.
Lemma halted_decide hw : preserves (halted hw) (cycle_decide : MS _).
Proof.
  unfold cycle_decide, applyPendingLocked, readSensors, stale_check, readWatched, readRPMs,
    computeTargets, checkStall, reresolve. hl.
Qed.
Lemma halted_errors hw werr wrote : preserves (halted hw) (handle_errors werr wrote : MS _).
Proof.
  unfold handle_errors, note_write_errors, note_writes_ok, reresolve, noteFailsafe.
  pose proof (halted_failsafeAll hw ModeFailsafe). hl; try assumption.
Qed.
Lemma halted_publish hw cs werr : preserves (halted hw) (publish cs werr : MS _).
Proof. unfold publish, finishCycle. hl. Qed.
Lemma halted_saveHistory hw : preserves (halted hw) (saveHistory : MS _).
Proof. unfold saveHistory. hl. Qed.
Lemma halted_save_now hw : preserves (halted hw) (save_history_now : MS _).
Proof. unfold save_history_now. hl. Qed.
Lemma halted_api hw o : preserves (halted hw) (api_run o : MS _).
Proof. unfold api_run, SetOverride, ClearOverride, SetWatched, Apply. hl. Qed.
Lemma halted_job hw : preserves (halted hw) (next_job : MS _).
Proof. unfold next_job. hl. Qed.

Lemma quiet_hw {A} (m : MS A) (s : Sys W Rd) : quiet m ->
  k_stopped (s_c (snd (m s))) = k_stopped (s_c s) /\ hw_log (snd (m s)) = hw_log s.
Proof.
  intros Hm. destruct (Hm s) as [Hc (new & Hev & Hn)]. split.
  - change (k_stopped (core (s_c (snd (m s)))) = k_stopped (core (s_c s))). by rewrite Hc.
  - unfold hw_log. by rewrite Hev, List.filter_app, filter_quiet.
Qed.

Lemma stop_one_log ch (s : Sys W Rd) :
  k_stopped (s_c (snd (stop_one ch s))) = k_stopped (s_c s) /\
  hw_log (snd (stop_one ch s)) = stop_event ch :: hw_log s.
Proof.
  unfold stop_one, bind. pose proof (quiet_hw (lift (dev_SafeStop (cc_PWM (ch_cfg ch)) (cc_Stop (ch_cfg ch)))) s
    ltac:(apply quiet_lift)) as [H1' H2'].
  destruct (lift _ s) as [e s1]. cbn [snd] in *. unfold emit, modify. cbn [fst snd].
  set (s2 := mkSys _ _ _).
  pose proof (quiet_hw (dcrDeviation (cc_Name (ch_cfg ch)) e) s2 ltac:(apply quiet_dcrDeviation)) as [H3' H4'].
  destruct (dcrDeviation _ e s2) as [x s3]. cbn [snd ret] in *. rewrite H3', H4'. cbn.
  split; [exact H1'|]. unfold hw_log, s2. cbn. f_equal. exact H2'.
Qed.

Lemma iter_stop_log l : forall s : Sys W Rd,
  k_stopped (s_c (snd (iterM stop_one l s))) = k_stopped (s_c s) /\
  hw_log (snd (iterM stop_one l s)) = rev (map stop_event l) ++ hw_log s.
Proof.
  induction l as [|ch l IH]; intros s; [done|]. cbn [iterM]. unfold bind.
  pose proof (stop_one_log ch s) as [Hb1 Hb2]. destruct (stop_one ch s) as [[] s1]. cbn [snd] in *.
  destruct (IH s1) as [-> ->]. rewrite Hb1, Hb2. split; [done|]. cbn. by rewrite <- app_assoc.
Qed.

(** [safeStopLocked] stops every channel once, in order. *)
Lemma safeStopLocked_log (s : Sys W Rd) : o_DryRun (k_opts (s_c s)) = false ->
  k_stopped (s_c (snd (safeStopLocked s))) = k_stopped (s_c s) /\
  hw_log (snd (safeStopLocked s)) = rev (map stop_event (k_chans (s_c s))) ++ hw_log s.
Proof.
  intros Hd. unfold safeStopLocked, bind, getc, gets. rewrite Hd.
  pose proof (iter_stop_log (k_chans (s_c s)) s) as [H1' H2'].
  destruct (iterM stop_one _ s) as [[] s1]. cbn [snd] in *.
  destruct (quiet_hw (removeRunFile "state.json") s1 ltac:(apply quiet_removeRunFile)) as [-> ->].
  by rewrite H1', H2'.
Qed.

Lemma step_halted accepts hw a b : step accepts a b -> cf_stop a <> SFlagged \/ cf_stop b = SFlagged ->
  halted hw (cf_s a) -> halted hw (cf_s b).
Proof.
  intros Hst Hne Ha. destruct Hst; cbn in *.
  - exact (halted_decide hw s Ha).
  - exact (halted_writePhase hw _ _ s Ha).
  - exact (halted_errors hw werr wrote s Ha).
  - exact (halted_saveHistory hw _ (halted_publish hw cs werr s Ha)).
  - exact (halted_publish hw cs werr s Ha).
  - exact Ha.
  - exact (halted_api hw o s Ha).
  - exact (halted_job hw s Ha).
  - destruct Ha. by split.
  - by destruct Hne.
  - destruct Ha. by split.
Qed.

(** The options never change. *)
#[local] Instance k_opts_quiet : Quietly (@k_opts Rd).
Proof. done. Qed.
Lemma stable_hw_kp {A} (m : MS A) : stable m -> keeps k_opts m.
Proof. apply keeps_stable, _. Qed.
Hint Resolve stable_hw_kp : keeps.
Hint Resolve stable_write_one stable_failsafe_one : keeps.

Lemma step_opts accepts a b : step accepts a b -> k_opts (s_c (cf_s b)) = k_opts (s_c (cf_s a)).
Proof.
  intros Hst. destruct Hst; cbn [cf_s]; try done.
  - apply (f_equal fst (keeps_cycle_decide s)).
  - revert s r. enough (keeps k_opts (writePhase (cy_d cs) (cy_n cs) : MS _)) as Hk by (intros; apply Hk).
    unfold writePhase, checkRegisters. kp.
  - revert s r. enough (keeps k_opts (handle_errors werr wrote : MS _)) as Hk by (intros; apply Hk).
    unfold handle_errors, note_write_errors, note_writes_ok, reresolve, failsafeAll, noteFailsafe. kp.
  - etransitivity; [|revert s; enough (keeps k_opts (publish cs werr : MS _)) as Hk by exact Hk;
      unfold publish, finishCycle; kp].
    enough (keeps k_opts (saveHistory : MS _)) as Hk by apply Hk. unfold saveHistory. kp.
  - revert s; enough (keeps k_opts (publish cs werr : MS _)) as Hk by exact Hk.
    unfold publish, finishCycle; kp.
  - revert s; enough (keeps k_opts (api_run o : MS _)) as Hk by exact Hk.
    unfold api_run, SetOverride, ClearOverride, SetWatched, Apply; kp.
  - revert s; enough (keeps k_opts (next_job : MS _)) as Hk by exact Hk. unfold next_job; kp.
  - etransitivity; [|revert s; enough (keeps k_opts (safeStopLocked : MS _)) as Hk by exact Hk;
      unfold safeStopLocked, stop_one; kp].
    enough (keeps k_opts (save_history_now : MS _)) as Hk by apply Hk. unfold save_history_now. kp.
Qed.

Lemma reachable_opts accepts a b : reachable accepts a b -> k_opts (s_c (cf_s b)) = k_opts (s_c (cf_s a)).
Proof.
  induction 1 as [|a b c Hab _ IH]; [done|]. rewrite IH. by eapply step_opts.
Qed.

(** What holds between the flag and the hardware part of Stop, and after it. *)
Definition stop_inv accepts (a : conf) (hw : list Event) (c : conf) : Prop :=
  match cf_stop c with
  | SIdle => False
  | SFlagged => halted hw (cf_s c)
  | SStopped => exists s1 l1, reachable accepts a (mkConf s1 l1 SFlagged) /\
      halted (rev (map stop_event (k_chans (s_c s1))) ++ hw) (cf_s c)
  end.

Lemma stop_inv_reachable accepts a hw c :
  o_DryRun (k_opts (s_c (cf_s a))) = false -> cf_stop a = SFlagged -> halted hw (cf_s a) ->
  reachable accepts a c -> stop_inv accepts a hw c.
Proof.
  intros Hd Hst Hh Hr. revert c Hr. refine (rtc_ind_r _ _ _ _).
  - unfold stop_inv. by rewrite Hst.
  - intros b c Hab Hbc IH. unfold stop_inv in IH. destruct (cf_stop b) eqn:Eb; [done|..].
    + destruct (cf_stop c) eqn:Ec.
      * destruct Hbc; cbn in *; congruence.
      * unfold stop_inv. rewrite Ec. eapply step_halted; eauto.
      * unfold stop_inv. rewrite Ec. pose proof (reachable_opts _ _ _ Hab) as Ho.
        destruct Hbc; cbn in Eb, Ec; try congruence. exists s, l. split; [exact Hab|].
        apply (halted_save_now _ (snd (safeStopLocked s))). cbn in IH, Ho.
        destruct (safeStopLocked_log s) as [L1 L2]; [by rewrite Ho|].
        destruct IH as [S1 S2]. split; [by rewrite L1|by rewrite L2, S2].
    + assert (cf_stop c = SStopped) as Ec by (destruct Hbc; cbn in *; congruence).
      unfold stop_inv. rewrite Ec. destruct IH as (s1 & l1 & Hs1 & Hh1). exists s1, l1.
      split; [done|]. eapply step_halted; [exact Hbc|left; congruence|exact Hh1].
Qed.

(** C2: Stop has the last word.  From the moment the stop flag is set, however the
    loop, API calls, hook goroutines and changes of the outside world interleave
    with Stop, no further duty is written; and once Stop's hardware part has run,
    the hardware log is the log at the flag followed by exactly one SafeStop per
    managed channel, in channel order, with the stop value of the configuration in
    effect at that time - nothing else ever reaches the device. *)
Theorem stop_final accepts s l c :
  o_DryRun (k_opts (s_c s)) = false -> k_stopped (s_c s) = true ->
  reachable accepts (mkConf s l SFlagged) c ->
  match cf_stop c with
  | SStopped => exists s1 l1, reachable accepts (mkConf s l SFlagged) (mkConf s1 l1 SFlagged) /\
      hw_log (cf_s c) = rev (map stop_event (k_chans (s_c s1))) ++ hw_log s
  | _ => hw_log (cf_s c) = hw_log s
  end.
Proof.
  intros Hd Hs Hr.
  pose proof (stop_inv_reachable accepts (mkConf s l SFlagged) (hw_log s) c Hd eq_refl (conj Hs eq_refl) Hr)
    as Hi. unfold stop_inv in Hi. destruct (cf_stop c); [done|apply Hi|].
  destruct Hi as (s1 & l1 & H1' & _ & H2'). eauto.
Qed.
End Loop.
#[global] Arguments conf : clear implicits.
#[global] Arguments mkConf {W Rd}.

(** A stop that arrives between the decisions and the writes of the second cycle. *)
Lemma stop_final_witness :
  let s := Demo.exec (set_stop_flag (W := Demo.World)) (Demo.exec cycle_decide
             (Demo.exec cycle (Demo.started (Demo.world 50000 35000)))) in
  let cs := fst (cycle_decide (Demo.exec cycle (Demo.started (Demo.world 50000 35000)))) in
  let c := mkConf (snd (save_history_now (snd (safeStopLocked (snd (writePhase (cy_d cs) (cy_n cs) s))))))
             (PErrors cs false false) SStopped in
  let accepts := fun _ : Config => True in
  hw_log (cf_s c) = [EvStop 2 "auto"; EvStop 3 "140"; EvStop 1 "auto";
                     EvWrite 2 255 true; EvWrite 3 109 true; EvWrite 1 114 true] /\
  exists s1 l1, reachable accepts (mkConf s (PWrite cs) SFlagged) (mkConf s1 l1 SFlagged) /\
    hw_log (cf_s c) = rev (map stop_event (k_chans (s_c s1))) ++ hw_log s.
Proof.
  intros s cs c accepts. split; [by vm_compute|].
  apply (stop_final accepts s (PWrite cs) c); [by vm_compute|by vm_compute|].
  eapply rtc_l; [apply step_write|].
  assert (E1 : fst (writePhase (cy_d cs) (cy_n cs) s) = (false, false)) by by vm_compute.
  cbn zeta. rewrite E1. cbn [fst snd].
  eapply rtc_l; [apply step_stop|]. apply rtc_refl.
Defined.
