(* ===== verification/ControlReach.v ===== *)
(** The duty invariant over whole runs: [New] establishes it and every step of the
    system keeps it, so no value outside 0..255 ever reaches the device. *)
From stdpp Require Import base gmap strings list relations.
From Stdlib Require Import ZArith QArith Lia.
From S2P Require Import Prelude GoLib ConfigTypes Curve Ceiling History Sanitize ControlTypes ControlAlert ControlSense ControlTarget ControlWrite ControlApi ControlDemo ControlFrame ControlStep ControlPhase ControlSafety ControlBounds ControlLoop.
Open Scope Z_scope.

Section Writes.
Context {W Rd : Type} `{Device W} `{Sensors W Rd} `{Host W}.
Local Abbreviation MS := (M (Sys W Rd)).
Local Abbreviation sysok := (@sys_ok W Rd).

Lemma sys_quiet {A} (m : MS A) : quiet m -> preserves sysok m.
Proof. apply quiet_preserves, framed_sys_ok. Qed.
Lemma sys_modc f : (forall c, ctl_ok c -> ctl_ok (f c)) -> preserves sysok (modc f : MS unit).
Proof. intros Hf s [Hc He]. split; [by apply Hf|done]. Qed.
Lemma sys_both {A} (m : MS A) : preserves (fun s => ctl_ok (s_c s)) m -> preserves log_ok m ->
  preserves sysok m.
Proof. intros Hc Hl s [? ?]. split; [by apply Hc|by apply Hl]. Qed.

Lemma sys_write ch duty n : 0 <= duty <= 255 -> preserves sysok (write ch duty n : MS _).
Proof.
  intros Hd. unfold write. apply preserves_bind; [apply sys_quiet; qt|]. intros c.
  case_match; [apply preserves_ret|]. apply preserves_bind; [apply sys_quiet; qt|]. intros _.
  apply preserves_bind.
  { unfold dev_write. apply preserves_bind; [apply sys_quiet; qt|]. intros e.
    apply preserves_bind; [|intros; apply preserves_ret].
    intros s [Hc He]. split; [done|]. by constructor. }
  intros e. apply preserves_bind; [apply sys_quiet; qt|]. intros e'.
  case_match; [apply preserves_ret|]. apply sys_quiet. qt.
Qed.

Lemma sys_write_one d n ch : 0 <= d_StepUp d -> 0 <= d_StepDown d -> chan_ok ch ->
  triple sysok (write_one d n ch) (fun r s => chan_ok r.1 /\ sysok s).
Proof.
  intros Hu Hd Hch s Hs. pose proof (next_duty_ok d n ch Hu Hd Hch) as Hn. split.
  - pose proof (write_one_core d n ch s) as Hw. eapply chan_ok_write; [exact Hw| |exact Hch].
    destruct Hch as (_ & Hcur & _). unfold write_one, bind, getc, gets. cbv beta iota zeta.
    destruct (o_DryRun _).
    + destruct (lift (dev_ReadDuty (cc_PWM (ch_cfg ch))) s) as [[e|v] s1]; cbn; [lia|]. case_match; cbn; lia.
    + destruct (_ || _)%bool; [|cbn; lia].
      destruct (write ch (next_duty d n ch) n s) as [[ch1 [e|]] s1]; cbn; lia.
  - assert (Hp : preserves sysok (write_one d n ch : MS _)); [|by apply Hp].
    unfold write_one. apply preserves_bind; [apply sys_quiet; qt|]. intros c.
    case_match; [apply sys_quiet; qt|]. cbv zeta. case_match; [|apply preserves_ret].
    apply preserves_bind; [by apply sys_write|]. intros r. destruct r.2; apply preserves_ret.
Qed.

(** A loop over the channels that keeps them good. *)
Lemma sys_loop {B C'} (f : channel Rd -> MS (channel Rd * B)) (g : list (channel Rd * B) -> C') :
  (forall ch, chan_ok ch -> triple sysok (f ch) (fun r s => chan_ok r.1 /\ sysok s)) ->
  preserves sysok (let* c := getc in let* rs := mapM f (k_chans c) in
    modc (fun c => c <| k_chans := map fst rs |>) ;;; ret (g rs)).
Proof.
  intros Hf s Hs. unfold bind at 1. cbn. unfold bind at 1.
  assert (Hm : triple sysok (mapM f (k_chans (s_c s))) (fun rs s => Forall (fun r => chan_ok r.1) rs /\ sysok s)).
  { apply (triple_mapM _ _ _ chan_ok); [apply Hs|exact Hf]. }
  specialize (Hm s Hs). destruct (mapM f _ s) as [rs s1]. cbn in *. destruct Hm as [Hrs [Hc He]].
  split; [|exact He]. cbn. destruct Hc as (Hcfg & Hpend & _ & Hovr).
  refine (conj Hcfg (conj Hpend (conj _ Hovr))). cbn. by apply Forall_map.
Qed.

Lemma sys_checkRegisters : preserves sysok (checkRegisters : MS _).
Proof.
  apply sys_both.
  - eapply goes_ok; [apply goes_checkRegisters|]. cbn. intros a b [Hw Hc] Ha.
    eapply chan_ok_write; [exact Hw| |exact Ha]. rewrite Hc. apply Ha.
  - unfold checkRegisters. lg.
Qed.

Lemma sys_writePhase d n : 0 <= d_StepUp d -> 0 <= d_StepDown d -> preserves sysok (writePhase d n : MS _).
Proof.
  intros Hu Hd. unfold writePhase. apply preserves_bind; [apply sys_quiet; qt|]. intros c.
  case_match; [apply preserves_ret|]. apply preserves_bind; [apply sys_checkRegisters|]. intros _.
  apply sys_loop. intros ch Hch. by apply sys_write_one.
Qed.

Lemma sys_failsafeAll : preserves sysok (failsafeAll ModeFailsafe : MS _).
Proof.
  intros s Hs. pose proof (sys_loop (failsafe_one ModeFailsafe) (fun rs => negb (existsb snd rs))) as Hl.
  unfold failsafeAll. unfold bind at 1. cbn. destruct (k_stopped (s_c s)); [done|].
  destruct (k_chans (s_c s)) as [|c0 cs] eqn:Ec; [done|].
  assert (Hone : forall ch : channel Rd, chan_ok ch ->
    triple sysok (failsafe_one ModeFailsafe ch) (fun r s => chan_ok r.1 /\ sysok s)).
  { clear. intros ch Hch s Hs.
    assert (Hch' : chan_ok (ch <| ch_mode := ModeFailsafe |> <| ch_target := 255 |>)).
    { destruct Hch as (C1 & C2 & C3 & C4). unfold chan_ok. cbn. split_and!; try done; lia. }
    split.
    - pose proof (failsafe_one_core ModeFailsafe ch s) as Hw.
      eapply chan_ok_write; [exact Hw| |exact Hch']. unfold failsafe_one, bind. cbn.
      pose proof (write_core_yields (ch <| ch_mode := ModeFailsafe |> <| ch_target := 255 |>) 255
        (k_n (s_c s)) s) as (_ & Hcur & _).
      destruct (write _ 255 _ s) as [[ch1 [e|]] s1]; cbn in *; [lia|].
      destruct (o_DryRun _); cbn; [|lia]. rewrite Hcur. apply Hch.
    - assert (Hp : preserves sysok (failsafe_one ModeFailsafe ch : MS _)); [|by apply Hp].
      unfold failsafe_one. apply preserves_bind; [apply sys_quiet; qt|]. intros c. cbv zeta.
      apply preserves_bind; [by apply sys_write|]. intros r. destruct r.2; apply preserves_ret. }
  specialize (Hl Hone s Hs). unfold bind at 1 in Hl. cbn in Hl. by rewrite Ec in Hl.
Qed.

Lemma sys_handle_errors werr wrote : preserves sysok (handle_errors werr wrote : MS _).
Proof.
  unfold handle_errors, note_write_errors, note_writes_ok, noteFailsafe. destruct werr.
  - apply preserves_bind; [apply sys_modc; intros c Hc; exact Hc|]. intros _.
    apply preserves_bind; [apply sys_quiet; qt|]. intros c. case_match; [apply preserves_ret|].
    apply preserves_bind; [apply sys_quiet; qt|]. intros _.
    apply preserves_bind; [apply sys_both; [apply ctl_reresolve|unfold reresolve; lg]|]. intros _.
    apply preserves_bind; [apply sys_failsafeAll|]. intros b.
    destruct (negb b); (apply preserves_bind; [apply sys_modc; intros c' Hc'; exact Hc'|]); intros _;
      apply sys_quiet; qt.
  - apply preserves_bind; [|intros; apply preserves_ret].
    apply sys_modc. intros c Hc. destruct wrote; exact Hc.
Qed.

Lemma sys_publish cs werr : preserves sysok (publish cs werr : MS _).
Proof.
  unfold publish, finishCycle. apply preserves_bind; [apply sys_quiet; qt|]. intros c.
  apply preserves_bind; [apply sys_quiet; qt|]. intros c'. cbv zeta.
  apply preserves_bind; [apply sys_quiet; qt|]. intros now.
  apply preserves_bind; [apply sys_quiet; qt|]. intros c''. cbv zeta.
  apply preserves_bind; [apply sys_modc; intros x Hx; exact Hx|]. intros _.
  apply preserves_bind; [apply sys_quiet; qt|]. intros _.
  apply preserves_bind; [apply sys_modc; intros x Hx; exact Hx|]. intros _. apply sys_quiet. qt.
Qed.

Lemma sys_saveHistory : preserves sysok (saveHistory : MS _).
Proof.
  unfold saveHistory. do 2 (apply preserves_bind; [apply sys_quiet; qt|]; intros ?).
  case_match; [apply preserves_ret|].
  apply preserves_bind; [apply sys_modc; intros x Hx; exact Hx|]. intros _.
  do 2 (apply preserves_bind; [apply sys_quiet; qt|]; intros ?). apply sys_modc. intros x Hx; exact Hx.
Qed.
Lemma sys_save_now : preserves sysok (save_history_now : MS _).
Proof.
  unfold save_history_now. do 2 (apply preserves_bind; [apply sys_quiet; qt|]; intros ?).
  apply sys_modc. intros x Hx; exact Hx.
Qed.

Lemma sys_job : preserves sysok (next_job : MS _).
Proof.
  unfold next_job. apply preserves_bind; [apply sys_quiet; qt|]. intros c. case_match; [apply preserves_ret|].
  apply preserves_bind; [apply sys_modc; intros x Hx; exact Hx|]. intros _. apply sys_quiet. qt.
Qed.

(** The stop values of good channels. *)
Lemma stop_event_ok (ch : channel Rd) : chan_ok ch -> event_ok (stop_event ch).
Proof.
  intros ([_ Hs] & _). unfold stop_event, event_ok. unfold stop_ok, StopDuty, duty_ok in Hs.
  destruct (String.eqb (cc_Stop (ch_cfg ch)) "auto") eqn:E1; [apply String.eqb_eq in E1; auto|].
  destruct (String.eqb (cc_Stop (ch_cfg ch)) "") eqn:E2; [apply String.eqb_eq in E2; auto|].
  cbn in Hs. right. right. destruct (Atoi _); [lia|done].
Qed.

Lemma sys_safeStop : preserves sysok (safeStopLocked : MS _).
Proof.
  intros s Hs. unfold safeStopLocked, bind at 1. cbn.
  enough (preserves sysok ((if o_DryRun (k_opts (s_c s)) then ret tt
    else iterM stop_one (k_chans (s_c s))) ;;; removeRunFile "state.json")) as Hp by by apply Hp.
  apply preserves_bind; [|intros _; apply sys_quiet; qt].
  case_match; [apply preserves_ret|].
  destruct Hs as [(_ & _ & Hch & _) _]. clear -Hch.
  induction Hch as [|ch l Hc Hl IH]; cbn [iterM]; [apply preserves_ret|].
  apply preserves_bind; [|intros _; exact IH].
  unfold stop_one. apply preserves_bind; [apply sys_quiet; qt|]. intros e.
  apply preserves_bind; [|intros _; apply sys_quiet; qt].
  intros s0 [Hs1 Hs2]. split; [done|]. constructor; [by apply stop_event_ok|done].
Qed.

(** ** API *)
Lemma sanitize_cfg_ok profile chans : Forall chancfg_ok chans ->
  Forall chancfg_ok (fst (SanitizeChannels profile chans)).
Proof.
  intros Hf. unfold SanitizeChannels. destruct (negb _); [done|].
  assert (Hdef : Forall chancfg_ok N5ProChannels).
  { repeat constructor; try (right; by vm_compute); by vm_compute. }
  enough (forall defs st, Forall chancfg_ok defs -> Forall chancfg_ok st.1.1 ->
    Forall chancfg_ok (fold_left (fun st def => sanitize_one chans def st) defs st).1.1) as Hg.
  { specialize (Hg N5ProChannels (chans, map cc_Name chans, []) Hdef Hf).
    by destruct (fold_left _ _ _) as [[out names] notes]. }
  clear. induction defs as [|def defs IH]; intros st Hdefs Hst; [done|]. cbn [fold_left].
  inversion_clear Hdefs as [|? ? Hdef Hdefs']. apply IH; [done|].
  destruct st as [[out names] notes]. unfold sanitize_one. cbn [fst] in *.
  destruct (last_index (cc_PWM def) chans) as [i|]; cbn [fst].
  - destruct (out !! i) as [ch|] eqn:Ei; [|done]. case_match; [|done]. cbn.
    apply Forall_insert; [done|]. pose proof (proj1 (Forall_lookup _ _) Hst i ch Ei) as [Hc _].
    split; [exact Hc|by vm_compute].
  - apply Forall_app. split; [done|]. constructor; [|constructor]. case_match; exact Hdef.
Qed.

Lemma override_ok_range cc d : override_ok cc d = true -> 0 <= d <= 255.
Proof. unfold override_ok. intros Ho%negb_true_iff. split_bools. lia. Qed.

Lemma ctl_override (c : Controller Rd) name d : 0 <= d <= 255 -> ctl_ok c ->
  ctl_ok (c <| k_overrides := <[name := d]> (k_overrides c) |>).
Proof.
  intros Hd (Hcfg & Hpend & Hch & Hovr). refine (conj Hcfg (conj Hpend (conj Hch _))).
  cbn. by apply map_Forall_insert_2.
Qed.

Lemma sys_api o : (forall cfg, o = OpApply cfg -> cfg_ok cfg) -> preserves sysok (api_run o : MS _).
Proof.
  intros Hok. destruct o as [name duty|name|ids|cfg]; cbn [api_run].
  - apply preserves_bind; [|intros; apply preserves_ret]. unfold SetOverride.
    destruct ((duty <? 0) || (255 <? duty)) eqn:Ed; [apply preserves_ret|]. split_bools.
    apply preserves_bind; [apply sys_quiet; qt|]. intros c. destruct (findLocked c name); [|apply preserves_ret].
    case_match; [apply preserves_ret|].
    apply preserves_bind; [apply sys_modc; intros c' Hc'; apply ctl_override; [lia|done]|].
    intros _. apply sys_quiet. qt.
  - apply preserves_bind; [|intros; apply preserves_ret]. unfold ClearOverride.
    apply preserves_bind; [apply sys_quiet; qt|]. intros c. destruct (findLocked c name); [|apply preserves_ret].
    apply preserves_bind; [|intros _; apply sys_quiet; qt].
    apply sys_modc. intros c' (Hcfg & Hpend & Hch & Hovr). refine (conj Hcfg (conj Hpend (conj Hch _))).
    cbn. by apply map_Forall_delete.
  - unfold SetWatched. apply sys_modc. intros c (Hcfg & Hpend & Hch & Hovr).
    refine (conj Hcfg (conj _ (conj Hch Hovr))). cbn. intros p Hp.
    destruct (k_pending c) as [p0|] eqn:E; [|done]. cbn in Hp. injection Hp as <-. exact (Hpend p0 eq_refl).
  - apply preserves_bind; [|intros; apply preserves_ret]. unfold Apply.
    pose proof (sanitize_cfg_ok dev_ProfileName (c_Channels cfg)) as Hsan.
    destruct (SanitizeChannels _ _) as [chans notes]. cbn [fst] in Hsan. cbv zeta.
    apply preserves_bind; [apply sys_quiet; qt|]. intros c. case_match; [apply preserves_ret|].
    apply preserves_bind; [|intros _; apply sys_quiet; qt].
    apply sys_modc. intros c' (Hcfg & Hpend & Hch & Hovr). refine (conj Hcfg (conj _ (conj Hch Hovr))).
    intros p [= <-]. destruct (Hok cfg eq_refl) as (? & ? & Hf). split_and!; try done. by apply Hsan.
Qed.

(** ** Construction *)
Lemma dev_duty_ok (v : Err + Z) :
  0 <= match v with inl _ => 255 | inr v => if (v <? 0) || (255 <? v) then 255 else v end <= 255.
Proof. destruct v as [|v]; [lia|]. case_match; split_bools; lia. Qed.

Lemma buildChannels_ok ccs : Forall chancfg_ok ccs ->
  yields (S := Sys W Rd) (fun r => Forall chan_ok r.1) (buildChannels ccs).
Proof.
  induction 1 as [|cc ccs Hcc Hccs IH]; cbn [buildChannels]; [apply yields_ret; constructor|].
  destruct (dev_channel _) as [dc|].
  - do 2 (apply yields_bind'; intros ?). cbv zeta. apply yields_bind'. intros rd.
    eapply yields_bind; [exact IH|]. intros r Hr. apply yields_ret. constructor; [|exact Hr].
    pose proof (dev_duty_ok a0). unfold chan_ok. cbn. split_and!; try done; try lia; apply Hcc.
  - eapply yields_bind; [exact IH|]. intros r Hr. apply yields_ret. exact Hr.
Qed.

Lemma sys_loadOverrides : preserves sysok (loadOverrides : MS _).
Proof.
  unfold loadOverrides. apply preserves_bind; [apply sys_quiet; qt|]. intros c.
  apply preserves_iterM. intros ch. cbv zeta. apply preserves_bind; [apply sys_quiet; qt|]. intros content.
  destruct content as [b|]; [|apply preserves_ret].
  destruct (Atoi _) as [v|]; [|apply sys_quiet; qt].
  destruct (override_ok _ v) eqn:Eo; [|apply sys_quiet; qt].
  apply sys_modc. intros c' Hc'. apply ctl_override; [by eapply override_ok_range|done].
Qed.

Lemma sys_New : triple (fun s : Sys W Rd => sysok s) New (fun _ s => sysok s).
Proof.
  enough (preserves sysok (New : MS _)) as Hp by (intros s Hs; by apply Hp).
  unfold New. intros s Hs. unfold bind at 1. cbn [getc gets fst snd].
  match goal with |- sysok (snd (?m s)) => enough (preserves sysok m) as Hp by by apply Hp end.
  apply preserves_bind; [apply sys_quiet; qt|]. intros _.
  assert (Hsan : Forall chancfg_ok (fst (SanitizeChannels dev_ProfileName (c_Channels (k_cfg (s_c s)))))).
  { apply sanitize_cfg_ok. by destruct Hs as [((_ & _ & Hf) & _) _]. }
  destruct (SanitizeChannels _ _) as [chans notes]. cbn [fst] in Hsan.
  generalize (o_RunDir (k_opts (s_c s))) (c_Sensors (k_cfg (s_c s))). intros hasRun sensors. clear Hs s.
  apply preserves_bind.
  { apply sys_modc. intros c ((Hu & Hd & _) & Hpend & Hch & Hovr).
    exact (conj (conj Hu (conj Hd Hsan)) (conj Hpend (conj Hch Hovr))). }
  intros _ s Hs. unfold bind at 1.
  pose proof (buildChannels_ok chans Hsan s) as Hb.
  pose proof (sys_quiet (buildChannels chans) ltac:(apply quiet_buildChannels) s Hs) as Hs1.
  destruct (buildChannels chans s) as [r s1]. cbn [fst snd] in *.
  match goal with |- sysok (snd (?m s1)) => enough (preserves sysok m) as Hp by by apply Hp end.
  clear Hs Hs1 s s1.
  apply preserves_bind.
  { apply sys_modc. intros c (Hcfg & Hpend & _ & Hovr). exact (conj Hcfg (conj Hpend (conj Hb Hovr))). }
  intros _. apply preserves_bind; [apply sys_quiet; qt|]. intros _.
  apply preserves_bind; [apply sys_quiet; qt|]. intros ws.
  apply preserves_bind; [apply sys_modc; intros x Hx; exact Hx|]. intros _.
  apply preserves_bind; [case_match; [apply sys_loadOverrides|apply preserves_ret]|]. intros _.
  apply preserves_bind; [apply sys_quiet; qt|]. intros st.
  apply preserves_bind; [apply sys_modc; intros x Hx; exact Hx|]. intros _.
  apply preserves_bind; [apply sys_quiet; qt|]. intros now. apply sys_modc; intros x Hx; exact Hx.
Qed.

(** ** Every step *)
Definition cycle_ok (cs : cycleState) : Prop :=
  0 <= d_StepUp (cy_d cs) /\ 0 <= d_StepDown (cy_d cs) /\ ovr_ok (cy_ovr cs).

Lemma readSensors_cs cs : yields (S := Sys W Rd) (fun cs' => cy_d cs' = cy_d cs /\ cy_ovr cs' = cy_ovr cs)
  (readSensors cs).
Proof.
  unfold readSensors. do 5 (apply yields_bind'; intros ?). cbv zeta.
  do 4 (apply yields_bind'; intros ?). by apply yields_ret.
Qed.

Lemma sys_readSensors cs : preserves sysok (readSensors cs : MS _).
Proof.
  apply sys_both; [apply ctl_readSensors|]. unfold readSensors, stale_check, readWatched, readRPMs. lg.
Qed.

Lemma sys_decide : triple sysok (cycle_decide : MS _) (fun cs s => cycle_ok cs /\ sysok s).
Proof.
  unfold cycle_decide.
  assert (Hbegin : preserves sysok (lift host_Notify ;;; applyPendingLocked ;;;
    let* c := getc in
    (if k_watchDirty c
     then let* ws := buildWatched (c_Sensors (k_cfg c)) in
          modc (fun c => c <| k_watched := ws |> <| k_watchDirty := false |>)
     else ret tt) : MS _)).
  { apply sys_both; [apply ctl_begin|]. unfold applyPendingLocked. lg. }
  intros s Hs. specialize (Hbegin s Hs). unfold bind in Hbegin |- *.
  destruct (lift host_Notify s) as [[] s1]. destruct (applyPendingLocked s1) as [[] s2]. cbn [getc gets] in *.
  match type of Hbegin with sysok (snd (?m s2)) =>
    match goal with |- context [if k_watchDirty (s_c s2) then ?f else ?g] =>
      change ((if k_watchDirty (s_c s2) then f else g) s2) with (m s2) end;
    destruct (m s2) as [[] s3] end. cbn [fst snd] in Hbegin. clear Hs.
  set (cs := mkCycle _ _ _ _ _ _).
  assert (Hcs : cycle_ok cs).
  { destruct Hbegin as [((Hu & Hd & _) & _ & _ & Ho) _]. by split_and!. }
  clearbody cs.
  match goal with |- context [(if ?b then reresolve else ret tt) s3] =>
    assert (Hr : sysok (snd ((if b then reresolve else ret tt) s3)))
      by (destruct b; [apply (sys_both _ ctl_reresolve ltac:(unfold reresolve; lg)); exact Hbegin|exact Hbegin]);
    destruct ((if b then reresolve else ret tt) s3) as [[] s4] end.
  cbn [fst snd] in Hr.
  pose proof (readSensors_cs cs s4) as [Ed Eo]. pose proof (sys_readSensors cs s4 Hr) as Hs5.
  destruct (readSensors cs s4) as [cs' s5]. cbn [fst snd] in *.
  assert (Hcs' : cycle_ok cs') by (unfold cycle_ok in *; by rewrite Ed, Eo).
  split.
  - assert (Hy : yields (S := Sys W Rd) (fun r => r = cs') (computeTargets cs' ;;; checkStall cs' ;;; ret cs')).
    { do 2 (apply yields_bind'; intros ?). by apply yields_ret. }
    specialize (Hy s5). unfold bind in Hy. by rewrite Hy.
  - assert (Hp : preserves sysok (computeTargets cs' ;;; checkStall cs' ;;; ret cs' : MS _)).
    { apply sys_both; [apply ctl_decide, Hcs'|]. unfold computeTargets, checkStall. lg. }
    exact (Hp s5 Hs5).
Qed.

Definition conf_ok (c : conf W Rd) : Prop :=
  sysok (cf_s c) /\ match cf_loop c with PWrite cs => cycle_ok cs | _ => True end.

Lemma step_conf_ok a b : step cfg_ok a b -> conf_ok a -> conf_ok b.
Proof.
  intros Hst [Ha Hpc]. destruct Hst; cbn [cf_s cf_loop] in *; split; cbn [cf_s cf_loop]; try done.
  - by apply (sys_decide s).
  - by apply (sys_decide s).
  - destruct Hpc as (Hu & Hd & _). by apply (sys_writePhase _ (cy_n cs) Hu Hd s).
  - by apply (sys_handle_errors werr wrote s).
  - apply sys_saveHistory. by apply (sys_publish cs werr s).
  - by apply (sys_publish cs werr s).
  - by apply (sys_api o ltac:(assumption) s).
  - by apply (sys_job s).
  - apply sys_save_now. by apply (sys_safeStop s).
Qed.

(** The device only ever sees duties.  Start the daemon on any configuration the
    parser lets through ([cfg_ok]: well-formed curves, stop values in 0..255,
    non-negative slew steps), with any readings, run-directory files and device
    answers, and let it run: cycles, API calls (overrides, watched sensors, reloads
    of accepted configurations), hook goroutines, Stop and changes of the outside
    world in any interleaving.  Every duty written is between 0 and 255, every
    stop value handed to SafeStop is "auto" or a duty in that range, and the duties
    the controller reports are -1 (unknown) or in that range. *)
Theorem duties_in_range opts cfg extra store w c :
  cfg_ok cfg ->
  reachable cfg_ok (mkConf (snd (New (mkSys (init_controller opts cfg extra store) w []))) PIdle SIdle) c ->
  Forall event_ok (s_ev (cf_s c)) /\
  Forall (fun ch : channel Rd => -1 <= ch_cur ch <= 255 /\ 0 <= ch_target ch <= 255) (k_chans (s_c (cf_s c))).
Proof.
  intros Hcfg Hr.
  assert (Hok : conf_ok c).
  { refine (reachable_inv cfg_ok conf_ok (fun a b Ha Hs => step_conf_ok a b Hs Ha) _ _ Hr _).
    split; [|done]. apply sys_New. split; [|constructor].
    refine (conj Hcfg (conj _ (conj _ _))); [done|constructor|apply map_Forall_empty]. }
  destruct Hok as [[(_ & _ & Hch & _) He] _]. split; [done|].
  eapply Forall_impl; [exact Hch|]. intros ch (_ & ? & ? & _). done.
Qed.
End Writes.

Lemma duties_in_range_witness :
  let s := Demo.started (Demo.world 50000 35000) in
  let c := mkConf (snd (saveHistory (snd (cycle s)))) PIdle SIdle in
  s_ev (cf_s c) <> [] /\ Forall event_ok (s_ev (cf_s c)) /\
  Forall (fun ch => -1 <= ch_cur ch <= 255 /\ 0 <= ch_target ch <= 255) (k_chans (s_c (cf_s c))).
Proof.
  intros s c. split; [by vm_compute|].
  apply (duties_in_range Demo.options Demo.config [] (empty_store "" (10 * Second)) (Demo.world 50000 35000) c).
  - split; [by vm_compute|]. split; [by vm_compute|].
    repeat constructor; try (right; by vm_compute); by vm_compute.
  - apply cycle_of_steps. by vm_compute.
Defined.
