(* ===== verification/ControlRules.v ===== *)
(** The rules of one channel over time: hysteresis, the minimum on-time, the ceiling
    episode with its emergency hook, and the stall detection, each run over a
    sequence of cycles (src/internal/control/controller.go). *)
From stdpp Require Import base gmap strings list.
From Stdlib Require Import ZArith QArith Lia Sorted.
From S2P Require Import Prelude GoLib ConfigTypes Curve Ceiling ControlTypes ControlAlert ControlSense ControlTarget ControlWrite ControlApi ControlDemo ControlFrame ControlStep.
Open Scope Z_scope.

(** A concrete channel for the witnesses. *)
Definition demo_channel : channel string :=
  new_channel (Demo.cpu_channel <| cc_Hysteresis := 2 |> <| cc_MinOn := 60 * Second |>) true
    (100, [mkPartCeiling "k10temp" 100]) 100 (Some "k10temp").

Section Sequences.
Context {Rd : Type}.
Implicit Types ch : channel Rd.

(** ** Hysteresis *)

(** The temperatures the curve is evaluated at over a sequence of readings. *)
Fixpoint held_trace ch (temps : list Z) : list Z :=
  match temps with
  | [] => []
  | t :: rest => let r := heldTemp (ch <| ch_temp := t |>) in r.2 :: held_trace r.1 rest
  end.

(** Two consecutive curve temperatures are equal or at least [n] apart. *)
Definition jump (n a b : Z) : Prop := b = a \/ n <= Z.abs (b - a).

Lemma heldTemp_step ch t : 0 < cc_Hysteresis (ch_cfg ch) ->
  let n := cc_Hysteresis (ch_cfg ch) * 1000 in
  let r := heldTemp (ch <| ch_temp := t |>) in
  ch_cfg r.1 = ch_cfg ch /\ ch_heldOK r.1 = true /\ ch_held r.1 = r.2 /\ Z.abs (t - r.2) < n /\
  (ch_heldOK ch = true -> jump n (ch_held ch) r.2).
Proof.
  intros Hn. unfold heldTemp, jump. destruct ch; cbn in *.
  assert ((cc_Hysteresis ch_cfg <=? 0) = false) as -> by lia.
  destruct ch_heldOK; cbn; [|split_and!; done || lia].
  destruct (_ || _)%bool eqn:E; cbn; split_and!; try done.
  - lia.
  - intros _. right. apply orb_true_iff in E. lia.
  - apply orb_false_iff in E. lia.
  - intros _. by left.
Qed.

Lemma held_trace_spec temps : forall ch, 0 < cc_Hysteresis (ch_cfg ch) ->
  let n := cc_Hysteresis (ch_cfg ch) * 1000 in
  Forall2 (fun t h => Z.abs (t - h) < n) temps (held_trace ch temps) /\
  Sorted (jump n) (if ch_heldOK ch then ch_held ch :: held_trace ch temps else held_trace ch temps).
Proof.
  induction temps as [|t temps IH]; intros ch Hn n; cbn [held_trace].
  - split; [constructor|]. destruct (ch_heldOK ch); repeat constructor.
  - destruct (heldTemp_step ch t Hn) as (Hcfg & Hok & Hheld & Habs & Hjump). fold n in Habs, Hjump.
    specialize (IH (heldTemp (ch <| ch_temp := t |>)).1). rewrite Hcfg, Hok, Hheld in IH.
    destruct (IH Hn) as [IH1 IH2]. fold n in IH1, IH2.
    split; [by constructor|]. destruct (ch_heldOK ch); [|exact IH2].
    constructor; [exact IH2|]. constructor. by apply Hjump.
Qed.

(** ** The minimum on-time *)

(** The states and the outputs of [minOnHold] over curve outputs and clock readings. *)
Definition hold_after ch (l : list (Z * Time)) : channel Rd :=
  fold_left (fun ch p => (minOnHold ch p.1 p.2).1) l ch.

Lemma minOnHold_cfg ch c t : ch_cfg (minOnHold ch c t).1 = ch_cfg ch.
Proof. unfold minOnHold. cbv zeta. destruct ch; cbn. by repeat case_match. Qed.

(** A hold at [c] or more that lasts until [until] at least. *)
Definition held_up ch (c until : Z) : Prop :=
  ch_holding ch = true /\ c <= ch_holdTarget ch /\ until <= t_mono (ch_holdUntil ch).

Lemma minOnHold_ge ch c t : c <= (minOnHold ch c t).2.
Proof. unfold minOnHold. cbv zeta. destruct ch; cbn. repeat case_match; cbn in *; split_bools; lia. Qed.

Lemma minOnHold_starts ch c t : 0 < cc_MinOn (ch_cfg ch) ->
  ch_haveCurve ch = true -> ch_lastCurve ch < c ->
  ch_holding ch = false \/ ch_holdTarget ch < c \/ t_mono (ch_holdUntil ch) <= t_mono t ->
  held_up (minOnHold ch c t).1 c (t_mono t + cc_MinOn (ch_cfg ch)).
Proof.
  intros Hd Hhave Hrise Hfree. unfold minOnHold, held_up, tBefore. destruct ch; cbn in *. subst.
  assert ((cc_MinOn ch_cfg <=? 0) = false) as -> by lia.
  assert ((ch_lastCurve <? c) = true) as -> by lia.
  destruct ch_holding; cbn; [|split_and!; try done; lia].
  destruct (t_mono t <? t_mono ch_holdUntil) eqn:E; cbn; [|split_and!; try done; lia].
  assert ((ch_holdTarget <? c) = true) as ->; [|cbn; split_and!; try done; lia].
  destruct Hfree as [|[|]]; [done|lia|lia].
Qed.

Lemma minOnHold_stays ch c0 until c t :
  0 < cc_MinOn (ch_cfg ch) -> held_up ch c0 until ->
  t_mono t < until -> until - cc_MinOn (ch_cfg ch) <= t_mono t ->
  held_up (minOnHold ch c t).1 c0 until /\ c0 <= (minOnHold ch c t).2.
Proof.
  intros Hd (Hh & Ht & Hu) Hlt Hge. unfold minOnHold, held_up, tBefore. destruct ch; cbn in *. subst.
  assert ((cc_MinOn ch_cfg <=? 0) = false) as -> by lia.
  assert ((t_mono t <? t_mono ch_holdUntil) = true) as -> by lia. cbn.
  destruct (ch_haveCurve && _ && _)%bool eqn:E; cbn.
  - apply andb_true_iff in E as [_ E]. split_and!; try done; try lia. case_match; lia.
  - split_and!; try done; try lia. case_match; lia.
Qed.

Lemma hold_after_stays l : forall ch c until,
  0 < cc_MinOn (ch_cfg ch) -> held_up ch c until ->
  Forall (fun p => until - cc_MinOn (ch_cfg ch) <= t_mono p.2 < until) l ->
  held_up (hold_after ch l) c until /\ ch_cfg (hold_after ch l) = ch_cfg ch.
Proof.
  induction l as [|[c1 t1] l IH]; intros ch c until Hd Hh Hl; [done|]. cbn [hold_after fold_left fst snd].
  inversion_clear Hl. destruct (minOnHold_stays ch c until c1 t1) as [Hh' _]; [done..|cbn in *; lia|cbn in *; lia|].
  pose proof (minOnHold_cfg ch c1 t1) as Hc. fold (hold_after (minOnHold ch c1 t1).1 l).
  destruct (IH (minOnHold ch c1 t1).1 c until) as [Hr1 Hr2]; rewrite ?Hc; try done. by rewrite Hr2.
Qed.

(** ** The ceiling episode *)

(** A part at or above its limit; every part [ceilingRecover] degrees below it. *)
Definition hot_parts ch (ps : list Part) : bool :=
  existsb (fun p => partCeiling ch (pt_ID p) * 1000 <=? pt_Value p) ps.
Definition cool_parts ch (ps : list Part) : bool :=
  forallb (fun p => pt_Value p <? (partCeiling ch (pt_ID p) - ceilingRecover) * 1000) ps.

Lemma hottest_fold ch ps : forall h,
  let r := fold_left (hottest_step ch) ps h in
  ho_found r = (ho_found h || hot_parts ch ps)%bool /\
  ho_allBelow r = (ho_allBelow h && cool_parts ch ps)%bool.
Proof.
  induction ps as [|p ps IH]; intros h; cbn [fold_left hot_parts cool_parts existsb forallb].
  - by rewrite orb_false_r, andb_true_r.
  - destruct (IH (hottest_step ch h p)) as [-> ->]. fold (hot_parts ch ps) (cool_parts ch ps).
    assert (Hb : negb (partCeiling ch (pt_ID p) * 1000 - ceilingRecover * 1000 <=? pt_Value p) =
                 (pt_Value p <? (partCeiling ch (pt_ID p) - ceilingRecover) * 1000)).
    { destruct (_ <=? _) eqn:E; cbn; symmetry; [apply Z.ltb_ge|apply Z.ltb_lt]; lia. }
    unfold hottest_step. rewrite Hb. clear Hb.
    destruct (partCeiling ch (pt_ID p) * 1000 <=? pt_Value p), (ho_found h); cbn;
      repeat case_match; cbn; by rewrite ?andb_assoc.
Qed.

Lemma hottestPart_spec ch :
  ho_found (hottestPart ch) = hot_parts ch (ch_parts ch) /\
  ho_allBelow (hottestPart ch) = cool_parts ch (ch_parts ch).
Proof. exact (hottest_fold ch (ch_parts ch) _). Qed.

Lemma hot_not_cool ch ps : hot_parts ch ps = true -> cool_parts ch ps = false.
Proof.
  intros (p & Hin & Hp)%existsb_exists. destruct (cool_parts ch ps) eqn:E; [|done].
  unfold cool_parts in E. rewrite forallb_forall in E. specialize (E p Hin). unfold ceilingRecover in *. lia.
Qed.

(** One cycle with the readings [ps]. *)
Definition ceil_step d ch (ps : list Part) : channel Rd := ceil_result d (ch <| ch_parts := ps |>).

Lemma ceil_step_limits d ch ps :
  ch_partCeil (ceil_step d ch ps) = ch_partCeil ch /\ ch_ceiling (ceil_step d ch ps) = ch_ceiling ch.
Proof.
  unfold ceil_step, ceil_result. cbv zeta. generalize (hottestPart (ch <| ch_parts := ps |>)). intros h.
  destruct ch; cbn. by repeat case_match.
Qed.

Lemma parts_limits ch ch' ps : ch_partCeil ch' = ch_partCeil ch -> ch_ceiling ch' = ch_ceiling ch ->
  hot_parts ch' ps = hot_parts ch ps /\ cool_parts ch' ps = cool_parts ch ps.
Proof. unfold hot_parts, cool_parts, partCeiling. by intros -> ->. Qed.

Lemma ceil_step_limited d ch ps qs :
  hot_parts (ceil_step d ch ps) qs = hot_parts ch qs /\ cool_parts (ceil_step d ch ps) qs = cool_parts ch qs.
Proof. destruct (ceil_step_limits d ch ps). by apply parts_limits. Qed.

Lemma ceil_step_hit d ch ps :
  ch_ceilHit (ceil_step d ch ps) = (hot_parts ch ps || (ch_ceilHit ch && negb (cool_parts ch ps)))%bool /\
  (ch_ceilHit (ceil_step d ch ps) = true ->
   ch_target (ceil_step d ch ps) = 255 /\ ch_mode (ceil_step d ch ps) = ModeCritical).
Proof.
  pose proof (hottestPart_spec (ch <| ch_parts := ps |>)) as [Hf Hb].
  change (hot_parts (ch <| ch_parts := ps |>)) with (hot_parts ch) in Hf.
  change (cool_parts (ch <| ch_parts := ps |>)) with (cool_parts ch) in Hb.
  change (ch_parts (ch <| ch_parts := ps |>)) with ps in Hf, Hb.
  pose proof (hot_not_cool ch ps) as Hx.
  unfold ceil_step, ceil_result. cbv zeta. revert Hf Hb Hx.
  generalize (hottestPart (ch <| ch_parts := ps |>)) (hot_parts ch ps) (cool_parts ch ps).
  intros h hot cool Hf Hb Hx. rewrite Hf, Hb. clear Hf Hb. destruct ch; cbn.
  destruct hot, cool, ch_ceilHit; cbn; try (specialize (Hx eq_refl)); try done;
    repeat case_match; cbn; done.
Qed.

(** ** Stall detection *)

(** What a cycle feeds the detection: the tachometer, the duty and whether it has
    been written. *)
Definition stall_step d ch (x : Z * Z) : channel Rd :=
  stall_result d (ch <| ch_rpm := x.1 |> <| ch_cur := x.2 |> <| ch_written := true |>).
Definition stall_after d ch (l : list (Z * Z)) : channel Rd := fold_left (stall_step d) l ch.

(** The length of the run of positive readings at the end. *)
Definition spinning (l : list (Z * Z)) : Z :=
  fold_left (fun n x => if 0 <? x.1 then n + 1 else 0) l 0.

Lemma stall_after_snoc d ch l x : stall_after d ch (l ++ [x]) = stall_step d (stall_after d ch l) x.
Proof. unfold stall_after. by rewrite fold_left_app. Qed.
Lemma spinning_snoc l x : spinning (l ++ [x]) = if 0 <? x.1 then spinning l + 1 else 0.
Proof. unfold spinning. by rewrite fold_left_app. Qed.

Lemma stall_counts d ch l : ch_hasTach ch = true -> ch_stalled ch = false -> ch_stallCnt ch = 0 ->
  Forall (fun x => x.1 = 0 /\ d_StallMinDuty d <= x.2) l -> Z.of_nat (length l) < d_StallCycles d ->
  let ch' := stall_after d ch l in
  ch_hasTach ch' = true /\ ch_stalled ch' = false /\ ch_stallCnt ch' = Z.of_nat (length l) /\
  ch_target ch' = ch_target ch /\ ch_mode ch' = ch_mode ch /\ ch_recov ch' = ch_recov ch.
Proof.
  intros Ht Hs Hc. induction l as [|x l IH] using rev_ind; intros Hl Hlen; [done|].
  apply Forall_app in Hl as [Hl Hx]. inversion_clear Hx as [|? ? [Hx1 Hx2] _].
  rewrite length_app in *. cbn [length] in *. destruct IH as (I1 & I2 & I3 & I4 & I5 & I6); [done|lia|].
  cbv zeta. rewrite stall_after_snoc. destruct (stall_after d ch l). cbn in *. subst.
  unfold stall_step, stall_result. cbn. rewrite Hx1. cbn.
  assert ((d_StallMinDuty d <=? x.2) = true) as -> by lia. cbn.
  assert ((d_StallCycles d <=? Z.of_nat (length l) + 1) = false) as -> by lia. cbn.
  split_and!; try done; lia.
Qed.

Lemma stall_keeps d ch l : ch_hasTach ch = true -> ch_stalled ch = true -> ch_recov ch = 0 ->
  (forall p, p `prefix_of` l -> spinning p < stallRecoverCycles) ->
  let ch' := stall_after d ch l in
  ch_hasTach ch' = true /\ ch_stalled ch' = true /\ ch_recov ch' = spinning l /\
  (l <> [] -> ch_target ch' = 255 /\ ch_mode ch' = ModeStall).
Proof.
  intros Ht Hs Hr. induction l as [|x l IH] using rev_ind; intros Hp; [done|].
  destruct IH as (I1 & I2 & I3 & _); [intros p Hpl; apply Hp; by apply prefix_app_r|].
  cbv zeta. rewrite stall_after_snoc. specialize (Hp (l ++ [x]) (reflexivity _)).
  rewrite spinning_snoc in *. destruct (stall_after d ch l). cbn in *. subst.
  unfold stall_step, stall_result. cbn. unfold stallRecoverCycles in *.
  destruct (0 <? x.1); cbn; [|done].
  assert ((3 <=? spinning l + 1) = false) as -> by lia. done.
Qed.
End Sequences.

(** hysteresis does what it says.  With a hysteresis of N > 0 degrees, whatever the
    sequence of readings: the temperature the curve is evaluated at is always less
    than N degrees away from the reading, and it only ever moves in jumps of at
    least N degrees - readings that wander by less never move the fan. *)
Theorem hysteresis_band {Rd} (ch : channel Rd) temps : 0 < cc_Hysteresis (ch_cfg ch) ->
  Forall2 (fun t h => Z.abs (t - h) < cc_Hysteresis (ch_cfg ch) * 1000) temps (held_trace ch temps) /\
  Sorted (jump (cc_Hysteresis (ch_cfg ch) * 1000)) (held_trace ch temps).
Proof.
  intros Hn. destruct (held_trace_spec temps ch Hn) as [H1 H2]. split; [exact H1|].
  destruct (ch_heldOK ch); [by inversion H2|exact H2].
Qed.

Lemma hysteresis_band_witness :
  held_trace demo_channel [50000; 51900; 52000; 50100; 50000; 47000] = [50000; 50000; 52000; 52000; 50000; 47000] /\
  Sorted (jump 2000) (held_trace demo_channel [50000; 51900; 52000; 50100; 50000; 47000]).
Proof.
  split; [by vm_compute|].
  apply (hysteresis_band demo_channel [50000; 51900; 52000; 50100; 50000; 47000]). by vm_compute.
Defined.

(** The minimum on-time holds a rise.  When the curve output rises to [c] at time
    [t] and no running hold is already at [c] or above, then at every later cycle
    before [t + min_on] - whatever the curve says in between - the target is at
    least [c]; and in every cycle it is at least the curve output itself. *)
Theorem min_on_holds {Rd} (ch : channel Rd) c t l c' t' :
  0 < cc_MinOn (ch_cfg ch) -> ch_haveCurve ch = true -> ch_lastCurve ch < c ->
  ch_holding ch = false \/ ch_holdTarget ch < c \/ t_mono (ch_holdUntil ch) <= t_mono t ->
  Forall (fun p => t_mono t <= t_mono p.2 < t_mono t + cc_MinOn (ch_cfg ch)) (l ++ [(c', t')]) ->
  c <= (minOnHold (hold_after ch ((c, t) :: l)) c' t').2 /\
  c' <= (minOnHold (hold_after ch ((c, t) :: l)) c' t').2.
Proof.
  intros Hd Hhave Hrise Hfree Hl. split; [|exact (minOnHold_ge _ c' t')].
  pose proof (minOnHold_starts ch c t Hd Hhave Hrise Hfree) as Hup.
  pose proof (minOnHold_cfg ch c t) as Hc.
  apply Forall_app in Hl as [Hl Hlast]. inversion_clear Hlast as [|? ? Ht _]. cbn in Ht.
  destruct (hold_after_stays l (minOnHold ch c t).1 c (t_mono t + cc_MinOn (ch_cfg ch))) as [Hup' Hc'];
    rewrite ?Hc; [done..| |].
  - eapply Forall_impl; [exact Hl|]. cbn. intros. lia.
  - eapply minOnHold_stays; [|exact Hup'|..]; unfold hold_after in *; cbn in *; rewrite ?Hc', ?Hc; lia.
Qed.

Lemma min_on_holds_witness :
  let ch := demo_channel <| ch_haveCurve := true |> <| ch_lastCurve := 90 |> in
  let at_ s := mkTime (s * Second) (s * Second) in
  (minOnHold (hold_after ch [(120, at_ 100); (80, at_ 110)]) 80 (at_ 159)).2 = 120 /\
  (minOnHold (hold_after ch [(120, at_ 100); (80, at_ 110)]) 80 (at_ 160)).2 = 80 /\
  120 <= (minOnHold (hold_after ch [(120, at_ 100); (80, at_ 110)]) 80 (at_ 159)).2 /\
  80 <= (minOnHold (hold_after ch [(120, at_ 100); (80, at_ 110)]) 80 (at_ 159)).2.
Proof.
  intros ch at_. split; [by vm_compute|]. split; [by vm_compute|].
  apply (min_on_holds ch 120 (at_ 100) [(80, at_ 110)] 80 (at_ 159)).
  1-3: by vm_compute. 1: by left. repeat constructor; by vm_compute.
Defined.

(** C17: the ceiling state has hysteresis.  After any sequence of readings of its parts
    a channel is in the ceiling state exactly when some reading had a part at or
    above its limit and no reading since had every part 3 degrees below its limit
    (or it was in the state before and no reading was that cool); and in the
    state its target is 255, whatever curve or override said. *)
Theorem ceiling_episode {Rd} d (ch : channel Rd) pss :
  let ch' := fold_left (ceil_step d) pss ch in
  (ch_ceilHit ch' = true <->
     (exists l ps l', pss = l ++ ps :: l' /\ hot_parts ch ps = true /\
                      Forall (fun qs => cool_parts ch qs = false) l') \/
     (ch_ceilHit ch = true /\ Forall (fun qs => cool_parts ch qs = false) pss)) /\
  (pss <> [] -> ch_ceilHit ch' = true -> ch_target ch' = 255 /\ ch_mode ch' = ModeCritical).
Proof.
  cbv zeta. split.
  - revert ch. induction pss as [|ps pss IH]; intros ch; cbn [fold_left].
    + split; [by right|]. by intros [(? & ? & ? & ?%app_cons_not_nil & _)|[? _]].
    + rewrite IH. destruct (ceil_step_hit d ch ps) as [-> _].
      assert (Hcool : forall l, Forall (fun qs => cool_parts (ceil_step d ch ps) qs = false) l <->
                                Forall (fun qs => cool_parts ch qs = false) l).
      { intros l. apply Forall_iff. intros qs. by destruct (ceil_step_limited d ch ps qs) as [_ ->]. }
      split.
      * intros [(l & q & l' & -> & Hh & Hl)|[Hhit Hl]].
        -- left. exists (ps :: l), q, l'. destruct (ceil_step_limited d ch ps q) as [<- _].
           split_and!; [done..|by apply Hcool].
        -- apply Hcool in Hl. apply orb_true_iff in Hhit as [Hhit|Hhit].
           ++ left. by exists [], ps, pss.
           ++ right. apply andb_true_iff in Hhit as [? ?%negb_true_iff]. split; [done|by constructor].
      * intros [(l & q & l' & Heq & Hh & Hl)|[Hhit Hl]].
        -- destruct l as [|q' l]; injection Heq as -> ->; [right|left].
           ++ rewrite Hh. split; [done|by apply Hcool].
           ++ exists l, q, l'. destruct (ceil_step_limited d ch q' q) as [-> _]. split_and!; [done..|by apply Hcool].
        -- right. inversion_clear Hl as [|? ? Hc Hl']. rewrite Hhit, Hc, orb_true_r.
           split; [done|by apply Hcool].
  - destruct pss as [|ps pss _] using rev_ind; [done|]. rewrite fold_left_app. intros _. apply ceil_step_hit.
Qed.

(** C31: a stopped fan is found and a recovered one released.  With a tachometer and
    zero readings at a written duty of at least stall_min_duty: for fewer than
    stall_cycles cycles nothing changes, with the stall_cycles-th the channel is
    stalled, at target 255.  A stalled channel stays stalled, at 255, as long as no
    three consecutive readings are positive, and the third consecutive positive
    reading ends the stall, the last cycle still at 255. *)
Theorem stall_detected {Rd} d (ch : channel Rd) zeros x l y :
  ch_hasTach ch = true -> ch_stalled ch = false -> ch_stallCnt ch = 0 -> ch_recov ch = 0 ->
  Forall (fun x => x.1 = 0 /\ d_StallMinDuty d <= x.2) (zeros ++ [x]) ->
  Z.of_nat (length (zeros ++ [x])) = d_StallCycles d ->
  (forall p, p `prefix_of` l -> spinning p < stallRecoverCycles) ->
  spinning (l ++ [y]) = stallRecoverCycles ->
  let before := stall_after d ch zeros in
  let found := stall_step d before x in
  let during := stall_after d found l in
  let ended := stall_step d during y in
  (ch_stalled before = false /\ ch_target before = ch_target ch) /\
  (ch_stalled found = true /\ ch_target found = 255) /\
  (ch_stalled during = true /\ ch_target during = 255) /\
  (ch_stalled ended = false /\ ch_target ended = 255 /\ ch_mode ended = ModeStall).
Proof.
  intros Ht Hs Hc Hr Hz Hlen Hp Hy. cbv zeta.
  apply Forall_app in Hz as [Hz Hx]. inversion_clear Hx as [|? ? [Hx1 Hx2] _].
  rewrite length_app in Hlen. cbn [length] in Hlen.
  destruct (stall_counts d ch zeros) as (B1 & B2 & B3 & B4 & _ & B6); [done..|lia|].
  set (before := stall_after d ch zeros) in *. clearbody before.
  assert (Hfound : ch_stalled (stall_step d before x) = true /\ ch_target (stall_step d before x) = 255 /\
    ch_hasTach (stall_step d before x) = true /\ ch_recov (stall_step d before x) = 0).
  { destruct before. cbn in *. subst. unfold stall_step, stall_result. cbn. rewrite Hx1. cbn.
    assert ((d_StallMinDuty d <=? x.2) = true) as -> by lia. cbn.
    by assert ((d_StallCycles d <=? Z.of_nat (length zeros) + 1) = true) as -> by lia. }
  destruct Hfound as (F1 & F2 & F3 & F4). set (found := stall_step d before x) in *. clearbody found.
  destruct (stall_keeps d found l) as (D1 & D2 & D3 & D4); [done..|].
  assert (D5 : ch_target (stall_after d found l) = 255) by (destruct l; [done|by apply D4]).
  set (during := stall_after d found l) in *. clearbody during. split_and!; try done.
  all: rewrite spinning_snoc in Hy; unfold stallRecoverCycles in *; destruct (0 <? y.1) eqn:Ey; [|lia].
  all: assert (E : (3 <=? ch_recov during + 1) = true) by lia.
  all: destruct during; cbn in *; subst; unfold stall_step, stall_result, stallRecoverCycles; cbn; rewrite Ey; cbn; by rewrite E.
Qed.

Lemma stall_detected_witness :
  let d := DefaultDaemon in
  let found := stall_step d (stall_after d demo_channel [(0, 100)]) (0, 100) in
  let during := stall_after d found [(0, 255); (900, 255); (0, 255); (900, 255); (950, 255)] in
  (ch_stalled found = true /\ ch_target found = 255) /\ (ch_stalled during = true /\ ch_target during = 255) /\
  ch_stalled (stall_step d during (1000, 255)) = false.
Proof.
  intros d found during.
  destruct (stall_detected d demo_channel [(0, 100)] (0, 100)
    [(0, 255); (900, 255); (0, 255); (900, 255); (950, 255)] (1000, 255)) as (_ & Hf & Hd & He & _); try done.
  - repeat constructor; done.
  - intros p [k Hk]. repeat (destruct p as [|? p]; [by vm_compute|simplify_eq/=]).
Defined.
