(* ===== verification/ControlHook.v ===== *)
(** The emergency hook over a ceiling episode (emergency in
    src/internal/control/controller.go): it runs at most once per episode, not
    before the configured number of cycles, and certainly after three times as many. *)
From stdpp Require Import base gmap strings list.
From Stdlib Require Import ZArith QArith Lia.
From S2P Require Import Prelude GoLib ConfigTypes Curve Ceiling ControlTypes ControlAlert ControlSense ControlTarget ControlWrite ControlApi ControlDemo ControlFrame ControlStep ControlRules.
Open Scope Z_scope.

Section Hook.
Context {W Rd : Type} `{Host W}.
Local Abbreviation MS := (M (Sys W Rd)).

(** How often a hook has been started. *)
Definition is_hook (e : Event) : bool := match e with EvHook _ _ => true | _ => false end.
Definition hooks (s : Sys W Rd) : nat := length (List.filter is_hook (s_ev s)).
Definition hooked (k : nat) (s : Sys W Rd) : Prop := hooks s = k.

(** The ceiling rule on a sequence of readings of one channel. *)
Definition ceil_loop (ch : channel Rd) (d : Daemon) (pss : list (list Part)) : MS (channel Rd) :=
  foldM (fun ch ps => applyCeiling (ch <| ch_parts := ps |>) d) ch pss.

(** The emergency is due on [ch], apart from the check of the hook file. *)
Definition fires (d : Daemon) (ch : channel Rd) : bool :=
  negb (ch_emergencyFired ch || negb (d_Emergency d) || (d_EmergencyCycles d <=? 0)) && emergency_due ch d.
Definition after_fire (d : Daemon) (ch : channel Rd) : channel Rd :=
  if fires d ch then ch <| ch_emergencyFired := true |> else ch.

Lemma hooked_emit e k : is_hook e = false -> preserves (hooked k) (emit e : MS unit).
Proof. intros He s Hs. unfold hooked, hooks, emit, modify in *. cbn. by rewrite He. Qed.
Lemma hooked_modc f k : preserves (hooked k) (modc f : MS unit).
Proof. by intros s. Qed.
Lemma hooked_lift {A} (m : M W A) k : preserves (hooked k) (lift m : MS A).
Proof. intros s Hs. unfold lift. by destruct (m (s_w s)). Qed.
Lemma hooked_raise kind msg k : preserves (hooked k) (raise kind msg : MS unit).
Proof.
  unfold raise. prs; solve [apply hooked_lift|apply hooked_modc|by apply hooked_emit|by intros s].
Qed.
Lemma hook_started name cycles job (ch : channel Rd) (s : Sys W Rd) :
  hooks (snd ((emit (EvHook name cycles) ;;;
    let* c := getc in
    (if o_SyncAlerts (k_opts c) then run_hook job
     else modc (fun c => c <| k_jobs := k_jobs c ++ [job] |>)) ;;; ret ch) s)) = (hooks s + 1)%nat.
Proof.
  assert (Hp : preserves (hooked (hooks s + 1)) (let* c := getc in
    (if o_SyncAlerts (k_opts c) then run_hook job
     else modc (fun c => c <| k_jobs := k_jobs c ++ [job] |>)) ;;; ret ch : MS _)).
  { apply preserves_bind; [by intros s'|]. intros c. apply preserves_bind; [|intros _; apply preserves_ret].
    case_match; [|apply hooked_modc]. unfold run_hook. apply preserves_bind; [apply hooked_lift|].
    intros res. apply hooked_raise. }
  apply Hp. unfold hooked, hooks. cbn. lia.
Qed.

(** One hook is started when the emergency fires and the file passes the check. *)
Lemma emergency_hooks ch d (s : Sys W Rd) :
  hooks (snd (emergency ch d s)) =
    (hooks s + (if fires d ch && fst (host_HookCheck (s_w s)) then 1 else 0))%nat.
Proof.
  unfold emergency, fires. destruct (_ || _ || _)%bool; cbn [negb andb]; [cbn; lia|].
  destruct (emergency_due ch d); cbn [negb andb]; [|cbn; lia]. cbv zeta.
  unfold bind at 1, lift at 1. destruct (host_HookCheck (s_w s)) as [ok w]. cbn [fst].
  destruct ok; cbn [negb]; [|cbn; unfold hooks; cbn; lia].
  match goal with |- context [if String.eqb ?a ?b then ?x else ?y] =>
    destruct (if String.eqb a b then x else y) as [[part temp] ceil] end.
  rewrite hook_started. done.
Qed.

Definition ceil_entry (d : Daemon) (ch : channel Rd) : channel Rd :=
  ceil_result (d <| d_Emergency := false |>) ch.

Lemma ceil_result_entry d ch :
  ceil_result d ch = if ch_ceilHit (ceil_entry d ch) then after_fire d (ceil_entry d ch) else ceil_entry d ch.
Proof.
  unfold ceil_entry, ceil_result. cbv zeta. set (h := hottestPart ch).
  set (ch1 := if ho_found h then _ else ch).
  set (ch2 := if (negb (ch_ceilHit ch1) && ho_found h)%bool then _ else _). clearbody ch2. clear h ch1.
  destruct (ch_ceilHit ch2) eqn:E; cbn [negb]; [|by rewrite E].
  change (d_Emergency (d <| d_Emergency := false |>)) with false.
  change (d_EmergencyCycles (d <| d_Emergency := false |>)) with (d_EmergencyCycles d).
  cbn [negb]. rewrite orb_true_r. cbn [orb].
  set (ch3 := ch2 <| ch_target := 255 |> <| ch_mode := ModeCritical |> <| ch_holding := false |>
                  <| ch_ceilCycles := ch_ceilCycles ch2 + 1 |>).
  assert (E3 : ch_ceilHit ch3 = true) by (destruct ch2; exact E).
  rewrite E3. clearbody ch3. unfold after_fire, fires. by destruct (_ || _ || _)%bool, (emergency_due ch3 d).
Qed.

(** The hooks a step of the episode starts. *)
Lemma applyCeiling_hooks ch d (s : Sys W Rd) : exists ok : bool,
  ((forall w, fst (host_HookCheck w) = true) -> ok = true) /\
  hooks (snd (applyCeiling ch d s)) =
    (hooks s + (if ch_ceilHit (ceil_entry d ch) && fires d (ceil_entry d ch) && ok then 1 else 0))%nat.
Proof.
  set (mid := fun h (ch : channel Rd) => if (negb (ch_ceilHit ch) && ho_found h)%bool then
      raise "ceiling" (AlCeiling (cc_Name (ch_cfg ch)) (pt_ID (ho_part h)) (pt_Value (ho_part h))
                         (ho_ceil h) (cc_Critical (ch_cfg ch))) ;;;
      ret (ch <| ch_ceilHit := true |> <| ch_ceilCycles := 0 |>)
    else if (ch_ceilHit ch && ho_allBelow h)%bool then
      ret (ch <| ch_ceilHit := false |> <| ch_ceilCycles := 0 |> <| ch_emergencyFired := false |>)
    else ret ch : MS (channel Rd)).
  assert (Hmid : forall h ch s, hooks (snd (mid h ch s)) = hooks s).
  { intros h c0 s0. unfold mid. case_match; [|by case_match]. unfold bind.
    pose proof (hooked_raise "ceiling" (AlCeiling (cc_Name (ch_cfg c0)) (pt_ID (ho_part h))
      (pt_Value (ho_part h)) (ho_ceil h) (cc_Critical (ch_cfg c0))) _ s0 eq_refl) as Hr.
    by destruct (raise _ _ s0). }
  unfold applyCeiling. cbv zeta. set (h := hottestPart ch). set (ch1 := if ho_found h then _ else ch).
  fold (mid h ch1). unfold bind at 1. specialize (Hmid h ch1 s).
  assert (Hret : fst (mid h ch1 s) = if (negb (ch_ceilHit ch1) && ho_found h)%bool
            then ch1 <| ch_ceilHit := true |> <| ch_ceilCycles := 0 |>
            else if (ch_ceilHit ch1 && ho_allBelow h)%bool
            then ch1 <| ch_ceilHit := false |> <| ch_ceilCycles := 0 |> <| ch_emergencyFired := false |>
            else ch1).
  { unfold mid, bind. case_match; [by destruct (raise _ _ s)|by case_match]. }
  destruct (mid h ch1 s) as [ch2 s2]. cbn [fst snd] in Hmid, Hret.
  unfold ceil_entry, ceil_result. cbv zeta. fold h ch1. rewrite <- Hret. clear Hret mid.
  destruct (ch_ceilHit ch2) eqn:Ehit; cbn [negb].
  - exists (fst (host_HookCheck (s_w s2))). split; [by intros ->|]. rewrite emergency_hooks, Hmid.
    cbn. rewrite orb_true_r. cbn. by rewrite Ehit.
  - exists true. split; [done|]. rewrite Ehit. cbn. lia.
Qed.

Lemma ceil_entry_counts d ch : ch_ceilHit (ceil_entry d ch) = true ->
  ch_ceilCycles (ceil_entry d ch) = (if ch_ceilHit ch then ch_ceilCycles ch else 0) + 1 /\
  ch_emergencyFired (ceil_entry d ch) = ch_emergencyFired ch.
Proof.
  unfold ceil_entry, ceil_result. cbv zeta. generalize (hottestPart ch). intros h.
  change (d_Emergency (d <| d_Emergency := false |>)) with false. cbn [negb]. rewrite orb_true_r. cbn [orb].
  destruct ch, ch_ceilHit, (ho_found h), (ho_allBelow h); cbn; try done; by repeat case_match.
Qed.

(** Where an episode stands after [k] cycles, having started [n] hooks. *)
Definition episode_at (d : Daemon) (k : Z) (n : nat) (ch : channel Rd) : Prop :=
  ch_ceilHit ch = true /\ ch_ceilCycles ch = k /\ (n <= Nat.b2n (ch_emergencyFired ch))%nat /\
  ((forall w, fst (host_HookCheck w) = true) -> n = Nat.b2n (ch_emergencyFired ch)) /\
  (ch_emergencyFired ch = true -> d_Emergency d = true /\ 0 < d_EmergencyCycles d <= k) /\
  (d_Emergency d = true -> 0 < d_EmergencyCycles d -> 3 * d_EmergencyCycles d <= k ->
   ch_emergencyFired ch = true).

(** The cycle before the first one of an episode. *)
Definition episode_before (ch : channel Rd) : Prop :=
  ch_ceilHit ch = false /\ ch_emergencyFired ch = false.

Lemma episode_next d k n ch ps (s : Sys W Rd) : 0 <= k ->
  (episode_at d k n ch /\ cool_parts ch ps = false) \/ (k = 0 /\ n = 0%nat /\ episode_before ch /\ hot_parts ch ps = true) ->
  let r := applyCeiling (ch <| ch_parts := ps |>) d s in
  exists n', episode_at d (k + 1) n' r.1 /\ (hooks r.2 + n = hooks s + n')%nat /\
    cool_parts r.1 = cool_parts ch.
Proof.
  intros Hk Hst. cbv zeta. set (chp := ch <| ch_parts := ps |>).
  pose proof (applyCeiling_returns (W := W) chp d s) as Hret. destruct (applyCeiling_hooks chp d s) as (ok & Hok & Hhooks).
  rewrite Hret. pose proof (ceil_step_hit d ch ps) as [Hhit _].
  assert (Hcool : cool_parts (ceil_result d chp) = cool_parts ch).
  { unfold cool_parts, partCeiling. destruct (ceil_step_limits d ch ps) as [E1 E2].
    unfold ceil_step in E1, E2. fold chp in E1, E2. by rewrite E1, E2. }
  rewrite Hcool. unfold ceil_step in Hhit. fold chp in Hhit.
  assert (Hin : ch_ceilHit (ceil_result d chp) = true).
  { rewrite Hhit. destruct Hst as [[(-> & _) ->]|(_ & _ & _ & ->)]; [by rewrite orb_true_r|done]. }
  clear Hhit. rewrite ceil_result_entry in Hin |- *.
  assert (Hent : ch_ceilHit (ceil_entry d chp) = true).
  { destruct (ch_ceilHit (ceil_entry d chp)) eqn:E; [done|congruence]. }
  destruct (ceil_entry_counts d chp Hent) as [Hcyc Hfired]. rewrite Hent in *. cbn [andb] in Hhooks.
  change (ch_ceilHit chp) with (ch_ceilHit ch) in Hcyc. change (ch_ceilCycles chp) with (ch_ceilCycles ch) in Hcyc.
  change (ch_emergencyFired chp) with (ch_emergencyFired ch) in Hfired.
  assert (Hpre : ch_ceilCycles (ceil_entry d chp) = k + 1 /\ (n <= Nat.b2n (ch_emergencyFired ch))%nat /\
    ((forall w, fst (host_HookCheck w) = true) -> n = Nat.b2n (ch_emergencyFired ch)) /\
    (ch_emergencyFired ch = true -> d_Emergency d = true /\ 0 < d_EmergencyCycles d <= k)).
  { destruct Hst as [[(Eh & Ec & E1 & E2 & E3 & _) _]|(-> & -> & [Eh Ef] & _)].
    - rewrite Eh in Hcyc. split_and!; try done; lia.
    - rewrite Eh in Hcyc. rewrite Ef. split_and!; try done; lia. }
  clear Hst Hret Hin Hcool. revert Hent Hcyc Hfired Hpre Hhooks.
  generalize (ceil_entry d chp). intros ent Hent Hcyc Hfired (Hc & Hn & Hnok & Hf) Hhooks.
  exists (n + (if (fires d ent && ok)%bool then 1 else 0))%nat. split; [|split; [lia|done]].
  unfold episode_at, after_fire. destruct (fires d ent) eqn:Ef; cbn [andb].
  - unfold fires, emergency_due in Ef. apply andb_true_iff in Ef as [E1 E2].
    apply negb_true_iff in E1. split_bools. destruct (d_Emergency d); [|done].
    rewrite Hfired in *. match goal with H : ch_emergencyFired ch = false |- _ => rewrite H in * end.
    destruct ent; cbn in *; subst. split_and!; try done.
    + destruct ok; cbn; lia.
    + intros Hw. rewrite (Hok Hw). specialize (Hnok Hw). cbn in *. lia.
    + split; [done|]. rewrite Hc in E2. apply orb_true_iff in E2 as [E2|E2]; split_bools; lia.
  - rewrite Nat.add_0_r, Hfired. split_and!; try done; try lia.
    + intros Hx. destruct (Hf Hx) as [? ?]. split; [done|lia].
    + intros He Hpos Hge. unfold fires, emergency_due in Ef. rewrite He in Ef. cbn in Ef.
      assert ((3 * d_EmergencyCycles d <=? ch_ceilCycles ent) = true) as E2 by lia. rewrite E2, orb_true_r in Ef.
      assert ((d_EmergencyCycles d <=? 0) = false) as E3 by lia. rewrite E3, andb_true_r, orb_false_r in Ef.
      apply negb_false_iff in Ef. rewrite orb_false_r in Ef. by rewrite <- Hfired.
Qed.

Lemma episode_loop d pss : forall k n ch (s : Sys W Rd), 0 <= k -> episode_at d k n ch ->
  Forall (fun ps => cool_parts ch ps = false) pss ->
  let r := ceil_loop ch d pss s in
  exists n', episode_at d (k + Z.of_nat (length pss)) n' r.1 /\ (hooks r.2 + n = hooks s + n')%nat.
Proof.
  induction pss as [|ps pss IH]; intros k n ch s Hk Hat Hcool.
  - exists n. cbn. rewrite Z.add_0_r. split; [done|lia].
  - inversion_clear Hcool as [|? ? Hc Hcs]. cbv zeta. unfold ceil_loop. cbn [foldM]. unfold bind.
    destruct (episode_next d k n ch ps s Hk) as (n1 & Hat1 & Hh1 & Hc1); [by left|].
    destruct (applyCeiling _ d s) as [ch1 s1]. cbn [fst snd] in *. fold (ceil_loop ch1 d pss).
    destruct (IH (k + 1) n1 ch1 s1) as (n2 & Hat2 & Hh2); [lia|done|by rewrite Hc1|].
    exists n2. replace (k + Z.of_nat (length (ps :: pss))) with (k + 1 + Z.of_nat (length pss)) by (cbn [length]; lia).
    split; [done|]. cbn zeta in *. lia.
Qed.
End Hook.

(** C22: the emergency hook runs once per ceiling episode.  In an episode that begins with
    a part at its limit and goes on, cycle after cycle, without every part
    cooling down, whatever the clock, the alerts and the hook file do: the hook is
    started at most once; not at all when the emergency is disabled or before
    emergency_cycles cycles; and, when the hook file passes its check, exactly once
    as soon as three times emergency_cycles cycles have gone by. *)
Theorem emergency_once {W Rd} `{Host W} d (ch : channel Rd) ps pss (s : Sys W Rd) :
  ch_ceilHit ch = false -> ch_emergencyFired ch = false -> hot_parts ch ps = true ->
  Forall (fun qs => cool_parts ch qs = false) pss ->
  let r := ceil_loop ch d (ps :: pss) s in
  let cycles := Z.of_nat (length (ps :: pss)) in
  (hooks r.2 <= hooks s + 1)%nat /\
  (d_Emergency d = false \/ cycles < d_EmergencyCycles d -> hooks r.2 = hooks s) /\
  ((forall w, fst (host_HookCheck w) = true) -> d_Emergency d = true -> 0 < d_EmergencyCycles d ->
   3 * d_EmergencyCycles d <= cycles -> hooks r.2 = (hooks s + 1)%nat).
Proof.
  intros Hhit Hfired Hhot Hcool. cbv zeta. unfold ceil_loop. cbn [foldM]. unfold bind.
  destruct (episode_next d 0 0 ch ps s) as (n1 & Hat1 & Hh1 & Hc1); [lia|by right|].
  destruct (applyCeiling _ d s) as [ch1 s1]. cbn [fst snd] in *. fold (ceil_loop ch1 d pss).
  destruct (episode_loop d pss (0 + 1) n1 ch1 s1) as (n & (_ & _ & Hn & Hok & Hf & Hdue) & Hh); [lia|done|by rewrite Hc1|].
  cbn zeta in Hh. cbn [length].
  replace (0 + 1 + Z.of_nat (length pss)) with (Z.of_nat (S (length pss))) in * by lia.
  destruct (ch_emergencyFired (ceil_loop ch1 d pss s1).1) eqn:E; cbn in Hn, Hok.
  - destruct (Hf eq_refl) as [He [Hpos Hle]]. split; [lia|]. split.
    + intros [?|?]; [congruence|lia].
    + intros Hw _ _ _. specialize (Hok Hw). lia.
  - split; [lia|]. split; [intros _; lia|]. intros _ He Hpos Hge. by specialize (Hdue He Hpos Hge).
Qed.

(** Seven cycles at the ceiling with emergency_cycles = 2: one hook, not two. *)
Lemma emergency_once_witness :
  let d := DefaultDaemon <| d_Emergency := true |> <| d_EmergencyCycles := 2 |> in
  let hot := [mkPart "k10temp" 101000] in
  let s := Demo.started (Demo.world 50000 35000) in
  hooks (snd (ceil_loop demo_channel d (repeat hot 7) s)) = (hooks s + 1)%nat.
Proof.
  intros d hot s.
  apply (emergency_once d demo_channel hot (repeat hot 6) s); try by vm_compute.
  repeat constructor; by vm_compute.
Defined.
