(* ===== verification/ControlLost.v ===== *)
(** A device that stops taking writes is given up: the loop ends with ErrDeviceLost
    within a bounded number of cycles (writeAndFinish and noteFailsafe in
    src/internal/control/controller.go). *)
From stdpp Require Import base gmap strings list relations.
From Stdlib Require Import ZArith QArith Lia.
From S2P Require Import Prelude GoLib ConfigTypes Curve Ceiling History Sanitize ControlTypes ControlAlert ControlSense ControlTarget ControlWrite ControlApi ControlDemo ControlFrame ControlStep ControlPhase ControlSafety ControlBounds ControlLoop ControlReach.
Open Scope Z_scope.

Section Lost.
Context {W Rd : Type} `{Device W} `{Sensors W Rd} `{Host W}.
Local Abbreviation MS := (M (Sys W Rd)).

(** ** What the decisions leave alone *)
Definition counts (c : Controller Rd) : Z * Z * Z := (k_n c, k_wrErr c, k_fsFail c).
Definition curs (c : Controller Rd) : list Z := map ch_cur (k_chans c).
#[local] Instance counts_quiet : Quietly counts.
Proof. done. Qed.
#[local] Instance curs_quiet : Quietly curs.
Proof. done. Qed.

Lemma keeps_goes {A} R (m : MS A) : goes always R m -> (forall a b, R a b -> ch_cur b = ch_cur a) ->
  keeps curs m.
Proof.
  intros Hm HR s. destruct (Hm s Logic.I) as [_ HF]. unfold curs.
  induction HF as [|a b l l' Hab _ IH]; [done|]. cbn. by rewrite IH, (HR a b Hab).
Qed.

Lemma same_read_cur (a b : channel Rd) : same_read a b -> ch_cur b = ch_cur a.
Proof. by intros (_ & _ & _ & _ & ? & _)%read_core_fields. Qed.

Lemma apply_one_cur now (p : channel Rd * @chanUpdate Rd) : ch_cur (apply_one now p) = ch_cur p.1.
Proof.
  destruct p as [ch up]. unfold apply_one, retime_one, swap_one. cbn [fst snd].
  destruct (up_sensor up), ch; cbn; by repeat case_match.
Qed.

Lemma curs_applyPending : keeps curs (applyPendingLocked : MS _).
Proof.
  unfold applyPendingLocked. intros s. unfold bind at 1. cbn [getc gets fst snd].
  destruct (k_pending (s_c s)) as [cfg|]; [|done].
  unfold bind at 1. cbn [modc modify fst snd].
  set (s0 := mkSys _ (s_w s) (s_ev s)). assert (E0 : k_chans (s_c s0) = k_chans (s_c s)) by done.
  unfold bind at 1. pose proof (yields_mapM (S := Sys W Rd) (fun _ _ => True) (prepare_update cfg) (k_chans (s_c s))
    ltac:(intros; apply yields_true) s0) as Hlen%Forall2_length.
  pose proof (quiet_mapM (prepare_update cfg) (k_chans (s_c s)) ltac:(intros; apply quiet_prepare_update) s0) as [Hq _].
  destruct (mapM (prepare_update cfg) (k_chans (s_c s)) s0) as [ups s1]. cbn [fst snd] in *.
  apply lcore_core in Hq as [_ Hq]. unfold bind at 1.
  pose proof (quiet_lift (W := W) (Rd := Rd) host_now s1) as [Hq2 _]. apply lcore_core in Hq2 as [_ Hq2].
  destruct (lift host_now s1) as [now s2]. cbn [fst snd] in *. cbv zeta. unfold bind at 1.
  cbn [modc modify fst snd].
  match goal with |- curs (s_c (snd (?m ?s3))) = _ => enough (keeps curs m) as Hk; [rewrite (Hk s3)|kp] end.
  unfold curs. cbn. rewrite Hq2, Hq, E0, map_map. clear -Hlen. revert ups Hlen.
  induction (k_chans (s_c s)) as [|ch l IH]; intros [|up ups] Hl; try done.
  cbn. rewrite apply_one_cur. cbn. by rewrite IH by (cbn in Hl; lia).
Qed.

Lemma curs_computeTargets cs : keeps curs (computeTargets cs : MS _).
Proof.
  unfold computeTargets. apply keeps_bind; [apply keeps_quiet; [exact _|qt]|]. intros now.
  apply keeps_bind; [|intros; apply keeps_quiet; [exact _|qt]].
  apply (keeps_goes (fun ch ch' => ch' = compute_result (cy_d cs) (cy_ovr cs) now ch)).
  - apply goes_for_chans; [exact fixed_always|qt|]. intros ch. apply compute_one_returns.
  - intros a b ->. unfold compute_result. destruct (ch_tempOK a); cbn [negb]; [|by destruct a].
    pose proof (ceil_result_keeps (cy_d cs) (base_target (cy_ovr cs) now a)) as (_ & _ & _ & _ & _ & Kd).
    rewrite Kd. by destruct (base_target_keeps (cy_ovr cs) now a) as (_ & _ & _ & _ & _ & _ & ?).
Qed.

Lemma curs_checkStall cs : keeps curs (checkStall cs : MS _).
Proof.
  apply (keeps_goes (fun ch ch' => ch' = stall_result (cy_d cs) ch)).
  - apply goes_for_chans; [exact fixed_always|qt|]. intros ch. apply stall_one_returns.
  - intros a b ->. apply stall_result_keeps.
Qed.

Lemma curs_decide : keeps curs (cycle_decide : MS _).
Proof.
  unfold cycle_decide. apply keeps_bind; [apply keeps_quiet; [exact _|qt]|]. intros _.
  apply keeps_bind; [apply curs_applyPending|]. intros _.
  apply keeps_bind; [by intros s|]. intros c.
  apply keeps_bind; [destruct (k_watchDirty c); kp|]. intros _.
  apply keeps_bind; [by intros s|]. intros c'. cbv zeta.
  apply keeps_bind; [case_match; [|by intros s];
    apply (keeps_goes same_read); [eapply goes_mono; [apply (goes_reresolve always fixed_always)|by intros a b (? & _)]
                                 |apply same_read_cur]|]. intros _.
  apply keeps_bind; [apply (keeps_goes same_read); [apply goes_readSensors|apply same_read_cur]|]. intros cs.
  apply keeps_bind; [apply curs_computeTargets|]. intros _.
  apply keeps_bind; [apply curs_checkStall|]. intros _. by intros s.
Qed.

Lemma counts_decide : keeps counts (cycle_decide : MS _).
Proof.
  unfold cycle_decide, applyPendingLocked, readSensors, stale_check, readWatched, readRPMs, computeTargets,
    checkStall, reresolve.
  kp.
Qed.

Lemma readSensors_n cs : yields (S := Sys W Rd) (fun cs' => cy_n cs' = cy_n cs) (readSensors cs).
Proof.
  unfold readSensors. do 5 (apply yields_bind'; intros ?). cbv zeta.
  do 4 (apply yields_bind'; intros ?). by apply yields_ret.
Qed.

(** The cycle number the writes see is the counter. *)
Lemma decide_n (s : Sys W Rd) : cy_n (fst (cycle_decide s)) = k_n (s_c s).
Proof.
  set (begin := lift host_Notify ;;; applyPendingLocked ;;;
    let* c := getc in
    (if k_watchDirty c
     then let* ws := buildWatched (c_Sensors (k_cfg c)) in
          modc (fun c => c <| k_watched := ws |> <| k_watchDirty := false |>)
     else ret tt) : MS unit).
  assert (Hb : keeps counts begin) by (unfold begin, applyPendingLocked; kp).
  specialize (Hb s). unfold begin, bind in Hb. clear begin.
  unfold cycle_decide, bind at 1. destruct (lift host_Notify s) as [[] s1].
  unfold bind at 1. destruct (applyPendingLocked s1) as [[] s2].
  unfold bind at 1. cbn [getc gets fst snd] in *. unfold bind at 1.
  match type of Hb with counts (s_c (snd (?m s2))) = _ =>
    match goal with |- context [if k_watchDirty (s_c s2) then ?f else ?g] =>
      change ((if k_watchDirty (s_c s2) then f else g) s2) with (m s2) end;
    destruct (m s2) as [[] s3] end.
  cbn [fst snd] in Hb. injection Hb as <- _ _. unfold bind at 1. cbn [getc gets fst snd].
  set (cs := mkCycle _ _ _ _ _ _). change (k_n (s_c s3)) with (cy_n cs) at 3.
  assert (Hy : yields (S := Sys W Rd) (fun r => cy_n r = cy_n cs)
    ((if (0 <? k_n (s_c s3)) && (k_n (s_c s3) mod resolveEvery =? 0) then reresolve else ret tt) ;;;
     let* cs := readSensors cs in computeTargets cs ;;; checkStall cs ;;; ret cs)).
  { apply yields_bind'. intros _. eapply yields_bind; [apply readSensors_n|]. intros cs' Hcs'.
    do 2 (apply yields_bind'; intros _). by apply yields_ret. }
  apply Hy.
Qed.

(** A loop of stable bodies in a state where [C] holds. *)
Lemma mapM_when {A B} (C : Controller Rd -> Prop) (R : A -> B -> Prop) (f : A -> MS B) l (s : Sys W Rd) :
  fixed C -> (forall a, stable (f a)) -> (forall a (s : Sys W Rd), C (s_c s) -> R a (fst (f a s))) ->
  C (s_c s) -> Forall2 R l (fst (mapM f l s)) /\ core (s_c (snd (mapM f l s))) = core (s_c s).
Proof.
  intros HC Hst HR. revert s. induction l as [|a l IH]; intros s Hs; cbn [mapM]; [by split; [constructor|]|].
  unfold bind. pose proof (Hst a s) as Hc. pose proof (HR a s Hs) as Ha. destruct (f a s) as [b s1]. cbn in Hc, Ha.
  destruct (IH s1) as [Hl Hc']; [eapply HC; [by apply lcore_core|done]|].
  destruct (mapM f l s1) as [bs s2]. cbn in *. split; [by constructor|congruence].
Qed.

(** ** What the writing half leaves alone *)
#[local] Instance flags_quiet : Quietly (@run_flags Rd).
Proof. done. Qed.

#[local] Instance length_quiet : Quietly (fun c : Controller Rd => length (k_chans c)).
Proof. done. Qed.

Lemma keeps_write_one {T} (proj : Controller Rd -> T) `{!Quietly proj} d n ch :
  keeps proj (write_one d n ch : MS _).
Proof. apply keeps_stable; [exact _|apply stable_write_one]. Qed.
Lemma keeps_failsafe_one {T} (proj : Controller Rd -> T) `{!Quietly proj} mode ch :
  keeps proj (failsafe_one mode ch : MS _).
Proof. apply keeps_stable; [exact _|apply stable_failsafe_one]. Qed.
Hint Extern 1 (keeps _ (write_one _ _ _)) => apply keeps_write_one; exact _ : keeps.
Hint Extern 1 (keeps _ (failsafe_one _ _)) => apply keeps_failsafe_one; exact _ : keeps.

Lemma counts_writePhase d n : keeps counts (writePhase d n : MS _).
Proof. unfold writePhase, checkRegisters. kp. Qed.
Lemma counts_failsafeAll mode : keeps counts (failsafeAll mode : MS _).
Proof. unfold failsafeAll. kp. Qed.
Lemma counts_reresolve : keeps counts (reresolve : MS _).
Proof. unfold reresolve. kp. Qed.
Lemma counts_saveHistory : keeps counts (saveHistory : MS _).
Proof. unfold saveHistory. kp. Qed.
Lemma curs_saveHistory : keeps curs (saveHistory : MS _).
Proof. unfold saveHistory. kp. Qed.
Lemma flags_saveHistory : keeps run_flags (saveHistory : MS _).
Proof. unfold saveHistory. kp. Qed.
Lemma flags_errors werr wrote : keeps run_flags (handle_errors werr wrote : MS _).
Proof. unfold handle_errors, note_write_errors, note_writes_ok, noteFailsafe, failsafeAll, reresolve. kp. Qed.
Lemma flags_publish cs werr : keeps run_flags (publish cs werr : MS _).
Proof. unfold publish, finishCycle. kp. Qed.
Lemma flags_writePhase d n : keeps run_flags (writePhase d n : MS _).
Proof. unfold writePhase, checkRegisters. kp. Qed.

Lemma curs_publish cs werr : keeps curs (publish cs werr : MS _).
Proof. unfold publish, finishCycle. kp. Qed.
Lemma counts_publish cs werr (s : Sys W Rd) :
  counts (s_c (snd (publish cs werr s))) = (k_n (s_c s) + 1, k_wrErr (s_c s), k_fsFail (s_c s)).
Proof.
  unfold publish, finishCycle. rewrite bind_getc. cbv zeta. rewrite bind_getc, bind_run, bind_getc.
  pose proof (keeps_quiet counts (lift host_now : MS _) ltac:(qt) s) as Hq.
  destruct (lift host_now s) as [now s1]. cbn [fst snd] in *. rewrite bind_run.
  match goal with |- context [writeState ?x] => set (sn := x) end.
  set (s2 := snd (modc _ s1)). assert (Hc : counts (s_c s2) = counts (s_c s1)) by done. clearbody s2.
  rewrite bind_run. pose proof (keeps_quiet counts (writeState sn : MS _) ltac:(qt) s2) as Hq2.
  destruct (writeState sn s2) as [[] s3]. cbn [fst snd] in *. rewrite bind_run.
  set (s4 := snd (modc _ s3)).
  assert (Hc4 : counts (s_c s4) = (k_n (s_c s3) + 1, k_wrErr (s_c s3), k_fsFail (s_c s3))) by done. clearbody s4.
  match goal with |- counts (s_c (snd (?m s4))) = _ => rewrite (keeps_quiet counts m ltac:(qt) s4) end.
  rewrite Hc4. clearbody sn. clear Hc4. unfold counts in *. congruence.
Qed.

Lemma live_flags (c c' : Controller Rd) : run_flags c' = run_flags c -> live c -> live c'.
Proof. unfold run_flags, live. by intros [= -> ->]. Qed.
Lemma curs_nonempty (c c' : Controller Rd) : length (k_chans c') = length (k_chans c) ->
  k_chans c <> [] -> k_chans c' <> [].
Proof. by destruct (k_chans c), (k_chans c'). Qed.
Lemma curs_length (c c' : Controller Rd) : curs c' = curs c -> length (k_chans c') = length (k_chans c).
Proof. intros Hc. unfold curs in Hc. by rewrite <- (length_map ch_cur), Hc, length_map. Qed.
Lemma goes_length {A} C R (m : MS A) (s : Sys W Rd) : goes C R m -> C (s_c s) ->
  length (k_chans (s_c (snd (m s)))) = length (k_chans (s_c s)).
Proof. intros Hm Hs. destruct (Hm s Hs) as [_ HF]. symmetry. by eapply Forall2_length. Qed.

(** ** A device that takes no duty *)
Section Dead.
Hypothesis dead : forall pwm duty w, exists e,
  fst (dev_WriteDuty pwm duty w) = Some e /\ errors_Is e ErrDCRMismatch = false.

Lemma write_dead ch duty n (s : Sys W Rd) : live (s_c s) ->
  exists e, fst (write ch duty n s) = (ch, Some e).
Proof using dead.
  intros [Hdry _]. unfold write. rewrite bind_getc, Hdry.
  match goal with |- context [fst (?m s)] =>
    enough (yields (S := Sys W Rd) (fun r => exists e, r = (ch, Some e)) m) as Hy by apply Hy end.
  apply yields_bind'. intros _.
  eapply (yields_bind (fun e => exists x, e = Some x /\ errors_Is x ErrDCRMismatch = false)).
  - intros s'. unfold dev_write, bind, lift. destruct (dead (cc_PWM (ch_cfg ch)) duty (s_w s')) as (e & He & Hd).
    destruct (dev_WriteDuty _ _ _) as [e' w']. cbn in *. eauto.
  - intros e (x & -> & Hx). unfold dcrDeviation. rewrite Hx. cbn [negb].
    apply (yields_bind (fun e => e = Some x)); [by apply yields_ret|]. intros ? ->. apply yields_ret. eauto.
Qed.

(** The channel is written in cycle [n]. *)
Definition attempts d n (ch : channel Rd) : bool :=
  negb (next_duty d n ch =? ch_cur ch) || (n mod rewriteEvery =? 0).

Lemma write_one_dead d n ch (s : Sys W Rd) : live (s_c s) ->
  (fst (write_one d n ch s)).2 = (attempts d n ch, false) /\
  (attempts d n ch = true -> ch_cur (fst (write_one d n ch s)).1 = -1).
Proof using dead.
  intros Hl. pose proof Hl as [Hdry _]. unfold write_one, attempts. rewrite bind_getc, Hdry.
  cbv zeta. destruct (_ || _)%bool; [|done]. unfold bind.
  destruct (write_dead ch (next_duty d n ch) n s Hl) as [e He].
  destruct (write ch (next_duty d n ch) n s) as [r s1]. cbn in He. by subst r.
Qed.

Lemma failsafe_one_dead mode ch (s : Sys W Rd) : live (s_c s) ->
  (fst (failsafe_one mode ch s)).2 = false /\ ch_cur (fst (failsafe_one mode ch s)).1 = -1.
Proof using dead.
  intros Hl. unfold failsafe_one. rewrite bind_getc. cbv zeta. unfold bind.
  destruct (write_dead (ch <| ch_mode := mode |> <| ch_target := 255 |>) 255 (k_n (s_c s)) s Hl) as [e He].
  destruct (write _ 255 _ s) as [r s1]. cbn in He. by subst r.
Qed.

(** Some channel's last write failed. *)
Definition armed (c : Controller Rd) : bool := existsb (Z.eqb (-1)) (curs c).

Lemma attempts_core d n (ch ch' : channel Rd) : write_core ch' = write_core ch -> ch_cur ch' = ch_cur ch ->
  attempts d n ch' = attempts d n ch.
Proof. intros Hw Hc. unfold attempts. by rewrite (next_duty_core d n ch ch'), Hc. Qed.

Lemma writePhase_dead d n (s : Sys W Rd) : live (s_c s) ->
  let r := writePhase d n s in
  fst r = (existsb (attempts d n) (k_chans (s_c s)), false) /\
  (existsb (attempts d n) (k_chans (s_c s)) = true -> armed (s_c (snd r)) = true).
Proof using dead.
  intros Hl. pose proof Hl as [Hdry Hst]. unfold writePhase. cbv zeta. rewrite bind_getc, Hst, bind_run.
  pose proof (goes_checkRegisters s Logic.I) as [Hlc HF].
  destruct (checkRegisters s) as [[] s1]. cbn [fst snd] in *.
  assert (Hl1 : live (s_c s1)) by exact (fixed_live _ _ Hlc Hl).
  assert (Hatt : existsb (attempts d n) (k_chans (s_c s1)) = existsb (attempts d n) (k_chans (s_c s))).
  { clear Hlc. induction HF as [|a b l l' [Hw Hc] _ IH]; [done|]. cbn. by rewrite IH, (attempts_core d n a b). }
  rewrite <- Hatt, bind_getc, bind_run.
  destruct (mapM_when live (fun ch r => r.2 = (attempts d n ch, false) /\ (attempts d n ch = true -> ch_cur r.1 = -1))
    (write_one d n) (k_chans (s_c s1)) s1 fixed_live (stable_write_one d n) ltac:(intros; by apply write_one_dead) Hl1)
    as [Hrs _].
  destruct (mapM (write_one d n) (k_chans (s_c s1)) s1) as [rs s2]. cbn [fst snd] in *.
  unfold bind, modc, modify, ret. cbn [fst snd s_c].
  clear -Hrs. split.
  - induction Hrs as [|ch r l rs [Hr _] _ IH]; [done|]. cbn. injection IH as <- ->. by rewrite Hr.
  - intros Ha. unfold armed, curs. cbn. rewrite !map_map. revert Ha.
    induction Hrs as [|ch r l rs [_ Hr] _ IH]; [done|]. cbn. intros [Ha|Ha]%orb_true_iff.
    + by rewrite (Hr Ha).
    + by rewrite IH, orb_true_r.
Qed.

Lemma failsafeAll_dead (s : Sys W Rd) : live (s_c s) -> k_chans (s_c s) <> [] ->
  fst (failsafeAll ModeFailsafe s) = true /\ armed (s_c (snd (failsafeAll ModeFailsafe s))) = true.
Proof using dead.
  intros Hl Hne. pose proof Hl as [_ Hst]. unfold failsafeAll. rewrite bind_getc, Hst. destruct (k_chans (s_c s)) as [|c0 cs]; [done|].
  destruct (mapM_when live (fun (ch : channel Rd) r => r.2 = false /\ ch_cur r.1 = -1)
    (failsafe_one ModeFailsafe) (c0 :: cs) s fixed_live (stable_failsafe_one ModeFailsafe)
    ltac:(intros; by apply failsafe_one_dead) Hl) as [Hrs _].
  unfold bind. destruct (mapM (failsafe_one ModeFailsafe) (c0 :: cs) s) as [rs s1]. cbn [fst snd] in *.
  unfold modc, modify, ret, armed, curs. cbn. clear -Hrs. inversion_clear Hrs as [|? r ? rs' [Hr Hc] Hl].
  cbn. rewrite Hr, Hc. cbn. split; [|done].
  assert (existsb snd rs' = false) as ->; [|done].
  induction Hl as [|? r' ? ? [Hr' _] _ IH]; [done|]. cbn. by rewrite Hr', IH.
Qed.

(** Counting a failed cycle, and the failsafe from the second one on. *)
Lemma errors_dead (s : Sys W Rd) : live (s_c s) -> k_chans (s_c s) <> [] ->
  let r := note_write_errors s in
  let c := s_c s in
  let c' := s_c (snd r) in
  (k_wrErr c + 1 < writeErrorsBeforeFailsafe /\ fst r = None /\
     counts c' = (k_n c, k_wrErr c + 1, k_fsFail c) /\ curs c' = curs c) \/
  (writeErrorsBeforeFailsafe <= k_wrErr c + 1 /\ fst r = (if k_fsFail c + 1 <? deviceLostCycles then None else Some ErrDeviceLost) /\
     counts c' = (k_n c, k_wrErr c + 1, k_fsFail c + 1) /\ armed c' = true).
Proof using dead.
  intros Hl Hne. cbv zeta. unfold note_write_errors. rewrite bind_run.
  set (s1 := snd (modc _ s)).
  assert (Hs1 : live (s_c s1) /\ k_chans (s_c s1) = k_chans (s_c s) /\
    counts (s_c s1) = (k_n (s_c s), k_wrErr (s_c s) + 1, k_fsFail (s_c s))) by done.
  clearbody s1. destruct Hs1 as (Hl1 & Hch1 & Hc1). rewrite bind_getc.
  assert (Hw : k_wrErr (s_c s1) = k_wrErr (s_c s) + 1) by (unfold counts in Hc1; congruence). rewrite Hw.
  destruct (k_wrErr (s_c s) + 1 <? writeErrorsBeforeFailsafe) eqn:E.
  - left. split; [lia|]. split; [done|]. split; [done|]. cbn. unfold curs. by rewrite Hch1.
  - right. split; [lia|]. rewrite bind_run.
    pose proof (keeps_quiet counts (raise "write" AlWrite : MS _) ltac:(qt) s1) as Hc2.
    pose proof (keeps_quiet run_flags (raise "write" AlWrite : MS _) ltac:(qt) s1) as Hf2.
    pose proof (keeps_quiet (fun c => length (k_chans c)) (raise "write" AlWrite : MS _) ltac:(qt) s1) as Hn2.
    destruct (raise "write" AlWrite s1) as [[] s2]. cbn [fst snd] in *. rewrite bind_run.
    pose proof (counts_reresolve s2) as Hc3.
    pose proof (goes_reresolve live fixed_live s2 (live_flags _ _ Hf2 Hl1)) as [Hlc HF3%Forall2_length].
    destruct (reresolve s2) as [[] s3]. cbn [fst snd] in *. rewrite bind_run.
    assert (Hl3 : live (s_c s3)) by exact (fixed_live _ _ Hlc (live_flags _ _ Hf2 Hl1)).
    destruct (failsafeAll_dead s3 Hl3) as [Hall Harm].
    { eapply curs_nonempty; [|rewrite <- Hch1 in Hne; exact Hne]. lia. }
    pose proof (counts_failsafeAll ModeFailsafe s3) as Hc4.
    destruct (failsafeAll ModeFailsafe s3) as [all s4]. cbn [fst snd] in *. subst all.
    unfold noteFailsafe. cbn [negb]. rewrite bind_run.
    set (s5 := snd (modc _ s4)).
    assert (Hs5 : curs (s_c s5) = curs (s_c s4) /\
      counts (s_c s5) = (k_n (s_c s4), k_wrErr (s_c s4), k_fsFail (s_c s4) + 1)) by done.
    clearbody s5. destruct Hs5 as (Hcu5 & Hc5). rewrite bind_getc.
    assert (Hcs : counts (s_c s5) = (k_n (s_c s), k_wrErr (s_c s) + 1, k_fsFail (s_c s) + 1)).
    { rewrite Hc5. unfold counts in *. congruence. }
    assert (Hf5 : k_fsFail (s_c s5) = k_fsFail (s_c s) + 1) by (unfold counts in Hcs; congruence).
    rewrite Hf5. destruct (_ <? deviceLostCycles); cbn [fst snd].
    + split; [done|]. cbn. split; [done|]. unfold armed in *. by rewrite Hcu5.
    + rewrite bind_run. cbn [ret fst snd].
      set (al := AlDevice _).
      rewrite (keeps_quiet counts (raise "device" al : MS _) ltac:(qt) s5). split; [done|]. split; [done|].
      unfold armed in *. by rewrite (keeps_quiet curs (raise "device" al : MS _) ltac:(qt) s5), Hcu5.
Qed.

(** ** The countdown *)
Definition dying (s : Sys W Rd) : Prop :=
  sys_ok s /\ live (s_c s) /\ k_chans (s_c s) <> [] /\ 0 <= k_wrErr (s_c s) /\ 0 <= k_fsFail (s_c s).
(** An upper bound of the cycles left. *)
Definition budget (c : Controller Rd) : Z :=
  if armed c then (if k_wrErr c =? 0 then 1 else 0) + Z.max 1 (deviceLostCycles - k_fsFail c)
  else 1 + deviceLostCycles + (- k_n c) mod rewriteEvery.

Lemma budget_pos c : 1 <= budget c.
Proof.
  unfold budget, deviceLostCycles, rewriteEvery. pose proof (Z.mod_pos_bound (- k_n c) 6). repeat case_match; lia.
Qed.

Lemma armed_attempts d n (c : Controller Rd) : ctl_ok c -> armed c = true ->
  existsb (attempts d n) (k_chans c) = true.
Proof.
  intros (_ & _ & Hf & _). unfold armed, curs. induction Hf as [|ch l (_ & _ & Ht & _) _ IH]; [done|].
  cbn [map existsb]. intros [Ha|Ha]%orb_true_iff.
  - assert (ch_cur ch = -1) as Hc by lia. unfold attempts, next_duty. rewrite Hc, andb_false_r.
    assert ((ch_target ch =? -1) = false) as -> by lia. done.
  - by rewrite (IH Ha), orb_true_r.
Qed.

Lemma idle_mod n : n mod rewriteEvery <> 0 -> 0 < (- n) mod rewriteEvery /\
  (- (n + 1)) mod rewriteEvery = (- n) mod rewriteEvery - 1.
Proof.
  unfold rewriteEvery. intros Hn. Z.div_mod_to_equations. lia.
Qed.

Lemma attempts_always d n (c : Controller Rd) : k_chans c <> [] ->
  existsb (attempts d n) (k_chans c) = false -> n mod rewriteEvery <> 0.
Proof.
  intros Hne He Hn. destruct (k_chans c) as [|ch l]; [done|]. cbn in He. unfold attempts in He at 1.
  apply Z.eqb_eq in Hn. by rewrite Hn, orb_true_r in He.
Qed.

Lemma cycle_dead (s : Sys W Rd) : dying s ->
  fst (cycle s) = Some ErrDeviceLost \/
  (fst (cycle s) = None /\ dying (snd (cycle s)) /\ budget (s_c (snd (cycle s))) <= budget (s_c s) - 1).
Proof using dead.
  intros (Hok & Hl & Hne & Hw & Hf). unfold cycle. rewrite bind_run.
  pose proof (sys_decide s Hok) as [Hcs Hok1]. pose proof (live_cycle_decide s Hl) as Hl1.
  pose proof (curs_decide s) as Hcu1. pose proof (counts_decide s) as Hco1. pose proof (decide_n s) as Hn.
  destruct (cycle_decide s) as [cs s1]. cbn [fst snd] in *.
  rewrite writeAndFinish_steps. cbv zeta. cbn [fst snd].
  assert (Hne1 : k_chans (s_c s1) <> []) by (eapply curs_nonempty; [by apply curs_length|done]).
  pose proof (sys_writePhase (cy_d cs) (cy_n cs) (proj1 Hcs) (proj1 (proj2 Hcs)) s1 Hok1) as Hok2.
  destruct (writePhase_dead (cy_d cs) (cy_n cs) s1 Hl1) as [Hr2 Harm2].
  pose proof (live_flags _ _ (flags_writePhase (cy_d cs) (cy_n cs) s1) Hl1) as Hl2.
  pose proof (counts_writePhase (cy_d cs) (cy_n cs) s1) as Hco2.
  pose proof (goes_length _ _ _ s1 (goes_writePhase (cy_d cs) (cy_n cs)) Hl1) as Hlen2.
  assert (Hne2 : k_chans (s_c (snd (writePhase (cy_d cs) (cy_n cs) s1))) <> []) by (eapply curs_nonempty; done).
  assert (Hatt : armed (s_c s) = true -> existsb (attempts (cy_d cs) (cy_n cs)) (k_chans (s_c s1)) = true).
  { intros Ha. apply armed_attempts; [apply Hok1|]. unfold armed in *. by rewrite Hcu1. }
  destruct (writePhase (cy_d cs) (cy_n cs) s1) as [r2 s2]. cbn [fst snd] in *. subst r2. cbn [fst snd] in *.
  set (werr := existsb (attempts (cy_d cs) (cy_n cs)) (k_chans (s_c s1))) in *.
  pose proof (sys_handle_errors werr false s2 Hok2) as Hok3.
  pose proof (live_flags _ _ (flags_errors werr false s2) Hl2) as Hl3.
  assert (Hs3 : (werr = false /\ fst (handle_errors werr false s2) = None /\
      counts (s_c (snd (handle_errors werr false s2))) = (k_n (s_c s2), k_wrErr (s_c s2), 0) /\
      k_chans (s_c (snd (handle_errors werr false s2))) = k_chans (s_c s2)) \/
    (werr = true /\ k_chans (s_c (snd (handle_errors werr false s2))) <> [] /\
     (let r := note_write_errors s2 in
      (k_wrErr (s_c s2) + 1 < writeErrorsBeforeFailsafe /\ fst r = None /\
         counts (s_c (snd r)) = (k_n (s_c s2), k_wrErr (s_c s2) + 1, k_fsFail (s_c s2)) /\
         curs (s_c (snd r)) = curs (s_c s2)) \/
      (writeErrorsBeforeFailsafe <= k_wrErr (s_c s2) + 1 /\
         fst r = (if k_fsFail (s_c s2) + 1 <? deviceLostCycles then None else Some ErrDeviceLost) /\
         counts (s_c (snd r)) = (k_n (s_c s2), k_wrErr (s_c s2) + 1, k_fsFail (s_c s2) + 1) /\
         armed (s_c (snd r)) = true)))).
  { destruct werr; [right|by left]. split; [done|]. split.
    - eapply curs_nonempty; [|exact Hne2]. exact (goes_length _ _ _ s2 goes_note_write_errors Hl2).
    - exact (errors_dead s2 Hl2 Hne2). }
  assert (Hmid : counts (s_c s2) = counts (s_c s)) by congruence.
  unfold counts in Hmid. injection Hmid as En Ew Ef. rewrite En, Ew, Ef in Hs3.
  destruct Hs3 as [(Hwe & Hnone & Hc3 & Hk3)|(Hwe & Hne3 & Hs3)].
  - right. rewrite Hwe in *. destruct (handle_errors false false s2) as [r3 s3]. cbn [fst snd] in *.
    split; [done|]. pose proof (counts_publish cs false s3) as Hc4. pose proof (curs_publish cs false s3) as Hcu4.
    unfold counts in Hc3, Hc4. injection Hc3 as E1 E2 E3. rewrite E1, E2, E3 in Hc4. injection Hc4 as F1 F2 F3.
    split.
    + unfold dying. rewrite F2, F3. split; [by apply sys_publish|]. split; [by eapply live_flags; [apply flags_publish|]|].
      split; [|lia]. apply (curs_nonempty (s_c s3)); [by apply curs_length; rewrite Hcu4|]. by rewrite Hk3.
    + assert (Ha : armed (s_c s) = false) by (destruct (armed (s_c s)); [by specialize (Hatt eq_refl)|done]).
      pose proof (attempts_always _ _ _ Hne1 Hwe) as Hmod. rewrite Hn in Hmod. destruct (idle_mod _ Hmod) as [M1 M2].
      unfold budget. rewrite Ha, F1, F2, F3, M2. unfold deviceLostCycles. repeat case_match; lia.
  - rewrite Hwe in *. specialize (Harm2 eq_refl). unfold handle_errors in *. cbv zeta in Hs3.
    assert (Hbud : armed (s_c s) = true -> budget (s_c s) =
      (if k_wrErr (s_c s) =? 0 then 1 else 0) + Z.max 1 (deviceLostCycles - k_fsFail (s_c s)))
      by (unfold budget; by intros ->).
    assert (Hbig : armed (s_c s) = false -> 1 + deviceLostCycles <= budget (s_c s)).
    { intros Ha. unfold budget, rewriteEvery. rewrite Ha. pose proof (Z.mod_pos_bound (- k_n (s_c s)) 6). lia. }
    destruct (note_write_errors s2) as [r3 s3]. cbn [fst snd] in *.
    pose proof (counts_publish cs true s3) as Hc4. pose proof (curs_publish cs true s3) as Hcu4.
    assert (Hnext : forall f, counts (s_c s3) = (k_n (s_c s), k_wrErr (s_c s) + 1, f) -> 0 <= f -> armed (s_c s3) = true ->
      dying (snd (publish cs true s3)) /\
      budget (s_c (snd (publish cs true s3))) = Z.max 1 (deviceLostCycles - f)).
    { intros f Hcf Hf0 Ha. unfold counts in Hcf, Hc4. injection Hcf as E1 E2 E3. rewrite E1, E2, E3 in Hc4.
      injection Hc4 as F1 F2 F3. split.
      - unfold dying. rewrite F2, F3. split; [by apply sys_publish|]. split; [by eapply live_flags; [apply flags_publish|]|].
        split; [|lia]. apply (curs_nonempty (s_c s3)); [by apply curs_length; rewrite Hcu4|done].
      - unfold budget. unfold armed in *. rewrite Hcu4, Ha, F2, F3.
        assert ((k_wrErr (s_c s) + 1 =? 0) = false) as -> by lia. lia. }
    destruct Hs3 as [(Hlt & Hnone & Hc3 & Hcu3)|(Hge & Hres & Hc3 & Harm3)].
    + right. split; [done|]. destruct (Hnext _ Hc3 Hf) as [Hd ->]; [unfold armed in *; by rewrite Hcu3|].
      split; [done|]. unfold writeErrorsBeforeFailsafe in Hlt. unfold deviceLostCycles in *.
      destruct (armed (s_c s)); [|specialize (Hbig eq_refl); lia]. rewrite (Hbud eq_refl).
      assert ((k_wrErr (s_c s) =? 0) = true) as -> by lia. lia.
    + destruct (k_fsFail (s_c s) + 1 <? deviceLostCycles) eqn:Elt; [right|by left].
      split; [done|]. destruct (Hnext _ Hc3) as [Hd ->]; [lia|done|]. split; [done|].
      unfold writeErrorsBeforeFailsafe, deviceLostCycles in *.
      destruct (armed (s_c s)); [|specialize (Hbig eq_refl); lia]. rewrite (Hbud eq_refl). case_match; lia.
Qed.

Lemma dying_next (s s' : Sys W Rd) : sys_ok s' -> run_flags (s_c s') = run_flags (s_c s) ->
  counts (s_c s') = counts (s_c s) -> curs (s_c s') = curs (s_c s) ->
  dying s -> dying s' /\ budget (s_c s') = budget (s_c s).
Proof.
  intros Hok Hf Hc Hcu (_ & Hl & Hne & Hw & Hff). unfold counts in Hc. injection Hc as E1 E2 E3. split.
  - unfold dying. rewrite E2, E3. split_and!; try done; [by eapply live_flags|].
    by apply (curs_nonempty (s_c s)); [apply curs_length|].
  - unfold budget, armed. by rewrite Hcu, E1, E2, E3.
Qed.

Lemma run_dead (wait : M W bool) fuel : (forall w, fst (wait w) = true) ->
  forall s : Sys W Rd, dying s -> budget (s_c s) <= Z.of_nat fuel -> fst (run_loop wait fuel s) = RunLost.
Proof using dead.
  intros Hwait. induction fuel as [|f IH]; intros s Hd Hb; [pose proof (budget_pos (s_c s)); lia|].
  cbn [run_loop]. rewrite bind_run. destruct (cycle_dead s Hd) as [->|(-> & Hd1 & Hb1)]; [done|].
  destruct (cycle s) as [r s1]. cbn [fst snd] in *. rewrite bind_run.
  pose proof (dying_next s1 _ (sys_saveHistory s1 (proj1 Hd1)) (flags_saveHistory s1) (counts_saveHistory s1)
    (curs_saveHistory s1) Hd1) as [Hd2 Hb2].
  destruct (saveHistory s1) as [[] s2]. cbn [fst snd] in *. rewrite bind_run.
  pose proof (quiet_lift (W := W) (Rd := Rd) wait) as Hq.
  destruct (dying_next s2 (snd (lift wait s2))) as [Hd3 Hb3]; [|..|done|].
  - apply (sys_quiet (lift wait)); [exact Hq|apply Hd2].
  - by apply keeps_quiet; [exact _|].
  - by apply keeps_quiet; [exact _|].
  - by apply keeps_quiet; [exact _|].
  - unfold lift at 1. specialize (Hwait (s_w s2)). unfold lift in *. destruct (wait (s_w s2)) as [b w]. cbn in *. subst b.
    apply IH; [exact Hd3|]. cbn [s_c]. lia.
Qed.
End Dead.
End Lost.

(** C12: a dead device ends the daemon.  Whatever state the daemon is in, whatever the
    sensors, the clock and the reloads say: once every duty write fails for good
    (other than by the register comparison, which is only a warning), the
    regulation loop returns ErrDeviceLost after at most 12 cycles - five until every
    channel is due again, one failed cycle, and six in which the failsafe writes
    nothing. *)
Theorem device_lost {W Rd} `{Device W} `{Sensors W Rd} `{Host W} (wait : M W bool) (s : Sys W Rd) :
  (forall pwm duty w, exists e, fst (dev_WriteDuty pwm duty w) = Some e /\ errors_Is e ErrDCRMismatch = false) ->
  (forall w, fst (wait w) = true) ->
  sys_ok s -> live (s_c s) -> k_chans (s_c s) <> [] ->
  0 <= k_wrErr (s_c s) -> 0 <= k_fsFail (s_c s) ->
  fst (run_loop wait 12 s) = RunLost.
Proof.
  intros Hdead Hwait Hok Hl Hne Hw Hf. apply (run_dead Hdead wait 12 Hwait s); [by split_and!|].
  unfold budget, deviceLostCycles, rewriteEvery. pose proof (Z.mod_pos_bound (- k_n (s_c s)) 6).
  repeat case_match; lia.
Qed.

(** The demonstration's device, once its driver has gone away. *)
Lemma device_lost_witness :
  fst (run_loop (H := Demo.dead_device) Demo.tick 12 (Demo.started (Demo.world 50000 35000))) = RunLost.
Proof.
  apply (device_lost (H := Demo.dead_device)).
  - intros pwm duty w. by exists [ENODEV].
  - done.
  - apply sys_New. split; [|constructor].
    refine (conj _ (conj _ (conj _ _))); [|done|constructor|apply map_Forall_empty].
    split; [by vm_compute|]. split; [by vm_compute|].
    repeat constructor; try (right; by vm_compute); by vm_compute.
  - split; by vm_compute.
  - by vm_compute.
  - by vm_compute.
  - by vm_compute.
Defined.
