(* ===== verification/ControlTrace.v ===== *)
(** Trace properties of the whole system: the spacing of alerts and of rate-limited
    warnings, and the silence of a dry run.

    [Walk I] states what an invariant has to survive: alerts, rate-limited
    warnings, duty writes, the safe stop, and changes of the controller that leave
    the options and the two rate-limit tables alone.  Every step of the system is
    then shown, once, to keep any such invariant. *)
From stdpp Require Import base gmap strings list relations.
From Stdlib Require Import ZArith QArith Lia.
From S2P Require Import Prelude GoLib ConfigTypes Curve Ceiling History Sanitize ControlTypes ControlAlert ControlSense ControlTarget ControlWrite ControlApi ControlDemo ControlFrame ControlLoop.
Open Scope Z_scope.

(** ** Invariants that every step keeps *)
Section Walk.
Context {W Rd : Type} `{Device W} `{Sensors W Rd} `{Host W}.
Local Abbreviation MS := (M (Sys W Rd)).

Definition side (c : Controller Rd) := (k_opts c, k_alertAt c, k_readErrs c).

Class Walk (I : Sys W Rd -> Prop) : Prop := {
  walk_lift : forall A (m : M W A), preserves I (lift m : MS A);
  walk_modc : forall f, (forall c, side (f c) = side c) -> preserves I (modc f : MS unit);
  walk_raise : forall kind msg, preserves I (raise kind msg : MS unit);
  walk_limited : forall key now, preserves I (limited key ReadErrInterval now : MS unit);
  walk_readOK : forall src, preserves I (noteReadOK src : MS unit);
  walk_hook : forall name n, preserves I (emit (EvHook name n) : MS unit);
  walk_write : forall ch duty n, preserves I (write ch duty n : MS _);
  walk_safeStop : preserves I (safeStopLocked : MS unit) }.

Section Steps.
Context (I : Sys W Rd -> Prop) (HI : Walk I).
Local Abbreviation keep := (preserves I).

Lemma walk_getc : keep (getc : MS _).
Proof. apply preserves_gets. Qed.
Lemma walk_world : keep (world : MS _).
Proof. apply preserves_gets. Qed.
Lemma walk_for_chans (f : channel Rd -> MS (channel Rd)) : (forall ch, keep (f ch)) -> keep (for_chans f).
Proof.
  intros Hf. unfold for_chans. apply preserves_bind; [apply walk_getc|]. intros c.
  apply preserves_bind; [by apply preserves_mapM|]. intros chs. by apply walk_modc.
Qed.

Local Ltac wk_step :=
  match goal with
  | |- preserves _ (modc _) => apply walk_modc; intros; first [reflexivity | by repeat case_match]
  | |- preserves _ (for_chans _) => apply walk_for_chans; intros
  | |- _ => prs_step
  end.
Local Ltac wk := repeat wk_step.
Hint Resolve walk_lift walk_raise walk_limited walk_readOK walk_hook walk_write walk_safeStop
  walk_getc walk_world HI : prs.

Lemma walk_readErr src e : keep (noteReadErr src e : MS unit).
Proof. unfold noteReadErr. wk. Qed.
Lemma walk_dcr name e : keep (dcrDeviation name e : MS _).
Proof. unfold dcrDeviation, DCRWarnInterval. wk. Qed.
Lemma walk_removeRunFile name : keep (removeRunFile name : MS unit).
Proof. unfold removeRunFile. wk. Qed.
Lemma walk_reportNotes notes : keep (reportNotes notes : MS unit).
Proof. unfold reportNotes. wk. Qed.
Lemma walk_ceilingOf cc : keep (ceilingOf cc : MS _).
Proof. unfold ceilingOf. wk. Qed.
Lemma walk_resolveSensor cc : keep (resolveSensor cc : MS _).
Proof. unfold resolveSensor. wk. Qed.
Lemma walk_buildWatched ids : keep (buildWatched ids : MS _).
Proof. unfold buildWatched. wk. Qed.
Lemma walk_run_hook j : keep (run_hook j : MS unit).
Proof. unfold run_hook. wk. Qed.
Hint Resolve walk_readErr walk_dcr walk_removeRunFile walk_reportNotes walk_ceilingOf walk_resolveSensor
  walk_buildWatched walk_run_hook : prs.
Lemma walk_try_resolve ch : keep (try_resolve ch : MS _).
Proof. unfold try_resolve, install. wk. Qed.
Lemma walk_emergency ch d : keep (emergency ch d : MS _).
Proof. unfold emergency. wk. Qed.
Lemma walk_noteRegisterWrite ch duty : keep (noteRegisterWrite ch duty : MS _).
Proof. unfold noteRegisterWrite. wk. Qed.
Hint Resolve walk_try_resolve walk_emergency walk_noteRegisterWrite : prs.
Lemma walk_reresolve : keep (reresolve : MS unit).
Proof. unfold reresolve. wk. Qed.
Lemma walk_failsafeAll mode : keep (failsafeAll mode : MS _).
Proof. unfold failsafeAll, failsafe_one. wk. Qed.
Hint Resolve walk_reresolve walk_failsafeAll : prs.

Lemma walk_readSensors cs : keep (readSensors cs : MS _).
Proof.
  unfold readSensors, read_one, stale_check, judge_one, readExtra, readWatched, read_watched_one,
    readRPMs, read_rpm, partsOf. wk.
Qed.
Lemma walk_computeTargets cs : keep (computeTargets cs : MS _).
Proof. unfold computeTargets, compute_one, applyCeiling. wk. Qed.
Lemma walk_checkStall cs : keep (checkStall cs : MS _).
Proof. unfold checkStall, stall_one. wk. Qed.
Lemma walk_applyPending : keep (applyPendingLocked : MS _).
Proof. unfold applyPendingLocked, prepare_update. wk. Qed.
Hint Resolve walk_readSensors walk_computeTargets walk_checkStall walk_applyPending : prs.

Lemma walk_decide : keep (cycle_decide : MS _).
Proof. unfold cycle_decide. wk. Qed.
Lemma walk_writePhase d n : keep (writePhase d n : MS _).
Proof. unfold writePhase, checkRegisters, check_register, write_one. wk. Qed.
Lemma walk_errors werr wrote : keep (handle_errors werr wrote : MS _).
Proof. unfold handle_errors, note_write_errors, note_writes_ok, noteFailsafe. wk. Qed.
Lemma walk_publish cs werr : keep (publish cs werr : MS _).
Proof. unfold publish, finishCycle, writeState. wk. Qed.
Lemma walk_saveHistory : keep (saveHistory : MS _).
Proof. unfold saveHistory. wk. Qed.
Lemma walk_save_now : keep (save_history_now : MS _).
Proof. unfold save_history_now. wk. Qed.
Lemma walk_api o : keep (api_run o : MS _).
Proof. unfold api_run, SetOverride, ClearOverride, SetWatched, Apply. wk. Qed.
Lemma walk_job : keep (next_job : MS _).
Proof. unfold next_job. wk. Qed.

Lemma walk_New : keep (New : MS _).
Proof.
  unfold New. apply preserves_bind; [apply walk_getc|]. intros c.
  apply preserves_bind; [unfold loadAlertStamps; wk|]. intros _. destruct (SanitizeChannels _ _) as [chans notes].
  apply preserves_bind; [wk|]. intros _. apply preserves_bind.
  { induction chans as [|cc chans IH]; cbn [buildChannels]; [apply preserves_ret|].
    destruct (dev_channel _); wk; exact IH. }
  intros r. unfold loadOverrides. wk.
Qed.

Lemma walk_step accepts a b : (forall s w, I s -> I (mkSys (s_c s) w (s_ev s))) ->
  step accepts a b -> I (cf_s a) -> I (cf_s b).
Proof.
  intros Hw Hst. destruct Hst; cbn [cf_s]; try done; intros Ha.
  - by apply walk_decide.
  - by apply walk_writePhase.
  - by apply walk_errors.
  - apply walk_saveHistory. by apply walk_publish.
  - by apply walk_publish.
  - by apply walk_api.
  - by apply walk_job.
  - unfold set_stop_flag. by apply (walk_modc (I := I)).
  - apply walk_save_now. by apply walk_safeStop.
  - by apply Hw.
Qed.

Lemma walk_reachable accepts a b : (forall s w, I s -> I (mkSys (s_c s) w (s_ev s))) ->
  reachable accepts a b -> I (cf_s a) -> I (cf_s b).
Proof.
  intros Hw Hr. apply (reachable_inv accepts (fun c => I (cf_s c))); [|exact Hr].
  intros c d Hc Hs. by eapply walk_step.
Qed.
End Steps.
End Walk.

(** ** The instances *)
Section Instances.
Context {W Rd : Type} `{Device W} `{Sensors W Rd} `{Host W}.
Local Abbreviation MS := (M (Sys W Rd)).
Local Abbreviation initial opts cfg extra store w :=
  (mkConf (snd (New (mkSys (init_controller opts cfg extra store) w []))) PIdle SIdle).

(** A property of the log and of [side] is kept by what changes neither. *)
Definition log_side (I : Sys W Rd -> Prop) : Prop :=
  forall s s' : Sys W Rd, s_ev s' = s_ev s -> side (s_c s') = side (s_c s) -> I s -> I s'.
Lemma log_side_lift I {A} (m : M W A) : log_side I -> preserves I (lift m : MS A).
Proof. intros HI s. unfold lift. destruct (m (s_w s)). by apply HI. Qed.
Lemma log_side_modc I f : log_side I -> (forall c, side (f c) = side c) -> preserves I (modc f : MS unit).
Proof. intros HI Hf s. apply HI; [done|apply Hf]. Qed.
Lemma log_side_world I (s : Sys W Rd) w : log_side I -> I s -> I (mkSys (s_c s) w (s_ev s)).
Proof. intros HI. by apply HI. Qed.

(** *** Alerts *)
Definition alert_time (kind : string) (e : Event) : option Time :=
  match e with EvAlert k t _ => if String.eqb k kind then Some t else None | _ => None end.
(** The time of the newest alert of a kind. *)
Fixpoint last_alert (kind : string) (log : list Event) : option Time :=
  match log with
  | [] => None
  | e :: log => match alert_time kind e with Some t => Some t | None => last_alert kind log end
  end.
Fixpoint alerts_apart (log : list Event) : Prop :=
  match log with
  | [] => True
  | e :: log => alerts_apart log /\
      match e with
      | EvAlert kind t cool => forall t', last_alert kind log = Some t' -> ~ 0 <= tSub t t' < cool
      | _ => True
      end
  end.
Definition alert_inv (s : Sys W Rd) : Prop :=
  alerts_apart (s_ev s) /\
  forall kind t, last_alert kind (s_ev s) = Some t -> k_alertAt (s_c s) !! kind = Some t.

Lemma alert_log_side : log_side alert_inv.
Proof.
  intros s s' He Hs [Ha Hb]. unfold side in Hs. injection Hs as _ Hs _. unfold alert_inv. by rewrite He, Hs.
Qed.
Lemma alert_emit e (s : Sys W Rd) : (forall kind, alert_time kind e = None) ->
  alert_inv s -> alert_inv (snd (emit e s)).
Proof.
  intros He [Ha Hb]. unfold alert_inv. cbn. split.
  - split; [done|]. destruct e; try done. specialize (He kind). cbn in He. by rewrite String.eqb_refl in He.
  - intros kind t. rewrite He. apply Hb.
Qed.

Lemma alert_raise kind msg : preserves alert_inv (raise kind msg : MS unit).
Proof.
  unfold raise. apply preserves_bind; [apply log_side_lift, alert_log_side|]. intros now s Hs.
  rewrite bind_getc. destruct (suppressed (s_c s) kind now) eqn:Esup; [done|].
  unfold bind at 1. cbn [modc modify fst snd]. set (s1 := mkSys _ (s_w s) (s_ev s)).
  assert (Hs1 : s_ev s1 = s_ev s /\ k_alertAt (s_c s1) = <[kind := now]> (k_alertAt (s_c s))) by done.
  destruct Hs1 as [He1 Ha1]. clearbody s1.
  assert (Hfile : forall (m : MS unit), m = (if o_RunDir (k_opts (s_c s))
     then let* _ := lift (host_WriteRun (String.append "alert." kind)
                            (String.append (Itoa (tUnix now)) newline)) in ret tt
     else ret tt) -> s_ev (snd (m s1)) = s_ev s1 /\ k_alertAt (s_c (snd (m s1))) = k_alertAt (s_c s1)).
  { intros m ->. case_match; [|done]. unfold bind, lift. by destruct (host_WriteRun _ _ _). }
  specialize (Hfile _ eq_refl). rewrite bind_run.
  match type of Hfile with s_ev (snd ?r) = _ /\ _ => set (s2 := snd r) in * end. clearbody s2.
  destruct Hfile as [He2 Ha2]. rewrite bind_run. apply (log_side_lift alert_inv (host_Alert kind msg) alert_log_side).
  destruct Hs as [Hsp Hlast]. unfold alert_inv. cbn. rewrite He2, He1, Ha2, Ha1. split; [split; [exact Hsp|]|].
  - intros t' Ht'. specialize (Hlast kind t' Ht'). unfold suppressed in Esup. rewrite Hlast in Esup. lia.
  - intros k t. destruct (String.eqb kind k) eqn:Ek.
    + apply String.eqb_eq in Ek as ->. intros [= <-]. by rewrite lookup_insert_eq.
    + apply String.eqb_neq in Ek. intros Ht. rewrite lookup_insert_ne by done. by apply Hlast.
Qed.

(** *** Rate-limited warnings *)
Definition warn_inv (s : Sys W Rd) : Prop :=
  (forall l1 l2 l3 key t t', s_ev s = l1 ++ EvWarn key t :: l2 ++ EvWarn key t' :: l3 ->
     ReadErrInterval <= tSub t t') /\
  (forall key t, EvWarn key t ∈ s_ev s -> exists st last, k_readErrs (s_c s) !! key = Some st /\
     rs_last st = Some last /\ t_mono t <= t_mono last).

Lemma warn_log_side : log_side warn_inv.
Proof.
  intros s s' He Hs [Ha Hb]. unfold side in Hs. injection Hs as _ _ Hs. unfold warn_inv. by rewrite He, Hs.
Qed.
Lemma warn_emit e (s : Sys W Rd) : (forall key t, e <> EvWarn key t) -> warn_inv s -> warn_inv (snd (emit e s)).
Proof.
  intros He [Ha Hb]. split.
  - cbn. intros [|e' l1] l2 l3 key t t' Heq; injection Heq as Heq1 Heq; [by apply He in Heq1|by eapply Ha].
  - cbn. intros key t [Heq|Hin]%elem_of_cons; [by apply eq_sym, He in Heq|by apply Hb].
Qed.

(** Counting a suppressed warning, and logging one whose time has come. *)
Lemma warn_count key st st' (s : Sys W Rd) : k_readErrs (s_c s) !! key = Some st -> rs_last st' = rs_last st ->
  warn_inv s -> warn_inv (snd (modc (fun c => c <| k_readErrs := <[key := st']> (k_readErrs c) |>) s)).
Proof.
  intros Hst Hlast [Ha Hb]. split; [exact Ha|]. intros k t Hin. destruct (Hb k t Hin) as (st1 & l & Hl & Hr & Hle).
  cbn. destruct (decide (key = k)) as [->|Hne].
  - rewrite lookup_insert_eq. exists st', l. rewrite Hl in Hst. injection Hst as ->. split_and!; [done|congruence|done].
  - rewrite lookup_insert_ne by done. eauto.
Qed.
Lemma warn_log key now (s : Sys W Rd) :
  (forall st last, k_readErrs (s_c s) !! key = Some st -> rs_last st = Some last -> ReadErrInterval <= tSub now last) ->
  warn_inv s -> warn_inv (snd ((modc (fun c => c <| k_readErrs := <[key := mkReadErr (Some now) 0]> (k_readErrs c) |>) ;;;
    emit (EvWarn key now)) s)).
Proof.
  intros Hdue [Ha Hb]. split; cbn.
  - intros [|e' l1] l2 l3 k t t' Heq; [|injection Heq as _ Heq; by eapply Ha].
    injection Heq as <- <- Heq. destruct (Hb key t') as (st & l & Hl & Hr & Hle).
    { rewrite Heq. apply elem_of_app. right. by left. }
    specialize (Hdue st l Hl Hr). unfold tSub in *. lia.
  - intros k t Hin. destruct (decide (key = k)) as [->|Hne].
    + rewrite lookup_insert_eq. exists (mkReadErr (Some now) 0), now. split_and!; [done..|].
      apply elem_of_cons in Hin as [Heq|Hin]; [by injection Heq as ->|].
      destruct (Hb k t Hin) as (st & l & Hl & Hr & Hle). specialize (Hdue st l Hl Hr).
      unfold ReadErrInterval, Minute, Second, tSub in *. lia.
    + rewrite lookup_insert_ne by done. apply elem_of_cons in Hin as [Heq|Hin]; [by injection Heq as <- _|by apply Hb].
Qed.

Lemma warn_limited key now : preserves warn_inv (limited key ReadErrInterval now : MS unit).
Proof.
  intros s Hs. unfold limited, bind at 1. cbn [getc gets fst snd].
  destruct (k_readErrs (s_c s) !! key) as [st|] eqn:Est; cbn [default].
  - cbn. destruct (rs_last st) as [lst|] eqn:El.
    + destruct (tSub now lst <? ReadErrInterval) eqn:E.
      * by apply (warn_count key st).
      * apply warn_log; [|done]. rewrite Est. intros st1 l [= <-]. rewrite El. intros [= <-]. lia.
    + apply warn_log; [|done]. rewrite Est. intros st1 l [= <-]. by rewrite El.
  - cbn [rs_last]. apply warn_log; [|done]. by rewrite Est.
Qed.
Lemma warn_readOK src : preserves warn_inv (noteReadOK src : MS unit).
Proof.
  unfold noteReadOK. apply preserves_bind; [apply log_side_lift, warn_log_side|]. intros now s Hs.
  unfold bind at 1. cbn [getc gets fst snd].
  destruct (k_readErrs (s_c s) !! src) as [st|] eqn:Est; [|done].
  destruct (rs_last st) as [lst|] eqn:El; [|done]. destruct (_ || _) eqn:E; [done|].
  apply warn_log; [|done]. rewrite Est. intros st1 l [= <-]. rewrite El. intros [= <-]. lia.
Qed.

(** Computations that neither alert nor warn keep an invariant on the log and on
    [side], given that it survives the hook and hardware events. *)
Section Keepers.
Context (I : Sys W Rd -> Prop) (HI : log_side I).
Hypothesis Hemit : forall e, match e with EvAlert _ _ _ | EvWarn _ _ => False | _ => True end ->
  preserves I (emit e : MS unit).
Hypothesis Hlimited : forall key now, preserves I (limited key ReadErrInterval now : MS unit).
Hypothesis HreadOK : forall src, preserves I (noteReadOK src : MS unit).
Hypothesis Hraise : forall kind msg, preserves I (raise kind msg : MS unit).

Local Ltac kpr := repeat first
  [ apply (log_side_lift I); exact HI | apply (log_side_modc I); [exact HI|intros; reflexivity]
  | apply Hemit; exact Logic.I | apply Hlimited | apply preserves_gets | progress prs ].

Lemma log_side_dcr name e : preserves I (dcrDeviation name e : MS _).
Proof using HI Hlimited. unfold dcrDeviation, DCRWarnInterval. kpr. Qed.
Lemma log_side_write ch duty n : preserves I (write ch duty n : MS _).
Proof using HI Hlimited Hemit.
  unfold write, dev_write, noteRegisterWrite. pose proof log_side_dcr as Hd. kpr; apply Hd.
Qed.
Lemma log_side_safeStop : preserves I (safeStopLocked : MS _).
Proof using HI Hlimited Hemit.
  unfold safeStopLocked, stop_one, removeRunFile. pose proof log_side_dcr as Hd. kpr; apply Hd.
Qed.
Lemma log_side_Walk : Walk I.
Proof using HI Hemit Hlimited HreadOK Hraise.
  split; intros; eauto using log_side_lift, log_side_modc, log_side_write, log_side_safeStop.
Qed.
End Keepers.

Lemma alert_limited key i now : preserves alert_inv (limited key i now : MS unit).
Proof.
  assert (Hm : forall st, preserves alert_inv (modc (fun c => c <| k_readErrs := <[key := st]> (k_readErrs c) |>) : MS unit))
    by (intros st s; exact (fun Hs => Hs)).
  unfold limited. apply preserves_bind; [apply preserves_gets|]. intros c. cbv zeta.
  repeat case_match; try apply Hm; (apply preserves_bind; [apply Hm|]); intros _ s; by apply alert_emit.
Qed.
Lemma alert_readOK src : preserves alert_inv (noteReadOK src : MS unit).
Proof.
  assert (Hm : forall st, preserves alert_inv (modc (fun c => c <| k_readErrs := <[src := st]> (k_readErrs c) |>) : MS unit))
    by (intros st s; exact (fun Hs => Hs)).
  unfold noteReadOK. apply preserves_bind; [apply log_side_lift, alert_log_side|]. intros now.
  apply preserves_bind; [apply preserves_gets|]. intros c. repeat case_match; try apply preserves_ret.
  apply preserves_bind; [apply Hm|]. intros _ s; by apply alert_emit.
Qed.
#[local] Instance alert_Walk : Walk alert_inv.
Proof.
  apply log_side_Walk; [exact alert_log_side| |intros; apply alert_limited|apply alert_readOK|apply alert_raise].
  intros e He s. apply alert_emit. by destruct e.
Qed.

Lemma warn_raise kind msg : preserves warn_inv (raise kind msg : MS unit).
Proof.
  assert (Hm : forall f : Controller Rd -> Controller Rd, (forall c, k_readErrs (f c) = k_readErrs c) ->
    preserves warn_inv (modc f : MS unit)).
  { intros f Hf s [Ha Hb]. split; [exact Ha|]. cbn. by rewrite Hf. }
  unfold raise. apply preserves_bind; [apply log_side_lift, warn_log_side|]. intros now.
  apply preserves_bind; [apply preserves_gets|]. intros c. case_match; [apply preserves_ret|].
  apply preserves_bind; [by apply Hm|]. intros _. apply preserves_bind.
  { case_match; [|apply preserves_ret]. apply preserves_bind; [apply log_side_lift, warn_log_side|].
    intros; apply preserves_ret. }
  intros _. apply preserves_bind; [intros s; by apply warn_emit|]. intros _. apply log_side_lift, warn_log_side.
Qed.
#[local] Instance warn_Walk : Walk warn_inv.
Proof.
  apply log_side_Walk; [exact warn_log_side| |apply warn_limited|apply warn_readOK|apply warn_raise].
  intros e He s. apply warn_emit. by destruct e.
Qed.

(** *** Dry run *)
Definition dry_inv (s : Sys W Rd) : Prop := o_DryRun (k_opts (s_c s)) = true /\ hw_log s = [].
Lemma dry_log_side : log_side dry_inv.
Proof.
  intros s s' He Hs [Ha Hb]. unfold side in Hs. injection Hs as Hs _ _. unfold dry_inv, hw_log. by rewrite He, Hs.
Qed.
Lemma dry_quiet {A} (m : MS A) : quiet m -> preserves dry_inv m.
Proof.
  intros Hm s [Ha Hb]. destruct (quiet_hw m s Hm) as [_ Hh]. split; [|by rewrite Hh].
  destruct (Hm s) as [Hc _]. change (o_DryRun (k_opts (core (s_c (snd (m s))))) = true). by rewrite Hc.
Qed.
#[local] Instance dry_Walk : Walk dry_inv.
Proof.
  split; intros.
  - apply log_side_lift, dry_log_side.
  - by apply log_side_modc; [apply dry_log_side|].
  - apply dry_quiet. qt.
  - apply dry_quiet. qt.
  - apply dry_quiet. qt.
  - apply dry_quiet. qt.
  - intros s Hs. unfold write. rewrite bind_getc. pose proof Hs as [-> _]. exact Hs.
  - intros s Hs. unfold safeStopLocked. rewrite bind_getc. pose proof Hs as [-> _].
    apply (dry_quiet (ret tt ;;; removeRunFile "state.json")); [qt|done].
Qed.

Lemma started_inv (I : Sys W Rd -> Prop) `{!Walk I} accepts opts cfg extra store w c :
  log_side I -> I (mkSys (init_controller opts cfg extra store) w []) ->
  reachable accepts (initial opts cfg extra store w) c -> I (cf_s c).
Proof.
  intros HI H0' Hr. eapply (walk_reachable I); [exact _|intros; by apply log_side_world|exact Hr|].
  by apply (walk_New I).
Qed.

(** C32: an alert is not repeated within its cooldown.  In every run of the daemon from
    its start, whatever interleaving of cycles, API calls, hook goroutines and Stop:
    of two consecutive alerts of one kind the later one comes when the clock
    reads at least the cooldown then configured past the earlier one - or reads
    an earlier time. *)
Theorem alerts_spaced accepts opts cfg extra store w c :
  reachable accepts (initial opts cfg extra store w) c ->
  forall l1 l2 l3 kind t cool t' cool',
    s_ev (cf_s c) = l1 ++ EvAlert kind t cool :: l2 ++ EvAlert kind t' cool' :: l3 ->
    Forall (fun e => alert_time kind e = None) l2 ->
    ~ 0 <= tSub t t' < cool.
Proof.
  intros Hr l1 l2 l3 kind t cool t' cool' Hlog Hl2.
  assert (Hi : alert_inv (cf_s c)) by (eapply started_inv; [exact _|exact alert_log_side|by split|exact Hr]).
  destruct Hi as [Hap _]. rewrite Hlog in Hap. clear -Hap Hl2.
  assert (Hd : alerts_apart (EvAlert kind t cool :: l2 ++ EvAlert kind t' cool' :: l3)).
  { revert Hap. induction l1 as [|e l1 IH]; [done|]. intros [Hap _]. by apply IH. }
  destruct Hd as [_ Hd]. apply Hd. clear -Hl2.
  induction Hl2 as [|e l2 He _ IH]; cbn; [by rewrite String.eqb_refl|]. by rewrite He.
Qed.

(** A failing driver does not flood the journal.  In every run of the daemon any two
    rate-limited warnings of one source (a sensor, a fan, a register comparison)
    are at least ReadErrInterval, five minutes, apart on the monotonic clock. *)
Theorem warnings_spaced accepts opts cfg extra store w c :
  reachable accepts (initial opts cfg extra store w) c ->
  forall l1 l2 l3 key t t',
    s_ev (cf_s c) = l1 ++ EvWarn key t :: l2 ++ EvWarn key t' :: l3 -> ReadErrInterval <= tSub t t'.
Proof.
  intros Hr. assert (Hi : warn_inv (cf_s c)); [|apply Hi].
  eapply started_inv; [exact _|exact warn_log_side| |exact Hr].
  split; [by intros [|? ?]|]. cbn. by intros ? ? ?%elem_of_nil.
Qed.

(** A dry run touches nothing.  Started with --dry-run, the daemon never writes a
    duty and never hands a channel back, through any number of cycles, write
    errors, API calls and Stop. *)
Theorem dry_run_silent accepts opts cfg extra store w c :
  o_DryRun opts = true -> reachable accepts (initial opts cfg extra store w) c ->
  hw_log (cf_s c) = [].
Proof.
  intros Hdry Hr. assert (Hi : dry_inv (cf_s c)); [|apply Hi].
  eapply started_inv; [exact _|exact dry_log_side| |exact Hr]. by split.
Qed.
End Instances.

(** *** A run with two alerts and two warnings of a kind *)
Definition first_cycle (opts : Options) : Sys Demo.World string :=
  snd (saveHistory (snd (cycle (snd (New (Demo.start_on opts (Demo.world 91000 35000))))))).
Definition half_hour_later (s : Sys Demo.World string) : Sys Demo.World string :=
  Demo.set_world (fun w => w <| Demo.w_now := Demo.w_now w + 31 * Minute |>) s.
Definition two_cycles (opts : Options) : conf Demo.World string :=
  mkConf (snd (saveHistory (snd (cycle (half_hour_later (first_cycle opts)))))) PIdle SIdle.

Lemma two_cycles_reachable accepts opts :
  fst (cycle (snd (New (Demo.start_on opts (Demo.world 91000 35000))))) = None ->
  fst (cycle (half_hour_later (first_cycle opts))) = None ->
  reachable accepts (mkConf (snd (New (Demo.start_on opts (Demo.world 91000 35000)))) PIdle SIdle) (two_cycles opts).
Proof.
  intros Hfst Hsnd. etransitivity; [apply cycle_of_steps; exact Hfst|]. fold (first_cycle opts).
  eapply rtc_l; [apply step_world|]. apply cycle_of_steps. exact Hsnd.
Qed.

Lemma alerts_spaced_witness :
  let t := mkTime (2860 * Second) (2860 * Second) in
  let t' := mkTime (1000 * Second) (1000 * Second) in
  List.map (fun e => match e with EvAlert k _ _ => k | _ => "" end) (s_ev (cf_s (two_cycles Demo.options))) =
    ["temp"; ""; ""; ""; ""; "temp"; "sensor"; ""; "config-channels"] /\
  ~ 0 <= tSub t t' < 30 * Minute.
Proof.
  intros t t'. split; [by vm_compute|].
  apply (alerts_spaced (fun _ => True) Demo.options Demo.config [] (empty_store "" (10 * Second))
    (Demo.world 91000 35000) (two_cycles Demo.options)
    (two_cycles_reachable _ Demo.options ltac:(by vm_compute) ltac:(by vm_compute))
    [] (take 4 (drop 1 (s_ev (cf_s (two_cycles Demo.options))))) (drop 6 (s_ev (cf_s (two_cycles Demo.options))))
    "temp" t (30 * Minute) t' (30 * Minute)); [by vm_compute|].
  by vm_compute; repeat constructor.
Defined.

Lemma warnings_spaced_witness :
  ReadErrInterval <= tSub (mkTime (2860 * Second) (2860 * Second)) (mkTime (1000 * Second) (1000 * Second)).
Proof.
  apply (warnings_spaced (fun _ => True) Demo.options Demo.config [] (empty_store "" (10 * Second))
    (Demo.world 91000 35000) (two_cycles Demo.options)
    (two_cycles_reachable _ Demo.options ltac:(by vm_compute) ltac:(by vm_compute))
    (take 1 (s_ev (cf_s (two_cycles Demo.options))))
    (take 5 (drop 2 (s_ev (cf_s (two_cycles Demo.options)))))
    (drop 8 (s_ev (cf_s (two_cycles Demo.options))))
    "sensor nvme:max (channel ssd)"). by vm_compute.
Defined.

(** The same run with --dry-run: alerts, and nothing else. *)
Lemma dry_run_silent_witness :
  let opts := mkOptions true true true in
  s_ev (cf_s (two_cycles opts)) <> [] /\ hw_log (cf_s (two_cycles opts)) = [].
Proof.
  intros opts. split; [by vm_compute|].
  apply (dry_run_silent (fun _ => True) opts Demo.config [] (empty_store "" (10 * Second)) (Demo.world 91000 35000));
    [done|].
  apply (two_cycles_reachable _ opts); by vm_compute.
Defined.
