(* ===== verification/Daemon.v ===== *)
(** The configuration parser and the controller together: what the daemon does with an
    arbitrary configuration file. *)
From stdpp Require Import base gmap strings list relations.
From Stdlib Require Import ZArith QArith Lia.
From S2P Require Import Prelude GoLib GoNet GoTime ConfigTypes Curve ConfigFields ConfigWeb Ceiling ConfigChannels ConfigParse ConfigValid ConfigRules History Sanitize ControlTypes ControlAlert ControlSense ControlTarget ControlWrite ControlApi ControlDemo ControlFrame ControlStep ControlPhase ControlSafety ControlBounds ControlLoop ControlReach.
Open Scope Z_scope.

(** ** What the parser lets through is what the controller needs *)
Lemma stop_valid_ok ch : cc_Stop ch = "auto" \/ (exists n, MinFixedStop <= n <= 255 /\ cc_Stop ch = Itoa n) -> stop_ok ch = true.
Proof.
  unfold stop_ok, StopDuty. intros [-> | (n & Hn & ->)]; [by vm_compute|]. unfold MinFixedStop in Hn.
  rewrite Atoi_Itoa by (unfold in_int64; lia). destruct (_ || _); [done|]. unfold duty_ok. lia.
Qed.
Lemma channel_valid_ok ch : channel_valid ch -> chancfg_ok ch.
Proof. intros (_ & _ & _ & Hc & _ & Hs & _). split; [by right|by apply stop_valid_ok]. Qed.
Lemma config_valid_ok {U : Url} env cfg : config_valid env cfg -> cfg_ok cfg.
Proof.
  intros (Hd & _ & _ & _ & _ & (Hc & _) & _). destruct Hd as (_ & Hu & Hd & _). unfold cfg_ok. split_and!; [lia..|].
  eapply Forall_impl; [exact Hc|]. apply channel_valid_ok.
Qed.

(** More accepted configurations, more reachable states. *)
Lemma step_weaken {W Rd} `{Device W} `{Sensors W Rd} `{Host W} (p q : Config -> Prop) (a b : @conf W Rd) :
  (forall cfg, p cfg -> q cfg) -> step p a b -> step q a b.
Proof. intros Hpq Hs. destruct Hs; constructor; auto. Qed.
Lemma reachable_weaken {W Rd} `{Device W} `{Sensors W Rd} `{Host W} (p q : Config -> Prop) (a b : @conf W Rd) :
  (forall cfg, p cfg -> q cfg) -> reachable p a b -> reachable q a b.
Proof. intros Hpq. induction 1 as [|a b c Hab _ IH]; [done|]. eapply rtc_l; [by eapply step_weaken|done]. Qed.

Section Daemon.
Context {W Rd : Type} `{Device W} `{Sensors W Rd} `{Host W} {Prim : Type} `{!Toml Prim} {U : Url}.
(** The environment variable of the log directory, the path of the file, [toml.Decode]. *)
Variable (env path : string) (Decode : string -> string + Doc Prim).
Local Abbreviation MS := (M (Sys W Rd)).

(** [Load]: what reading the file gave. *)
Inductive FileRead := FMissing | FUnreadable (msg : string) | FText (raw : string).
Inductive LoadErr := ErrUnreadable | ErrSyntax (e : ConfigFields.Err).
Definition Load (f : FileRead) : Config * list Warning * option LoadErr :=
  match f with
  | FMissing => (Default, [mkWarning "file" "%s not found, built-in defaults active" [AStr path]], None)
  | FUnreadable msg => (Default, [mkWarning "file" "%s" [AStr msg]], Some ErrUnreadable)
  | FText raw => let '(cfg, warns, err) := Parse env Decode raw in (cfg, warns, option_map ErrSyntax err)
  end.
(** [Controller.Reload]: the answer is the parser's error or that of [Apply]. *)
Definition Reload (raw : string) : MS (option (ConfigFields.Err + ApiErr)) :=
  match Parse env Decode raw with
  | (_, _, Some e) => ret (Some (inl e))
  | (cfg, _, None) => let* r := Apply cfg in ret (option_map inr r)
  end.

(** The daemon: the loop, the API, Stop and the world as before; a configuration only
    comes from a text. *)
Inductive daemon_step : @conf W Rd -> @conf W Rd -> Prop :=
| daemon_other a b : step (fun _ => False) a b -> daemon_step a b
| daemon_reload s raw l st : daemon_step (mkConf s l st) (mkConf (snd (Reload raw s)) l st).

Lemma Parse_ok raw : cfg_ok (Parse env Decode raw).1.1.
Proof.
  apply (config_valid_ok env). unfold Parse. destruct (Decode raw) as [msg|d]; cbn; [apply Default_valid|].
  pose proof (parse_doc_yields env d []) as H3. by destruct (parse_doc env d []).
Qed.
Lemma Load_ok f : cfg_ok (Load f).1.1.
Proof.
  destruct f as [|msg|raw]; [apply (config_valid_ok env), Default_valid..|]. pose proof (Parse_ok raw) as H3. cbn.
  by destruct (Parse env Decode raw) as [[]].
Qed.
Lemma daemon_reachable a b : rtc daemon_step a b -> reachable cfg_ok a b.
Proof.
  induction 1 as [|a b c [a' b' Hs|s raw l st] _ IH]; [done| |].
  - eapply rtc_l; [eapply step_weaken; [|exact Hs]|done]. done.
  - etransitivity; [|exact IH]. unfold Reload. pose proof (Parse_ok raw) as Hok.
    destruct (Parse env Decode raw) as [[cfg ws] [e|]]; [done|]. cbn in Hok.
    apply rtc_once. pose proof (step_api cfg_ok s (OpApply cfg) l st) as Hs. cbn in Hs. unfold bind, ret in *.
    destruct (Apply cfg s) as [r s']. apply Hs. by intros ? [= <-].
Qed.

(** C3: the parser and the controller together.  Start the daemon on any configuration
    file - missing, unreadable, not TOML, or holding any values at all - and let it run
    with any readings and device answers, with API calls, Stop, changes of the outside
    world and reloads of any further texts in any interleaving: every duty written is
    between 0 and 255, and so is every stop value handed to the device that is one.
    Nothing is assumed of the text or of the decoder. *)
Theorem any_file_safe opts (f : FileRead) extra store w c :
  rtc daemon_step (mkConf (snd (New (mkSys (init_controller opts (Load f).1.1 extra store) w []))) PIdle SIdle) c ->
  Forall event_ok (s_ev (cf_s c)) /\
  Forall (fun ch : channel Rd => -1 <= ch_cur ch <= 255 /\ 0 <= ch_target ch <= 255) (k_chans (s_c (cf_s c))).
Proof.
  intros Hr%daemon_reachable.
  assert (Hok : conf_ok c).
  { refine (reachable_inv cfg_ok conf_ok (fun a b Ha Hs => step_conf_ok a b Hs Ha) _ _ Hr _).
    split; [|done]. apply sys_New. split; [|constructor].
    refine (conj (Load_ok f) (conj _ (conj _ _))); [done|constructor|apply map_Forall_empty]. }
  destruct Hok as [[(_ & _ & Hch & _) He] _]. split; [done|].
  eapply Forall_impl; [exact Hch|]. intros ch (_ & ? & ? & _). done.
Qed.
End Daemon.

(** *** A run: a start on a file with one channel, a reload that decodes to another curve,
    a reload that does not decode, and the cycle that takes over the new curve. *)
Module Example_run.
Definition file_text (duty : Z) : Doc ConfigRules.Demo.value :=
  ConfigRules.Demo.doc [("channel", ConfigRules.Demo.VArr [ConfigRules.Demo.VTable [
    ("name", ConfigRules.Demo.VStr "cpu"); ("pwm", ConfigRules.Demo.VInt 1); ("sensor", ConfigRules.Demo.VStr "k10temp");
    ("curve", ConfigRules.Demo.VArr (map (fun p => ConfigRules.Demo.VArr [ConfigRules.Demo.VInt p.1; ConfigRules.Demo.VInt p.2])
       [(35, duty); (80, 255)]))]])].
Definition Decode (raw : string) : string + Doc ConfigRules.Demo.value :=
  if String.eqb raw "one" then inr (file_text 60) else if String.eqb raw "two" then inr (file_text 90) else inl "syntax".
Definition start : Sys Demo.World string :=
  snd (New (mkSys (init_controller Demo.options (Load "" "" Decode (FText "one")).1.1 [] (empty_store "" (10 * Second)))
              (Demo.world 50000 35000) [])).
Definition after : Sys Demo.World string :=
  snd (saveHistory (snd (cycle (snd (Reload "" Decode "three" (snd (Reload "" Decode "two" start))))))).
End Example_run.
Lemma any_file_safe_witness :
  existsb (fun e => match e with EvWrite 1 _ _ => true | _ => false end) (s_ev Example_run.after) = true /\
  (cc_Curve <$> (ch_cfg <$> List.hd_error (k_chans (s_c Example_run.after)))) = Some [(35, 90); (80, 255)] /\
  Forall event_ok (s_ev Example_run.after).
Proof.
  split; [by vm_compute|]. split; [by vm_compute|].
  apply (any_file_safe "" "" Example_run.Decode Demo.options (FText "one") [] (empty_store "" (10 * Second))
           (Demo.world 50000 35000) (mkConf Example_run.after PIdle SIdle)).
  eapply rtc_l; [apply (daemon_reload "" Example_run.Decode _ "two")|].
  eapply rtc_l; [apply (daemon_reload "" Example_run.Decode _ "three")|].
  eapply rtc_subrel; [intros a b Hs; apply daemon_other; exact Hs|].
  apply (cycle_of_steps (fun _ => False)). by vm_compute.
Defined.
