(* ===== verification/WebRedact.v ===== *)
(** The password hash in configuration texts sent to and received from a browser
    (mapHashLiterals, RestoreHash, RedactRaw, parsedHash, currentHash of
    src/internal/web/web.go). *)
From stdpp Require Import base gmap strings list.
From Stdlib Require Import ZArith Lia Ascii.
From S2P Require Import Prelude GoLib GoNet GoPath ConfigTypes ConfigFields ConfigWeb ConfigParse ConfigRules ConfigEdit ConfigTables.
Open Scope Z_scope.

Definition RedactedHash : string := "<unchanged>".
Definition minLiteralHash : nat := 32.

(** ** hashLine

    A match begins at a line start and holds no newline: at most one per line.  The text
    up to the opening quote; then the quote, the value and the rest of the line. *)
Definition blank_char (c : ascii) : bool := is_char c " " || is_char c "009".
Fixpoint span_blank (l : list ascii) : list ascii * list ascii :=
  match l with
  | c :: l' => if blank_char c then let '(a, b) := span_blank l' in (c :: a, b) else ([], l)
  | [] => ([], [])
  end.
Fixpoint strip (p l : list ascii) : option (list ascii) :=
  match p, l with
  | [], _ => Some l
  | c :: p', d :: l' => if is_char d c then strip p' l' else None
  | _, [] => None
  end.
Definition web_dot : list ascii := chars "web.".
Definition key_name : list ascii := chars "password_hash".
Definition quote (c : ascii) : bool := is_char c "034" || is_char c "039".
Definition hash_head (l : list ascii) : option (list ascii * list ascii) :=
  let '(b1, l) := span_blank l in
  let '(w, l) := match strip web_dot l with Some l' => (web_dot, l') | None => ([], l) end in
  match strip key_name l with
  | None => None
  | Some l =>
      let '(b2, l) := span_blank l in
      match l with
      | c :: l => if is_char c "=" then let '(b3, l) := span_blank l in Some (b1 ++ w ++ key_name ++ b2 ++ c :: b3, l) else None
      | [] => None
      end
  end.
Definition hash_match (line : string) : option (list ascii * ascii * list ascii * list ascii) :=
  match hash_head (chars line) with
  | Some (pre, q :: l) =>
      if quote q then match cut_first q l with Some (v, post) => Some (pre, q, v, post) | None => None end else None
  | _ => None
  end.

Definition map_line (f : string -> option string) (line : string) : string :=
  match hash_match line with
  | None => line
  | Some (pre, q, v, post) =>
      match f (of_chars v) with
      | None => line
      | Some nv => of_chars (pre ++ q :: chars nv ++ q :: post)
      end
  end.
Definition mapHashLiterals (raw : string) (f : string -> option string) : string :=
  Join (map (map_line f) (Split raw nl)) newline.
Definition RestoreHash (raw hash : string) : string :=
  mapHashLiterals raw (fun v => if String.eqb v RedactedHash then Some hash else None).
Definition redact_value (v : string) : option string :=
  if negb (String.eqb v "") && negb (String.eqb v RedactedHash) then Some RedactedHash else None.

Section Redact.
Context {Prim : Type} `{!Toml Prim} {U : Url}.
Variable (env : string) (Decode : string -> string + Doc Prim).
Definition parsedHash (raw : string) : string :=
  match Parse env Decode raw with
  | (_, _, Some _) => ""
  | (cfg, _, None) => w_PasswordHash (c_Web cfg)
  end.
Definition RedactRaw (raw : string) : string :=
  let out := mapHashLiterals raw redact_value in
  let h := parsedHash raw in
  if (minLiteralHash <=? String.length h)%nat then ReplaceAll out h RedactedHash else out.
Definition first_hash (lines : list string) : string :=
  match omap hash_match lines with (_, _, v, _) :: _ => of_chars v | [] => "" end.
Definition currentHash (raw : string) : string :=
  let h := parsedHash raw in
  if negb (String.eqb h "") then h else first_hash (Split raw nl).
End Redact.

Definition dq (s : string) : string := String "034" (String.append s (String "034" EmptyString)).
Definition sq (s : string) : string := String "039" (String.append s (String "039" EmptyString)).
Definition assignment (k v : string) : string := String.append k (String.append " = " v).
Example map_ex :
  let text := Join ["[web]"; assignment "password_hash" (dq "abc"); assignment "  web.password_hash" (String.append (sq "x") " # old");
    assignment "# password_hash" (dq "abc"); assignment "password_hash" "5"; assignment "password_hash" (dq "")] newline in
  mapHashLiterals text redact_value =
    Join ["[web]"; assignment "password_hash" (dq RedactedHash); assignment "  web.password_hash" (String.append (sq RedactedHash) " # old");
      assignment "# password_hash" (dq "abc"); assignment "password_hash" "5"; assignment "password_hash" (dq "")] newline.
Proof. by vm_compute. Qed.

(** ** Lines *)
Lemma span_spec l : let '(a, b) := span_blank l in l = a ++ b /\ Forall (fun c => blank_char c = true) a /\
  match b with [] => True | c :: _ => blank_char c = false end.
Proof.
  induction l as [|c l IH]; cbn; [by repeat split|]. destruct (blank_char c) eqn:E; [|split; [done|split; [constructor|done]]].
  destruct (span_blank l) as [a b]. destruct IH as (-> & Ha & Hb). split; [done|]. split; [by constructor|done].
Qed.
Lemma span_app a b : Forall (fun c => blank_char c = true) a -> match b with [] => True | c :: _ => blank_char c = false end ->
  span_blank (a ++ b) = (a, b).
Proof.
  intros Ha Hb. induction Ha as [|c a Hc _ IH]; cbn; [|by rewrite Hc, IH]. destruct b as [|c b]; [done|]. cbn. by rewrite Hb.
Qed.
Lemma strip_spec p l l' : strip p l = Some l' <-> l = p ++ l'.
Proof.
  revert l. induction p as [|c p IH]; intros l; cbn; [split; [by intros [= ->]|by intros ->]|].
  destruct l as [|d l]; [done|]. unfold is_char. destruct (Ascii.eqb_spec d c) as [->|Hne].
  - rewrite IH. split; [by intros ->|by intros [= ->]].
  - split; [done|]. by intros [= ? _].
Qed.
(** What stands before the quote does not depend on what follows it. *)
Lemma head_spec l pre rest : hash_head l = Some (pre, rest) -> l = pre ++ rest /\
  forall q x, quote q = true -> hash_head (pre ++ q :: x) = Some (pre, q :: x).
Proof.
  unfold hash_head. pose proof (span_spec l) as H1. destruct (span_blank l) as [b1 l1]. destruct H1 as (-> & Hb1 & Hh1).
  set (wl := match strip web_dot l1 with Some l' => (web_dot, l') | None => ([], l1) end).
  assert (Hw : l1 = wl.1 ++ wl.2 /\ (wl.1 = web_dot \/ wl.1 = [])).
  { unfold wl. destruct (strip web_dot l1) as [l'|] eqn:E; [apply strip_spec in E; by auto|by auto]. }
  clearbody wl. destruct wl as [w l2]. cbn [fst snd] in Hw. destruct Hw as [-> Hw].
  destruct (strip key_name l2) as [l3|] eqn:E3; [|done]. apply strip_spec in E3 as ->.
  pose proof (span_spec l3) as H4. destruct (span_blank l3) as [b2 l4]. destruct H4 as (-> & Hb2 & Hh4).
  destruct l4 as [|c l4]; [done|]. destruct (is_char c "=") eqn:Ec; [|done].
  pose proof (span_spec l4) as H5. destruct (span_blank l4) as [b3 l6]. destruct H5 as (-> & Hb3 & _). intros H.
  assert (Hpre := f_equal (fun o => match o with Some p => p.1 | None => [] end) H).
  assert (Hrest := f_equal (fun o => match o with Some p => p.2 | None => [] end) H). clear H. cbn [fst snd] in Hpre, Hrest. subst pre rest.
  split; [by rewrite <- !app_assoc|]. intros q x Hq.
  assert (Hqb : blank_char q = false).
  { unfold quote, blank_char, is_char in *. apply orb_true_iff in Hq as [Hq%Ascii.eqb_eq|Hq%Ascii.eqb_eq]; by subst q. }
  rewrite <- !app_assoc. cbn [app]. rewrite span_app; [|done|by destruct Hw as [-> | ->]].
  assert (Hs : match strip web_dot (w ++ key_name ++ b2 ++ c :: b3 ++ q :: x) with Some l' => (web_dot, l') | None => ([], w ++ key_name ++ b2 ++ c :: b3 ++ q :: x) end
    = (w, key_name ++ b2 ++ c :: b3 ++ q :: x)) by by destruct Hw as [-> | ->].
  rewrite Hs. rewrite (proj2 (strip_spec key_name _ _) eq_refl). rewrite span_app; [|done|].
  - rewrite Ec. rewrite span_app by done. done.
  - unfold is_char in Ec. by apply Ascii.eqb_eq in Ec as ->.
Qed.
Lemma cut_first_spec c l a b : cut_first c l = Some (a, b) -> l = a ++ c :: b.
Proof.
  revert a. induction l as [|d l IH]; intros a; [done|]. cbn. unfold is_char. destruct (Ascii.eqb_spec d c) as [->|_]; [by intros [= <- <-]|].
  destruct (cut_first c l) as [[a' b']|]; [|done]. intros [= <- <-]. by rewrite (IH a').
Qed.
Lemma cut_first_plain c v b : Forall (fun d => d <> c) v -> cut_first c (v ++ c :: b) = Some (v, b).
Proof.
  induction 1 as [|d v Hd _ IH]; cbn; unfold is_char; [by rewrite Ascii.eqb_refl|]. rewrite (proj2 (Ascii.eqb_neq _ _) Hd). by rewrite IH.
Qed.
Lemma match_spec line pre q v post : hash_match line = Some (pre, q, v, post) -> line = of_chars (pre ++ q :: v ++ q :: post) /\
  quote q = true /\ forall v', Forall (fun d => d <> q) v' -> hash_match (of_chars (pre ++ q :: v' ++ q :: post)) = Some (pre, q, v', post).
Proof.
  unfold hash_match. destruct (hash_head (chars line)) as [[p [|q0 l]]|] eqn:E; [done| |done].
  destruct (quote q0) eqn:Eq; [|done]. destruct (cut_first q0 l) as [[v0 post0]|] eqn:Ec; [|done]. intros [= <- <- <- <-].
  apply head_spec in E as [Hl Hstable]. apply cut_first_spec in Ec as ->. split; [|split; [done|]].
  - by rewrite <- Hl, of_chars_chars.
  - intros v' Hv. rewrite chars_of_chars, Hstable, Eq by done. by rewrite cut_first_plain.
Qed.

(** ** Lines of the whole text *)
Definition no_nl (l : list ascii) : Prop := Forall (fun c => c <> nl) l.
Definition plain_value (h : string) : Prop := Forall (fun c => c <> "034"%char /\ c <> "039"%char /\ c <> nl) (chars h).
Definition restore (h : string) (v : string) : option string := if String.eqb v RedactedHash then Some h else None.
(** Every value is empty or [h]. *)
Definition holds_only (h : string) (line : string) : Prop :=
  match hash_match line with Some (_, _, v, _) => v = [] \/ of_chars v = h | None => True end.

Lemma restore_redact h line : plain_value h -> h <> RedactedHash -> holds_only h line ->
  map_line (restore h) (map_line redact_value line) = line.
Proof.
  intros Hh Hne Ho. unfold holds_only in Ho. unfold map_line at 2. destruct (hash_match line) as [[[[pre q] v] post]|] eqn:E.
  2: { unfold map_line. by rewrite E. }
  pose proof (match_spec _ _ _ _ _ E) as (Hl & Hq & Hm). unfold redact_value.
  destruct (String.eqb_spec (of_chars v) "") as [Hv|Hv]; cbn [negb andb].
  - unfold map_line. rewrite E, Hv. done.
  - assert (Hvh : of_chars v = h) by by destruct Ho as [->|]. rewrite Hvh. rewrite (proj2 (String.eqb_neq _ _) Hne). cbn [negb].
    unfold map_line. rewrite Hm.
    + unfold restore. rewrite of_chars_chars, String.eqb_refl. rewrite Hl at 1. do 2 f_equal. f_equal. f_equal. by rewrite <- Hvh, chars_of_chars.
    + unfold quote, is_char in Hq. apply orb_true_iff in Hq as [Hq%Ascii.eqb_eq|Hq%Ascii.eqb_eq]; subst q;
        apply (bool_decide_unpack _); by vm_compute.
Qed.
Lemma redact_line_plain line : no_nl (chars line) -> no_nl (chars (map_line redact_value line)).
Proof.
  intros Hl. unfold map_line. destruct (hash_match line) as [[[[pre q] v] post]|] eqn:E; [|done].
  pose proof (match_spec _ _ _ _ _ E) as (-> & _ & _). unfold redact_value. destruct (_ && _); [|done].
  rewrite chars_of_chars in *. apply Forall_app in Hl as [H1 H2]. apply Forall_cons in H2 as [H2 H3]. apply Forall_app in H3 as [_ H3].
  apply Forall_cons in H3 as [_ H3]. apply Forall_app. split; [done|]. apply Forall_cons. split; [done|]. apply Forall_app. split.
  - apply (bool_decide_unpack _). by vm_compute.
  - by apply Forall_cons.
Qed.
Lemma restore_redact_text h raw : plain_value h -> h <> RedactedHash -> Forall (holds_only h) (Split raw nl) ->
  RestoreHash (mapHashLiterals raw redact_value) h = raw.
Proof.
  intros Hh Hne Ho. unfold RestoreHash, mapHashLiterals. change newline with (String nl EmptyString). rewrite Split_Join.
  - rewrite map_map. rewrite <- (Join_Split raw) at 2. f_equal. rewrite <- (map_id (Split raw nl)) at 2. apply map_ext_in.
    intros line Hin. apply restore_redact; [done..|]. rewrite Forall_forall in Ho. by apply Ho, list_elem_of_In.
  - intros H. apply map_eq_nil in H. by apply split_chars_nonempty in H.
  - apply Forall_fmap. eapply Forall_impl; [apply Split_plain|]. intros line. apply redact_line_plain.
Qed.

(** ** ReplaceAll *)
Lemma prefix_cons c p d s : String.prefix (String c p) (String d s) = true <-> c = d /\ String.prefix p s = true.
Proof. cbn. destruct (ascii_dec c d) as [->|Hne]; [tauto|]. split; [done|]. by intros [? _]. Qed.
Section Replace.
Variable (old : string).
(** The replacement begins and ends with characters that [old] does not have, and is
    shorter. *)
Hypothesis (Hold : Forall (fun c => c <> "<"%char /\ c <> ">"%char) (chars old)).
Hypothesis (Hlong : (11 <= String.length old)%nat).
Let go := ReplaceAll_loop old RedactedHash.

Lemma no_head c p : Forall (fun c => c <> "<"%char /\ c <> ">"%char) (chars (String c p)) -> c <> "<"%char /\ c <> ">"%char /\
  Forall (fun c => c <> "<"%char /\ c <> ">"%char) (chars p).
Proof. intros H. change (chars (String c p)) with (c :: chars p) in H. apply Forall_cons in H as [[] ?]. done. Qed.
Lemma go_prefix n s p : Forall (fun c => c <> "<"%char /\ c <> ">"%char) (chars p) -> String.prefix p (go n s) = true -> String.prefix p s = true.
Proof.
  revert s p. induction n as [|n IH]; intros s p Hp; [done|]. destruct s as [|d s]; [done|]. unfold go. cbn [ReplaceAll_loop].
  destruct p as [|c p]; [by destruct s|]. apply no_head in Hp as (Hc1 & Hc2 & Hp).
  destruct (String.prefix old (String d s)).
  - intros H. change (String.append RedactedHash ?x) with (String "<" (String.append "unchanged>" x)) in H. apply prefix_cons in H as [H _]. done.
  - intros [-> H]%prefix_cons. apply prefix_cons. split; [done|]. by apply IH.
Qed.
(** A text without ">" does not fit into [a ++ ">" ++ t] beyond [a]. *)
Lemma prefix_stops a p t : Forall (fun c => c <> "<"%char /\ c <> ">"%char) (chars p) ->
  String.prefix p (String.append a (String ">" t)) = true -> (String.length p <= String.length a)%nat.
Proof.
  revert p. induction a as [|d a IH]; intros p Hp; (destruct p as [|c p]; [cbn; lia|]); apply no_head in Hp as (Hc1 & Hc2 & Hp).
  - change (String.append "" (String ">" t)) with (String ">" t). by intros [-> _]%prefix_cons.
  - change (String.append (String d a) (String ">" t)) with (String d (String.append a (String ">" t))). intros [-> H]%prefix_cons.
    cbn. specialize (IH p Hp H). lia.
Qed.
Lemma has_sub_skip a t fuel : (String.length a <= 10)%nat -> (forall f, has_sub f t old = false) ->
  has_sub fuel (String.append a (String ">" t)) old = false.
Proof.
  revert fuel. induction a as [|d a IH]; intros fuel Ha Ht.
  - change (String.append "" (String ">" t)) with (String ">" t).
    assert (Hno : String.prefix old (String ">" t) = false).
    { apply not_true_is_false. intros H. pose proof (prefix_stops "" old t Hold H) as Hs. cbn in Hs. lia. }
    destruct fuel as [|f]; cbn [has_sub]; rewrite Hno; [done|]. apply Ht.
  - change (String.append (String d a) (String ">" t)) with (String d (String.append a (String ">" t))).
    assert (Hno : String.prefix old (String d (String.append a (String ">" t))) = false).
    { apply not_true_is_false. intros H. pose proof (prefix_stops (String d a) old t Hold H) as Hs. cbn in Hs, Ha. lia. }
    destruct fuel as [|f]; cbn [has_sub]; rewrite Hno; [done|]. apply IH; [cbn in Ha; lia|done].
Qed.
Lemma go_clean n s : (String.length s <= n)%nat -> forall f, has_sub f (go n s) old = false.
Proof.
  revert s. induction n as [|n IH]; intros s Hn f.
  - destruct s; [|cbn in Hn; lia]. assert (Ho : String.prefix old "" = false) by (destruct old; [cbn in Hlong; lia|done]).
    change (go 0 "") with ""%string. destruct f; cbn [has_sub]; by rewrite Ho.
  - destruct s as [|d s].
    { assert (Ho : String.prefix old "" = false) by (destruct old; [cbn in Hlong; lia|done]).
      change (go (S n) "") with ""%string. destruct f; cbn [has_sub]; by rewrite Ho. }
    unfold go. cbn [ReplaceAll_loop]. destruct (String.prefix old (String d s)) eqn:Ep.
    + change (String.append RedactedHash ?x) with (String.append "<unchanged" (String ">" x)). apply has_sub_skip; [cbn; lia|].
      apply IH. set (k := String.length old) in *. assert (Hsub : forall a b x, (String.length (String.substring a b x) <= b)%nat).
      { clear. intros a b x. revert a b. induction x as [|c x IHx]; intros a b; [destruct a, b; cbn; lia|].
        destruct a as [|a]; [destruct b as [|b]; cbn; [lia|]; specialize (IHx 0%nat b); lia|]. cbn. apply IHx. }
      specialize (Hsub k (String.length (String d s) - k)%nat (String d s)). cbn [String.length] in *. unfold k in *. lia.
    + change (has_sub f (String d (go n s)) old = false).
      assert (Hno : String.prefix old (String d (go n s)) = false).
      { apply not_true_is_false. intros H. eapply eq_true_false_abs; [|exact Ep].
        apply (go_prefix (S n) (String d s) old Hold). unfold go. cbn [ReplaceAll_loop]. rewrite Ep. exact H. }
      destruct f as [|f]; cbn [has_sub]; rewrite Hno; [done|]. apply IH. cbn in Hn. lia.
Qed.
End Replace.
Lemma ReplaceAll_clean s old : Forall (fun c => c <> "<"%char /\ c <> ">"%char) (chars old) -> (11 <= String.length old)%nat ->
  Contains (ReplaceAll s old RedactedHash) old = false.
Proof. intros H1 H2. unfold Contains, ReplaceAll. by apply go_clean. Qed.
Lemma ReplaceAll_none s old new : Contains s old = false -> ReplaceAll s old new = s.
Proof.
  unfold Contains, ReplaceAll. generalize (String.length s) as n. intros n. revert s. induction n as [|n IH]; intros s; [by destruct s|].
  destruct s as [|d s]; [done|]. cbn [has_sub ReplaceAll_loop]. intros [H1 H2]%orb_false_iff. rewrite H1. f_equal. by apply IH.
Qed.

(** ** A text that was not redacted *)
Lemma prefix_append b c : String.prefix b (String.append b c) = true.
Proof. exact (HasPrefix_append b c). Qed.
Lemma Contains_append a b c : Contains (String.append a (String.append b c)) b = true.
Proof.
  unfold Contains. assert (H : forall fuel, (String.length a <= fuel)%nat -> has_sub fuel (String.append a (String.append b c)) b = true).
  { induction a as [|d a IH]; intros fuel Hf.
    - change (String.append "" ?x) with x. destruct fuel; cbn [has_sub]; by rewrite prefix_append.
    - destruct fuel as [|fuel]; [cbn in Hf; lia|]. change (String.append (String d a) ?x) with (String d (String.append a x)). cbn [has_sub].
      rewrite IH by (cbn in Hf; lia). apply orb_true_r. }
  apply H. clear. induction a as [|d a IH]; [cbn; lia|]. change (String.append (String d a) ?x) with (String d (String.append a x)). cbn. lia.
Qed.
Lemma Join_line l1 x l2 : exists a c, Join (l1 ++ x :: l2) newline = String.append a (String.append x c).
Proof.
  destruct l2 as [|y l2].
  - destruct l1 as [|z l1]; [exists ""%string, ""%string; cbn; by rewrite append_nil_r|].
    rewrite Join_app by done. exists (String.append (Join (z :: l1) newline) newline), ""%string. by rewrite append_nil_r, append_assoc.
  - assert (H2 : Join (x :: y :: l2) newline = String.append x (String.append newline (Join (y :: l2) newline))) by apply Join_cons.
    destruct l1 as [|z l1]; [exists ""%string; eexists; exact H2|].
    rewrite Join_app, H2 by done. eexists (String.append (Join (z :: l1) newline) newline), _. by rewrite append_assoc.
Qed.
Lemma not_redacted raw : Contains (mapHashLiterals raw redact_value) RedactedHash = false -> mapHashLiterals raw redact_value = raw.
Proof.
  intros H. unfold mapHashLiterals in *. rewrite <- (Join_Split raw) at 2. f_equal. rewrite <- (map_id (Split raw nl)) at 2. apply map_ext_in.
  intros line Hin. apply in_split in Hin as (l1 & l2 & Hs). rewrite Hs, map_app in H. cbn [map] in H.
  destruct (Join_line (map (map_line redact_value) l1) (map_line redact_value line) (map (map_line redact_value) l2)) as (a & c & E).
  rewrite E in H. clear E Hs. unfold map_line in *. destruct (hash_match line) as [[[[pre q] v] post]|]; [|done].
  unfold redact_value in *. destruct (_ && _); [|done]. exfalso. revert H.
  assert (E : String.append a (String.append (of_chars (pre ++ q :: chars RedactedHash ++ q :: post)) c) =
    String.append (String.append a (of_chars (pre ++ [q]))) (String.append RedactedHash (String.append (of_chars (q :: post)) c))).
  { rewrite append_assoc. f_equal. change (q :: chars RedactedHash ++ q :: post) with ([q] ++ chars RedactedHash ++ q :: post).
    rewrite app_assoc, !of_chars_app, of_chars_chars, !append_assoc. done. }
  rewrite E, Contains_append. done.
Qed.

Lemma map_unchanged raw f : (forall line, line ∈ Split raw nl -> map_line f line = line) -> mapHashLiterals raw f = raw.
Proof.
  intros H. unfold mapHashLiterals. rewrite <- (Join_Split raw) at 2. f_equal. rewrite <- (map_id (Split raw nl)) at 2. apply map_ext_in.
  intros line Hin. by apply H, list_elem_of_In.
Qed.
Lemma no_hash raw : Forall (holds_only "") (Split raw nl) -> mapHashLiterals raw redact_value = raw /\ forall h, RestoreHash raw h = raw.
Proof.
  rewrite Forall_forall. intros Ho. split; [|intros h]; apply map_unchanged; intros line Hin; specialize (Ho line Hin); unfold holds_only, map_line in *;
    (destruct (hash_match line) as [[[[pre q] v] post]|]; [|done]); (assert (Hv : of_chars v = ""%string) by by destruct Ho as [->|]); by rewrite Hv.
Qed.

Section Claim.
Context {Prim : Type} `{!Toml Prim} {U : Url} (env : string) (Decode : string -> string + Doc Prim).

(** The part of putConfig before validation: 400, or the text to validate and write. *)
Definition restore_body (cur body : string) : Z + string :=
  if Contains body RedactedHash then
    let body := RestoreHash body (currentHash env Decode cur) in
    if String.eqb (parsedHash env Decode body) RedactedHash then inl 400 else inr body
  else inr body.

(** C23: the password hash stays in the daemon, and is not lost when a text comes back.
    The text of the configuration sent to a browser does not contain the hash the parser
    sees, wherever it stands (for a hash of at least 32 characters without angle brackets, as
    every real one).  A text that comes back with the placeholder gets the hash of the file
    in each assignment of it on a line of its own; it is refused with 400 exactly when the
    parser still sees the placeholder as the hash, as in an inline table, so the placeholder
    is never written as a hash.  In particular the text that was sent, put back unchanged, is
    exactly the old file, hash included, when in that file the hash stands in such
    assignments and nowhere else; otherwise it may be refused. *)
Theorem redact_keeps raw :
  let h := parsedHash env Decode raw in
  ((minLiteralHash <= String.length h)%nat -> Forall (fun c => c <> "<"%char /\ c <> ">"%char) (chars h) ->
     Contains (RedactRaw env Decode raw) h = false) /\
  (plain_value h -> h <> RedactedHash -> Forall (holds_only h) (Split raw nl) ->
   Contains (mapHashLiterals raw redact_value) h = false \/ (String.length h < minLiteralHash)%nat ->
     restore_body raw (RedactRaw env Decode raw) = inr raw) /\
  (forall body, match restore_body raw body with
   | inl status => status = 400 /\ Contains body RedactedHash = true /\ parsedHash env Decode (RestoreHash body (currentHash env Decode raw)) = RedactedHash
   | inr text => if Contains body RedactedHash then text = RestoreHash body (currentHash env Decode raw) /\ parsedHash env Decode text <> RedactedHash else text = body
   end).
Proof.
  intros h. unfold RedactRaw. fold h. split; [|split].
  - intros Hl Hc. rewrite (proj2 (Nat.leb_le _ _)) by done. apply ReplaceAll_clean; [done|]. unfold minLiteralHash in Hl. lia.
  - intros Hp Hne Ho Hnone. set (out := mapHashLiterals raw redact_value) in *.
    assert (Hout : (if (minLiteralHash <=? String.length h)%nat then ReplaceAll out h RedactedHash else out) = out).
    { destruct (Nat.leb_spec minLiteralHash (String.length h)); [|done]. destruct Hnone as [Hn|]; [by apply ReplaceAll_none|lia]. }
    rewrite Hout. unfold restore_body. destruct (Contains out RedactedHash) eqn:Ec; [|f_equal; by apply not_redacted].
    assert (Hr : RestoreHash out (currentHash env Decode raw) = raw).
    { unfold currentHash. fold h. destruct (String.eqb_spec h "") as [E|_]; cbn [negb]; [|by apply restore_redact_text].
      rewrite E in Ho. destruct (no_hash raw Ho) as [Hid Hrestore]. unfold out. rewrite Hid. apply Hrestore. }
    cbv zeta. rewrite Hr. fold h. rewrite (proj2 (String.eqb_neq _ _) Hne). done.
  - intros body. unfold restore_body. destruct (Contains body RedactedHash); [|done]. cbv zeta.
    by destruct (String.eqb_spec (parsedHash env Decode (RestoreHash body (currentHash env Decode raw))) RedactedHash).
Qed.
End Claim.

(** A file with an account, sent to the browser and put back. *)
Module Example_file.
Definition hash : string := "ab34567890123456789012345678901234567890123456789012345678901234".
Definition text : string :=
  Join ["[web]"; assignment "auth" (dq "basic"); assignment "password_hash" (dq hash); "# end"; ""] newline.
Definition Decode (raw : string) : string + Doc ConfigRules.Demo.value :=
  if String.eqb raw text
  then inr (ConfigRules.Demo.doc [("web", ConfigRules.Demo.VTable [("auth", ConfigRules.Demo.VStr "basic"); ("password_hash", ConfigRules.Demo.VStr hash)])])
  else inl "another text".
(** The hash in an inline table: the browser sees the placeholder, and the unchanged text is
    refused. *)
Definition inline (v : string) : string := String.append "web = { " (String.append (assignment "password_hash" (dq v)) (String.append " }" newline)).
Definition DecodeInline (raw : string) : string + Doc ConfigRules.Demo.value :=
  let web v := inr (ConfigRules.Demo.doc [("web", ConfigRules.Demo.VTable [("auth", ConfigRules.Demo.VStr "none"); ("password_hash", ConfigRules.Demo.VStr v)])]) in
  if String.eqb raw (inline hash) then web hash else if String.eqb raw (inline RedactedHash) then web RedactedHash else inl "another text".
Example inline_refused : RedactRaw "" DecodeInline (inline hash) = inline RedactedHash /\ restore_body "" DecodeInline (inline hash) (inline RedactedHash) = inl 400.
Proof. split; vm_compute; reflexivity. Qed.
End Example_file.
Lemma redact_keeps_witness :
  let sent := RedactRaw "" Example_file.Decode Example_file.text in
  sent = Join ["[web]"; assignment "auth" (dq "basic"); assignment "password_hash" (dq RedactedHash); "# end"; ""] newline /\
  Contains sent Example_file.hash = false /\
  restore_body "" Example_file.Decode Example_file.text sent = inr Example_file.text.
Proof.
  cbv zeta. split; [by vm_compute|].
  pose proof (redact_keeps "" Example_file.Decode Example_file.text) as H. cbv zeta in H.
  assert (Hh : parsedHash "" Example_file.Decode Example_file.text = Example_file.hash) by by vm_compute.
  rewrite Hh in H. destruct H as (H1 & H2 & _). split.
  - apply H1; [by vm_compute; lia|]. apply (bool_decide_unpack _). by vm_compute.
  - apply H2; [apply (bool_decide_unpack _); by vm_compute|done| |left; by vm_compute].
    assert (Hs : Split Example_file.text nl = ["[web]"; assignment "auth" (dq "basic"); assignment "password_hash" (dq Example_file.hash); "# end"; ""])
      by by vm_compute.
    rewrite Hs. repeat (apply Forall_cons; split; [vm_compute; auto|]). constructor.
Defined.
