(* ===== verification/Presets.v ===== *)
(** Channel presets (src/cmd/n5-fangov/wiring_presets.go, src/internal/config/presets.go
    and file.go): applying a preset to the configured channels, the preset directory,
    the built-in presets and the store behind /api/presets. *)
From stdpp Require Import base gmap strings list.
From Stdlib Require Import ZArith Lia Ascii.
From S2P Require Import Prelude GoLib GoNet GoPath ConfigTypes Curve ConfigFields ConfigWeb Ceiling ConfigChannels ConfigParse ConfigValid ConfigRules Sanitize.
Open Scope Z_scope.

(** ** Merging a preset into the configured channels *)

(** The preset channel [pc] in the place of [old]. *)
Definition merge_one (old pc : Channel) : Channel :=
  let pc := pc <| cc_Name := cc_Name old |> in
  let pc := if cc_PostSet pc then pc
            else pc <| cc_Hysteresis := cc_Hysteresis old |> <| cc_MinOn := cc_MinOn old |> <| cc_PostSet := cc_PostSet old |> in
  if cc_Ceiling pc =? 0 then pc <| cc_Ceiling := cc_Ceiling old |> else pc.
(** The loop over the preset: the list so far and the channels to add. *)
Fixpoint merge_known (cfgChans preset out : list Channel) : list Channel * list Channel :=
  match preset with
  | [] => (out, [])
  | pc :: preset' =>
      match last_index (cc_PWM pc) cfgChans with
      | Some i => merge_known cfgChans preset' (alter (fun old => merge_one old pc) i out)
      | None => let '(out, adds) := merge_known cfgChans preset' out in (out, pc :: adds)
      end
  end.
Definition pwm_name (pwm : Z) : string := String.append "pwm" (Itoa pwm).
Definition numbered (pwm n : Z) : string := String.append (pwm_name pwm) (String.append "_" (Itoa n)).
(** [for n := 2; names[pc.Name]; n++]: as many rounds as there are names are enough. *)
Fixpoint next_name (fuel : nat) (names : gset string) (pwm n : Z) (name : string) : string :=
  if bool_decide (name ∈ names) then
    match fuel with
    | O => name
    | S fuel' => next_name fuel' names pwm (n + 1) (numbered pwm n)
    end
  else name.
Definition add_one (st : list Channel * gset string) (pc : Channel) : list Channel * gset string :=
  let '(out, names) := st in
  let pc := if bool_decide (cc_Name pc ∈ names)
            then pc <| cc_Name := next_name (S (size names)) names (cc_PWM pc) 2 (pwm_name (cc_PWM pc)) |> else pc in
  (out ++ [pc], {[cc_Name pc]} ∪ names).
Definition mergeChannelsByPWM (cfgChans preset : list Channel) : list Channel :=
  let '(out, adds) := merge_known cfgChans preset cfgChans in
  (fold_left add_one adds (out, list_to_set (map cc_Name out))).1.

Example merge_ex :
  map (fun ch => (cc_Name ch, cc_PWM ch, cc_Ceiling ch))
    (mergeChannelsByPWM
       [mkChannel "pwm4" 1 "k10temp" DefaultCurve 88 "auto" 2 0 90 true; mkChannel "pwm4_2" 2 "nvme:max" DefaultCurve 70 "auto" 0 0 0 false]
       [mkChannel "cpu" 1 "k10temp" DefaultCurve 80 "auto" 0 0 0 false; mkChannel "pwm4" 4 "k10temp" DefaultCurve 80 "auto" 0 0 0 false])
  = [("pwm4", 1, 90); ("pwm4_2", 2, 0); ("pwm4_3", 4, 0)].
Proof. by vm_compute. Qed.

(** ** The names of the added channels *)
Lemma numbered_inj p a b : 0 <= a -> 0 <= b -> numbered p a = numbered p b -> a = b.
Proof. unfold numbered. intros ?? H. apply append_inj_l in H. injection H as H. by apply Itoa_inj. Qed.
Lemma next_name_cases fuel (names : gset string) p n name :
  (exists k, n <= k < n + Z.of_nat fuel /\ numbered p k ∉ names) ->
  next_name fuel names p n name ∉ names /\
  (next_name fuel names p n name = name \/
   exists k, n <= k < n + Z.of_nat fuel /\ next_name fuel names p n name = numbered p k).
Proof.
  revert n name. induction fuel as [|fuel IH]; intros n name (k & Hk & Hn); [lia|]. cbn.
  destruct (bool_decide_reflect (name ∈ names)) as [Hin|Hout]; [|by auto].
  destruct (decide (numbered p n ∈ names)) as [Hnn|Hnn].
  - destruct (IH (n + 1) (numbered p n)) as [H1 H2].
    { exists k. split; [|done]. destruct (decide (k = n)) as [->|]; [done|lia]. }
    split; [done|]. right. destruct H2 as [->|(j & Hj & ->)]; [by exists n; split; [lia|]|]. exists j. split; [lia|done].
  - assert (E : next_name fuel names p (n + 1) (numbered p n) = numbered p n) by (destruct fuel; cbn; by rewrite bool_decide_eq_false_2).
    rewrite E. split; [done|]. right. exists n. split; [lia|done].
Qed.
(** Some of the numbered names is free: there are more of them than names. *)
Lemma numbered_free (names : gset string) p : exists k, 2 <= k < 2 + Z.of_nat (S (size names)) /\ numbered p k ∉ names.
Proof.
  set (ks := seqZ 2 (Z.of_nat (S (size names)))). set (cand := map (numbered p) ks).
  assert (Hnd : NoDup cand).
  { unfold cand. apply NoDup_fmap_2_strong; [|apply NoDup_seqZ].
    intros a b Ha Hb. apply elem_of_seqZ in Ha, Hb. apply numbered_inj; lia. }
  destruct (decide (Forall (fun c => c ∈ names) cand)) as [Hall|Hno].
  - assert (Hsub : (list_to_set cand : gset string) ⊆ names) by (intros c Hc%elem_of_list_to_set; by eapply Forall_forall in Hall).
    apply subseteq_size in Hsub. rewrite size_list_to_set in Hsub by done. unfold cand, ks in Hsub. rewrite length_map, length_seqZ in Hsub. lia.
  - apply not_Forall_Exists, Exists_exists in Hno as (c & Hc & Hn); [|apply _]. apply list_elem_of_fmap in Hc as (k & -> & Hk).
    apply elem_of_seqZ in Hk. exists k. split; [lia|done].
Qed.

(** ** What a merge does *)
Definition for_pwm (preset : list Channel) (p : Z) : option Channel := find (fun pc => cc_PWM pc =? p) preset.
Definition in_place (preset : list Channel) (old : Channel) : Channel :=
  match for_pwm preset (cc_PWM old) with Some pc => merge_one old pc | None => old end.
Definition new_pwms (cfgChans preset : list Channel) : list Channel :=
  List.filter (fun pc => bool_decide (cc_PWM pc ∉ map cc_PWM cfgChans)) preset.
Lemma merge_one_fields old pc : let ch := merge_one old pc in
  cc_Name ch = cc_Name old /\ cc_PWM ch = cc_PWM pc /\ cc_Sensor ch = cc_Sensor pc /\ cc_Curve ch = cc_Curve pc /\
  cc_Critical ch = cc_Critical pc /\ cc_Stop ch = cc_Stop pc /\
  cc_Hysteresis ch = cc_Hysteresis (if cc_PostSet pc then pc else old) /\ cc_MinOn ch = cc_MinOn (if cc_PostSet pc then pc else old) /\
  cc_Ceiling ch = (if cc_Ceiling pc =? 0 then cc_Ceiling old else cc_Ceiling pc).
Proof.
  destruct old as [n0 p0 s0 c0 cr0 st0 h0 m0 ce0 ps0], pc as [n p s c cr st h m ce ps]. unfold merge_one. cbn.
  destruct ps; cbn; destruct (ce =? 0); cbn; done.
Qed.
Lemma for_pwm_Some preset p pc : for_pwm preset p = Some pc -> pc ∈ preset /\ cc_PWM pc = p.
Proof. intros [H1 H2]%find_some. split; [by apply list_elem_of_In|lia]. Qed.
Lemma for_pwm_None preset p : p ∉ map cc_PWM preset -> for_pwm preset p = None.
Proof.
  intros Hn. destruct (for_pwm preset p) as [pc|] eqn:E; [|done]. apply for_pwm_Some in E as [Hin <-]. destruct Hn. by apply list_elem_of_fmap_2.
Qed.
Lemma for_pwm_in preset pc : NoDup (map cc_PWM preset) -> pc ∈ preset -> for_pwm preset (cc_PWM pc) = Some pc.
Proof.
  intros Hnd Hin. destruct (for_pwm preset (cc_PWM pc)) as [qc|] eqn:E.
  - apply for_pwm_Some in E as [Hq Hp]. apply list_elem_of_lookup in Hin as [i Hi], Hq as [j Hj].
    assert (i = j) as -> by (eapply (NoDup_lookup (map cc_PWM preset)); [done|by rewrite list_lookup_fmap, Hi|rewrite list_lookup_fmap, Hj; cbn; by rewrite Hp]).
    by simplify_eq.
  - apply list_elem_of_In in Hin. pose proof (find_none _ _ E _ Hin) as Hf. cbn in Hf. lia.
Qed.
Lemma in_place_pwm preset old : cc_PWM (in_place preset old) = cc_PWM old /\ cc_Name (in_place preset old) = cc_Name old.
Proof.
  unfold in_place. destruct (for_pwm preset (cc_PWM old)) as [pc|] eqn:E; [|done]. apply for_pwm_Some in E as [_ E].
  destruct (merge_one_fields old pc) as (-> & -> & _). done.
Qed.
Lemma last_index_here cfgChans k ch : NoDup (map cc_PWM cfgChans) -> cfgChans !! k = Some ch -> last_index (cc_PWM ch) cfgChans = Some k.
Proof.
  intros Hnd Hk. destruct (last_index (cc_PWM ch) cfgChans) as [j|] eqn:E; [by rewrite (last_index_unique _ _ _ _ _ Hnd E Hk)|].
  apply last_index_None in E. eapply Forall_lookup_1 in E; [|exact Hk]. done.
Qed.
Lemma merge_known_spec cfgChans preset out :
  NoDup (map cc_PWM cfgChans) -> NoDup (map cc_PWM preset) -> map cc_PWM out = map cc_PWM cfgChans ->
  merge_known cfgChans preset out = (map (in_place preset) out, new_pwms cfgChans preset).
Proof.
  intros Hc. revert out. induction preset as [|pc preset IH]; intros out Hp Ho.
  { cbn. f_equal. symmetry. etrans; [apply list_fmap_ext|apply list_fmap_id]. done. }
  cbn in Hp. apply NoDup_cons in Hp as [Hnew Hp]. cbn [merge_known new_pwms List.filter].
  assert (Hat : forall j ch, out !! j = Some ch -> exists c, cfgChans !! j = Some c /\ cc_PWM c = cc_PWM ch).
  { intros j ch Hj. pose proof (f_equal (fun l => l !! j) Ho) as E. rewrite !list_lookup_fmap, Hj in E. destruct (cfgChans !! j) as [c|]; [|done].
    exists c. split; [done|]. by injection E. }
  destruct (last_index (cc_PWM pc) cfgChans) as [i|] eqn:E.
  - apply last_index_Some in E as E'. destruct E' as (c & Hi & Hpc).
    rewrite bool_decide_eq_false_2 by (intros H; apply H; rewrite <- Hpc; apply list_elem_of_fmap_2; by eapply list_elem_of_lookup_2).
    rewrite IH; [|done|].
    + f_equal. apply list_eq. intros j. rewrite !list_lookup_fmap. destruct (decide (j = i)) as [->|Hne].
      * rewrite list_lookup_alter_eq. destruct (out !! i) as [old|] eqn:Eo; [|done]. cbn. f_equal.
        destruct (Hat _ _ Eo) as (c' & Hc' & Hp'). rewrite Hi in Hc'. injection Hc' as <-.
        unfold in_place. destruct (merge_one_fields old pc) as (_ & -> & _). rewrite (for_pwm_None preset) by done.
        cbn. by rewrite <- Hp', Hpc, Z.eqb_refl.
      * rewrite list_lookup_alter_ne by done. destruct (out !! j) as [old|] eqn:Eo; [|done]. cbn. f_equal.
        destruct (Hat _ _ Eo) as (c' & Hc' & Hp'). unfold in_place. cbn. rewrite (proj2 (Z.eqb_neq (cc_PWM pc) (cc_PWM old))); [done|].
        intros Heq. apply Hne. apply (last_index_unique (cc_PWM pc) cfgChans i j c' Hc E Hc'). by rewrite Hp'.
    + rewrite <- Ho. apply list_eq. intros j. rewrite !list_lookup_fmap. destruct (decide (j = i)) as [->|Hne].
      * rewrite list_lookup_alter_eq. destruct (out !! i) as [old|] eqn:Eo; [|done]. cbn. f_equal.
        destruct (merge_one_fields old pc) as (_ & -> & _). destruct (Hat _ _ Eo) as (c' & Hc' & Hp'). rewrite Hi in Hc'. injection Hc' as <-. by rewrite <- Hpc.
      * by rewrite list_lookup_alter_ne.
  - apply last_index_None in E. rewrite bool_decide_eq_true_2.
    2: { intros (c & Hpc & Hin)%list_elem_of_fmap. eapply Forall_forall in E; [|exact Hin]. congruence. }
    rewrite IH by done. f_equal. apply list_fmap_ext. intros j ch Hj. destruct (Hat _ _ Hj) as (c & Hcj & Hpc).
    unfold in_place. cbn. rewrite (proj2 (Z.eqb_neq (cc_PWM pc) (cc_PWM ch))); [done|]. eapply Forall_lookup_1 in E; [|exact Hcj]. congruence.
Qed.

(** The added channel [ch] is [pc], under a name that is one of three kinds. *)
Definition added_as (bound : nat) (pc ch : Channel) : Prop := ch = pc <| cc_Name := cc_Name ch |> /\
  (cc_Name ch = cc_Name pc \/ cc_Name ch = pwm_name (cc_PWM pc) \/
   exists k, 2 <= k <= Z.of_nat bound + 2 /\ cc_Name ch = numbered (cc_PWM pc) k).
Lemma add_one_spec (bound : nat) out pc : NoDup (map cc_Name out) -> (length out <= bound)%nat ->
  exists ch, add_one (out, list_to_set (map cc_Name out)) pc = (out ++ [ch], list_to_set (map cc_Name (out ++ [ch]))) /\
    added_as bound pc ch /\ NoDup (map cc_Name (out ++ [ch])).
Proof.
  intros Hnd Hlen. set (names := list_to_set (map cc_Name out) : gset string).
  assert (Hset : forall ch, list_to_set (map cc_Name (out ++ [ch])) = {[cc_Name ch]} ∪ names).
  { intros ch. unfold names. rewrite map_app, list_to_set_app_L. cbn. set_solver. }
  assert (Hfree : forall ch, cc_Name ch ∉ names -> NoDup (map cc_Name (out ++ [ch]))).
  { intros ch Hn. rewrite map_app. apply NoDup_app. split; [done|]. split; [|apply NoDup_singleton].
    intros x Hx ->%list_elem_of_singleton. apply Hn. by apply elem_of_list_to_set. }
  unfold add_one. fold names. destruct (bool_decide_reflect (cc_Name pc ∈ names)) as [Hin|Hout].
  - set (n := next_name (S (size names)) names (cc_PWM pc) 2 (pwm_name (cc_PWM pc))).
    destruct (next_name_cases (S (size names)) names (cc_PWM pc) 2 (pwm_name (cc_PWM pc)) (numbered_free names (cc_PWM pc))) as [Hn Hk]. fold n in Hn, Hk.
    assert (Hsz : (size names <= bound)%nat).
    { unfold names. rewrite size_list_to_set by done. by rewrite length_map. }
    exists (pc <| cc_Name := n |>). rewrite Hset. destruct pc as [n0 p s c cr st h m ce ps]. cbn in Hn, Hk |- *. split; [done|].
    split; [|by apply Hfree]. split; [done|]. right. destruct Hk as [Hk|(k & Hk & E)]; [by left|]. right. exists k. split; [lia|exact E].
  - exists pc. rewrite Hset. split; [done|]. split; [|by apply Hfree]. split; [by destruct pc|by left].
Qed.
Lemma adds_spec (bound : nat) adds out : NoDup (map cc_Name out) -> (length out + length adds <= bound)%nat ->
  exists added, (fold_left add_one adds (out, list_to_set (map cc_Name out))).1 = out ++ added /\
    Forall2 (added_as bound) adds added /\ NoDup (map cc_Name (out ++ added)).
Proof.
  revert out. induction adds as [|pc adds IH]; intros out Hnd Hlen; cbn [fold_left length] in *.
  - exists []. rewrite app_nil_r. split_and!; [done|constructor|done].
  - destruct (add_one_spec bound out pc Hnd ltac:(lia)) as (ch & -> & Ha & Hnd').
    destruct (IH (out ++ [ch]) Hnd') as (added & -> & Hf & Hn); [rewrite length_app; cbn; lia|].
    exists (ch :: added). rewrite <- app_assoc in Hn |- *. split_and!; [done|by constructor|done].
Qed.

(** ** A merge of valid channels *)
Definition no_ceiling (ch : Channel) : Channel := ch <| cc_Ceiling := 0 |>.
Lemma valid_no_ceiling ch : channel_valid ch -> channel_valid (no_ceiling ch).
Proof. destruct ch. unfold channel_valid, no_ceiling. cbn. intros (? & ? & ? & ? & ? & ? & ? & ? & _). split_and!; tauto. Qed.
Lemma merge_one_valid old pc : channel_valid old -> channel_valid pc -> channel_valid (no_ceiling (merge_one old pc)).
Proof.
  intros Ho Hp. destruct (merge_one_fields old pc) as (E1 & E2 & E3 & E4 & E5 & E6 & E7 & E8 & _).
  destruct (merge_one old pc) as [n p s c cr st h m ce ps]. cbn in *. subst. unfold channel_valid, no_ceiling in *. cbn.
  destruct Ho as (Hn & _ & _ & _ & _ & _ & Hh & Hm & _), Hp as (_ & ? & ? & ? & ? & ? & Hh' & Hm' & _).
  split_and!; try tauto; destruct (cc_PostSet pc); tauto.
Qed.
(** Only the ceiling may be wrong: a configured one above the built-in ceiling of the
    preset's sensor. *)
Lemma BuiltinCeiling_pos dk id : 0 < BuiltinCeiling dk id.
Proof. unfold BuiltinCeiling. destruct (lowest_PartCeilings dk id 0) as (_ & H & _). cbv zeta. destruct (_ =? 0); unfold CeilingDefault; lia. Qed.
Definition ceiling_set (ch : Channel) : Prop := cc_Ceiling ch = 0 \/ MinCeiling <= cc_Ceiling ch.
Lemma valid_ceiling_set ch : channel_valid ch -> ceiling_set ch.
Proof. intros (_ & _ & _ & _ & _ & _ & _ & _ & H). unfold ceiling_set. lia. Qed.
Lemma valid_but_ceiling ch : channel_valid (no_ceiling ch) -> ceiling_set ch ->
  (channel_valid ch <-> cc_Ceiling ch <= BuiltinCeiling None (cc_Sensor ch)).
Proof.
  intros Hv Hc. pose proof (BuiltinCeiling_pos None (cc_Sensor ch)) as Hb. destruct ch as [n p s c cr st h m ce ps].
  unfold channel_valid, no_ceiling, ceiling_set in *. cbn in *. destruct Hv as (? & ? & ? & ? & ? & ? & ? & ? & _).
  split; [intros (_ & _ & _ & _ & _ & _ & _ & _ & Hx); lia|]. intros Hle. split_and!; try tauto; lia.
Qed.
Lemma in_place_ceiling preset old : Forall channel_valid preset -> channel_valid old -> ceiling_set (in_place preset old).
Proof.
  intros Hp Ho. unfold in_place. destruct (for_pwm preset (cc_PWM old)) as [pc|] eqn:E; [|by apply valid_ceiling_set].
  apply for_pwm_Some in E as [Hin _]. eapply Forall_forall in Hp; [|exact Hin]. apply valid_ceiling_set in Hp, Ho.
  destruct (merge_one_fields old pc) as (_ & _ & _ & _ & _ & _ & _ & _ & E). unfold ceiling_set in *. rewrite E.
  by destruct (cc_Ceiling pc =? 0).
Qed.
Lemma in_place_valid preset old : Forall channel_valid preset -> channel_valid old -> channel_valid (no_ceiling (in_place preset old)).
Proof.
  intros Hp Ho. unfold in_place. destruct (for_pwm preset (cc_PWM old)) as [pc|] eqn:E; [|by apply valid_no_ceiling].
  apply for_pwm_Some in E as [Hin _]. apply merge_one_valid; [done|]. by eapply Forall_forall in Hp.
Qed.
Lemma pwm_names_ok p : 1 <= p <= MaxPWM -> nameRe (pwm_name p) = true /\ forall k, 2 <= k <= 10 -> nameRe (numbered p k) = true.
Proof.
  intros Hp. assert (H : forallb (fun p => nameRe (pwm_name p) && forallb (fun k => nameRe (numbered p k)) (seqZ 2 9)) (seqZ 1 8) = true) by (by vm_compute).
  rewrite forallb_forall in H. unfold MaxPWM in Hp.
  specialize (H p). rewrite <- list_elem_of_In, elem_of_seqZ in H. specialize (H ltac:(lia)). apply andb_prop in H as [H1 H2]. split; [done|].
  intros k Hk. rewrite forallb_forall in H2. apply H2. apply list_elem_of_In, elem_of_seqZ. lia.
Qed.
Lemma added_valid pc ch : channel_valid pc -> added_as 8 pc ch -> channel_valid ch.
Proof.
  intros Hv [E Hn]. assert (Hname : nameRe (cc_Name ch) = true).
  { destruct Hv as (Hv & Hp & _). destruct (pwm_names_ok _ Hp) as [H1 H2]. destruct Hn as [->|[->|(k & Hk & ->)]]; [done..|]. apply H2. lia. }
  destruct pc, ch. cbn in *. injection E as -> -> -> -> -> -> -> -> ->. unfold channel_valid in *. cbn in *. tauto.
Qed.
Lemma added_all_valid cfgChans preset added : Forall channel_valid preset ->
  Forall2 (added_as 8) (new_pwms cfgChans preset) added -> Forall channel_valid added.
Proof.
  intros Hp Hadd. apply Forall_forall. intros ch Hin. apply list_elem_of_lookup in Hin as [i Hi]. destruct (Forall2_lookup_r _ _ _ _ _ Hadd Hi) as (pc & Hpc & Ha).
  eapply added_valid; [|exact Ha]. apply list_elem_of_lookup_2 in Hpc. unfold new_pwms in Hpc. rewrite list_elem_of_In, filter_In, <- list_elem_of_In in Hpc.
  destruct Hpc as [Hpc _]. by eapply Forall_forall in Hp.
Qed.
Lemma merged_valid cfgChans preset added : Forall channel_valid preset -> Forall channel_valid cfgChans -> Forall channel_valid added ->
  Forall (fun ch => channel_valid (no_ceiling ch) /\ ceiling_set ch) (map (in_place preset) cfgChans ++ added).
Proof.
  intros Hp Hc Ha. apply Forall_app. split.
  - apply Forall_forall. intros ch (old & -> & Hin)%list_elem_of_fmap. eapply Forall_forall in Hc; [|exact Hin].
    split; [by apply in_place_valid|by apply in_place_ceiling].
  - eapply Forall_impl; [exact Ha|]. intros ch H. split; [by apply valid_no_ceiling|by apply valid_ceiling_set].
Qed.
Lemma in_place_fits (cfgChans preset : list Channel) old : Forall channel_valid preset -> channel_valid old -> old ∈ cfgChans ->
  (forall old pc, old ∈ cfgChans -> pc ∈ preset -> cc_PWM pc = cc_PWM old -> cc_Ceiling pc = 0 ->
     cc_Ceiling old <= BuiltinCeiling None (cc_Sensor pc)) ->
  cc_Ceiling (in_place preset old) <= BuiltinCeiling None (cc_Sensor (in_place preset old)).
Proof.
  intros Hp Ho Hin Hfit. unfold in_place. destruct (for_pwm preset (cc_PWM old)) as [pc|] eqn:E.
  - apply for_pwm_Some in E as [Hpc Hpwm]. destruct (merge_one_fields old pc) as (_ & _ & -> & _ & _ & _ & _ & _ & ->).
    destruct (Z.eqb_spec (cc_Ceiling pc) 0) as [E0|E0]; [by eapply Hfit|]. eapply Forall_forall in Hp; [|exact Hpc].
    destruct Hp as (_ & _ & _ & _ & _ & _ & _ & _ & H). lia.
  - pose proof (BuiltinCeiling_pos None (cc_Sensor old)). destruct Ho as (_ & _ & _ & _ & _ & _ & _ & _ & Hx). lia.
Qed.
(** At most eight channels have distinct pwms. *)
Lemma pwms_eight (chs : list Channel) : Forall (fun p => 1 <= p <= MaxPWM) (map cc_PWM chs) -> NoDup (map cc_PWM chs) -> (length chs <= 8)%nat.
Proof.
  intros Hf Hnd. rewrite <- (length_map cc_PWM). change 8%nat with (length (seqZ 1 8)). apply submseteq_length, NoDup_submseteq; [done|].
  intros p Hp. apply elem_of_seqZ. unfold MaxPWM in Hf. eapply Forall_forall in Hf; [|exact Hp]. cbn in Hf. lia.
Qed.

(** ** The channel set after a merge *)
Lemma name_to_pwm_from (chs : list Channel) (m : gmap string Z) ch : NoDup (map cc_Name chs) -> ch ∈ chs ->
  fold_left (fun m ch => <[cc_Name ch := cc_PWM ch]> m) chs m !! cc_Name ch = Some (cc_PWM ch).
Proof.
  revert m. induction chs as [|c chs IH]; intros m Hnd Hin; [by apply not_elem_of_nil in Hin|]. cbn in Hnd |- *.
  apply NoDup_cons in Hnd as [Hnew Hnd]. apply elem_of_cons in Hin as [->|Hin]; [|by apply IH].
  assert (Hkeep : forall l (m' : gmap string Z), cc_Name c ∉ map cc_Name l -> fold_left (fun m ch => <[cc_Name ch := cc_PWM ch]> m) l m' !! cc_Name c = m' !! cc_Name c).
  { clear. induction l as [|x l IH]; intros m' Hn; [done|]. cbn in Hn |- *. apply not_elem_of_cons in Hn as [Hx Hn]. rewrite IH by done. by rewrite lookup_insert_ne. }
  rewrite Hkeep by done. by rewrite lookup_insert_eq.
Qed.
Lemma same_set (f : Channel -> Channel) (chs : list Channel) : NoDup (map cc_Name chs) ->
  (forall ch, cc_Name (f ch) = cc_Name ch /\ cc_PWM (f ch) = cc_PWM ch) -> sameChannelSet chs (map f chs) = true.
Proof.
  intros Hnd Hf. unfold sameChannelSet. rewrite length_map, Nat.eqb_refl. cbn. apply forallb_forall. intros x Hx%list_elem_of_In.
  apply list_elem_of_fmap in Hx as (ch & -> & Hin). destruct (Hf ch) as [-> ->]. unfold name_to_pwm. rewrite name_to_pwm_from by done. lia.
Qed.

(** The kept channels keep their names and pwms; the added ones are those of new pwms. *)
Lemma kept_keys preset chs :
  map cc_Name (map (in_place preset) chs) = map cc_Name chs /\ map cc_PWM (map (in_place preset) chs) = map cc_PWM chs.
Proof. split; rewrite map_map; apply list_fmap_ext; intros; apply in_place_pwm. Qed.
Lemma elem_of_new_pwms cfgChans preset pc : pc ∈ new_pwms cfgChans preset <-> pc ∈ preset /\ cc_PWM pc ∉ map cc_PWM cfgChans.
Proof. unfold new_pwms. rewrite list_elem_of_In, filter_In, <- list_elem_of_In. by rewrite bool_decide_eq_true. Qed.
Lemma merged_pwms cfgChans preset : NoDup (map cc_PWM cfgChans) -> NoDup (map cc_PWM preset) ->
  NoDup (map cc_PWM (map (in_place preset) cfgChans ++ new_pwms cfgChans preset)).
Proof.
  intros Hcp Hpp. rewrite map_app, (proj2 (kept_keys _ _)). apply NoDup_app. split; [done|]. split.
  - intros p Hin (pc & -> & Hpc%elem_of_new_pwms)%list_elem_of_fmap. tauto.
  - unfold new_pwms. induction preset as [|x l IH]; [constructor|]. cbn in Hpp |- *. apply NoDup_cons in Hpp as [Hx Hl].
    destruct (bool_decide _); [|by apply IH]. cbn. apply NoDup_cons. split; [|by apply IH]. contradict Hx.
    apply list_elem_of_fmap in Hx as (y & -> & [Hy _]%elem_of_new_pwms). by apply list_elem_of_fmap_2.
Qed.
Lemma merge_shape cfgChans preset : channels_ok cfgChans -> channels_ok preset -> exists added,
  mergeChannelsByPWM cfgChans preset = map (in_place preset) cfgChans ++ added /\
  Forall2 (added_as 8) (new_pwms cfgChans preset) added /\
  NoDup (map cc_Name (map (in_place preset) cfgChans ++ added)) /\ NoDup (map cc_PWM (map (in_place preset) cfgChans ++ added)).
Proof.
  intros (Hc & Hcn & Hcp) (Hp & Hpn & Hpp). destruct (kept_keys preset cfgChans) as [Hkn Hkp]. pose proof (merged_pwms _ _ Hcp Hpp) as Hpwms.
  destruct (adds_spec 8 (new_pwms cfgChans preset) (map (in_place preset) cfgChans)) as (added & Eadd & Hadd & Hnames); [by rewrite Hkn| |].
  { rewrite <- length_app. apply pwms_eight; [|done]. rewrite map_app, Hkp. apply Forall_app. split; apply Forall_forall; intros p (ch & -> & Hch)%list_elem_of_fmap.
    - eapply Forall_forall in Hc; [|exact Hch]. apply Hc.
    - apply elem_of_new_pwms in Hch as [Hch _]. eapply Forall_forall in Hp; [|exact Hch]. apply Hp. }
  exists added. split_and!; [|done|done|].
  - unfold mergeChannelsByPWM. rewrite merge_known_spec by done. exact Eadd.
  - rewrite map_app. assert (map cc_PWM added = map cc_PWM (new_pwms cfgChans preset)) as ->; [|by rewrite <- map_app].
    clear -Hadd. induction Hadd as [|pc ch l l' [E _] _ IH]; [done|]. cbn. rewrite IH. f_equal. rewrite E. by destruct pc.
Qed.

(** C20: applying a preset changes the channels it names and nothing else.  For a valid
    configuration and a valid preset the result is the configured channels in their
    order - each under its name, replaced in place if the preset has its pwm and
    untouched otherwise - and then the preset's other channels, unchanged up to a new
    name where theirs is taken.  Names and pwms stay distinct; every curve of the preset
    arrives; if the preset brings no new pwm the channel set is the same, so no restart
    is needed.  A configured ceiling stays unless the preset has one of its own.  That
    also holds if the preset changes the sensor, so validity has one exception: a channel
    of the result is valid exactly if its ceiling is at most the built-in ceiling of its
    sensor, and the whole result is valid if every configured ceiling that stays fits the
    preset's sensor ([merge_ceiling_ex]: one that does not). *)
Theorem merge_by_pwm cfgChans preset : channels_ok cfgChans -> channels_ok preset ->
  let out := mergeChannelsByPWM cfgChans preset in
  (exists added, out = map (in_place preset) cfgChans ++ added /\ Forall2 (added_as 8) (new_pwms cfgChans preset) added) /\
  NoDup (map cc_Name out) /\ NoDup (map cc_PWM out) /\ Forall (fun ch => channel_valid (no_ceiling ch)) out /\
  Forall (fun ch => channel_valid ch <-> cc_Ceiling ch <= BuiltinCeiling None (cc_Sensor ch)) out /\
  ((forall old pc, old ∈ cfgChans -> pc ∈ preset -> cc_PWM pc = cc_PWM old -> cc_Ceiling pc = 0 ->
      cc_Ceiling old <= BuiltinCeiling None (cc_Sensor pc)) -> channels_ok out) /\
  (forall pc, pc ∈ preset -> exists ch, ch ∈ out /\ cc_PWM ch = cc_PWM pc /\ cc_Sensor ch = cc_Sensor pc /\ cc_Curve ch = cc_Curve pc /\
     cc_Critical ch = cc_Critical pc /\ cc_Stop ch = cc_Stop pc) /\
  (forall old, old ∈ cfgChans -> exists ch, ch ∈ out /\ cc_Name ch = cc_Name old /\ cc_PWM ch = cc_PWM old /\
     (cc_PWM old ∉ map cc_PWM preset -> ch = old) /\ (cc_Ceiling ch = 0 -> cc_Ceiling old = 0)) /\
  (map cc_PWM preset ⊆ map cc_PWM cfgChans -> sameChannelSet cfgChans out = true).
Proof.
  intros Hcok Hpok. pose proof Hcok as (Hc & Hcn & Hcp). pose proof Hpok as (Hp & Hpn & Hpp).
  destruct (merge_shape _ _ Hcok Hpok) as (added & -> & Hadd & Hnames & Hpwms). pose proof (added_all_valid _ _ _ Hp Hadd) as Hav.
  pose proof (merged_valid _ _ _ Hp Hc Hav) as Hval. cbn zeta. split_and!; [by exists added|done|done| | | | | |].
  - eapply Forall_impl; [exact Hval|]. by intros ch [H _].
  - eapply Forall_impl; [exact Hval|]. intros ch [H1 H2]. by apply valid_but_ceiling.
  - intros Hfit. split; [|done]. apply Forall_app. split; [|done]. apply Forall_forall. intros ch (old & -> & Hin)%list_elem_of_fmap.
    rewrite Forall_forall in Hc. specialize (Hc old Hin). apply valid_but_ceiling; [by apply in_place_valid|by apply in_place_ceiling|].
    by apply (in_place_fits cfgChans).
  - intros pc Hin. destruct (decide (cc_PWM pc ∈ map cc_PWM cfgChans)) as [Hold|Hnew].
    + apply list_elem_of_fmap in Hold as (old & E & Ho). exists (in_place preset old). split; [apply elem_of_app; left; by apply list_elem_of_fmap_2|].
      unfold in_place. rewrite <- E, for_pwm_in by done. destruct (merge_one_fields old pc) as (_ & ? & ? & ? & ? & ? & _). done.
    + assert (Ha : pc ∈ new_pwms cfgChans preset) by (by apply elem_of_new_pwms). apply list_elem_of_lookup in Ha as [i Hi]. destruct (Forall2_lookup_l _ _ _ _ _ Hadd Hi) as (ch & Hch & [E _]).
      exists ch. split; [apply elem_of_app; right; by eapply list_elem_of_lookup_2|]. rewrite E. by destruct pc.
  - intros old Ho. exists (in_place preset old). split; [apply elem_of_app; left; by apply list_elem_of_fmap_2|].
    destruct (in_place_pwm preset old) as [-> ->]. split_and!; [done|done| |].
    + intros Hn. unfold in_place. by rewrite for_pwm_None.
    + unfold in_place. destruct (for_pwm _ _) as [pc|]; [|done]. destruct (merge_one_fields old pc) as (_ & _ & _ & _ & _ & _ & _ & _ & ->).
      destruct (cc_Ceiling pc =? 0) eqn:E; [done|]. intros H. lia.
  - intros Hsub. destruct (new_pwms cfgChans preset) as [|pc l] eqn:E.
    + apply Forall2_nil_inv_l in Hadd as ->. rewrite app_nil_r. apply same_set; [done|]. intros ch. by destruct (in_place_pwm preset ch).
    + assert (Hin : pc ∈ new_pwms cfgChans preset) by (rewrite E; left). apply elem_of_new_pwms in Hin as [H1 H2]. destruct H2. apply Hsub. by apply list_elem_of_fmap_2.
Qed.

(** Two channels of one name: the preset has the configured pwm and a new one. *)
Module Merge_example.
Definition preset : list Channel :=
  [ConfigRules.demo_channel <| cc_Critical := 70 |>; ConfigRules.demo_channel <| cc_Name := "fan" |> <| cc_PWM := 5 |>].
Definition cfg : list Channel := [ConfigRules.demo_channel <| cc_Name := "fan" |>].
Lemma variant_valid name pwm critical : nameRe name = true -> 1 <= pwm <= MaxPWM -> 55 < critical <= MaxCritical ->
  channel_valid (ConfigRules.demo_channel <| cc_Name := name |> <| cc_PWM := pwm |> <| cc_Critical := critical |>).
Proof. destruct (ConfigRules.demo_valid) as (Hv%Forall_inv & _ & _). unfold channel_valid in *. cbn in *. tauto. Qed.
Lemma examples_ok : channels_ok cfg /\ channels_ok preset.
Proof.
  assert (Hr : 1 <= 3 <= MaxPWM /\ 1 <= 5 <= MaxPWM /\ 55 < 60 <= MaxCritical /\ 55 < 70 <= MaxCritical) by (unfold MaxPWM, MaxCritical; lia).
  destruct Hr as (? & ? & ? & ?). split; split_and!; try (apply (bool_decide_unpack _); by vm_compute).
  - constructor; [by apply (variant_valid "fan" 3 60)|constructor].
  - constructor; [by apply (variant_valid "hdd" 3 70)|]. constructor; [by apply (variant_valid "fan" 5 60)|constructor].
Qed.
End Merge_example.
Lemma merge_by_pwm_witness :
  map (fun ch => (cc_Name ch, cc_PWM ch, cc_Critical ch)) (mergeChannelsByPWM Merge_example.cfg Merge_example.preset) = [("fan", 3, 70); ("pwm5", 5, 60)] /\
  channels_ok (mergeChannelsByPWM Merge_example.cfg Merge_example.preset).
Proof.
  split; [by vm_compute|]. destruct Merge_example.examples_ok as [H1 H2].
  destruct (merge_by_pwm Merge_example.cfg Merge_example.preset H1 H2) as (_ & _ & _ & _ & _ & Hok & _). apply Hok.
  intros old pc _ Hpc _ E. apply elem_of_cons in Hpc as [->|Hpc]; [by vm_compute in E|]. apply list_elem_of_singleton in Hpc as ->. by vm_compute in E.
Defined.
(** A lowered ceiling stays when the preset brings another sensor: 85 degrees are valid
    for the CPU and above the built-in 65 of the disks.  The loop enforces 65 either way,
    but the file written has a ceiling the parser warns about and drops. *)
Example merge_ceiling_ex :
  let out := mergeChannelsByPWM [ConfigRules.demo_channel <| cc_Sensor := "k10temp" |> <| cc_Ceiling := 85 |>]
               [ConfigRules.demo_channel <| cc_Sensor := "drivetemp:max" |> <| cc_Ceiling := 0 |>] in
  (map (fun ch => (cc_Sensor ch, cc_Ceiling ch)) out, BuiltinCeiling None "k10temp", BuiltinCeiling None "drivetemp:max",
   EffectiveCeiling None "drivetemp:max" 85, EffectiveCeiling None "drivetemp:max" 0)
  = ([("drivetemp:max", 85)], 100, 65, 65, 65).
Proof. by vm_compute. Qed.
