(* ===== verification/ConfigFiles.v ===== *)
(** The files of the configuration (src/internal/config/config.go, file.go, presets.go):
    writing a value as text, saving the configuration, the preset directory and the presets
    built into the program.

    The file system is an interface: reading changes nothing, and the three operations
    that change it answer with an error or nothing.  An atomic write is one operation. *)
From stdpp Require Import base gmap strings list sorting.
From Stdlib Require Import ZArith Lia Ascii.
From S2P Require Import Prelude GoLib GoNet GoTime GoPath ConfigTypes Curve ConfigFields ConfigWeb ConfigParse ConfigRules ConfigEdit ConfigTables Hwmon WebRedact.
Open Scope Z_scope.

Inductive FsErr := FsNotExist | FsExist | FsOther (msg : string).
Class Files (W : Type) := {
  fs_ReadFile : W -> string -> FsErr + string;
  (** [os.Stat] *)
  fs_Stat : W -> string -> option FsErr;
  (** the permission bits of a regular file *)
  fs_Perm : W -> string -> option Z;
  (** [os.ReadDir]: names, and which are directories *)
  fs_ReadDir : W -> string -> option (list (string * bool));
  (** [writeAtomic] *)
  fs_Write : string -> string -> Z -> M W (option FsErr);
  fs_Remove : string -> M W (option FsErr);
  fs_Rename : string -> string -> M W (option FsErr) }.

(** ** Presets built into the program *)
Record BuiltinPreset := mkBuiltin { bp_Name : string; bp_Description : string; bp_Profile : string; bp_Raw : string }.
(** The leading comment block. *)
Fixpoint header_lines (ls : list string) (description profile : string) : string * string :=
  match ls with
  | [] => (description, profile)
  | ln :: ls' =>
      let line := TrimSpace ln in
      if String.eqb line "" then header_lines ls' description profile
      else if negb (HasPrefix line "#") then (description, profile)
      else
        let body := TrimSpace (TrimPrefix line "#") in
        if HasPrefix body "description:" then header_lines ls' (TrimSpace (TrimPrefix body "description:")) profile
        else if HasPrefix body "profile:" then header_lines ls' description (TrimSpace (TrimPrefix body "profile:"))
        else header_lines ls' description profile
  end.
Definition presetHeader (raw : string) : string * string := header_lines (ScanLines raw) "" "".
Definition toml_stem (name : string) : option string := if HasSuffix name ".toml" then Some (TrimSuffix name ".toml") else None.
Definition preset_of_entry (e : string * bool * option string) : option BuiltinPreset :=
  let '(name, dir, raw) := e in
  if (dir : bool) then None
  else match toml_stem name, raw with
  | Some stem, Some raw => let '(d, p) := presetHeader raw in Some (mkBuiltin stem d p raw)
  | _, _ => None
  end.
Definition builtin_order (a b : BuiltinPreset) : Prop := String.le (bp_Name a) (bp_Name b).
#[export] Instance builtin_order_dec : RelDecision builtin_order.
Proof. intros a b. unfold builtin_order. apply _. Defined.
(** [embedded]: the entries of the embedded directory, None for one that does not read. *)
Definition loadBuiltinPresets (embedded : list (string * bool * option string)) : list BuiltinPreset :=
  merge_sort builtin_order (omap preset_of_entry embedded).
Definition BuiltinPresets (all : list BuiltinPreset) (profile : string) : list BuiltinPreset :=
  List.filter (fun p => String.eqb profile "" || String.eqb (bp_Profile p) profile) all.
Definition BuiltinPresetByName (all : list BuiltinPreset) (name : string) : option BuiltinPreset :=
  find (fun p => String.eqb (bp_Name p) name) all.
Definition IsBuiltinPreset (all : list BuiltinPreset) (name : string) : bool :=
  match BuiltinPresetByName all name with Some _ => true | None => false end.

(** ** A value as text *)
Fixpoint span_digits (l : list ascii) : list ascii * list ascii :=
  match l with
  | c :: l' => if between "0" "9" c then let '(a, b) := span_digits l' in (c :: a, b) else ([], l)
  | [] => ([], [])
  end.
Definition dquote : ascii := "034"%char.
(** The pattern on one line, its two groups: blanks, stop, blanks, the equals sign and
    blanks; then digits in double quotes, and only blanks after them. *)
Definition quotedStop (line : string) : option (list ascii * list ascii) :=
  let '(b1, l) := span_blank (chars line) in
  match strip (chars "stop") l with
  | None => None
  | Some l =>
      let '(b2, l) := span_blank l in
      match strip ["="%char] l with
      | None => None
      | Some l =>
          let '(b3, l) := span_blank l in
          match strip [dquote] l with
          | None => None
          | Some l =>
              let '(d, l) := span_digits l in
              match strip [dquote] l with
              | None => None
              | Some l => if negb (bool_decide (d = [])) && forallb blank_char l then Some (b1 ++ chars "stop" ++ b2 ++ "="%char :: b3, d) else None
              end
          end
      end
  end.
Definition numericStop_line (line : string) : string :=
  match quotedStop line with Some (g1, g2) => of_chars (g1 ++ g2) | None => line end.
Definition numericStop (raw : string) : string := Join (map numericStop_line (Split raw nl)) newline.
Section Marshal.
(** [toml.Encode] of a configuration, and of a table with the channels. *)
Variable (Encode : Config -> string) (EncodeChannels : list Channel -> string).
Definition Marshal (cfg : Config) : string := numericStop (Encode cfg).
Definition MarshalChannels (chans : list Channel) : string := numericStop (EncodeChannels chans).
End Marshal.
Example numeric_ex :
  let q d := of_chars (dquote :: chars d ++ [dquote]) in
  let line k v := String.append k (String.append " = " v) in
  numericStop (Join ["[[channel]]"; line "  stop" (q "140"); line "  stop" (q "auto"); line "stop" (String.append (q "0") "  "); line "stopped" (q "1"); line "stop" (q ""); ""] newline)
  = Join ["[[channel]]"; line "  stop" "140"; line "  stop" (q "auto"); line "stop" "0"; line "stopped" (q "1"); line "stop" (q ""); ""] newline.
Proof. by vm_compute. Qed.

(** What the code relies on of the TOML library: a value is encoded line by line, a stop of
    digits is a quoted string in a line of its own, and the lines, with these digits bare
    and after any comment, decode - if they decode - to a document that holds the value. *)
Inductive eline := Plain (line : string) | StopLine (indent : string) (d : string).
Definition eline_ok (e : eline) : Prop :=
  match e with
  | Plain line => one_line line /\ quotedStop line = None
  | StopLine indent d => Forall (fun c => blank_char c = true) (chars indent) /\ digits d = true
  end.
Definition quoted_line (e : eline) : string :=
  match e with Plain line => line | StopLine indent d => of_chars (chars indent ++ chars "stop = " ++ dquote :: chars d ++ [dquote]) end.
Definition bare_line (e : eline) : string :=
  match e with Plain line => line | StopLine indent d => of_chars (chars indent ++ chars "stop = " ++ chars d) end.
Definition comment_line (line : string) : Prop := one_line line /\ (line = "" \/ HasPrefix line "#" = true).
#[export] Instance comment_line_dec line : Decision (comment_line line).
Proof. unfold comment_line, one_line. apply _. Defined.
Class Encoder {Prim A : Type} (Decode : string -> string + Doc Prim) (holds : Doc Prim -> A -> Prop) (enc : A -> string) := {
  enc_layout : A -> list eline;
  enc_text : forall a, enc a = Join (map quoted_line (enc_layout a)) newline;
  enc_lines : forall a, enc_layout a <> [] /\ Forall eline_ok (enc_layout a);
  enc_decode : forall a head d, Forall comment_line head ->
    Decode (Join (head ++ map bare_line (enc_layout a)) newline) = inr d -> holds d a }.

Lemma span_digits_app a b : Forall (fun c => between "0" "9" c = true) a -> match b with [] => True | c :: _ => between "0" "9" c = false end ->
  span_digits (a ++ b) = (a, b).
Proof.
  intros Ha Hb. induction Ha as [|c a Hc _ IH]; cbn; [|by rewrite Hc, IH]. destruct b as [|c b]; [done|]. cbn. by rewrite Hb.
Qed.
Lemma digits_chars d : digits d = true -> chars d <> [] /\ Forall (fun c => between "0" "9" c = true) (chars d).
Proof.
  unfold digits. intros [H1 H2]%andb_true_iff. split; [by destruct d|]. rewrite forallb_forall in H2. apply Forall_forall. intros c Hc. by apply H2, list_elem_of_In.
Qed.
Lemma digit_plain c : between "0" "9" c = true -> c <> nl /\ blank_char c = false.
Proof. destruct c as [[] [] [] [] [] [] [] []]; by vm_compute. Qed.
Lemma blank_plain c : blank_char c = true -> c <> nl.
Proof. by intros H ->. Qed.
Lemma quotedStop_line indent d : eline_ok (StopLine indent d) ->
  quotedStop (quoted_line (StopLine indent d)) = Some (chars indent ++ chars "stop = ", chars d).
Proof.
  intros [Hi Hd]. apply digits_chars in Hd as [Hn Hd]. unfold quotedStop, quoted_line. rewrite chars_of_chars, span_app by done.
  revert Hn Hd. generalize (chars d) as ds. intros ds Hn Hd. cbn -[span_digits bool_decide]. rewrite span_digits_app by done. cbn -[bool_decide].
  by rewrite bool_decide_false.
Qed.
Lemma quoted_one_line e : eline_ok e -> one_line (quoted_line e).
Proof.
  destruct e as [line|indent d]; [by intros [? _]|]. intros [Hi Hd]. apply digits_chars in Hd as [_ Hd]. unfold one_line, quoted_line. rewrite chars_of_chars.
  apply Forall_app. split; [eapply Forall_impl; [exact Hi|apply blank_plain]|]. apply Forall_app. split; [by repeat constructor|].
  constructor; [done|]. apply Forall_app. split; [|by repeat constructor]. eapply Forall_impl; [exact Hd|]. intros c Hc. by apply digit_plain.
Qed.
Lemma numericStop_lines l : l <> [] -> Forall eline_ok l -> numericStop (Join (map quoted_line l) newline) = Join (map bare_line l) newline.
Proof.
  intros Hn Hl. unfold numericStop. change newline with (String nl EmptyString) at 1. rewrite Split_Join.
  - rewrite map_map. f_equal. apply map_ext_Forall. eapply Forall_impl; [exact Hl|]. intros [line|indent d] He; unfold numericStop_line.
    + cbn [quoted_line bare_line]. by destruct He as [_ ->].
    + rewrite quotedStop_line by done. cbn [bare_line]. by rewrite <- app_assoc.
  - by destruct l.
  - apply Forall_map. eapply Forall_impl; [exact Hl|]. apply quoted_one_line.
Qed.
Lemma head_text head lines : lines <> [] -> String.append (Join (head ++ [""]) newline) (Join lines newline) = Join (head ++ lines) newline.
Proof. intros Hl. destruct head as [|h head]; [done|]. rewrite !Join_app by done. cbn [Join String.concat]. by rewrite <- !append_assoc, append_nil_r. Qed.
(** What the program writes after a comment decodes, if it does, to what it meant. *)
Lemma encoded_decode {Prim A : Type} (Decode : string -> string + Doc Prim) (holds : Doc Prim -> A -> Prop) (enc : A -> string) `{!Encoder Decode holds enc} a head d :
  Forall comment_line head -> Decode (String.append (Join (head ++ [""]) newline) (numericStop (enc a))) = inr d -> holds d a.
Proof.
  intros Hh Hd. destruct (enc_lines a) as [Hn Hl]. rewrite (enc_text (enc := enc) a), numericStop_lines in Hd by done.
  rewrite head_text in Hd by by destruct (enc_layout a). by eapply enc_decode.
Qed.

Definition ValidPresetName (name : string) : bool := presetRe name.
Definition preset_path (dir name : string) : string := JoinPath [dir; String.append name ".toml"].

Section Config_files.
Context {W : Type} {Fs : Files W} {Prim : Type} `{!Toml Prim} {U : Url}.
(** The log directory's variable, [toml.Decode], [MarshalChannels]. *)
Variable (env : string) (Decode : string -> string + Doc Prim) (MarshalChannels : list Channel -> string).
Local Abbreviation Parse := (Parse env Decode).
Local Abbreviation ParseChannels := (ParseChannels env Decode).

(** ** Saving the configuration *)
Definition secretLine (line : string) : bool :=
  match hash_match line with Some (_, _, v, _) => negb (bool_decide (v = [])) | None => false end.
Definition HasSecret (raw : string) : bool :=
  match Parse raw with
  | (cfg, _, None) => negb (String.eqb (w_PasswordHash (c_Web cfg)) "")
  | (_, _, Some _) => existsb secretLine (Split raw nl)
  end.
(** The mode the file gets: 0600 for a new one and for one that holds a hash and was open
    to others. *)
Definition save_perm (old : option Z) (secret : bool) : Z :=
  let perm := default 384 old in
  if secret && negb (Z.land perm 63 =? 0) then 384 else perm.
Definition Save (path raw : string) : M W (option FsErr) := fun w =>
  fs_Write path raw (save_perm (fs_Perm w path) (HasSecret raw)) w.

(** ** The preset directory *)
Inductive PresetErr :=
  | PInvalidName | PBuiltin | PEmpty | PFs (e : FsErr) | PSyntax (e : Err)
  | POtherProfile (profile : string).
(** [errors.Is(err, fs.ErrNotExist)] *)
Definition is_not_exist (e : PresetErr) : bool :=
  match e with PFs FsNotExist | POtherProfile _ => true | _ => false end.
Definition PresetNames (w : W) (dir : string) : list string :=
  match fs_ReadDir w dir with
  | None => []
  | Some entries =>
      sort_strings (omap (fun e : string * bool => if e.2 then None else
        match toml_stem e.1 with Some stem => if ValidPresetName stem then Some stem else None | None => None end) entries)
  end.
Definition parsed (raw : string) : PresetErr + list Channel * list Warning :=
  match ParseChannels raw with
  | (_, _, Some e) => inl (PSyntax e)
  | (chans, warns, None) => inr (chans, warns)
  end.
Definition LoadPreset (w : W) (dir name : string) : PresetErr + list Channel * list Warning :=
  if negb (ValidPresetName name) then inl PInvalidName
  else match fs_ReadFile w (preset_path dir name) with
  | inl e => inl (PFs e)
  | inr raw => parsed raw
  end.
Definition LoadPresets (w : W) (dir : string) : gmap string (list Channel) :=
  list_to_map (rev (omap (fun name => match LoadPreset w dir name with inr (chans, _) => Some (name, chans) | inl _ => None end) (PresetNames w dir))).
Definition fs_result (m : M W (option FsErr)) : M W (option PresetErr) := let* e := m in ret (PFs <$> e).
Definition SavePreset (dir name : string) (chans : list Channel) : M W (option PresetErr) :=
  if negb (ValidPresetName name) then ret (Some PInvalidName) else fs_result (fs_Write (preset_path dir name) (MarshalChannels chans) 420).
Definition SavePresetRaw (dir name raw : string) : M W (option PresetErr) :=
  if negb (ValidPresetName name) then ret (Some PInvalidName) else fs_result (fs_Write (preset_path dir name) raw 420).
Definition DeletePreset (dir name : string) : M W (option PresetErr) :=
  if negb (ValidPresetName name) then ret (Some PInvalidName) else fs_result (fs_Remove (preset_path dir name)).
End Config_files.

Example header_ex : presetHeader (Join ["# n5-fangov built-in preset for the Minisforum N5 Pro (profile n5pro)";
    "# description: Quiet: lowest noise"; "# profile: n5pro"; "#"; ""; "[[channel]]"; "# profile: other"] newline) = ("Quiet: lowest noise", "n5pro").
Proof. by vm_compute. Qed.
Example perm_ex : save_perm None true = 384 /\ save_perm (Some 420) true = 384 /\ save_perm (Some 420) false = 420 /\ save_perm (Some 256) true = 256.
Proof. by vm_compute. Qed.

(** ** Facts *)
(** A file that holds a hash ends with no bits for others; any other keeps its mode. *)
Lemma save_perm_secret old : Z.land (save_perm old true) 63 = 0.
Proof. unfold save_perm. cbn. destruct (Z.land (default 384 old) 63 =? 0) eqn:E; cbn; [lia|done]. Qed.
(** A preset's file is in the directory: its name holds no separator. *)
Lemma valid_name_plain name : ValidPresetName name = true -> Forall (fun c => c <> "/"%char /\ c <> "."%char) (chars name).
Proof.
  unfold ValidPresetName, presetRe, class_re. intros H. repeat (apply andb_prop in H as [H ?]). apply Forall_forall. intros c Hc.
  match goal with H' : forallb _ _ = true |- _ => rewrite forallb_forall in H'; specialize (H' c (proj1 (list_elem_of_In _ _) Hc)) end.
  split; intros ->; done.
Qed.

(** ** A concrete encoder for the witnesses *)
Module Pack.
Fixpoint bits (p : positive) : string := match p with xH => "" | xO p => String "0" (bits p) | xI p => String "1" (bits p) end.
Fixpoint unbits (s : string) : positive :=
  match s with EmptyString => xH | String c s => if is_char c "0" then xO (unbits s) else xI (unbits s) end.
Lemma unbits_bits p : unbits (bits p) = p.
Proof. induction p as [p IH|p IH|]; cbn; by rewrite ?IH. Qed.
Definition pack {A} `{Countable A} (a : A) : string := bits (encode a).
Definition unpack {A} `{Countable A} (s : string) : option A := decode (unbits s).
Lemma unpack_pack {A} `{Countable A} (a : A) : unpack (pack a) = Some a.
Proof. unfold unpack, pack. rewrite unbits_bits. apply countable.decode_encode. Qed.
End Pack.

(** A value is written as one line of its encoding, followed by the stops. *)
Module DemoEncoder.
Import Pack ConfigRules.Demo.
Definition line_of {A} `{Countable A} (a : A) : string := String "v" (pack a).
Definition comment (line : string) : Prop := line = "" \/ HasPrefix line "#" = true.
#[export] Instance comment_dec line : Decision (comment line).
Proof. unfold comment. apply _. Defined.
Definition value_of {A} `{Countable A} (raw : string) : option A :=
  match filter (fun line => ~ comment line) (Split raw nl) with String c s :: _ => if is_char c "v" then unpack s else None | _ => None end.
Lemma bits_plain p : Forall (fun c => c = "0"%char \/ c = "1"%char) (chars (bits p)).
Proof. induction p; cbn; constructor; tauto. Qed.
Lemma line_of_one {A} `{Countable A} (a : A) : one_line (line_of a).
Proof. constructor; [done|]. eapply Forall_impl; [apply bits_plain|]. by intros c [-> | ->]. Qed.
Lemma bare_one_line e : eline_ok e -> one_line (bare_line e).
Proof.
  destruct e as [line|indent d]; [by intros [? _]|]. intros [Hi Hd]. apply digits_chars in Hd as [_ Hd]. unfold one_line, bare_line. rewrite chars_of_chars.
  apply Forall_app. split; [eapply Forall_impl; [exact Hi|apply blank_plain]|]. apply Forall_app. split; [by repeat constructor|].
  eapply Forall_impl; [exact Hd|]. intros c Hc. by apply digit_plain.
Qed.
Lemma value_of_line {A} `{Countable A} head (a : A) rest : Forall comment_line head -> Forall eline_ok rest ->
  value_of (Join (head ++ map bare_line (Plain (line_of a) :: rest)) newline) = Some a.
Proof.
  intros Hh Hr. unfold value_of. change newline with (String nl EmptyString). rewrite Split_Join.
  - rewrite filter_app. assert (filter (fun line => ~ comment line) head = []) as ->.
    { induction Hh as [|h head [_ Hc] _ IH]; [done|]. rewrite filter_cons_False; [done|]. intros Hf. by apply Hf. }
    cbn [map bare_line app]. rewrite filter_cons_True by (intros [|Hf]; [done|by cbn in Hf]). cbn. apply unpack_pack.
  - by destruct head.
  - apply Forall_app. split; [by eapply Forall_impl; [exact Hh|]; intros line [? _]|]. apply Forall_cons. split; [apply line_of_one|].
    apply Forall_map. eapply Forall_impl; [exact Hr|]. apply bare_one_line.
Qed.
Definition stops (chans : list Channel) : list eline := map (StopLine "  ") (List.filter digits (map cc_Stop chans)).
Lemma stops_ok chans : Forall eline_ok (stops chans).
Proof. apply Forall_map, Forall_forall. intros d Hd%list_elem_of_In%filter_In. split; [by repeat constructor|apply Hd]. Qed.
Lemma line_of_plain {A} `{Countable A} (a : A) : eline_ok (Plain (line_of a)).
Proof. split; [apply line_of_one|done]. Qed.

(** The section [web]. *)
Definition web_value (w : Web) : list string :=
  w_Listen w :: w_Auth w :: w_User w :: w_PasswordHash w :: w_TLS w :: w_CertFile w :: w_KeyFile w :: (if w_BehindTLSProxy w then "true" else "") :: w_AllowedHosts w.
Definition web_table (l : list string) : list (string * value) :=
  match l with
  | listen :: auth :: user :: hash :: tls :: cert :: key :: behind :: hosts =>
      [("listen", VStr listen); ("auth", VStr auth); ("user", VStr user); ("password_hash", VStr hash); ("tls", VStr tls); ("cert_file", VStr cert);
       ("key_file", VStr key); ("behind_tls_proxy", VBool (String.eqb behind "true"))] ++
      (if bool_decide (hosts = []) then [] else [("allowed_hosts", VArr (map VStr hosts))])
  | _ => []
  end.
Definition web_layout (c : Config) : list eline := Plain (line_of (web_value (c_Web c))) :: stops (c_Channels c).
Definition Encode (c : Config) : string := Join (map quoted_line (web_layout c)) newline.
Definition DecodeWeb (raw : string) : string + Doc value :=
  match value_of raw with
  | Some l => inr (doc [("web", VTable (web_table l))])
  | None => if Contains raw "{" then inl "syntax" else inr (doc [])
  end.
Lemma strs_read l : as_list as_str (VArr (map VStr l)) = Some l.
Proof. cbn. induction l as [|s l IH]; cbn; [done|]. by rewrite IH. Qed.
#[export] Instance web_encoder : Encoder DecodeWeb (fun d c => doc_web d (c_Web c)) Encode.
Proof.
  refine {| enc_layout := web_layout |}; [done| |].
  - intros c. split; [done|]. constructor; [apply line_of_plain|apply stops_ok].
  - intros c head d Hh. unfold DecodeWeb, web_layout. rewrite value_of_line by (done || apply stops_ok). intros [= <-].
    eexists _, _. split_and!; [done..|]. destruct (c_Web c) as [listen auth user hash hosts tl cert key behind].
    split; cbn [w_Listen w_Auth w_User w_PasswordHash w_AllowedHosts w_TLS w_CertFile w_KeyFile w_BehindTLSProxy];
      destruct hosts as [|host hosts]; try (by eexists (VStr _)); try (by destruct behind; eexists (VBool _)).
    + done.
    + exists (VArr (map VStr (host :: hosts))). split; [done|apply strs_read].
Defined.
(** The channels. *)
Definition chan_value (c : Channel) : list string * list Z * list (Z * Z) :=
  ([cc_Name c; cc_Sensor c; cc_Stop c], [cc_PWM c; cc_Critical c; cc_Hysteresis c; cc_MinOn c; cc_Ceiling c], cc_Curve c).
Definition seconds_text (n : Z) : string := String.append (Itoa (n / Second)) "s".
Definition opt_entry (key : string) (z : Z) (v : value) : list (string * value) := if z =? 0 then [] else [(key, v)].
Definition stop_value (s : string) : option value :=
  if digits s then match Atoi s with Some n => if in_int64 n then Some (VInt n) else None | None => None end else Some (VStr s).
Definition chan_table (t : list string * list Z * list (Z * Z)) : option value :=
  match t with
  | ([name; sensor; stop], [pwm; critical; hysteresis; min_on; ceiling], crv) =>
      match stop_value stop with
      | Some sv =>
          if (min_on =? 0) || bool_decide (ParseDuration (seconds_text min_on) = Some min_on) then
            Some (VTable ([("name", VStr name); ("pwm", VInt pwm); ("sensor", VStr sensor); ("curve", VArr (map (fun p => VArr (map VInt p)) (as_points crv)));
              ("critical", VInt critical); ("stop", sv)] ++ opt_entry "hysteresis" hysteresis (VInt hysteresis) ++
              opt_entry "min_on" min_on (VStr (seconds_text min_on)) ++ opt_entry "ceiling" ceiling (VInt ceiling)))
          else None
      | None => None
      end
  | _ => None
  end.
Fixpoint chan_tables (l : list (list string * list Z * list (Z * Z))) : option (list value) :=
  match l with
  | [] => Some []
  | t :: l => match chan_table t, chan_tables l with Some v, Some vs => Some (v :: vs) | _, _ => None end
  end.
Definition channels_layout (chans : list Channel) : list eline := Plain (line_of (map chan_value chans)) :: stops chans.
Definition EncodeChannels (chans : list Channel) : string := Join (map quoted_line (channels_layout chans)) newline.
Definition DecodeChannels (raw : string) : string + Doc value :=
  match value_of raw with
  | Some l => match chan_tables l with Some ts => inr (doc [("channel", VArr ts)]) | None => inl "range" end
  | None => if Contains raw "{" then inl "syntax" else inr (doc [])
  end.
Lemma points_read l : as_list (as_list as_int) (VArr (map (fun p => VArr (map VInt p)) l)) = Some l.
Proof.
  cbn. induction l as [|p l IH]; cbn; [done|]. assert (all_some as_int (map VInt p) = Some p) as -> by (clear IH; induction p as [|z p IH]; cbn; [done|by rewrite IH]).
  by rewrite IH.
Qed.
(** With and without each optional key. *)
Ltac cases := repeat match goal with |- context [?z =? 0] => destruct (z =? 0) end.
Lemma chan_table_written c v : chan_table (chan_value c) = Some v -> exists sec, dec_table v = Some sec /\ written sec c.
Proof.
  destruct c as [name pwm sensor crv critical stop hysteresis min_on ceiling post]. unfold chan_table, chan_value, stop_value.
  cbn [cc_Name cc_PWM cc_Sensor cc_Curve cc_Critical cc_Stop cc_Hysteresis cc_MinOn cc_Ceiling].
  intros H. assert (Hs : exists sv, stop_value stop = Some sv) by (unfold stop_value; destruct (digits stop); [destruct (Atoi stop) as [n|]; [destruct (in_int64 n)|]|]; by eauto).
  change (if digits stop then _ else Some (VStr stop)) with (stop_value stop) in H. destruct Hs as [sv Hs]. rewrite Hs in H.
  destruct (_ || _) eqn:Ed; [|done]. injection H as <-. eexists. split; [done|].
  unfold opt_entry. split; cbn [cc_Name cc_PWM cc_Sensor cc_Curve cc_Critical cc_Stop cc_Hysteresis cc_MinOn cc_Ceiling].
  - intros k [v Hk%elem_of_list_to_map_2]. revert Hk. unfold channel_keys.
    cases; cbn [app]; set_solver.
  - exists (VStr name). split; [|done]. by cases.
  - exists (VInt pwm). split; [|done]. by cases.
  - exists (VStr sensor). split; [|done]. by cases.
  - exists (VArr (map (fun p => VArr (map VInt p)) (as_points crv))). split; [by cases|apply points_read].
  - exists (VInt critical). split; [|done]. by cases.
  - exists sv. split; [by cases|]. unfold stop_value in Hs. destruct (digits stop); [|by injection Hs as <-].
    destruct (Atoi stop) as [n|]; [|done]. destruct (in_int64 n) eqn:E; [|done]. injection Hs as <-. split; [done|]. by exists n.
  - unfold optional_int. destruct (hysteresis =? 0); [by cases|]. exists (VInt hysteresis). split; [by cases|done].
  - destruct (min_on =? 0); [by cases|]. exists (seconds_text min_on). apply bool_decide_eq_true in Ed.
    split; [|done]. exists (VStr (seconds_text min_on)). split; [by cases|done].
  - unfold optional_int. destruct (ceiling =? 0); [by cases|]. exists (VInt ceiling). split; [by cases|done].
Qed.
Lemma chan_tables_written chans ts : chan_tables (map chan_value chans) = Some ts -> exists secs, dec_tables (VArr ts) = Some secs /\ Forall2 written secs chans.
Proof.
  revert ts. induction chans as [|c chans IH]; intros ts H; cbn [map chan_tables] in H.
  - injection H as <-. by exists [].
  - destruct (chan_table (chan_value c)) as [v|] eqn:Ev; [|done]. destruct (chan_tables _) as [ts'|]; [|done]. injection H as <-.
    apply chan_table_written in Ev as (sec & E & Hc). destruct (IH ts' eq_refl) as (secs & Es & Hw). exists (sec :: secs). split; [|by constructor].
    cbn in E, Es |- *. by rewrite E, Es.
Qed.
#[export] Instance channels_encoder : Encoder DecodeChannels doc_channels EncodeChannels.
Proof.
  refine {| enc_layout := channels_layout |}; [done| |].
  - intros c. split; [done|]. constructor; [apply line_of_plain|apply stops_ok].
  - intros chans head d Hh. unfold DecodeChannels, channels_layout. rewrite value_of_line by (done || apply stops_ok).
    destruct (chan_tables _) as [ts|] eqn:E; [|done]. intros [= <-] _. apply chan_tables_written in E as (secs & E & Hw).
    exists (VArr ts), secs. by split_and!.
Defined.
End DemoEncoder.
