(* ===== verification/PresetStore.v ===== *)
(** The preset store behind /api/presets and the scheduler
    (src/cmd/n5-fangov/wiring_presets.go). *)
From stdpp Require Import base gmap strings list.
From Stdlib Require Import ZArith Lia Ascii.
From S2P Require Import Prelude GoLib GoNet GoPath GoTime ConfigTypes ConfigFields ConfigWeb ConfigChannels ConfigParse ConfigValid ConfigRules ConfigEdit Scheduler Daemon ConfigFiles Presets.
Open Scope Z_scope.

(** What [Service.Reload] answers. *)
Inductive ReloadErr := RestartRequired | ReloadFailed (msg : string).
Record dirPresetStore := mkStore {
  ps_dir : string; ps_cfgPath : string; ps_pin : option (string -> string); ps_profile : string; ps_builtin : list BuiltinPreset }.
(** One row of the list, and the tables of one preset. *)
Record PresetRow := mkRow { pr_Name : string; pr_Channels : list string; pr_Builtin : bool; pr_Description : string }.
Record PresetDetail := mkDetail { pd_Name : string; pd_Builtin : bool; pd_Description : string; pd_Channels : list Channel }.

Section Store.
Context {W : Type} {Fs : Files W} {Prim : Type} `{!Toml Prim} {U : Url}.
(** The log directory's variable, [toml.Decode], [Marshal], [MarshalChannels], and the
    daemon's [Reload]. *)
Variable (env : string) (Decode : string -> string + Doc Prim) (Marshal : Config -> string) (MarshalChannels : list Channel -> string).
Variable (svc_Reload : string -> M W (option ReloadErr)).
Variable (s : dirPresetStore).
Local Abbreviation Parse := (Parse env Decode).
Local Abbreviation parsed := (parsed env Decode).

Definition isBuiltinPreset (name : string) : bool := IsBuiltinPreset (ps_builtin s) name.
Definition builtinPresetsFor (profile : string) : list BuiltinPreset := BuiltinPresets (ps_builtin s) profile.
Definition channelNames (chans : list Channel) : list string := map cc_Name chans.

(** ** Reading *)
Definition List_presets (w : W) : list PresetRow :=
  let all := LoadPresets env Decode w (ps_dir s) in
  omap (fun b => match parsed (bp_Raw b) with
                 | inr (chans, _) => Some (mkRow (bp_Name b) (channelNames chans) true (bp_Description b))
                 | inl _ => None end) (builtinPresetsFor (ps_profile s)) ++
  omap (fun name => match all !! name with
                    | Some chans => if isBuiltinPreset name then None else Some (mkRow name (channelNames chans) false "")
                    | None => None end) (PresetNames w (ps_dir s)).
(** A built-in preset of the device's profile, else the file. *)
Definition load (w : W) (name : string) : PresetErr + list Channel * list Warning :=
  match BuiltinPresetByName (ps_builtin s) name with
  | Some b => if negb (String.eqb (bp_Profile b) (ps_profile s)) then inl (POtherProfile (bp_Profile b)) else parsed (bp_Raw b)
  | None => LoadPreset env Decode w (ps_dir s) name
  end.
Definition Detail (w : W) (name : string) : PresetErr + PresetDetail :=
  match load w name with
  | inl e => inl e
  | inr (chans, _) =>
      inr (fold_left (fun d b => if String.eqb (bp_Name b) name then mkDetail name true (bp_Description b) chans else d)
             (builtinPresetsFor (ps_profile s)) (mkDetail name false "" chans))
  end.

(** ** Applying *)
(** The text for the configuration file: spliced in place if that can be read back. *)
Definition merged_text (old : string) (cfg : Config) (chans : list Channel) : string * nat :=
  let cfg := cfg <| c_Channels := mergeChannelsByPWM (c_Channels cfg) chans |> in
  let raw := ReplaceChannels old (MarshalChannels (c_Channels cfg)) in
  let raw := match Parse raw with
             | (back, _, None) => if (length (c_Channels back) =? length (c_Channels cfg))%nat then raw else Marshal cfg
             | _ => Marshal cfg
             end in
  (match ps_pin s with Some pin => pin raw | None => raw end, length (c_Channels cfg)).
Definition write (chans : list Channel) : M W (PresetErr + string * nat) := fun w =>
  let current := match fs_ReadFile w (ps_cfgPath s) with
                 | inr old => inr old | inl FsNotExist => inr "" | inl e => inl (PFs e) end in
  match current with
  | inl e => (inl e, w)
  | inr old =>
      match Parse old with
      | (_, _, Some e) => (inl (PSyntax e), w)
      | (cfg, _, None) =>
          let '(raw, n) := merged_text old cfg chans in
          let '(e, w) := Save env Decode (ps_cfgPath s) raw w in
          (match e with Some e => inl (PFs e) | None => inr (raw, n) end, w)
      end
  end.
Definition err_missing : ApplyErr := mkApplyErr true false false false false.
Definition err_invalid : ApplyErr := mkApplyErr false true false false false.
Definition err_write (e : PresetErr) : ApplyErr := mkApplyErr (is_not_exist e) false true false false.
Definition err_restart : ApplyErr := mkApplyErr false false false true false.
Definition err_reload : ApplyErr := mkApplyErr false false false false true.
Definition Apply (name : string) : M W (option ApplyErr) := fun w =>
  match load w name with
  | inl e => (Some (if is_not_exist e then err_missing else err_invalid), w)
  | inr ([], _) => (Some err_invalid, w)
  | inr (chans, _) =>
      let '(res, w) := write chans w in
      match res with
      | inl e => (Some (err_write e), w)
      | inr (raw, _) =>
          let '(e, w) := svc_Reload raw w in
          (match e with None => None | Some RestartRequired => Some err_restart | Some (ReloadFailed _) => Some err_reload end, w)
      end
  end.

(** ** Changing the presets *)
Definition Save_preset (name : string) : M W (option PresetErr) := fun w =>
  if isBuiltinPreset name then (Some PBuiltin, w)
  else
    let loaded := match fs_ReadFile w (ps_cfgPath s) with
                  | inl FsNotExist => inr Default
                  | inl e => inl (PFs e)
                  | inr raw => match Parse raw with (_, _, Some e) => inl (PSyntax e) | (cfg, _, None) => inr cfg end
                  end in
    match loaded with
    | inl e => (Some e, w)
    | inr cfg =>
        if bool_decide (c_Channels cfg = []) then (Some PEmpty, w)
        else SavePreset MarshalChannels (ps_dir s) name (c_Channels cfg) w
    end.
Definition SaveChannels (name : string) (chans : list Channel) : M W (option PresetErr) :=
  if isBuiltinPreset name then ret (Some PBuiltin)
  else if bool_decide (chans = []) then ret (Some PEmpty)
  else SavePreset MarshalChannels (ps_dir s) name chans.
Definition Delete (name : string) : M W (option PresetErr) :=
  if isBuiltinPreset name then ret (Some PBuiltin) else DeletePreset (ps_dir s) name.
Definition Rename (oldName newName : string) : M W (option PresetErr) := fun w =>
  if negb (ValidPresetName oldName) || negb (ValidPresetName newName) then (Some PInvalidName, w)
  else if isBuiltinPreset oldName || isBuiltinPreset newName then (Some PBuiltin, w)
  else
    let src := preset_path (ps_dir s) oldName in
    let dst := preset_path (ps_dir s) newName in
    match fs_Stat w src with
    | Some e => (Some (PFs e), w)
    | None =>
        match fs_Stat w dst with
        | None => (Some (PFs FsExist), w)
        | Some _ => fs_result (fs_Rename src dst) w
        end
    end.

(** ** What the store may change *)
Inductive StoreOp :=
  | OpApply (name : string) | OpSave (name : string) | OpSaveChannels (name : string) (chans : list Channel)
  | OpDelete (name : string) | OpRename (oldName newName : string).
Definition store_op (op : StoreOp) (w : W) : W :=
  match op with
  | OpApply name => (Apply name w).2
  | OpSave name => (Save_preset name w).2
  | OpSaveChannels name chans => (SaveChannels name chans w).2
  | OpDelete name => (Delete name w).2
  | OpRename a b => (Rename a b w).2
  end.
(** The file of a preset that is not built in. *)
Definition user_preset (path : string) : Prop :=
  exists name, ValidPresetName name = true /\ isBuiltinPreset name = false /\ path = preset_path (ps_dir s) name.
(** A property of the world that the allowed changes keep. *)
Record allowed (I : W -> Prop) : Prop := {
  al_config raw perm w : (forall old, fs_ReadFile w (ps_cfgPath s) = inr old -> (Parse old).2 = None) -> I w ->
    I (fs_Write (ps_cfgPath s) raw perm w).2;
  al_reload raw w : I w -> I (svc_Reload raw w).2;
  al_preset path raw w : user_preset path -> I w -> I (fs_Write path raw 420 w).2;
  al_delete path w : user_preset path -> I w -> I (fs_Remove path w).2;
  al_rename src dst w : user_preset src -> user_preset dst -> fs_Stat w src = None -> fs_Stat w dst <> None -> I w -> I (fs_Rename src dst w).2 }.

Lemma fs_result_world (m : M W (option FsErr)) (w : W) : (fs_result m w).2 = (m w).2.
Proof. unfold fs_result, bind. by destruct (m w). Qed.
Lemma SavePreset_keeps I name chans w : allowed I -> isBuiltinPreset name = false -> I w -> I (SavePreset MarshalChannels (ps_dir s) name chans w).2.
Proof.
  intros Ha Hb Hw. unfold SavePreset. destruct (ValidPresetName name) eqn:E; [|done]. cbn [negb]. rewrite fs_result_world.
  apply (al_preset _ Ha); [by exists name|done].
Qed.
Lemma write_keeps I chans w : allowed I -> I w -> I (write chans w).2.
Proof.
  intros Ha Hw. unfold write. destruct (fs_ReadFile w (ps_cfgPath s)) as [[]|old] eqn:E; try done; cbv zeta iota beta;
    destruct (Parse _) as [[cfg ws] [e|]] eqn:Ep; try done; destruct (merged_text _ _ _) as [raw n]; unfold Save;
    match goal with |- context [fs_Write ?p ?r ?m w] => pose proof (al_config _ Ha r m w) as Hk; destruct (fs_Write p r m w) as [e' w'] end; cbn in Hk |- *.
  - apply Hk; [|done]. intros old. by rewrite E.
  - apply Hk; [|done]. intros old'. rewrite E. intros [= <-]. by rewrite Ep.
Qed.
Lemma store_op_keeps I op w : allowed I -> I w -> I (store_op op w).
Proof.
  intros Ha Hw. destruct op as [name|name|name chans|name|a b]; cbn.
  - unfold Apply. destruct (load w name) as [e|[[|c chans] ws]]; [done..|]. pose proof (write_keeps I (c :: chans) w Ha Hw) as Hk.
    destruct (write (c :: chans) w) as [[e|[raw n]] w1]; [done|]. pose proof (al_reload _ Ha raw w1 Hk) as Hr. by destruct (svc_Reload raw w1).
  - unfold Save_preset. destruct (isBuiltinPreset name) eqn:Eb; [done|]. destruct (fs_ReadFile w (ps_cfgPath s)) as [[]|raw]; try done.
    destruct (Parse raw) as [[cfg ws] [e|]]; [done|]. case_bool_decide; [done|]. by apply SavePreset_keeps.
  - unfold SaveChannels. destruct (isBuiltinPreset name) eqn:Eb; [done|]. case_bool_decide; [done|]. by apply SavePreset_keeps.
  - unfold Delete, DeletePreset. destruct (isBuiltinPreset name) eqn:Eb; [done|]. destruct (ValidPresetName name) eqn:E; [|done]. cbn [negb].
    rewrite fs_result_world. apply (al_delete _ Ha); [by exists name|done].
  - unfold Rename. destruct (ValidPresetName a) eqn:Ea, (ValidPresetName b) eqn:Eb; try done. cbn [negb orb].
    destruct (isBuiltinPreset a) eqn:Ba, (isBuiltinPreset b) eqn:Bb; try done. cbn [orb].
    destruct (fs_Stat w _) eqn:Ss; [done|]. destruct (fs_Stat w (preset_path (ps_dir s) b)) eqn:Sd; [|done]. rewrite fs_result_world.
    apply (al_rename _ Ha); [by exists a|by exists b|done|by rewrite Sd|done].
Qed.
(** C40: the preset store keeps to its files.  Whatever sequence of operations it is asked
    for - applying, saving, deleting and renaming presets under any names at all - the
    only changes it makes are: writing the configuration file, and only if what is there
    parses; writing, deleting and renaming preset files of valid names in its directory
    that are not the name of a built-in preset, a rename never onto a file that is there;
    and handing a text to the daemon.  Every property of the world that these changes
    keep is kept. *)
Theorem preset_store_keeps (I : W -> Prop) (ops : list StoreOp) (w : W) : allowed I -> I w -> I (fold_left (fun w op => store_op op w) ops w).
Proof. intros Ha. revert w. induction ops as [|op ops IH]; intros w Hw; [done|]. cbn. apply IH. by apply store_op_keeps. Qed.
End Store.

(** ** A disk *)
Module Disk.
Record disk := mkDisk { files : gmap string string; reloads : list string }.
#[export] Instance disk_files : Files disk := {|
  fs_ReadFile w p := match files w !! p with Some x => inr x | None => inl FsNotExist end;
  fs_Stat w p := match files w !! p with Some _ => None | None => Some FsNotExist end;
  fs_Perm w p := match files w !! p with Some _ => Some 384 | None => None end;
  fs_ReadDir w dir := Some (omap (fun e : string * string => let d := String.append dir "/" in
    if HasPrefix e.1 d then Some (TrimPrefix e.1 d, false) else None) (map_to_list (files w)));
  fs_Write p raw perm w := (None, mkDisk (<[p := raw]> (files w)) (reloads w));
  fs_Remove p w := match files w !! p with Some _ => (None, mkDisk (delete p (files w)) (reloads w)) | None => (Some FsNotExist, w) end;
  fs_Rename a b w := match files w !! a with
    | Some x => (None, mkDisk (<[b := x]> (delete a (files w))) (reloads w)) | None => (Some FsNotExist, w) end |}.
Definition svc_Reload (raw : string) (w : disk) : option ReloadErr * disk := (None, mkDisk (files w) (reloads w ++ [raw])).
Definition Decode (raw : string) : string + Doc ConfigRules.Demo.value :=
  if String.eqb raw (String.append "one" newline) then inr (Daemon.Example_run.file_text 60)
  else if String.eqb raw "" then inr (ConfigRules.Demo.doc []) else inl "syntax".
Definition quiet : BuiltinPreset := mkBuiltin "quiet" "" "n5pro" (String.append "one" newline).
Definition store : dirPresetStore := mkStore "/p" "/c" None "n5pro" [quiet].
Definition ops : list StoreOp :=
  [OpApply "quiet"; OpSave "mine"; OpRename "mine" "../x"; OpSaveChannels "other" [ConfigRules.demo_channel]; OpRename "other" "mine";
   OpRename "other" "yours"; OpDelete "quiet"; OpSave "quiet"; OpApply "yours"].
Definition one (chans : list Channel) : string := "one".
Definition at_start : disk := mkDisk {["/etc/shadow" := "x"; "/p/quiet.toml" := "mine"]} [].
Definition after : disk := fold_left (fun w op => store_op "" Decode (fun _ => "one") one svc_Reload store op w) ops at_start.
(** The files that are none of the store's. *)
Definition others_kept (w : disk) : Prop := forall path, path <> "/c" -> ~ user_preset store path -> files w !! path = files at_start !! path.
Lemma disk_allowed : allowed "" Decode svc_Reload store others_kept.
Proof.
  split; intros; unfold others_kept in *; intros p Hc Hu; cbn in *.
  - rewrite lookup_insert_ne by congruence. auto.
  - auto.
  - rewrite lookup_insert_ne by (intros ->; auto). auto.
  - destruct (files w !! path) eqn:E; [|auto]. cbn. rewrite lookup_delete_ne by (intros ->; auto). auto.
  - destruct (files w !! src) eqn:E; [|auto]. cbn. rewrite lookup_insert_ne by (intros ->; auto). rewrite lookup_delete_ne by (intros ->; auto). auto.
Qed.
End Disk.
Lemma preset_store_keeps_witness :
  map (fun p => Disk.files Disk.after !! p) ["/c"; "/p/quiet.toml"; "/p/mine.toml"; "/p/yours.toml"; "/p/other.toml"; "/etc/shadow"]
    = [Some (String.append "one" newline); Some "mine"; Some "one"; Some "one"; None; Some "x"] /\
  Disk.others_kept Disk.after.
Proof.
  split; [by vm_compute|]. apply (preset_store_keeps "" Disk.Decode (fun _ => "one") Disk.one Disk.svc_Reload Disk.store Disk.others_kept Disk.ops); [apply Disk.disk_allowed|done].
Defined.
