(* ===== verification/Stores.v ===== *)
(** The stores that change single values of the configuration file
    (src/cmd/n5-fangov/wiring_account.go, wiring_dashboard.go, wiring_alerts.go,
    wiring.go, tlsmgr.go): the account, the dashboard's sensors, the alert settings and
    the editor, each a read-modify-write of the whole file. *)
From stdpp Require Import base gmap strings list.
From Stdlib Require Import ZArith Lia Ascii.
From S2P Require Import Prelude GoLib GoNet GoPath GoTime Alert ConfigTypes Schedule Scheduler ConfigFields ConfigWeb ConfigChannels ConfigParse ConfigValid ConfigRules ConfigEdit WebGuard ControlTypes ControlApi ConfigFiles Presets PresetStore.
Open Scope Z_scope.

(** ** TOML strings *)
Definition hex_upper (d : Z) : ascii := ascii_of_N (Z.to_N (if d <? 10 then 48 + d else 55 + d)).
Definition backslash : ascii := "092"%char.
(** [rest] are the bytes of the rune. *)
Definition toml_rune (r : Z) (bytes : list ascii) : list ascii :=
  if r =? 34 then [backslash; "034"%char]
  else if r =? 92 then [backslash; backslash]
  else if r =? 8 then backslash :: chars "b"
  else if r =? 9 then backslash :: chars "t"
  else if r =? 10 then backslash :: chars "n"
  else if r =? 12 then backslash :: chars "f"
  else if r =? 13 then backslash :: chars "r"
  else if r =? RuneError then backslash :: chars "uFFFD"
  else if (r <? 32) || (r =? 127) then backslash :: chars "u00" ++ [hex_upper (r / 16); hex_upper (r mod 16)]
  else bytes.
Fixpoint toml_loop (fuel : nat) (l : list ascii) : list ascii :=
  match fuel with
  | O => []
  | S fuel' =>
      match decode_rune l with
      | None => []
      | Some (r, l') => toml_rune r (take (length l - length l') l) ++ toml_loop fuel' l'
      end
  end.
Definition tomlString (s : string) : string :=
  of_chars ("034"%char :: toml_loop (String.length s) (chars s) ++ ["034"%char]).
Definition tomlStringArray (ids : list string) : string :=
  String.append "[" (String.append (Join (map tomlString ids) ", ") "]").
Example toml_ex : tomlString (of_chars (chars "a" ++ ["034"%char; "001"%char; "127"%char] ++ chars "ü"))
  = of_chars ("034"%char :: chars "a\" ++ "034"%char :: chars "\u0001\u007Fü" ++ ["034"%char]).
Proof. by vm_compute. Qed.

(** ** Facts: a value on one line *)
(** A byte that is no control character. *)
Definition visible (c : ascii) : Prop := 32 <= byte c.
Lemma cont_high lo hi c : 128 <= lo -> cont lo hi c = true -> 128 <= byte c.
Proof. unfold cont. intros ? [?%Z.leb_le ?%Z.leb_le]%andb_true_iff. lia. Qed.
Lemma decode_taken l r l' : decode_rune l = Some (r, l') -> r <> RuneError ->
  Forall (fun c => 128 <= byte c \/ byte c = r) (take (length l - length l') l).
Proof.
  destruct l as [|c0 l1]; [done|]. unfold decode_rune. destruct (byte c0 <? 128) eqn:E0.
  { intros [= <- <-] _. replace (length (c0 :: l1) - length l1)%nat with 1%nat by (cbn; lia). cbn [take]. constructor; [by right|constructor]. }
  apply Z.ltb_ge in E0. destruct (_ && (byte c0 <=? 223)).
  { destruct l1 as [|c1 l2]; [by intros [= <- <-]|]. destruct (cont 128 191 c1) eqn:E1; [|by intros [= <- <-]]. intros [= <- <-] _.
    replace (length (c0 :: c1 :: l2) - length l2)%nat with 2%nat by (cbn; lia). cbn [take]. apply cont_high in E1; [|lia]. repeat (constructor; [by left; lia|]). constructor. }
  destruct (_ && (byte c0 <=? 239)).
  { destruct l1 as [|c1 [|c2 l3]]; [by intros [= <- <-]..|]. cbv zeta. destruct (cont _ _ c1 && cont 128 191 c2) eqn:E1; [|by intros [= <- <-]]. intros [= <- <-] _.
    apply andb_true_iff in E1 as [E1 E2]. apply cont_high in E1; [|by destruct (byte c0 =? 224)]. apply cont_high in E2; [|lia].
    replace (length (c0 :: c1 :: c2 :: l3) - length l3)%nat with 3%nat by (cbn; lia). cbn [take]. repeat (constructor; [by left; lia|]). constructor. }
  destruct (_ && (byte c0 <=? 244)); [|by intros [= <- <-]].
  destruct l1 as [|c1 [|c2 [|c3 l4]]]; [by intros [= <- <-]..|]. cbv zeta.
  destruct (cont _ _ c1 && cont 128 191 c2 && cont 128 191 c3) eqn:E1; [|by intros [= <- <-]]. intros [= <- <-] _.
  apply andb_true_iff in E1 as [[E1 E2]%andb_true_iff E3]. apply cont_high in E1; [|by destruct (byte c0 =? 240)]. apply cont_high in E2, E3; [|lia..].
  replace (length (c0 :: c1 :: c2 :: c3 :: l4) - length l4)%nat with 4%nat by (cbn; lia). cbn [take]. repeat (constructor; [by left; lia|]). constructor.
Qed.
Lemma hex_upper_visible d : 0 <= d < 16 -> visible (hex_upper d).
Proof.
  intros H. assert (Hin : d ∈ seqZ 0 16) by (apply elem_of_seqZ; lia). clear H. revert d Hin. apply Forall_forall. repeat constructor; by vm_compute.
Qed.
Lemma toml_rune_visible l r l' : decode_rune l = Some (r, l') -> Forall visible (toml_rune r (take (length l - length l') l)).
Proof.
  intros E. pose proof (decode_rune_low _ _ _ E) as [Hr _]. unfold toml_rune.
  repeat match goal with |- context [if ?r =? ?n then _ else _] => destruct (Z.eqb_spec r n); [by repeat constructor|] end.
  destruct ((r <? 32) || (r =? 127)) eqn:Er.
  - cbn [chars app]. repeat (apply Forall_cons; split; [done|]). assert (Hb : r < 128) by (apply orb_true_iff in Er as [?%Z.ltb_lt|?%Z.eqb_eq]; lia).
    apply Forall_cons; split; [apply hex_upper_visible; split; [by apply Z.div_pos|by apply Z.div_lt_upper_bound; lia]|].
    apply Forall_cons; split; [|done]. by apply hex_upper_visible, Z.mod_pos_bound.
  - apply orb_false_iff in Er as [Hl%Z.ltb_ge _]. eapply Forall_impl; [by apply decode_taken|]. cbv beta. unfold visible. lia.
Qed.
Lemma toml_loop_visible fuel l : Forall visible (toml_loop fuel l).
Proof.
  revert l. induction fuel as [|fuel IH]; intros l; cbn; [done|]. destruct (decode_rune l) as [[r l']|] eqn:E; [|done].
  apply Forall_app. split; [by apply toml_rune_visible|apply IH].
Qed.
(** Whatever a text holds, quoted for TOML it is a value on one line: nothing that is typed
    or sent adds a line to the file. *)
Lemma tomlString_value s : value_ok (tomlString s).
Proof.
  unfold tomlString. set (l := toml_loop _ _). assert (Hv : Forall visible l) by apply toml_loop_visible.
  assert (Hc : chars (of_chars ("034"%char :: l ++ ["034"%char])) = "034"%char :: l ++ ["034"%char]) by apply chars_of_chars.
  split; [done|]. split.
  - apply TrimSpace_ends. split; rewrite Hc; [done|]. cbn [rev]. by rewrite rev_app_distr.
  - rewrite Hc. apply Forall_cons. split; [done|]. apply Forall_app. split; [|by repeat constructor].
    eapply Forall_impl; [exact Hv|]. intros c Hx ->. unfold visible in Hx. by vm_compute in Hx.
Qed.

(** What the certificate manager keeps in every text that is written. *)
Record tlsPin := mkPin { tp_ownsConfig : bool; tp_mode : string; tp_certFile : string; tp_keyFile : string }.
Definition setTLSKeys (raw mode certFile keyFile : string) : string :=
  let raw := SetKey raw "web" "tls" (tomlString mode) in
  let raw := SetKey raw "web" "cert_file" (tomlString certFile) in
  SetKey raw "web" "key_file" (tomlString keyFile).

(** Nothing else in the text changes: read back line by line the three keys have these
    values, every other key of every section has the one it had, every line that assigns
    none of the three stays in its place, and the only new lines are these assignments, a
    [[web]] header and a blank line. *)
Definition tls_keys : list string := ["tls"; "cert_file"; "key_file"].
Definition tls_line (ln : string) : bool := existsb (fun k => String.eqb (assignedKey ln) k || String.eqb (assignedKey ln) (dotted_key "web" k)) tls_keys.
Definition tls_new (mode certFile keyFile ln : string) : Prop :=
  ln = "" \/ ln = table_header "web" \/ exists k v, (k, v) ∈ [("tls", mode); ("cert_file", certFile); ("key_file", keyFile)] /\
    (ln = assign k (tomlString v) \/ ln = assign (dotted_key "web" k) (tomlString v)).
Definition tls_set (mode certFile keyFile raw out : string) : Prop :=
  let l := lines_of raw in let l' := lines_of out in
  lookup l' "web" "tls" = Some (tomlString mode) /\ lookup l' "web" "cert_file" = Some (tomlString certFile) /\
  lookup l' "web" "key_file" = Some (tomlString keyFile) /\
  (forall s k, bare s -> bare k -> (s = "web" -> k ∉ tls_keys) -> lookup l' s k = lookup l s k) /\
  sublist (List.filter (fun ln => negb (tls_line ln)) l) (List.filter (fun ln => negb (tls_line ln)) l') /\
  Forall (fun ln => ln ∈ l \/ tls_new mode certFile keyFile ln) l'.
Lemma bare_tls : bare "web" /\ forall k, k ∈ tls_keys -> bare k.
Proof.
  assert (H : forall s, s ∈ "web" :: tls_keys -> bare s); [|split; [by apply H; left|intros k Hk; apply H; by right]].
  intros s Hs. unfold tls_keys in Hs. repeat (apply elem_of_cons in Hs as [->|Hs]); try (split; [done|]; repeat constructor). by apply elem_of_nil in Hs.
Qed.
Lemma framed_kept k v l l' (f : string -> bool) :
  framed "web" k v l l' -> (forall ln, assignedKey ln = k \/ assignedKey ln = dotted_key "web" k -> f ln = false) ->
  sublist (List.filter f l) (List.filter f l') /\
  Forall (fun ln => ln ∈ l \/ ln = "" \/ ln = table_header "web" \/ ln = assign k v \/ ln = assign (dotted_key "web" k) v) l'.
Proof.
  intros (a & old & new & c & -> & -> & Ho & Hn) Hf. rewrite !List.filter_app. split.
  - apply sublist_app; [done|]. apply sublist_app; [|done]. destruct Ho as [->|(ln & -> & Hln)]; [apply sublist_nil_l|].
    cbn. rewrite Hf by done. apply sublist_nil_l.
  - apply Forall_app. split; [|apply Forall_app; split].
    + apply Forall_forall. intros ln Hin. left. apply elem_of_app. by left.
    + eapply Forall_impl; [exact Hn|]. intros ln Hin. right. set_solver.
    + apply Forall_forall. intros ln Hin. left. rewrite !elem_of_app. tauto.
Qed.
Lemma tls_line_key k ln : k ∈ tls_keys -> assignedKey ln = k \/ assignedKey ln = dotted_key "web" k -> negb (tls_line ln) = false.
Proof.
  intros Hk Hln. apply negb_false_iff. unfold tls_line. apply existsb_exists. exists k. split; [by apply list_elem_of_In|].
  destruct Hln as [->| ->]; rewrite String.eqb_refl; [done|apply orb_true_r].
Qed.
Lemma setTLSKeys_set raw mode c k : tls_set mode c k raw (setTLSKeys raw mode c k).
Proof.
  destruct bare_tls as [Hw Hb]. unfold setTLSKeys. set (r1 := SetKey raw _ _ _). set (r2 := SetKey r1 _ _ _).
  assert (Hin : "tls" ∈ tls_keys /\ "cert_file" ∈ tls_keys /\ "key_file" ∈ tls_keys) by (unfold tls_keys; set_solver). destruct Hin as (I1 & I2 & I3).
  destruct (set_key_lines raw "web" "tls" (tomlString mode) Hw (Hb _ I1) (tomlString_value _)) as (A1 & A2 & A3). fold r1 in A1, A2, A3.
  destruct (set_key_lines r1 "web" "cert_file" (tomlString c) Hw (Hb _ I2) (tomlString_value _)) as (B1 & B2 & B3). fold r2 in B1, B2, B3.
  destruct (set_key_lines r2 "web" "key_file" (tomlString k) Hw (Hb _ I3) (tomlString_value _)) as (C1 & C2 & C3).
  apply framed_kept with (f := fun ln => negb (tls_line ln)) in A3 as [S1 N1]; [|by intros ln; apply tls_line_key].
  apply framed_kept with (f := fun ln => negb (tls_line ln)) in B3 as [S2 N2]; [|by intros ln; apply tls_line_key].
  apply framed_kept with (f := fun ln => negb (tls_line ln)) in C3 as [S3 N3]; [|by intros ln; apply tls_line_key].
  unfold tls_set. split_and!.
  - rewrite C2 by (done || congruence || by apply Hb). rewrite B2 by (done || congruence || by apply Hb). exact A1.
  - rewrite C2 by (done || congruence || by apply Hb). exact B1.
  - exact C1.
  - intros s' k' Hs' Hk' Hn. assert (Hne : forall x, x ∈ tls_keys -> (s', k') <> ("web", x)) by (intros x Hx [= -> ->]; by apply Hn).
    rewrite C2, B2, A2; [done|try done; by apply Hne..].
  - etrans; [exact S1|]. etrans; [exact S2|exact S3].
  - unfold tls_new. rewrite Forall_forall in N1, N2, N3. apply Forall_forall. intros ln Hln.
    destruct (N3 ln Hln) as [Hln2|[?|[?|H]]]; [|auto..|right; right; right; exists "key_file", k; split; [set_solver|exact H]].
    destruct (N2 ln Hln2) as [Hln1|[?|[?|H]]]; [|auto..|right; right; right; exists "cert_file", c; split; [set_solver|exact H]].
    destruct (N1 ln Hln1) as [?|[?|[?|H]]]; [auto..|right; right; right; exists "tls", mode; split; [set_solver|exact H]].
Qed.

(** ** Reading the TLS keys back *)
(** A printable ASCII text without quotes and backslashes: what a path looks like. *)
Definition plain_char (c : ascii) : bool :=
  (32 <=? byte c) && (byte c <=? 126) && negb (is_char c "034") && negb (is_char c "039") && negb (is_char c "092").
Definition plain (v : string) : Prop := v <> "" /\ TrimSpace v = v /\ Forall (fun c => plain_char c = true) (chars v).
#[export] Instance plain_dec v : Decision (plain v).
Proof. unfold plain. apply _. Defined.
Lemma toml_loop_plain l : forall fuel, Forall (fun c => plain_char c = true) l -> (length l <= fuel)%nat -> toml_loop fuel l = l.
Proof.
  induction l as [|c l IH]; intros fuel Hl Hf; [by destruct fuel|]. apply Forall_cons in Hl as [Hc Hl]. destruct fuel as [|fuel]; [cbn in Hf; lia|].
  cbn [toml_loop]. unfold decode_rune. unfold plain_char in Hc. repeat (apply andb_true_iff in Hc as [Hc ?]).
  assert (byte c <? 128 = true) as -> by lia. replace (length (c :: l) - length l)%nat with 1%nat by (cbn; lia). cbn [take].
  rewrite IH by (done || (cbn in Hf; lia)). f_equal. unfold toml_rune.
  assert (Hne : forall n : ascii, negb (is_char c n) = true -> byte c <> byte n).
  { intros n Hn E. unfold is_char in Hn. apply negb_true_iff, Ascii.eqb_neq in Hn. apply Hn. unfold byte in E. apply N2Z.inj in E.
    rewrite <- (ascii_N_embedding c), <- (ascii_N_embedding n). congruence. }
  assert (byte c <> 34) by (by apply (Hne "034"%char)). assert (byte c <> 92) by (by apply (Hne "092"%char)).
  repeat match goal with |- context [if ?r =? ?n then _ else _] => destruct (Z.eqb_spec r n); [unfold RuneError in *; lia|] end.
  by assert ((byte c <? 32) || (byte c =? 127) = false) as -> by (apply orb_false_iff; lia).
Qed.
Lemma tomlString_plain v : plain v -> tomlString v = of_chars ("034"%char :: chars v ++ ["034"%char]).
Proof. intros (_ & _ & H). unfold tomlString. rewrite toml_loop_plain; [done|done|]. clear. induction v; cbn; lia. Qed.
(** Three equal quotes in a row open a string of several lines. *)
Fixpoint triple (l : list ascii) : bool :=
  match l with
  | a :: ((b :: d :: _) as l') => (is_char a "034" && is_char b "034" && is_char d "034") || (is_char a "039" && is_char b "039" && is_char d "039") || triple l'
  | _ => false
  end.
Definition single_lines (raw : string) : Prop := Forall (fun ln => triple (chars ln) = false) (lines_of raw).
Lemma triple_skip a l : is_char a "034" = false -> is_char a "039" = false -> triple (a :: l) = triple l.
Proof. intros H1 H2. destruct l as [|b [|d l]]; [done|done|]. cbn [triple]. by rewrite H1, H2. Qed.
Lemma triple_plain l l' : Forall (fun c => plain_char c = true) l -> triple (l ++ l') = triple l'.
Proof.
  intros H. induction H as [|c l Hc _ IH]; [done|]. unfold plain_char in Hc. repeat (apply andb_true_iff in Hc as [Hc ?]).
  cbn [app]. rewrite triple_skip by (by apply negb_true_iff). exact IH.
Qed.
Lemma triple_assign k v : Forall (fun c => plain_char c = true) (chars k) -> plain v -> triple (chars (assign k (tomlString v))) = false.
Proof.
  intros Hk Hv. rewrite (tomlString_plain v Hv). destruct Hv as (Hn & _ & Hv). unfold assign. rewrite !chars_app, chars_of_chars, triple_plain by done.
  rewrite triple_plain by by repeat constructor. destruct v as [|c v]; [done|]. cbn [chars String.list_ascii_of_string app] in *.
  pose proof Hv as [Hc _]%Forall_cons. unfold plain_char in Hc. repeat (apply andb_true_iff in Hc as [Hc ?]).
  assert (forall x, triple ("034"%char :: c :: x) = triple (c :: x)) as ->.
  { intros [|d x]; [done|]. cbn [triple]. match goal with H : negb (is_char c "034") = true |- _ => apply negb_true_iff in H; rewrite H end. done. }
  change (triple ((c :: String.list_ascii_of_string v) ++ ["034"%char]) = false). by rewrite triple_plain.
Qed.
Lemma tls_set_single mode c k raw out : plain mode -> plain c -> plain k -> single_lines raw -> tls_set mode c k raw out -> single_lines out.
Proof.
  intros Hm Hc Hk Hr (_ & _ & _ & _ & _ & Hl). eapply Forall_impl; [exact Hl|]. cbv beta. intros ln [Hin|[->|[->|(x & v & Hx & H)]]]; [|done|done|].
  - unfold single_lines in Hr. rewrite Forall_forall in Hr. by apply Hr.
  - assert (Hv : plain v) by (repeat (apply elem_of_cons in Hx as [[= -> ->]|Hx]; [done|]); by apply elem_of_nil in Hx).
    assert (Hp : Forall (fun c => plain_char c = true) (chars x) /\ Forall (fun c => plain_char c = true) (chars (dotted_key "web" x))).
    { clear -Hx. repeat (apply elem_of_cons in Hx as [[= -> _]|Hx]; [by repeat constructor|]). by apply elem_of_nil in Hx. }
    destruct Hp as [Hp1 Hp2], H as [->| ->]; by apply triple_assign.
Qed.
Section Tls_read.
Context {Prim : Type} `{!Toml Prim} {U : Url}.
(** What the code relies on of the TOML library here: in a text without strings of several
    lines, a line that assigns a plain string to a TLS key of [web] is what is decoded. *)
Class TlsLines (Decode : string -> string + Doc Prim) : Prop := tls_lines : forall raw d key v,
  Decode raw = inr d -> single_lines raw -> key ∈ tls_keys -> plain v -> lookup (lines_of raw) "web" key = Some (tomlString v) ->
  exists prim sec, doc_top d !! "web" = Some prim /\ (doc_type d "web" = "Hash" \/ doc_type d "web" = "") /\ dec_table prim = Some sec /\ key_is sec key dec_str v.
Lemma tls_keys_yield sec listen c k : key_is sec "tls" dec_str "file" -> key_is sec "cert_file" dec_str c -> key_is sec "key_file" dec_str k -> plain c -> plain k ->
  yields (fun t => t = ("file", c, k)) (tls sec listen).
Proof.
  intros Ht Hc Hk (Nc & Tc & _) (Nk & Tk & _). unfold tls. cbv zeta. rewrite (key_str _ _ _ _ _ Ht), ret_bind. cbv beta iota.
  rewrite (key_str _ _ _ _ _ Hc), ret_bind. cbv beta iota. rewrite (key_str _ _ _ _ _ Hk), ret_bind. cbv beta iota. rewrite Tc, Tk.
  change (enumValue "file") with "file". change (true && negb (contains TLSModes "file")) with false. cbv iota. rewrite ret_bind.
  rewrite (proj2 (String.eqb_neq c "") Nc), (proj2 (String.eqb_neq k "") Nk). change (String.eqb "file" "file" && (false || false)) with false. cbv iota. rewrite ret_bind.
  change (String.eqb "file" "off" && negb (IsLoopbackListen listen)) with false. cbv iota. rewrite ret_bind. by apply yields_ret.
Qed.
Lemma web_tls_yields sec c k : key_is sec "tls" dec_str "file" -> key_is sec "cert_file" dec_str c -> key_is sec "key_file" dec_str k -> plain c -> plain k ->
  yields (fun w => w_TLS w = "file" /\ w_CertFile w = c /\ w_KeyFile w = k) (web sec).
Proof.
  intros Ht Hc Hk Pc Pk. unfold web. apply yields_seq. cbv zeta. apply yields_bind'. intros listen. apply yields_bind'. intros [auth broken].
  apply yields_bind'. intros [user ?]. apply yields_bind'. intros [hash ?]. apply yields_bind'. intros [auth1 broken1]. apply yields_bind'. intros l.
  apply yields_bind'. intros hosts. eapply yields_bind; [by apply (tls_keys_yield sec l c k)|]. intros ? ->. apply yields_bind'. intros behind. by apply yields_ret.
Qed.
Lemma tls_read_back env (Decode : string -> string + Doc Prim) `{!TlsLines Decode} raw out c k cfg ws : plain c -> plain k -> single_lines raw ->
  tls_set "file" c k raw out -> Parse env Decode out = (cfg, ws, None) ->
  w_TLS (c_Web cfg) = "file" /\ w_CertFile (c_Web cfg) = c /\ w_KeyFile (c_Web cfg) = k.
Proof.
  intros Pc Pk Hr Hs Hp. assert (Pf : plain "file") by (apply (bool_decide_unpack _); by vm_compute).
  pose proof (tls_set_single _ _ _ _ _ Pf Pc Pk Hr Hs) as Ho. destruct Hs as (H1 & H2 & H3 & _).
  unfold Parse in Hp. destruct (Decode out) as [msg|d] eqn:Ed; [done|]. destruct (parse_doc env d []) as [cfg' ws'] eqn:E. injection Hp as <- <-.
  destruct (tls_lines out d "tls" "file" Ed Ho ltac:(by left) Pf H1) as (prim & sec & T1 & T2 & T3 & K1).
  destruct (tls_lines out d "cert_file" c Ed Ho ltac:(by right; left) Pc H2) as (prim' & sec' & T1' & _ & T3' & K2). rewrite T1 in T1'. injection T1' as <-. rewrite T3 in T3'. injection T3' as <-.
  destruct (tls_lines out d "key_file" k Ed Ho ltac:(by right; right; left) Pk H3) as (prim' & sec' & T1' & _ & T3' & K3). rewrite T1 in T1'. injection T1' as <-. rewrite T3 in T3'. injection T3' as <-.
  assert (Hw : forall ws, section d "web" DefaultWeb web ws = web sec ws).
  { intros ws0. unfold section, table. rewrite T1, T3. destruct T2 as [-> | ->]; cbn [negb andb String.eqb Ascii.eqb Bool.eqb]; by rewrite ret_bind. }
  unfold parse_doc, bind, ret in E. destruct (iterM _ _ _) as [u w0], (section d "daemon" _ _ _) as [dm w1]. rewrite Hw in E.
  pose proof (web_tls_yields sec c k K1 K2 K3 Pc Pk w1) as Hy. destruct (web sec w1) as [wb w2], (section d "log" _ _ _) as [lg w3],
    (section d "alert" _ _ _) as [al w4], (section d "dashboard" _ _ _) as [db w5], (tables d "channel" _ _ _) as [ch w6], (tables d "schedule" _ _ _) as [sc w7].
  injection E as <- _. exact Hy.
Qed.
End Tls_read.

(** The alert settings of a request: a missing member keeps the value in the file. *)
Record AlertSettings := mkSettings {
  as_Transport : option string; as_MailTo : option string; as_WebhookURL : option string; as_WebhookFormat : option string }.
(** [sw] of the manager: the sink that delivers. *)
Record alertManager := mkManager { am_cur : ConfigTypes.Alert; am_sink : Sink }.
#[export] Instance eta_alertManager : Eta alertManager := fun m => mkManager (am_cur m) (am_sink m).
#[export] Instance Alert_eq : EqDecision ConfigTypes.Alert.
Proof. solve_decision. Defined.

(** An error of [editConfig]. *)
Inductive EditErr := ERead (e : FsErr) | ELayout | ESyntax (e : ConfigFields.Err) | EWrite (e : FsErr).

Section Stores.
Context {W : Type} {Fs : Files W} {Prim : Type} `{!Toml Prim} {U : Url}.
(** The log directory's variable, [toml.Decode], [Marshal]; the path of the file and the
    manager's TLS values. *)
Variable (env : string) (Decode : string -> string + Doc Prim) (Marshal : ConfigTypes.Config -> string).
Variable (cfgPath : string) (p : tlsPin).
Local Abbreviation Parse := (Parse env Decode).

Definition pinConfig (raw : string) : string :=
  if negb (tp_ownsConfig p) then raw
  else
    match Parse raw with
    | (cfg, _, None) =>
        if String.eqb (w_TLS (c_Web cfg)) (tp_mode p) && String.eqb (w_CertFile (c_Web cfg)) (tp_certFile p) && String.eqb (w_KeyFile (c_Web cfg)) (tp_keyFile p)
        then raw else setTLSKeys raw (tp_mode p) (tp_certFile p) (tp_keyFile p)
    | _ => setTLSKeys raw (tp_mode p) (tp_certFile p) (tp_keyFile p)
    end.

(** ** The read-modify-write *)
Definition readConfigRaw (w : W) : FsErr + string :=
  match fs_ReadFile w cfgPath with inl FsNotExist => inr "" | r => r end.
(** [edit] answers with the new text and what the store remembers of it, or declines. *)
Definition editConfig {D A} (edit : string -> D + string * A) (verify : A -> ConfigTypes.Config -> bool) : M W (EditErr + (D + A)) := fun w =>
  match readConfigRaw w with
  | inl e => (inl (ERead e), w)
  | inr raw =>
      match edit raw with
      | inl d => (inr (inl d), w)
      | inr (new, a) =>
          match (Parse raw).2, Parse new with
          | None, (_, _, Some _) => (inl ELayout, w)
          | Some _, (_, _, Some e) => (inl (ESyntax e), w)
          | _, (cfg, _, None) =>
              if negb (verify a cfg) then (inl ELayout, w)
              else
                let '(e, w) := Save env Decode cfgPath (pinConfig new) w in
                (match e with Some e => inl (EWrite e) | None => inr (inr a) end, w)
          end
      end
  end.

(** ** The account *)
(** [accountStore]: the credentials in effect, and the world. *)
Definition accountStore : Type := AuthConfig * W.
Definition account_next (cur : AuthConfig) (user passwordHash raw : string) : AuthConfig :=
  let next := match Parse raw with
              | (cfg, _, None) => mkAuth (au_Mode cur) (w_User (c_Web cfg)) (w_PasswordHash (c_Web cfg))
              | _ => cur
              end in
  mkAuth (au_Mode next) (if String.eqb user "" then au_User next else user)
    (if String.eqb passwordHash "" then au_PasswordHash next else passwordHash).
Definition account_edit (cur : AuthConfig) (user passwordHash raw : string) : unit + string * AuthConfig :=
  let next := account_next cur user passwordHash raw in
  inr (SetKey (SetKey raw "web" "user" (tomlString (au_User next))) "web" "password_hash" (tomlString (au_PasswordHash next)), next).
Definition account_verify (next : AuthConfig) (cfg : ConfigTypes.Config) : bool :=
  String.eqb (w_User (c_Web cfg)) (au_User next) && String.eqb (w_PasswordHash (c_Web cfg)) (au_PasswordHash next).
(** None for an error; the credentials in effect are the store's in both cases. *)
Definition Update (user passwordHash : string) (st : accountStore) : option AuthConfig * accountStore :=
  let '(cur, w) := st in
  if String.eqb user "" && String.eqb passwordHash "" then (Some cur, st)
  else if negb (String.eqb passwordHash "") && (match ParsePasswordHash passwordHash with inl _ => true | inr _ => false end) then (None, st)
  else
    let '(res, w) := editConfig (account_edit cur user passwordHash) account_verify w in
    match res with
    | inr (inr next) => (Some next, (next, w))
    | _ => (None, (cur, w))
    end.
#[export] Instance account_store : WebGuard.Account accountStore := Some Update.

(** ** The dashboard *)
(** [factory]: None when the id gives a sensor, [Some true] when it is well-formed and no
    device is there ([ErrNoDevice]), [Some false] for any other error. *)
Variable (factory : W -> string -> option bool) (svc_SetWatched : list string -> W -> W).
Definition id_plain (id : string) : bool :=
  negb (existsb (fun c => is_char c "034" || is_char c "010" || is_char c "013" || is_char c "092") (chars id) || Contains id "<").
Inductive DashErr := DTooMany | DNotValid (id : string) | DFactory (id : string) | DEdit (e : EditErr).
Fixpoint check_ids (w : W) (ids : list string) : DashErr + list string :=
  match ids with
  | [] => inr []
  | id :: ids' =>
      if negb (id_plain id) then inl (DNotValid id)
      else match factory w id with
      | Some false => inl (DFactory id)
      | Some true => match check_ids w ids' with inl e => inl e | inr warns => inr (id :: warns) end
      | None => check_ids w ids'
      end
  end.
(** The ids that give no device right now, as a warning. *)
Definition SetSensors (ids : list string) : M W (DashErr + list string) := fun w =>
  let clean := clean_ids ids in
  if MaxDashboardSensors <? Z.of_nat (length clean) then (inl DTooMany, w)
  else match check_ids w clean with
  | inl e => (inl e, w)
  | inr warns =>
      let '(res, w) := editConfig (fun raw => @inr unit _ (SetKey raw "dashboard" "sensors" (tomlStringArray clean), tt))
                         (fun _ cfg => bool_decide (c_Sensors cfg = clean)) w in
      match res with
      | inl e => (inl (DEdit e), w)
      | inr _ => (inr warns, svc_SetWatched clean w)
      end
  end.

(** ** The alert settings *)
Definition mergeAlertSettings (base : ConfigTypes.Alert) (s : AlertSettings) : ConfigFields.Err + ConfigTypes.Alert :=
  let a := base in
  let a := match as_Transport s with Some t => a <| a_Transport := ToLower (TrimSpace t) |> | None => a end in
  let a := match as_MailTo s with Some t => a <| a_MailTo := TrimSpace t |> | None => a end in
  let a := match as_WebhookURL s with Some t => a <| a_WebhookURL := TrimSpace t |> | None => a end in
  let a := match as_WebhookFormat s with Some t => a <| a_WebhookFormat := ToLower (TrimSpace t) |> | None => a end in
  let a := if String.eqb (a_MailTo a) "" then a <| a_MailTo := DefaultMailTo |> else a in
  let a := if String.eqb (a_WebhookFormat a) "" then a <| a_WebhookFormat := DefaultWebhookFormat |> else a in
  if negb (contains AlertTransports (a_Transport a)) then inl ("transport %q unknown (%s)", [AStr (a_Transport a); AStr (Join AlertTransports "|")])
  else if negb (ValidMailTo (a_MailTo a)) then inl ("mail_to %q is not a local user or address", [AStr (a_MailTo a)])
  else match (if String.eqb (a_WebhookURL a) "" then None else ValidWebhookURL (a_WebhookURL a)) with
  | Some (f, args) => inl ("webhook_url %v", [AErr f args])
  | None =>
      if negb (contains WebhookFormats (a_WebhookFormat a)) then inl ("webhook_format %q unknown (%s)", [AStr (a_WebhookFormat a); AStr (Join WebhookFormats "|")])
      else if String.eqb (a_Transport a) "webhook" && String.eqb (a_WebhookURL a) "" then inl ("transport %q needs webhook_url", [AStr (a_Transport a)])
      else inr (if (match as_Transport s with Some _ => true | None => false end) && negb (String.eqb (a_Transport a) "webhook")
                then a <| a_WebhookURL := "" |> else a)
  end.
Definition alertConfig (a : ConfigTypes.Alert) : Alert.Config := Alert.mkConfig (a_Transport a) (a_MailTo a) (a_WebhookURL a) (a_WebhookFormat a).
(** [Available] *)
Variable (pve mail : bool).
Definition newAlertManager (a : ConfigTypes.Alert) : alertManager := mkManager a (NewForConfig pve mail (alertConfig a)).
Definition apply_alert (a : ConfigTypes.Alert) (m : alertManager) : alertManager :=
  if bool_decide (a = am_cur m) then m else newAlertManager a.
Definition set_if (cond : bool) (key value raw : string) : string := if cond then SetKey raw "alert" key (tomlString value) else raw.
Definition given {A} (o : option A) : bool := match o with Some _ => true | None => false end.
(** The edit: the merge over the section of the file, or the error of the merge. *)
Definition alert_edit (m : alertManager) (s : AlertSettings) (raw : string) : ConfigFields.Err + string * ConfigTypes.Alert :=
  let base := match Parse raw with (cfg, _, None) => c_Alert cfg | _ => am_cur m end in
  match mergeAlertSettings base s with
  | inl e => inl e
  | inr a =>
      let raw := set_if (given (as_Transport s)) "transport" (a_Transport a) raw in
      let raw := set_if (given (as_MailTo s)) "mail_to" (a_MailTo a) raw in
      let raw := set_if (given (as_WebhookURL s) || negb (String.eqb (a_WebhookURL a) (a_WebhookURL base))) "webhook_url" (a_WebhookURL a) raw in
      let raw := set_if (given (as_WebhookFormat s)) "webhook_format" (a_WebhookFormat a) raw in
      inr (raw, a)
  end.
Inductive AlertErr := AMerge (e : ConfigFields.Err) | AEdit (e : EditErr).
Definition Configure (s : AlertSettings) (st : alertManager * W) : (option AlertErr) * (alertManager * W) :=
  let '(m, w) := st in
  let '(res, w) := editConfig (alert_edit m s) (fun a cfg => bool_decide (c_Alert cfg = a)) w in
  match res with
  | inl e => (Some (AEdit e), (m, w))
  | inr (inl e) => (Some (AMerge e), (m, w))
  | inr (inr a) => (None, (apply_alert a m, w))
  end.

(** ** The editor *)
Definition Raw (w : W) : FsErr + string :=
  match fs_ReadFile w cfgPath with inl FsNotExist => inr (Marshal Default) | r => r end.
Definition Save_config (raw : string) : M W (option EditErr) := fun w =>
  match Parse raw with
  | (_, _, Some e) => (Some (ESyntax e), w)
  | _ => let '(e, w) := Save env Decode cfgPath (pinConfig raw) w in (EWrite <$> e, w)
  end.

(** ** The hook on every reload *)
Definition hooked_Reload (svc : string -> M W (option ReloadErr)) (raw : string) (st : alertManager * scheduler * W)
  : option ReloadErr * (alertManager * scheduler * W) :=
  let '(m, sc, w) := st in
  let '(err, w) := svc raw w in
  match err with
  | Some (ReloadFailed _) => (err, (m, sc, w))
  | _ => match Parse raw with
         | (cfg, _, None) => (err, (apply_alert (c_Alert cfg) m, Set_entries (FromConfig (c_Schedules cfg)) sc, w))
         | _ => (err, (m, sc, w))
         end
  end.

(** ** What reached the file *)
Lemma pin_quiet raw cfg ws : Parse raw = (cfg, ws, None) ->
  w_TLS (c_Web cfg) = tp_mode p -> w_CertFile (c_Web cfg) = tp_certFile p -> w_KeyFile (c_Web cfg) = tp_keyFile p -> pinConfig raw = raw.
Proof. intros E H1 H2 H3. unfold pinConfig. rewrite E, H1, H2, H3, !String.eqb_refl. by destruct (tp_ownsConfig p). Qed.
(** What is written for a text that reads as [cfg]: the text itself, unless the manager
    owns the TLS keys and the text says otherwise; then the text with these keys set. *)
Definition pinned (new : string) (cfg : ConfigTypes.Config) (out : string) : Prop :=
  if tp_ownsConfig p && negb (bool_decide ((w_TLS (c_Web cfg), w_CertFile (c_Web cfg), w_KeyFile (c_Web cfg)) = (tp_mode p, tp_certFile p, tp_keyFile p)))
  then tls_set (tp_mode p) (tp_certFile p) (tp_keyFile p) new out
  else out = new.
Lemma pinConfig_pinned new cfg ws : Parse new = (cfg, ws, None) -> pinned new cfg (pinConfig new).
Proof.
  intros E. unfold pinned, pinConfig. rewrite E. destruct (tp_ownsConfig p); cbn [andb negb]; [|done]. case_bool_decide as Eq; cbn [negb].
  - injection Eq as -> -> ->. by rewrite !String.eqb_refl.
  - destruct (String.eqb_spec (w_TLS (c_Web cfg)) (tp_mode p)); cbn [andb]; [|apply setTLSKeys_set].
    destruct (String.eqb_spec (w_CertFile (c_Web cfg)) (tp_certFile p)); cbn [andb]; [|apply setTLSKeys_set].
    destruct (String.eqb_spec (w_KeyFile (c_Web cfg)) (tp_keyFile p)); [|apply setTLSKeys_set]. congruence.
Qed.
(** The file was written with a text that reads as a configuration with [good], its TLS
    keys pinned. *)
Definition reads_back (w w' : W) (good : ConfigTypes.Config -> Prop) : Prop := exists new out cfg ws perm,
  fs_Write cfgPath out perm w = (None, w') /\ Parse new = (cfg, ws, None) /\ good cfg /\ pinned new cfg out.
Definition not_written (w w' : W) : Prop := w' = w \/ exists raw perm e, fs_Write cfgPath raw perm w = (Some e, w').
Lemma editConfig_ok {D A} (edit : string -> D + string * A) verify w a w' : editConfig edit verify w = (inr (inr a), w') ->
  reads_back w w' (fun cfg => verify a cfg = true) /\ exists raw new, readConfigRaw w = inr raw /\ edit raw = inr (new, a).
Proof.
  unfold editConfig. destruct (readConfigRaw w) as [e|raw] eqn:Er; [done|]. destruct (edit raw) as [d|[new a1]] eqn:Ee; [done|].
  destruct (Parse new) as [[cfg ws] [e|]] eqn:Ep; [by destruct (Parse raw).2|]. intros H.
  assert (H' : (if negb (verify a1 cfg) then (inl ELayout, w) else let '(e, w1) := Save env Decode cfgPath (pinConfig new) w in
    (match e with Some e => inl (EWrite e) | None => inr (inr a1) end, w1)) = (inr (inr a) : EditErr + (D + A), w')) by (by destruct (Parse raw).2).
  clear H. destruct (verify a1 cfg) eqn:Ev; [|done]. cbn in H'. unfold Save in H'.
  destruct (fs_Write _ _ _ w) as [[e|] w1] eqn:Ew; [done|]. injection H' as <- <-. split; [|by exists raw, new]. eexists new, _, cfg, ws, _. split_and!; try done. by eapply pinConfig_pinned.
Qed.
Lemma editConfig_no {D A} (edit : string -> D + string * A) verify w res w' : editConfig edit verify w = (res, w') ->
  (forall a, res <> inr (inr a)) -> not_written w w'.
Proof.
  unfold editConfig, not_written. intros H Hn. destruct (readConfigRaw w) as [e|raw]; [injection H as <- <-; by left|].
  destruct (edit raw) as [d|[new a1]]; [injection H as <- <-; by left|]. unfold Save in H.
  destruct (Parse new) as [[cfg ws] [e|]]; [destruct (Parse raw).2; injection H as <- <-; by left|].
  destruct (verify a1 cfg); [|destruct (Parse raw).2; injection H as <- <-; by left]. cbn in H.
  destruct (fs_Write _ _ _ w) as [[e|] w1] eqn:Ew; destruct (Parse raw).2; injection H as <- <-; try (by right; eauto); by destruct (Hn a1).
Qed.

(** ** The merged alert settings *)
Lemma contains_in l x : contains l x = true -> x ∈ l.
Proof. unfold contains. intros (y & Hy & E)%existsb_exists. apply String.eqb_eq in E as ->. by apply list_elem_of_In. Qed.
Lemma merge_alert_ok base st a : mergeAlertSettings base st = inr a -> alert_ok a.
Proof.
  unfold mergeAlertSettings. cbv zeta. match goal with |- context [if String.eqb (a_WebhookFormat ?x) "" then _ else ?y] => set (b := if String.eqb (a_WebhookFormat x) "" then x <| a_WebhookFormat := DefaultWebhookFormat |> else y) end.
  clearbody b. destruct (contains AlertTransports (a_Transport b)) eqn:Et; [|done]. destruct (ValidMailTo (a_MailTo b)) eqn:Em; [|done]. cbn [negb].
  destruct (if String.eqb (a_WebhookURL b) "" then None else ValidWebhookURL (a_WebhookURL b)) as [[f args]|] eqn:Eu; [done|].
  destruct (contains WebhookFormats (a_WebhookFormat b)) eqn:Ef; [|done]. cbn [negb].
  destruct (String.eqb (a_Transport b) "webhook" && String.eqb (a_WebhookURL b) "") eqn:Ew; [done|]. intros [= <-].
  apply contains_in in Et, Ef.
  assert (Hu : a_WebhookURL b = "" \/ ValidWebhookURL (a_WebhookURL b) = None) by (destruct (String.eqb_spec (a_WebhookURL b) ""); auto).
  destruct (String.eqb_spec (a_Transport b) "webhook") as [E|E].
  - cbn in Ew. apply String.eqb_neq in Ew. rewrite andb_false_r. by unfold alert_ok.
  - rewrite andb_true_r. destruct b as [t m u f]. cbn in *. destruct (as_Transport st); unfold alert_ok; cbn; split_and!; auto; by intros.
Qed.

Lemma merge_alert_clears base st a : mergeAlertSettings base st = inr a -> given (as_Transport st) = true -> a_Transport a <> "webhook" -> a_WebhookURL a = "".
Proof.
  unfold mergeAlertSettings. cbv zeta. match goal with |- context [if String.eqb (a_WebhookFormat ?x) "" then _ else ?y] => set (b := if String.eqb (a_WebhookFormat x) "" then x <| a_WebhookFormat := DefaultWebhookFormat |> else y) end.
  clearbody b. destruct (contains _ _); [|done]. destruct (ValidMailTo _); [|done]. cbn [negb]. destruct (if String.eqb (a_WebhookURL b) "" then _ else _) as [[]|]; [done|].
  destruct (contains _ _); [|done]. cbn [negb]. destruct (String.eqb (a_Transport b) "webhook" && _); [done|]. intros [= <-] Hg. unfold given in Hg.
  destruct (as_Transport st); [|done]. cbn [andb]. destruct (String.eqb_spec (a_Transport b) "webhook"); cbn [negb]; [done|]. by destruct b.
Qed.
Lemma apply_alert_cur a m : am_cur (apply_alert a m) = a.
Proof. unfold apply_alert. by case_bool_decide. Qed.
Definition sink_ok (m : alertManager) : Prop := am_sink m = NewForConfig pve mail (alertConfig (am_cur m)).
Lemma apply_alert_sink a m : sink_ok m -> sink_ok (apply_alert a m).
Proof. unfold apply_alert. by case_bool_decide. Qed.

(** ** Each store *)
Lemma Update_spec cur user hash w : let '(res, (cur', w')) := Update user hash (cur, w) in
  match res with
  | Some next => cur' = next /\ au_Mode next = au_Mode cur /\ (user <> "" -> au_User next = user) /\ (hash <> "" -> au_PasswordHash next = hash) /\
      (w' = w /\ next = cur \/
       reads_back w w' (fun cfg => w_User (c_Web cfg) = au_User next /\ w_PasswordHash (c_Web cfg) = au_PasswordHash next))
  | None => cur' = cur /\ not_written w w'
  end.
Proof.
  unfold Update. destruct (String.eqb user "" && String.eqb hash "") eqn:E0.
  { apply andb_prop in E0 as [->%String.eqb_eq ->%String.eqb_eq]. split_and!; auto; by intros []. }
  destruct (negb (String.eqb hash "") && _); [split; [done|by left]|].
  destruct (editConfig _ _ w) as [res w1] eqn:Ee. destruct res as [e|[d|next]].
  - split; [done|]. by eapply editConfig_no.
  - split; [done|]. by eapply editConfig_no.
  - apply editConfig_ok in Ee as [(new & out & cfg & ws & perm & Hw & Hp & Hv & Hpin) (raw & text & _ & He)]. unfold account_edit in He. injection He as _ <-.
    split; [done|]. split; [unfold account_next; by destruct (Parse raw) as [[] []]|]. unfold account_verify in Hv. apply andb_prop in Hv as [Hu%String.eqb_eq Hh%String.eqb_eq].
    split_and!; [cbn; by destruct (String.eqb_spec user "")|cbn; by destruct (String.eqb_spec hash "")|]. right. by exists new, out, cfg, ws, perm.
Qed.
Lemma SetSensors_spec ids w : match SetSensors ids w with
  | (inr _, w') => Z.of_nat (length (clean_ids ids)) <= MaxDashboardSensors /\
      exists w1, w' = svc_SetWatched (clean_ids ids) w1 /\ reads_back w w1 (fun cfg => c_Sensors cfg = clean_ids ids)
  | (inl _, w') => not_written w w'
  end.
Proof.
  unfold SetSensors. destruct (Z.ltb_spec MaxDashboardSensors (Z.of_nat (length (clean_ids ids)))); [by left|].
  destruct (check_ids w (clean_ids ids)); [by left|]. destruct (editConfig _ _ w) as [res w1] eqn:Ee. destruct res as [e|[d|[]]].
  - by eapply editConfig_no.
  - exfalso. unfold editConfig in Ee. destruct (readConfigRaw w); [done|]. destruct (Parse (SetKey _ _ _ _)) as [[] []]; destruct (Parse _).2; unfold Save in Ee; repeat case_match; simplify_eq.
  - apply editConfig_ok in Ee as [(new & out & cfg & ws & perm & Hw & Hp & Hv%bool_decide_eq_true & Hpin) _]. split; [done|]. exists w1. split; [done|]. by exists new, out, cfg, ws, perm.
Qed.
Lemma Configure_spec s m w : let '(res, (m', w')) := Configure s (m, w) in
  match res with
  | None => reads_back w w' (fun cfg => c_Alert cfg = am_cur m') /\ alert_ok (am_cur m') /\
      (given (as_Transport s) = true -> a_Transport (am_cur m') <> "webhook" -> a_WebhookURL (am_cur m') = "") /\ (sink_ok m -> sink_ok m')
  | Some _ => m' = m /\ not_written w w'
  end.
Proof.
  unfold Configure. destruct (editConfig _ _ w) as [res w1] eqn:Ee. destruct res as [e|[d|a]].
  - split; [done|]. by eapply editConfig_no.
  - split; [done|]. by eapply editConfig_no.
  - apply editConfig_ok in Ee as [(new & out & cfg & ws & perm & Hw & Hp & Hv%bool_decide_eq_true & Hpin) (raw & text & _ & He)]. rewrite apply_alert_cur.
    unfold alert_edit in He. destruct (mergeAlertSettings _ s) as [e|a'] eqn:Em; [done|]. injection He as _ ->.
    split; [by exists new, out, cfg, ws, perm|]. split; [by eapply merge_alert_ok|]. split; [by eapply merge_alert_clears|apply apply_alert_sink].
Qed.

(** The account store keeps what the web layer's interface asks for. *)
#[export] Instance account_store_laws : AccountLaws account_store (fst : accountStore -> AuthConfig).
Proof.
  split; unfold account_store; intros Up user hash [cur w].
  - intros next [cur' w'] [= <-] E. pose proof (Update_spec cur user hash w) as H. rewrite E in H. destruct H as (-> & ? & ? & ? & _). done.
  - intros [cur' w'] [= <-] E. pose proof (Update_spec cur user hash w) as H. rewrite E in H. by destruct H as [-> _].
Qed.

End Stores.
