(* ===== verification/Verdict.v ===== *)
(** The verdicts of the embedded-controller tests (src/internal/validate/eval.go):
    the numbers of the test specification, texts of reasons, table-input crossings,
    the agreement of verdicts, the gate G4 and the tests that are not run.

    A float64 is a finite rational in binary64 (Float64), NaN is [None].  A text is kept
    as its format and arguments. *)
From stdpp Require Import base gmap strings list.
From Stdlib Require Import ZArith QArith Qabs Lia Lqa.
From S2P Require Import Prelude GoLib Float64.
Open Scope Z_scope.

Inductive Verdict := Pass | Fail | Inconclusive | Reported | NotApplicable.
#[export] Instance Verdict_eq : EqDecision Verdict.
Proof. solve_decision. Defined.

(** ** Texts: fmt.Sprintf and strings.Join *)
Inductive Text :=
  | Sprintf (format : string) (args : list Text)
  | TInt (z : Z) | TFloat (q : Q) | TStr (s : string)
  | TJoin (sep : string) (parts : list Text).

(** ** The numbers of the specification *)
Definition PCIeChannel : Z := 4.
Definition HDDInputStepC : Q := 34.
Definition LeaveCounts : Z := 16.
Definition HoldCounts : Z := 2.
Definition LeaveWithinS : Z := 60.
Definition ObserveS : Z := 900.
Definition SettleBandC : Z := 2.
Definition SettleHoldS : Z := 120.
Definition T1OwnStepRPM : Z := 200.
Definition T1OtherRPM : Z := 50.
Definition RunsRequired : Z := 3.
Definition MinDuty : Z := 100.
Definition MaxM : Z := 200.
Definition MOffset : Z := 48.
Definition LimitTctlC : Q := 85.
Definition LimitNVMeC : Q := 70.
Definition LimitHDDC : Q := 50.
Definition T1StepHoldS : Z := 60.
Definition SampleS : Z := 5.
Definition GateLoad1 : Q := 1.
Definition GateTempDeltaC : Q := 1.
Definition GateWindowS : Z := 300.
Definition SettleWriteS : Z := 10.
Definition SettlePCIeS : Z := 1.
Definition CrossMarginC : Q := 2.
Definition GridTolerance : Z := 500 * Millisecond.
Definition T1Steps : list Z := [255; 217; 179; 140].

Definition SettleTime (ch : Z) : Z := if ch =? PCIeChannel then SettlePCIeS * Second else SettleWriteS * Second.
(** The second value of the hand-back test. *)
Definition MValue (a : Z) : Z :=
  let m := a + MOffset in
  let m := if MaxM <? m then MaxM else m in
  if m <? MinDuty then MinDuty else m.

(** [1e-9] *)
Definition nano : Q := round64 (1 # 1000000000).

(** ** Samples *)
Record Sample := mkSample {
  sm_Time : Z; sm_TS : Q; sm_OffGrid : bool; sm_Phase : string; sm_Ch : Z; sm_Written : Z;
  sm_DCR : list Z; sm_Fan : list Z;
  sm_ECCPU : option Q; sm_ECSys : option Q; sm_ECBoard : option Q; sm_ECAmb : option Q;
  sm_HDDMax : option Q; sm_NVMeMax : option Q; sm_Tctl : option Q; sm_Load1 : option Q }.
#[export] Instance eta_Sample : Eta Sample := fun s => mkSample (sm_Time s) (sm_TS s) (sm_OffGrid s) (sm_Phase s)
  (sm_Ch s) (sm_Written s) (sm_DCR s) (sm_Fan s) (sm_ECCPU s) (sm_ECSys s) (sm_ECBoard s) (sm_ECAmb s)
  (sm_HDDMax s) (sm_NVMeMax s) (sm_Tctl s) (sm_Load1 s).

Definition TableSteps (ch : Z) : list Q :=
  match ch with
  | 1 => [25; 45; 55; 65; 75; 82; 87]%Q
  | 2 => [60]%Q
  | 3 => [HDDInputStepC]
  | _ => []
  end.
Definition TableInput (ch : Z) (s : Sample) : option Q :=
  match ch with 1 => sm_ECCPU s | 2 => sm_ECBoard s | 3 => sm_ECAmb s | _ => None end.
Definition InputName (ch : Z) : string :=
  match ch with 1 => "EC 0x09" | 2 => "EC 0x05" | 3 => "EC 0x06" | _ => "none" end.
Definition JudgedRegs (ch : Z) : list Z :=
  match ch with 1 | 2 => [ch] | 3 => [3; 4] | 4 => [5] | _ => [] end.
Definition regName (n : Z) : Text := Sprintf "DCR%d" [TInt n].

(** ** Crossing of a table step *)
(** The first value across the step, on the other side than the reference. *)
Fixpoint cross_step (ref s : Q) (vals : list (option Q)) : option Text :=
  match vals with
  | [] => None
  | None :: vals' => cross_step ref s vals'
  | Some v :: vals' =>
      let above := fle s ref in
      if above && fle v (fsub s CrossMarginC) then
        Some (Sprintf "%.1f C below step %.0f C (reference %.1f C)" [TFloat v; TFloat s; TFloat ref])
      else if negb above && fle (fadd s CrossMarginC) v then
        Some (Sprintf "%.1f C above step %.0f C (reference %.1f C)" [TFloat v; TFloat s; TFloat ref])
      else cross_step ref s vals'
  end.
Fixpoint cross_steps (ref : Q) (vals : list (option Q)) (steps : list Q) : option Text :=
  match steps with
  | [] => None
  | s :: steps' => match cross_step ref s vals with Some t => Some t | None => cross_steps ref vals steps' end
  end.
Definition Crossing (ref : option Q) (vals : list (option Q)) (steps : list Q) : option Text :=
  let ref := match ref with Some r => Some r | None => head (omap id vals) end in
  match ref with None => None | Some r => cross_steps r vals steps end.

Definition meanF (v : list (option Q)) : option Q :=
  let xs := omap id v in
  match xs with [] => None | _ => Some (fdiv (fold_left fadd xs 0%Q) (of_int (Z.of_nat (length xs)))) end.

(** ** Results *)
Record Criterion := mkCrit { cr_Name : string; cr_Met : option bool; cr_Detail : Text; cr_Values : list (string * Z) }.

(** One step of the mapping test: the duty, the registers and tachs per sample (-1: not
    read), when each sample was due, the table inputs. *)
Record T1Step := mkStep {
  ts_Duty : Z; ts_DCR : list Z; ts_DCR4 : list Z; ts_Fans : gmap Z (list Z); ts_OwnRPM : Q; ts_DueS : list Q; ts_SettleS : Q;
  ts_NotJudged : list Text; ts_Gaps : Z; ts_Inputs : gmap Z (list (option Q)) }.
#[export] Instance eta_T1Step : Eta T1Step := fun s => mkStep (ts_Duty s) (ts_DCR s) (ts_DCR4 s) (ts_Fans s) (ts_OwnRPM s)
  (ts_DueS s) (ts_SettleS s) (ts_NotJudged s) (ts_Gaps s) (ts_Inputs s).
(** What a result carries besides. *)
Inductive Values := VNone | VSteps (steps : list T1Step) | VInts (l : list (string * Z)) | VMax (ec_amb_max : Q) (samples : Z).

(** [combine]: all the same, or undecided. *)
Definition combine (vs : list Verdict) : Verdict :=
  match vs with
  | [] => Inconclusive
  | _ => if forallb (fun x => bool_decide (x = Pass)) vs then Pass
         else if forallb (fun x => bool_decide (x = Fail)) vs then Fail
         else Inconclusive
  end.

(** ** The gate G4 *)
Record G4Result := mkG4 { g4_Pass : bool; g4_Parts : list Text; g4_Limit : string -> bool }.
Definition limit_sensors : list (string * (Sample -> option Q)) := [("tctl", sm_Tctl); ("nvme", sm_NVMeMax); ("hdd", sm_HDDMax)].
Definition seen (get : Sample -> option Q) (rows : list Sample) : bool :=
  existsb (fun s => match get s with Some _ => true | None => false end) rows.
(** Lowest and highest value, if there is any. *)
Definition lo_hi (vs : list Q) : option (Q * Q) :=
  match vs with
  | [] => None
  | v :: vs' => Some (fold_left (fun '(lo, hi) v => ((if fle lo v then lo else v), (if fle v hi then hi else v))) vs' (v, v))
  end.
(** One criterion: its name, the largest span, its values. *)
Definition g4_criteria : list (string * option Q * (Sample -> option Q)) :=
  [("system (ec 0x04)", Some GateTempDeltaC, sm_ECSys); ("ambient (ec 0x06)", Some GateTempDeltaC, sm_ECAmb);
   ("hdd", Some GateTempDeltaC, sm_HDDMax); ("tctl", None, sm_Tctl)].
Definition g4_one (rows : list Sample) (c : string * option Q * (Sample -> option Q)) : bool * list Text :=
  let '(name, mx, get) := c in
  match mx, lo_hi (omap get rows) with
  | None, None => (true, [])
  | None, Some (lo, hi) => (true, [Sprintf "tctl %.1f C (not a stability criterion: limit %.0f C only, TESTSPEC 0.4 #20)" [TFloat (fsub hi lo); TFloat LimitTctlC]])
  | Some _, None => (false, if String.eqb name "hdd" then [] else [TJoin "" [TStr name; TStr " not available"]])
  | Some m, Some (lo, hi) =>
      let d := fsub hi lo in
      let ok := flt d m in
      (ok, [Sprintf "%s %.1f C (%s %.0f C)" [TStr name; TFloat d; TStr (if ok then "<" else ">="); TFloat m]])
  end.
Definition g4_limit (rows : list Sample) (c : string * (Sample -> option Q)) : bool * list Text :=
  if seen c.2 rows then (true, []) else (false, [TJoin "" [TStr "limit sensor "; TStr c.1; TStr " not available"]]).
Definition EvalG4 (rows : list Sample) : G4Result :=
  let parts := map (g4_limit rows) limit_sensors ++ map (g4_one rows) g4_criteria in
  mkG4 (forallb fst parts) (flat_map snd parts)
    (fun name => existsb (fun c => String.eqb c.1 name && seen c.2 rows) limit_sensors).

Lemma fadd_le a b c : (a <= b)%Q -> (fadd a c <= fadd b c)%Q.
Proof. intros H. unfold fadd. apply round64_le. lra. Qed.
Lemma fsub_le a b c d : (a <= b)%Q -> (c <= d)%Q -> (fsub a d <= fsub b c)%Q.
Proof. intros H1 H2. unfold fsub. apply round64_le. lra. Qed.
Lemma lo_hi_spec vs : match lo_hi vs with
  | None => vs = []
  | Some (lo, hi) => lo ∈ vs /\ hi ∈ vs /\ forall v, v ∈ vs -> (lo <= v <= hi)%Q end.
Proof.
  destruct vs as [|v0 vs]; [done|]. cbn [lo_hi].
  assert (H : forall l lo hi, let p := fold_left (fun '(lo, hi) v => ((if fle lo v then lo else v), (if fle v hi then hi else v))) l (lo, hi) in
    (p.1 = lo \/ p.1 ∈ l) /\ (p.2 = hi \/ p.2 ∈ l) /\ (p.1 <= lo)%Q /\ (hi <= p.2)%Q /\ forall v, v ∈ l -> (p.1 <= v <= p.2)%Q).
  { induction l as [|v l IH]; intros lo hi; cbn [fold_left]; cbn zeta.
    { split_and!; [by left|by left|cbn; lra|cbn; lra|]. by intros v ?%not_elem_of_nil. }
    specialize (IH (if fle lo v then lo else v) (if fle v hi then hi else v)). cbn zeta in IH. destruct IH as (H1 & H2 & H3 & H4 & H5).
    assert (Hl : ((if fle lo v then lo else v) <= lo /\ (if fle lo v then lo else v) <= v)%Q).
    { destruct (fle lo v) eqn:E; [apply fle_spec in E|apply fle_false in E]; lra. }
    assert (Hh : (hi <= (if fle v hi then hi else v) /\ v <= (if fle v hi then hi else v))%Q).
    { destruct (fle v hi) eqn:E; [apply fle_spec in E|apply fle_false in E]; lra. }
    split_and!.
    - destruct H1 as [H1|H1]; [|right; by right]. rewrite H1. destruct (fle lo v); [by left|right; by left].
    - destruct H2 as [H2|H2]; [|right; by right]. rewrite H2. destruct (fle v hi); [by left|right; by left].
    - lra.
    - lra.
    - intros w [->|Hw]%elem_of_cons; [lra|auto]. }
  specialize (H vs v0 v0). destruct (fold_left _ vs (v0, v0)) as [lo hi]. cbn in H. destruct H as (H1 & H2 & H3 & H4 & H5). split_and!.
  - destruct H1 as [->|H1]; [by left|by right].
  - destruct H2 as [->|H2]; [by left|by right].
  - intros v [->|Hv]%elem_of_cons; [lra|auto].
Qed.
Lemma seen_spec get rows : seen get rows = true <-> exists s v, s ∈ rows /\ get s = Some v.
Proof.
  unfold seen. rewrite existsb_exists. setoid_rewrite <- list_elem_of_In. split.
  - intros (s & Hs & H). destruct (get s) as [v|] eqn:E; [by exists s, v|done].
  - intros (s & v & Hs & E). exists s. by rewrite E.
Qed.
Lemma g4_one_spec rows name m get : (g4_one rows (name, Some m, get)).1 = true <->
  (exists s v, s ∈ rows /\ get s = Some v) /\
  forall s s' v v', s ∈ rows -> s' ∈ rows -> get s = Some v -> get s' = Some v' -> (fsub v v' < m)%Q.
Proof.
  cbn. assert (Hin : forall v, v ∈ omap get rows <-> exists s, s ∈ rows /\ get s = Some v) by (intros v; apply list_elem_of_omap).
  pose proof (lo_hi_spec (omap get rows)) as H. destruct (lo_hi _) as [[lo hi]|].
  - destruct H as (Hlo & Hhi & Hall). cbn [fst]. rewrite flt_spec. split.
    + intros Hd. split; [apply Hin in Hlo as (s & ? & ?); eauto|]. intros s s' v v' Hs Hs' Ev Ev'.
      pose proof (Hall v (proj2 (Hin v) (ex_intro _ s (conj Hs Ev)))). pose proof (Hall v' (proj2 (Hin v') (ex_intro _ s' (conj Hs' Ev')))).
      eapply Qle_lt_trans; [|exact Hd]. apply fsub_le; lra.
    + intros [_ Hd]. apply Hin in Hlo as (s & Hs & Es), Hhi as (s' & Hs' & Es'). by apply (Hd s' s).
  - cbn [fst]. split; [done|]. intros [(s & v & Hs & Ev) _]. assert (Hv : v ∈ omap get rows) by (apply Hin; eauto). rewrite H in Hv.
    by apply not_elem_of_nil in Hv.
Qed.

(** The gate before any test that writes opens exactly if each of the three sensors
    that guard the run (CPU, NVMe, disks) has given a value in the window, and each of
    the temperatures the tables depend on (system, ambient, disks) has given one and no
    two of its values differ by a degree or more.  The CPU temperature need not be
    stable. *)
Theorem g4_verdict (rows : list Sample) :
  let given get := exists s v, s ∈ rows /\ get s = Some v in
  (g4_Pass (EvalG4 rows) = true <->
    (given sm_Tctl /\ given sm_NVMeMax /\ given sm_HDDMax) /\
    (forall get, get ∈ [sm_ECSys; sm_ECAmb; sm_HDDMax] -> given get /\
       forall s s' v v', s ∈ rows -> s' ∈ rows -> get s = Some v -> get s' = Some v' -> (fsub v v' < 1)%Q)) /\
  (g4_Limit (EvalG4 rows) "tctl" = true <-> given sm_Tctl) /\ (g4_Limit (EvalG4 rows) "nvme" = true <-> given sm_NVMeMax) /\
  (g4_Limit (EvalG4 rows) "hdd" = true <-> given sm_HDDMax).
Proof.
  intros given. assert (Hlim : forall name get, (g4_limit rows (name, get)).1 = true <-> given get).
  { intros name get. unfold g4_limit, given. rewrite <- seen_spec. cbn [snd]. by destruct (seen get rows). }
  split; [|by cbn; rewrite ?orb_false_r, ?seen_spec].
  cbn [EvalG4 g4_Pass]. rewrite forallb_app, andb_true_iff. cbn [map limit_sensors g4_criteria forallb].
  rewrite !andb_true_r, !andb_true_iff, !Hlim, !g4_one_spec.
  assert (Ht : (g4_one rows ("tctl", None, sm_Tctl)).1 = true) by (cbn; by destruct (lo_hi _) as [[]|]).
  setoid_rewrite elem_of_cons. setoid_rewrite elem_of_cons. setoid_rewrite list_elem_of_singleton.
  split; [intros [H1 (H2 & H3 & H4 & _)]|intros [H1 H2]; split; [done|]].
  - split; [done|]. by intros get [->|[->| ->]].
  - split; [apply H2; auto|]. split; [apply H2; auto|]. split; [apply H2; auto|done].
Qed.
