(* ===== verification/Handback.v ===== *)
(** The hand-back tests T2 and T3 (src/internal/validate/eval.go): one sub-run
    (EvalHandback), its registers (EvalHandbackRegs) and the repetitions
    (AggregateHandback). *)
From stdpp Require Import base gmap strings list sorting.
From Stdlib Require Import ZArith QArith Qabs Lia Lqa.
From S2P Require Import Prelude GoLib Float64 Verdict.
Open Scope Z_scope.

(** ** Data *)
Record DCRSample := mkDCR { ds_T : Q; ds_DCR : Z }.
Record HandbackRun := mkRun {
  hr_Label : string; hr_Reg : string; hr_Written : Z; hr_Samples : list DCRSample; hr_TimingKnown : bool;
  hr_Auto : Z; hr_AutoKnown : bool; hr_Hold : list DCRSample; hr_SettleS : Q; hr_InputCrossed : option Text }.
(** A remark on the registers: a test in which they disagree, or final values that differ. *)
Inductive RegNote := Disagree (test : string) (short : list Text) | FinalsDiffer (finals : list Text).
Inductive SubResult := mkSub {
  sub_Label : string; sub_Reg : string; sub_Written : Z;
  sub_Left : bool; sub_LeftAtS : option Q; sub_MaxDev : Z; sub_HeldS : Q; sub_ObservedS : Q;
  sub_T2 : Verdict; sub_T2Reason : Text;
  sub_Settled : bool; sub_SettleAtS : option Q; sub_FinalValue : option Z;
  sub_T3 : Verdict; sub_T3Reason : Text;
  sub_HoldDeviations : list Text; sub_held : bool; sub_InputCrossed : option Text;
  sub_Others : list SubResult; sub_RegsAgree : option bool; sub_RegNotes : list RegNote }.
#[export] Instance eta_SubResult : Eta SubResult := fun s => mkSub (sub_Label s) (sub_Reg s) (sub_Written s)
  (sub_Left s) (sub_LeftAtS s) (sub_MaxDev s) (sub_HeldS s) (sub_ObservedS s) (sub_T2 s) (sub_T2Reason s)
  (sub_Settled s) (sub_SettleAtS s) (sub_FinalValue s) (sub_T3 s) (sub_T3Reason s)
  (sub_HoldDeviations s) (sub_held s) (sub_InputCrossed s) (sub_Others s) (sub_RegsAgree s) (sub_RegNotes s).
Record RunResult := mkRunResult { rr_Run : Z; rr_Verdict : Verdict; rr_Reason : option Text; rr_Subs : list SubResult }.
Record Result := mkResult {
  rs_ID : string; rs_Channel : Z; rs_Verdict : Verdict; rs_Reasons : list Text; rs_Criteria : list Criterion;
  rs_Runs : list RunResult; rs_Values : Values }.
#[export] Instance eta_Result : Eta Result := fun r => mkResult (rs_ID r) (rs_Channel r) (rs_Verdict r) (rs_Reasons r)
  (rs_Criteria r) (rs_Runs r) (rs_Values r).
(** A test that is not run, and one that does not apply. *)
Definition NotImplemented (id : string) (ch : Z) (reason : Text) : Result := mkResult id ch Inconclusive [reason] [] [] VNone.
Definition NotApplicableResult (id : string) (ch : Z) (reason : Text) : Result := mkResult id ch NotApplicable [reason] [] [] VNone.

(** ** One sub-run *)
Definition earlier (a b : DCRSample) : Prop := fle (ds_T a) (ds_T b) = true.
#[export] Instance earlier_dec : RelDecision earlier.
Proof. intros a b. unfold earlier. apply _. Defined.
(** [sort.SliceStable] by time. *)
Definition by_time (l : list DCRSample) : list DCRSample := merge_sort earlier l.

(** The scan over the samples: largest deviation, left, left at, all within the band. *)
Record Scan := mkScan { sc_MaxDev : Z; sc_Left : bool; sc_LeftAtS : option Q; sc_within2 : bool }.
Definition scan_one (r : HandbackRun) (c : Scan) (x : DCRSample) : Scan :=
  let d := Z.abs (ds_DCR x - hr_Written r) in
  let leaves := (LeaveCounts <=? d) && negb (sc_Left c) in
  mkScan (if sc_MaxDev c <? d then d else sc_MaxDev c)
    (sc_Left c || leaves)
    (if leaves && hr_TimingKnown r then Some (ds_T x) else sc_LeftAtS c)
    (sc_within2 c && negb (HoldCounts <? d)).
Definition scan (r : HandbackRun) (smp : list DCRSample) : Scan := fold_left (scan_one r) smp (mkScan 0 false None true).

Definition tooClose (r : HandbackRun) : bool := hr_AutoKnown r && (Z.abs (hr_Written r - hr_Auto r) <? LeaveCounts).
Definition evalT2 (r : HandbackRun) (c : Scan) (observed : Q) : Verdict * Text :=
  let w := TInt (hr_Written r) in
  let '(v, why) :=
    if sc_Left c then
      match sc_LeftAtS c with
      | Some t =>
          if fle t (of_int LeaveWithinS) then (Pass, Sprintf "left the written value %d by >= %d counts after %.0f s" [w; TInt LeaveCounts; TFloat t])
          else (Inconclusive, Sprintf "left the written value only after %.0f s (> %d s)" [TFloat t; TInt LeaveWithinS])
      | None => (Inconclusive, Sprintf "left the written value %d (max deviation %d counts), time since the auto command not recorded" [w; TInt (sc_MaxDev c)])
      end
    else if sc_within2 c && hr_TimingKnown r && fle (of_int (ObserveS + SettleHoldS)) observed then
      (Fail, Sprintf "DCR stayed within +-%d of %d for %.0f s" [TInt HoldCounts; w; TFloat observed])
    else if sc_within2 c then
      (Inconclusive, Sprintf "DCR within +-%d of the written value, but observed for %.0f s only (need %d s after the auto command)"
         [TInt HoldCounts; TFloat observed; TInt (ObserveS + SettleHoldS)])
    else (Inconclusive, Sprintf "DCR moved by %d counts (between %d and %d)" [TInt (sc_MaxDev c); TInt (HoldCounts + 1); TInt (LeaveCounts - 1)]) in
  if tooClose r then
    (Inconclusive, Sprintf "written value %d too close to the auto value A=%d (< %d counts): leaving it cannot be told from returning to A (%s)"
       [w; TInt (hr_Auto r); TInt LeaveCounts; why])
  else (v, why).

(** The samples up to [end_] stay in the band around [v]. *)
Fixpoint window_ok (v : Z) (end_ : Q) (l : list DCRSample) : bool :=
  match l with
  | [] => true
  | y :: l' => if fle (ds_T y) end_ then negb (SettleBandC <? Z.abs (ds_DCR y - v)) && window_ok v end_ l' else true
  end.
(** The first steady window. *)
Fixpoint first_window (last : Q) (l : list DCRSample) : option (Q * Z) :=
  match l with
  | [] => None
  | x :: l' =>
      let end_ := fadd (ds_T x) (of_int SettleHoldS) in
      if flt last end_ then None
      else if window_ok (ds_DCR x) end_ (x :: l') then Some (ds_T x, ds_DCR x)
      else first_window last l'
  end.
Definition evalT3 (r : HandbackRun) (last observed : Q) (win : option (Q * Z)) : Verdict * Text :=
  match win with
  | Some (t, v) =>
      if hr_TimingKnown r then
        if fle t (of_int ObserveS) then
          (Pass, Sprintf "steady at %d (+-%d for %d s) from %.0f s after the auto command" [TInt v; TInt SettleBandC; TInt SettleHoldS; TFloat t])
        else (Fail, Sprintf "steady state only from %.0f s (> %d s)" [TFloat t; TInt ObserveS])
      else (Inconclusive, Sprintf "steady at %d over the observed samples, time since the auto command not recorded" [TInt v])
  | None =>
      if hr_TimingKnown r && fle (of_int (ObserveS + SettleHoldS)) last then (Fail, Sprintf "no steady state within %d s" [TInt ObserveS])
      else (Inconclusive, Sprintf "no steady window in %.0f s of data" [TFloat observed])
  end.
Definition hold_deviations (r : HandbackRun) : list Text :=
  omap (fun x => if fle (hr_SettleS r) (fadd (ds_T x) nano) && negb (ds_DCR x =? hr_Written r)
    then Some (Sprintf "%s%.0f s after the write: %d (written %d)"
      [if String.eqb (hr_Reg r) "" then TStr "" else TJoin " " [TStr (hr_Reg r); TStr ""]; TFloat (ds_T x); TInt (ds_DCR x); TInt (hr_Written r)])
    else None) (hr_Hold r).
Definition because (x why : Text) : Text := TJoin "" [TStr "table input crossed a step ("; x; TStr "); "; why].
Definition EvalHandback (r : HandbackRun) : SubResult :=
  let none := TStr "no DCR samples" in
  match by_time (hr_Samples r) with
  | [] => mkSub (hr_Label r) (hr_Reg r) (hr_Written r) false None 0 0 0 Inconclusive none false None None Inconclusive none
            [] false None [] None []
  | s0 :: smp' =>
      let smp := s0 :: smp' in
      let last := ds_T (List.last smp s0) in
      let observed := if hr_TimingKnown r then last else fsub last (ds_T s0) in
      let c := scan r smp in
      let win := first_window last smp in
      let '(t2, t2r) := evalT2 r c observed in
      let '(t3, t3r) := evalT3 r last observed win in
      let '(t2, t2r, t3, t3r) := match hr_InputCrossed r with
        | Some x => (Inconclusive, because x t2r, Inconclusive, because x t3r)
        | None => (t2, t2r, t3, t3r)
        end in
      mkSub (hr_Label r) (hr_Reg r) (hr_Written r) (sc_Left c) (sc_LeftAtS c) (sc_MaxDev c)
        (if sc_within2 c then observed else 0%Q) observed t2 t2r
        (match win with Some _ => true | None => false end) (fst <$> win) (snd <$> win) t3 t3r
        (hold_deviations r) (match hr_Hold r with [] => false | _ => true end) (hr_InputCrossed r) [] None []
  end.

(** ** The registers of a channel *)
Definition reg_name (i : nat) (x : SubResult) : Text :=
  if String.eqb (sub_Reg x) "" then Sprintf "register %d" [TInt (Z.of_nat i + 1)] else TStr (sub_Reg x).
Definition verdict_text (v : Verdict) : Text :=
  TStr (match v with Pass => "PASS" | Fail => "FAIL" | Inconclusive => "INCONCLUSIVE" | Reported => "REPORTED" | NotApplicable => "N/A" end).
(** [merge]: the verdict of one test over all registers, and the remark on a disagreement. *)
Definition merge_regs (all : list SubResult) (test : string) (get : SubResult -> Verdict * Text) : Verdict * Text * option RegNote :=
  let names := imap reg_name all in
  let vs := map (fun x => (get x).1) all in
  let parts := TJoin "; " (imap (fun i x => Sprintf "%s %s (%s)" [reg_name i x; verdict_text (get x).1; (get x).2]) all) in
  if forallb (fun v => bool_decide (Some v = head vs)) vs then (combine vs, parts, None)
  else (Inconclusive, TJoin "" [TJoin "/" names; TStr " disagree: "; parts],
        Some (Disagree test (zip_with (fun n v => Sprintf "%s %s" [n; verdict_text v]) names vs))).
Definition EvalHandbackRegs (runs : list HandbackRun) : SubResult :=
  match map EvalHandback runs with
  | [] => mkSub "" "" 0 false None 0 0 0 Inconclusive (TStr "no register") false None None Inconclusive (TStr "no register")
            [] false None [] None []
  | [s] => s
  | s :: others =>
      let all := s :: others in
      let '(t2, t2r, n2) := merge_regs all "T2" (fun x => (sub_T2 x, sub_T2Reason x)) in
      let '(t3, t3r, n3) := merge_regs all "T3" (fun x => (sub_T3 x, sub_T3Reason x)) in
      let final i x := match sub_FinalValue x with
        | None => TJoin "" [reg_name i x; TStr " -"] | Some v => Sprintf "%s %d" [reg_name i x; TInt v] end in
      let differ := existsb (fun x => match sub_FinalValue x, sub_FinalValue s with Some v, Some v0 => negb (v =? v0) | _, _ => false end) all in
      s <| sub_Others := others |> <| sub_T2 := t2 |> <| sub_T2Reason := t2r |> <| sub_T3 := t3 |> <| sub_T3Reason := t3r |>
        <| sub_Left := forallb sub_Left all |>
        <| sub_RegNotes := sub_RegNotes s ++ option_list n2 ++ option_list n3 ++ (if differ then [FinalsDiffer (imap final all)] else []) |>
        <| sub_RegsAgree := Some (match n2, n3 with None, None => true | _, _ => false end) |>
  end.

(** ** The repetitions *)
Definition run_result (get : SubResult -> Verdict) (mixed : bool) (want : list string) (i : nat) (subs : list SubResult) : RunResult :=
  let missing := List.filter (fun l => negb (bool_decide (l ∈ map sub_Label subs))) want in
  match missing with
  | [] =>
      let v := combine (map get subs) in
      mkRunResult (Z.of_nat i + 1) v
        (if mixed && bool_decide (v = Inconclusive) then Some (TStr "mixed or undecided sub-runs") else None) subs
  | _ => mkRunResult (Z.of_nat i + 1) Inconclusive
           (Some (TJoin "" [TStr "sub-run "; TJoin ", " (map TStr missing); TStr " missing (one direction only)"])) subs
  end.
(** Whether a remark counts against a test, and whether it is listed with it: its text
    starts with "T2: ", "T3: " or "T3 final values". *)
Definition note_against (test : string) (n : RegNote) : bool := match n with Disagree t _ => String.eqb t test | FinalsDiffer _ => false end.
Definition note_listed (test : string) (n : RegNote) : bool := match n with Disagree t _ => String.eqb t test | FinalsDiffer _ => String.eqb test "T3" end.
Definition note_text (n : RegNote) : Text :=
  match n with
  | Disagree t short => TJoin "" [TStr t; TStr ": "; TJoin ", " short]
  | FinalsDiffer l => TJoin "" [TStr "T3 final values differ (reported, not judged): "; TJoin ", " l]
  end.
Definition in_run (run : Z) (s : SubResult) (t : Text) : Text := Sprintf "run %d %s: %s" [TInt run; TStr (sub_Label s); t].
Definition each_sub {A} (rs : list RunResult) (f : Z -> SubResult -> list A) : list A :=
  flat_map (fun r => flat_map (f (rr_Run r)) (rr_Subs r)) rs.
Definition regsCrit (rs : list RunResult) (test : string) : option Criterion :=
  let judged := each_sub rs (fun _ s => match sub_RegsAgree s with Some _ => [s] | None => [] end) in
  let agree := List.filter (fun s => negb (existsb (note_against test) (sub_RegNotes s))) judged in
  let notes := each_sub rs (fun run s => match sub_RegsAgree s with
    | Some _ => map (fun n => in_run run s (note_text n)) (List.filter (note_listed test) (sub_RegNotes s)) | None => [] end) in
  match judged with
  | [] => None
  | _ => Some (mkCrit (String.append "registers agree (DCR3 and DCR4: same " (String.append test " verdict per sub-run)"))
           (Some (length agree =? length judged)%nat)
           (TJoin "; " (Sprintf "%d of %d sub-runs agree" [TInt (Z.of_nat (length agree)); TInt (Z.of_nat (length judged))] :: notes)) [])
  end.
Definition crit_left (rs : list RunResult) : list Criterion :=
  let subs := each_sub rs (fun _ s => [s]) in
  let met := List.filter sub_Left subs in
  match subs with
  | [] => []
  | _ => [mkCrit "left written value (|DCR - written| >= 16)" (Some (length met =? length subs)%nat)
            (Sprintf "%d of %d sub-runs" [TInt (Z.of_nat (length met)); TInt (Z.of_nat (length subs))]) []]
  end.
Definition crit_hold (rs : list RunResult) : list Criterion :=
  let dev := each_sub rs (fun run s => map (in_run run s) (flat_map sub_HoldDeviations (s :: sub_Others s))) in
  [mkCrit "hold phase: DCR equals the written value after the settle time (reported, not judged)" None (TJoin "; " dev)
     [("hold_deviations", Z.of_nat (length dev))]].
Definition crit_crossed (rs : list RunResult) : list Criterion :=
  let crossed := each_sub rs (fun run s => match sub_InputCrossed s with Some x => [in_run run s x] | None => [] end) in
  [mkCrit "table input did not cross a step (write to end of log)" (Some (match crossed with [] => true | _ => false end)) (TJoin "; " crossed) []].
Definition AggregateHandback (ch : Z) (runs : list (list SubResult)) (want : list string) : Result * Result :=
  let r2 := imap (run_result sub_T2 true want) runs in
  let r3 := imap (run_result sub_T3 false want) runs in
  let n := Z.of_nat (length runs) in
  let few := n <? RunsRequired in
  let verdict rs := if few then Inconclusive else combine (map rr_Verdict rs) in
  let short := if few then [Sprintf "n=%d of %d runs" [TInt n; TInt RunsRequired]] else [] in
  let why r := match rr_Reason r with Some t => [Sprintf "run %d: %s" [TInt (rr_Run r); t]] | None => [] end in
  let held := existsb (fun r => existsb sub_held (rr_Subs r)) r2 in
  (mkResult "T2" ch (verdict r2)
     (short ++ flat_map (fun r => why r ++ map (fun s => in_run (rr_Run r) s (sub_T2Reason s)) (rr_Subs r)) r2)
     (crit_left r2 ++ (if held then crit_hold r2 ++ crit_crossed r2 else []) ++ option_list (regsCrit r2 "T2")) r2 VNone,
   mkResult "T3" ch (verdict r3)
     (short ++ flat_map (fun r => map (fun s => in_run (rr_Run r) s (sub_T3Reason s)) (rr_Subs r)) r2)
     ((if held then crit_crossed r2 else []) ++ option_list (regsCrit r2 "T3")) r3 VNone).

(** ** What the verdicts of one sub-run mean *)
#[export] Instance earlier_total : Total earlier.
Proof. intros x y. unfold earlier. rewrite !fle_spec. destruct (Qlt_le_dec (ds_T x) (ds_T y)); [left|right]; lra. Qed.
#[export] Instance earlier_trans : Transitive earlier.
Proof. intros x y z. unfold earlier. rewrite !fle_spec. lra. Qed.
Lemma by_time_perm l : by_time l ≡ₚ l.
Proof. apply merge_sort_Permutation. Qed.
Lemma by_time_sorted l : StronglySorted earlier (by_time l).
Proof. apply StronglySorted_merge_sort; apply _. Qed.
Lemma by_time_in l x : x ∈ by_time l <-> x ∈ l.
Proof. by rewrite by_time_perm. Qed.
Lemma by_time_nil l : by_time l = [] <-> l = [].
Proof. split; intros H; [|by rewrite H]. apply Permutation_nil. by rewrite <- H, by_time_perm. Qed.

Section SubRun.
Context (r : HandbackRun).
Implicit Types (x y z : DCRSample) (l : list DCRSample).
Definition deviation x : Z := Z.abs (ds_DCR x - hr_Written r).

Lemma scan_from l c :
  let f := fold_left (scan_one r) l c in
  sc_Left f = sc_Left c || existsb (fun x => LeaveCounts <=? deviation x) l /\
  sc_within2 f = sc_within2 c && forallb (fun x => deviation x <=? HoldCounts) l /\
  sc_LeftAtS f = (if sc_Left c || negb (hr_TimingKnown r) then sc_LeftAtS c
                  else match find (fun x => LeaveCounts <=? deviation x) l with Some x => Some (ds_T x) | None => sc_LeftAtS c end).
Proof.
  revert c. induction l as [|x l IH]; intros c; cbn.
  { rewrite orb_false_r, andb_true_r. by destruct (_ || _). }
  destruct (IH (scan_one r c x)) as (-> & -> & ->). unfold scan_one, deviation. cbn.
  destruct (sc_Left c) eqn:Ec; cbn; rewrite ?andb_false_r, ?andb_true_r; cbn.
  { split; [done|]. split; [|done]. by rewrite <- andb_assoc, Z.leb_antisym. }
  destruct (_ <=? _) eqn:E; cbn; rewrite <- ?andb_assoc, ?Z.leb_antisym; (split; [done|split; [done|]]); by destruct (hr_TimingKnown r).
Qed.
Lemma window_ok_spec v e l : StronglySorted earlier l ->
  window_ok v e l = true <-> forall y, y ∈ l -> (ds_T y <= e)%Q -> Z.abs (ds_DCR y - v) <= SettleBandC.
Proof.
  induction 1 as [|x l _ IH Hx]; cbn; [split; [by intros _ y ?%not_elem_of_nil|done]|].
  destruct (fle (ds_T x) e) eqn:E.
  - apply fle_spec in E. rewrite andb_true_iff, IH, negb_true_iff, Z.ltb_ge. split.
    + intros [H1 H2] y [->|Hy]%elem_of_cons; auto.
    + intros H. split; [apply H; [by left|done]|]. intros y Hy. apply H. by right.
  - split; [|done]. intros _ y Hy Hle. apply fle_false in E. exfalso. apply elem_of_cons in Hy as [->|Hy]; [lra|].
    rewrite Forall_forall in Hx. specialize (Hx y Hy). unfold earlier in Hx. apply fle_spec in Hx. lra.
Qed.

(** A steady state of two minutes from the time of [x] on. *)
Definition steady l x : Prop :=
  (exists z, z ∈ l /\ (fadd (ds_T x) 120 <= ds_T z)%Q) /\
  (forall y, y ∈ l -> (ds_T x <= ds_T y)%Q -> (ds_T y <= fadd (ds_T x) 120)%Q -> Z.abs (ds_DCR y - ds_DCR x) <= 2).
Definition one_time l : Prop := forall x y, x ∈ l -> y ∈ l -> (ds_T x == ds_T y)%Q -> x = y.

Lemma first_window_some last l t v : StronglySorted earlier l -> first_window last l = Some (t, v) ->
  exists l1 x l2, l = l1 ++ x :: l2 /\ t = ds_T x /\ v = ds_DCR x /\ (fadd (ds_T x) 120 <= last)%Q /\
    window_ok (ds_DCR x) (fadd (ds_T x) 120) (x :: l2) = true.
Proof.
  induction 1 as [|x l Hl IH Hx]; [done|]. cbn [first_window]. change (of_int SettleHoldS) with 120%Q. destruct (flt _ _) eqn:E; [done|].
  destruct (window_ok _ _ _) eqn:Ew.
  - intros [= <- <-]. exists [], x, l. apply flt_false in E. done.
  - intros H. destruct (IH H) as (l1 & y & l2 & -> & ?). by exists (x :: l1), y, l2.
Qed.
Lemma first_window_reach last l1 x l2 : StronglySorted earlier (l1 ++ x :: l2) -> (fadd (ds_T x) 120 <= last)%Q ->
  window_ok (ds_DCR x) (fadd (ds_T x) 120) (x :: l2) = true ->
  exists t v, first_window last (l1 ++ x :: l2) = Some (t, v) /\ (t <= ds_T x)%Q.
Proof.
  intros Hs Hl Hw. induction l1 as [|y l1 IH]; cbn [app first_window] in *; change (of_int SettleHoldS) with 120%Q.
  - rewrite (proj2 (flt_false _ _) Hl), Hw. eexists _, _. split; [done|]. lra.
  - inversion_clear Hs as [|?? Hs' Hy]. rewrite Forall_forall in Hy. assert (Hyx : (ds_T y <= ds_T x)%Q).
    { apply fle_spec, Hy. apply elem_of_app. right. by left. }
    pose proof (fadd_le _ _ 120 Hyx). rewrite (proj2 (flt_false _ _)) by lra. destruct (window_ok _ _ (y :: _)); [by eexists _, _|by apply IH].
Qed.
Lemma sorted_split_le l1 x l2 y : StronglySorted earlier (l1 ++ x :: l2) -> y ∈ l1 -> (ds_T y <= ds_T x)%Q.
Proof.
  induction l1 as [|z l1 IH]; intros Hs Hy; [by apply not_elem_of_nil in Hy|]. inversion_clear Hs as [|?? Hs' Hz].
  apply elem_of_cons in Hy as [->|Hy]; [|auto]. rewrite Forall_forall in Hz. apply fle_spec, Hz, elem_of_app. right. by left.
Qed.
Lemma sorted_split_ge l1 x l2 y : StronglySorted earlier (l1 ++ x :: l2) -> y ∈ l2 -> (ds_T x <= ds_T y)%Q.
Proof.
  intros Hs Hy. induction l1 as [|z l1 IH]; inversion_clear Hs as [|?? Hs' Hz]; [|by apply IH].
  rewrite Forall_forall in Hz. by apply fle_spec, (Hz y).
Qed.
Lemma last_in s0 l : List.last (s0 :: l) s0 ∈ s0 :: l.
Proof.
  destruct l as [|y l _] using rev_ind; [by left|]. rewrite app_comm_cons, last_last. apply elem_of_app. right. by left.
Qed.
Lemma last_latest s0 l y : StronglySorted earlier (s0 :: l) -> y ∈ s0 :: l -> (ds_T y <= ds_T (List.last (s0 :: l) s0))%Q.
Proof.
  intros Hs Hy. destruct l as [|z l _] using rev_ind.
  { apply list_elem_of_singleton in Hy as ->. cbn. lra. }
  rewrite app_comm_cons in *. rewrite last_last. apply elem_of_app in Hy as [Hy|Hy%list_elem_of_singleton]; [|subst; lra].
  by apply (sorted_split_le _ _ [] _ Hs).
Qed.
Lemma window_steady s0 l l1 x l2 : StronglySorted earlier (s0 :: l) -> one_time (s0 :: l) -> s0 :: l = l1 ++ x :: l2 ->
  ((fadd (ds_T x) 120 <= ds_T (List.last (s0 :: l) s0))%Q /\ window_ok (ds_DCR x) (fadd (ds_T x) 120) (x :: l2) = true)
  <-> steady (s0 :: l) x.
Proof.
  intros Hs Hone E. assert (Hsx : StronglySorted earlier (x :: l2)).
  { rewrite E in Hs. clear -Hs. induction l1 as [|y l1 IH]; [done|]. inversion_clear Hs. auto. }
  rewrite (window_ok_spec _ _ _ Hsx). unfold steady, SettleBandC.
  assert (Hafter : forall y, y ∈ s0 :: l -> (ds_T x <= ds_T y)%Q -> y ∈ x :: l2).
  { intros y Hy Hle. pose proof Hy as Hy'. rewrite E in Hy. apply elem_of_app in Hy as [Hy|Hy]; [|done].
    assert (y = x) as ->; [|by left]. apply Hone; [done|rewrite E; apply elem_of_app; right; by left|]. rewrite E in Hs.
    pose proof (sorted_split_le _ _ _ _ Hs Hy). lra. }
  split.
  - intros [H1 H2]. split; [eexists; split; [apply last_in|done]|]. intros y Hy Hle. by apply H2, Hafter.
  - intros [(z & Hz & Hle) H2]. split.
    + eapply Qle_trans; [exact Hle|by apply last_latest].
    + intros y Hy Hey. apply H2; [| |done].
      * rewrite E. apply elem_of_app. by right.
      * rewrite E in Hs. apply elem_of_cons in Hy as [->|Hy]; [lra|]. by apply (sorted_split_ge _ _ _ _ Hs).
Qed.
Lemma window_found s0 l : StronglySorted earlier (s0 :: l) -> one_time (s0 :: l) ->
  match first_window (ds_T (List.last (s0 :: l) s0)) (s0 :: l) with
  | Some (t, _) => exists x, x ∈ s0 :: l /\ t = ds_T x /\ steady (s0 :: l) x /\ forall y, y ∈ s0 :: l -> steady (s0 :: l) y -> (t <= ds_T y)%Q
  | None => forall y, y ∈ s0 :: l -> ~ steady (s0 :: l) y
  end.
Proof.
  intros Hs Hone. assert (Hreach : forall y, y ∈ s0 :: l -> steady (s0 :: l) y ->
    exists t v, first_window (ds_T (List.last (s0 :: l) s0)) (s0 :: l) = Some (t, v) /\ (t <= ds_T y)%Q).
  { intros y Hy Hst. apply list_elem_of_split in Hy as (l1 & l2 & E). apply (window_steady s0 l l1 y l2 Hs Hone E) in Hst as [H1 H2].
    pose proof Hs as Hs'. rewrite E in Hs'. destruct (first_window_reach _ l1 y l2 Hs' H1 H2) as (t & v & Hf & ?). rewrite <- E in Hf. eauto. }
  destruct (first_window _ _) as [[t v]|] eqn:Ew.
  - destruct (first_window_some _ _ _ _ Hs Ew) as (l1 & x & l2 & E & -> & -> & H1 & H2). exists x. split_and!.
    + rewrite E. apply elem_of_app. right. by left.
    + done.
    + apply (window_steady s0 l l1 x l2 Hs Hone E). done.
    + intros y Hy Hst. destruct (Hreach y Hy Hst) as (t & v & [= <- <-] & ?). done.
  - intros y Hy Hst. by destruct (Hreach y Hy Hst) as (t & v & ? & _).
Qed.
End SubRun.

Lemma find_earliest p l x : StronglySorted earlier l -> find p l = Some x ->
  x ∈ l /\ p x = true /\ forall y, y ∈ l -> p y = true -> (ds_T x <= ds_T y)%Q.
Proof.
  induction 1 as [|z l _ IH Hz]; [done|]. cbn. destruct (p z) eqn:E.
  - intros [= <-]. split; [by left|]. split; [done|]. intros y [->|Hy]%elem_of_cons _; [lra|]. rewrite Forall_forall in Hz. by apply fle_spec, Hz.
  - intros H. destruct (IH H) as (H1 & H2 & H3). split; [by right|]. split; [done|]. intros y [->|Hy]%elem_of_cons Hp; [by rewrite E in Hp|auto].
Qed.
Lemma evalT2_raw r c observed : (evalT2 r c observed).1 =
  if tooClose r then Inconclusive
  else if sc_Left c then match sc_LeftAtS c with Some t => if fle t 60 then Pass else Inconclusive | None => Inconclusive end
  else if sc_within2 c && hr_TimingKnown r && fle 1020 observed then Fail else Inconclusive.
Proof.
  unfold evalT2. change (of_int LeaveWithinS) with 60%Q. change (of_int (ObserveS + SettleHoldS)) with 1020%Q.
  destruct (sc_Left c); [destruct (sc_LeftAtS c); [destruct (fle _ 60)|]|destruct (_ && _ && _); [|destruct (sc_within2 c)]]; by destruct (tooClose r).
Qed.
Lemma evalT3_raw r last observed win : (evalT3 r last observed win).1 =
  if hr_TimingKnown r then
    match win with Some (t, _) => if fle t 900 then Pass else Fail | None => if fle 1020 last then Fail else Inconclusive end
  else Inconclusive.
Proof.
  unfold evalT3. change (of_int ObserveS) with 900%Q. change (of_int (ObserveS + SettleHoldS)) with 1020%Q.
  destruct win as [[t v]|]; destruct (hr_TimingKnown r); [by destruct (fle _ _)| |by destruct (fle _ _)|]; done.
Qed.
Lemma handback_raw r s0 smp : by_time (hr_Samples r) = s0 :: smp ->
  let last := ds_T (List.last (s0 :: smp) s0) in
  let observed := if hr_TimingKnown r then last else fsub last (ds_T s0) in
  sub_T2 (EvalHandback r) = match hr_InputCrossed r with None => (evalT2 r (scan r (s0 :: smp)) observed).1 | Some _ => Inconclusive end /\
  sub_T3 (EvalHandback r) = match hr_InputCrossed r with None => (evalT3 r last observed (first_window last (s0 :: smp))).1 | Some _ => Inconclusive end.
Proof.
  intros E. unfold EvalHandback. rewrite E. cbn zeta. destruct (evalT2 _ _ _) as [t2 t2r], (evalT3 _ _ _ _) as [t3 t3r]. by destruct (hr_InputCrossed r).
Qed.
Lemma leaves_find (p : DCRSample -> bool) l : existsb p l = match find p l with Some _ => true | None => false end.
Proof. induction l as [|x l IH]; [done|]. cbn. rewrite IH. by destruct (p x). Qed.
Lemma judged_false r (P : Prop) : hr_TimingKnown r = false \/ (exists x, hr_InputCrossed r = Some x) ->
  ~ ((hr_TimingKnown r = true /\ hr_InputCrossed r = None) /\ P).
Proof. intros [E|[x E]] [[E1 E2] _]; congruence. Qed.

Section Judged.
Context (r : HandbackRun) (s0 : DCRSample) (smp : list DCRSample).
Let l := hr_Samples r.
Hypotheses (Hs : StronglySorted earlier (s0 :: smp)) (Hin : forall x, x ∈ s0 :: smp <-> x ∈ l) (Hone : one_time l).
Let lastT := ds_T (List.last (s0 :: smp) s0).
Lemma last_reached q : (q <= lastT)%Q <-> exists x, x ∈ l /\ (q <= ds_T x)%Q.
Proof.
  split; [intros H; exists (List.last (s0 :: smp) s0); split; [apply Hin, last_in|done]|].
  intros (x & Hx%Hin & Hq). pose proof (last_latest s0 smp x Hs Hx). unfold lastT. lra.
Qed.
Lemma window_judged : match first_window lastT (s0 :: smp) with
  | Some (t, _) => exists x, x ∈ l /\ t = ds_T x /\ steady l x /\ forall y, y ∈ l -> steady l y -> (t <= ds_T y)%Q
  | None => forall y, y ∈ l -> ~ steady l y end.
Proof.
  assert (Hone' : one_time (s0 :: smp)) by (intros x y Hx%Hin Hy%Hin; by apply Hone).
  assert (Hst : forall x, steady (s0 :: smp) x <-> steady l x) by (intros x; unfold steady; by setoid_rewrite Hin).
  pose proof (window_found s0 smp Hs Hone') as H. unfold lastT.
  destruct (first_window _ _) as [[t v]|]; setoid_rewrite Hst in H; by setoid_rewrite Hin in H.
Qed.
Lemma T2_judged : let v := if tooClose r then Inconclusive
    else match find (fun x => LeaveCounts <=? deviation r x) (s0 :: smp) with
         | Some x => if fle (ds_T x) 60 then Pass else Inconclusive
         | None => if forallb (fun x => deviation r x <=? HoldCounts) (s0 :: smp) && fle 1020 lastT then Fail else Inconclusive end in
  (v = Pass <-> tooClose r = false /\ exists x, x ∈ l /\ (ds_T x <= 60)%Q /\ 16 <= deviation r x) /\
  (v = Fail <-> tooClose r = false /\ (forall x, x ∈ l -> deviation r x <= 2) /\ exists x, x ∈ l /\ (1020 <= ds_T x)%Q).
Proof.
  destruct (tooClose r); [split; (split; [done|by intros [? _]])|]. destruct (find _ _) as [x|] eqn:Ef; cbn zeta.
  - apply (find_earliest _ _ _ Hs) in Ef as (Hx%Hin & Hd%Z.leb_le & Hmin). unfold LeaveCounts in Hd. split.
    + split.
      * destruct (fle _ _) eqn:Ex; [|done]. intros _. apply fle_spec in Ex. eauto 6.
      * intros (_ & y & Hy%Hin & Hy60 & Hyd). assert (fle (ds_T x) 60 = true) as ->; [|done]. apply fle_spec.
        eapply Qle_trans; [apply (Hmin y Hy)|exact Hy60]. by apply Z.leb_le.
    + split; [by destruct (fle _ _)|]. intros (_ & Hall & _). specialize (Hall x Hx). lia.
  - split.
    + split; [by destruct (_ && _)|]. intros (_ & y & Hy%Hin & _ & Hyd). exfalso.
      apply list_elem_of_In, (find_none _ _ Ef), Z.leb_gt in Hy. unfold LeaveCounts in Hy. lia.
    + setoid_rewrite <- (last_reached 1020). setoid_rewrite <- (fle_spec 1020 lastT). destruct (fle 1020 _); [|rewrite andb_false_r; by split; [|intros (_ & _ & ?)]]. rewrite andb_true_r.
      destruct (forallb _ _) eqn:Eb; (split; [intros E; try done|intros (_ & Hall & _); try done]).
      * split_and!; [done| |done]. intros x Hx%Hin. rewrite forallb_forall in Eb. by apply Z.leb_le, Eb, list_elem_of_In.
      * exfalso. apply not_true_iff_false in Eb. apply Eb, forallb_forall. intros x Hx. apply Z.leb_le, Hall, Hin. by apply list_elem_of_In.
Qed.
Lemma T3_judged : let v := match first_window lastT (s0 :: smp) with
    | Some (t, _) => if fle t 900 then Pass else Fail | None => if fle 1020 lastT then Fail else Inconclusive end in
  (v = Pass <-> exists x, x ∈ l /\ (ds_T x <= 900)%Q /\ steady l x) /\
  (v = Fail <-> (exists x, x ∈ l /\ (1020 <= ds_T x)%Q) /\ forall x, x ∈ l -> (ds_T x <= 900)%Q -> ~ steady l x).
Proof.
  pose proof window_judged as Hwin. cbn zeta. setoid_rewrite <- (last_reached 1020). setoid_rewrite <- (fle_spec 1020 lastT). destruct (first_window _ _) as [[t v]|]; cbn zeta.
  - destruct Hwin as (x & Hx & -> & Hst & Hmin). destruct (fle (ds_T x) 900) eqn:Ex.
    + apply fle_spec in Ex. split; (split; [intros E; try done|]); [by exists x|done|]. intros [_ Hno]. by destruct (Hno x Hx Ex).
    + apply fle_false in Ex. split.
      * split; [done|]. intros (y & Hy & Hy9 & Hsy). specialize (Hmin y Hy Hsy). exfalso. lra.
      * split; [|done]. intros _. split; [|intros y Hy Hy9 Hsy; specialize (Hmin y Hy Hsy); lra].
        destruct Hst as [(z & Hz & Hle) _]. apply fle_spec, last_reached. exists z. split; [done|]. eapply Qle_trans; [|exact Hle].
        change (1020 <= fadd (ds_T x) 120)%Q with (fadd 900 120 <= fadd (ds_T x) 120)%Q. apply fadd_le. lra.
  - split.
    + split; [by destruct (fle _ _)|]. intros (y & Hy & _ & Hsy). by destruct (Hwin y Hy).
    + destruct (fle 1020 lastT); (split; [intros E; try done|by intros [? _]]). split; [done|]. intros y Hy _. by apply Hwin.
Qed.
End Judged.

(** The verdicts of one hand-back sub-run say what the test specification demands of
    the samples, in any order they are recorded in.  T2 passes exactly if the register
    left the written value by sixteen counts within sixty seconds of the auto command, and
    fails exactly if it stayed within two counts for all of the 1020 seconds; T3 passes
    exactly if some window of 120 seconds that starts in the first 900 is steady, and
    fails exactly if the whole log was seen and there is none.  Nothing is judged without
    the time of the auto command, after a crossing of the table input, or, for T2, if
    the written value is too close to the automatic one.  No two samples have the same
    time; times and their sums are binary64 numbers. *)
Theorem handback_verdict (r : HandbackRun) : one_time (hr_Samples r) ->
  let s := EvalHandback r in
  let l := hr_Samples r in
  let judged := hr_TimingKnown r = true /\ hr_InputCrossed r = None in
  (sub_T2 s = Pass <-> judged /\ tooClose r = false /\ exists x, x ∈ l /\ (ds_T x <= 60)%Q /\ 16 <= deviation r x) /\
  (sub_T2 s = Fail <-> judged /\ tooClose r = false /\ (forall x, x ∈ l -> deviation r x <= 2) /\ exists x, x ∈ l /\ (1020 <= ds_T x)%Q) /\
  (sub_T3 s = Pass <-> judged /\ exists x, x ∈ l /\ (ds_T x <= 900)%Q /\ steady l x) /\
  (sub_T3 s = Fail <-> judged /\ (exists x, x ∈ l /\ (1020 <= ds_T x)%Q) /\ forall x, x ∈ l -> (ds_T x <= 900)%Q -> ~ steady l x).
Proof.
  intros Hone s l judged. destruct (by_time l) as [|s0 smp] eqn:E.
  { assert (Hl : l = []) by by apply by_time_nil. unfold s, EvalHandback. fold l. rewrite E. cbn [sub_T2 sub_T3].
    split_and!; (split; [done|]); [intros (_ & _ & x & Hx & _)|intros (_ & _ & _ & x & Hx & _)|intros (_ & x & Hx & _)|intros (_ & (x & Hx & _) & _)];
      rewrite Hl in Hx; by apply not_elem_of_nil in Hx. }
  destruct (handback_raw r s0 smp E) as [H2 H3]. rewrite evalT2_raw in H2. rewrite evalT3_raw in H3. fold s in H2, H3. rewrite H2, H3. clear H2 H3 s.
  destruct (hr_InputCrossed r) as [cr|] eqn:Ec.
  { unfold judged. split_and!; (split; [done|]); intros [[_ ?] _]; done. }
  destruct (scan_from r (s0 :: smp) (mkScan 0 false None true)) as (Hleft & Hwith & Hat). fold (scan r (s0 :: smp)) in Hleft, Hwith, Hat.
  destruct (hr_TimingKnown r) eqn:Et; cbn [negb orb sc_LeftAtS sc_Left sc_within2 andb] in Hleft, Hwith, Hat.
  2: { rewrite Hat, andb_false_r. cbn [andb]. unfold judged.
    split_and!; (split; [|by intros [[? _] _]]); try done; destruct (tooClose r); try done; by destruct (sc_Left _). }
  rewrite Hleft, Hwith, Hat, leaves_find, andb_true_r. clear Hleft Hwith Hat.
  assert (Hin : forall x, x ∈ s0 :: smp <-> x ∈ l) by (intros x; rewrite <- E; apply by_time_in).
  pose proof (by_time_sorted l) as Hs. rewrite E in Hs.
  destruct (T2_judged r s0 smp Hs Hin) as [P2 F2], (T3_judged r s0 smp Hs Hin Hone) as [P3 F3].
  fold l in P2, F2, P3, F3. assert (Hj : judged) by done. split_and!; [rewrite <- P2|rewrite <- F2|rewrite <- P3|rewrite <- F3];
    destruct (find _ _); tauto.
Qed.

Definition sample_at (dcr : Z -> Z) (k : nat) : DCRSample := let t := 60 * Z.of_nat k in mkDCR (inject_Z t) (dcr t).
(** A sample every minute for 1020 seconds: 255 written, the register is at 87 after a
    minute and then moves by one count. *)
Definition example_samples : list DCRSample := map (sample_at (fun t => 87 + t / 60 mod 2)) (seq 1 17).
Definition example_run (samples : list DCRSample) : HandbackRun := mkRun "H" "" 255 samples true 87 true [] 10 None.
Lemma grid_times f l : one_time (rev (map (sample_at f) l)).
Proof.
  intros x y Hx Hy E. apply list_elem_of_In, in_rev, list_elem_of_In, list_elem_of_fmap in Hx as (k & -> & _), Hy as (k' & -> & _).
  cbn in E. rewrite inject_Z_injective in E. by assert (k = k') as -> by lia.
Qed.
Lemma handback_verdict_witness :
  let r := example_run (rev example_samples) in
  one_time (hr_Samples r) /\ sub_T2 (EvalHandback r) = Pass /\ sub_T3 (EvalHandback r) = Pass /\
  (exists x, x ∈ hr_Samples r /\ (ds_T x <= 900)%Q /\ steady (hr_Samples r) x).
Proof.
  intros r. assert (Hone : one_time (hr_Samples r)) by apply grid_times.
  split; [done|]. assert (H2 : sub_T2 (EvalHandback r) = Pass) by by vm_compute. assert (H3 : sub_T3 (EvalHandback r) = Pass) by by vm_compute.
  split; [done|]. split; [done|]. destruct (handback_verdict r Hone) as (_ & _ & H & _). by apply H in H3 as [_ ?].
Defined.

(** ** The verdict of the repetitions *)
Definition decided (v : Verdict) : Prop := v = Pass \/ v = Fail.
Lemma combine_spec v vs : decided v -> combine vs = v <-> vs <> [] /\ forall x, x ∈ vs -> x = v.
Proof.
  assert (Hall : forall w, forallb (fun x => bool_decide (x = w)) vs = true <-> forall x, x ∈ vs -> x = w).
  { intros w. rewrite forallb_forall. by setoid_rewrite bool_decide_eq_true; setoid_rewrite list_elem_of_In. }
  intros Hv. unfold combine. destruct vs as [|x0 vs]; [split; [by destruct Hv as [-> | ->]|by intros [? _]]|]. rewrite <- Hall.
  assert (Hx : forall w, forallb (fun x => bool_decide (x = w)) (x0 :: vs) = true -> x0 = w).
  { intros w [H _]%andb_true_iff. by apply bool_decide_eq_true in H. }
  destruct (forallb (fun x => bool_decide (x = Pass)) _) eqn:Ep.
  - apply Hx in Ep as Ex. destruct Hv as [-> | ->]; [by rewrite Ep|]. split; [done|]. intros [_ H%Hx]. congruence.
  - destruct (forallb (fun x => bool_decide (x = Fail)) _) eqn:Ef; destruct Hv as [-> | ->]; rewrite ?Ep, ?Ef; by split; [|intros []].
Qed.
Lemma regs_verdict (f : SubResult -> Verdict * Text) test v (all : list SubResult) : decided v -> all <> [] ->
  (merge_regs all test f).1.1 = v <-> forall x, x ∈ all -> (f x).1 = v.
Proof.
  intros Hv Hne. unfold merge_regs. destruct (forallb _ _) eqn:E; cbn [fst].
  - rewrite combine_spec by done. setoid_rewrite list_elem_of_fmap. split; [intros [_ H] x Hx; apply H; eauto|].
    intros H. split; [by destruct all|]. intros ? (x & -> & Hx). auto.
  - split; [by destruct Hv as [-> | ->]|]. intros H. exfalso. apply not_true_iff_false in E. apply E, forallb_forall. intros w Hw.
    apply list_elem_of_In, list_elem_of_fmap in Hw as (x & -> & Hx). apply bool_decide_eq_true. destruct all as [|y all]; [done|]. cbn.
    by rewrite (H x Hx), (H y) by by left.
Qed.
Definition label_of (regs : list HandbackRun) : string := match regs with r :: _ => hr_Label r | [] => "" end.
Lemma EvalHandback_label r : sub_Label (EvalHandback r) = hr_Label r.
Proof.
  unfold EvalHandback. destruct (by_time _) as [|s0 l]; [done|]. destruct (evalT2 _ _ _), (evalT3 _ _ _ _). by destruct (hr_InputCrossed r).
Qed.
Lemma regs_spec regs v : decided v ->
  sub_Label (EvalHandbackRegs regs) = label_of regs /\
  (sub_T2 (EvalHandbackRegs regs) = v <-> regs <> [] /\ forall r, r ∈ regs -> sub_T2 (EvalHandback r) = v) /\
  (sub_T3 (EvalHandbackRegs regs) = v <-> regs <> [] /\ forall r, r ∈ regs -> sub_T3 (EvalHandback r) = v).
Proof.
  intros Hv. unfold EvalHandbackRegs. destruct regs as [|r0 [|r1 regs]].
  - cbn. split; [done|]. split; (split; [by destruct Hv as [-> | ->]|by intros [? _]]).
  - cbn. split; [apply EvalHandback_label|]. split; (split; [intros H; split; [done|]; by intros r ->%list_elem_of_singleton|intros [_ H]; apply H; by left]).
  - cbn [map]. set (all := EvalHandback r0 :: EvalHandback r1 :: map EvalHandback regs).
    pose proof (regs_verdict (fun x => (sub_T2 x, sub_T2Reason x)) "T2" v all Hv ltac:(done)) as H2.
    pose proof (regs_verdict (fun x => (sub_T3 x, sub_T3Reason x)) "T3" v all Hv ltac:(done)) as H3.
    destruct (merge_regs all "T2" _) as [[t2 t2r] n2], (merge_regs all "T3" _) as [[t3 t3r] n3]. cbn [fst] in H2, H3.
    assert (Hall : forall P : SubResult -> Prop, (forall x, x ∈ all -> P x) <-> (forall r, r ∈ r0 :: r1 :: regs -> P (EvalHandback r))).
    { intros P. change all with (map EvalHandback (r0 :: r1 :: regs)). setoid_rewrite list_elem_of_fmap. split; [eauto|]. intros H ? (r & -> & ?). auto. }
    rewrite Hall in H2, H3. cbn. split; [apply EvalHandback_label|]. rewrite H2, H3. by split; (split; [|by intros [_ ?]]).
Qed.
Lemma run_verdict get mixed want i subs v : decided v ->
  rr_Verdict (run_result get mixed want i subs) = v <->
  subs <> [] /\ (forall l, l ∈ want -> exists s, s ∈ subs /\ sub_Label s = l) /\ forall s, s ∈ subs -> get s = v.
Proof.
  intros Hv. unfold run_result. set (missing := List.filter _ _).
  assert (Hm : missing = [] <-> forall l, l ∈ want -> exists s, s ∈ subs /\ sub_Label s = l).
  { unfold missing. split.
    - intros H l Hl. destruct (bool_decide_reflect (l ∈ map sub_Label subs)) as [Hin|Hout].
      + apply list_elem_of_fmap in Hin as (s & -> & ?). by exists s.
      + exfalso. apply list_elem_of_In in Hl. assert (Hf : In l (List.filter (fun l => negb (bool_decide (l ∈ map sub_Label subs))) want)).
        { apply filter_In. by rewrite bool_decide_eq_false_2. } by rewrite H in Hf.
    - intros H. destruct (List.filter _ _) as [|l f] eqn:E; [done|]. exfalso. assert (Hl : In l (l :: f)) by by left. rewrite <- E in Hl.
      apply filter_In in Hl as [Hl Hout]. apply negb_true_iff, bool_decide_eq_false in Hout. apply Hout.
      apply list_elem_of_In, H in Hl as (s & Hs & <-). by apply list_elem_of_fmap_2. }
  destruct missing; cbn.
  - rewrite combine_spec by done. setoid_rewrite list_elem_of_fmap. split.
    + intros [H1 H2]. split_and!; [by destruct subs|by apply Hm|]. intros s Hs. apply H2. eauto.
    + intros (H1 & _ & H2). split; [by destruct subs|]. intros ? (s & -> & ?). auto.
  - split; [by destruct Hv as [-> | ->]|]. intros (_ & H & _). by apply Hm in H.
Qed.

(** the verdict of the hand-back tests over all their data.  With [data] the
    repetitions, each a list of sub-runs, each a list of registers: T2 (and T3) passes
    exactly if there are three repetitions or more and in every one of them every
    wanted sub-run was made and every register of every sub-run passes; it fails
    exactly if every register of every sub-run fails.  Anything else is inconclusive:
    neither a missing direction, a register that disagrees nor one undecided sub-run
    can be outvoted. *)
Theorem handback_aggregate (ch : Z) (data : list (list (list HandbackRun))) (want : list string) (v : Verdict) : decided v ->
  let ag := AggregateHandback ch (map (map EvalHandbackRegs) data) want in
  let all_of get := 3 <= Z.of_nat (length data) /\ forall subs, subs ∈ data -> subs <> [] /\
     (forall l, l ∈ want -> exists regs, regs ∈ subs /\ label_of regs = l) /\
     (forall regs, regs ∈ subs -> regs <> [] /\ forall r, r ∈ regs -> get (EvalHandback r) = v) in
  (rs_Verdict ag.1 = v <-> all_of sub_T2) /\ (rs_Verdict ag.2 = v <-> all_of sub_T3).
Proof.
  intros Hv ag all_of. unfold ag, AggregateHandback. cbn [fst snd rs_Verdict]. rewrite length_map.
  assert (Hone : forall get mixed, (forall regs, get (EvalHandbackRegs regs) = v <-> regs <> [] /\ forall r, r ∈ regs -> get (EvalHandback r) = v) ->
    (if Z.of_nat (length data) <? RunsRequired then Inconclusive
     else combine (map rr_Verdict (imap (run_result get mixed want) (map (map EvalHandbackRegs) data)))) = v <-> all_of get).
  2: { split; apply Hone; intros regs; by destruct (regs_spec regs v Hv) as (_ & ? & ?). }
  intros get mixed Hget. unfold all_of. destruct (Z.ltb_spec (Z.of_nat (length data)) RunsRequired) as [Hlt|Hge]; unfold RunsRequired in *.
  { split; [by destruct Hv as [-> | ->]|lia]. }
  rewrite combine_spec by done. setoid_rewrite list_elem_of_fmap.
  assert (Hrun : forall i subs, rr_Verdict (run_result get mixed want i (map EvalHandbackRegs subs)) = v <-> subs <> [] /\
     (forall l, l ∈ want -> exists regs, regs ∈ subs /\ label_of regs = l) /\
     (forall regs, regs ∈ subs -> regs <> [] /\ forall r, r ∈ regs -> get (EvalHandback r) = v)).
  { intros i subs. rewrite run_verdict by done. setoid_rewrite list_elem_of_fmap. setoid_rewrite <- Hget. split.
    - intros (H1 & H2 & H3). split_and!; [by intros ->| |eauto]. intros l Hl. destruct (H2 l Hl) as (s & (regs & -> & Hin) & <-).
      exists regs. split; [done|]. symmetry. by apply (regs_spec regs v).
    - intros (H1 & H2 & H3). split_and!; [by destruct subs| |by intros s (regs & -> & ?); apply H3]. intros l Hl.
      destruct (H2 l Hl) as (regs & Hin & <-). eexists. split; [by exists regs|]. by apply (regs_spec regs v). }
  split.
  - intros [_ H]. split; [lia|]. intros subs Hs. apply list_elem_of_lookup in Hs as [i Hi]. apply (Hrun i). apply H. eexists. split; [done|].
    apply elem_of_lookup_imap. exists i, (map EvalHandbackRegs subs). split; [done|]. by rewrite list_lookup_fmap, Hi.
  - intros [_ H]. split; [by destruct data|]. intros ? (rr & -> & Hrr). apply elem_of_lookup_imap in Hrr as (i & subs & -> & Hi).
    rewrite list_lookup_fmap in Hi. destruct (data !! i) as [d|] eqn:Ed; [|done]. injection Hi as <-. apply Hrun, H. by apply list_elem_of_lookup_2 in Ed.
Qed.
Lemma handback_aggregate_witness :
  let h := example_run (map (sample_at (fun _ => 87)) (seq 1 3)) in
  let m := mkRun "M" "" 135 (map (sample_at (fun _ => 87)) (seq 1 3)) true 87 true [] 10 None in
  let ag := AggregateHandback 1 (map (map EvalHandbackRegs) (replicate 3 [[h]; [m]])) ["H"; "M"] in
  decided Pass /\ rs_Verdict ag.1 = Pass /\ rs_Verdict ag.2 = Pass /\ forall r, r ∈ [h; m] -> sub_T2 (EvalHandback r) = Pass.
Proof.
  intros h m ag. split; [by left|]. destruct (handback_aggregate 1 (replicate 3 [[h]; [m]]) ["H"; "M"] Pass (or_introl eq_refl)) as [[H _] _].
  assert (H2 : rs_Verdict ag.1 = Pass) by by vm_compute. split; [exact H2|]. split; [by vm_compute|]. destruct (H H2) as [_ Hall].
  destruct (Hall [[h]; [m]]) as (_ & _ & Hr); [by left|]. intros r [Er|Er%list_elem_of_singleton]%elem_of_cons; rewrite Er.
  - destruct (Hr [h]) as [_ Hh]; [by left|]. apply Hh. by left.
  - destruct (Hr [m]) as [_ Hm]; [right; by left|]. apply Hm. by left.
Defined.
