(* ===== verification/Mapping.v ===== *)
(** The mapping test T1 (src/internal/validate/eval.go): which registers and tachs follow
    a written channel, and the results of T4 and T5. *)
From stdpp Require Import base gmap strings list.
From Stdlib Require Import ZArith QArith Qabs Lia Lqa.
From S2P Require Import Prelude GoLib Float64 Verdict Handback.
Open Scope Z_scope.

(** ** Series of readings; a negative one is unreadable *)
Definition readable (v : list Z) : list Z := List.filter (fun x => 0 <=? x) v.
Definition spread (v : list Z) : option (Z * Z) :=
  match readable v with
  | [] => None
  | x :: xs => Some (fold_left Z.min xs x, fold_left Z.max xs x)
  end.
Definition mean (v : list Z) : option Q :=
  match readable v with
  | [] => None
  | xs => Some (fdiv (of_int (fold_left Z.add xs 0)) (of_int (Z.of_nat (length xs))))
  end.
Definition series (m : gmap Z (list Z)) (f : Z) : list Z := default [] (m !! f).

(** ** The duty registers *)
(** Whether sample [i] lies at or after the settle time. *)
Definition judged (s : T1Step) (i : nat) : bool :=
  match ts_DueS s !! i with None => true | Some d => fle (ts_SettleS s) (fadd d nano) end.
Definition regSeries (ch : Z) : list (string * (T1Step -> list Z)) :=
  if ch =? 3 then [("DCR3", ts_DCR); ("DCR4", ts_DCR4)] else [("DCR", ts_DCR)].
Definition judged_values (st : T1Step) (l : list Z) : list Z :=
  omap id (imap (fun i v => if judged st i then Some v else None) l).
Definition not_judged (st : T1Step) (rg : string * (T1Step -> list Z)) : list Text :=
  omap id (imap (fun i v => if judged st i then None
    else Some (Sprintf "%s %s at %.0f s (settle time %.0f s)"
      [TStr rg.1; (if 0 <=? v then TInt v else TStr "-"); TFloat (default 0%Q (ts_DueS st !! i)); TFloat (ts_SettleS st)])) (rg.2 st)).
(** A judged sample that differs, and what is missing for a decision. *)
Definition reg_bad (st : T1Step) (rg : string * (T1Step -> list Z)) : list Text :=
  match find (fun v => (0 <=? v) && negb (v =? ts_Duty st)) (judged_values st (rg.2 st)) with
  | Some v => [Sprintf "step %d: %s %d" [TInt (ts_Duty st); TStr rg.1; TInt v]]
  | None => []
  end.
Definition reg_missing (st : T1Step) (rg : string * (T1Step -> list Z)) : list Text :=
  let d := TInt (ts_Duty st) in
  match rg.2 st with
  | [] => [Sprintf "step %d: no %s sample" [d; TStr rg.1]]
  | _ =>
      let jv := judged_values st (rg.2 st) in
      let miss := List.filter (fun v => v <? 0) jv in
      (match jv with [] => [Sprintf "step %d: no judged %s sample" [d; TStr rg.1]] | _ => [] end) ++
      (match miss with [] => [] | _ => [Sprintf "step %d: %d of %d judged samples without %s"
         [d; TInt (Z.of_nat (length miss)); TInt (Z.of_nat (length jv)); TStr rg.1]] end)
  end.
Definition each_reg {A} (ch : Z) (steps : list T1Step) (f : T1Step -> string * (T1Step -> list Z) -> list A) : list A :=
  flat_map (fun rg => flat_map (fun st => f st rg) steps) (regSeries ch).

(** ** The tachs *)
Definition noisy (rest : gmap Z (list Z)) (fans : list Z) : list Text :=
  flat_map (fun f => match spread (series rest f) with
    | Some (lo, hi) => if T1OtherRPM <? hi - lo then [Sprintf "fan%d %d rpm" [TInt f; TInt (hi - lo)]] else []
    | None => [] end) fans.
(** The first reading of a step away from the mean at rest. *)
Definition away (base : Q) (v : Z) : bool := (0 <=? v) && flt (of_int T1OtherRPM) (Qabs (fsub (of_int v) base)).
Definition fan_follows (own : Z) (rest : gmap Z (list Z)) (steps : list T1Step) (f : Z) : list Text :=
  if f =? own then []
  else match mean (series rest f) with
  | None => []
  | Some base => flat_map (fun st => match find (away base) (series (ts_Fans st) f) with
      | Some v => [Sprintf "fan%d %d rpm at step %d (rest %.0f)" [TInt f; TInt v; TInt (ts_Duty st); TFloat base]]
      | None => [] end) steps
  end.
Definition own_mean (own : Z) (st : T1Step) : option Q := mean (keep_last 3 (series (ts_Fans st) own)).
Fixpoint own_short (own : Z) (prev : option T1Step) (steps : list T1Step) : list Text :=
  match steps with
  | [] => []
  | st :: rest =>
      (match own_mean own st with None => [Sprintf "step %d: own tach not readable" [TInt (ts_Duty st)]] | Some _ => [] end) ++
      (match prev with
       | Some p => match own_mean own p, own_mean own st with
         | Some a, Some b =>
             let d := fsub a b in
             if flt d (of_int T1OwnStepRPM) then [Sprintf "%d->%d: %.0f rpm" [TInt (ts_Duty p); TInt (ts_Duty st); TFloat d]] else []
         | _, _ => [] end
       | None => [] end) ++ own_short own (Some st) rest
  end.

(** ** The table inputs of the other channels *)
Definition other_channels (ch : Z) : list Z := List.filter (fun oc => negb (oc =? ch)) [1; 2; 3].
Definition step_inputs (steps : list T1Step) (oc : Z) : list (option Q) := flat_map (fun st => default [] (ts_Inputs st !! oc)) steps.
Definition crossed_one (restIn : gmap Z (list (option Q))) (steps : list T1Step) (oc : Z) : option Text :=
  match Crossing (meanF (default [] (restIn !! oc))) (step_inputs steps oc) (TableSteps oc) with
  | Some x => Some (Sprintf "pwm%d %s %s" [TInt oc; TStr (InputName oc); x])
  | None => None
  end.
Definition crossed (ch : Z) (restIn : gmap Z (list (option Q))) (steps : list T1Step) (oc : Z) : option Text :=
  if bool_decide (oc ∈ other_channels ch) then crossed_one restIn steps oc else None.

(** ** The verdict *)
Definition pair_diff (st : T1Step) : list (option Text) :=
  omap id (imap (fun i '(a, b) => if (a <? 0) || (b <? 0) then None
    else Some (if a =? b then None else Some (Sprintf "step %d sample %d: DCR3 %d, DCR4 %d" [TInt (ts_Duty st); TInt (Z.of_nat i + 1); TInt a; TInt b])))
    (zip (ts_DCR st) (ts_DCR4 st))).
Definition is_nil {A} (l : list A) : bool := match l with [] => true | _ => false end.
Definition t1_criteria (ch own : Z) (bad missing : list Text) (nj : nat) (noise follows : list Text) (recorded : bool) (cross : list Text) (short : list Text)
    (diff : list (option Text)) : list Criterion :=
  let detail := TJoin "; " in
  [mkCrit (if ch =? 3 then "DCR3 and DCR4 equal the written value in every judged sample of every step"
           else "DCR equals the written value in every judged sample of every step")
     (if negb (is_nil bad) then Some false else if is_nil missing then Some true else None)
     (if negb (is_nil bad) then detail (bad ++ missing) else if is_nil missing then TStr "" else TJoin "" [TStr "DCR not readable: "; detail missing])
     (if (nj =? 0)%nat then [] else [("not_judged_samples", Z.of_nat nj)]);
   mkCrit "tach noise at rest <= 50 rpm" (Some (is_nil noise)) (detail noise) [];
   mkCrit "other tachs within +-50 rpm" (Some (is_nil follows)) (detail follows) [];
   mkCrit "table inputs of the other channels did not cross a step" (if recorded then Some (is_nil cross) else None)
     (if recorded then detail cross else TStr "table inputs not recorded") []] ++
  (if 0 <? own then [mkCrit "own tach changes >= 200 rpm per step (downwards)" (Some (is_nil short)) (detail short) []] else []) ++
  (if ch =? 3 then [mkCrit "DCR3 and DCR4 equal in every sample (reported)"
     (if is_nil diff then None else Some (is_nil (omap id diff))) (detail (omap id diff)) []] else []).
Definition EvalT1Inputs (ch own : Z) (rest : gmap Z (list Z)) (restIn : gmap Z (list (option Q))) (steps : list T1Step) (fans : list Z) : Result :=
  let bad := each_reg ch steps reg_bad in
  let missing := each_reg ch steps reg_missing in
  let nj := length (each_reg ch steps not_judged) in
  let noise := noisy rest fans in
  let follows := flat_map (fan_follows own rest steps) fans in
  let recorded := existsb (fun oc => match meanF (step_inputs steps oc) with Some _ => true | None => false end) (other_channels ch) in
  let crossing := crossed ch restIn steps in
  let cross := omap crossing [1; 2; 3] in
  let short := if 0 <? own then own_short own None steps else [] in
  let why1 := omap (fun f => if is_nil (fan_follows own rest steps f) then None
    else (fun x => Sprintf "table input of pwm%d crossed a step (%s)" [TInt f; x]) <$> crossing f) fans in
  let crossWhy := if is_nil why1 && negb (is_nil follows) && negb (is_nil cross)
    then omap (fun oc => (fun x => Sprintf "another tach follows while the table input of pwm%d crossed a step (%s)" [TInt oc; x]) <$> crossing oc) [1; 2; 3]
    else why1 in
  let done st := st <| ts_NotJudged := ts_NotJudged st ++ flat_map (not_judged st) (regSeries ch) |>
                    <| ts_OwnRPM := if 0 <? own then default 0%Q (own_mean own st) else ts_OwnRPM st |> in
  let '(v, reasons) :=
    if negb (is_nil bad) then
      (Fail, [TStr (if ch =? 3 then "DCR3 or DCR4 differs from the written value in a judged sample" else "DCR differs from the written value in a judged sample")])
    else if negb (is_nil follows) && is_nil noise && is_nil cross then (Fail, [TStr "another tach follows the written channel"])
    else if negb (is_nil follows) && negb (is_nil crossWhy) then (Inconclusive, crossWhy)
    else if negb (is_nil missing) then
      (Inconclusive, [TStr "DCR not readable: the verdict needs the duty registers (driver 0.2.1+sr1, debug_regs=1)"])
    else if negb (is_nil noise) then (Inconclusive, [TStr "tach noise > 50 rpm at rest"])
    else if negb (is_nil short) then (Inconclusive, [TStr "own tach moved less than 200 rpm in a step, or was not readable at the end of a step"])
    else (Pass, [TStr (if ch =? 3 then "DCR3 and DCR4 equal to the written value in every judged sample, own tach moved >= 200 rpm per step, other tachs within +-50 rpm"
      else if 0 <? own then "DCR equal to the written value in every judged sample, own tach moved >= 200 rpm per step, other tachs within +-50 rpm"
      else "DCR equal to the written value in every judged sample, all tachs within +-50 rpm (channel without tach)")]) in
  mkResult "T1" ch v reasons (t1_criteria ch own bad missing nj noise follows recorded cross short (flat_map pair_diff steps)) [] (VSteps (map done steps)).
Definition EvalT1 (ch own : Z) (rest : gmap Z (list Z)) (steps : list T1Step) (fans : list Z) : Result := EvalT1Inputs ch own rest ∅ steps fans.

(** ** T4 and T5: not evaluated *)
Definition ReasonNoPCIeAuto : string := "no EC automatic on DCR5 (firmware 0.14)".
Definition ReasonT4T5Manual : string := "not evaluated by validate: TESTSPEC 0.4 §5.5 evaluates T4/T5 with n5-ectest report from samples.csv".
Definition ReasonHDDBelowStep : string := "HDD input EC 0x06 below 34 C".
Definition T4T5Result (id : string) (ch : Z) (samples : list Sample) : Result :=
  if ch =? PCIeChannel then NotApplicableResult id ch (TStr ReasonNoPCIeAuto)
  else if ch =? 3 then
    let vs := omap sm_ECAmb samples in
    match lo_hi vs with
    | None => NotImplemented id ch (TJoin "" [TStr ReasonT4T5Manual; TStr " (EC 0x06 not recorded in this run)"])
    | Some (_, hi) =>
        if flt hi HDDInputStepC then
          (NotImplemented id ch (Sprintf "%s (max %.1f C in %d samples of this run; table step at %.0f C, a crossing by 2 C needs >= %.0f C; TESTSPEC §6)"
            [TStr ReasonHDDBelowStep; TFloat hi; TInt (Z.of_nat (length vs)); TFloat HDDInputStepC; TFloat (fadd HDDInputStepC 2)]))
          <| rs_Values := VMax hi (Z.of_nat (length vs)) |>
        else NotImplemented id ch (TStr ReasonT4T5Manual)
    end
  else NotImplemented id ch (TStr ReasonT4T5Manual).

(** ** What the verdict says *)
Lemma is_nil_true {A} (l : list A) : is_nil l = true <-> l = [].
Proof. by destruct l. Qed.
Lemma flat_map_nil {A B} (f : A -> list B) l : flat_map f l = [] <-> forall x, x ∈ l -> f x = [].
Proof.
  induction l as [|x l IH]; [split; [by intros _ y ?%not_elem_of_nil|done]|]. cbn. rewrite app_nil, IH. split.
  - intros [H1 H2] y [->|Hy]%elem_of_cons; auto.
  - intros H. split; [apply H; by left|]. intros y Hy. apply H. by right.
Qed.
Lemma flat_map_ex {A B} (f : A -> list B) l : flat_map f l <> [] -> exists x, x ∈ l /\ f x <> [].
Proof.
  induction l as [|x l IH]; [done|]. cbn. destruct (f x) as [|y k] eqn:E; cbn.
  - intros (z & Hz & ?)%IH. exists z. split; [by right|done].
  - intros _. exists x. split; [by left|by rewrite E].
Qed.
Lemma omap_nil {A B} (f : A -> option B) l : omap f l = [] <-> forall x, x ∈ l -> f x = None.
Proof.
  induction l as [|x l IH]; [split; [by intros _ y ?%not_elem_of_nil|done]|]. cbn. destruct (f x) as [y|] eqn:E.
  - split; [done|]. intros H. rewrite (H x) in E; [done|by left].
  - change (list_omap A B f l) with (omap f l). rewrite IH. split.
    + intros H y [->|Hy]%elem_of_cons; auto.
    + intros H y Hy. apply H. by right.
Qed.
Lemma find_nil {A} (p : A -> bool) l : find p l = None <-> forall x, x ∈ l -> p x = false.
Proof.
  split; [intros H x Hx%list_elem_of_In; by apply (find_none p l)|]. intros H. destruct (find p l) as [x|] eqn:E; [|done].
  apply find_some in E as [Hx%list_elem_of_In Hp]. by rewrite (H x Hx) in Hp.
Qed.

(** What the samples of the registers say. *)
Definition judged_sample (ch : Z) (steps : list T1Step) (st : T1Step) (v : Z) : Prop :=
  exists rg i, rg ∈ regSeries ch /\ st ∈ steps /\ rg.2 st !! i = Some v /\ judged st i = true.
Lemma judged_values_spec st l v : v ∈ judged_values st l <-> exists i, l !! i = Some v /\ judged st i = true.
Proof.
  unfold judged_values. rewrite list_elem_of_omap. split.
  - intros (o & Ho & Hv). cbn in Hv. subst o. apply elem_of_lookup_imap in Ho as (i & w & E & Hi). destruct (judged st i) eqn:Ej; [|done].
    injection E as ->. eauto.
  - intros (i & Hi & Hj). exists (Some v). split; [|done]. apply elem_of_lookup_imap. exists i, v. by rewrite Hj.
Qed.
Lemma each_reg_nil {A} ch steps (f : T1Step -> string * (T1Step -> list Z) -> list A) :
  each_reg ch steps f = [] <-> forall rg st, rg ∈ regSeries ch -> st ∈ steps -> f st rg = [].
Proof.
  unfold each_reg. rewrite flat_map_nil. setoid_rewrite flat_map_nil. naive_solver.
Qed.
Lemma bad_nil ch steps : each_reg ch steps reg_bad = [] <-> forall st v, judged_sample ch steps st v -> 0 <= v -> v = ts_Duty st.
Proof.
  rewrite each_reg_nil. unfold reg_bad, judged_sample. split.
  - intros H st v (rg & i & Hrg & Hst & Hi & Hj) Hv. specialize (H rg st Hrg Hst). destruct (find _ _) eqn:E; [done|]. rewrite find_nil in E.
    specialize (E v (proj2 (judged_values_spec _ _ _) (ex_intro _ i (conj Hi Hj)))). lia.
  - intros H rg st Hrg Hst. destruct (find _ _) as [v|] eqn:E; [|done]. apply find_some in E as [Hv%list_elem_of_In Hp].
    apply judged_values_spec in Hv as (i & Hi & Hj). rewrite (H st v) in Hp by (try (by exists rg, i); lia). lia.
Qed.
Lemma missing_nil ch steps : each_reg ch steps reg_missing = [] <->
  forall rg st, rg ∈ regSeries ch -> st ∈ steps -> judged_values st (rg.2 st) <> [] /\ forall v, v ∈ judged_values st (rg.2 st) -> 0 <= v.
Proof.
  rewrite each_reg_nil. assert (Hone : forall st rg, reg_missing st rg = [] <->
    judged_values st (rg.2 st) <> [] /\ forall v, v ∈ judged_values st (rg.2 st) -> 0 <= v).
  { intros st rg. unfold reg_missing. destruct (rg.2 st) as [|x l] eqn:E; [split; [done|by intros []]|]. rewrite <- E. clear x l E.
    set (jv := judged_values st (rg.2 st)). destruct (List.filter _ jv) as [|w f] eqn:Ef.
    - rewrite app_nil_r. split; [|by destruct jv as [|y jv'] eqn:Ej; [intros []|]]. intros H. split; [by destruct jv|]. intros v Hv.
      destruct (Z.leb_spec 0 v); [done|]. apply list_elem_of_In in Hv. assert (Hf : In v (List.filter (fun v => v <? 0) jv)) by (apply filter_In; split; [done|lia]).
      by rewrite Ef in Hf.
    - split; [by intros [_ ?]%app_nil|]. intros [_ H]. assert (Hw : In w (List.filter (fun v => v <? 0) jv)) by (rewrite Ef; by left).
      apply filter_In in Hw as [Hw%list_elem_of_In Hneg]. apply H in Hw. lia. }
  setoid_rewrite Hone. done.
Qed.

(** A tach that follows the written channel, noise at rest, a crossing. *)
Definition tach_follows (own : Z) (rest : gmap Z (list Z)) (steps : list T1Step) (fans : list Z) : Prop :=
  exists f base st v, f ∈ fans /\ f <> own /\ mean (series rest f) = Some base /\ st ∈ steps /\ v ∈ series (ts_Fans st) f /\
    0 <= v /\ (50 < Qabs (fsub (of_int v) base))%Q.
Definition tach_noise (rest : gmap Z (list Z)) (fans : list Z) : Prop :=
  exists f a b, f ∈ fans /\ a ∈ series rest f /\ b ∈ series rest f /\ 0 <= a /\ 0 <= b /\ 50 < b - a.
Definition input_crossed (ch : Z) (restIn : gmap Z (list (option Q))) (steps : list T1Step) : Prop :=
  exists oc, oc ∈ [1; 2; 3] /\ oc <> ch /\
    Crossing (meanF (default [] (restIn !! oc))) (step_inputs steps oc) (TableSteps oc) <> None.
Lemma follows_nil own rest steps fans : flat_map (fan_follows own rest steps) fans = [] <-> ~ tach_follows own rest steps fans.
Proof.
  rewrite flat_map_nil. unfold fan_follows, tach_follows. split.
  - intros H (f & base & st & v & Hf & Hown & Hb & Hst & Hv & Hv0 & Hd). specialize (H f Hf).
    rewrite (proj2 (Z.eqb_neq _ _) Hown), Hb in H. rewrite flat_map_nil in H. specialize (H st Hst). destruct (find _ _) eqn:E; [done|].
    rewrite find_nil in E. specialize (E v Hv). unfold away in E. rewrite (proj2 (Z.leb_le _ _) Hv0) in E. cbn [andb] in E. apply flt_false in E.
    change (of_int T1OtherRPM) with 50%Q in E. lra.
  - intros H f Hf. destruct (Z.eqb_spec f own) as [|Hown]; [done|]. destruct (mean _) as [base|] eqn:Eb; [|done]. apply flat_map_nil. intros st Hst.
    destruct (find _ _) as [v|] eqn:E; [|done]. apply find_some in E as [Hv%list_elem_of_In Hd]. exfalso. apply H. exists f, base, st, v.
    apply andb_true_iff in Hd as [Hv0 Hd%flt_spec]. split_and!; [done..|lia|exact Hd].
Qed.
Lemma readable_in v x : x ∈ readable v <-> x ∈ v /\ 0 <= x.
Proof. unfold readable. rewrite list_elem_of_In, filter_In, <- list_elem_of_In, Z.leb_le. done. Qed.
Lemma spread_spec v : match spread v with
  | None => readable v = []
  | Some (lo, hi) => lo ∈ readable v /\ hi ∈ readable v /\ forall x, x ∈ readable v -> lo <= x <= hi end.
Proof.
  unfold spread. destruct (readable v) as [|x xs]; [done|]. split_and!.
  - assert (H : forall l a, fold_left Z.min l a = a \/ fold_left Z.min l a ∈ l).
    { induction l as [|y l IH]; intros a; [by left|]. cbn. destruct (IH (Z.min a y)) as [->|Hin]; [|right; by right].
      destruct (Z.min_spec a y) as [[_ ->]|[_ ->]]; [by left|right; by left]. }
    destruct (H xs x) as [->|Hin]; [by left|by right].
  - assert (H : forall l a, fold_left Z.max l a = a \/ fold_left Z.max l a ∈ l).
    { induction l as [|y l IH]; intros a; [by left|]. cbn. destruct (IH (Z.max a y)) as [->|Hin]; [|right; by right].
      destruct (Z.max_spec a y) as [[_ ->]|[_ ->]]; [right; by left|by left]. }
    destruct (H xs x) as [->|Hin]; [by left|by right].
  - assert (H : forall l a b, (fold_left Z.min l a <= a /\ forall y, y ∈ l -> fold_left Z.min l a <= y) /\
      (b <= fold_left Z.max l b /\ forall y, y ∈ l -> y <= fold_left Z.max l b)).
    { induction l as [|y l IH]; intros a b; [repeat split; cbn; try lia; by intros ? ?%not_elem_of_nil|]. cbn.
      destruct (IH (Z.min a y) (Z.max b y)) as [[H1 H2] [H3 H4]]. repeat split; try lia; intros z [->|Hz]%elem_of_cons; try lia; auto. }
    destruct (H xs x x) as [[H1 H2] [H3 H4]]. intros y [->|Hy]%elem_of_cons; [lia|]. specialize (H2 y Hy). specialize (H4 y Hy). lia.
Qed.
Lemma noisy_nil rest fans : noisy rest fans = [] <-> ~ tach_noise rest fans.
Proof.
  unfold noisy, tach_noise. rewrite flat_map_nil. split.
  - intros H (f & a & b & Hf & Ha & Hb & Ha0 & Hb0 & Hd). specialize (H f Hf). pose proof (spread_spec (series rest f)) as Hs.
    pose proof (proj2 (readable_in _ _) (conj Ha Ha0)) as Ha'. pose proof (proj2 (readable_in _ _) (conj Hb Hb0)) as Hb'.
    destruct (spread _) as [[lo hi]|]; [|rewrite Hs in Ha'; by apply not_elem_of_nil in Ha'].
    destruct Hs as (_ & _ & Hs). pose proof (Hs a Ha'). pose proof (Hs b Hb'). unfold T1OtherRPM in H. destruct (Z.ltb_spec 50 (hi - lo)); [done|lia].
  - intros H f Hf. pose proof (spread_spec (series rest f)) as Hs. destruct (spread _) as [[lo hi]|]; [|done]. destruct Hs as (Hlo & Hhi & _).
    destruct (Z.ltb_spec T1OtherRPM (hi - lo)); [|done]. unfold T1OtherRPM in *. exfalso. apply H.
    apply readable_in in Hlo as [? ?], Hhi as [? ?]. by exists f, lo, hi.
Qed.
Lemma cross_nil ch restIn steps : omap (crossed ch restIn steps) [1; 2; 3] = [] <-> ~ input_crossed ch restIn steps.
Proof.
  rewrite omap_nil. unfold input_crossed, crossed, other_channels. assert (Hin : forall oc, oc ∈ List.filter (fun oc => negb (oc =? ch)) [1; 2; 3] <-> oc ∈ [1; 2; 3] /\ oc <> ch).
  { intros oc. rewrite !list_elem_of_In, filter_In, negb_true_iff, Z.eqb_neq. done. }
  split.
  - intros H (oc & Hoc & Hne & Hx). specialize (H oc Hoc). rewrite bool_decide_eq_true_2 in H by by apply Hin. unfold crossed_one in H. by destruct (Crossing _ _ _).
  - intros H oc Hoc. destruct (bool_decide_reflect (oc ∈ List.filter (fun oc => negb (oc =? ch)) [1; 2; 3])) as [[_ Hne]%Hin|]; [|done].
    unfold crossed_one. destruct (Crossing _ _ _) eqn:E; [|done]. exfalso. apply H. exists oc. by rewrite E.
Qed.
(** The own tach is readable at the end of every step and falls by 200 rpm from one to the next. *)
Definition drops (own : Z) (l : list T1Step) : Prop := forall i a b m m', l !! i = Some a -> l !! S i = Some b ->
  own_mean own a = Some m -> own_mean own b = Some m' -> (200 <= fsub m m')%Q.
Definition own_moves (own : Z) (steps : list T1Step) : Prop := (forall st, st ∈ steps -> own_mean own st <> None) /\ drops own steps.
Lemma drops_cons own p st l : drops own (p :: st :: l) <->
  (forall m m', own_mean own p = Some m -> own_mean own st = Some m' -> (200 <= fsub m m')%Q) /\ drops own (st :: l).
Proof.
  split.
  - intros H. split; [intros m m'; by apply (H 0%nat)|]. intros i a b m m' Ha Hb. by apply (H (S i)).
  - intros [H1 H2] [|i] a b m m' Ha Hb; [injection Ha as <-; injection Hb as <-; apply H1|by apply (H2 i)].
Qed.
Lemma own_short_nil own prev steps : own_short own prev steps = [] <->
  (forall st, st ∈ steps -> own_mean own st <> None) /\ drops own (option_list prev ++ steps).
Proof.
  revert prev. induction steps as [|st rest IH]; intros prev.
  { split; [|done]. intros _. split; [by intros ? ?%not_elem_of_nil|]. intros i a b m m' Ha Hb. by destruct prev, i as [|[]]. }
  cbn [own_short]. rewrite !app_nil, IH. cbn [option_list app].
  assert (Hp : drops own (option_list prev ++ st :: rest) <->
    match prev with Some p => forall m m', own_mean own p = Some m -> own_mean own st = Some m' -> (200 <= fsub m m')%Q | None => True end /\ drops own (st :: rest)).
  { destruct prev as [p|]; [apply drops_cons|]. cbn. tauto. }
  rewrite Hp. setoid_rewrite elem_of_cons.
  assert (Hpair : match prev with Some p => match own_mean own p, own_mean own st with
       | Some a, Some b => if flt (fsub a b) (of_int T1OwnStepRPM) then [Sprintf "%d->%d: %.0f rpm" [TInt (ts_Duty p); TInt (ts_Duty st); TFloat (fsub a b)]] else []
       | _, _ => [] end | None => [] end = [] <->
    match prev with Some p => forall m m', own_mean own p = Some m -> own_mean own st = Some m' -> (200 <= fsub m m')%Q | None => True end).
  { destruct prev as [p|]; [|done]. change (of_int T1OwnStepRPM) with 200%Q. destruct (own_mean own p) as [a|]; [|split; [by intros _ m m'|done]].
    destruct (own_mean own st) as [b|]; [|split; [by intros _ m m'|done]]. destruct (flt _ _) eqn:E.
    - split; [done|]. intros H. specialize (H a b eq_refl eq_refl). apply flt_spec in E. lra.
    - split; [|done]. intros _ m m' [= <-] [= <-]. by apply flt_false in E. }
  cbn zeta. rewrite Hpair. destruct (own_mean own st) as [b|] eqn:Eb.
  - split; [intros (_ & H1 & H2 & H3)|intros (H1 & H2 & H3)]; split_and!; auto. intros s [->|Hs]; [by rewrite Eb|auto].
  - split; [by intros [? _]|]. intros [H _]. by destruct (H st (or_introl eq_refl)).
Qed.

Definition t1_verdict_of (ch own : Z) rest restIn steps fans : Verdict := rs_Verdict (EvalT1Inputs ch own rest restIn steps fans).
Lemma t1_raw ch own rest restIn steps fans : t1_verdict_of ch own rest restIn steps fans =
  let bad := each_reg ch steps reg_bad in
  let noise := noisy rest fans in
  let follows := flat_map (fan_follows own rest steps) fans in
  let cross := omap (crossed ch restIn steps) [1; 2; 3] in
  if negb (is_nil bad) then Fail
  else if negb (is_nil follows) && is_nil noise && is_nil cross then Fail
  else if negb (is_nil follows) && negb (is_nil cross) then Inconclusive
  else if negb (is_nil (each_reg ch steps reg_missing)) then Inconclusive
  else if negb (is_nil noise) then Inconclusive
  else if negb (is_nil (if 0 <? own then own_short own None steps else [])) then Inconclusive
  else Pass.
Proof.
  unfold t1_verdict_of, EvalT1Inputs. cbn zeta. set (bad := each_reg ch steps reg_bad). set (follows := flat_map _ fans). set (cross := omap _ [1; 2; 3]).
  set (why1 := omap _ fans). set (general := omap _ [1; 2; 3]). set (short := if 0 <? own then _ else _). set (missing := each_reg ch steps reg_missing).
  assert (Hwhy : is_nil why1 = false -> is_nil cross = false).
  { intros H. apply not_true_iff_false. intros Hc%is_nil_true. apply not_true_iff_false in H. apply H, is_nil_true. unfold why1. apply omap_nil.
    intros f _. destruct (is_nil (fan_follows own rest steps f)); [done|]. destruct (crossed ch restIn steps f) as [x|] eqn:E; [|done]. exfalso.
    unfold cross in Hc. rewrite omap_nil in Hc. assert (Hf : f ∈ [1; 2; 3]).
    { unfold crossed, other_channels in E. destruct (bool_decide_reflect (f ∈ List.filter (fun oc => negb (oc =? ch)) [1; 2; 3])) as [Hin|]; [|done].
      apply list_elem_of_In, filter_In in Hin as [Hin _]. by apply list_elem_of_In. }
    by rewrite (Hc f Hf) in E. }
  assert (Hgen : is_nil cross = false -> is_nil general = false).
  { intros H. apply not_true_iff_false. intros Hg%is_nil_true. apply not_true_iff_false in H. apply H, is_nil_true. unfold general in Hg. unfold cross.
    rewrite omap_nil in Hg |- *. intros oc Hoc. specialize (Hg oc Hoc). by destruct (crossed ch restIn steps oc). }
  destruct (negb (is_nil bad)); [done|]. destruct (is_nil cross) eqn:Ec.
  - destruct (is_nil why1) eqn:Ew; [|by specialize (Hwhy eq_refl)]. rewrite andb_false_r, Ew, !andb_true_r, !andb_false_r.
    by destruct (negb (is_nil follows) && is_nil (noisy rest fans)), (negb (is_nil missing)), (negb (is_nil (noisy rest fans))), (negb (is_nil short)).
  - rewrite !andb_false_r, !andb_true_r. destruct (negb (is_nil follows)); rewrite ?andb_true_r, ?andb_false_r; cbn [andb].
    + destruct (is_nil why1) eqn:Ew; [by rewrite (Hgen eq_refl)|by rewrite Ew].
    + by destruct (negb (is_nil missing)), (negb (is_nil (noisy rest fans))), (negb (is_nil short)).
Qed.

Lemma bad_ex ch steps : each_reg ch steps reg_bad <> [] -> exists st x, judged_sample ch steps st x /\ 0 <= x /\ x <> ts_Duty st.
Proof.
  unfold each_reg, reg_bad, judged_sample. intros H. apply flat_map_ex in H as (rg & Hrg & H). apply flat_map_ex in H as (st & Hst & H).
  destruct (find _ _) as [x|] eqn:Ef; [|done]. apply find_some in Ef as [Hx%list_elem_of_In Hp]. apply judged_values_spec in Hx as (i & Hi & Hj).
  exists st, x. split; [by exists rg, i|lia].
Qed.
Lemma follows_ex own rest steps fans : flat_map (fan_follows own rest steps) fans <> [] -> tach_follows own rest steps fans.
Proof.
  intros (f & Hf & H)%flat_map_ex. unfold fan_follows in H. destruct (Z.eqb_spec f own) as [|Hown]; [done|]. destruct (mean _) as [base|] eqn:Eb; [|done].
  apply flat_map_ex in H as (st & Hst & H). destruct (find _ _) as [v|] eqn:E; [|done]. apply find_some in E as [Hv%list_elem_of_In Hd].
  apply andb_true_iff in Hd as [Hv0 Hd%flt_spec]. exists f, base, st, v. split_and!; [done..|lia|exact Hd].
Qed.

(** the verdict of the mapping test.  It passes exactly if every judged sample of
    every register of the channel, in every step, was read and equals the written duty
    (and there is one), no other tach moved by more than 50 rpm, the tachs were quiet at
    rest, and the channel's own tach, if it has one, is readable and fell by 200 rpm from
    step to step.  It fails exactly if a judged sample differs from the duty, or another
    tach follows that was quiet, and no table input of another channel crossed a step
    that would explain it. *)
Theorem t1_verdict (ch own : Z) (rest : gmap Z (list Z)) (restIn : gmap Z (list (option Q))) (steps : list T1Step) (fans : list Z) :
  let v := t1_verdict_of ch own rest restIn steps fans in
  (v = Pass <->
    (forall rg st, rg ∈ regSeries ch -> st ∈ steps -> judged_values st (rg.2 st) <> []) /\
    (forall st x, judged_sample ch steps st x -> 0 <= x /\ x = ts_Duty st) /\
    ~ tach_follows own rest steps fans /\ ~ tach_noise rest fans /\ (0 < own -> own_moves own steps)) /\
  (v = Fail <->
    (exists st x, judged_sample ch steps st x /\ 0 <= x /\ x <> ts_Duty st) \/
    (tach_follows own rest steps fans /\ ~ tach_noise rest fans /\ ~ input_crossed ch restIn steps)).
Proof.
  intros v. unfold v. rewrite t1_raw. cbn zeta. pose proof (bad_nil ch steps) as Hbad. pose proof (missing_nil ch steps) as Hmiss.
  pose proof (follows_nil own rest steps fans) as Hfol. pose proof (noisy_nil rest fans) as Hnoi. pose proof (cross_nil ch restIn steps) as Hcr.
  assert (Hown : (if 0 <? own then own_short own None steps else []) = [] <-> (0 < own -> own_moves own steps)).
  { destruct (Z.ltb_spec 0 own); [|split; [lia|done]]. rewrite own_short_nil. unfold own_moves. cbn. tauto. }
  destruct (is_nil (each_reg ch steps reg_bad)) eqn:Eb; cbn [negb].
  2: { assert (Hne : each_reg ch steps reg_bad <> []) by (intros E%is_nil_true; congruence). pose proof (bad_ex ch steps Hne) as (st & x & Hx & H0 & H1).
    split; split; [done| |intros _; left; by exists st, x|done]. intros (_ & H & _). by destruct (H st x Hx). }
  apply is_nil_true in Eb. pose proof (proj1 Hbad Eb) as Hb.
  assert (Hnb : ~ exists st x, judged_sample ch steps st x /\ 0 <= x /\ x <> ts_Duty st) by (intros (st & x & Hx & H0 & H1); by apply H1, Hb).
  destruct (is_nil (flat_map _ fans)) eqn:Ef; cbn [negb andb].
  - apply is_nil_true in Ef. pose proof (proj1 Hfol Ef) as Hnf. split.
    + destruct (is_nil (each_reg ch steps reg_missing)) eqn:Em; cbn [negb].
      2: { split; [done|]. intros (H1 & H2 & _). apply not_true_iff_false in Em. destruct Em. apply is_nil_true, Hmiss. intros rg st Hrg Hst.
        split; [auto|]. intros x (i & Hi & Hj)%judged_values_spec. apply (H2 st x). by exists rg, i. }
      apply is_nil_true in Em. pose proof (proj1 Hmiss Em) as Hm. destruct (is_nil (noisy rest fans)) eqn:En; cbn [negb].
      2: { split; [done|]. intros (_ & _ & _ & H & _). apply Hnoi in H. by rewrite H in En. }
      apply is_nil_true, Hnoi in En. destruct (is_nil (if 0 <? own then _ else _)) eqn:Eo; cbn [negb].
      2: { split; [done|]. intros (_ & _ & _ & _ & H). apply Hown in H. by rewrite H in Eo. }
      apply is_nil_true in Eo. pose proof (proj1 Hown Eo) as Ho. split; [|done]. intros _. split; [by intros rg st Hrg Hst; apply Hm|].
      split; [|done].
      intros st x Hx. assert (H0 : 0 <= x); [|auto]. destruct Hx as (rg & i & Hrg & Hst & Hi & Hj). apply (Hm rg st Hrg Hst), judged_values_spec. eauto.
    + split; [|by intros [?|[? _]]]. by repeat case_match.
  - assert (Hf : tach_follows own rest steps fans) by (apply follows_ex; intros E%is_nil_true; congruence).
    split.
    + split; [|by intros (_ & _ & ? & _)].
      destruct (is_nil (noisy rest fans)); destruct (is_nil (omap _ [1; 2; 3])); cbn [negb andb]; by repeat case_match.
    + destruct (is_nil (noisy rest fans)) eqn:En; cbn [andb].
      * apply is_nil_true, Hnoi in En. destruct (is_nil (omap _ [1; 2; 3])) eqn:Ec; cbn [negb].
        -- apply is_nil_true, Hcr in Ec. split; [by right|done].
        -- split; [done|]. intros [?|(_ & _ & H)]; [done|]. apply Hcr in H. by rewrite H in Ec.
      * split; [|intros [?|(_ & H & _)]; [done|]; apply Hnoi in H; by rewrite H in En]. by repeat case_match.
Qed.
