(* ===== verification/Replay.v ===== *)
(** Verdicts from the logs of an earlier measurement (src/internal/validate/replay.go):
    a duty that was written, and register dumps noted by hand afterwards. *)
From stdpp Require Import base gmap strings list.
From Stdlib Require Import ZArith QArith Lia Ascii.
From S2P Require Import Prelude GoLib GoNet GoPath Float64 N5Driver Verdict Handback.
Open Scope Z_scope.

(** ** The line patterns *)
(** [\s], [\d], [\w] *)
Definition re_space (c : ascii) : bool := let n := N_of_ascii c in ((n =? 32) || ((9 <=? n) && (n <=? 13) && negb (n =? 11)))%N.
Definition re_digit (c : ascii) : bool := match digit_of c with Some _ => true | None => false end.
Definition re_word (c : ascii) : bool :=
  let n := N_of_ascii c in (re_digit c || ((65 <=? n) && (n <=? 90))%N || ((97 <=? n) && (n <=? 122))%N || (n =? 95)%N).
Fixpoint span (p : ascii -> bool) (l : list ascii) : list ascii * list ascii :=
  match l with c :: l' => if p c then let '(a, b) := span p l' in (c :: a, b) else ([], l) | [] => ([], []) end.
(** One or more; the following text never begins with one more, so the longest is it. *)
Definition some_of (p : ascii -> bool) (l : list ascii) : option (list ascii * list ascii) :=
  match span p l with ([], _) => None | r => Some r end.
Fixpoint lit (p l : list ascii) : option (list ascii) :=
  match p, l with
  | [], _ => Some l
  | c :: p', d :: l' => if is_char d c then lit p' l' else None
  | _, [] => None
  end.
(** [strconv.Atoi] of digits, the error dropped: a value too large is cut. *)
Definition atoi_cut (l : list ascii) : Z := Z.min (default 0 (digits_val l 0)) (2 ^ 63 - 1).
Definition obind {A B} (o : option A) (f : A -> option B) : option B := match o with Some a => f a | None => None end.
(** [^=== 06-pwm-test\s+Kanal (\d+)\s+(\S+) ===] *)
Definition pwmHeaderRe (line : string) : option (list ascii * list ascii) :=
  obind (lit (chars "=== 06-pwm-test") (chars line)) (fun l =>
  obind (some_of re_space l) (fun '(_, l) =>
  obind (lit (chars "Kanal ") l) (fun l =>
  obind (some_of re_digit l) (fun '(ch, l) =>
  obind (some_of re_space l) (fun '(_, l) =>
  obind (some_of (fun c => negb (re_space c)) l) (fun '(t, l) =>
  obind (lit (chars " ===") l) (fun _ => Some (ch, t)))))))).
(** [^--- pwm(\d+) = (\d+)\b] *)
Definition pwmStepRe (line : string) : option (list ascii * list ascii) :=
  obind (lit (chars "--- pwm") (chars line)) (fun l =>
  obind (some_of re_digit l) (fun '(ch, l) =>
  obind (lit (chars " = ") l) (fun l =>
  obind (some_of re_digit l) (fun '(v, l) =>
  match l with c :: _ => if re_word c then None else Some (ch, v) | [] => Some (ch, v) end)))).
(** [\d{1,2}:\d{2}], the digits of both *)
Definition clock_re (l : list ascii) : option (list ascii * list ascii * list ascii) :=
  obind (some_of re_digit l) (fun '(h, l) => if (2 <? length h)%nat then None else
  obind (lit [":"%char] l) (fun l =>
  match l with a :: b :: l => if re_digit a && re_digit b then Some (h, [a; b], l) else None | _ => None end)).
(** A clock, or a range of two, blanks, the rest of the line. *)
Definition sectionRe (line : string) : option (list ascii * list ascii * list ascii) :=
  obind (clock_re (chars line)) (fun '(h, m, l) =>
  let l := match obind (lit ["-"%char] l) clock_re with Some (_, _, l') => l' | None => l end in
  obind (some_of re_space l) (fun '(_, rest) => Some (h, m, rest))).

Example patterns_ex :
  (let s o := option_map (fun p : list ascii * list ascii => (of_chars p.1, of_chars p.2)) o in
   s (pwmHeaderRe "=== 06-pwm-test  Kanal 3 2026-09-14T17:05:00+02:00 ===") = Some ("3", "2026-09-14T17:05:00+02:00") /\
   s (pwmStepRe "--- pwm3 = 105 (41 %)") = Some ("3", "105") /\ pwmStepRe "--- pwm3 = 105x" = None) /\
  option_map (fun p : list ascii * list ascii * list ascii => (of_chars p.1.1, of_chars p.1.2, of_chars p.2)) (sectionRe "17:20-17:25 nach Auto") = Some ("17", "20", "nach Auto").
Proof. by vm_compute. Qed.

(** ** The two logs *)
Record PWMTestLog := mkPWMLog { pl_Channel : Z; pl_Started : option Z; pl_LastDuty : Z; pl_HandBack : bool }.
#[export] Instance eta_PWMTestLog : Eta PWMTestLog := fun l => mkPWMLog (pl_Channel l) (pl_Started l) (pl_LastDuty l) (pl_HandBack l).
Record I2ECSnapshot := mkSnap { sn_Clock : string; sn_Minutes : Z; sn_DCR : DCR }.
Inductive ReplayErr := NoStep | NoHandBack | NoSnapshot | NoChannel (ch : Z).

Section Replay.
(** [time.Parse] with RFC 3339 *)
Variable (ParseTime : string -> option Z).

Definition pwm_line (l : PWMTestLog) (raw : string) : PWMTestLog :=
  let line := TrimSpace raw in
  match pwmHeaderRe line with
  | Some (ch, t) =>
      let l := l <| pl_Channel := atoi_cut ch |> in
      match ParseTime (of_chars t) with Some x => l <| pl_Started := Some x |> | None => l end
  | None =>
      match pwmStepRe line with
      | Some (ch, v) =>
          if (pl_Channel l =? 0) || (atoi_cut ch =? pl_Channel l) then l <| pl_Channel := atoi_cut ch |> <| pl_LastDuty := atoi_cut v |> else l
      | None => if Contains line "Wiederherstellung" || Contains line "_enable=2" then l <| pl_HandBack := true |> else l
      end
  end.
Definition ParsePWMTest (s : string) : ReplayErr + PWMTestLog :=
  let l := fold_left pwm_line (ScanLines s) (mkPWMLog 0 None 0 false) in
  if (pl_Channel l =? 0) || (pl_LastDuty l =? 0) then inl NoStep
  else if negb (pl_HandBack l) then inl NoHandBack else inr l.

(** The state of the second parser: the section's clock and minutes (-1 before the
    first), whether a new write ended the log, the dump lines not yet read, the result. *)
Record I2ECState := mkI2EC { i_clock : string; i_minutes : Z; i_stopped : bool; i_cur : list string; i_out : list I2ECSnapshot }.
#[export] Instance eta_I2ECState : Eta I2ECState := fun s => mkI2EC (i_clock s) (i_minutes s) (i_stopped s) (i_cur s) (i_out s).
Definition flush (s : I2ECState) : I2ECState :=
  let snaps := if i_minutes s <? 0 then []
               else omap (fun l => (fun d => mkSnap (i_clock s) (i_minutes s) d) <$> ParseDCR l) (i_cur s) in
  s <| i_out := i_out s ++ snaps |> <| i_cur := [] |>.
Definition i2ec_line (s : I2ECState) (raw : string) : I2ECState :=
  let line := TrimSpace raw in
  match sectionRe line with
  | Some (h, m, text) =>
      let s := flush s in
      let low := ToLower (of_chars text) in
      let s := if Contains low "manuell" || Contains low "manual" || Contains low "aktiv" then s <| i_stopped := true |> else s in
      s <| i_clock := of_chars (h ++ ":"%char :: m) |> <| i_minutes := atoi_cut h * 60 + atoi_cut m |>
  | None =>
      if i_stopped s then s
      else match Cut line ":"%char with
      | Some (a, _) =>
          if (String.length a =? 4)%nat && HasPrefix a "18" then
            let line := match Cut line "("%char with Some (l, _) => l | None => line end in
            s <| i_cur := i_cur s ++ [line] |>
          else s
      | None => s
      end
  end.
Definition ParseI2EC (s : string) : ReplayErr + list I2ECSnapshot :=
  let out := i_out (flush (fold_left i2ec_line (ScanLines s) (mkI2EC "" (-1) false [] []))) in
  match out with [] => inl NoSnapshot | _ => inr out end.

(** ** The verdicts *)
Fixpoint channel_samples (ch t0 : Z) (snaps : list I2ECSnapshot) : option (list DCRSample) :=
  match snaps with
  | [] => Some []
  | s :: snaps' =>
      match DCR_Channel (sn_DCR s) ch, channel_samples ch t0 snaps' with
      | Some v, Some l => Some (mkDCR (inject_Z (sn_Minutes s - t0) * 60)%Q v :: l)
      | _, _ => None
      end
  end.
Definition replay_note (p : PWMTestLog) (snaps : list I2ECSnapshot) : Text :=
  Sprintf "replay of raw logs (pwm test started %s, last written duty %d, %d DCR snapshot(s) %s..%s, time of the auto command not logged)"
    [TInt (default 0 (pl_Started p)); TInt (pl_LastDuty p); TInt (Z.of_nat (length snaps));
     TStr (match head snaps with Some s => sn_Clock s | None => "" end); TStr (match last snaps with Some s => sn_Clock s | None => "" end)].
Definition replay_run (duty : Z) (samples : list DCRSample) : HandbackRun :=
  mkRun "replay" "" duty samples false 0 false [] 0%Q None.
Definition Replay (pwmLog i2ecLog : string) : ReplayErr + Result * Result :=
  match ParsePWMTest pwmLog with
  | inl e => inl e
  | inr p =>
      match ParseI2EC i2ecLog with
      | inl e => inl e
      | inr snaps =>
          match channel_samples (pl_Channel p) (match head snaps with Some s => sn_Minutes s | None => 0 end) snaps with
          | None => inl (NoChannel (pl_Channel p))
          | Some samples =>
              let '(t2, t3) := AggregateHandback (pl_Channel p) [[EvalHandback (replay_run (pl_LastDuty p) samples)]] ["H"; "M"] in
              let note := replay_note p snaps in
              inr (t2 <| rs_Reasons := note :: rs_Reasons t2 |>, t3 <| rs_Reasons := note :: rs_Reasons t3 |>)
          end
      end
  end.

(** A replay never decides: one run without the time of the auto command. *)
Lemma replay_inconclusive pwmLog i2ecLog t2 t3 : Replay pwmLog i2ecLog = inr (t2, t3) ->
  rs_Verdict t2 = Inconclusive /\ rs_Verdict t3 = Inconclusive /\ rs_Reasons t2 <> [].
Proof.
  unfold Replay. destruct (ParsePWMTest pwmLog) as [e|p]; [done|]. destruct (ParseI2EC i2ecLog) as [e|snaps]; [done|].
  destruct (channel_samples _ _ _) as [samples|]; [|done]. intros [= <- <-]. done.
Qed.
End Replay.

Example replay_ex :
  match Replay (fun _ => None)
    (Join ["=== 06-pwm-test  Kanal 2 x ==="; "--- pwm2 = 105 (41 %)"; "--- pwm2 = 179"; "Wiederherstellung: pwm2_enable=2"] newline)
    (Join ["17:20 nach Auto"; "1802: 00 55 4a 57 57 8c   (unveraendert)"; "17:25-17:30 spaeter"; "1802: 00 55 b3 57 57 8c"; "18:00 pwm2 manuell"; "1802: 00 55 ff 57 57 8c"] newline) with
  | inr (t2, t3) => map (fun r => map (fun s => (sub_MaxDev s, sub_Left s, sub_Written s)) (rr_Subs r)) (rs_Runs t2) = [[(105, true, 179)]]
  | inl _ => False
  end.
Proof. by vm_compute. Qed.
