(* ===== verification/Runner.v ===== *)
(** The run procedure of the tests (src/internal/validate/runner.go): sampling on the
    5-second grid with the abort limits, the mapping test, the hand-back test, and
    putting every channel back.

    The machine is a type [W] with the operations of the Go interface Env ([Env]); a
    run is a computation over the runner and the machine. *)
From stdpp Require Import base gmap strings list.
From Stdlib Require Import ZArith QArith Lia.
From S2P Require Import Prelude GoLib Float64 N5Driver Verdict Handback Mapping.
Open Scope Z_scope.
Open Scope go_scope.

(** ** The machine *)
Record Readings := mkReadings {
  rd_Fan : gmap Z Z; rd_Tctl : option Q; rd_NVMeMax : option Q; rd_HDDMax : option Q; rd_ECCPU : option Q; rd_ECSys : option Q;
  rd_ECBoard : option Q; rd_ECAmb : option Q; rd_Load1 : option Q }.
(** [env_Done]: whether the context is cancelled.  An error is its text; the one of
    Restore says whether it is ErrRestoreUnverified. *)
Class Env (W : Type) := {
  env_Now : M W Z;
  env_Sleep : Z -> M W bool;
  env_Done : M W bool;
  env_EnterManual : Z -> M W (option Text);
  env_WriteDuty : Z -> Z -> M W (option Text);
  env_Auto : Z -> M W (option Text);
  env_Restore : Z -> M W (option (bool * Text));
  env_DCR : M W (Text + DCR);
  env_Read : M W Readings;
  env_Guard : option (M W (option Text)) }.

(** ** Configuration and state of a run *)
Record Config := mkConfig {
  cf_Channel : Z; cf_OwnTach : Z; cf_Tachs : list Z; cf_Hold : Z; cf_Sample : Z; cf_Observe : Z; cf_Window : Z; cf_Repeat : Z;
  cf_Settle : Z; cf_Tolerance : Z }.
Definition HandbackObserve (c : Config) : Z := cf_Observe c + SettleHoldS * Second.
Definition SettleFor (c : Config) : Z := if 0 <? cf_Settle c then cf_Settle c else SettleTime (cf_Channel c).
Definition tolerance (c : Config) : Z := if 0 <? cf_Tolerance c then cf_Tolerance c else GridTolerance.
Definition lostAfter : Z := 3.
Definition SpecConfig (ch ownTach : Z) (tachs : list Z) : Config :=
  mkConfig ch ownTach tachs (T1StepHoldS * Second) (SampleS * Second) (ObserveS * Second) (GateWindowS * Second) RunsRequired
    (SettleTime ch) GridTolerance.
Record Event := mkEvent { ev_Time : Z; ev_Text : Text }.
Record Runner := mkRunner {
  rn_Samples : list Sample; rn_Events : list Event; rn_Abort : option Text; rn_LimitSensors : string -> bool;
  rn_RestoreWarnings : list (Z * Text); rn_RestoreOverrides : gmap Z Text; rn_Gaps : Z; rn_start : Z; rn_touched : gset Z; rn_wrote : bool;
  rn_restoreErr : gmap Z Text; rn_nanRun : gmap string Z; rn_dcrErr : option Text; rn_hot : Z; rn_hotWhy : Text }.
#[export] Instance eta_Runner : Eta Runner := fun r => mkRunner (rn_Samples r) (rn_Events r) (rn_Abort r) (rn_LimitSensors r)
  (rn_RestoreWarnings r) (rn_RestoreOverrides r) (rn_Gaps r) (rn_start r) (rn_touched r) (rn_wrote r)
  (rn_restoreErr r) (rn_nanRun r) (rn_dcrErr r) (rn_hot r) (rn_hotWhy r).
Definition dcrOK (r : Runner) : bool := match rn_dcrErr r with None => true | Some _ => false end.
(** [d.Seconds()] *)
Definition Seconds (d : Z) : Q := fadd (of_int (Z.quot d Second)) (fdiv (of_int (Z.rem d Second)) (of_int Second)).

Section Run.
Context {W : Type} {En : Env W} (Cfg : Config).
Definition R (A : Type) : Type := M (Runner * W) A.
Definition env {A} (m : M W A) : R A := fun '(r, w) => let '(a, w') := m w in (a, (r, w')).
Definition getr : R Runner := gets fst.
Definition modr (f : Runner -> Runner) : R unit := modify (fun '(r, w) => (f r, w)).

Definition event (format : string) (args : list Text) : R unit :=
  let* t := env env_Now in
  modr (fun r => r <| rn_Events := rn_Events r ++ [mkEvent t (Sprintf format args)] |>).
Definition stop (reason : Text) : R unit :=
  let* r := getr in
  match rn_Abort r with
  | Some _ => ret tt
  | None => modr (fun r => r <| rn_Abort := Some reason |>) ;;; event "ABORT %s" [reason]
  end.

(** ** One sample *)
(** The limit sensors: a streak of missing values ends the run. *)
Fixpoint lost_sensors (l : list (string * option Q)) : R (option Text) :=
  match l with
  | [] => ret None
  | (name, v) :: l' =>
      let* r := getr in
      if negb (rn_LimitSensors r name) then lost_sensors l'
      else match v with
      | Some _ => modr (fun r => r <| rn_nanRun := <[name := 0]> (rn_nanRun r) |>) ;;; lost_sensors l'
      | None =>
          let n := default 0 (rn_nanRun r !! name) + 1 in
          modr (fun r => r <| rn_nanRun := <[name := n]> (rn_nanRun r) |>) ;;;
          if lostAfter <=? n
          then ret (Some (Sprintf "limit sensor %s unreadable in %d consecutive samples (its limit cannot be enforced)" [TStr name; TInt lostAfter]))
          else lost_sensors l'
      end
  end.
Definition at_limit (v : option Q) (limit : Q) : option Q := match v with Some t => if fle limit t then Some t else None | None => None end.
(** The temperature limits: the channel that cools the sensor and the reason. *)
Definition hot_sensor (rd : Readings) : option (Z * Text) :=
  match at_limit (rd_Tctl rd) LimitTctlC with
  | Some t => Some (1, Sprintf "CPU Tctl %.1f C >= %.0f C" [TFloat t; TFloat LimitTctlC])
  | None =>
      match at_limit (rd_NVMeMax rd) LimitNVMeC with
      | Some t => Some (2, Sprintf "NVMe %.1f C >= %.0f C" [TFloat t; TFloat LimitNVMeC])
      | None =>
          match at_limit (rd_HDDMax rd) LimitHDDC with
          | Some t => Some (3, Sprintf "HDD %.1f C >= %.0f C" [TFloat t; TFloat LimitHDDC])
          | None => None
          end
      end
  end.
(** A tach at 0 rpm while its duty is above 0. *)
Definition stalled (rd : Readings) (dcr : option DCR) : option Text :=
  let zero n := match rd_Fan rd !! n with
    | Some 0 => match dcr with Some d => negb (bool_decide (DCR_Channel d n = Some 0)) | None => true end
    | _ => false end in
  match List.find zero (cf_Tachs Cfg) with
  | Some n => Some (Sprintf "fan%d reports 0 rpm while its duty is > 0" [TInt n])
  | None => None
  end.
Definition sample_row (r : Runner) (now : Z) (rd : Readings) (phase : string) (written : Z) : Sample :=
  mkSample now (Seconds (now - rn_start r)) false phase (cf_Channel Cfg) written [-1; -1; -1; -1; -1]
    (map (fun n => default (-1) (rd_Fan rd !! n)) [1; 2; 3])
    (rd_ECCPU rd) (rd_ECSys rd) (rd_ECBoard rd) (rd_ECAmb rd) (rd_HDDMax rd) (rd_NVMeMax rd) (rd_Tctl rd) (rd_Load1 rd).
(** [due] = None: unscheduled. *)
Definition sample (phase : string) (written : Z) (due : option Z) : R (Sample * option Text) :=
  let* now := env env_Now in
  let* rd := env env_Read in
  let* r := getr in
  let s := sample_row r now rd phase written in
  let* s := match due with
    | None => ret s
    | Some d =>
        if Z.abs (now - d) <=? tolerance Cfg then ret (s <| sm_TS := Seconds (d - rn_start r) |>)
        else
          modr (fun r => r <| rn_Gaps := rn_Gaps r + 1 |>) ;;;
          event "gap: %s sample due %s read %+.2f s off (> %s): recorded, not judged" [TStr phase; TInt d; TFloat (Seconds (now - d)); TInt (tolerance Cfg)] ;;;
          ret (s <| sm_OffGrid := true |>)
    end in
  let* dcr := if dcrOK r then (let* d := env env_DCR in ret (match d with inr d => Some d | inl _ => None end)) else ret None in
  let s := match dcr with Some d => s <| sm_DCR := map (Reg d) [1; 2; 3; 4; 5] |> | None => s end in
  modr (fun r => r <| rn_Samples := rn_Samples r ++ [s] |>) ;;;
  let* g := match env_Guard with Some m => env m | None => ret None end in
  match g with
  | Some why => ret (s, Some (TJoin "" [TStr "another pwm writer became active: "; why]))
  | None =>
      let* lost := lost_sensors [("tctl", rd_Tctl rd); ("nvme", rd_NVMeMax rd); ("hdd", rd_HDDMax rd)] in
      match lost with
      | Some why => ret (s, Some why)
      | None =>
          match hot_sensor rd with
          | Some (ch, why) =>
              modr (fun r => if rn_hot r =? 0 then r <| rn_hot := ch |> <| rn_hotWhy := why |> else r) ;;;
              ret (s, Some why)
          | None => ret (s, stalled rd dcr)
          end
      end
  end.
Definition Sample_now (phase : string) (written : Z) : R (Sample * option Text) := sample phase written None.

(** ** A phase on the grid *)
(** The samples of the phase with their due times in seconds, and whether it was
    completed; [ks] are the slots. *)
Fixpoint hold_loop (phase : string) (written anchor : Z) (ks : list Z) : R (list (Sample * Q) * bool) :=
  match ks with
  | [] => ret ([], true)
  | k :: ks' =>
      let due := anchor + k * cf_Sample Cfg in
      let* now := env env_Now in
      if tolerance Cfg <? now - due then
        modr (fun r => r <| rn_Gaps := rn_Gaps r + 1 |>) ;;;
        event "gap: %s slot due %s skipped (the previous sample overran it by %.2f s)" [TStr phase; TInt due; TFloat (Seconds (now - due))] ;;;
        hold_loop phase written anchor ks'
      else
        let* go := if 0 <? due - now then env (env_Sleep (due - now)) else (let* d := env env_Done in ret (negb d)) in
        if negb go then stop (TStr "cancelled (signal)") ;;; ret ([], false)
        else
          let* sa := sample phase written (Some due) in
          let row := (sa.1, Seconds (k * cf_Sample Cfg)) in
          match sa.2 with
          | Some why => stop why ;;; ret ([row], false)
          | None => let* rest := hold_loop phase written anchor ks' in ret (row :: rest.1, rest.2)
          end
  end.
Definition slots (d : Z) : list Z :=
  let n := Z.quot d (cf_Sample Cfg) in
  seqZ 1 (if n <? 1 then 1 else n).
Definition hold (phase : string) (written d : Z) : R (list (Sample * Q) * bool) :=
  let* anchor := env env_Now in hold_loop phase written anchor (slots d).

(** ** Writing *)
Definition errLowDuty (duty : Z) : Text := Sprintf "validate: duty below 100 is never written (TESTSPEC §4): %d" [TInt duty].
Definition touch (ch : Z) (r : Runner) : Runner := r <| rn_touched := {[ch]} ∪ rn_touched r |>.
Definition write (ch duty : Z) : R (option Text) :=
  if (duty <? MinDuty) || (255 <? duty) then ret (Some (errLowDuty duty))
  else
    modr (fun r => touch ch r <| rn_wrote := true |>) ;;;
    let* e := env (env_WriteDuty ch duty) in
    match e with
    | Some err => event "write pwm%d=%d FAILED: %v" [TInt ch; TInt duty; err] ;;; ret e
    | None => event "write pwm%d=%d" [TInt ch; TInt duty] ;;; ret None
    end.
Definition manual (ch : Z) : R (option Text) :=
  modr (fun r => touch ch r <| rn_wrote := true |>) ;;;
  let* e := env (env_EnterManual ch) in
  match e with
  | Some err => event "pwm%d manual FAILED: %v" [TInt ch; err] ;;; ret e
  | None => event "pwm%d manual (driver sets 255)" [TInt ch] ;;; ret None
  end.
Definition auto (ch : Z) : R (option Text) :=
  modr (touch ch) ;;;
  let* e := env (env_Auto ch) in
  match e with
  | Some err => event "pwm%d auto FAILED: %v" [TInt ch; err] ;;; ret e
  | None => event "pwm%d auto (EC automatic command)" [TInt ch] ;;; ret None
  end.

(** ** Putting back *)
Definition hotChannel (r : Runner) : Z := if (rn_hot r =? 0) || negb (rn_wrote r) then 0 else rn_hot r.
Definition restored (ch : Z) (r : Runner) : Runner := r <| rn_restoreErr := delete ch (rn_restoreErr r) |>.
(** The channel of the tripped sensor goes to 255. *)
Definition restore_full (ch : Z) (when_ : string) (hotWhy : Text) : R bool :=
  let why := TJoin "" [TStr "255 (temperature abort: "; hotWhy; TStr "; TESTSPEC §4)"] in
  let* e := env (env_EnterManual ch) in
  let* e := match e with None => env (env_WriteDuty ch 255) | Some _ => ret e end in
  match e with
  | Some err =>
      event "restore pwm%d=255%s after a temperature abort FAILED: %v - set it by hand" [TInt ch; TStr when_; err] ;;;
      modr (fun r => r <| rn_restoreErr := <[ch := err]> (rn_restoreErr r) |>) ;;; ret false
  | None =>
      modr (fun r => r <| rn_RestoreOverrides := <[ch := why]> (rn_RestoreOverrides r) |>) ;;;
      event "restore pwm%d=255%s ok: %s" [TInt ch; TStr when_; why] ;;;
      modr (restored ch) ;;; ret true
  end.
Definition restore_stop (ch : Z) (when_ : string) : R bool :=
  let* e := env (env_Restore ch) in
  match e with
  | None => event "restore pwm%d%s ok" [TInt ch; TStr when_] ;;; modr (restored ch) ;;; ret true
  | Some (true, err) =>
      event "restore pwm%d%s WRITTEN, REGISTER DIFFERS: %v" [TInt ch; TStr when_; err] ;;;
      modr (fun r => r <| rn_RestoreWarnings := rn_RestoreWarnings r ++ [(ch, err)] |>) ;;; modr (restored ch) ;;; ret true
  | Some (false, err) =>
      event "restore pwm%d%s FAILED: %v - set it by hand (pwm%d_enable)" [TInt ch; TStr when_; err; TInt ch] ;;;
      modr (fun r => r <| rn_restoreErr := <[ch := err]> (rn_restoreErr r) |>) ;;; ret false
  end.
Definition restore (ch : Z) (when_ : string) : R bool :=
  let* r := getr in
  if ch =? hotChannel r then restore_full ch when_ (rn_hotWhy r) else restore_stop ch when_.
(** Restore, and forget the channel if that worked. *)
Definition put_back (ch : Z) (when_ : string) : R unit :=
  let* ok := restore ch when_ in
  if ok then modr (fun r => r <| rn_touched := rn_touched r ∖ {[ch]} |>) else ret tt.
Definition close_one (ch : Z) : R unit :=
  let* r := getr in
  if bool_decide (ch ∈ rn_touched r) then put_back ch "" else ret tt.
Definition Close : R unit :=
  modr (fun r => if 0 <? hotChannel r then touch (hotChannel r) r else r) ;;;
  iterM close_one [1; 2; 3; 4].
Definition orText (a : option Text) (b : Text) : Text := default b a.
Definition Unrestored (r : Runner) : list (Z * Text) :=
  omap (fun ch => if bool_decide (ch ∈ rn_touched r) then Some (ch, orText (rn_restoreErr r !! ch) (TStr "not restored")) else None) [1; 2; 3; 4].

(** ** The gates G3 and G4 *)
Record Gate := mkGate { ga_ID : string; ga_Condition : string; ga_Result : string; ga_Detail : Text }.
Definition G3 : string -> Text -> Gate := mkGate "G3" "load average (1 min) < 1.0".
Definition G4 : string -> Text -> Gate := mkGate "G4"
  "over 5 min: EC system (0x04), EC ambient (0x06) and HDD temperature each change < 1 C; every abort-limit sensor (Tctl, NVMe, HDD) readable; Tctl is a limit only (TESTSPEC 0.4 #20)".
Definition load_gate (load : option Q) : Gate :=
  match load with
  | None => G3 "FAIL" (TStr "load average not readable")
  | Some l => G3 (if flt l GateLoad1 then "PASS" else "FAIL") (Sprintf "load1 %.2f" [TFloat l])
  end.
Definition on_grid (rows : list (Sample * Q)) : list (Sample * Q) := List.filter (fun x => negb (sm_OffGrid x.1)) rows.
Definition Gates : R (Gate * Gate) :=
  let* r := getr in
  match rn_Abort r with
  | Some why => let d := TJoin "" [TStr "not sampled: "; why] in ret (G3 "FAIL" d, G4 "FAIL" d)
  | None =>
      let* fa := Sample_now "gate" (-1) in
      let first := fa.1 in
      let* held := match fa.2 with
        | Some why => stop why ;;; ret ([], false)
        | None => hold "gate" (-1) (cf_Window Cfg)
        end in
      let rows := first :: map fst (on_grid held.1) in
      let g3 := load_gate (sm_Load1 first) in
      let* r := getr in
      if negb held.2 then ret (g3, G4 "FAIL" (TJoin "" [TStr "window not completed: "; orText (rn_Abort r) (TStr "")]))
      else
        let ev := EvalG4 rows in
        modr (fun r => r <| rn_LimitSensors := g4_Limit ev |>) ;;;
        ret (g3, G4 (if g4_Pass ev then "PASS" else "FAIL") (Sprintf "over %s: %v" [TInt (cf_Window Cfg); TJoin " " (g4_Parts ev)]))
  end.

(** ** T1 *)
Definition regDCR (s : Sample) (n : Z) : Z :=
  match sm_DCR s !! Z.to_nat (n - 1) with
  | Some v => if (n <? 1) || (v <? 0) then -1 else v
  | None => -1
  end.
Definition chDCR (s : Sample) : Z := match ChannelDCR (cf_Channel Cfg) with Some n => regDCR s n | None => -1 end.
Definition fan_series (rows : list (Sample * Q)) : gmap Z (list Z) :=
  list_to_map (map (fun i => (Z.of_nat i + 1, map (fun x => default (-1) (sm_Fan x.1 !! i)) rows)) (if is_nil rows then [] else [0; 1; 2]%nat)).
Definition inputs (rows : list (Sample * Q)) : gmap Z (list (option Q)) :=
  list_to_map (map (fun c => (c, map (fun x => TableInput c x.1) rows)) (if is_nil rows then [] else [1; 2; 3])).
Definition lastInput (r : Runner) (ch : Z) : option Q := match last (rn_Samples r) with Some s => TableInput ch s | None => None end.
Definition errText (e : option Text) : Text := orText e (TStr "unknown").
Definition notReadable (r : Runner) : Text :=
  TJoin "" [TStr "not run: duty registers not readable ("; errText (rn_dcrErr r); TStr "); a verdict needs them, so nothing was written"].
Definition aborted (what : Text) : Text := TJoin "" [TStr "aborted: "; what].
Definition t1_step (duty : Z) (rows : list (Sample * Q)) : T1Step :=
  let ok := on_grid rows in
  mkStep duty (map (fun x => chDCR x.1) ok) (if cf_Channel Cfg =? 3 then map (fun x => regDCR x.1 4) ok else []) (fan_series ok) 0%Q
    (map snd ok) (Seconds (SettleFor Cfg)) [] (Z.of_nat (length rows - length ok)) (inputs ok).
(** The steps; an abort gives the reason. *)
Fixpoint t1_steps (duties : list Z) : R (Text + list T1Step) :=
  match duties with
  | [] => ret (inr [])
  | duty :: duties' =>
      let* e := write (cf_Channel Cfg) duty in
      match e with
      | Some err =>
          stop (TJoin "" [TStr "write failed: "; err]) ;;;
          let* r := getr in ret (inl (aborted (orText (rn_Abort r) (TStr ""))))
      | None =>
          let* held := hold (String.append "t1-" (Itoa duty)) duty (cf_Hold Cfg) in
          if negb held.2 then (let* r := getr in ret (inl (aborted (orText (rn_Abort r) (TStr "")))))
          else
            let* rest := t1_steps duties' in
            ret (match rest with inl e => inl e | inr l => inr (t1_step duty held.1 :: l) end)
      end
  end.
Definition RunT1 : R Result :=
  let ch := cf_Channel Cfg in
  let* r := getr in
  if negb (dcrOK r) then ret (NotImplemented "T1" ch (notReadable r))
  else match rn_Abort r with
  | Some why => ret (NotImplemented "T1" ch (TJoin "" [TStr "not run: "; why]))
  | None =>
      event "T1 pwm%d: rest reference" [TInt ch] ;;;
      let* rest := hold "t1-rest" (-1) (cf_Hold Cfg) in
      if negb rest.2 then (let* r := getr in ret (NotImplemented "T1" ch (aborted (orText (rn_Abort r) (TStr "")))))
      else
        let* e := manual ch in
        match e with
        | Some err => ret (NotImplemented "T1" ch (aborted (TJoin "" [TStr "manual mode failed: "; err])))
        | None =>
            let* steps := t1_steps T1Steps in
            match steps with
            | inl why => ret (NotImplemented "T1" ch why)
            | inr steps =>
                put_back ch " after T1" ;;;
                ret (EvalT1Inputs ch (cf_OwnTach Cfg) (fan_series (on_grid rest.1)) (inputs (on_grid rest.1)) steps (cf_Tachs Cfg))
            end
        end
  end.

(** ** T2 and T3 *)
(** The readings of one register, at their due times. *)
Definition reg_samples (rows : list (Sample * Q)) (n : Z) : list DCRSample :=
  omap (fun x => let v := regDCR x.1 n in if 0 <=? v then Some (mkDCR x.2 v) else None) (on_grid rows).
Definition table_inputs (rows : list (Sample * Q)) : list (option Q) := map (fun x => TableInput (cf_Channel Cfg) x.1) rows.
Definition autoA (pre : list (Sample * Q)) (n : Z) : option Z := ds_DCR <$> last (reg_samples pre n).
Definition handback_runs (label : string) (duty : Z) (pre held obs : list (Sample * Q)) (cross : option Text) : list HandbackRun :=
  let regs := JudgedRegs (cf_Channel Cfg) in
  map (fun n => mkRun label (if (1 <? length regs)%nat then String.append "DCR" (Itoa n) else "") duty (reg_samples obs n) true
    (default 0 (autoA pre n)) (match autoA pre n with Some _ => true | None => false end)
    (reg_samples held n) (Seconds (SettleFor Cfg)) cross) regs.
Definition cross_text (x : Text) : Text := TJoin "" [TStr (InputName (cf_Channel Cfg)); TStr ": "; x].
(** One sub-run: its result if it got as far as the auto command, and whether the next
    one may start. *)
Definition sub_run (rep : nat) (pre : list (Sample * Q)) (crossA : option Text) (label : string) (duty : Z) : R (option SubResult * bool) :=
  let ch := cf_Channel Cfg in
  let phase := String.append "t2-r" (String.append (Itoa (Z.of_nat rep)) (String.append "-" label)) in
  let* e := manual ch in
  match e with
  | Some err => stop (TJoin "" [TStr "manual mode failed: "; err]) ;;; ret (None, false)
  | None =>
      let* r := getr in
      let ref := lastInput r ch in
      let* e := write ch duty in
      match e with
      | Some err => stop (TJoin "" [TStr "write failed: "; err]) ;;; ret (None, false)
      | None =>
          let* held := hold (String.append phase "-hold") duty (cf_Hold Cfg) in
          if negb held.2 then ret (None, false)
          else
            let* e := auto ch in
            match e with
            | Some err => stop (TJoin "" [TStr "auto command failed: "; err]) ;;; ret (None, false)
            | None =>
                let* obs := hold (String.append phase "-auto") (-1) (HandbackObserve Cfg) in
                let cross := match crossA with
                  | Some x => Some x
                  | None => cross_text <$> Crossing ref (table_inputs held.1 ++ table_inputs obs.1) (TableSteps ch)
                  end in
                ret (Some (EvalHandbackRegs (handback_runs label duty pre held.1 obs.1 cross)), obs.2)
            end
      end
  end.
Definition repetition (rep : nat) (pre : list (Sample * Q)) (crossA : option Text) (m : Z) : R (list SubResult) :=
  let* h := sub_run rep pre crossA "H" 255 in
  if negb h.2 then ret (option_list h.1)
  else let* s := sub_run rep pre crossA "M" m in ret (option_list h.1 ++ option_list s.1).
Fixpoint repetitions (rep n : nat) (pre : list (Sample * Q)) (crossA : option Text) (m : Z) : R (list (list SubResult)) :=
  match n with
  | O => ret []
  | S n' =>
      let* subs := repetition rep pre crossA m in
      let this := if is_nil subs then [] else [subs] in
      let* r := getr in
      match rn_Abort r with
      | Some _ => ret this
      | None => let* rest := repetitions (S rep) n' pre crossA m in ret (this ++ rest)
      end
  end.
Definition both (f : string -> Result) : Result * Result := (f "T2", f "T3").
Definition RunHandback : R (Result * Result) :=
  let ch := cf_Channel Cfg in
  let* r := getr in
  if ch =? PCIeChannel then ret (both (fun id => NotApplicableResult id ch (TStr ReasonNoPCIeAuto)))
  else if negb (dcrOK r) then ret (both (fun id => NotImplemented id ch (notReadable r)))
  else match rn_Abort r with
  | Some why => ret (both (fun id => NotImplemented id ch (TJoin "" [TStr "not run: "; why])))
  | None =>
      event "T2 pwm%d: auto value A" [TInt ch] ;;;
      let* r := getr in
      let refA := lastInput r ch in
      let* e := auto ch in
      match e with
      | Some err =>
          stop (TJoin "" [TStr "auto command failed: "; err]) ;;;
          let* r := getr in ret (both (fun id => NotImplemented id ch (aborted (orText (rn_Abort r) (TStr "")))))
      | None =>
          let* pre := hold "t2-pre" (-1) (cf_Observe Cfg) in
          let regs := JudgedRegs ch in
          match negb pre.2, match head regs with Some n => autoA pre.1 n | None => None end with
          | false, Some a =>
              let crossA := (fun x => TJoin "" [TStr (InputName ch); TStr " in the window of A: "; x]) <$>
                Crossing refA (table_inputs pre.1) (TableSteps ch) in
              match crossA with
              | Some x => event "T2 pwm%d: table input crossed a step in the window of A (%s): every sub-run is INCONCLUSIVE" [TInt ch; x]
              | None => ret tt
              end ;;;
              let m := MValue a in
              event "T2 pwm%d: %s, H=255, M=%d" [TInt ch;
                TJoin ", " (map (fun n => match autoA pre.1 n with
                  | Some v => Sprintf "%s A=%d" [regName n; TInt v] | None => TJoin "" [regName n; TStr " A=-"] end) regs); TInt m] ;;;
              let* runs := repetitions 1 (Z.to_nat (cf_Repeat Cfg)) pre.1 crossA m in
              let '(t2, t3) := AggregateHandback ch runs ["H"; "M"] in
              let* r := getr in
              let '(t2, t3) := match rn_Abort r with
                | Some why => (t2 <| rs_Verdict := Inconclusive |> <| rs_Reasons := aborted why :: rs_Reasons t2 |>,
                               t3 <| rs_Verdict := Inconclusive |> <| rs_Reasons := aborted why :: rs_Reasons t3 |>)
                | None => (t2, t3)
                end in
              let vals := [("A", a); ("M", m)] ++
                (if (1 <? length regs)%nat then omap (fun n => (fun v => (String.append "A_DCR" (Itoa n), v)) <$> autoA pre.1 n) regs else []) in
              put_back ch " after T2" ;;;
              ret (t2 <| rs_Values := VInts vals |>, t3)
          | _, _ =>
              let* r := getr in
              ret (both (fun id => NotImplemented id ch (aborted (orText (rn_Abort r) (TStr "no DCR sample")))))
          end
      end
  end.

(** ** A whole run *)
Definition NewRunner : M W Runner :=
  let* t := env_Now in
  let* d := env_DCR in
  ret (mkRunner [] [] None (fun _ => false) [] ∅ 0 t ∅ false ∅ ∅ (match d with inl e => Some e | inr _ => None end) 0 (TStr "")).
End Run.
