(* ===== verification/Sim.v ===== *)
(** The model of the embedded controller behind --dry-run (src/internal/validate/sim.go),
    a machine for the runner. *)
From stdpp Require Import base gmap strings list.
From Stdlib Require Import ZArith QArith Lia.
From S2P Require Import Prelude GoLib Float64 N5Driver Verdict Handback Mapping Runner.
Open Scope Z_scope.
Open Scope go_scope.

Record pendingDuty := mkPending { pd_v : Z; pd_at : Z }.
(** Per channel 1..4 and per register 0..7; [autoAt] None: no auto command yet. *)
Record Sim := mkSim {
  sim_now : Z; sim_dcr : gmap Z Z; sim_manual : gset Z; sim_autoAt : gmap Z Z;
  sim_AutoValue : Z -> Z; sim_AutoDelay : Z -> Z; sim_KeepOnAuto : Z -> bool; sim_Oscillate : Z -> bool; sim_KeepDCR4OnAuto : bool;
  sim_StopDuty : Z -> Z; sim_RestoreErr : Z -> option (bool * Text);
  sim_Tctl : option Q; sim_NVMe : option Q; sim_HDD : option Q; sim_ECCPU : option Q; sim_ECSys : option Q; sim_ECBoard : option Q; sim_ECAmb : option Q;
  sim_Load1 : option Q; sim_NoDCR : bool; sim_Writes : Z; sim_Latency : Z -> Z; sim_pending : gmap Z pendingDuty;
  sim_SleepHook : option (Z -> Z); sim_cancelled : bool }.
#[export] Instance eta_Sim : Eta Sim := fun s => mkSim (sim_now s) (sim_dcr s) (sim_manual s) (sim_autoAt s)
  (sim_AutoValue s) (sim_AutoDelay s) (sim_KeepOnAuto s) (sim_Oscillate s) (sim_KeepDCR4OnAuto s) (sim_StopDuty s) (sim_RestoreErr s)
  (sim_Tctl s) (sim_NVMe s) (sim_HDD s) (sim_ECCPU s) (sim_ECSys s) (sim_ECBoard s) (sim_ECAmb s) (sim_Load1 s) (sim_NoDCR s) (sim_Writes s)
  (sim_Latency s) (sim_pending s) (sim_SleepHook s) (sim_cancelled s).
Definition of_list {A} (d : A) (l : list A) (ch : Z) : A := nth (Z.to_nat ch) l d.
Definition NewSim (start : Z) : Sim :=
  mkSim start (list_to_map [(1, 85); (2, 74); (3, 140); (4, 140); (5, 140)]) ∅ ∅
    (of_list 0 [0; 85; 74; 87; 140]) (of_list 0 [0; 5 * Second; 5 * Second; 10 * Second; 0]) (of_list false [false; false; false; false; true])
    (fun _ => false) false (of_list 0 [0; 0; 0; 140; 0]) (fun _ => None)
    (Some 40%Q) (Some 45%Q) (Some 38%Q) (Some 37%Q) (Some 33%Q) (Some 27%Q) (Some 22%Q) (Some (round64 (2 # 10))) false 0 (fun _ => 0) ∅ None false.

(** Duty to rpm, per tach. *)
Definition simCurves (f : Z) : list (Q * Q) :=
  match f with
  | 1 => [(85, 2020); (140, 3120); (179, 3830); (217, 4445); (255, 5073)]%Q
  | 2 => [(74, 2170); (140, 3280); (179, 3790); (217, 4230); (255, 4687)]%Q
  | 3 => [(87, 1237); (105, 1650); (140, 2250); (179, 2725); (217, 3160); (255, 3540)]%Q
  | _ => []
  end.
Fixpoint interp_rest (a : Q * Q) (c : list (Q * Q)) (x : Q) : Q :=
  match c with
  | [] => a.2
  | b :: c' => if fle x b.1 then fadd a.2 (fdiv (fmul (fsub b.2 a.2) (fsub x a.1)) (fsub b.1 a.1)) else interp_rest b c' x
  end.
Definition interp (c : list (Q * Q)) (x : Q) : Q :=
  match c with
  | [] => 0%Q
  | p :: c' => if fle x p.1 then fdiv (fmul p.2 x) p.1 else interp_rest p c' x
  end.

Definition dcrIndex (ch : Z) : Z := default 0 (ChannelDCR ch).
Definition setDCR (ch v : Z) (s : Sim) : Sim :=
  let s := s <| sim_dcr := <[dcrIndex ch := v]> (sim_dcr s) |> in
  if ch =? 3 then s <| sim_dcr := <[4 := v]> (sim_dcr s) |> else s.
Definition settle_pending (s : Sim) (ch : Z) : Sim :=
  match sim_pending s !! ch with
  | Some p => if pd_at p <=? sim_now s then setDCR ch (pd_v p) s <| sim_pending := delete ch (sim_pending s) |> else s
  | None => s
  end.
Definition settle_auto (s : Sim) (ch : Z) : Sim :=
  if bool_decide (ch ∈ sim_manual s) || sim_KeepOnAuto s ch then s
  else match sim_autoAt s !! ch with
  | None => s
  | Some t =>
      let el := sim_now s - t in
      if el <? sim_AutoDelay s ch then s
      else
        let v := sim_AutoValue s ch + (if sim_Oscillate s ch && (Z.rem (Z.quot el (5 * Second)) 2 =? 1) then 20 else 0) in
        if (ch =? 3) && sim_KeepDCR4OnAuto s then s <| sim_dcr := <[3 := v]> (sim_dcr s) |>
        else setDCR ch v s
  end.
Definition settle (s : Sim) : Sim := fold_left settle_auto [1; 2; 3; 4] (fold_left settle_pending [1; 2; 3; 4] s).
Definition setLater (ch v : Z) (s : Sim) : Sim :=
  if sim_Latency s ch <=? 0 then setDCR ch v s
  else s <| sim_pending := <[ch := mkPending v (sim_now s + sim_Latency s ch)]> (sim_pending s) |>.
Definition Sleep (d : Z) (s : Sim) : bool * Sim :=
  if sim_cancelled s then (false, s)
  else
    let d := match sim_SleepHook s with Some h => h d | None => d end in
    (true, settle (s <| sim_now := sim_now s + d |>)).
Definition EnterManual (ch : Z) (s : Sim) : option Text * Sim :=
  if (ch <? 1) || (4 <? ch) then (Some (Sprintf "sim: no pwm%d" [TInt ch]), s)
  else if bool_decide (ch ∈ sim_manual s) then (None, s)
  else (None, setLater ch 255 (s <| sim_manual := {[ch]} ∪ sim_manual s |>)).
Definition WriteDuty (ch duty : Z) (s : Sim) : option Text * Sim :=
  if bool_decide (ch ∈ sim_manual s) then (None, setLater ch duty (s <| sim_Writes := sim_Writes s + 1 |>))
  else (Some (Sprintf "sim: pwm%d not in manual mode (EBUSY)" [TInt ch]), s).
Definition Auto (ch : Z) (s : Sim) : option Text * Sim :=
  (None, settle (s <| sim_manual := sim_manual s ∖ {[ch]} |> <| sim_pending := delete ch (sim_pending s) |>
                   <| sim_autoAt := <[ch := sim_now s]> (sim_autoAt s) |>)).
(** An error of [Auto], [EnterManual] or [WriteDuty] is not ErrRestoreUnverified. *)
Definition plain (e : option Text) : option (bool * Text) := (fun t => (false, t)) <$> e.
Definition Restore (ch : Z) (s : Sim) : option (bool * Text) * Sim :=
  match sim_RestoreErr s ch with
  | Some e => (Some e, s)
  | None =>
      let stop := sim_StopDuty s ch in
      if stop =? 0 then let '(e, s) := Auto ch s in (plain e, s)
      else
        let '(e, s) := EnterManual ch s in
        match e with
        | Some _ => (plain e, s)
        | None => let '(e, s) := WriteDuty ch stop s in (plain e, s)
        end
  end.
Definition byte (v : Z) : Z := v mod 256.
Definition DCR_sim (s : Sim) : (Text + DCR) * Sim :=
  if sim_NoDCR s then (inl (TStr "sim: debugfs dcr not present"), s)
  else (inr ([0; 255] ++ map (fun i => byte (default 0 (sim_dcr s !! i))) (seqZ 0 8) ++ replicate 6 0), s).
Definition Read (s : Sim) : Readings * Sim :=
  (mkReadings (list_to_map (map (fun f => (f, to_int (fround (interp (simCurves f) (of_int (default 0 (sim_dcr s !! f))))))) [1; 2; 3]))
     (sim_Tctl s) (sim_NVMe s) (sim_HDD s) (sim_ECCPU s) (sim_ECSys s) (sim_ECBoard s) (sim_ECAmb s) (sim_Load1 s), s).
#[export] Instance sim_env : Env Sim := {|
  env_Now := fun s => (sim_now s, s); env_Sleep := Sleep; env_Done := fun s => (sim_cancelled s, s);
  env_EnterManual := EnterManual; env_WriteDuty := WriteDuty; env_Auto := Auto; env_Restore := Restore;
  env_DCR := DCR_sim; env_Read := Read; env_Guard := None |}.

(** ** Rehearsals *)
Definition whole (cfg : Config) (s : Sim) : (Gate * Gate * Result * (Result * Result)) * (Runner * Sim) :=
  let '(r, s) := NewRunner s in
  (let* g := Gates cfg in let* t1 := RunT1 cfg in let* t23 := RunHandback cfg in Close ;;; ret (g, t1, t23)) (r, s).
Definition verdicts (x : (Gate * Gate * Result * (Result * Result)) * (Runner * Sim)) : list string * list Verdict * nat * list (Z * Text) :=
  let '((g3, g4, t1, (t2, t3)), (r, _)) := x in
  ([ga_Result g3; ga_Result g4], [rs_Verdict t1; rs_Verdict t2; rs_Verdict t3], length (rn_Samples r), Unrestored r).
