(* ===== verification/RunnerSafe.v ===== *)
(** What a test run does to the machine: every channel is put back or reported, a limit
    ends the run, and no duty below 100 is written.

    The machine is described by what its operations do to a channel ([Machine]). *)
From stdpp Require Import base gmap strings list.
From Stdlib Require Import ZArith QArith Lia.
From S2P Require Import Prelude GoLib Float64 N5Driver Verdict Handback Mapping Runner Sim.
Open Scope Z_scope.
Open Scope go_scope.

(** A command uses the runner in any order and closes it at the end. *)
Inductive Step := SGates | ST1 | SHandback | SSample (phase : string) (written : Z) | SStop (reason : Text).
Section Procedure.
Context {W : Type} {En : Env W} (Cfg : Config).
Definition do_step (s : Step) : M (Runner * W) unit :=
  match s with
  | SGates => Gates Cfg ;;; ret tt
  | ST1 => RunT1 Cfg ;;; ret tt
  | SHandback => RunHandback Cfg ;;; ret tt
  | SSample phase written => Sample_now Cfg phase written ;;; ret tt
  | SStop reason => stop reason
  end.
Definition procedure (steps : list Step) (w : W) : Runner * W :=
  let '(r, w) := NewRunner w in ((iterM do_step steps ;;; Close) (r, w)).2.
End Procedure.

(** ** Walking through a run *)
(** [leads P Q m]: from every state in [P], [m] ends in [Q]. *)
Definition leads {S A} (P Q : S -> Prop) (m : M S A) : Prop := forall s, P s -> Q (m s).2.
Lemma leads_bind {S A B} (P R Q : S -> Prop) (m : M S A) (k : A -> M S B) :
  leads P R m -> (forall a, leads R Q (k a)) -> leads P Q (bind m k).
Proof. intros Hm Hk s Hs. unfold bind. specialize (Hm s Hs). destruct (m s) as [a s1]. by apply Hk. Qed.
Lemma leads_weak {S A} (P Q : S -> Prop) (m : M S A) : (forall s, P s -> Q s) -> preserves P m -> leads P Q m.
Proof. intros H Hm s Hs. by apply H, Hm. Qed.
Lemma preserves_env {W A} (J : Runner * W -> Prop) (m : M W A) :
  (forall r w, J (r, w) -> J (r, (m w).2)) -> preserves J (env m).
Proof. intros H [r w] Hw. unfold env. specialize (H r w Hw). by destruct (m w). Qed.
Lemma preserves_modr {W} (J : Runner * W -> Prop) f : (forall r w, J (r, w) -> J (f r, w)) -> preserves J (modr f).
Proof. intros H [r w] Hw. by apply H. Qed.

(** A change of the runner that concerns no channel. *)
Definition quiet (f : Runner -> Runner) : Prop := forall r, rn_touched (f r) = rn_touched r /\ rn_wrote (f r) = rn_wrote r /\
  rn_hot (f r) = rn_hot r /\ rn_RestoreOverrides (f r) = rn_RestoreOverrides r /\ rn_RestoreWarnings (f r) = rn_RestoreWarnings r.
Definition set_hot (ch : Z) (why : Text) (r : Runner) : Runner := if rn_hot r =? 0 then r <| rn_hot := ch |> <| rn_hotWhy := why |> else r.
(** What readings keep; what the commands to channel [ch] keep. *)
Class Watch {W} {En : Env W} (J : Runner * W -> Prop) : Prop := {
  wt_Now : preserves J (env env_Now); wt_Sleep d : preserves J (env (env_Sleep d)); wt_Done : preserves J (env env_Done);
  wt_DCR : preserves J (env env_DCR); wt_Read : preserves J (env env_Read);
  wt_Guard m : env_Guard = Some m -> preserves J (env m);
  wt_quiet f : quiet f -> preserves J (modr f) }.
Class Hot {W} (J : Runner * W -> Prop) : Prop := wt_hot ch why : 1 <= ch <= 3 -> preserves J (modr (set_hot ch why)).
Class Command {W} {En : Env W} (ch : Z) (J : Runner * W -> Prop) : Prop := {
  cd_write d : preserves J (write ch d); cd_manual : preserves J (manual ch); cd_auto : preserves J (auto ch) }.

Create HintDb run discriminated.
(** Walk through a computation of the runner. *)
Ltac run_step :=
  match goal with
  | |- preserves _ getr => unfold getr; apply preserves_gets
  | |- preserves _ (if negb ?x then _ else _) => destruct x eqn:?; cbn [negb]
  | |- _ => prs_step
  | |- preserves _ _ => solve [auto 3 with run nocore]
  end.
Ltac run := repeat run_step.

Section Walk.
Context {W : Type} {En : Env W} (Cfg : Config) (J : Runner * W -> Prop) `{!Watch J}.
Lemma hot_channels rd ch why : hot_sensor rd = Some (ch, why) -> 1 <= ch <= 3.
Proof. unfold hot_sensor. repeat (destruct (at_limit _ _); [by intros [= <- _]|]). done. Qed.
Hint Resolve wt_Now wt_Sleep wt_Done wt_DCR wt_Read : run.
Hint Extern 3 (preserves _ (modr _)) => (apply wt_quiet; by intros []) : run.
Lemma walk_event f a : preserves J (event f a).
Proof. unfold event. run. Qed.
Hint Resolve walk_event : run.
Lemma walk_stop t : preserves J (stop t).
Proof. unfold stop. run. Qed.
Lemma walk_lost l : preserves J (lost_sensors l : R _).
Proof. induction l as [|[n [v|]] l IH]; cbn [lost_sensors]; run; exact IH. Qed.
Lemma walk_guard : preserves J (match env_Guard with Some m => env m | None => ret None end).
Proof. destruct env_Guard as [m|] eqn:E; [|apply preserves_ret]. by apply wt_Guard. Qed.
Hint Resolve walk_stop walk_lost walk_guard : run.
Context `{!Hot J}.
Lemma walk_sample p wr d : preserves J (sample Cfg p wr d).
Proof.
  unfold sample. apply preserves_bind; [run|]. intros now. apply preserves_bind; [run|]. intros rd. apply preserves_bind; [run|]. intros r.
  cbv zeta. apply preserves_bind; [run|]. intros s. apply preserves_bind; [run|]. intros dcr. cbv zeta. apply preserves_bind; [run|]. intros _.
  apply preserves_bind; [apply walk_guard|]. intros [why|]; [run|]. apply preserves_bind; [run|]. intros [why|]; [run|].
  destruct (hot_sensor rd) as [[ch why]|] eqn:E; [|run]. apply preserves_bind; [|run]. by eapply wt_hot, hot_channels.
Qed.
Hint Resolve walk_sample : run.
Lemma walk_hold_loop p wr a ks : preserves J (hold_loop Cfg p wr a ks).
Proof. induction ks as [|k ks IH]; cbn [hold_loop]; run; exact IH. Qed.
Hint Resolve walk_hold_loop : run.
Lemma walk_hold p wr d : preserves J (hold Cfg p wr d).
Proof. unfold hold. run. Qed.
Hint Resolve walk_hold : run.
Lemma walk_Gates : preserves J (Gates Cfg).
Proof. unfold Gates, Sample_now. run. Qed.

Context `{!Command (cf_Channel Cfg) J}.
Hint Resolve cd_write cd_manual cd_auto : run.
Lemma walk_t1_steps l : preserves J (t1_steps Cfg l).
Proof. induction l as [|d l IH]; cbn [t1_steps]; run; exact IH. Qed.
Lemma walk_sub_run rep pre c l d : preserves J (sub_run Cfg rep pre c l d).
Proof. unfold sub_run. run. Qed.
Hint Resolve walk_sub_run : run.
Lemma walk_repetitions rep n pre c m : preserves J (repetitions Cfg rep n pre c m).
Proof. revert rep. induction n as [|n IH]; intros rep; cbn [repetitions]; unfold repetition; run; apply IH. Qed.
End Walk.

(** A test that takes the channel ([J] to [K]) and puts it back ([K] to [J]). *)
Section Tests.
Context {W : Type} {En : Env W} (Cfg : Config) (J K : Runner * W -> Prop) `{!Watch J, !Hot J, !Watch K, !Hot K, !Command (cf_Channel Cfg) K}.
Hypotheses (KJ : forall s, K s -> J s) (Hmanual : leads J K (manual (cf_Channel Cfg))) (Hauto : leads J K (auto (cf_Channel Cfg)))
  (Hput : forall t, leads K J (put_back (cf_Channel Cfg) t)).
Hint Resolve walk_event walk_stop walk_hold walk_t1_steps walk_repetitions : run.
Lemma tests_T1 : preserves J (RunT1 Cfg).
Proof.
  unfold RunT1. apply preserves_bind; [run|]. intros r. destruct (dcrOK r); cbn [negb]; [|run]. destruct (rn_Abort r); [run|].
  apply preserves_bind; [run|]. intros _. apply preserves_bind; [run|]. intros rest. destruct (rest.2); cbn [negb]; [|run].
  eapply leads_bind; [exact Hmanual|]. intros [err|]; [apply leads_weak; [done|run]|]. eapply leads_bind; [apply (walk_t1_steps Cfg K)|].
  intros [why|steps]; [apply leads_weak; [done|run]|]. eapply leads_bind; [apply Hput|]. intros _. apply preserves_ret.
Qed.
Lemma tests_Handback : preserves J (RunHandback Cfg).
Proof.
  unfold RunHandback. apply preserves_bind; [run|]. intros r. destruct (_ =? _); [run|]. destruct (dcrOK r); cbn [negb]; [|run].
  destruct (rn_Abort r); [run|]. apply preserves_bind; [run|]. intros _. apply preserves_bind; [run|]. intros r1. cbv zeta.
  eapply leads_bind; [exact Hauto|]. intros [err|]; [apply leads_weak; [done|run]|].
  eapply leads_bind; [apply (walk_hold Cfg K)|]. intros pre. destruct (negb pre.2); [apply leads_weak; [done|run]|].
  destruct (match head _ with Some _ => _ | None => _ end) as [a|]; [|apply leads_weak; [done|run]].
  eapply leads_bind; [apply (leads_weak K K); [done|run]|]. intros _. eapply leads_bind; [apply (walk_event K)|]. intros _.
  eapply leads_bind; [apply (walk_repetitions Cfg K)|]. intros runs. destruct (AggregateHandback _ _ _) as [t2 t3].
  eapply leads_bind; [exact (preserves_gets K fst)|]. intros r2. destruct (rn_Abort r2); (eapply leads_bind; [apply Hput|]; intros _; apply preserves_ret).
Qed.
End Tests.

(** A whole procedure, closed at the end, if closing one channel keeps [J]. *)
Section Whole.
Context {W : Type} {En : Env W} (Cfg : Config) (J K : Runner * W -> Prop) `{!Watch J, !Hot J, !Watch K, !Hot K, !Command (cf_Channel Cfg) K}.
Hypotheses (KJ : forall s, K s -> J s) (Hmanual : leads J K (manual (cf_Channel Cfg))) (Hauto : leads J K (auto (cf_Channel Cfg)))
  (Hput : forall t, leads K J (put_back (cf_Channel Cfg) t)).
Lemma whole_step s : preserves J (do_step Cfg s).
Proof.
  destruct s; cbn [do_step].
  - apply preserves_bind; [by apply walk_Gates|]. intros _. apply preserves_ret.
  - apply preserves_bind; [by apply (tests_T1 Cfg J K)|]. intros _. apply preserves_ret.
  - apply preserves_bind; [by apply (tests_Handback Cfg J K)|]. intros _. apply preserves_ret.
  - apply preserves_bind; [by apply walk_sample|]. intros _. apply preserves_ret.
  - by apply walk_stop.
Qed.
Lemma whole_steps steps : preserves J (iterM (do_step Cfg) steps).
Proof. apply preserves_iterM, whole_step. Qed.
End Whole.
Lemma new_runner {W} {En : Env W} (w : W) : exists t e, NewRunner w =
  (mkRunner [] [] None (fun _ => false) [] ∅ 0 t ∅ false ∅ ∅ e 0 (TStr ""), (env_DCR (env_Now w).2).2).
Proof.
  unfold NewRunner, bind. destruct (env_Now w) as [t w1]. cbn. destruct (env_DCR w1) as [d w2]. by exists t, (match d with inl e => Some e | inr _ => None end).
Qed.

(** ** Keeping a property of the machine *)
(** A property that every operation of the machine keeps, a write only of a duty in
    100..255. *)
Class Keeps {W} (En : Env W) (I : W -> Prop) : Prop := {
  kp_Now : preserves I env_Now; kp_Sleep d : preserves I (env_Sleep d); kp_Done : preserves I env_Done;
  kp_EnterManual ch : preserves I (env_EnterManual ch);
  kp_WriteDuty ch d : MinDuty <= d <= 255 -> preserves I (env_WriteDuty ch d);
  kp_Auto ch : preserves I (env_Auto ch); kp_Restore ch : preserves I (env_Restore ch);
  kp_DCR : preserves I env_DCR; kp_Read : preserves I env_Read;
  kp_Guard m : env_Guard = Some m -> preserves I m }.
Section Keep.
Context {W : Type} {En : Env W} (Cfg : Config) (I : W -> Prop) `{!Keeps En I}.
Definition on_machine (s : Runner * W) : Prop := I s.2.
Lemma keep_env {A} (m : M W A) : preserves I m -> preserves on_machine (env m).
Proof. intros H. apply preserves_env. intros r w. apply H. Qed.
#[local] Instance keep_watch : Watch on_machine.
Proof. split; intros; try apply keep_env; first [apply kp_Now|apply kp_Sleep|apply kp_Done|apply kp_DCR|apply kp_Read|by apply kp_Guard|by apply preserves_modr]. Qed.
#[local] Instance keep_hot : Hot on_machine.
Proof. intros ch why _. by apply preserves_modr. Qed.
Hint Resolve walk_event keep_watch : run.
Hint Extern 2 (preserves _ (modr _)) => by apply preserves_modr : run.
Hint Extern 2 (preserves _ (env _)) => (apply keep_env; first [apply kp_EnterManual|apply kp_Auto|apply kp_Restore]) : run.
#[local] Instance keep_command ch : Command ch on_machine.
Proof.
  split; [intros d|..]; unfold write, manual, auto; [|run|run]. destruct (_ || _) eqn:E; [run|]. apply orb_false_iff in E as [E1 E2].
  apply preserves_bind; [run|]. intros _. apply preserves_bind; [|run]. apply keep_env, kp_WriteDuty. lia.
Qed.
Lemma keep_put_back ch t : preserves on_machine (put_back ch t : R _).
Proof.
  unfold put_back, restore, restore_full, restore_stop. apply preserves_bind; [|run]. apply preserves_bind; [unfold getr; apply preserves_gets|]. intros r.
  destruct (_ =? _); [|run]. cbv zeta. apply preserves_bind; [run|]. intros e.
  apply preserves_bind; [destruct e; [run|]; apply keep_env, kp_WriteDuty; unfold MinDuty; lia|]. run.
Qed.
Hint Resolve keep_put_back : run.
Lemma keep_Close : preserves on_machine (Close : R _).
Proof. unfold Close, close_one. run. Qed.

(** what a test run may do to the machine.  A property of the machine that reading,
    switching a channel to manual or automatic and restoring it keep, and that a write
    keeps if its duty is in 100..255, holds after every run in whatever order the
    command samples, checks the gates and runs the tests, however they end: no duty
    below 100 is ever written, whatever the automatic values read back and whatever
    errors and limits come up. *)
Theorem run_keeps (steps : list Step) (w : W) : I w -> I (procedure Cfg steps w).2.
Proof.
  intros Hw. unfold procedure. destruct (new_runner w) as (t & e & ->).
  set (r := mkRunner _ _ _ _ _ _ _ _ _ _ _ _ _ _ _). assert (H : on_machine (r, (env_DCR (env_Now w).2).2)) by (apply kp_DCR; by apply kp_Now).
  pose proof (preserves_bind on_machine _ (fun _ => Close) (whole_steps Cfg on_machine on_machine (fun _ H => H) cd_manual cd_auto (keep_put_back _) steps) (fun _ => keep_Close)) as Hall.
  exact (Hall _ H).
Qed.
End Keep.

(** ** Putting every channel back *)
(** What the operations do to the channels: [stopped ch] - the channel is in its stop
    state -, [full ch] - it is at 255.  A command to one channel leaves the others
    alone, a reading leaves all alone; Restore without an error reaches the stop state, a
    write of 255 without an error reaches 255.  [valid]: what the machine keeps anyway. *)
Class Machine {W} (En : Env W) (valid : W -> Prop) (stopped full : Z -> W -> Prop) : Prop := {
  mc_valid_read : preserves valid env_Now /\ (forall d, preserves valid (env_Sleep d)) /\ preserves valid env_Done /\
    preserves valid env_DCR /\ preserves valid env_Read /\ (forall m, env_Guard = Some m -> preserves valid m);
  mc_valid ch : preserves valid (env_EnterManual ch) /\ (forall d, preserves valid (env_WriteDuty ch d)) /\
    preserves valid (env_Auto ch) /\ preserves valid (env_Restore ch);
  mc_read Q ch : Q = stopped \/ Q = full -> preserves (Q ch) env_Now /\ (forall d, preserves (Q ch) (env_Sleep d)) /\ preserves (Q ch) env_Done /\
    preserves (Q ch) env_DCR /\ preserves (Q ch) env_Read /\ (forall m, env_Guard = Some m -> preserves (Q ch) m);
  mc_other Q ch ch' : Q = stopped \/ Q = full -> ch <> ch' -> preserves (Q ch) (env_EnterManual ch') /\ (forall d, preserves (Q ch) (env_WriteDuty ch' d)) /\
    preserves (Q ch) (env_Auto ch') /\ preserves (Q ch) (env_Restore ch');
  mc_restored ch w w' : valid w -> env_Restore ch w = (None, w') -> stopped ch w';
  mc_full ch w w' : valid w -> env_WriteDuty ch 255 w = (None, w') -> full ch w' }.

Section Restores.
Context {W : Type} {En : Env W} (Cfg : Config) (valid : W -> Prop) (stopped full : Z -> W -> Prop) `{!Machine En valid stopped full}.
Implicit Types (s : Runner * W) (r : Runner) (w : W) (ch : Z).
(** In its stop state, left at 255 on purpose, or reported as written but different. *)
Definition accounted ch s : Prop := stopped ch s.2 \/ (full ch s.2 /\ exists why, rn_RestoreOverrides s.1 !! ch = Some why) \/
  exists e, (ch, e) ∈ rn_RestoreWarnings s.1.
Definition touched ch s : Prop := ch ∈ rn_touched s.1.
Definition fine s : Prop := valid s.2 /\ 0 <= rn_hot s.1 <= 3 /\ forall ch, 1 <= ch <= 4 -> touched ch s \/ accounted ch s.
(** The channel of the tripped sensor, while the others are put back. *)
Definition hot_kept (g : bool) (h ch : Z) s : Prop :=
  hotChannel s.1 = h /\ (g = true -> h <> ch -> 0 < h -> touched h s \/ full h s.2).
Definition taken ch s : Prop := fine s /\ touched ch s.

(** An operation that keeps what is known of a channel keeps that it is accounted for. *)
Lemma accounted_env {A} ch (m : M W A) : preserves (stopped ch) m -> preserves (full ch) m -> preserves (accounted ch) (env m).
Proof.
  intros H1 H2. apply preserves_env. intros r w [H|[[H ?]|H]]; [left; by apply H1|right; left; split; [by apply H2|done]|by right; right].
Qed.
Lemma kept_env {A} g h ch (m : M W A) : (h <> ch -> preserves (full h) m) -> preserves (hot_kept g h ch) (env m).
Proof.
  intros H. apply preserves_env. intros r w [H1 H2]. split; [done|]. intros Hg Hne Hp. destruct (H2 Hg Hne Hp) as [?|?]; [by left|right; by apply H].
Qed.
Lemma fine_env {A} ch (m : M W A) : preserves valid m -> (forall ch', ch' <> ch -> preserves (stopped ch') m /\ preserves (full ch') m) -> preserves (taken ch) (env m).
Proof.
  intros Hv H [r w] [(Hw & Hh & Hf) Ht]. specialize (Hv w Hw). assert (Hacc : forall ch', ch' <> ch -> accounted ch' (r, w) -> accounted ch' (env m (r, w)).2).
  { intros ch' Hne Ha. destruct (H ch' Hne). by apply accounted_env. }
  unfold env in *. destruct (m w) as [a w']. split; [|exact Ht]. split; [exact Hv|]. split; [exact Hh|]. intros ch' Hc. destruct (decide (ch' = ch)) as [->|Hne]; [by left|].
  destruct (Hf ch' Hc) as [?|?]; [by left|right; auto].
Qed.
Definition idle_read {A} (m : M W A) : Prop := preserves valid m /\ forall Q ch, Q = stopped \/ Q = full -> preserves (Q ch) m.
Lemma idle_all : idle_read env_Now /\ (forall d, idle_read (env_Sleep d)) /\ idle_read env_Done /\ idle_read env_DCR /\ idle_read env_Read /\
  forall m, env_Guard = Some m -> idle_read m.
Proof.
  destruct mc_valid_read as (V1 & V2 & V3 & V4 & V5 & V6). unfold idle_read.
  split_and!; intros; first [by auto|by apply mc_read|split; [by auto|intros; by apply mc_read]].
Qed.
Lemma watch_of (J : Runner * W -> Prop) : (forall A (m : M W A), idle_read m -> preserves J (env m)) -> (forall f, quiet f -> preserves J (modr f)) -> Watch J.
Proof. intros H1 H2. destruct idle_all as (I1 & I2 & I3 & I4 & I5 & I6). split; intros; auto. Qed.
#[local] Instance watch_accounted ch : Watch (accounted ch).
Proof.
  apply watch_of; [intros A m Hm; apply accounted_env; apply (proj2 Hm); auto|]. intros f Hf. apply preserves_modr. intros r w.
  destruct (Hf r) as (_ & _ & _ & E1 & E2). unfold accounted. cbn. by rewrite E1, E2.
Qed.
#[local] Instance watch_fine : Watch fine.
Proof.
  apply watch_of.
  - intros A m Hm [r w] (Hv & Hh & Hf). pose proof (proj1 Hm w Hv) as Hv'. assert (Hacc : forall ch', accounted ch' (r, w) -> accounted ch' (env m (r, w)).2).
    { intros ch'. apply accounted_env; apply (proj2 Hm); auto. }
    unfold env in *. destruct (m w) as [a w']. split; [exact Hv'|]. split; [exact Hh|]. intros ch Hc. destruct (Hf ch Hc); [by left|right; auto].
  - intros f Hq. apply preserves_modr. intros r w. destruct (Hq r) as (E1 & _ & E2 & E3 & E4). unfold fine, touched, accounted. cbn. by rewrite E1, E2, E3, E4.
Qed.
#[local] Instance watch_and (P Q : Runner * W -> Prop) : Watch P -> Watch Q -> Watch (fun s => P s /\ Q s).
Proof. intros [] []. split; intros; apply preserves_and; auto. Qed.
#[local] Instance watch_touched ch : Watch (touched ch).
Proof.
  apply watch_of; [intros A m _; by apply preserves_env|]. intros f Hq. apply preserves_modr. intros r w. destruct (Hq r) as (E & _). unfold touched. cbn. by rewrite E.
Qed.
#[local] Instance watch_taken ch : Watch (taken ch).
Proof. unfold taken. apply _. Qed.
#[local] Instance watch_kept g h ch : Watch (hot_kept g h ch).
Proof.
  apply watch_of; [intros A m Hm; apply kept_env; intros _; apply (proj2 Hm); auto|]. intros f Hq. apply preserves_modr. intros r w.
  destruct (Hq r) as (E1 & E2 & E3 & _). unfold hot_kept, touched, hotChannel. cbn. by rewrite E1, E2, E3.
Qed.
#[local] Instance watch_full ch : Watch (fun s => full ch s.2).
Proof. apply watch_of; [intros A m Hm; apply preserves_env; intros r w; apply (proj2 Hm); auto|]. intros f _. by apply preserves_modr. Qed.
Lemma set_hot_same ch why r : rn_touched (set_hot ch why r) = rn_touched r /\ rn_RestoreOverrides (set_hot ch why r) = rn_RestoreOverrides r /\
  rn_RestoreWarnings (set_hot ch why r) = rn_RestoreWarnings r /\ (rn_hot (set_hot ch why r) = rn_hot r \/ rn_hot (set_hot ch why r) = ch).
Proof. unfold set_hot. destruct (_ =? _); [|auto]. destruct r. cbn. auto. Qed.
#[local] Instance hot_fine : Hot fine.
Proof.
  intros ch why Hc. apply preserves_modr. intros r w (Hv & Hh & Hf). destruct (set_hot_same ch why r) as (E1 & E2 & E3 & E4).
  unfold fine, touched, accounted in *. cbn in *. rewrite E1, E2, E3. split; [done|]. split; [destruct E4 as [-> | ->]; lia|done].
Qed.
#[local] Instance hot_taken ch : Hot (taken ch).
Proof.
  intros c why Hc. apply preserves_and; [by apply hot_fine|]. apply preserves_modr. intros r w. unfold touched. cbn. by destruct (set_hot_same c why r) as (-> & _).
Qed.
Lemma touch_taken ch f : (forall r, rn_touched (f r) = {[ch]} ∪ rn_touched r /\ rn_hot (f r) = rn_hot r /\
    rn_RestoreOverrides (f r) = rn_RestoreOverrides r /\ rn_RestoreWarnings (f r) = rn_RestoreWarnings r) -> leads fine (taken ch) (modr f).
Proof.
  intros H [r w] (Hv & Hh & Hf). destruct (H r) as (E1 & E2 & E3 & E4). unfold taken, fine, touched, accounted in *. cbn in *. rewrite E1, E2, E3, E4.
  split; [|set_solver]. split; [done|]. split; [done|]. intros ch' Hc. destruct (Hf ch' Hc); [left; set_solver|by right].
Qed.
Lemma command_env ch : preserves (taken ch) (env (env_EnterManual ch)) /\ (forall d, preserves (taken ch) (env (env_WriteDuty ch d))) /\
  preserves (taken ch) (env (env_Auto ch)) /\ preserves (taken ch) (env (env_Restore ch)).
Proof.
  assert (H : forall Q ch', Q = stopped \/ Q = full -> ch' <> ch -> preserves (Q ch') (env_EnterManual ch) /\ (forall d, preserves (Q ch') (env_WriteDuty ch d)) /\
    preserves (Q ch') (env_Auto ch) /\ preserves (Q ch') (env_Restore ch)) by (intros Q ch' HQ Hne; by apply mc_other).
  destruct (mc_valid ch) as (V1 & V2 & V3 & V4).
  split_and!; intros; (apply fine_env; [auto|]); intros ch' Hne; split; apply H; auto.
Qed.
Hint Resolve walk_event watch_taken : run.
Lemma taken_manual ch : leads fine (taken ch) (manual ch).
Proof.
  unfold manual. eapply leads_bind; [apply touch_taken; by intros []|]. intros _. apply (preserves_bind (taken ch)); [apply command_env|]. run.
Qed.
Lemma taken_auto ch : leads fine (taken ch) (auto ch).
Proof.
  unfold auto. eapply leads_bind; [apply touch_taken; by intros []|]. intros _. apply (preserves_bind (taken ch)); [apply command_env|]. run.
Qed.
Lemma taken_fine ch s : taken ch s -> fine s.
Proof. by intros [? _]. Qed.
#[local] Instance command_taken ch : Command ch (taken ch).
Proof.
  split; [intros d|intros s Hs; by apply taken_manual, (taken_fine ch)|intros s Hs; by apply taken_auto, (taken_fine ch)].
  unfold write. destruct (_ || _); [run|]. intros s Hs%taken_fine. revert s Hs. change (leads fine (taken ch) (modr (fun r => touch ch r <| rn_wrote := true |>) ;;;
    let* e := env (env_WriteDuty ch d) in match e with
      | Some err => event "write pwm%d=%d FAILED: %v" [TInt ch; TInt d; err] ;;; ret e
      | None => event "write pwm%d=%d" [TInt ch; TInt d] ;;; ret None end)).
  eapply leads_bind; [apply touch_taken; by intros []|]. intros _. apply (preserves_bind (taken ch)); [apply command_env|]. run.
Qed.

(** *** Restoring *)
Definition put g h ch s : Prop := taken ch s /\ hot_kept g h ch s.
#[local] Instance watch_put g h ch : Watch (put g h ch).
Proof. unfold put. apply _. Qed.
Lemma put_env {A} g h ch (m : M W A) : preserves (taken ch) (env m) -> (h <> ch -> preserves (full h) m) -> preserves (put g h ch) (env m).
Proof. intros H1 H2. apply preserves_and; [done|by apply kept_env]. Qed.
Lemma put_env_cmd g h ch : preserves (put g h ch) (env (env_EnterManual ch)) /\ (forall d, preserves (put g h ch) (env (env_WriteDuty ch d))) /\
  preserves (put g h ch) (env (env_Restore ch)).
Proof.
  destruct (command_env ch) as (H1 & H2 & _ & H3). split_and!; intros; apply put_env; try done; intros Hne; eapply mc_other; auto.
Qed.
(** After an operation that worked. *)
Definition after g h ch s : Prop := put g h ch s /\ accounted ch s /\ (ch = h -> full ch s.2).
#[local] Instance watch_after g h ch : Watch (after g h ch).
Proof.
  apply watch_and; [apply _|]. apply watch_and; [apply _|].
  apply watch_of; [intros A m Hm; apply preserves_env; intros r w H E; by apply (proj2 Hm); auto|]. intros f _. by apply preserves_modr.
Qed.
Definition restore_ok g h ch (ok : bool) s : Prop := if ok then after g h ch s else put g h ch s.
Lemma triple_of {A B} (P : Runner * W -> Prop) (m : R B) (Q : A -> Runner * W -> Prop) (a : A) : preserves P m -> (forall s, P s -> Q a s) ->
  triple P (m ;;; ret a) Q.
Proof. intros H HQ. apply (triple_bind _ _ _ (fun _ => P)); [exact H|]. intros _. by apply triple_ret. Qed.
Hint Resolve watch_after watch_put : run.
Lemma finish_ok g h ch (m : R unit) : preserves (after g h ch) m -> triple (after g h ch) (m ;;; modr (restored ch) ;;; ret true) (restore_ok g h ch).
Proof.
  intros H. apply (triple_bind _ _ _ (fun _ => after g h ch)); [exact H|]. intros _. apply triple_of; [|done]. apply wt_quiet. by intros [].
Qed.
Lemma finish_failed g h ch (m : R unit) err : preserves (put g h ch) m ->
  triple (put g h ch) (m ;;; modr (fun r => r <| rn_restoreErr := <[ch := err]> (rn_restoreErr r) |>) ;;; ret false) (restore_ok g h ch).
Proof.
  intros H. apply (triple_bind _ _ _ (fun _ => put g h ch)); [exact H|]. intros _. apply triple_of; [|done]. apply wt_quiet. by intros [].
Qed.
Lemma restore_full_spec g ch t why : triple (put g ch ch) (restore_full ch t why) (restore_ok g ch ch).
Proof.
  destruct (put_env_cmd g ch ch) as (HM & HW & _). unfold restore_full. cbv zeta.
  apply (triple_bind _ _ _ (fun _ => put g ch ch)); [exact HM|]. intros e.
  apply (triple_bind _ _ _ (fun e s => put g ch ch s /\ (e = None -> full ch s.2))).
  { destruct e as [err|]; [by apply triple_ret|]. intros s Hs. split; [by apply HW|]. destruct s as [r w]. unfold env.
    destruct (env_WriteDuty ch 255 w) as [e' w'] eqn:E. cbn. intros ->. eapply mc_full; [|done]. apply Hs. }
  intros [err|].
  - apply (triple_conseq _ (put g ch ch) _ _ (restore_ok g ch ch)); [|by intros s [? _]|done]. apply finish_failed. run.
  - apply (triple_bind _ _ _ (fun _ => after g ch ch)); [|intros _; apply finish_ok; run].
    intros [r w] [Hp Hf]. cbn in *. specialize (Hf eq_refl). destruct Hp as [[(Hv & H1 & H2) H3] H4]. split_and!; [split; [split; [split; [done|split; [done|]]|done]|done]| |done].
    + intros c Hc. destruct (H2 c Hc) as [?|[?|[[? [w0 Hw0]]|?]]]; [by left|right; by left| |right; by right; right].
      right. right. left. split; [done|]. cbn. destruct (decide (c = ch)) as [->|Hn]; [rewrite lookup_insert_eq; eauto|rewrite lookup_insert_ne by done; eauto].
    + right. left. split; [done|]. cbn. rewrite lookup_insert_eq. eauto.
Qed.
Lemma restore_stop_spec g h ch t : ch <> h -> triple (put g h ch) (restore_stop ch t) (restore_ok g h ch).
Proof.
  intros Hne. destruct (put_env_cmd g h ch) as (_ & _ & HR). unfold restore_stop.
  apply (triple_bind _ _ _ (fun e s => put g h ch s /\ (e = None -> stopped ch s.2))).
  { intros s Hs. split; [by apply HR|]. destruct s as [r w]. unfold env. destruct (env_Restore ch w) as [e' w'] eqn:E. cbn. intros ->. eapply mc_restored; [|done]. apply Hs. }
  intros [[[] err]|].
  - apply (triple_bind _ _ _ (fun _ => put g h ch)); [intros s [Hs _]; by apply (walk_event (put g h ch))|]. intros _.
    apply (triple_bind _ _ _ (fun _ => after g h ch)); [|intros _; apply triple_of; [apply wt_quiet; by intros []|done]].
    intros [r w] [[(Hv & H1 & H2) H3] H4]. split_and!; [split; [split; [split; [done|split; [done|]]|done]|done]| |done].
    + intros c Hc. destruct (H2 c Hc) as [?|[?|[?|[e0 He0]]]]; [by left|right; by left|right; right; by left|].
      right. right. right. exists e0. cbn. apply elem_of_app. by left.
    + right. right. exists err. cbn. apply elem_of_app. right. by left.
  - apply (triple_conseq _ (put g h ch) _ _ (restore_ok g h ch)); [|by intros s [? _]|done]. apply finish_failed. run.
  - apply (triple_conseq _ (after g h ch) _ _ (restore_ok g h ch)); [apply finish_ok; run| |done].
    intros s [Hp Hst]. split; [done|]. split; [left; auto|done].
Qed.
Lemma restore_spec g h ch t s : put g h ch s -> restore_ok g h ch (restore ch t s).1 (restore ch t s).2.
Proof.
  intros Hs. unfold restore, bind, getr, gets. assert (Hh : hotChannel s.1 = h) by apply Hs. rewrite Hh. destruct (Z.eqb_spec ch h) as [<-|Hne].
  - by apply restore_full_spec.
  - by apply restore_stop_spec.
Qed.
Definition kept g h s : Prop := hotChannel s.1 = h /\ (g = true -> 0 < h -> touched h s \/ full h s.2).
Lemma put_back_spec g h ch t s : put g h ch s -> let s' := (put_back ch t s).2 in fine s' /\ kept g h s'.
Proof.
  intros Hs. unfold put_back, bind. pose proof (restore_spec g h ch t s Hs) as H. destruct (restore ch t s) as [[] [r w]]; cbn in H |- *.
  - destruct H as ([[(Hv & H1 & H2) H3] [H4 H5]] & Hacc & Hfull). split; [split; [done|split; [done|]]|split; [done|]].
    + intros c Hc. destruct (decide (c = ch)) as [->|Hne]; [by right|]. destruct (H2 c Hc) as [Ht|Ha]; [|by right].
      left. unfold touched in *. cbn in *. set_solver.
    + intros Hg Hp. destruct (decide (h = ch)) as [->|Hne]; [right; by apply Hfull|]. destruct (H5 Hg Hne Hp) as [Ht|?]; [|by right].
      left. unfold touched in *. cbn in *. set_solver.
  - destruct H as [[Hf Ht] [H4 H5]]. split; [done|]. split; [done|]. intros Hg Hp. destruct (decide (h = ch)) as [->|Hne]; [by left|auto].
Qed.
Lemma put_back_fine ch t : leads (taken ch) fine (put_back ch t).
Proof. intros s Hs. by apply (put_back_spec false (hotChannel s.1) ch t s). Qed.
Lemma close_one_spec h ch : preserves (fun s => fine s /\ kept true h s) (close_one ch).
Proof.
  intros s [Hf [Hh Hk]]. unfold close_one, bind, getr, gets. destruct (bool_decide_reflect (ch ∈ rn_touched s.1)) as [Ht|Ht]; [|done].
  apply (put_back_spec true h ch "" s). split; [done|]. split; [done|]. intros _ _. by apply Hk.
Qed.
Lemma close_spec s : fine s -> let s' := (Close s).2 in fine s' /\ kept true (hotChannel s'.1) s'.
Proof.
  intros Hf. destruct s as [r w]. set (r1 := if 0 <? hotChannel r then touch (hotChannel r) r else r).
  assert (H1 : hotChannel r1 = hotChannel r) by (unfold r1; by destruct (0 <? hotChannel r)).
  assert (H : fine (r1, w) /\ kept true (hotChannel r) (r1, w)).
  { split; [|split; [done|]].
    - destruct Hf as (Hv & Hh & Hf). unfold r1, fine, touched, accounted in *. cbn in *. destruct (0 <? hotChannel r); [|done]. cbn. split; [done|]. split; [done|].
      intros c Hc. destruct (Hf c Hc); [left; set_solver|by right].
    - intros _ Hp. left. unfold r1, touched. cbn. destruct (Z.ltb_spec 0 (hotChannel r)); [|lia]. cbn. set_solver. }
  pose proof (preserves_iterM _ close_one [1; 2; 3; 4] (close_one_spec (hotChannel r)) _ H) as Hc. change (Close (r, w)) with (iterM close_one [1; 2; 3; 4] (r1, w)).
  destruct (iterM close_one [1; 2; 3; 4] (r1, w)) as [u s']. cbn in *. destruct Hc as [Hc1 [Hc2 Hc3]]. split; [done|]. by rewrite Hc2.
Qed.
Lemma unrestored_in r ch : 1 <= ch <= 4 -> ch ∈ rn_touched r -> ch ∈ map fst (Unrestored r).
Proof.
  intros Hc Ht. unfold Unrestored. apply list_elem_of_fmap. eexists (ch, _). split; [done|]. apply list_elem_of_omap. exists ch. split.
  - assert (Hin : ch ∈ seqZ 1 4) by (apply elem_of_seqZ; lia). exact Hin.
  - by rewrite bool_decide_eq_true_2.
Qed.

End Restores.

(** ** A limit ends the run *)
Section Limit.
Context {W : Type} {En : Env W} (Cfg : Config).
Implicit Types (s : Runner * W).
Definition is_aborted s : Prop := rn_Abort s.1 <> None.
Lemma event_abort f a s : rn_Abort (event f a s).2.1 = rn_Abort s.1.
Proof. destruct s as [r w]. unfold event, bind, env. by destruct (env_Now w). Qed.
Lemma stop_aborts t s : is_aborted (stop t s).2.
Proof.
  unfold is_aborted, stop, bind, getr, gets. destruct (rn_Abort s.1) eqn:E; [cbn; by rewrite E|]. destruct s as [r w]. cbn [modr modify]. by rewrite event_abort.
Qed.
Lemma hold_aborts p wr d : triple (fun _ => True) (hold Cfg p wr d) (fun res s => res.2 = false -> is_aborted s).
Proof.
  unfold hold. apply (triple_bind _ _ _ (fun _ _ => True)); [done|]. intros a. generalize (slots Cfg d) as ks.
  induction ks as [|k ks IH]; cbn [hold_loop]; [by apply triple_ret|]. apply (triple_bind _ _ _ (fun _ _ => True)); [done|]. intros now.
  destruct (_ <? _).
  - apply (triple_bind _ _ _ (fun _ _ => True)); [done|]. intros _. apply (triple_bind _ _ _ (fun _ _ => True)); [done|]. intros _. exact IH.
  - apply (triple_bind _ _ _ (fun _ _ => True)); [done|]. intros go. destruct go; cbn [negb].
    + apply (triple_bind _ _ _ (fun _ _ => True)); [done|]. intros [s1 [why|]]; cbv zeta; cbn [snd fst].
      * apply (triple_bind _ _ _ (fun _ s => is_aborted s)); [intros s _; apply stop_aborts|]. intros _. by apply triple_ret.
      * eapply triple_bind; [exact IH|]. intros rest. by apply triple_ret.
    + apply (triple_bind _ _ _ (fun _ s => is_aborted s)); [intros s _; apply stop_aborts|]. intros _. by apply triple_ret.
Qed.
Lemma bind_reason {A} (m : M (Runner * W) A) (k : A -> M (Runner * W) (Sample * option Text)) s :
  (forall a s', (k a s').1.2 <> None) -> (bind m k s).1.2 <> None.
Proof. intros Hk. unfold bind. destruct (m s). apply Hk. Qed.
(** A sample that reads a sensor at its limit says why the run stops. *)
Lemma sample_hot p wr d s : hot_sensor (env_Read (env_Now s.2).2).1 <> None -> (sample Cfg p wr d s).1.2 <> None.
Proof.
  intros Hh. destruct s as [r w]. cbn [snd] in Hh. unfold sample. unfold bind at 1. unfold env at 1. destruct (env_Now w) as [now w1]. cbn [snd] in Hh.
  unfold bind at 1. unfold env at 1. destruct (env_Read w1) as [rd w2]. cbn [fst] in Hh.
  apply bind_reason; intros r1 s1. cbv zeta. apply bind_reason; intros s2 s3. apply bind_reason; intros dcr s4.
  apply bind_reason; intros _ s5. apply bind_reason; intros g s6. destruct g; [done|].
  apply bind_reason; intros lost s7. destruct lost; [done|].
  destruct (hot_sensor rd) as [[ch why]|]; [|done]. by apply bind_reason.
Qed.
(** The values of a recorded sample, as the limits see them. *)
Definition row_readings (x : Sample) : Readings :=
  mkReadings ∅ (sm_Tctl x) (sm_NVMeMax x) (sm_HDDMax x) (sm_ECCPU x) (sm_ECSys x) (sm_ECBoard x) (sm_ECAmb x) (sm_Load1 x).
Definition row_hot (x : Sample) : bool := match hot_sensor (row_readings x) with Some _ => true | None => false end.
Definition cool (l : list Sample) : Prop := Forall (fun x => row_hot x = false) l.
(** A run that goes on: no sample is at a limit.  One that ended: at most the last is. *)
Definition running s : Prop := rn_Abort s.1 = None /\ cool (rn_Samples s.1).
Definition last_hot s : Prop := cool (removelast (rn_Samples s.1)).
Definition ended s : Prop := is_aborted s /\ last_hot s.
Lemma cool_removelast l : cool l -> cool (removelast l).
Proof. intros H. destruct l as [|x l _] using rev_ind; [done|]. rewrite removelast_last. by apply Forall_app in H as [H _]. Qed.

(** What says nothing but the reason and the samples is kept by everything but a sample
    and [stop]. *)
Class Blind (J : Runner * W -> Prop) : Prop :=
  blind r r' w w' : rn_Abort r' = rn_Abort r -> rn_Samples r' = rn_Samples r -> J (r, w) -> J (r', w').
#[local] Instance blind_running : Blind running.
Proof. intros r r' w w' E1 E2 H. unfold running in *. cbn in *. by rewrite E1, E2. Qed.
#[local] Instance blind_ended : Blind ended.
Proof. intros r r' w w' E1 E2 H. unfold ended, is_aborted, last_hot in *. cbn in *. by rewrite E1, E2. Qed.
Section Blindly.
Context (J : Runner * W -> Prop) `{!Blind J}.
Lemma blind_env {A} (m : M W A) : preserves J (env m).
Proof. apply preserves_env. intros r w. by apply blind. Qed.
Lemma blind_modr f : (forall r, rn_Abort (f r) = rn_Abort r /\ rn_Samples (f r) = rn_Samples r) -> preserves J (modr f).
Proof. intros H. apply preserves_modr. intros r w. by apply blind; apply H. Qed.
Hint Resolve blind_env : run.
Hint Extern 3 (preserves _ (modr _)) => (apply blind_modr; intros r; repeat case_match; by destruct r) : run.
Lemma blind_event f a : preserves J (event f a).
Proof. unfold event. run. Qed.
Hint Resolve blind_event : run.
Lemma blind_write ch d : preserves J (write ch d).
Proof. unfold write. run. Qed.
Lemma blind_manual ch : preserves J (manual ch).
Proof. unfold manual. run. Qed.
Lemma blind_auto ch : preserves J (auto ch).
Proof. unfold auto. run. Qed.
Lemma blind_put_back ch t : preserves J (put_back ch t).
Proof. unfold put_back, restore, restore_full, restore_stop. run. Qed.
Hint Resolve blind_put_back : run.
Lemma blind_Close : preserves J Close.
Proof. unfold Close, close_one. run. Qed.
Lemma blind_lost l : preserves J (lost_sensors l : R _).
Proof. induction l as [|[n [v|]] l IH]; cbn [lost_sensors]; run; exact IH. Qed.
End Blindly.

(** A sample adds one row, with the values read, and keeps the reason. *)
Definition same_but (a : option Text) (l : list Sample) s : Prop := rn_Abort s.1 = a /\ rn_Samples s.1 = l.
#[local] Instance blind_same a l : Blind (same_but a l).
Proof. intros r r' w w' E1 E2 [H1 H2]. unfold same_but. cbn in *. by rewrite E1, E2. Qed.
Lemma sample_row p wr d s :
  let rd := (env_Read (env_Now s.2).2).1 in let out := sample Cfg p wr d s in
  same_but (rn_Abort s.1) (rn_Samples s.1 ++ [out.1.1]) out.2 /\ hot_sensor (row_readings out.1.1) = hot_sensor rd.
Proof.
  destruct s as [r w]. cbn [fst snd]. set (a := rn_Abort r). set (l := rn_Samples r).
  set (Q := fun rd (out : (Sample * option Text) * (Runner * W)) =>
    same_but a (l ++ [out.1.1]) out.2 /\ hot_sensor (row_readings out.1.1) = hot_sensor rd).
  change (Q (env_Read (env_Now w).2).1 (sample Cfg p wr d (r, w))).
  unfold sample. unfold bind at 1. unfold env at 1. destruct (env_Now w) as [now w1]. cbn [snd].
  unfold bind at 1. unfold env at 1. destruct (env_Read w1) as [rd w2]. cbn [fst]. unfold Q. clear Q.
  assert (H0 : same_but a l (r, w2)) by done. revert H0. generalize (r, w2) as s0. intros s0 H0.
  set (row_of := fun (x : Sample) => hot_sensor (row_readings x) = hot_sensor rd).
  match goal with |- context [?m s0] => assert (H : triple (same_but a l) m (fun xw s => same_but a (l ++ [xw.1]) s /\ row_of xw.1)); [|exact (H s0 H0)] end.
  apply (triple_bind _ _ _ (fun _ => same_but a l)); [by intros s Hs|]. intros r1. cbv zeta.
  apply (triple_bind _ _ _ (fun x s => same_but a l s /\ row_of x)).
  { destruct d as [d|]; [|by apply triple_ret]. destruct (_ <=? _); [by apply triple_ret|].
    apply (triple_bind _ _ _ (fun _ => same_but a l)); [by apply blind_modr; [apply _|]; intros []|]. intros _.
    apply (triple_bind _ _ _ (fun _ => same_but a l)); [by apply blind_event; apply _|]. intros _. by apply triple_ret. }
  intros x. apply (triple_bind _ _ _ (fun _ s => same_but a l s /\ row_of x)).
  { intros s [Hs Hx]. destruct (dcrOK r1); [|done]. split; [|done]. exact (preserves_bind _ _ _ (blind_env (same_but a l) _) (fun _ => preserves_ret _ _) s Hs). }
  intros dcr. cbv zeta. set (x' := match dcr with Some _ => _ | None => _ end).
  apply (triple_bind _ _ _ (fun _ s => same_but a (l ++ [x']) s /\ row_of x')).
  { intros [r2 w'] [[Hs1 Hs2] Hx]. cbn in Hs1, Hs2. split; [|by destruct dcr]. split; [done|]. cbn. by rewrite Hs2. }
  intros _. assert (Hk : forall A (m : R A) (k : A -> R (Sample * option Text)),
    preserves (same_but a (l ++ [x'])) m -> (forall b, triple (fun s => same_but a (l ++ [x']) s /\ row_of x') (k b) (fun xw s => same_but a (l ++ [xw.1]) s /\ row_of xw.1)) ->
    triple (fun s => same_but a (l ++ [x']) s /\ row_of x') (bind m k) (fun xw s => same_but a (l ++ [xw.1]) s /\ row_of xw.1)).
  { intros A m k Hm Hk'. apply (triple_bind _ _ _ (fun _ s => same_but a (l ++ [x']) s /\ row_of x')); [|done]. intros s [Hs Hx]. split; [|done]. by apply Hm. }
  apply Hk; [destruct env_Guard; [by apply blind_env; apply _|apply preserves_ret]|]. intros [why|]; [by apply triple_ret|].
  apply Hk; [by apply blind_lost; apply _|]. intros [why|]; [by apply triple_ret|]. destruct (hot_sensor rd) as [[ch why]|]; [|by apply triple_ret].
  apply Hk; [|intros _; by apply triple_ret]. apply blind_modr; [apply _|]. intros []; cbn. by destruct (_ =? 0).
Qed.
Lemma row_hot_iff x rd : hot_sensor (row_readings x) = hot_sensor rd -> (row_hot x = true <-> hot_sensor rd <> None).
Proof. intros E. unfold row_hot. rewrite E. by destruct (hot_sensor rd). Qed.
Lemma sample_running p wr d : triple running (sample Cfg p wr d) (fun xw s => if xw.2 is Some _ then last_hot s else running s).
Proof.
  intros s [Ha Hc]. destruct (sample_row p wr d s) as [[H1 H2] H3]. pose proof (sample_hot p wr d s) as H4.
  destruct (sample Cfg p wr d s) as [[x why] s'] eqn:E. cbn [fst snd] in *. destruct why as [why|].
  - unfold last_hot. rewrite H2. by rewrite removelast_last.
  - split; [congruence|]. rewrite H2. apply Forall_app. split; [done|]. constructor; [|done]. apply row_hot_iff in H3.
    destruct (row_hot x); [|done]. by destruct (H4 (proj1 H3 eq_refl)).
Qed.
Lemma running_last s : running s -> last_hot s.
Proof. intros [_ H]. by apply cool_removelast. Qed.
Lemma stop_ends t : leads last_hot ended (stop t).
Proof.
  intros s Hs. split; [apply stop_aborts|]. unfold last_hot, stop, bind, getr, gets in *. destruct (rn_Abort s.1) as [why|] eqn:E; [done|].
  destruct s as [r w]. cbn [modr modify]. unfold event, bind, env. by destruct (env_Now w).
Qed.
Lemma leads_triple (P Q : Runner * W -> Prop) {A} (m : R A) : leads P Q m -> triple P m (fun _ => Q).
Proof. intros H s Hs. specialize (H s Hs). by destruct (m s). Qed.

(** [onward ok s]: the run goes on exactly if [ok]. *)
Definition onward (ok : bool) s : Prop := if ok then running s else ended s.
Definition settled s : Prop := running s \/ ended s.
Lemma onward_settled ok s : onward ok s -> settled s.
Proof. destruct ok; [by left|by right]. Qed.
#[local] Instance blind_settled : Blind settled.
Proof. intros r r' w w' E1 E2 [H|H]; [left|right]; by eapply blind. Qed.
Lemma stop_not_onward {A} t (a : A) (f : A -> bool) : f a = false -> triple last_hot (stop t ;;; ret a) (fun res => onward (f res)).
Proof. intros E. apply (triple_bind _ _ _ (fun _ => ended)); [apply leads_triple, stop_ends|]. intros _. apply triple_ret. by rewrite E. Qed.
(** One step that only a sample or [stop] could end. *)
Lemma quietly {A B} (P : Runner * W -> Prop) (m : R A) (k : A -> R B) Q :
  preserves P m -> (forall a, triple P (k a) Q) -> triple P (bind m k) Q.
Proof. intros Hm. apply triple_bind. apply leads_triple. exact Hm. Qed.
Hint Resolve blind_env blind_event blind_write blind_manual blind_auto blind_put_back blind_running blind_ended blind_settled : run.
Hint Extern 3 (preserves _ (modr _)) => (apply blind_modr; [apply _|by intros []]) : run.
Lemma hold_onward p wr d : triple running (hold Cfg p wr d) (fun res => onward res.2).
Proof.
  unfold hold. apply quietly; [run|]. intros a. generalize (slots Cfg d) as ks.
  induction ks as [|k ks IH]; cbn [hold_loop]; [by apply triple_ret|]. apply quietly; [run|]. intros now. destruct (_ <? _).
  - apply quietly; [run|]. intros _. apply quietly; [run|]. intros _. exact IH.
  - apply quietly; [run|]. intros go. destruct go; cbn [negb].
    + eapply triple_bind; [apply sample_running|]. intros [x [why|]]; cbn [fst snd]; [by apply (stop_not_onward _ _ snd)|].
      eapply triple_bind; [exact IH|]. intros rest. by apply triple_ret.
    + eapply triple_conseq; [by apply (stop_not_onward _ ([], false) snd)|exact running_last|done].
Qed.
Lemma stop_running {A} t (k : unit -> R A) Q : (forall u, triple ended (k u) Q) -> triple running (bind (stop t) k) Q.
Proof. apply triple_bind. apply leads_triple. intros s Hs. by apply stop_ends, running_last. Qed.
Lemma ended_getr {A} (k : Runner -> R A) Q : (forall r, triple ended (k r) Q) -> triple ended (bind getr k) Q.
Proof. apply quietly. unfold getr. apply preserves_gets. Qed.
Lemma t1_onward l : triple running (t1_steps Cfg l) (fun res => onward (match res with inr _ => true | inl _ => false end)).
Proof.
  induction l as [|d l IH]; cbn [t1_steps]; [by apply triple_ret|]. apply quietly; [run|]. intros [err|].
  - apply stop_running. intros _. apply ended_getr. intros r. by apply triple_ret.
  - eapply triple_bind; [apply hold_onward|]. intros held. cbv beta. destruct (held.2); cbn [negb onward].
    + eapply triple_bind; [exact IH|]. intros [e|rest]; cbv beta; by apply triple_ret.
    + apply ended_getr. intros r. by apply triple_ret.
Qed.
Lemma RunT1_settled : triple running (RunT1 Cfg) (fun _ => settled).
Proof.
  unfold RunT1. apply quietly; [run|]. intros r. destruct (negb _); [apply triple_ret; by left|]. destruct (rn_Abort r); [apply triple_ret; by left|].
  apply quietly; [run|]. intros _. eapply triple_bind; [apply hold_onward|]. intros rest. cbv beta. destruct (rest.2); cbn [negb onward].
  2:{ apply ended_getr. intros r1. apply triple_ret. by right. }
  apply quietly; [run|]. intros [err|]; [apply triple_ret; by left|]. eapply triple_bind; [apply t1_onward|].
  intros [why|steps]; [apply triple_ret; by right|]. apply quietly; [run|]. intros _. apply triple_ret. by left.
Qed.
Lemma sub_run_onward rep pre c l d : triple running (sub_run Cfg rep pre c l d) (fun res => onward res.2).
Proof.
  unfold sub_run. apply quietly; [run|]. intros [err|]; [apply stop_running; intros _; by apply triple_ret|].
  apply quietly; [run|]. intros r. cbv zeta. apply quietly; [run|]. intros [err|]; [apply stop_running; intros _; by apply triple_ret|].
  eapply triple_bind; [apply hold_onward|]. intros held. cbv beta. destruct (held.2); cbn [negb onward]; [|by apply triple_ret].
  apply quietly; [run|]. intros [err|]; [apply stop_running; intros _; by apply triple_ret|].
  eapply triple_bind; [apply hold_onward|]. intros obs. by apply triple_ret.
Qed.
Lemma repetitions_settled rep n pre c m : triple running (repetitions Cfg rep n pre c m) (fun _ => settled).
Proof.
  revert rep. induction n as [|n IH]; intros rep; cbn [repetitions]; [apply triple_ret; by left|].
  apply (triple_bind _ _ _ (fun _ => settled)).
  - unfold repetition. eapply triple_bind; [apply sub_run_onward|]. intros h. cbv beta. destruct (h.2); cbn [negb onward]; [|apply triple_ret; by right].
    eapply triple_bind; [apply sub_run_onward|]. intros s. apply triple_ret. apply onward_settled.
  - intros subs. cbv zeta. intros s [Hs|Hs]; unfold bind, getr, gets; cbn.
    + rewrite (proj1 Hs). pose proof (IH (S rep) s Hs) as H. cbn in H. by destruct (repetitions _ _ _ _ _ _ s).
    + destruct (rn_Abort s.1) eqn:E; [by right|]. by destruct (proj1 Hs).
Qed.
Lemma RunHandback_settled : triple running (RunHandback Cfg) (fun _ => settled).
Proof.
  unfold RunHandback. apply quietly; [run|]. intros r. destruct (_ =? _); [apply triple_ret; by left|].
  destruct (negb (dcrOK r)); [apply triple_ret; by left|]. destruct (rn_Abort r); [apply triple_ret; by left|].
  apply quietly; [run|]. intros _. apply quietly; [run|]. intros r1. cbv zeta. apply quietly; [run|]. intros [err|].
  { apply stop_running. intros _. apply ended_getr. intros r2. apply triple_ret. by right. }
  eapply triple_bind; [apply hold_onward|]. intros pre. set (Q := fun (_ : Result * Result) => settled).
  assert (Hend : forall b k, triple (onward b) (let* r := getr in ret (k r)) Q).
  { intros b k s Hs. by eapply onward_settled. }
  cbv beta. destruct (pre.2) eqn:Epre; cbn [negb]; [|apply Hend]. destruct (match head _ with Some _ => _ | None => _ end) as [a|]; [|apply Hend].
  apply quietly; [cbn [onward]; run|]. intros _. apply quietly; [cbn [onward]; run|]. intros _. eapply triple_bind; [apply repetitions_settled|].
  intros runs. destruct (AggregateHandback _ _ _) as [t2 t3]. apply quietly; [run|]. intros r2. destruct (rn_Abort r2); (apply quietly; [run|]; intros _; by apply triple_ret).
Qed.
Lemma Gates_settled : triple running (Gates Cfg) (fun _ => settled).
Proof.
  unfold Gates. apply quietly; [run|]. intros r. destruct (rn_Abort r); [apply triple_ret; by left|]. unfold Sample_now.
  eapply triple_bind; [apply sample_running|]. intros [x why]; cbn [fst snd].
  apply (triple_bind _ _ _ (fun held => onward held.2)).
  - destruct why as [why|]; [by apply (stop_not_onward _ _ snd)|apply hold_onward].
  - intros held. cbv zeta. apply quietly; [unfold getr; apply preserves_gets|]. intros r2. cbv beta. destruct (held.2); cbn [negb onward].
    + apply quietly; [run|]. intros _. apply triple_ret. by left.
    + apply triple_ret. by right.
Qed.
(** The steps of a command other than a sample of its own. *)
Definition own_steps (steps : list Step) : Prop := Forall (fun st => match st with SSample _ _ => False | _ => True end) steps.
Lemma aborted_steps steps s : own_steps steps -> is_aborted s -> (iterM (do_step Cfg) steps s).2 = s.
Proof.
  intros Hs Ha. induction Hs as [|st steps H Hs IH]; [done|]. cbn [iterM]. unfold bind at 1.
  assert (E : (do_step Cfg st s).2 = s); [|destruct (do_step Cfg st s) as [u s1]; cbn in E; by subst s1].
  unfold is_aborted in Ha. destruct (rn_Abort s.1) as [why|] eqn:E; [|done]. destruct s as [r w]. cbn [fst] in E.
  destruct st; [..|done|]; cbn [do_step]; unfold RunT1, RunHandback, Gates, stop, bind, getr, gets, ret; cbn [fst]; rewrite E; repeat case_match; by simplify_eq.
Qed.
Lemma steps_settled steps : own_steps steps -> triple settled (iterM (do_step Cfg) steps) (fun _ => settled).
Proof.
  intros Hs. induction Hs as [|st steps H Hs IH]; cbn [iterM]; [by apply triple_ret|]. apply (triple_bind _ _ _ (fun _ => settled)); [|by intros _].
  intros s [Hr|He].
  - destruct st; [..|done|]; cbn [do_step].
    + pose proof (Gates_settled s Hr) as H'. unfold bind. by destruct (Gates Cfg s).
    + pose proof (RunT1_settled s Hr) as H'. unfold bind. by destruct (RunT1 Cfg s).
    + pose proof (RunHandback_settled s Hr) as H'. unfold bind. by destruct (RunHandback Cfg s).
    + right. by apply stop_ends, running_last.
  - right. pose proof (aborted_steps [st] s) as E. cbn [iterM] in E. unfold bind at 1 in E. destruct (do_step Cfg st s) as [u s1]. cbn in *.
    rewrite E; [done|by constructor|apply He].
Qed.
(** The first reason stays, whatever the command does next. *)
Lemma reason_stays why steps s : rn_Abort s.1 = Some why -> rn_Abort (iterM (do_step Cfg) steps s).2.1 = Some why.
Proof.
  revert s. induction steps as [|st steps IH]; intros s Hs; [done|]. cbn [iterM]. unfold bind at 1.
  assert (E : rn_Abort (do_step Cfg st s).2.1 = Some why); [|destruct (do_step Cfg st s) as [u s1]; by apply IH].
  destruct st as [| | |p wr|t].
  4:{ cbn [do_step]. unfold Sample_now, bind. destruct (sample_row p wr None s) as [[H1 _] _]. destruct (sample Cfg p wr None s). cbn in *. by rewrite H1. }
  all: match goal with |- context [do_step Cfg ?st] => pose proof (aborted_steps [st] s) as H end; cbn [iterM] in H; unfold bind at 1 in H;
    destruct (do_step Cfg _ s) as [u s1]; cbn in *; rewrite H; [done|by constructor|unfold is_aborted; by rewrite Hs].
Qed.

(** C19: a limit ends the run.  In a run of gates and tests, in any order and however
    they end, the values of every recorded sample are below the temperature limits,
    except perhaps those of the last one, and then the run has its reason to stop.  In
    detail, from every state: a sample records the values read, and if one of them is at
    its limit it gives a reason; a reason of a sample - a limit, a sensor lost, a stalled
    fan, another writer - ends the phase at this slot, with no further slot read; a phase
    that is cut short leaves the reason in the runner; the first reason stays, whatever
    the command does next; and from then on no test and no gate does anything at all: the
    runner and the machine stay as they are, whatever the configuration. *)
Theorem limit_ends_run steps w : own_steps steps ->
  (let '(r, w') := procedure Cfg steps w in
   forall pre x post, rn_Samples r = pre ++ x :: post -> row_hot x = true -> post = [] /\ rn_Abort r <> None) /\
  forall s,
  (forall p wr d, let rd := (env_Read (env_Now s.2).2).1 in let '((x, why), s') := sample Cfg p wr d s in
     rn_Samples s'.1 = rn_Samples s.1 ++ [x] /\ (row_hot x = true <-> hot_sensor rd <> None) /\ (row_hot x = true -> why <> None)) /\
  (forall p wr a k ks x why s1 s2, let due := a + k * cf_Sample Cfg in let '(now, w1) := env_Now s.2 in
     now - due <= tolerance Cfg ->
     (if 0 <? due - now then env (env_Sleep (due - now)) else (let* d := env env_Done in ret (negb d))) (s.1, w1) = (true, s1) ->
     sample Cfg p wr (Some due) s1 = ((x, Some why), s2) ->
     hold_loop Cfg p wr a (k :: ks) s = (([(x, Seconds (k * cf_Sample Cfg))], false), (stop why s2).2)) /\
  (forall p wr d, (hold Cfg p wr d s).1.2 = false -> is_aborted (hold Cfg p wr d s).2) /\
  (forall more why, rn_Abort s.1 = Some why -> rn_Abort (iterM (do_step Cfg) more s).2.1 = Some why) /\
  (is_aborted s -> (RunT1 Cfg s).2 = s /\ (RunHandback Cfg s).2 = s /\ (Gates Cfg s).2 = s).
Proof.
  intros Hsteps. split; [|intros s; split_and!].
  - unfold procedure. destruct (new_runner w) as (t & e & ->). set (s1 := (mkRunner _ _ _ _ _ _ _ _ _ _ _ _ _ _ _, _)).
    assert (H1 : settled s1) by (left; split; [done|constructor]). pose proof (steps_settled steps Hsteps s1 H1) as H2.
    unfold bind. destruct (iterM (do_step Cfg) steps s1) as [u s2]. cbn [snd] in *. pose proof (blind_Close settled s2 H2) as H3.
    destruct (Close s2) as [u' [r w']]. cbn [snd] in *. intros pre x post E Hx.
    destruct H3 as [[_ Hc]|[Ha Hl]]; unfold last_hot, cool in *; cbn [fst] in *; rewrite E in *.
    + apply Forall_app in Hc as [_ Hc]. inversion Hc; subst. congruence.
    + split; [|done]. destruct post as [|y post _] using rev_ind; [done|]. rewrite app_comm_cons, app_assoc, removelast_last in Hl.
      apply Forall_app in Hl as [_ Hl]. inversion Hl; subst. congruence.
  - intros p wr d. cbv zeta. destruct (sample_row p wr d s) as [[_ H2] H3]. pose proof (sample_hot p wr d s) as H4.
    destruct (sample Cfg p wr d s) as [[x why] s']. cbn [fst snd] in *. split; [done|]. apply row_hot_iff in H3. split; [done|]. intros Hx. by apply H4, H3.
  - intros p wr a k ks x why s1 s2. cbv zeta. destruct s as [r w0]. cbn [fst snd]. destruct (env_Now w0) as [now w1] eqn:En1. intros Hd Hgo Hsm.
    cbn [hold_loop]. unfold bind at 1. unfold env at 1. rewrite En1. rewrite (proj2 (Z.ltb_ge _ _) Hd).
    assert (Hb : forall {A B} (m : M (Runner * W) A) (f : A -> M (Runner * W) B) t b t', m t = (b, t') -> bind m f t = f b t') by (intros A B m' f t b t' E; unfold bind; by rewrite E).
    rewrite (Hb _ _ _ _ _ _ _ Hgo). cbn [negb]. rewrite (Hb _ _ _ _ _ _ _ Hsm). cbn [fst snd]. unfold bind. by destruct (stop why s2).
  - intros p wr d E. pose proof (hold_aborts p wr d s I) as H. cbn in H. by destruct (hold Cfg p wr d s) as [res s']; apply H.
  - intros more why. by apply reason_stays.
  - unfold is_aborted. intros Ha. destruct (rn_Abort s.1) as [why|] eqn:E; [|done]. destruct s as [r w0]. cbn [fst] in E.
    unfold RunT1, RunHandback, Gates, bind, getr, gets, ret. cbn [fst]. rewrite E. split_and!; repeat case_match; done.
Qed.
End Limit.

(** ** The simulated controller
    It is a machine as the run procedure expects it: examples, and rehearsals of whole runs. *)
(** ** Channels *)
(** The duty a channel was last told: the pending one, else its register. *)
Definition told (ch : Z) (s : Sim) : option Z :=
  match sim_pending s !! ch with Some p => Some (pd_v p) | None => sim_dcr s !! dcrIndex ch end.
Definition held (ch v : Z) (s : Sim) : Prop := ch ∈ sim_manual s /\ told ch s = Some v.
Definition sim_stopped (ch : Z) (s : Sim) : Prop := 1 <= ch <= 4 -> if sim_StopDuty s ch =? 0 then ch ∉ sim_manual s else held ch (sim_StopDuty s ch) s.
Definition sim_full (ch : Z) (s : Sim) : Prop := 1 <= ch <= 4 -> held ch 255 s.
(** Only a channel with a latency has a duty pending. *)
Definition sim_valid (s : Sim) : Prop := forall ch, sim_pending s !! ch <> None -> 0 < sim_Latency s ch.
(** [s'] shows the same of channel [ch]. *)
Definition same (ch : Z) (s s' : Sim) : Prop :=
  sim_StopDuty s' = sim_StopDuty s /\ (ch ∈ sim_manual s' <-> ch ∈ sim_manual s) /\ (ch ∈ sim_manual s -> told ch s' = told ch s).
Lemma same_refl ch s : same ch s s.
Proof. done. Qed.
Lemma same_trans ch s1 s2 s3 : same ch s1 s2 -> same ch s2 s3 -> same ch s1 s3.
Proof. intros (E1 & M1 & T1) (E2 & M2 & T2). split; [congruence|]. split; [by rewrite M2|]. intros H. rewrite T2; [by apply T1|by apply M1]. Qed.
Lemma same_keeps ch s s' : (1 <= ch <= 4 -> same ch s s') -> (sim_stopped ch s -> sim_stopped ch s') /\ (sim_full ch s -> sim_full ch s').
Proof.
  intros Hs. split; intros H Hc; specialize (H Hc); destruct (Hs Hc) as (E & M & T); unfold held in *.
  - rewrite E. destruct (_ =? 0); [by rewrite M|]. destruct H as [H1 H2]. by rewrite M, T.
  - destruct H as [H1 H2]. by rewrite M, T.
Qed.
Lemma index_apart ch c : 1 <= ch <= 4 -> c <> ch -> dcrIndex c <> dcrIndex ch /\ dcrIndex ch <> 4.
Proof.
  intros Hc Hne. unfold dcrIndex, ChannelDCR.
  destruct (Z.eqb_spec ch 1), (Z.eqb_spec ch 2), (Z.eqb_spec ch 3), (Z.eqb_spec ch 4), (Z.eqb_spec c 1), (Z.eqb_spec c 2), (Z.eqb_spec c 3), (Z.eqb_spec c 4);
    cbn; lia.
Qed.
Lemma setDCR_same ch c v s : 1 <= ch <= 4 -> c <> ch -> same ch s (setDCR c v s).
Proof.
  intros Hc Hne. destruct (index_apart ch c Hc Hne) as [H1 H2]. unfold setDCR. destruct (c =? 3); cbn; (split; [done|split; [done|]]); intros _;
    unfold told; cbn; case_match; try done; rewrite ?lookup_insert_ne by done; done.
Qed.
Lemma setLater_same ch c v s : 1 <= ch <= 4 -> c <> ch -> same ch s (setLater c v s).
Proof.
  intros Hc Hne. unfold setLater. destruct (_ <=? 0); [by apply setDCR_same|]. split; [done|]. split; [done|]. intros _. unfold told. cbn.
  by rewrite lookup_insert_ne.
Qed.
Lemma setDCR_told ch v s : sim_pending s !! ch = None -> told ch (setDCR ch v s) = Some v.
Proof.
  intros Hp. unfold told, setDCR. destruct (Z.eqb_spec ch 3) as [->|Hne]; cbn; rewrite Hp; [|by rewrite lookup_insert_eq].
  rewrite lookup_insert_ne by done. by rewrite lookup_insert_eq.
Qed.
Lemma setLater_told ch v s : sim_pending s !! ch = None \/ 0 < sim_Latency s ch -> told ch (setLater ch v s) = Some v.
Proof.
  intros H. unfold setLater. destruct (Z.leb_spec (sim_Latency s ch) 0) as [Hl|Hl].
  - apply setDCR_told. destruct H; [done|lia].
  - unfold told. cbn. by rewrite lookup_insert_eq.
Qed.
Lemma settle_pending_same ch c s : 1 <= ch <= 4 -> same ch s (settle_pending s c).
Proof.
  intros Hc. unfold settle_pending. destruct (sim_pending s !! c) as [p|] eqn:E; [|done]. destruct (_ <=? _); [|done].
  destruct (decide (c = ch)) as [->|Hne].
  - split; [unfold setDCR; by destruct (_ =? 3)|]. split; [unfold setDCR; by destruct (_ =? 3)|]. intros _. unfold told at 2. rewrite E.
    apply setDCR_told. cbn. by rewrite lookup_delete_eq.
  - eapply same_trans; [|by apply setDCR_same]. split; [done|]. split; [done|]. intros _. unfold told. cbn. by rewrite lookup_delete_ne.
Qed.
Lemma settle_auto_same ch c s : 1 <= ch <= 4 -> same ch s (settle_auto s c).
Proof.
  intros Hc. unfold settle_auto. destruct (bool_decide_reflect (c ∈ sim_manual s)) as [|Hm]; [done|]. cbn [orb]. destruct (sim_KeepOnAuto s c); [done|].
  destruct (sim_autoAt s !! c); [|done]. cbv zeta. destruct (_ <? _); [done|]. set (v := _ + _).
  destruct (decide (c = ch)) as [->|Hne].
  - destruct ((ch =? 3) && _); [|unfold setDCR; destruct (_ =? 3)]; (split; [done|split; [done|intros H; by destruct (Hm H)]]).
  - destruct ((c =? 3) && _) eqn:E3; [|by apply setDCR_same]. apply andb_true_iff in E3 as [->%Z.eqb_eq _].
    split; [done|]. split; [done|]. intros _. unfold told. cbn. destruct (sim_pending s !! ch); [done|]. destruct (index_apart ch 3 Hc Hne) as [H1 _].
    by rewrite lookup_insert_ne.
Qed.
Lemma settle_same ch s : 1 <= ch <= 4 -> same ch s (settle s).
Proof.
  intros Hc. unfold settle. cbn [fold_left].
  do 4 (eapply same_trans; [|by apply settle_auto_same]). do 4 (eapply same_trans; [|by apply settle_pending_same]). done.
Qed.
Lemma Sleep_same ch d s : 1 <= ch <= 4 -> same ch s (Sleep d s).2.
Proof.
  intros Hc. unfold Sleep. destruct (sim_cancelled s); [done|]. cbn [snd]. eapply same_trans; [|by apply settle_same]. done.
Qed.
Lemma EnterManual_same ch c s : 1 <= ch <= 4 -> ch <> c -> same ch s (EnterManual c s).2.
Proof.
  intros Hc Hne. unfold EnterManual. destruct (_ || _); [done|]. destruct (bool_decide _); [done|]. cbn [snd].
  eapply same_trans; [|apply setLater_same; [done|congruence]]. split; [done|]. split; [cbn; set_solver|done].
Qed.
Lemma WriteDuty_same ch c d s : 1 <= ch <= 4 -> ch <> c -> same ch s (WriteDuty c d s).2.
Proof.
  intros Hc Hne. unfold WriteDuty. destruct (bool_decide _); [|done]. cbn [snd]. eapply same_trans; [|apply setLater_same; [done|congruence]]. done.
Qed.
Lemma Auto_same ch c s : 1 <= ch <= 4 -> ch <> c -> same ch s (Auto c s).2.
Proof.
  intros Hc Hne. unfold Auto. cbn [snd]. eapply same_trans; [|by apply settle_same]. split; [done|]. split; [cbn; set_solver|].
  intros _. unfold told. cbn. by rewrite lookup_delete_ne.
Qed.
Lemma Restore_same ch c s : 1 <= ch <= 4 -> ch <> c -> same ch s (Restore c s).2.
Proof.
  intros Hc Hne. unfold Restore. destruct (sim_RestoreErr s c); [done|]. destruct (_ =? 0).
  - pose proof (Auto_same ch c s Hc Hne) as H. by destruct (Auto c s).
  - pose proof (EnterManual_same ch c s Hc Hne) as H. destruct (EnterManual c s) as [[e|] s1]; [done|]. cbn in H.
    pose proof (WriteDuty_same ch c (sim_StopDuty s c) s1 Hc Hne) as H2. destruct (WriteDuty c _ s1). cbn in *. exact (same_trans _ _ _ _ H H2).
Qed.

(** ** What a channel is told *)
Lemma setDCR_fields c v s : sim_pending (setDCR c v s) = sim_pending s /\ sim_Latency (setDCR c v s) = sim_Latency s /\ sim_manual (setDCR c v s) = sim_manual s.
Proof. unfold setDCR. by destruct (_ =? 3). Qed.
Lemma valid_told ch s : sim_valid s -> sim_pending s !! ch = None \/ 0 < sim_Latency s ch.
Proof. intros H. destruct (sim_pending s !! ch) eqn:E; [right; apply H; by rewrite E|by left]. Qed.
Lemma valid_same s s' : sim_Latency s' = sim_Latency s -> (forall c, sim_pending s' !! c <> None -> sim_pending s !! c <> None \/ 0 < sim_Latency s c) ->
  sim_valid s -> sim_valid s'.
Proof. intros E H Hs c Hc. rewrite E. destruct (H c Hc); auto. Qed.
Lemma setDCR_valid c v s : sim_valid s -> sim_valid (setDCR c v s).
Proof. destruct (setDCR_fields c v s) as (E1 & E2 & _). apply valid_same; [done|]. rewrite E1. intros ? ?. by left. Qed.
Lemma setLater_valid c v s : sim_valid s -> sim_valid (setLater c v s).
Proof.
  intros Hs. unfold setLater. destruct (Z.leb_spec (sim_Latency s c) 0) as [Hl|Hl]; [by apply setDCR_valid|]. apply (valid_same s); [done| |done].
  intros c'. cbn. destruct (decide (c' = c)) as [->|Hne]; [intros _; by right|rewrite lookup_insert_ne by done; intros ?; by left].
Qed.
Lemma settle_pending_valid s c : sim_valid s -> sim_valid (settle_pending s c).
Proof.
  intros Hs. unfold settle_pending. destruct (_ !! c); [|done]. destruct (_ <=? _); [|done]. apply setDCR_valid, (valid_same s); [done| |done].
  intros c'. cbn. destruct (decide (c = c')) as [->|Hne]; [by rewrite lookup_delete_eq|rewrite lookup_delete_ne by done; intros ?; by left].
Qed.
Lemma settle_auto_valid s c : sim_valid s -> sim_valid (settle_auto s c).
Proof.
  intros Hs. unfold settle_auto. destruct (_ || _); [done|]. destruct (_ !! c); [|done]. cbv zeta. destruct (_ <? _); [done|]. destruct ((c =? 3) && _).
  - apply (valid_same s); [done| |done]. intros ? ?. by left.
  - by apply setDCR_valid.
Qed.
Lemma settle_valid s : sim_valid s -> sim_valid (settle s).
Proof. intros Hs. unfold settle. cbn [fold_left]. by do 4 apply settle_auto_valid; do 4 apply settle_pending_valid. Qed.
Lemma Sleep_valid d : preserves sim_valid (Sleep d).
Proof. intros s Hs. unfold Sleep. destruct (sim_cancelled s); [done|]. cbn [snd]. apply settle_valid, (valid_same s); [done|intros ? ?; by left|done]. Qed.
Lemma EnterManual_valid c : preserves sim_valid (EnterManual c).
Proof.
  intros s Hs. unfold EnterManual. destruct (_ || _); [done|]. destruct (bool_decide _); [done|]. cbn [snd].
  apply setLater_valid, (valid_same s); [done|intros ? ?; by left|done].
Qed.
Lemma WriteDuty_valid c d : preserves sim_valid (WriteDuty c d).
Proof. intros s Hs. unfold WriteDuty. destruct (bool_decide _); [|done]. cbn [snd]. apply setLater_valid, (valid_same s); [done|intros ? ?; by left|done]. Qed.
Lemma Auto_valid c : preserves sim_valid (Auto c).
Proof.
  intros s Hs. unfold Auto. cbn [snd]. apply settle_valid, (valid_same s); [done| |done]. intros c'. cbn.
  destruct (decide (c = c')) as [->|Hne]; [by rewrite lookup_delete_eq|rewrite lookup_delete_ne by done; intros ?; by left].
Qed.
Lemma Restore_valid c : preserves sim_valid (Restore c).
Proof.
  intros s Hs. unfold Restore. destruct (sim_RestoreErr s c); [done|]. destruct (_ =? 0).
  - pose proof (Auto_valid c s Hs) as H. by destruct (Auto c s).
  - pose proof (EnterManual_valid c s Hs) as H. destruct (EnterManual c s) as [[e|] s1]; [done|]. cbn in H.
    pose proof (WriteDuty_valid c (sim_StopDuty s c) s1 H) as H2. by destruct (WriteDuty c _ s1).
Qed.
Lemma setLater_fields c v s : sim_manual (setLater c v s) = sim_manual s /\ sim_StopDuty (setLater c v s) = sim_StopDuty s.
Proof. unfold setLater, setDCR. destruct (_ <=? 0); [|done]. by destruct (_ =? 3). Qed.
Lemma WriteDuty_held ch d s s' : sim_valid s -> WriteDuty ch d s = (None, s') -> held ch d s' /\ sim_StopDuty s' = sim_StopDuty s.
Proof.
  intros Hs. unfold WriteDuty. destruct (bool_decide_reflect (ch ∈ sim_manual s)) as [Hm|]; [|done]. intros H. apply (f_equal snd) in H. cbn [snd] in H. subst s'.
  set (s1 := s <| sim_Writes := sim_Writes s + 1 |>). destruct (setLater_fields ch d s1) as [E1 E2]. unfold held. rewrite E1, E2.
  split; [|done]. split; [exact Hm|]. apply setLater_told. apply (valid_told ch s Hs).
Qed.
Lemma settle_manual s : sim_manual (settle s) = sim_manual s /\ sim_StopDuty (settle s) = sim_StopDuty s.
Proof.
  assert (Hp : forall s c, sim_manual (settle_pending s c) = sim_manual s /\ sim_StopDuty (settle_pending s c) = sim_StopDuty s).
  { intros s0 c. unfold settle_pending, setDCR. by repeat case_match. }
  assert (Ha : forall s c, sim_manual (settle_auto s c) = sim_manual s /\ sim_StopDuty (settle_auto s c) = sim_StopDuty s).
  { intros s0 c. unfold settle_auto, setDCR. destruct (_ || _); [done|]. destruct (_ !! c); [|done]. cbv zeta. destruct (_ <? _); [done|].
    destruct ((c =? 3) && _); [done|]. by destruct (_ =? 3). }
  unfold settle. cbn [fold_left]. split; by rewrite ?(proj1 (Ha _ _)), ?(proj2 (Ha _ _)), ?(proj1 (Hp _ _)), ?(proj2 (Hp _ _)).
Qed.
Lemma Auto_stopped ch s : ch ∉ sim_manual (Auto ch s).2 /\ sim_StopDuty (Auto ch s).2 = sim_StopDuty s.
Proof.
  unfold Auto. cbn [snd]. match goal with |- context [settle ?x] => destruct (settle_manual x) as [E1 E2] end. rewrite E1, E2. split; [|done].
  apply not_elem_of_difference. right. by apply elem_of_singleton.
Qed.
Lemma EnterManual_stop ch s : sim_StopDuty (EnterManual ch s).2 = sim_StopDuty s.
Proof. unfold EnterManual. destruct (_ || _); [done|]. destruct (bool_decide _); [done|]. cbn [snd]. by rewrite (proj2 (setLater_fields _ _ _)). Qed.
Lemma Restore_stopped ch s s' : sim_valid s -> Restore ch s = (None, s') -> sim_stopped ch s'.
Proof.
  intros Hs H. assert (Hp : forall A (x : A) (y z : Sim), (x, y) = (x, z) -> z = y) by (intros A x y z E; by apply (f_equal snd) in E). unfold Restore in H. cbv zeta in H.
  destruct (sim_RestoreErr s ch); [done|]. intros _. destruct (Z.eqb_spec (sim_StopDuty s ch) 0) as [E0|E0].
  - destruct (Auto_stopped ch s) as [H1 H2]. destruct (Auto ch s) as [[e|] s1]; [done|]. apply Hp in H as ->. cbn [snd] in *. by rewrite H2, E0.
  - pose proof (EnterManual_valid ch s Hs) as Hv. pose proof (EnterManual_stop ch s) as He.
    destruct (EnterManual ch s) as [[e|] s1]; [done|]. cbn [snd] in Hv, He. destruct (WriteDuty ch (sim_StopDuty s ch) s1) as [[e|] s2] eqn:Ew; [done|].
    apply Hp in H as ->. destruct (WriteDuty_held _ _ _ _ Hv Ew) as [Hh E]. rewrite E, He. by rewrite (proj2 (Z.eqb_neq _ _) E0).
Qed.
#[export] Instance sim_machine : Machine sim_env sim_valid sim_stopped sim_full.
Proof.
  assert (Hq : forall A (m : M Sim A) (Q : Z -> Sim -> Prop) ch, Q = sim_stopped \/ Q = sim_full -> (forall s, 1 <= ch <= 4 -> same ch s (m s).2) -> preserves (Q ch) m).
  { intros A m Q ch HQ Hm s Hs. destruct (same_keeps ch s (m s).2 (Hm s)) as [H1 H2]. destruct HQ as [-> | ->]; auto. }
  split.
  - split; [by intros s|]. split; [intros d; apply Sleep_valid|]. split; [by intros s|].
    split; [intros s Hs; cbn; unfold DCR_sim; by destruct (sim_NoDCR s)|]. split; [by intros s|done].
  - intros ch. split; [apply EnterManual_valid|]. split; [intros d; apply WriteDuty_valid|]. split; [apply Auto_valid|apply Restore_valid].
  - intros Q ch HQ. split; [by apply Hq|]. split; [intros d; apply Hq; [done|]; intros s; apply Sleep_same|]. split; [by apply Hq|].
    split; [apply Hq; [done|]; intros s _; cbn; unfold DCR_sim; by destruct (sim_NoDCR s)|]. split; [by apply Hq|done].
  - intros Q ch ch' HQ Hne. split; [apply Hq; [done|]; intros s Hc; by apply EnterManual_same|].
    split; [intros d; apply Hq; [done|]; intros s Hc; by apply WriteDuty_same|].
    split; (apply Hq; [done|]); intros s Hc; [by apply Auto_same|by apply Restore_same].
  - intros ch s s' Hv H. by apply (Restore_stopped ch s).
  - intros ch s s' Hv H _. by apply (WriteDuty_held ch 255 s).
Qed.

(** ** A floor under every register *)
Definition sim_floor (s : Sim) : Prop :=
  map_Forall (fun _ p => 74 <= pd_v p) (sim_pending s) /\ map_Forall (fun _ v => 74 <= v) (sim_dcr s) /\
  (forall c, 1 <= c <= 4 -> 74 <= sim_AutoValue s c) /\ (forall c, sim_StopDuty s c = 0 \/ 74 <= sim_StopDuty s c).
Lemma setDCR_floor c v s : 74 <= v -> sim_floor s -> sim_floor (setDCR c v s).
Proof.
  intros Hv (H1 & H2 & H3 & H4). unfold setDCR. destruct (c =? 3); (split; [done|split; [|done]]); cbn; repeat apply map_Forall_insert_2; done.
Qed.
Lemma setLater_floor c v s : 74 <= v -> sim_floor s -> sim_floor (setLater c v s).
Proof.
  intros Hv Hs. unfold setLater. destruct (_ <=? 0); [by apply setDCR_floor|]. destruct Hs as (H1 & H2 & H3 & H4).
  split; [|done]. cbn. by apply map_Forall_insert_2.
Qed.
Lemma settle_pending_floor s c : sim_floor s -> sim_floor (settle_pending s c).
Proof.
  intros Hs. unfold settle_pending. destruct (sim_pending s !! c) as [p|] eqn:E; [|done]. destruct (_ <=? _); [|done]. destruct Hs as (H1 & H2 & H3 & H4).
  apply setDCR_floor; [by apply (H1 c)|]. split; [|done]. cbn. by apply map_Forall_delete.
Qed.
Lemma settle_auto_floor s c : 1 <= c <= 4 -> sim_floor s -> sim_floor (settle_auto s c).
Proof.
  intros Hc Hs. unfold settle_auto. destruct (_ || _); [done|]. destruct (_ !! c); [|done]. cbv zeta. destruct (_ <? _); [done|].
  assert (Hv : forall b : bool, 74 <= sim_AutoValue s c + (if b then 20 else 0)).
  { destruct Hs as (_ & _ & H3 & _). specialize (H3 c Hc). intros []; lia. }
  destruct ((c =? 3) && _); [|by apply setDCR_floor]. destruct Hs as (H1 & H2 & H3 & H4). split; [done|]. split; [|done]. cbn. by apply map_Forall_insert_2.
Qed.
Lemma settle_floor s : sim_floor s -> sim_floor (settle s).
Proof. intros Hs. unfold settle. cbn [fold_left]. do 4 (apply settle_auto_floor; [lia|]). by do 4 apply settle_pending_floor. Qed.
Lemma EnterManual_floor c s : sim_floor s -> sim_floor (EnterManual c s).2.
Proof. intros Hs. unfold EnterManual. destruct (_ || _); [done|]. destruct (bool_decide _); [done|]. cbn [snd]. by apply setLater_floor. Qed.
Lemma WriteDuty_floor c d s : 74 <= d -> sim_floor s -> sim_floor (WriteDuty c d s).2.
Proof. intros Hd Hs. unfold WriteDuty. destruct (bool_decide _); [|done]. cbn [snd]. by apply setLater_floor. Qed.
Lemma Auto_floor c s : sim_floor s -> sim_floor (Auto c s).2.
Proof.
  intros (H1 & H2 & H3 & H4). unfold Auto. cbn [snd]. apply settle_floor. split; [|done]. cbn. by apply map_Forall_delete.
Qed.
Lemma Restore_floor c s : sim_floor s -> sim_floor (Restore c s).2.
Proof.
  intros Hs. unfold Restore. cbv zeta. destruct (sim_RestoreErr s c); [done|]. destruct (Z.eqb_spec (sim_StopDuty s c) 0) as [|Hne].
  - pose proof (Auto_floor c s Hs). by destruct (Auto c s).
  - pose proof (EnterManual_floor c s Hs) as H. destruct (EnterManual c s) as [[e|] s1]; [done|]. cbn [snd] in H.
    assert (Hd : 74 <= sim_StopDuty s c) by (destruct Hs as (_ & _ & _ & H4); by destruct (H4 c)).
    pose proof (WriteDuty_floor c _ s1 Hd H). by destruct (WriteDuty c (sim_StopDuty s c) s1).
Qed.
#[export] Instance sim_keeps : Keeps sim_env sim_floor.
Proof.
  split; try (intros s; done); intros; try (intros s Hs; done); intros s Hs; cbn.
  - unfold Sleep. destruct (sim_cancelled s); [done|]. cbn [snd]. by apply settle_floor.
  - exact (EnterManual_floor _ s Hs).
  - apply WriteDuty_floor; [unfold MinDuty in *; lia|done].
  - exact (Auto_floor _ s Hs).
  - exact (Restore_floor _ s Hs).
  - unfold DCR_sim. by destruct (sim_NoDCR s).
Qed.

(** ** Rehearsals *)
(** Every channel in its stop state. *)
Definition start : Sim := (Restore 3 (NewSim 0)).2.
Lemma start_stopped : sim_valid start /\ (forall ch, sim_stopped ch start) /\ sim_floor start.
Proof.
  split; [|split].
  - intros ch H. exfalso. apply H. change (sim_pending start) with (∅ : gmap Z pendingDuty). apply lookup_empty.
  - intros ch Hc. assert (ch = 1 \/ ch = 2 \/ ch = 3 \/ ch = 4) as [->|[->|[->| ->]]] by lia; apply (bool_decide_unpack _); by vm_compute.
  - apply Restore_floor. split_and!; [apply map_Forall_empty| | |].
    + apply (bool_decide_unpack _). by vm_compute.
    + intros c Hc. by assert (c = 1 \/ c = 2 \/ c = 3 \/ c = 4) as [->|[->|[->| ->]]] by lia.
    + intros c. cbn. unfold of_list. destruct (Z.to_nat c) as [|[|[|[|[|[]]]]]]; cbn; auto. right. lia.
Qed.
Lemma run_keeps_witness : sim_floor start /\ sim_floor (procedure (SpecConfig 1 1 [1; 2; 3]) [SGates; ST1; SHandback] start).2.
Proof. split; [apply start_stopped|]. apply run_keeps; [apply sim_keeps|apply start_stopped]. Defined.
(** The disks are at 50 degrees: the run stops at its first sample, before it wrote. *)
Example hot_ex :
  let out := procedure (SpecConfig 1 1 [1; 2; 3]) [ST1; SHandback] (start <| sim_HDD := Some 50%Q |>) in
  (rn_hot out.1, rn_wrote out.1, length (rn_Samples out.1), Unrestored out.1, sim_Writes out.2) = (3, false, 1%nat, [], 1).
Proof. by vm_compute. Qed.
(** ... and this sample is the one that shows it. *)
Lemma limit_ends_run_witness :
  let out := procedure (SpecConfig 1 1 [1; 2; 3]) [ST1; SHandback] (start <| sim_HDD := Some 50%Q |>) in
  exists x, rn_Samples out.1 = [x] /\ row_hot x = true /\ rn_Abort out.1 <> None.
Proof.
  intros out.
  assert (Hs : own_steps [ST1; SHandback]) by (by repeat constructor).
  pose proof (proj1 (limit_ends_run (SpecConfig 1 1 [1; 2; 3]) [ST1; SHandback] (start <| sim_HDD := Some 50%Q |>) Hs)) as H. fold out in H.
  assert (E : match rn_Samples out.1 with [x] => row_hot x | _ => false end = true) by by vm_compute.
  clearbody out. destruct out as [r w]. cbn [fst] in *. destruct (rn_Samples r) as [|x [|y l]] eqn:El; [done| |done].
  exists x. split; [done|]. split; [done|]. exact (proj2 (H [] x [] eq_refl E)).
Defined.
Example rehearsal_ex :
  verdicts (whole (SpecConfig 4 0 [1; 2; 3]) (NewSim 0)) = (["PASS"; "PASS"], [Pass; NotApplicable; NotApplicable], 121%nat, []).
Proof. by vm_compute. Qed.
