(* ===== verification/TlsCert.v ===== *)
(** The TLS certificate of the dashboard (src/internal/tlscert/tlscert.go, store.go,
    server.go): the automatic self-signed pair, the checks of an uploaded one, what is
    shown of a certificate, and the store the listener reads.

    Host names are ASCII; [now] is the clock at the call.  Log lines are left out. *)
From stdpp Require Import base gmap strings list.
From Stdlib Require Import ZArith QArith Qround Lia Ascii.
From S2P Require Import Prelude GoLib Float64 GoNet GoPath ConfigFields ConfigFiles Stores.
Open Scope Z_scope.

(** ** Certificates as crypto/tls, crypto/x509 and encoding/pem hand them to the program

    Cryptography and the encodings are the class [Pki]: decoding one PEM block, parsing a
    certificate or a key, drawing a key, signing, a handshake.  What crypto/tls composes of
    them when it loads a pair is a definition. *)
(** A public key: the material and what the program asks of it. *)
Inductive PubKey := PubEcdsa (curve point : string) | PubRsa (bits : Z) (modulus : string) | PubEd25519 (point : string) | PubOther (type : string).
#[export] Instance PubKey_eq : EqDecision PubKey.
Proof. solve_decision. Defined.
(** [x509.Certificate]: the fields that are read.  Addresses are in the sixteen bytes of
    [net.ParseIP], times in nanoseconds. *)
Record Cert := mkCert {
  ce_Raw : string; ce_Subject : string; ce_Issuer : string; ce_DNSNames : list string; ce_IPAddresses : list (list Z);
  ce_NotBefore : Z; ce_NotAfter : Z; ce_IsCA : bool; ce_PublicKey : PubKey; ce_SignatureAlgorithm : string; ce_SerialNumber : list Z }.
(** What [CreateCertificate] is asked to sign. *)
Record Template := mkTemplate {
  te_Serial : list Z; te_CommonName : string; te_Organization : string; te_NotBefore : Z; te_NotAfter : Z; te_KeyUsage : list string; te_ExtKeyUsage : list string;
  te_IsCA : bool; te_DNSNames : list string; te_IPAddresses : list (list Z); te_MaxPathLen : Z;
  te_PermittedDNSDomainsCritical : bool; te_PermittedDNSDomains : list string; te_PermittedIPRanges : list (list Z * Z) }.
(** A PEM block: its type, its Proc-Type header and its bytes. *)
Record Block := mkBlock { bl_Type : string; bl_ProcType : string; bl_Bytes : string }.
(** [tls.Config] of the listener. *)
Record TlsConfig := mkTlsConfig { tl_MinVersion : Z; tl_Curves : list string; tl_CipherSuites : list string; tl_NextProtos : list string; tl_SessionTicketsDisabled : bool }.

Class Pki (W K : Type) := {
  pem_Decode : string -> option (Block * string);
  pem_Encode : string -> string -> string;
  x509_Parse : string -> string + Cert;
  (** crypto/tls's choice among the private key encodings, and single ones *)
  tls_ParsePrivate : string -> option K;
  x509_ParsePKCS8 : string -> option K;
  x509_ParseEC : string -> option K;
  x509_MarshalPKCS8 : K -> option string;
  key_Public : K -> PubKey;
  (** what needs random bytes: a P-256 key, a serial number, a signature *)
  ecdsa_GenerateKey : M W (option K);
  rand_Serial : M W (option (list Z));
  x509_Create : Template -> K -> M W (option string);
  (** [VerifyHostname] of a certificate with these names *)
  x509_Covers : list string -> list (list Z) -> string -> bool;
  (** server and client end of a handshake in the process, with this chain and key *)
  tls_Handshake : TlsConfig -> list string -> K -> option string * option string;
  sha256_Sum : string -> list Z;
  fs_MkdirAll : string -> M W (option FsErr) }.

(** [tls.Certificate] *)
Record TCert (K : Type) := mkTCert { tc_Certificate : list string; tc_PrivateKey : option K; tc_Leaf : option Cert }.
Arguments mkTCert {K}.
Arguments tc_Certificate {K}.
Arguments tc_PrivateKey {K}.
Arguments tc_Leaf {K}.
Definition no_cert {K} : TCert K := mkTCert [] None None.
#[export] Instance eta_TCert {K} : Eta (TCert K) := fun c => mkTCert (tc_Certificate c) (tc_PrivateKey c) (tc_Leaf c).

(** An error: one of the file system, or another with the place it comes from. *)
Inductive TErr := TeFs (what : string) (e : FsErr) | Te (msg : string) (args : list string).
Definition is_not_exist (e : TErr) : bool := match e with TeFs _ FsNotExist => true | _ => false end.

Section Tls.
Context {W K : Type} {Fs : Files W} {P : Pki W K}.

(** The blocks of a text; what does not decode ends it. *)
Fixpoint blocks_loop (fuel : nat) (raw : string) : list Block :=
  match fuel with
  | O => []
  | S fuel' => match pem_Decode raw with None => [] | Some (b, rest) => b :: blocks_loop fuel' rest end
  end.
Definition pem_blocks (raw : string) : list Block := blocks_loop (S (String.length raw)) raw.
Definition is_certificate (b : Block) : bool := String.eqb (bl_Type b) "CERTIFICATE".
Definition is_private_key (b : Block) : bool := String.eqb (bl_Type b) "PRIVATE KEY" || HasSuffix (bl_Type b) " PRIVATE KEY".
Definition fits (pub : PubKey) (k : K) : bool :=
  match pub with PubOther _ => false | _ => bool_decide (pub = key_Public k) end.
(** [tls.X509KeyPair] *)
Definition X509KeyPair (certPEM keyPEM : string) : TErr + TCert K :=
  match map bl_Bytes (List.filter is_certificate (pem_blocks certPEM)), find is_private_key (pem_blocks keyPEM) with
  | [], _ => inl (Te "tls: failed to find any PEM data in certificate input" [])
  | _, None => inl (Te "tls: failed to find any PEM data in key input" [])
  | (der :: _) as chain, Some b =>
      match x509_Parse der, tls_ParsePrivate (bl_Bytes b) with
      | inl e, _ => inl (Te "tls: failed to parse certificate" [e])
      | _, None => inl (Te "tls: failed to parse private key" [])
      | inr leaf, Some k =>
          if fits (ce_PublicKey leaf) k then inr (mkTCert chain (Some k) (Some leaf))
          else inl (Te "tls: private key does not match public key" [])
      end
  end.
(** [tls.LoadX509KeyPair] *)
Definition LoadX509KeyPair (w : W) (certFile keyFile : string) : TErr + TCert K :=
  match fs_ReadFile w certFile, fs_ReadFile w keyFile with
  | inl e, _ => inl (TeFs certFile e)
  | _, inl e => inl (TeFs keyFile e)
  | inr c, inr k => X509KeyPair c k
  end.
End Tls.

(** ** Laws *)

(** The file system does what its answers say: an atomic write replaces one file or
    changes none. *)
Class FilesLaws (W : Type) {Fs : Files W} := {
  write_ok (w : W) p text perm w' : fs_Write p text perm w = (None, w') -> fs_ReadFile w' p = inr text /\ forall q, q <> p -> fs_ReadFile w' q = fs_ReadFile w q;
  write_no (w : W) p text perm e w' : fs_Write p text perm w = (Some e, w') -> forall q, fs_ReadFile w' q = fs_ReadFile w q;
  remove_ok (w : W) p w' : fs_Remove p w = (None, w') -> fs_ReadFile w' p = inl FsNotExist /\ forall q, q <> p -> fs_ReadFile w' q = fs_ReadFile w q;
  remove_no (w : W) p e w' : fs_Remove p w = (Some e, w') -> (e = FsNotExist -> fs_ReadFile w p = inl FsNotExist) /\ forall q, fs_ReadFile w' q = fs_ReadFile w q }.

(** Encoding is undone by decoding and parsing; drawing random bytes and making a directory
    change no file. *)
Class PkiLaws (W K : Type) {Fs : Files W} {P : Pki W K} := {
  decode_shorter s b rest : pem_Decode s = Some (b, rest) -> (String.length rest < String.length s)%nat;
  decode_encode t bytes rest : t = "CERTIFICATE" \/ t = "PRIVATE KEY" \/ (exists s b r, pem_Decode s = Some (b, r) /\ bl_Type b = t) ->
    pem_Decode (String.append (pem_Encode t bytes) rest) = Some (mkBlock t "" bytes, rest);
  decode_end : pem_Decode "" = None;
  pkcs8_parse k der : x509_MarshalPKCS8 k = Some der -> tls_ParsePrivate der = Some k /\ x509_ParsePKCS8 der = Some k;
  generate_ecdsa w k w' : ecdsa_GenerateKey w = (Some k, w') -> exists curve point, key_Public k = PubEcdsa curve point;
  (** times have whole seconds in a certificate *)
  create_parse t k w der w' : x509_Create t k w = (Some der, w') -> exists leaf, x509_Parse der = inr leaf /\
    ce_DNSNames leaf = te_DNSNames t /\ ce_IPAddresses leaf = te_IPAddresses t /\ ce_PublicKey leaf = key_Public k /\
    ce_NotBefore leaf = te_NotBefore t / Second * Second /\ ce_NotAfter leaf = te_NotAfter t / Second * Second;
  generate_files w p : fs_ReadFile (ecdsa_GenerateKey w).2 p = fs_ReadFile w p;
  serial_files w p : fs_ReadFile (rand_Serial w).2 p = fs_ReadFile w p;
  create_files t k w p : fs_ReadFile (x509_Create t k w).2 p = fs_ReadFile w p;
  mkdir_files d w p : fs_ReadFile (fs_MkdirAll d w).2 p = fs_ReadFile w p }.

(** ** package tlscert *)

Definition CertFile : string := "cert.pem".
Definition KeyFile : string := "key.pem".
Definition Validity : Z := 10 * 365 * 24 * Hour.
Definition DefaultOrg : string := "n5-fangov".
Record Options := mkOptions { op_Dir : string; op_Hosts : list string; op_Org : string }.
Definition Paths (dir : string) : string * string := (JoinPath [dir; CertFile], JoinPath [dir; KeyFile]).

(** ** Names *)
Record sans := mkSans { sa_dns : list string; sa_ips : list (list Z) }.
#[export] Instance eta_sans : Eta sans := fun s => mkSans (sa_dns s) (sa_ips s).
Definition IsUnspecified (ip : list Z) : bool := bool_decide (ip = v4_mapped ++ [0; 0; 0; 0]) || bool_decide (ip = replicate 16 0).
Definition san_host (h : string) : string :=
  let h := TrimSpace h in
  let h := match SplitHostPort h with inr (hp, _) => if String.eqb hp "" then h else hp | inl _ => h end in
  let h := TrimSuffix (TrimPrefix h "[") "]" in
  ToLower (TrimSuffix h ".").
Definition san_add (out : sans) (h : string) : sans :=
  let h := san_host h in
  if String.eqb h "" || String.eqb h "*" then out
  else match ParseIP h with
  | Some ip =>
      if IsUnspecified ip then out
      else if bool_decide (ip ∈ sa_ips out) then out
      else out <| sa_ips := sa_ips out ++ [ip] |>
  | None => if bool_decide (h ∈ sa_dns out) then out else out <| sa_dns := sa_dns out ++ [h] |>
  end.
Definition sanSet (hosts : list string) : sans := fold_left san_add (hosts ++ ["localhost"; "127.0.0.1"; "::1"]) (mkSans [] []).
Definition hostRanges (ips : list (list Z)) : list (list Z * Z) :=
  map (fun ip => if bool_decide (take 12 ip = v4_mapped) then (drop 12 ip, 32) else (ip, 128)) ips.

(** ** What is wrong with a certificate *)
Inductive Reuse := ReuseOk | NotParsed | Expired | NotYetValid | LacksName (d : string) | LacksIP (ip : list Z).
#[export] Instance Reuse_eq : EqDecision Reuse.
Proof. solve_decision. Defined.
(** Only a name is missing: the key may be kept. *)
Definition sanOnly (r : Reuse) : bool := match r with LacksName _ | LacksIP _ => true | _ => false end.
Definition reuseProblem (now : Z) (leaf : option Cert) (want : sans) : Reuse :=
  match leaf with
  | None => NotParsed
  | Some leaf =>
      if ce_NotAfter leaf <? now then Expired
      else if now <? ce_NotBefore leaf then NotYetValid
      else match find (fun d => negb (existsb (fun have => EqualFold have d) (ce_DNSNames leaf))) (sa_dns want) with
      | Some d => LacksName d
      | None =>
          match find (fun ip => negb (bool_decide (ip ∈ ce_IPAddresses leaf))) (sa_ips want) with
          | Some ip => LacksIP ip
          | None => ReuseOk
          end
      end
  end.

(** ** The listener *)
Definition ServerConfig : TlsConfig := mkTlsConfig 771 ["X25519"; "P256"; "P384"]
  ["TLS_ECDHE_ECDSA_WITH_AES_128_GCM_SHA256"; "TLS_ECDHE_ECDSA_WITH_AES_256_GCM_SHA384"; "TLS_ECDHE_ECDSA_WITH_CHACHA20_POLY1305";
   "TLS_ECDHE_RSA_WITH_AES_128_GCM_SHA256"; "TLS_ECDHE_RSA_WITH_AES_256_GCM_SHA384"; "TLS_ECDHE_RSA_WITH_CHACHA20_POLY1305"]
  ["h2"; "http/1.1"] true.

Section Cert_files.
Context {W K : Type} {Fs : Files W} {Pk : Pki W K}.

Definition CheckUsable (cert : TCert K) : option TErr :=
  match tc_Certificate cert, tc_PrivateKey cert with
  | _ :: _, Some k =>
      match tls_Handshake ServerConfig (tc_Certificate cert) k with
      | (Some e, _) | (None, Some e) => Some (Te "certificate/key cannot be used by this server: %v" [e])
      | (None, None) => None
      end
  | _, _ => Some (Te "certificate/key cannot be used by this server: empty certificate or key" [])
  end.

(** ** The automatic pair *)
Definition LoadFiles (w : W) (certFile keyFile : string) : TErr + TCert K :=
  match LoadX509KeyPair w certFile keyFile with
  | inl e => inl e
  | inr cert =>
      match tc_Leaf cert, tc_Certificate cert with
      | Some _, _ => inr cert
      | None, der :: _ => match x509_Parse der with inl e => inl (Te "tlscert: parse" [e]) | inr leaf => inr (cert <| tc_Leaf := Some leaf |>) end
      | None, [] => inl (Te "index out of range" [])
      end
  end.
Definition ExportPEM (w : W) (dir : string) : TErr + string :=
  match fs_ReadFile w (Paths dir).1 with
  | inl e => inl (TeFs (Paths dir).1 e)
  | inr raw =>
      match find is_certificate (pem_blocks raw) with
      | Some b => inr (pem_Encode "CERTIFICATE" (bl_Bytes b))
      | None => inl (Te "tlscert: %s contains no CERTIFICATE block" [(Paths dir).1])
      end
  end.
(** 0600 *)
Definition writePrivate (path data : string) : M W (option TErr) :=
  let* e := fs_Write path data 384 in ret (TeFs path <$> e).
(** [CheckKeyMode]: None for a missing file or one only its owner reads. *)
Definition CheckKeyMode (w : W) (path : string) : option Z :=
  match fs_Perm w path with Some m => if Z.land m 63 =? 0 then None else Some m | None => None end.

Definition template (o : Options) (now : Z) (serial : list Z) : Template :=
  let want := sanSet (op_Hosts o) in
  let org := if String.eqb (op_Org o) "" then DefaultOrg else op_Org o in
  let cn := default org (find (fun d => negb (String.eqb d "localhost")) (sa_dns want)) in
  mkTemplate serial cn org (now - Hour) (now + Validity) ["DigitalSignature"; "KeyEncipherment"; "CertSign"] ["ServerAuth"]
    true (sa_dns want) (sa_ips want) 0 true (sa_dns want) (hostRanges (sa_ips want)).
(** [pair], [write_pair]: the end of [generate]. *)
Definition with_leaf (der : string) (cert : TCert K) : TCert K :=
  match tc_Leaf cert with
  | Some _ => cert
  | None => cert <| tc_Leaf := match x509_Parse der with inr leaf => Some leaf | inl _ => None end |>
  end.
Definition write_pair (o : Options) (der certPEM keyPEM : string) : M W (TErr + TCert K) :=
  let* e := fs_MkdirAll (op_Dir o) in
  match e with
  | Some e => ret (inl (TeFs (op_Dir o) e))
  | None =>
      let* e := writePrivate (Paths (op_Dir o)).2 keyPEM in
      match e with
      | Some e => ret (inl e)
      | None =>
          let* e := writePrivate (Paths (op_Dir o)).1 certPEM in
          match e with
          | Some e => ret (inl e)
          | None => ret (match X509KeyPair certPEM keyPEM with inl e => inl e | inr cert => inr (with_leaf der cert) end)
          end
      end
  end.
Definition generate (o : Options) (now : Z) (key : option K) : M W (TErr + TCert K) :=
  let* key := (match key with Some k => ret (Some k) | None => ecdsa_GenerateKey end) in
  match key with
  | None => ret (inl (Te "tlscert: generate key" []))
  | Some key =>
      let* serial := rand_Serial in
      match serial with
      | None => ret (inl (Te "tlscert: serial" []))
      | Some serial =>
          let* der := x509_Create (template o now serial) key in
          match der, x509_MarshalPKCS8 key with
          | None, _ => ret (inl (Te "tlscert: create certificate" []))
          | _, None => ret (inl (Te "tlscert: marshal key" []))
          | Some der, Some keyDER => write_pair o der (pem_Encode "CERTIFICATE" der) (pem_Encode "PRIVATE KEY" keyDER)
          end
      end
  end.
Definition Regenerate (o : Options) (now : Z) : M W (TErr + TCert K) := generate o now None.
Definition is_ecdsa (k : K) : bool := match key_Public k with PubEcdsa _ _ => true | _ => false end.
(** The key to keep when only a name is missing. *)
Definition kept_key (cert : TCert K) (r : Reuse) : option K :=
  match tc_PrivateKey cert with Some k => if is_ecdsa k && sanOnly r then Some k else None | None => None end.
Definition EnsureAuto (o : Options) (now : Z) : M W (TErr + TCert K) := fun w =>
  let '(certPath, keyPath) := Paths (op_Dir o) in
  match LoadFiles w certPath keyPath with
  | inr cert =>
      match reuseProblem now (tc_Leaf cert) (sanSet (op_Hosts o)) with
      | ReuseOk => (inr cert, w)
      | r => generate o now (kept_key cert r) w
      end
  | inl _ => generate o now None w
  end.
(** [loadECDSAKey]: the first block with an ECDSA key. *)
Fixpoint first_ecdsa (bs : list Block) : option K :=
  match bs with
  | [] => None
  | b :: bs' =>
      if negb (Contains (bl_Type b) "PRIVATE KEY") then first_ecdsa bs'
      else
        let pkcs8 := match x509_ParsePKCS8 (bl_Bytes b) with Some k => if is_ecdsa k then Some k else None | None => None end in
        match pkcs8, x509_ParseEC (bl_Bytes b) with
        | Some k, _ => Some k
        | None, Some k => Some k
        | None, None => first_ecdsa bs'
        end
  end.
Definition loadECDSAKey (w : W) (path : string) : option K :=
  match fs_ReadFile w path with inl _ => None | inr raw => first_ecdsa (pem_blocks raw) end.
Definition Reissue (o : Options) (now : Z) : M W (TErr + TCert K * bool) := fun w =>
  match loadECDSAKey w (Paths (op_Dir o)).2 with
  | Some key => let '(res, w) := generate o now (Some key) w in (match res with inl e => inl e | inr cert => inr (cert, true) end, w)
  | None => let '(res, w) := generate o now None w in (match res with inl e => inl e | inr cert => inr (cert, false) end, w)
  end.
End Cert_files.

(** ** Checking an uploaded pair *)
Definition normalizeHost (h : string) : string :=
  let h := TrimSpace h in
  let h := match SplitHostPort h with inr (hp, _) => if String.eqb hp "" then h else hp | inl _ => h end in
  let brackets c := is_char c "[" || is_char c "]" in
  let trimmed := of_chars (rev (drop_while brackets (rev (drop_while brackets (chars h))))) in
  let h := ToLower (TrimSuffix trimmed ".") in
  if String.eqb h "*" then ""
  else match ParseIP h with Some ip => if IsUnspecified ip then "" else h | None => h end.
Definition isLoopbackName (h : string) : bool :=
  String.eqb h "localhost" || match ParseIP h with Some ip => IsLoopback ip | None => false end.
Definition ExpiresSoon : Z := 30 * 24 * Hour.
(** [Time.Sub] stays within an int64. *)
Definition time_Sub (a b : Z) : Z := Z.max (- 2 ^ 63) (Z.min (2 ^ 63 - 1) (a - b)).
(** [Duration.Hours] *)
Definition Hours (d : Z) : Q := fadd (of_int (Z.quot d Hour)) (fdiv (of_int (Z.rem d Hour)) (of_int Hour)).
Definition DaysLeft (notAfter now : Z) : Z := Qceiling (fdiv (Hours (time_Sub notAfter now)) 24).
Example DaysLeft_ex : map (DaysLeft (100 * Hour)) [0; 76 * Hour; 76 * Hour + 1; 99 * Hour; 100 * Hour; 101 * Hour; 130 * Hour] = [5; 1; 1; 1; 0; 0; -1].
Proof. by vm_compute. Qed.

Inductive Warn := WExpired (notAfter : Z) | WExpires (days notAfter : Z) | WNoNames | WLacksHost (h : string) | WWeakKey (bits : Z) | WWeakSignature (alg : string).
Definition expiryWarnings (notAfter now : Z) : list Warn :=
  let left := time_Sub notAfter now in
  if left <? 0 then [WExpired notAfter]
  else if left <? ExpiresSoon then [WExpires (DaysLeft notAfter now) notAfter]
  else [].
Definition keyAlgo (pub : PubKey) : string :=
  match pub with
  | PubEcdsa curve _ => String.append "ECDSA " curve
  | PubRsa bits _ => String.append "RSA " (Itoa bits)
  | PubEd25519 _ => "Ed25519"
  | PubOther t => t
  end.
Definition usableKey (pub : PubKey) : option TErr :=
  match pub with
  | PubEcdsa curve _ =>
      if contains ["P-256"; "P-384"; "P-521"] curve then None
      else Some (Te "certificate/key cannot be used by this server: %s (TLS supports ECDSA on P-256, P-384 and P-521 only)" [keyAlgo pub])
  | PubRsa bits _ => if bits <? 1024 then Some (Te "certificate/key cannot be used by this server: RSA %d bits (1024 bits minimum, 2048 recommended)" [Itoa bits]) else None
  | _ => None
  end.
Definition weak_signatures : list string := ["SHA1-RSA"; "ECDSA-SHA1"; "MD5-RSA"].
Definition no_names (dns : list string) {A} (ips : list A) : list Warn := match dns, ips with [], [] => [WNoNames] | _, _ => [] end.

Record InfoData := mkInfo {
  in_Subject : string; in_Issuer : string; in_DNSNames : list string; in_IPs : list string; in_NotBefore : Z; in_NotAfter : Z;
  in_FingerprintSHA256 : string; in_IsCA : bool; in_KeyAlgo : string; in_SerialHex : string }.
Definition no_info : InfoData := mkInfo "" "" [] [] 0 0 "" false "" "".
Definition HEX2 (b : Z) : string := of_chars [hex_upper (b / 16); hex_upper (b mod 16)].
Definition IP_String (ip : list Z) : string := Addr_String (Unmap (Addr6 ip)).

Section Cert_checks.
Context {W K : Type} {Pk : Pki W K}.

Definition weak_key (pub : PubKey) : list Warn := match pub with PubRsa bits _ => if bits <? 2048 then [WWeakKey bits] else [] | _ => [] end.
(** [lacks]: the hosts that are not covered. *)
Definition leaf_warnings (leaf : Cert) (hosts : list string) (now : Z) : list Warn :=
  expiryWarnings (ce_NotAfter leaf) now ++ no_names (ce_DNSNames leaf) (ce_IPAddresses leaf) ++
  omap (fun h => let h := normalizeHost h in
    if String.eqb h "" then None else if x509_Covers (ce_DNSNames leaf) (ce_IPAddresses leaf) h then None else Some (WLacksHost h)) hosts ++
  weak_key (ce_PublicKey leaf) ++
  (if contains weak_signatures (ce_SignatureAlgorithm leaf) then [WWeakSignature (ce_SignatureAlgorithm leaf)] else []).
Definition encrypted (b : Block) : bool := String.eqb (bl_Type b) "ENCRYPTED PRIVATE KEY" || Contains (bl_ProcType b) "ENCRYPTED".
Definition pem_chain (bs : list Block) : string := fold_right (fun b s => String.append (pem_Encode "CERTIFICATE" (bl_Bytes b)) s) "" bs.
Definition ValidatePair (certPEM keyPEM : string) (hosts : list string) (now : Z) : TErr + TCert K * list Warn :=
  match List.filter is_certificate (pem_blocks certPEM), List.filter (fun b => HasSuffix (bl_Type b) "PRIVATE KEY") (pem_blocks keyPEM) with
  | [], _ => inl (Te "certificate: no PEM CERTIFICATE block" [])
  | _, [] => inl (Te "key: no PEM PRIVATE KEY block" [])
  | (c :: _) as certs, keyBlock :: _ =>
      if encrypted keyBlock then inl (Te "encrypted private keys are not supported" [])
      else match x509_Parse (bl_Bytes c) with
      | inl e => inl (Te "certificate: %w" [e])
      | inr leaf =>
          match usableKey (ce_PublicKey leaf) with
          | Some e => inl e
          | None =>
              match X509KeyPair (pem_chain certs) (pem_Encode (bl_Type keyBlock) (bl_Bytes keyBlock)) with
              | inl e => inl e
              | inr cert =>
                  let cert := cert <| tc_Leaf := Some leaf |> in
                  if ce_NotAfter leaf <? now then inl (Te "certificate expired" [])
                  else if now <? ce_NotBefore leaf then inl (Te "certificate not valid before" [])
                  else match CheckUsable cert with
                  | Some e => inl e
                  | None => inr (cert, leaf_warnings leaf hosts now)
                  end
              end
          end
      end
  end.

(** ** What is shown *)
Definition Info (cert : TCert K) : InfoData :=
  let leaf := match tc_Leaf cert, tc_Certificate cert with
              | Some leaf, _ => Some leaf
              | None, der :: _ => match x509_Parse der with inr leaf => Some leaf | inl _ => None end
              | None, [] => None
              end in
  match leaf with
  | None => no_info
  | Some leaf =>
      mkInfo (ce_Subject leaf) (ce_Issuer leaf) (ce_DNSNames leaf) (map IP_String (ce_IPAddresses leaf)) (ce_NotBefore leaf) (ce_NotAfter leaf)
        (Join (map HEX2 (sha256_Sum (ce_Raw leaf))) ":") (ce_IsCA leaf) (keyAlgo (ce_PublicKey leaf)) (of_chars (concat (map (fun b => chars (HEX2 b)) (ce_SerialNumber leaf))))
  end.
(** The loop of [MissingHosts]; [ips] are the addresses of the probe. *)
Fixpoint missing_loop (dns : list string) (ips : list (list Z)) (seen : list string) (hosts : list string) : list string :=
  match hosts with
  | [] => []
  | h :: hosts' =>
      let h := normalizeHost h in
      if String.eqb h "" || contains seen h || isLoopbackName h then missing_loop dns ips seen hosts'
      else (if x509_Covers dns ips h then [] else [h]) ++ missing_loop dns ips (h :: seen) hosts'
  end.
Definition MissingHosts (info : InfoData) (hosts : list string) : list string :=
  missing_loop (in_DNSNames info) (omap ParseIP (in_IPs info)) [] hosts.
Definition Warnings (info : InfoData) (hosts : list string) (now : Z) : list Warn :=
  if String.eqb (in_FingerprintSHA256 info) "" then []
  else expiryWarnings (in_NotAfter info) now ++ no_names (in_DNSNames info) (in_IPs info) ++ map WLacksHost (MissingHosts info hosts).
Definition DER (cert : TCert K) : option string := match tc_Certificate cert with [] => None | der :: _ => Some der end.
Definition PEM (cert : TCert K) : option string := pem_Encode "CERTIFICATE" <$> DER cert.

(** ** The store *)
(** None while it is empty; a handshake gets what [Get] answers. *)
Definition Store : Type := option (TCert K).
Definition Set_cert (cert : TCert K) : Store := Some (match tc_Certificate cert with der :: _ => with_leaf der cert | [] => cert end).
Definition Current (s : Store) : TCert K := default no_cert s.
Definition Get (s : Store) : option (TCert K) := s.
End Cert_checks.

Example san_ex : sanSet ["nas.lan."; "NAS.lan:8010"; " [fd00::1]:8010"; "0.0.0.0"; "*"; "127.0.0.1"; "::ffff:127.0.0.1"; ""; "[::]"] =
  mkSans ["nas.lan"; "localhost"] [[253; 0; 0; 0; 0; 0; 0; 0; 0; 0; 0; 0; 0; 0; 0; 1]; v4_mapped ++ [127; 0; 0; 1]; replicate 15 0 ++ [1]].
Proof. by vm_compute. Qed.
Example norm_ex : map normalizeHost ["[fd00::1]:80"; "Nas.LAN."; "*"; "[::]:80"; ":80"; "a:b:c"; ""] = ["fd00::1"; "nas.lan"; ""; ""; ":80"; "a:b:c"; ""].
Proof. by vm_compute. Qed.
