(* ===== verification/TlsManager.v ===== *)
(** The certificate manager (src/cmd/n5-fangov/tlsmgr.go, cert.go): the certificate the
    listener serves, the files of the tls directory and the three keys of the
    configuration, kept in agreement.

    The lock of the manager makes each operation one step.  The paths, the host names and
    the configuration's path never change and are variables. *)
From stdpp Require Import base gmap strings list sorting.
From Stdlib Require Import ZArith Lia Ascii.
From S2P Require Import Prelude GoLib GoNet GoPath ConfigTypes ConfigFields ConfigWeb ConfigParse ConfigEdit WebRedact ConfigFiles Stores TlsCert.
Open Scope Z_scope.

(** ** Where the files are *)
(** [filepath.Dir] *)
Definition Dir (p : string) : string := match cut_last "/" (chars p) with None => "." | Some (a, _) => Clean (of_chars (a ++ ["/"%char])) end.
Definition setupTLSDir : string := "tls".
Definition tlsDir (cfgPath : string) : string := JoinPath [Dir cfgPath; setupTLSDir].
(** [filepath.Abs]; [cwd] is None when the working directory is unknown. *)
Definition abs_path (cwd : option string) (p : string) : string :=
  if IsAbs p then Clean p else match cwd with Some d => JoinPath [d; p] | None => p end.
Definition customCertFile : string := "custom-cert.pem".
Definition customKeyFile : string := "custom-key.pem".
Definition modeFallback : string := "auto (fallback from file)".
Example tlsDir_ex : tlsDir "/etc/n5-fangov/config.toml" = "/etc/n5-fangov/tls" /\ tlsDir "config.toml" = "tls" /\ Dir "/x" = "/".
Proof. by vm_compute. Qed.

(** The names of the automatic certificate.  [primary] are the addresses of the machine,
    [hostname] its name. *)
Definition tlsHosts {O : MapOrder} (primary : list string) (hostname : option string) (listen : string) (allowed : list string) : list string :=
  let set := {["localhost"; "127.0.0.1"]} : gset string in
  let set := match SplitHostPort listen with
             | inl _ => set
             | inr (host, _) =>
                 if negb (String.eqb host "") && (match ParseIP host with Some ip => negb (IsUnspecified ip) | None => true end)
                 then {[host]} ∪ set else list_to_set primary ∪ set
             end in
  let set := match hostname with
             | Some hn =>
                 if String.eqb hn "" then set
                 else
                   let set := {[hn]} ∪ set in
                   match Cut hn "." with Some (short, _) => if String.eqb short "" then set else {[short]} ∪ set | None => set end
             | None => set
             end in
  let set := fold_left (fun set h =>
      let h := TrimSpace h in
      if String.eqb h "" || String.eqb h "*" then set
      else {[ match SplitHostPort h with inr (hh, _) => hh | inl _ => h end ]} ∪ set) allowed set in
  merge_sort String.le (elements set).

Record tlsManager (K : Type) := mkTls {
  tm_mode : string; tm_certFile : string; tm_keyFile : string; tm_fallback : bool; tm_ownsConfig : bool; tm_store : option (TCert K) }.
Arguments mkTls {K}.
Arguments tm_mode {K}.
Arguments tm_certFile {K}.
Arguments tm_keyFile {K}.
Arguments tm_fallback {K}.
Arguments tm_ownsConfig {K}.
Arguments tm_store {K}.
#[export] Instance eta_tlsManager {K} : Eta (tlsManager K) := fun m => mkTls (tm_mode m) (tm_certFile m) (tm_keyFile m) (tm_fallback m) (tm_ownsConfig m) (tm_store m).
(** What [pinConfig] reads. *)
Definition pin_of {K} (m : tlsManager K) : tlsPin := mkPin (tm_ownsConfig m) (tm_mode m) (tm_certFile m) (tm_keyFile m).
Inductive TlsErr := EOff | EFileMode | ENoCert | EValidation (e : TErr) | ECert (e : TErr) | EBoth (fellBack auto : TlsErr).
Definition is_mode {K} (m : tlsManager K) (s : string) : bool := String.eqb (tm_mode m) s.

Section Manager.
Context {W K : Type} {Fs : Files W} {Pk : Pki W K} {Prim : Type} `{!Toml Prim} {U : Url}.
Variable (env : string) (Decode : string -> string + Doc Prim).
Variable (cfgPath : string) (hosts : list string).
Local Abbreviation MT := (M (tlsManager K * W)).
Local Abbreviation tlsManager := (tlsManager K).

Definition options : Options := mkOptions (tlsDir cfgPath) hosts "n5-fangov".
Definition custom_cert : string := JoinPath [tlsDir cfgPath; customCertFile].
Definition custom_key : string := JoinPath [tlsDir cfgPath; customKeyFile].
Definition newTLSManager (mode certFile keyFile : string) : tlsManager := mkTls mode certFile keyFile false true None.
(** An operation on the files alone. *)
Definition liftW {A} (f : M W A) : MT A := fun '(m, w) => let '(a, w) := f w in (a, (m, w)).

(** ** Loading *)
Definition serve (cert : TCert K) : MT (option TlsErr) := fun '(m, w) =>
  match CheckUsable cert with
  | Some e => (Some (ECert e), (m, w))
  | None => (None, (m <| tm_store := Set_cert cert |>, w))
  end.
Definition served (path : string) (cert : TCert K) : MT (TlsErr + string) :=
  let* e := serve cert in ret (match e with Some e => inl e | None => inr path end).
Definition loadLocked (now : Z) (create : bool) : MT (TlsErr + string) := fun '(m, w) =>
  if is_mode m "off" then (inr "", (m, w))
  else if is_mode m "file" then
    match LoadFiles w (tm_certFile m) (tm_keyFile m) with
    | inl e => (inl (ECert e), (m, w))
    | inr cert => served (tm_certFile m) cert (m, w)
    end
  else
    let '(certPath, keyPath) := Paths (tlsDir cfgPath) in
    if negb create then
      match LoadFiles w certPath keyPath with
      | inl e => (inl (ECert e), (m, w))
      | inr cert => served certPath cert (m, w)
      end
    else
      let '(res, st) := liftW (EnsureAuto options now) (m, w) in
      match res with
      | inl e => (inl (ECert e), st)
      | inr cert => served certPath cert st
      end.
Definition shouldFallbackToAuto (mode : string) (failed : bool) : bool := String.eqb mode "file" && failed.
(** The path, and the error of the pair that was given up. *)
Definition loadForServe (now : Z) : MT (TlsErr + string * option TlsErr) := fun st =>
  let mode := tm_mode st.1 in
  let '(res, st) := loadLocked now true st in
  match res with
  | inr path => (inr (path, None), st)
  | inl fellBack =>
      if negb (shouldFallbackToAuto mode true) then (inl fellBack, st)
      else
        let '(res, st) := liftW (EnsureAuto options now) st in
        match res with
        | inl e => (inl (EBoth fellBack (ECert e)), st)
        | inr cert =>
            let '(e, (m, w)) := serve cert st in
            match e with
            | Some e => (inl e, (m, w))
            | None => (inr ((Paths (tlsDir cfgPath)).1, Some fellBack), (m <| tm_fallback := true |>, w))
            end
        end
  end.

(** ** Reading *)
Definition reportedMode (m : tlsManager) : string := if tm_fallback m then modeFallback else tm_mode m.
(** The information, or that there is none, and the mode. *)
Definition Info_tls (m : tlsManager) : TlsErr + InfoData :=
  if is_mode m "off" then inr no_info
  else match tc_Certificate (Current (tm_store m)) with [] => inl ENoCert | _ => inr (Info (Current (tm_store m))) end.
Definition Info_mode (m : tlsManager) : string := if is_mode m "off" then "off" else reportedMode m.
Definition current (m : tlsManager) : TlsErr + TCert K :=
  if is_mode m "off" then inl EOff
  else match tc_Certificate (Current (tm_store m)) with [] => inl ENoCert | _ => inr (Current (tm_store m)) end.
Definition export_with (f : TCert K -> option string) (m : tlsManager) : TlsErr + string :=
  match current m with
  | inl e => inl e
  | inr cur => match f cur with Some s => inr s | None => inl (ECert (Te "tlscert: empty certificate" [])) end
  end.
Definition ExportPEM_tls : tlsManager -> TlsErr + string := export_with PEM.
Definition ExportDER_tls : tlsManager -> TlsErr + string := export_with DER.

(** ** Changing *)
Definition Regenerate_tls (now : Z) (keepKey : bool) : MT (TlsErr + InfoData * bool) := fun '(m, w) =>
  if is_mode m "off" then (inl EOff, (m, w))
  else if is_mode m "file" && negb (tm_fallback m) then (inl EFileMode, (m, w))
  else
    let '(res, st) := liftW (if keepKey then Reissue options now
                             else let* res := Regenerate options now in ret (match res with inl e => inl e | inr cert => inr (cert, false) end)) (m, w) in
    match res with
    | inl e => (inl (ECert e), st)
    | inr (cert, kept) =>
        let '(e, st) := serve cert st in
        (match e with Some e => inl e | None => inr (Info cert, kept) end, st)
    end.
Definition readIfExists (w : W) (path : string) : option string := match fs_ReadFile w path with inr c => Some c | inl _ => None end.
(** Whether the file could be put back. *)
Definition restoreFile (path : string) (prev : option string) : M W bool :=
  match prev with
  | None => let* e := fs_Remove path in ret (match e with None | Some FsNotExist => true | Some _ => false end)
  | Some text => let* e := writePrivate path text in ret (match e with None => true | Some _ => false end)
  end.
Definition rollback (prevKey prevCert : option string) : M W bool :=
  let* a := restoreFile custom_key prevKey in
  let* b := restoreFile custom_cert prevCert in
  ret (a && b).
Definition writeMode (mode certFile keyFile : string) : M W (option TErr) := fun w =>
  match (match fs_ReadFile w cfgPath with inl FsNotExist => inr "" | r => r end) with
  | inl e => (Some (TeFs cfgPath e), w)
  | inr raw =>
      let '(e, w) := Save env Decode cfgPath (setTLSKeys raw mode certFile keyFile) w in
      (TeFs cfgPath <$> e, w)
  end.
(** The three writes of an upload; an error comes with whether everything was put back. *)
Definition store_pair (certPEM keyPEM : string) : M W (option (TErr * bool)) := fun w =>
  let prevCert := readIfExists w custom_cert in
  let prevKey := readIfExists w custom_key in
  let undo e := let* ok := rollback prevKey prevCert in ret (Some (e, ok)) in
  (let* e := writePrivate custom_key keyPEM in
   match e with
   | Some e => undo e
   | None =>
       let* e := writePrivate custom_cert certPEM in
       match e with
       | Some e => undo e
       | None =>
           let* e := writeMode "file" custom_cert custom_key in
           match e with Some e => undo e | None => ret None end
       end
   end) w.
Definition Upload (now : Z) (certPEM keyPEM : string) : MT (TlsErr * bool + InfoData * list Warn) := fun '(m, w) =>
  if is_mode m "off" then (inl (EOff, true), (m, w))
  else match ValidatePair certPEM keyPEM hosts now with
  | inl e => (inl (EValidation e, true), (m, w))
  | inr (cert, warns) =>
      let '(e, w) := fs_MkdirAll (tlsDir cfgPath) w in
      match e with
      | Some e => (inl (ECert (TeFs (tlsDir cfgPath) e), true), (m, w))
      | None =>
          let '(e, w) := store_pair certPEM keyPEM w in
          match e with
          | Some (e, ok) => (inl (ECert e, ok), (m, w))
          | None => (inr (Info cert, warns), (mkTls "file" custom_cert custom_key false true (Set_cert cert), w))
          end
      end
  end.
Definition remove_custom : M W unit :=
  let* _ := fs_Remove custom_cert in let* _ := fs_Remove custom_key in ret tt.
Definition ResetAuto (now : Z) : MT (TlsErr + InfoData) := fun '(m, w) =>
  if is_mode m "off" then (inl EOff, (m, w))
  else
    let '(res, w) := EnsureAuto options now w in
    match res with
    | inl e => (inl (ECert e), (m, w))
    | inr cert =>
        match CheckUsable cert with
        | Some e => (inl (ECert e), (m, w))
        | None =>
            let '(e, w) := writeMode "auto" "" "" w in
            match e with
            | Some e => (inl (ECert e), (m, w))
            | None =>
                let '(_, w) := remove_custom w in
                (inr (Info cert), (mkTls "auto" "" "" false true (Set_cert cert), w))
            end
        end
    end.
Definition pinConfig_tls (m : tlsManager) (raw : string) : string := pinConfig env Decode (pin_of m) raw.

(** ** Sequences *)
Inductive TlsOp := TLoad (now : Z) (create : bool) | TServe (now : Z) | TRegenerate (now : Z) (keepKey : bool) | TUpload (now : Z) (certPEM keyPEM : string) | TReset (now : Z).
Definition tls_op (op : TlsOp) : MT unit :=
  match op with
  | TLoad now create => let* _ := loadLocked now create in ret tt
  | TServe now => let* _ := loadForServe now in ret tt
  | TRegenerate now keepKey => let* _ := Regenerate_tls now keepKey in ret tt
  | TUpload now c k => let* _ := Upload now c k in ret tt
  | TReset now => let* _ := ResetAuto now in ret tt
  end.
End Manager.
