(* ===== verification/WebTls.v ===== *)
(** The certificate endpoints (src/internal/web/tls.go): [/api/tls] and below, over the
    interface of the certificate manager; and the filter of rejected handshakes in front of
    the error log (errlog.go).

    A handler answers with a status and the members of the answer that depend on the
    manager. *)
From stdpp Require Import base gmap strings list.
From Stdlib Require Import ZArith Lia Ascii.
From S2P Require Import Prelude GoLib GoNet GoPath ConfigTypes ConfigFields ConfigWeb ConfigParse ConfigEdit WebRedact ConfigFiles WebGuard WebAccount TlsCert TlsManager.
Open Scope Z_scope.

(** [TLSMgr], with [TLSFallback] where the manager has it. *)
Class TLSMgr (S : Type) := {
  mgr_Info : S -> (TlsErr + InfoData) * string;
  mgr_ExportPEM : S -> TlsErr + string;
  mgr_ExportDER : S -> TlsErr + string;
  mgr_Regenerate : Z -> bool -> M S (TlsErr + InfoData * bool);
  mgr_Upload : Z -> string -> string -> M S (TlsErr + InfoData * list Warn);
  mgr_ResetAuto : Z -> M S (TlsErr + InfoData);
  mgr_Fallback : S -> option bool }.
Definition maxTLSUpload : Z := Z.shiftl 64 10.

(** [r.FormFile]: None without a file, [Some None] for one that does not read. *)
Record Form := mkForm { fm_File : string -> option (option string); fm_Value : string -> string }.
Inductive UploadBody := UBad (status : Z) | UForm (f : Form) | UJson (cert key : string) (force : bool).
Definition formPart (f : Form) (name : string) : option string :=
  match fm_File f name with
  | Some None => None
  | Some (Some b) => if maxTLSUpload <? Z.of_nat (String.length b) then None else Some b
  | None => if String.eqb (fm_Value f name) "" then None else Some (fm_Value f name)
  end.
Definition form_force (f : Form) : bool := contains ["1"; "true"; "on"; "yes"] (ToLower (TrimSpace (fm_Value f "force"))).
(** The certificate, the key and force. *)
Definition upload_parts (b : UploadBody) : Z + string * string * bool :=
  match b with
  | UBad status => inl status
  | UJson cert key force => inr (cert, key, force)
  | UForm f =>
      match formPart f "cert", formPart f "key" with
      | Some cert, Some key => inr (cert, key, form_force f)
      | _, _ => inl 400
      end
  end.
Definition blank (s : string) : bool := String.eqb (TrimSpace s) "".
(** [tls]: the server name of the handshake, None without TLS. *)
Definition connectedHost (tls : option string) (host : string) : string :=
  match tls with
  | None => ""
  | Some name => if String.eqb name "" then WebGuard.normalizeHost host else ToLower (TrimSuffix name ".")
  end.
Inductive KeyWarning := NewKey | KeyNotReused.
Record TlsState := mkTlsState { ts_mode : string; ts_hosts : list string; ts_info : option InfoData; ts_warnings : list Warn; ts_fallback : bool }.
Inductive UploadAnswer := UStatus (status : Z) | UForce (host : string) | UDone (info : InfoData) (warns : list Warn).

Section Web_tls.
Context {W K : Type} {Pk : Pki W K} {S : Type}.
(** [s.deps]: the manager and the names; what [nonNil] and [tlsInfoJSON] make of a nil list
    is the list. *)
Variable (mgr : option (TLSMgr S)) (TLSHosts : list string).

Definition tlsFail (e : TlsErr) (clientErr : bool) : Z :=
  match e with
  | EOff | EFileMode => 409
  | _ => if clientErr then 400 else 500
  end.
Definition isValidationError (e : TlsErr) : bool := match e with EValidation _ => true | _ => false end.
Definition is_off (i : (TlsErr + InfoData) * string) : bool := match i with (inr _, mode) => String.eqb mode "off" | _ => false end.
Definition tlsMgr (off : bool) (s : S) : Z + TLSMgr S :=
  match mgr with
  | None => inl 501
  | Some m => if off && is_off (mgr_Info s) then inl 409 else inr m
  end.
Definition getTLS (now : Z) (s : S) : Z + TlsState :=
  match tlsMgr false s with
  | inl status => inl status
  | inr m =>
      match mgr_Info s with
      | (inl e, mode) => match e with EOff => inr (mkTlsState mode TLSHosts None [] (default false (mgr_Fallback s))) | e => inl (tlsFail e false) end
      | (inr info, mode) =>
          if String.eqb mode "off" || String.eqb (in_FingerprintSHA256 info) "" then inr (mkTlsState mode TLSHosts None [] (default false (mgr_Fallback s)))
          else inr (mkTlsState mode TLSHosts (Some info) (Warnings info TLSHosts now) (default false (mgr_Fallback s)))
      end
  end.
Definition tlsCert (which : TLSMgr S -> S -> TlsErr + string) (s : S) : Z + string :=
  match tlsMgr true s with
  | inl status => inl status
  | inr m => match which m s with inl e => inl (tlsFail e false) | inr data => inr data end
  end.
Definition tlsCertPEM : S -> Z + string := tlsCert (@mgr_ExportPEM S).
Definition tlsCertDER : S -> Z + string := tlsCert (@mgr_ExportDER S).
(** [keep_key] of the body, true by default. *)
Definition tlsRegenerate (now : Z) (body : Body (option bool)) (s : S) : (Z + InfoData * bool * bool * option KeyWarning) * S :=
  match tlsMgr true s with
  | inl status => (inl status, s)
  | inr m =>
      match body with
      | Bad status => (inl status, s)
      | Decoded b =>
          let keep := default true b in
          let '(res, s) := mgr_Regenerate now keep s in
          match res with
          | inl e => (inl (tlsFail e false), s)
          | inr (info, kept) => (inr (info, keep, kept, if negb keep then Some NewKey else if negb kept then Some KeyNotReused else None), s)
          end
      end
  end.
(** The first certificate does not cover the name; None when there is none that parses. *)
Definition leafLacksHost (certPEM host : string) : option bool :=
  match find is_certificate (pem_blocks certPEM) with
  | None => None
  | Some b =>
      match x509_Parse (bl_Bytes b) with
      | inl _ => None
      | inr leaf => Some (negb (x509_Covers (ce_DNSNames leaf) (ce_IPAddresses leaf) host))
      end
  end.
Definition tlsUpload (now : Z) (tls : option string) (host : string) (body : UploadBody) (s : S) : UploadAnswer * S :=
  match tlsMgr true s with
  | inl status => (UStatus status, s)
  | inr m =>
      match upload_parts body with
      | inl status => (UStatus status, s)
      | inr (certPEM, keyPEM, force) =>
          if blank certPEM || blank keyPEM then (UStatus 400, s)
          else
            let h := connectedHost tls host in
            if negb (String.eqb h "") && negb force && default false (leafLacksHost certPEM h) then (UForce h, s)
            else
              let '(res, s) := mgr_Upload now certPEM keyPEM s in
              (match res with
               | inl e => UStatus (tlsFail e (isValidationError e))
               | inr (info, warns) => UDone info warns
               end, s)
      end
  end.
Definition tlsReset (now : Z) (s : S) : (Z + InfoData) * S :=
  match tlsMgr true s with
  | inl status => (inl status, s)
  | inr m => let '(res, s) := mgr_ResetAuto now s in (match res with inl e => inl (tlsFail e false) | inr info => inr info end, s)
  end.
End Web_tls.

(** ** The manager of the daemon *)
Section Daemon_manager.
Context {W K : Type} {Fs : Files W} {Pk : Pki W K} {Prim : Type} `{!Toml Prim} {U : Url}.
Variable (env : string) (Decode : string -> string + Doc Prim) (cfgPath : string) (hosts : list string).
Definition daemon_mgr : TLSMgr (tlsManager K * W) := {|
  mgr_Info st := (Info_tls st.1, Info_mode st.1);
  mgr_ExportPEM st := ExportPEM_tls st.1;
  mgr_ExportDER st := ExportDER_tls st.1;
  mgr_Regenerate now keep := Regenerate_tls cfgPath hosts now keep;
  mgr_Upload now c k st := let '(res, st) := Upload env Decode cfgPath hosts now c k st in (match res with inl (e, _) => inl e | inr r => inr r end, st);
  mgr_ResetAuto now := ResetAuto env Decode cfgPath hosts now;
  mgr_Fallback st := Some (tm_fallback st.1) |}.
End Daemon_manager.

(** ** Rejected handshakes (src/internal/web/errlog.go)

    The error log of the HTTP server: lines on rejected handshakes are counted by client and
    summarised, the others pass.  [hf_last] is None before the first summary. *)
Record handshakeFilter := mkFilter { hf_count : Z; hf_clients : gset string; hf_overflow : bool; hf_last : option Z }.
Inductive HsLine := HsPass (line : string) | HsSummary (count clients : Z) (more : bool).
Definition handshakeSummaryEvery : Z := 10 * Minute.
Definition handshakeClientsMax : Z := 1024.
Definition handshakeMarker : string := "TLS handshake error".
Definition newHandshakeFilter : handshakeFilter := mkFilter 0 ∅ false None.
Definition trim_right (p : ascii -> bool) (l : list ascii) : list ascii := rev (drop_while p (rev l)).
Definition line_end (c : ascii) : bool := is_char c "013" || is_char c "010".
Definition is_bracket (c : ascii) : bool := is_char c "[" || is_char c "]".
(** The client of "... error from <ip>:<port>: ...", "" without such a part. *)
Definition handshakeIP (line : string) : string :=
  let marker := String.append handshakeMarker " from " in
  match Index line marker with
  | None => ""
  | Some i =>
      let rest := slice line (i + String.length marker) (String.length line) in
      let addr := match Index rest ": " with Some j => slice rest 0 j | None => rest end in
      let host := match cut_last ":" (chars addr) with Some ((_ :: _) as h, _) => h | _ => chars addr end in
      of_chars (trim_right is_bracket (drop_while is_bracket host))
  end.
(** [Write]: one line at the time [now], and what reaches the log. *)
Definition hs_write (now : Z) (text : string) (f : handshakeFilter) : option HsLine * handshakeFilter :=
  let line := of_chars (trim_right line_end (chars text)) in
  if negb (Contains line handshakeMarker) then (Some (HsPass line), f)
  else
    let count := hf_count f + 1 in
    let ip := handshakeIP line in
    let '(clients, overflow) :=
      if Z.of_nat (size (hf_clients f)) <? handshakeClientsMax then ({[ip]} ∪ hf_clients f, hf_overflow f)
      else (hf_clients f, hf_overflow f || negb (bool_decide (ip ∈ hf_clients f))) in
    if match hf_last f with None => true | Some last => handshakeSummaryEvery <=? now - last end
    then (Some (HsSummary count (Z.of_nat (size clients)) overflow), mkFilter 0 ∅ false (Some now))
    else (None, mkFilter count clients overflow (hf_last f)).
Example handshake_ip : map handshakeIP ["http: TLS handshake error from 10.0.0.7:51234: EOF"; "http: TLS handshake error from [fe80::1]:4: remote error: tls: unknown certificate"; "TLS handshake error"]
  = ["10.0.0.7"; "fe80::1"; ""].
Proof. by vm_compute. Qed.

(** The lines of a run, with their times, and what reached the log when. *)
Fixpoint hs_run (lines : list (Z * string)) (f : handshakeFilter) : list (Z * HsLine) * handshakeFilter :=
  match lines with
  | [] => ([], f)
  | (now, text) :: lines' =>
      let '(out, f) := hs_write now text f in
      let '(outs, f) := hs_run lines' f in
      (match out with Some l => (now, l) :: outs | None => outs end, f)
  end.
Definition hs_counted (outs : list (Z * HsLine)) : Z := fold_right (fun e n => match e.2 with HsSummary c _ _ => c + n | HsPass _ => n end) 0 outs.
Definition hs_summaries (outs : list (Z * HsLine)) : list Z := omap (fun e => match e.2 with HsSummary _ _ _ => Some e.1 | HsPass _ => None end) outs.
Definition rejected (text : string) : bool := Contains (of_chars (trim_right line_end (chars text))) handshakeMarker.
Fixpoint spaced_from (last : option Z) (l : list Z) : Prop :=
  match l with
  | [] => True
  | t :: l' => match last with None => True | Some t0 => handshakeSummaryEvery <= t - t0 end /\ spaced_from (Some t) l'
  end.
Definition hf_ok (f : handshakeFilter) : Prop := Z.of_nat (size (hf_clients f)) <= handshakeClientsMax /\ Z.of_nat (size (hf_clients f)) <= hf_count f.
(** However many clients are rejected, the table stays bounded, summaries are ten minutes
    apart, and every rejected handshake is counted in exactly one of them or still to be
    reported. *)
Lemma handshakes_counted lines f : hf_ok f ->
  let '(outs, f') := hs_run lines f in
  hf_ok f' /\ spaced_from (hf_last f) (hs_summaries outs) /\
  hs_counted outs + hf_count f' = hf_count f + Z.of_nat (length (List.filter (fun e => rejected e.2) lines)).
Proof.
  assert (Hz : forall last, hf_ok (mkFilter 0 ∅ false last)) by (intros last; unfold hf_ok; cbn; rewrite size_empty; by vm_compute).
  revert f. induction lines as [|[now text] lines IH]; intros f Hf; cbn [hs_run].
  { split; [done|]. split; [done|]. cbn. lia. }
  destruct (hs_write now text f) as [out f1] eqn:E.
  assert (H1 : hf_ok f1 /\ match out with
    | Some (HsSummary c _ _) => rejected text = true /\ c = hf_count f + 1 /\ hf_count f1 = 0 /\ hf_last f1 = Some now /\
        match hf_last f with None => True | Some last => handshakeSummaryEvery <= now - last end
    | Some (HsPass _) => rejected text = false /\ f1 = f
    | None => rejected text = true /\ hf_count f1 = hf_count f + 1 /\ hf_last f1 = hf_last f end).
  { unfold hs_write in E. fold (rejected text) in E. destruct (rejected text); cbn [negb] in E; [|injection E as <- <-; by split].
    set (cs := if Z.of_nat (size (hf_clients f)) <? handshakeClientsMax then _ else _) in E.
    assert (Hc : Z.of_nat (size cs.1) <= handshakeClientsMax /\ Z.of_nat (size cs.1) <= hf_count f + 1).
    { destruct Hf as [Hf1 Hf2]. unfold cs. destruct (Z.ltb_spec (Z.of_nat (size (hf_clients f))) handshakeClientsMax); cbn [fst]; [|lia].
      pose proof (size_union_alt {[handshakeIP (of_chars (trim_right line_end (chars text)))]} (hf_clients f)) as Hu.
      rewrite size_singleton in Hu. pose proof (subseteq_size (hf_clients f ∖ {[handshakeIP (of_chars (trim_right line_end (chars text)))]}) (hf_clients f) ltac:(set_solver)). lia. }
    destruct cs as [clients overflow]. cbn [fst] in Hc. destruct (hf_last f) as [last|] eqn:El.
    - destruct (Z.leb_spec handshakeSummaryEvery (now - last)); injection E as <- <-; (split; [apply Hz || exact Hc|done]).
    - injection E as <- <-. by split; [apply Hz|]. }
  destruct H1 as [Hok H1]. specialize (IH f1 Hok). destruct (hs_run lines f1) as [outs f']. destruct IH as (IH1 & IH2 & IH3). split; [done|].
  destruct out as [[line|c n more]|]; cbn [List.filter snd].
  - destruct H1 as [-> ->]. by split.
  - destruct H1 as (-> & -> & H0 & Hl & Hs). rewrite Hl in IH2. split; [by split|]. cbn [hs_counted fold_right snd length]. fold (hs_counted outs). lia.
  - destruct H1 as (-> & H0 & Hl). rewrite Hl in IH2. split; [done|]. cbn [length]. lia.
Qed.
