(* ===== verification/TlsRules.v ===== *)
(** What the certificate manager guarantees: the listener only ever gets a certificate it
    can serve, an upload takes effect as a whole or not at all and survives a restart, the
    automatic certificate is kept as long as it fits, and an upload over TLS does not lock
    the browser out. *)
From stdpp Require Import base gmap strings list sorting.
From Stdlib Require Import ZArith Lia Ascii.
From S2P Require Import Prelude GoLib GoNet GoPath ConfigTypes ConfigFields ConfigWeb ConfigParse ConfigRules ConfigEdit WebAccount WebRedact ConfigFiles PresetStore Stores TlsCert TlsManager WebTls.
Open Scope Z_scope.

#[local] Opaque setTLSKeys custom_cert custom_key Paths.

(** ** Blocks *)
Section Blocks.
Context {W K : Type} {Fs : Files W} {Pk : Pki W K} {Ok : PkiLaws W K}.
Lemma blocks_enough (f : nat) : forall raw, (String.length raw < f)%nat -> blocks_loop f raw = pem_blocks raw.
Proof.
  unfold pem_blocks. induction f as [f IH] using lt_wf_ind. intros raw Hf. destruct f as [|f]; [lia|]. cbn.
  destruct (pem_Decode raw) as [[b rest]|] eqn:E; [|done]. apply decode_shorter in E. f_equal.
  rewrite (IH f) by lia. symmetry. destruct (decide (String.length raw = f)) as [<-|Hne]; [by rewrite (IH _) by lia|].
  by rewrite (IH (String.length raw)) by lia.
Qed.
Lemma pem_blocks_cons raw b rest : pem_Decode raw = Some (b, rest) -> pem_blocks raw = b :: pem_blocks rest.
Proof. intros E. unfold pem_blocks at 1. cbn. rewrite E. f_equal. apply blocks_enough. by eapply decode_shorter. Qed.
Lemma pem_blocks_nil : pem_blocks "" = [].
Proof. unfold pem_blocks. cbn. by rewrite decode_end. Qed.
Lemma blocks_types raw b : b ∈ pem_blocks raw -> exists s b' r, pem_Decode s = Some (b', r) /\ bl_Type b' = bl_Type b.
Proof.
  unfold pem_blocks. generalize (S (String.length raw)) as f. intros f. revert raw. induction f as [|f IH]; intros raw; cbn; [intros H; by apply elem_of_nil in H|].
  destruct (pem_Decode raw) as [[b' rest]|] eqn:E; [|intros H; by apply elem_of_nil in H].
  intros [->|H]%elem_of_cons; eauto.
Qed.
Lemma pem_encode_blocks t bytes rest : t = "CERTIFICATE" \/ t = "PRIVATE KEY" \/ (exists s b r, pem_Decode s = Some (b, r) /\ bl_Type b = t) ->
  pem_blocks (String.append (pem_Encode t bytes) rest) = mkBlock t "" bytes :: pem_blocks rest.
Proof. intros H. by apply pem_blocks_cons, decode_encode. Qed.
Lemma pem_encode_one t bytes : t = "CERTIFICATE" \/ t = "PRIVATE KEY" \/ (exists s b r, pem_Decode s = Some (b, r) /\ bl_Type b = t) ->
  pem_blocks (pem_Encode t bytes) = [mkBlock t "" bytes].
Proof. intros H. rewrite <- (append_nil_r (pem_Encode t bytes)). by rewrite pem_encode_blocks, pem_blocks_nil. Qed.
Lemma pem_chain_blocks bs : pem_blocks (pem_chain bs) = map (fun b => mkBlock "CERTIFICATE" "" (bl_Bytes b)) bs.
Proof. induction bs as [|b bs IH]; [apply pem_blocks_nil|]. cbn [pem_chain fold_right map]. rewrite pem_encode_blocks by (by left). by f_equal. Qed.
Lemma filter_chain bs : List.filter is_certificate (map (fun b => mkBlock "CERTIFICATE" "" (bl_Bytes b)) bs) = map (fun b => mkBlock "CERTIFICATE" "" (bl_Bytes b)) bs.
Proof. induction bs as [|b bs IH]; [done|]. cbn. by f_equal. Qed.

(** ** Pairs *)
Lemma suffix_key t : HasSuffix t " PRIVATE KEY" = true -> HasSuffix t "PRIVATE KEY" = true.
Proof.
  unfold HasSuffix. intros H. destruct (HasPrefix_inv _ _ H) as [r ->]. 
  change (of_chars (rev (chars " PRIVATE KEY"))) with (String.append (of_chars (rev (chars "PRIVATE KEY"))) " "). rewrite append_assoc. apply HasPrefix_append.
Qed.
Lemma is_private_suffix b : is_private_key b = true -> HasSuffix (bl_Type b) "PRIVATE KEY" = true.
Proof. unfold is_private_key. intros [H|H]%orb_prop; [apply String.eqb_eq in H as ->; done|by apply suffix_key]. Qed.
Lemma find_private bs b rest : List.filter (fun b => HasSuffix (bl_Type b) "PRIVATE KEY") bs = b :: rest -> is_private_key b = true -> find is_private_key bs = Some b.
Proof.
  induction bs as [|a bs IH]; cbn; [done|]. destruct (HasSuffix (bl_Type a) "PRIVATE KEY") eqn:E.
  - intros [= -> _] H. by rewrite H.
  - intros H Hb. destruct (is_private_key a) eqn:Ea; [apply is_private_suffix in Ea; congruence|]. by apply IH.
Qed.
Lemma X509KeyPair_leaf c k cert : X509KeyPair c k = inr cert -> exists leaf key der,
  tc_Leaf cert = Some leaf /\ tc_PrivateKey cert = Some key /\ x509_Parse der = inr leaf /\ fits (ce_PublicKey leaf) key = true /\ head (tc_Certificate cert) = Some der.
Proof.
  unfold X509KeyPair. destruct (map _ _) as [|der chain]; [done|]. destruct (find _ _) as [b|]; [|done].
  destruct (x509_Parse der) as [|leaf] eqn:Ex; [done|]. destruct (tls_ParsePrivate _) as [key|]; [|done].
  destruct (fits _ _) eqn:Ef; [|done]. intros [= <-]. by exists leaf, key, der.
Qed.
Lemma LoadFiles_pair w c k : LoadFiles w c k = match fs_ReadFile w c, fs_ReadFile w k with
  | inl e, _ => inl (TeFs c e) | _, inl e => inl (TeFs k e) | inr ct, inr kt => X509KeyPair ct kt end.
Proof.
  unfold LoadFiles, LoadX509KeyPair. destruct (fs_ReadFile w c) as [|ct]; [done|]. destruct (fs_ReadFile w k) as [|kt]; [done|].
  destruct (X509KeyPair ct kt) as [|cert] eqn:E; [done|]. apply X509KeyPair_leaf in E as (leaf & _ & _ & -> & _). done.
Qed.
(** A pair that was found valid is the one its files load to. *)
Lemma ValidatePair_ok certPEM keyPEM hosts now cert warns : ValidatePair certPEM keyPEM hosts now = inr (cert, warns) ->
  X509KeyPair certPEM keyPEM = inr cert /\ CheckUsable cert = None /\
  exists b leaf, find is_certificate (pem_blocks certPEM) = Some b /\ x509_Parse (bl_Bytes b) = inr leaf /\ tc_Leaf cert = Some leaf /\
    ce_NotBefore leaf <= now <= ce_NotAfter leaf.
Proof.
  unfold ValidatePair. destruct (List.filter is_certificate (pem_blocks certPEM)) as [|c certs] eqn:Ec; [done|].
  destruct (List.filter _ (pem_blocks keyPEM)) as [|kb kbs] eqn:Ek; [done|]. destruct (encrypted kb); [done|].
  destruct (x509_Parse (bl_Bytes c)) as [|leaf] eqn:Ex; [done|]. destruct (usableKey _); [done|].
  destruct (X509KeyPair (pem_chain (c :: certs)) _) as [|cert0] eqn:Ep; [done|].
  destruct (_ <? now) eqn:Ea; [done|]. destruct (now <? _) eqn:Eb; [done|]. destruct (CheckUsable _) eqn:Eu; [done|]. intros [= <- <-].
  assert (Hk : kb ∈ pem_blocks keyPEM). { apply list_elem_of_In. eapply proj1, filter_In. rewrite Ek. by left. }
  apply blocks_types in Hk as Ht.
  assert (Hpair : X509KeyPair certPEM keyPEM = inr (cert0 <| tc_Leaf := Some leaf |>)).
  { unfold X509KeyPair in Ep |- *. rewrite pem_chain_blocks, filter_chain, pem_encode_one in Ep by (right; right; exact Ht). rewrite Ec.
    cbn [map bl_Bytes] in Ep |- *. rewrite map_map in Ep. cbn [bl_Bytes find] in Ep.
    destruct (is_private_key (mkBlock (bl_Type kb) "" (bl_Bytes kb))) eqn:Ei; [|done].
    rewrite (find_private _ _ _ Ek Ei). cbn [bl_Bytes] in Ep. rewrite Ex in Ep |- *. destruct (tls_ParsePrivate (bl_Bytes kb)); [|done].
    destruct (fits _ _); [|done]. injection Ep as <-. done. }
  split; [done|]. split; [done|]. exists c, leaf. split_and!; try done; [|lia|lia].
  destruct (pem_blocks certPEM) as [|b bs] eqn:Eb'; [done|]. clear -Ec. revert Ec. generalize (b :: bs) as l. intros l.
  induction l as [|a l IH]; cbn; [done|]. destruct (is_certificate a); [by intros [= -> _]|exact IH].
Qed.
End Blocks.

(** ** Files *)
Section Writes.
Context {W K : Type} {Fs : Files W} {Fl : FilesLaws W} {Pk : Pki W K} {Ok : PkiLaws W K} {Prim : Type} `{!Toml Prim} {U : Url}.
Variable (env : string) (Decode : string -> string + Doc Prim) (cfgPath : string) (hosts : list string).
Local Abbreviation read := fs_ReadFile.
(** Nothing but the files [ps] is touched. *)
Definition only (ps : list string) (w w' : W) : Prop := forall q, q ∉ ps -> read w' q = read w q.
Lemma only_refl ps w : only ps w w.
Proof. by intros q _. Qed.
Lemma only_trans ps w1 w2 w3 : only ps w1 w2 -> only ps w2 w3 -> only ps w1 w3.
Proof. intros H1 H2 q Hq. by rewrite H2, H1. Qed.
Lemma only_all ps w w' : (forall q, read w' q = read w q) -> only ps w w'.
Proof. by intros H q _. Qed.
Lemma writePrivate_spec p text w : let '(e, w') := writePrivate p text w in only [p] w w' /\
  match e with None => read w' p = inr text | Some _ => forall q, read w' q = read w q end.
Proof.
  unfold writePrivate, bind, ret. destruct (fs_Write p text 384 w) as [[e|] w'] eqn:E; cbn.
  - pose proof (write_no w p text 384 e w' E) as H. split; [by apply only_all|done].
  - apply write_ok in E as [E H]. split; [|done]. intros q Hq. apply H. by intros ->; apply Hq, list_elem_of_singleton.
Qed.
Definition readable (w : W) (p : string) : Prop := match read w p with inr _ | inl FsNotExist => True | _ => False end.
Lemma restoreFile_spec p w0 w : readable w0 p -> let '(ok, w') := restoreFile p (readIfExists w0 p) w in only [p] w w' /\ (ok = true -> read w' p = read w0 p).
Proof.
  unfold readable, readIfExists. destruct (read w0 p) as [e|c] eqn:E0.
  - destruct e; try done. intros _. unfold restoreFile, bind, ret. destruct (fs_Remove p w) as [[e|] w'] eqn:E.
    + apply remove_no in E as [He Hq]. split; [by apply only_all|]. destruct e; try done. intros _. rewrite Hq. by apply He.
    + apply remove_ok in E as [He Hq]. split; [|done]. intros q Hne. apply Hq. by intros ->; apply Hne, list_elem_of_singleton.
  - intros _. unfold restoreFile, bind, ret. pose proof (writePrivate_spec p c w) as H. destruct (writePrivate p c w) as [[e|] w']; destruct H as [H1 H2]; [done|].
    split; [done|]. intros _. done.
Qed.
Local Abbreviation cc := (custom_cert cfgPath).
Local Abbreviation ck := (custom_key cfgPath).
Lemma only_mono ps qs w w' : (forall p, p ∈ ps -> p ∈ qs) -> only ps w w' -> only qs w w'.
Proof. intros Hs H q Hq. apply H. by intros Hp; apply Hq, Hs. Qed.
Lemma rollback_spec w0 w : cc <> ck -> readable w0 cc -> readable w0 ck -> only [cc; ck] w0 w ->
  let '(ok, w') := rollback cfgPath (readIfExists w0 ck) (readIfExists w0 cc) w in ok = true -> forall q, read w' q = read w0 q.
Proof.
  intros Hne Hc Hk Ho. unfold rollback, bind, ret. pose proof (restoreFile_spec ck w0 w Hk) as H1.
  destruct (restoreFile ck _ w) as [a w1]. destruct H1 as [H1 H1']. pose proof (restoreFile_spec cc w0 w1 Hc) as H2.
  destruct (restoreFile cc _ w1) as [b w2]. destruct H2 as [H2 H2']. intros [Ha Hb]%andb_prop q.
  destruct (decide (q = cc)) as [->|Hqc]; [by apply H2'|]. rewrite H2 by (by rewrite list_elem_of_singleton).
  destruct (decide (q = ck)) as [->|Hqk]; [by apply H1'|]. rewrite H1 by (by rewrite list_elem_of_singleton).
  apply Ho. set_solver.
Qed.
Definition config_text (w : W) : string := match read w cfgPath with inr raw => raw | inl _ => "" end.
Lemma writeMode_spec mode c k w : let '(e, w') := writeMode env Decode cfgPath mode c k w in only [cfgPath] w w' /\
  match e with None => read w' cfgPath = inr (setTLSKeys (config_text w) mode c k) | Some _ => forall q, read w' q = read w q end.
Proof.
  unfold writeMode, config_text. assert (Hw : forall raw, let '(e, w') := (let '(e, w) := Save env Decode cfgPath (setTLSKeys raw mode c k) w in (TeFs cfgPath <$> e, w)) in
    only [cfgPath] w w' /\ match e with None => read w' cfgPath = inr (setTLSKeys raw mode c k) | Some _ => forall q, read w' q = read w q end).
  { intros raw. unfold Save. destruct (fs_Write _ _ _ w) as [[e|] w'] eqn:E; cbn.
    - pose proof (write_no _ _ _ _ e w' E) as H. split; [by apply only_all|done].
    - apply write_ok in E as [E H]. split; [|done]. intros q Hq. apply H. by intros ->; apply Hq, list_elem_of_singleton. }
  destruct (read w cfgPath) as [[]|raw]; try apply Hw; (split; [apply only_refl|done]).
Qed.
(** The three writes: all of them, or an error and, unless putting back failed, none. *)
Lemma store_pair_spec c k w : cc <> ck -> cfgPath ∉ [cc; ck] -> readable w cc -> readable w ck ->
  let '(e, w') := store_pair env Decode cfgPath c k w in
  match e with
  | None => read w' cc = inr c /\ read w' ck = inr k /\ read w' cfgPath = inr (setTLSKeys (config_text w) "file" cc ck) /\ only [cc; ck; cfgPath] w w'
  | Some (_, ok) => ok = true -> forall q, read w' q = read w q
  end.
Proof.
  intros Hne Hcfg Hrc Hrk. unfold store_pair, bind, ret.
  pose proof (writePrivate_spec ck k w) as H1. destruct (writePrivate ck k w) as [[e|] w1]; destruct H1 as [H1 H1'].
  - pose proof (rollback_spec w w1 Hne Hrc Hrk ltac:(by eapply only_mono; [|exact H1]; set_solver)) as Hb. by destruct (rollback _ _ _ w1).
  - pose proof (writePrivate_spec cc c w1) as H2. destruct (writePrivate cc c w1) as [[e|] w2]; destruct H2 as [H2 H2'].
    + pose proof (rollback_spec w w2 Hne Hrc Hrk) as Hb. destruct (rollback _ _ _ w2). apply Hb.
      eapply only_trans; (eapply only_mono; [|eassumption]); set_solver.
    + pose proof (writeMode_spec "file" cc ck w2) as H3. destruct (writeMode _ _ _ _ _ _ w2) as [[e|] w3]; destruct H3 as [H3 H3'].
      * pose proof (rollback_spec w w3 Hne Hrc Hrk) as Hb. destruct (rollback _ _ _ w3). apply Hb. intros q Hq. rewrite H3'. revert q Hq. fold (only [cc; ck] w w2).
        eapply only_trans; (eapply only_mono; [|eassumption]); set_solver.
      * split_and!.
        { rewrite H3 by set_solver. done. }
        { rewrite H3 by set_solver. rewrite H2 by set_solver. done. }
        { rewrite H3'. assert (Et : config_text w2 = config_text w) by (unfold config_text; rewrite H2 by set_solver; by rewrite H1 by set_solver). rewrite Et. reflexivity. }
        { eapply only_trans; [eapply only_trans|]; (eapply only_mono; [|eassumption]); set_solver. }
Qed.
End Writes.

(** ** The automatic pair *)
Section Auto.
Context {W K : Type} {Fs : Files W} {Fl : FilesLaws W} {Pk : Pki W K} {Ok : PkiLaws W K}.
Variable (o : Options).
Local Abbreviation cp := (Paths (op_Dir o)).1.
Local Abbreviation kp := (Paths (op_Dir o)).2.
Local Abbreviation want := (sanSet (op_Hosts o)).
(** The certificate of [generate]: what it says, its key, and that its files load to it. *)
Definition generated (now : Z) (key : option K) (cert : TCert K) (w' : W) : Prop := exists leaf k,
  tc_Leaf cert = Some leaf /\ tc_PrivateKey cert = Some k /\ (forall k', key = Some k' -> k = k') /\ is_ecdsa k = true /\
  ce_DNSNames leaf = sa_dns want /\ ce_IPAddresses leaf = sa_ips want /\
  ce_NotBefore leaf = (now - Hour) / Second * Second /\ ce_NotAfter leaf = (now + Validity) / Second * Second /\
  LoadFiles w' cp kp = inr cert.
Lemma fits_ecdsa leaf k : fits (key_Public k) k = true -> ce_PublicKey leaf = key_Public k -> fits (ce_PublicKey leaf) k = true.
Proof. by intros H ->. Qed.
Lemma X509KeyPair_encoded der keyDER k leaf : x509_Parse der = inr leaf -> x509_MarshalPKCS8 k = Some keyDER -> ce_PublicKey leaf = key_Public k -> is_ecdsa k = true ->
  X509KeyPair (pem_Encode "CERTIFICATE" der) (pem_Encode "PRIVATE KEY" keyDER) = inr (mkTCert [der] (Some k) (Some leaf)).
Proof.
  intros Hx Hm Hp He. unfold X509KeyPair. rewrite !pem_encode_one by tauto. cbn. rewrite Hx, (proj1 (pkcs8_parse _ _ Hm)), Hp.
  unfold is_ecdsa in He. destruct (key_Public k) eqn:E; try done. cbn. by rewrite E, bool_decide_eq_true_2.
Qed.
Lemma write_pair_spec der keyDER k leaf w : cp <> kp -> x509_Parse der = inr leaf -> x509_MarshalPKCS8 k = Some keyDER -> ce_PublicKey leaf = key_Public k -> is_ecdsa k = true ->
  let '(res, w') := write_pair o der (pem_Encode "CERTIFICATE" der) (pem_Encode "PRIVATE KEY" keyDER) w in only [cp; kp] w w' /\
  match res with
  | inl _ => True
  | inr cert => cert = mkTCert [der] (Some k) (Some leaf) /\ LoadFiles w' cp kp = inr cert
  end.
Proof.
  intros Hne Hx Hm Hp He. pose proof (X509KeyPair_encoded der keyDER k leaf Hx Hm Hp He) as Hpair. unfold write_pair, bind, ret.
  pose proof (mkdir_files (op_Dir o) w) as Hd. destruct (fs_MkdirAll _ w) as [[e|] w1]; cbn in Hd; [split; [by apply only_all|done]|].
  pose proof (writePrivate_spec kp (pem_Encode "PRIVATE KEY" keyDER) w1) as H1. destruct (writePrivate _ _ w1) as [[e|] w2]; destruct H1 as [H1 H1'].
  { split; [|done]. intros q Hq. by rewrite H1', Hd. }
  pose proof (writePrivate_spec cp (pem_Encode "CERTIFICATE" der) w2) as H2. destruct (writePrivate _ _ w2) as [[e|] w3]; destruct H2 as [H2 H2'].
  { split; [|done]. intros q Hq. rewrite H2', H1 by set_solver. by rewrite Hd. }
  split; [intros q Hq; rewrite H2, H1 by set_solver; by rewrite Hd|]. rewrite Hpair. cbn [with_leaf tc_Leaf]. split; [done|].
  rewrite LoadFiles_pair, H2', H2, H1' by set_solver. exact Hpair.
Qed.
Lemma generate_spec now key w : cp <> kp -> (forall k, key = Some k -> is_ecdsa k = true) ->
  let '(res, w') := generate o now key w in only [cp; kp] w w' /\ match res with inl _ => True | inr cert => generated now key cert w' end.
Proof.
  intros Hne Hkey. unfold generate. cbv beta delta [bind] iota.
  set (draw := match key with Some k => ret (Some k) | None => ecdsa_GenerateKey end).
  assert (Hdraw : only [cp; kp] w (draw w).2 /\ forall k, (draw w).1 = Some k -> is_ecdsa k = true /\ forall k', key = Some k' -> k = k').
  { subst draw. destruct key as [k|]; cbn.
    - split; [apply only_refl|]. intros k' [= <-]. split; [by apply Hkey|]. by intros k' [= <-].
    - split; [intros q _; apply generate_files|]. intros k E. split; [|done]. destruct (ecdsa_GenerateKey w) as [k0 w'] eqn:Eg. cbn in E. subst k0.
      apply generate_ecdsa in Eg as (c & p & Ep). unfold is_ecdsa. by rewrite Ep. }
  destruct (draw w) as [k w1]. cbn in Hdraw. destruct Hdraw as [Hw1 Hk]. destruct k as [k|]; [|by split].
  destruct (Hk k eq_refl) as [He Hk']. pose proof (serial_files w1) as Hs. destruct rand_Serial as [[serial|] w2] eqn:Es; cbn in Hs.
  2:{ split; [|done]. intros q Hq. by rewrite Hs, Hw1. }
  destruct (x509_Create (template o now serial) k w2) as [der w3] eqn:Ec. pose proof (create_files (template o now serial) k w2) as Hc. rewrite Ec in Hc. cbn in Hc.
  assert (Hw3 : only [cp; kp] w w3) by (intros q Hq; by rewrite Hc, Hs, Hw1).
  destruct der as [der|]; [|by split]. destruct (x509_MarshalPKCS8 k) as [keyDER|] eqn:Em; [|by split].
  apply create_parse in Ec as (leaf & Hx & Hd & Hi & Hp & Hb & Ha).
  pose proof (write_pair_spec der keyDER k leaf w3 Hne Hx Em Hp He) as H. destruct (write_pair _ _ _ _ w3) as [res w4]. destruct H as [Hw4 H].
  split; [by eapply only_trans|]. destruct res as [|cert]; [done|]. destruct H as [-> Hl]. exists leaf, k. cbn in Hd, Hi, Hb, Ha. by split_and!.
Qed.

(** The names are ASCII. *)
Definition plain_names : Prop := Forall (fun d => EqualFold d d = true) (sa_dns want).
Lemma find_none_all {A} (f : A -> bool) l : (forall x, x ∈ l -> f x = false) -> find f l = None.
Proof. induction l as [|x l IH]; intros H; [done|]. cbn. rewrite H by (by left). apply IH. intros y Hy. apply H. by right. Qed.
Lemma generated_fits now now' key cert w : plain_names -> generated now key cert w -> now - Hour <= now' -> (forall leaf, tc_Leaf cert = Some leaf -> now' <= ce_NotAfter leaf) ->
  reuseProblem now' (tc_Leaf cert) want = ReuseOk.
Proof.
  intros Hp (leaf & k & -> & _ & _ & _ & Hd & Hi & Hb & Ha & _) Hle Hn. specialize (Hn leaf eq_refl). unfold reuseProblem.
  rewrite (proj2 (Z.ltb_ge _ _)) by lia. rewrite (proj2 (Z.ltb_ge now' _)).
  2:{ rewrite Hb. pose proof (Z.mul_div_le (now - Hour) Second ltac:(done)). lia. }
  rewrite Hd, Hi, !find_none_all; [done|..].
  - intros ip Hip. by rewrite bool_decide_eq_true_2.
  - intros d Hd'. apply negb_false_iff, existsb_exists. exists d. split; [by apply list_elem_of_In|]. unfold plain_names in Hp. rewrite Forall_forall in Hp. by apply Hp.
Qed.
Lemma generated_valid now key cert w leaf : generated now key cert w -> tc_Leaf cert = Some leaf -> now <= ce_NotAfter leaf.
Proof.
  intros (leaf' & k & E & _ & _ & _ & _ & _ & _ & Ha & _) E'. rewrite E in E'. injection E' as ->. rewrite Ha.
  pose proof (Z.mod_pos_bound (now + Validity) Second ltac:(done)). pose proof (Z.div_mod (now + Validity) Second ltac:(done)).
  assert (Second <= Validity) by done. lia.
Qed.
Lemma EnsureAuto_spec now w : cp <> kp -> plain_names ->
  let '(res, w') := EnsureAuto o now w in only [cp; kp] w w' /\
  match res with
  | inl _ => True
  | inr cert => LoadFiles w' cp kp = inr cert /\ reuseProblem now (tc_Leaf cert) want = ReuseOk /\
      forall old, LoadFiles w cp kp = inr old ->
        match reuseProblem now (tc_Leaf old) want with
        | ReuseOk => cert = old /\ w' = w
        | r => forall k, tc_PrivateKey old = Some k -> is_ecdsa k = true -> sanOnly r = true -> tc_PrivateKey cert = Some k
        end
  end.
Proof.
  intros Hne Hp. unfold EnsureAuto. change (Paths (op_Dir o)) with (cp, kp). cbn [fst snd].
  assert (Hgen : forall key, (forall k, key = Some k -> is_ecdsa k = true) -> let '(res, w') := generate o now key w in only [cp; kp] w w' /\
    match res with inl _ => True | inr cert => LoadFiles w' cp kp = inr cert /\ reuseProblem now (tc_Leaf cert) want = ReuseOk /\ forall k, key = Some k -> tc_PrivateKey cert = Some k end).
  { intros key Hk. pose proof (generate_spec now key w Hne Hk) as H. destruct (generate o now key w) as [[e|cert] w']; [done|]. destruct H as [Ho Hg].
    split; [done|]. split; [by destruct Hg as (leaf & k & Hg); apply Hg|]. split.
    - eapply generated_fits; [done|exact Hg|assert (0 <= Hour) by done; lia|]. intros leaf Hl. by eapply generated_valid.
    - intros k ->. destruct Hg as (leaf & k' & _ & Hpk & Hk' & _). rewrite Hpk. by rewrite (Hk' k eq_refl). }
  destruct (LoadFiles w cp kp) as [e|old] eqn:El.
  - specialize (Hgen None ltac:(done)). destruct (generate o now None w) as [[e'|cert] w']; [done|]. destruct Hgen as (Ho & Hl & Hr & _). by split_and!.
  - destruct (decide (reuseProblem now (tc_Leaf old) want = ReuseOk)) as [Er|Hn].
    + rewrite Er. split; [apply only_refl|]. split; [done|]. split; [done|]. intros old' [= <-]. by rewrite Er.
    + assert (Hk : forall k, kept_key old (reuseProblem now (tc_Leaf old) want) = Some k -> is_ecdsa k = true).
      { unfold kept_key. destruct (tc_PrivateKey old) as [k'|]; [|done]. destruct (is_ecdsa k') eqn:E'; [|done]. destruct (sanOnly _); [|done]. by intros k [= <-]. }
      specialize (Hgen _ Hk). destruct (reuseProblem now (tc_Leaf old) want) eqn:Er; [done|..];
        (destruct (generate o now _ w) as [[e'|cert] w']; [done|]; destruct Hgen as (Ho & Hl & Hr & Hkey); split_and!; try done;
         intros old' [= <-]; rewrite Er; intros k Hpk He Hs; try done; apply Hkey; unfold kept_key; by rewrite Hpk, He).
Qed.
End Auto.

(** ** The manager *)
Section Manager_rules.
Context {W K : Type} {Fs : Files W} {Pk : Pki W K} {Prim : Type} `{!Toml Prim} {U : Url}.
Variable (env : string) (Decode : string -> string + Doc Prim) (cfgPath : string) (hosts : list string).
Implicit Types (m : tlsManager K) (w : W) (cert : TCert K).
Lemma CheckUsable_set cert : CheckUsable (Current (Set_cert cert)) = CheckUsable cert.
Proof. destruct cert as [[|der chain] k [leaf|]]; done. Qed.
Lemma ValidatePair_usable c k now cert warns : ValidatePair c k hosts now = inr (cert, warns) -> CheckUsable cert = None.
Proof. unfold ValidatePair. intros H. repeat (case_match; try done). by simplify_eq. Qed.
(** What every operation keeps. *)
Record tls_ok m : Prop := {
  tk_usable c : tm_store m = Some c -> CheckUsable c = None;
  tk_fallback : tm_fallback m = true -> tm_mode m = "file" }.
Lemma serve_spec cert m w : let '(e, st) := serve cert (m, w) in
  st = (match e with None => m <| tm_store := Set_cert cert |> | Some _ => m end, w) /\ (e = None <-> CheckUsable cert = None).
Proof. unfold serve. by destruct (CheckUsable cert). Qed.
Lemma tls_ok_store m cert : tls_ok m -> CheckUsable cert = None -> tls_ok (m <| tm_store := Set_cert cert |>).
Proof. intros [H1 H2] Hc. split; cbn; [|done]. intros c [= <-]. exact (eq_trans (CheckUsable_set cert) Hc). Qed.
Lemma serve_keeps cert m w : tls_ok m -> let '(e, (m', w')) := serve cert (m, w) in tls_ok m' /\ tm_mode m' = tm_mode m /\ tm_fallback m' = tm_fallback m.
Proof.
  intros H. pose proof (serve_spec cert m w) as Hs. destruct (serve cert (m, w)) as [[e|] st]; destruct Hs as [-> Hs]; [done|].
  split; [|done]. apply tls_ok_store; [done|by apply Hs].
Qed.
Lemma served_keeps path cert m w : tls_ok m -> let '(e, (m', w')) := served path cert (m, w) in tls_ok m' /\ tm_mode m' = tm_mode m /\ tm_fallback m' = tm_fallback m.
Proof. intros H. unfold served, bind, ret. pose proof (serve_keeps cert m w H). by destruct (serve cert (m, w)) as [? []]. Qed.
Lemma loadLocked_keeps now create m w : tls_ok m ->
  let '(e, (m', w')) := loadLocked cfgPath hosts now create (m, w) in tls_ok m' /\ tm_mode m' = tm_mode m /\ tm_fallback m' = tm_fallback m.
Proof.
  intros H. unfold loadLocked. destruct (is_mode m "off"); [done|]. destruct (is_mode m "file").
  - destruct (LoadFiles w _ _) as [e|cert]; [done|by apply served_keeps].
  - destruct (Paths _) as [c k]. destruct create; cbn [negb].
    + unfold liftW. destruct (EnsureAuto _ now w) as [[e|cert] w1]; [done|by apply served_keeps].
    + destruct (LoadFiles w c k) as [e|cert]; [done|by apply served_keeps].
Qed.
Lemma loadForServe_keeps now m w : tls_ok m -> let '(e, (m', w')) := loadForServe cfgPath hosts now (m, w) in tls_ok m'.
Proof.
  intros H. unfold loadForServe. pose proof (loadLocked_keeps now true m w H) as Hl. destruct (loadLocked _ _ now true (m, w)) as [[e|path] [m1 w1]]; [|by apply Hl].
  destruct Hl as (H1 & Hm & Hf). cbn [fst]. unfold shouldFallbackToAuto. destruct (String.eqb_spec (tm_mode m) "file") as [Em|Em]; cbn [andb negb]; [|done].
  unfold liftW. destruct (EnsureAuto _ now w1) as [[e'|cert] w2]; [done|].
  pose proof (serve_keeps cert m1 w2 H1) as Hs. destruct (serve cert (m1, w2)) as [[e'|] [m2 w3]]; destruct Hs as (H2 & Hm2 & _); [done|].
  split; cbn; [apply H2|]. intros _. congruence.
Qed.
Lemma Regenerate_keeps now keep m w : tls_ok m -> let '(e, (m', w')) := Regenerate_tls cfgPath hosts now keep (m, w) in tls_ok m'.
Proof.
  intros H. unfold Regenerate_tls. destruct (is_mode m "off"); [done|]. destruct (_ && _); [done|]. unfold liftW.
  destruct (_ w) as [[e|[cert kept]] w1]; [done|]. pose proof (serve_keeps cert m w1 H) as Hs. destruct (serve cert (m, w1)) as [[e|] [m2 w2]]; apply Hs.
Qed.
Lemma Upload_keeps now c k m w : tls_ok m -> let '(e, (m', w')) := Upload env Decode cfgPath hosts now c k (m, w) in tls_ok m'.
Proof.
  intros H. unfold Upload. destruct (is_mode m "off"); [done|]. destruct (ValidatePair c k hosts now) as [e|[cert warns]] eqn:E; [done|].
  destruct (fs_MkdirAll _ w) as [[e|] w1]; [done|]. destruct (store_pair _ _ _ c k w1) as [[[e ok]|] w2]; [done|].
  apply ValidatePair_usable in E. split; cbn; [|done]. intros c' [= <-]. exact (eq_trans (CheckUsable_set cert) E).
Qed.
Lemma ResetAuto_keeps now m w : tls_ok m -> let '(e, (m', w')) := ResetAuto env Decode cfgPath hosts now (m, w) in tls_ok m'.
Proof.
  intros H. unfold ResetAuto. destruct (is_mode m "off"); [done|]. destruct (EnsureAuto _ now w) as [[e|cert] w1]; [done|].
  destruct (CheckUsable cert) eqn:E; [done|]. destruct (writeMode _ _ _ _ _ _ w1) as [[e|] w2]; [done|]. destruct (remove_custom cfgPath w2) as [u w3].
  split; cbn; [|done]. intros c' [= <-]. exact (eq_trans (CheckUsable_set cert) E).
Qed.
Lemma tls_op_keeps op m w : tls_ok m -> tls_ok (tls_op env Decode cfgPath hosts op (m, w)).2.1.
Proof.
  intros H. destruct op as [now create|now|now keep|now c k|now]; cbn [tls_op]; unfold bind, ret.
  - pose proof (loadLocked_keeps now create m w H) as Hk. destruct (loadLocked _ _ _ _ _) as [? []]. apply Hk.
  - pose proof (loadForServe_keeps now m w H) as Hk. by destruct (loadForServe _ _ _ _) as [? []].
  - pose proof (Regenerate_keeps now keep m w H) as Hk. by destruct (Regenerate_tls _ _ _ _ _) as [? []].
  - pose proof (Upload_keeps now c k m w H) as Hk. by destruct (Upload _ _ _ _ _ _ _ _) as [? []].
  - pose proof (ResetAuto_keeps now m w H) as Hk. by destruct (ResetAuto _ _ _ _ _ _) as [? []].
Qed.
Lemma tls_op_off op m w : tm_mode m = "off" -> (tls_op env Decode cfgPath hosts op (m, w)).2 = (m, w).
Proof.
  intros H. assert (E : is_mode m "off" = true) by (unfold is_mode; by rewrite H).
  destruct op as [now create|now|now keep|now c k|now]; cbn [tls_op]; unfold bind, ret, loadForServe, loadLocked, Regenerate_tls, Upload, ResetAuto; by rewrite E.
Qed.
Fixpoint tls_ops ops (st : tlsManager K * W) : tlsManager K * W :=
  match ops with [] => st | op :: ops' => tls_ops ops' (tls_op env Decode cfgPath hosts op st).2 end.
Lemma tls_ops_keep ops m w : tls_ok m -> tls_ok (tls_ops ops (m, w)).1.
Proof.
  revert m w. induction ops as [|op ops IH]; intros m w H; [done|]. cbn [tls_ops]. pose proof (tls_op_keeps op m w H) as H'.
  destruct (tls_op _ _ _ _ op (m, w)) as [u [m' w']]. by apply IH.
Qed.

(** Whatever sequence of loads, uploads, regenerations and resets the manager sees, the
    certificate the listener hands out passed a handshake with the listener's own
    configuration; the fallback is only reported for a configured pair; and a manager that
    is off never changes anything. *)
Theorem served_usable mode certFile keyFile ops w : let '(m, w') := tls_ops ops (newTLSManager mode certFile keyFile, w) in
  (forall c, Get (tm_store m) = Some c -> CheckUsable c = None) /\
  (tm_fallback m = true -> tm_mode m = "file") /\
  (mode = "off" -> (m, w') = (newTLSManager mode certFile keyFile, w)).
Proof.
  pose proof (tls_ops_keep ops (newTLSManager mode certFile keyFile) w ltac:(by split)) as H.
  assert (Hoff : mode = "off" -> tls_ops ops (newTLSManager mode certFile keyFile, w) = (newTLSManager mode certFile keyFile, w)).
  { clear H. intros ->. induction ops as [|op ops IH]; [done|]. cbn [tls_ops]. by rewrite tls_op_off. }
  destruct (tls_ops ops _) as [m w']. cbn [fst] in H. destruct H as [H1 H2]. by split_and!.
Qed.
End Manager_rules.

Section Upload_rules.
Context {W K : Type} {Fs : Files W} {Fl : FilesLaws W} {Pk : Pki W K} {Ok : PkiLaws W K} {Prim : Type} `{!Toml Prim} {U : Url}.
Variable (env : string) (Decode : string -> string + Doc Prim) (cfgPath : string) (hosts : list string).
Local Abbreviation cc := (custom_cert cfgPath).
Local Abbreviation ck := (custom_key cfgPath).
Implicit Types (m : tlsManager K) (w : W).
Lemma Upload_spec now c k m w : cc <> ck -> cfgPath ∉ [cc; ck] -> readable w cc -> readable w ck ->
  let '(res, (m', w')) := Upload env Decode cfgPath hosts now c k (m, w) in
  match res with
  | inl (e, undone) => m' = m /\ (undone = true -> forall q, fs_ReadFile w' q = fs_ReadFile w q)
  | inr (info, warns) => exists cert, ValidatePair c k hosts now = inr (cert, warns) /\ info = Info cert /\
      m' = mkTls "file" cc ck false true (Some cert) /\ fs_ReadFile w' cfgPath = inr (setTLSKeys (config_text cfgPath w) "file" cc ck) /\
      LoadFiles w' cc ck = inr cert /\ only [cc; ck; cfgPath] w w' /\ fs_ReadFile w' cc = inr c /\ fs_ReadFile w' ck = inr k
  end.
Proof.
  intros Hne Hcfg Hrc Hrk. unfold Upload. destruct (is_mode m "off"); [done|].
  destruct (ValidatePair c k hosts now) as [e|[cert warns]] eqn:Ev; [done|].
  pose proof (mkdir_files (tlsDir cfgPath) w) as Hd. destruct (fs_MkdirAll _ w) as [[e|] w1]; cbn in Hd; [by split|].
  assert (Hr : forall p, readable w p -> readable w1 p) by (intros p; unfold readable; by rewrite Hd).
  pose proof (store_pair_spec env Decode cfgPath c k w1 Hne Hcfg (Hr _ Hrc) (Hr _ Hrk)) as H.
  destruct (store_pair _ _ _ c k w1) as [[[e ok]|] w2]; [split; [done|]; intros Hok q; by rewrite (H Hok)|].
  destruct H as (Hc & Hk & Hf & Ho). apply ValidatePair_ok in Ev as Hv. destruct Hv as (Hp & _ & b & leaf & _ & _ & El & _).
  exists cert. split_and!; try done.
  - destruct cert as [[|der chain] key [lf|]]; try done.
  - rewrite Hf. assert (Et : config_text cfgPath w1 = config_text cfgPath w) by (unfold config_text; by rewrite Hd). rewrite Et. reflexivity.
  - rewrite LoadFiles_pair. by rewrite Hc, Hk.
  - intros q Hq. rewrite <- Hd. by apply Ho.
Qed.
(** A start with the values an upload wrote serves the same certificate, not the fallback. *)
Lemma restart_serves now w c k cert : LoadFiles w c k = inr cert -> CheckUsable cert = None -> tc_Leaf cert <> None ->
  loadForServe cfgPath hosts now (newTLSManager "file" c k, w) = (inr (c, None), (mkTls "file" c k false true (Some cert), w)).
Proof.
  intros Hl Hu Hf. unfold loadForServe, loadLocked. cbn [fst newTLSManager tm_mode is_mode tm_certFile tm_keyFile]. unfold is_mode. cbn [tm_mode String.eqb Ascii.eqb Bool.eqb].
  rewrite Hl. unfold served, bind, ret, serve. rewrite Hu. cbn. do 4 f_equal. by destruct cert as [[|der chain] key [lf|]].
Qed.

(** ** Reset *)
Lemma remove_spec p w : only [p] w (fs_Remove p w).2.
Proof.
  destruct (fs_Remove p w) as [[e|] w'] eqn:E; cbn.
  - apply remove_no in E as [_ H]. by apply only_all.
  - apply remove_ok in E as [_ H]. intros q Hq. apply H. by intros ->; apply Hq, list_elem_of_singleton.
Qed.
Lemma remove_custom_spec w : only [cc; ck] w (remove_custom cfgPath w).2.
Proof.
  unfold remove_custom, bind, ret. pose proof (remove_spec cc w) as H1. destruct (fs_Remove cc w) as [e w1]. pose proof (remove_spec ck w1) as H2.
  destruct (fs_Remove ck w1) as [e' w2]. cbn in *. intros q Hq. rewrite H2, H1; [done|set_solver..].
Qed.
Local Abbreviation cp := (Paths (tlsDir cfgPath)).1.
Local Abbreviation kp := (Paths (tlsDir cfgPath)).2.
(** Going back to the automatic certificate: the one served afterwards is valid and
    carries every requested name, the configuration says auto, and the next start serves the
    same certificate; the old automatic pair is taken as it is when it still fits, and keeps
    its key when only a name was missing.  A refused reset changes neither the certificate
    nor the configuration. *)
Theorem reset_to_auto now m w : NoDup [cfgPath; cc; ck; cp; kp] -> plain_names (options cfgPath hosts) -> is_mode m "off" = false ->
  let '(res, (m', w')) := ResetAuto env Decode cfgPath hosts now (m, w) in
  match res with
  | inl _ => m' = m /\ fs_ReadFile w' cfgPath = fs_ReadFile w cfgPath
  | inr _ => exists cert, tm_store m' = Some cert /\ CheckUsable cert = None /\ reuseProblem now (tc_Leaf cert) (sanSet hosts) = ReuseOk /\
      fs_ReadFile w' cfgPath = inr (setTLSKeys (config_text cfgPath w) "auto" "" "") /\
      loadForServe cfgPath hosts now (newTLSManager "auto" "" "", w') = (inr (cp, None), (m', w')) /\
      forall old k, LoadFiles w cp kp = inr old -> tc_PrivateKey old = Some k -> is_ecdsa k = true ->
        match reuseProblem now (tc_Leaf old) (sanSet hosts) with ReuseOk => cert = old | r => sanOnly r = true -> tc_PrivateKey cert = Some k end
  end.
Proof.
  intros Hnd Hp Hoff. unfold ResetAuto. rewrite Hoff. assert (Hne : cp <> kp) by (apply NoDup_cons in Hnd as [_ Hnd]; do 2 apply NoDup_cons in Hnd as [_ Hnd]; apply NoDup_cons in Hnd as [Hnd _]; set_solver).
  assert (Hcfg : cfgPath ∉ [cc; ck; cp; kp]) by (by apply NoDup_cons in Hnd as [Hnd _]).
  assert (Hauto : forall q, q ∈ [cp; kp] -> q ∉ [cc; ck]).
  { apply NoDup_cons in Hnd as [_ Hnd]. apply NoDup_cons in Hnd as [H1 Hnd]. apply NoDup_cons in Hnd as [H2 _]. set_solver. }
  pose proof (EnsureAuto_spec (options cfgPath hosts) now w Hne Hp) as He.
  destruct (EnsureAuto _ now w) as [[e|cert] w1]; destruct He as [Ho He]; [split; [done|apply Ho; cbn; set_solver]|].
  destruct He as (Hl & Hr & Hold). assert (Hw1 : fs_ReadFile w1 cfgPath = fs_ReadFile w cfgPath) by (apply Ho; cbn; set_solver).
  destruct (CheckUsable cert) eqn:Hu; [done|]. pose proof (writeMode_spec env Decode cfgPath "auto" "" "" w1) as Hm.
  destruct (writeMode _ _ _ _ _ _ w1) as [[e|] w2]; destruct Hm as [Hm Hf]; [split; [done|by rewrite Hf]|].
  pose proof (remove_custom_spec w2) as Hrm. destruct (remove_custom cfgPath w2) as [u w3]. cbn [snd] in Hrm.
  assert (Hleaf : exists leaf, tc_Leaf cert = Some leaf) by (destruct (tc_Leaf cert) as [leaf|]; [by exists leaf|done]). destruct Hleaf as [leaf Hleaf].
  assert (Hset : Set_cert cert = Some cert) by (destruct cert as [[|der chain] key [lf|]]; done).
  assert (Hl3 : LoadFiles w3 cp kp = inr cert).
  { rewrite <- Hl. cbn [op_Dir options]. rewrite !LoadFiles_pair. rewrite !Hrm, !Hm by (set_solver || (apply Hauto; set_solver)). done. }
  exists cert. cbn [tm_store]. split_and!; try done.
  - rewrite Hrm by set_solver. rewrite Hf. assert (Et : config_text cfgPath w1 = config_text cfgPath w) by (unfold config_text; by rewrite Hw1). rewrite Et. reflexivity.
  - unfold loadForServe, loadLocked. cbn [fst]. unfold is_mode. cbn [newTLSManager tm_mode String.eqb Ascii.eqb Bool.eqb negb].
    change (Paths (tlsDir cfgPath)) with (cp, kp). cbv iota beta. unfold liftW, EnsureAuto. change (Paths (op_Dir (options cfgPath hosts))) with (cp, kp). cbv iota beta.
    cbn [options op_Hosts] in Hr |- *. rewrite Hl3. cbn [options op_Hosts]. rewrite Hr. unfold served, bind, ret, serve. rewrite Hu. cbn. by rewrite Hset.
  - intros old k Ho' Hk Hec. specialize (Hold old Ho'). cbn [options op_Hosts] in Hold. destruct (reuseProblem now (tc_Leaf old) (sanSet hosts)); [by destruct Hold|..]; intros Hs; by apply Hold.
Qed.

(** An upload through the dashboard's own TLS, without force, is only accepted if the
    new certificate covers the name the browser is connected by; the same name is then
    covered by what the listener serves. *)
Theorem upload_no_lockout now name host body m w : cc <> ck -> cfgPath ∉ [cc; ck] -> readable w cc -> readable w ck ->
  let h := connectedHost (Some name) host in
  h <> "" -> (forall c k force, upload_parts body = inr (c, k, force) -> force = false) ->
  let '(answer, (m', w')) := tlsUpload (Some (daemon_mgr env Decode cfgPath hosts)) now (Some name) host body (m, w) in
  match answer with
  | UDone _ _ => exists cert leaf, tm_store m' = Some cert /\ tc_Leaf cert = Some leaf /\ x509_Covers (ce_DNSNames leaf) (ce_IPAddresses leaf) h = true
  | _ => m' = m
  end.
Proof.
  intros Hne Hcfg Hrc Hrk h Hh Hforce. unfold tlsUpload, tlsMgr. destruct (true && is_off _); [done|].
  destruct (upload_parts body) as [status|[[c k] force]]; [done|]. rewrite (Hforce c k force eq_refl). destruct (_ || _); [done|]. cbv zeta.
  rewrite (proj2 (String.eqb_neq (connectedHost (Some name) host) "") Hh). cbn [negb andb]. destruct (default false (leafLacksHost c _)) eqn:El; [done|].
  cbn [mgr_Upload daemon_mgr]. pose proof (Upload_spec now c k m w Hne Hcfg Hrc Hrk) as H.
  destruct (Upload _ _ _ _ _ _ _ _) as [[[e ok]|[info warns]] [m' w']]; [by destruct H|].
  destruct H as (cert & Hv & -> & -> & _). apply ValidatePair_ok in Hv as (_ & _ & b & leaf & Hb & Hx & Hl & _).
  exists cert, leaf. split_and!; try done. unfold leafLacksHost in El. rewrite Hb, Hx in El. cbn in El. by apply negb_false_iff in El.
Qed.
Context {Tl : TlsLines Decode}.
End Upload_rules.

(** A disk and a key store that obey the laws, and the certificate manager run on them. *)
Module TlsDisk.
Import PresetStore.Disk.

#[export] Instance disk_laws : FilesLaws disk.
Proof.
  split; intros w p; intros; cbn in *.
  - simplify_eq. cbn. rewrite lookup_insert_eq. split; [done|]. intros q Hq. by rewrite lookup_insert_ne.
  - done.
  - destruct (files w !! p) eqn:E; [|done]. simplify_eq. cbn. rewrite lookup_delete_eq. split; [done|]. intros q Hq. by rewrite lookup_delete_ne.
  - destruct (files w !! p) eqn:E; [done|]. by simplify_eq.
Qed.

(** ** Encodings *)
Import ConfigFiles.Pack.
(** A block: its type, its length in marks, its bytes. *)
Definition bar : ascii := "|"%char.
Definition block_text (t bytes : string) : string := of_chars (chars t ++ bar :: replicate (String.length bytes) "x"%char ++ bar :: chars bytes).
Definition block_of (s : string) : option (Block * string) :=
  match cut_first bar (chars s) with
  | None => None
  | Some (t, rest) =>
      match cut_first bar rest with
      | None => None
      | Some (marks, rest) =>
          if (length rest <? length marks)%nat then None
          else Some (mkBlock (of_chars t) "" (of_chars (take (length marks) rest)), of_chars (drop (length marks) rest))
      end
  end.
Lemma cut_first_split c l a b : cut_first c l = Some (a, b) -> Forall (fun d => d <> c) a /\ l = a ++ c :: b.
Proof.
  revert a b. induction l as [|d l IH]; intros a b; cbn; [done|]. unfold is_char. destruct (Ascii.eqb_spec d c) as [->|Hne].
  - by intros [= <- <-].
  - destruct (cut_first c l) as [[a' b']|]; [|done]. intros [= <- <-]. destruct (IH a' b' eq_refl) as [H ->]. split; [by constructor|done].
Qed.
Lemma length_chars s : length (chars s) = String.length s.
Proof. induction s as [|c s IH]; [done|]. cbn. by rewrite IH. Qed.
Lemma length_of_chars l : String.length (of_chars l) = length l.
Proof. by rewrite <- length_chars, chars_of_chars. Qed.
Lemma block_shorter s b rest : block_of s = Some (b, rest) -> (String.length rest < String.length s)%nat /\ Forall (fun d => d <> bar) (chars (bl_Type b)).
Proof.
  unfold block_of. destruct (cut_first bar (chars s)) as [[t r]|] eqn:E; [|done]. destruct (cut_first bar r) as [[marks r2]|] eqn:E2; [|done].
  destruct (_ <? _)%nat; [done|]. intros [= <- <-]. apply cut_first_split in E as [Ht E]. apply cut_first_split in E2 as [_ E2].
  rewrite length_of_chars, length_drop. apply (f_equal length) in E, E2. rewrite length_chars in E. rewrite length_app in E, E2. cbn in *.
  rewrite chars_of_chars. split; [lia|done].
Qed.
Lemma block_round t bytes rest : Forall (fun d => d <> bar) (chars t) -> block_of (String.append (block_text t bytes) rest) = Some (mkBlock t "" bytes, rest).
Proof.
  intros Ht. unfold block_of, block_text. rewrite chars_app, chars_of_chars, <- app_assoc. cbn [app]. rewrite cut_first_app by done.
  rewrite <- app_assoc. cbn [app]. rewrite cut_first_app.
  2:{ apply Forall_forall. intros d Hd. by apply elem_of_replicate in Hd as [-> _]. }
  rewrite length_replicate, <- length_chars. rewrite (proj2 (Nat.ltb_ge _ _)) by (rewrite length_app; lia).
  by rewrite take_app_length, drop_app_length, !of_chars_chars.
Qed.

(** ** Certificates *)
Definition dcert : Type := list string * list (list Z) * Z * Z * nat.
Definition demo_public (k : nat) : PubKey := PubEcdsa "P-256" (pack k).
Definition demo_parse (der : string) : string + Cert :=
  match (unpack der : option dcert) with
  | Some (dns, ips, nb, na, k) => inr (mkCert der "CN" "CN" dns ips nb na true (demo_public k) "ECDSA-SHA256" [1])
  | None => inl "malformed"
  end.
Definition demo_create (t : Template) (k : nat) : string :=
  pack ((te_DNSNames t, te_IPAddresses t, te_NotBefore t / Second * Second, te_NotAfter t / Second * Second, k) : dcert).
#[export] Instance demo_pki : Pki disk nat := {|
  pem_Decode := block_of; pem_Encode := block_text; x509_Parse := demo_parse;
  tls_ParsePrivate := unpack; x509_ParsePKCS8 := unpack; x509_ParseEC := fun _ => None; x509_MarshalPKCS8 := fun k => Some (pack k);
  key_Public := demo_public; ecdsa_GenerateKey := fun w => (Some 7%nat, w); rand_Serial := fun w => (Some [1], w);
  x509_Create := fun t k w => (Some (demo_create t k), w);
  x509_Covers := fun dns _ h => existsb (String.eqb h) dns; tls_Handshake := fun _ _ _ => (None, None); sha256_Sum := fun _ => [1; 2];
  fs_MkdirAll := fun _ w => (None, w) |}.
#[export] Instance demo_pki_laws : PkiLaws disk nat.
Proof.
  split; cbn.
  - intros s b rest H. by apply block_shorter in H as [? _].
  - intros t bytes rest H. apply block_round. destruct H as [->|[->|(s & b & r & H & <-)]].
    + apply (bool_decide_unpack _). by vm_compute.
    + apply (bool_decide_unpack _). by vm_compute.
    + by apply block_shorter in H as [_ ?].
  - done.
  - intros k der [= <-]. by rewrite unpack_pack.
  - intros w k w' [= <- <-]. by exists "P-256", (pack 7%nat).
  - intros t k w der w' [= <- <-]. unfold demo_parse, demo_create. rewrite unpack_pack. eexists. by split.
  - done.
  - done.
  - done.
  - done.
Qed.

(** ** A run *)
Definition config : string := "/etc/n5-fangov/config.toml".
Definition sec (n : Z) : Z := n * Second.
Definition own_cert : string := block_text "CERTIFICATE" (pack ((["nas"], [], sec 0, sec 100, 3%nat) : dcert)).
Definition own_key : string := block_text "PRIVATE KEY" (pack 3%nat).
Definition empty : disk := mkDisk ∅ [].
Definition auto : tlsManager nat := newTLSManager "auto" "" "".
Definition hosts : list string := ["nas"; "10.0.0.1"].
(** A decoder that reads the TLS keys of [web] line by line. *)
Definition unquote (t : string) : string := of_chars (removelast (tail (chars t))).
Definition tls_entry (raw key : string) : option (string * ConfigRules.Demo.value) :=
  (fun t => (key, ConfigRules.Demo.VStr (unquote t))) <$> lookup (lines_of raw) "web" key.
Definition DecodeTls (raw : string) : string + Doc ConfigRules.Demo.value :=
  inr (ConfigRules.Demo.doc [("web", ConfigRules.Demo.VTable (omap (tls_entry raw) tls_keys))]).
Lemma unquote_toml v : plain v -> unquote (tomlString v) = v.
Proof.
  intros Hv. rewrite (tomlString_plain v Hv). unfold unquote. rewrite chars_of_chars. cbn [tail]. rewrite removelast_app by done. cbn [removelast].
  rewrite app_nil_r. apply of_chars_chars.
Qed.
#[export] Instance tls_lines_read : TlsLines DecodeTls.
Proof.
  intros raw d key v [= <-] _ Hk Hv Hl. eexists _, _. split_and!; [done|by left|done|]. exists (ConfigRules.Demo.VStr v). split; [|done].
  assert (He : tls_entry raw key = Some (key, ConfigRules.Demo.VStr v)) by (unfold tls_entry; rewrite Hl; cbn [fmap option_fmap option_map]; by rewrite unquote_toml).
  unfold tls_keys in *. cbn [omap list_omap]. repeat (apply elem_of_cons in Hk as [->|Hk]; [rewrite He|]); [..|by apply elem_of_nil in Hk]; unfold tls_entry;
    repeat match goal with |- context [lookup (lines_of raw) "web" ?x] => destruct (lookup (lines_of raw) "web" x); cbn [fmap option_fmap option_map] end; done.
Qed.
Definition uploaded := Upload "" DecodeTls config hosts (sec 50) own_cert own_key (auto, empty).
End TlsDisk.
Import PresetStore.Disk TlsDisk.


(** The automatic pair of the first start lacks a name at the second one. *)
Definition first_start : tlsManager nat * disk := (loadForServe config ["nas"] (sec 7200) (auto, empty)).2.
Lemma reset_to_auto_witness : (exists info, (ResetAuto "" Decode config hosts (sec 9000) first_start).1 = inr info) /\
  let '(res, (m', w')) := ResetAuto "" Decode config hosts (sec 9000) (first_start.1, first_start.2) in
  let cp := (Paths (tlsDir config)).1 in let kp := (Paths (tlsDir config)).2 in
  match res with
  | inl _ => m' = first_start.1 /\ fs_ReadFile w' config = fs_ReadFile first_start.2 config
  | inr _ => exists cert, tm_store m' = Some cert /\ CheckUsable cert = None /\ reuseProblem (sec 9000) (tc_Leaf cert) (sanSet hosts) = ReuseOk /\
      fs_ReadFile w' config = inr (setTLSKeys (config_text config first_start.2) "auto" "" "") /\
      loadForServe config hosts (sec 9000) (newTLSManager "auto" "" "", w') = (inr (cp, None), (m', w')) /\
      forall old k, LoadFiles first_start.2 cp kp = inr old -> tc_PrivateKey old = Some k -> is_ecdsa k = true ->
        match reuseProblem (sec 9000) (tc_Leaf old) (sanSet hosts) with ReuseOk => cert = old | r => sanOnly r = true -> tc_PrivateKey cert = Some k end
  end.
Proof.
  split; [eexists; by vm_compute|].
  apply (reset_to_auto "" PresetStore.Disk.Decode config hosts (sec 9000) first_start.1 first_start.2).
  - apply (bool_decide_unpack _). by vm_compute.
  - unfold plain_names. apply (bool_decide_unpack _). by vm_compute.
  - by vm_compute.
Defined.
Definition upload_body : UploadBody := UJson own_cert own_key false.
Lemma upload_no_lockout_witness : (exists info warns, (tlsUpload (Some (daemon_mgr "" Decode config hosts)) (sec 50) (Some "NAS.") "" upload_body (auto, empty)).1 = UDone info warns) /\
  (tlsUpload (Some (daemon_mgr "" Decode config hosts)) (sec 50) (Some "other.lan") "" upload_body (auto, empty)).1 = UForce "other.lan" /\
  let '(answer, (m', w')) := tlsUpload (Some (daemon_mgr "" Decode config hosts)) (sec 50) (Some "NAS.") "" upload_body (auto, empty) in
  match answer with
  | UDone _ _ => exists cert leaf, tm_store m' = Some cert /\ tc_Leaf cert = Some leaf /\ x509_Covers (ce_DNSNames leaf) (ce_IPAddresses leaf) "nas" = true
  | _ => m' = auto
  end.
Proof.
  split; [eexists _, _; by vm_compute|]. split; [by vm_compute|].
  apply (upload_no_lockout "" PresetStore.Disk.Decode config hosts (sec 50) "NAS." "" upload_body auto empty);
    [apply (bool_decide_unpack _); by vm_compute..|done|done|by vm_compute|by intros c k force [= <- <- <-]].
Defined.
