(* ===== verification/Checks.v ===== *)
(** The kernel gate of [check --after-update] (src/cmd/n5-fangov/check.go): does every
    kernel the machine may boot carry the fan driver's module, in the version the
    installed package builds?

    [Tree] is what the directories answer, [Tools] what modinfo says of a module file; the
    output of the boot tool is an argument, None when it failed.  A line is what its text
    is made of. *)
From stdpp Require Import base gmap strings list sorting.
From Stdlib Require Import ZArith Lia Ascii.
From S2P Require Import Prelude GoLib GoNet GoPath Debver ConfigTypes ConfigFields ConfigWeb Ceiling ConfigParse WebPassword Sanitize Hwmon N5Driver.
Open Scope Z_scope.

Class Tree := {
  t_ReadDir : string -> option (list (string * bool));
  t_isDir : string -> bool;
  t_isFile : string -> bool;
  t_moduleVersion : string -> option string }.

(** ** Versions *)
Definition dkmsPackage : string := "minisforum-n5-it5571".
Definition dkmsKernelObject : string := "minisforum_n5_it5571.ko".
(** [parseDpkgInstalled]: the status letters, then the version. *)
Definition parseDpkgInstalled (s : string) : string :=
  let l := rev (drop_while (fun c => is_char c "013" || is_char c "010") (rev (chars s))) in
  match l with
  | _ :: st :: _ :: v => if is_char st "i" then TrimSpace (of_chars v) else ""
  | _ => ""
  end.
Definition legacyModuleVersion (v : string) : option string := if String.eqb v "0.2.1" then Some "0.2.0" else None.
Definition expectedModuleVersion (pkgVersion srcVersion : string) : string :=
  let base := if String.eqb pkgVersion "" then srcVersion else UpstreamOf pkgVersion in
  if String.eqb base "" then ""
  else if Contains base "+sr" then base
  else default base (legacyModuleVersion base).
Definition versionLess (a b : string) : bool := Less a b.
Definition dkmsSourceVersion {T : Tree} (root : string) : string :=
  match t_ReadDir root with
  | None => ""
  | Some entries =>
      let vers := omap (fun e : string * bool => if e.2 && HasPrefix e.1 (String.append dkmsPackage "-")
                                                 then Some (TrimPrefix e.1 (String.append dkmsPackage "-")) else None) entries in
      (** the last one in order: no other is greater *)
      match vers with
      | [] => ""
      | v :: vers => fold_left (fun best v => if versionLess v best then best else v) vers v
      end
  end.
Definition wantsN5Pro (profile detected : string) (dkmsSrcPresent : bool) : bool :=
  if String.eqb profile "n5pro" then true
  else if String.eqb profile "auto" || String.eqb profile "" then String.eqb detected "n5pro" || dkmsSrcPresent
  else false.

(** ** Kernels *)
(** The integers of a text; an [int] wraps. *)
Fixpoint runs_loop (l : list ascii) (cur : option Z) : list Z :=
  match l with
  | [] => match cur with Some n => [n] | None => [] end
  | c :: l' =>
      match digit_of c with
      | Some d => runs_loop l' (Some (wrap64 (wrap64 (default 0 cur * 10) + d)))
      | None => match cur with Some n => n :: runs_loop l' None | None => runs_loop l' None end
      end
  end.
Definition numericRuns (s : string) : list Z := runs_loop (chars s) None.
Fixpoint runs_less (a b : list Z) : bool :=
  match a, b with
  | x :: a', y :: b' => if x =? y then runs_less a' b' else x <? y
  | [], _ :: _ => true
  | _, [] => false
  end.
Definition kernelLess (a b : string) : bool := runs_less (numericRuns a) (numericRuns b).
Definition bootToolSections : list string := ["Manually selected kernels:"; "Automatically selected kernels:"; "Pinned kernel:"].
Fixpoint boot_lines (ls : list string) (inSection : bool) : list string :=
  match ls with
  | [] => []
  | line :: ls' =>
      let t := TrimSpace line in
      if String.eqb t "" then boot_lines ls' inSection
      else if HasSuffix t ":" then boot_lines ls' (existsb (String.eqb t) bootToolSections)
      else if inSection && negb (String.eqb t "None.") && negb (String.eqb t "None") then t :: boot_lines ls' inSection
      else boot_lines ls' inSection
  end.
Definition parseBootToolKernels (out : string) : list string := boot_lines (Split out "010"%char) false.
Definition newest_kernel (installed : list string) : string :=
  fold_left (fun newest k => if String.eqb newest "" || kernelLess newest k then k else newest) installed "".
Inductive GateSource := FromTool | FromNewest.
Definition relevantKernels (running : string) (installed : list string) (tool : option string) : gset string * GateSource :=
  let rel : gset string := if String.eqb running "" then ∅ else {[running]} in
  let chosen := match tool with Some out => List.filter (fun k => bool_decide (k ∈ installed)) (parseBootToolKernels out) | None => [] end in
  match chosen with
  | _ :: _ => (list_to_set chosen ∪ rel, FromTool)
  | [] => let newest := newest_kernel installed in (if String.eqb newest "" then rel else {[newest]} ∪ rel, FromNewest)
  end.

Section Gate.
Context {T : Tree}.
Definition suffixes : list string := [""; ".xz"; ".zst"; ".gz"].
Definition module_file (root kernel ko suffix : string) : string := JoinPath [root; kernel; "updates"; "dkms"; String.append ko suffix].
Definition kernelModulePath (root kernel ko : string) : string :=
  default (module_file root kernel ko "") (find t_isFile (map (module_file root kernel ko) suffixes)).
Definition is_kernel (root : string) (e : string * bool) : bool :=
  e.2 && (t_isDir (JoinPath [JoinPath [root; e.1]; "build"]) || t_isFile (JoinPath [JoinPath [root; e.1]; "modules.dep"])).
Definition has_module (root ko kernel : string) : bool := existsb t_isFile (map (module_file root kernel ko) suffixes).
(** The kernels and those without the module. *)
Definition scanKernelModules (root ko : string) : option (list string * list string) :=
  match t_ReadDir root with
  | None => None
  | Some entries =>
      let kernels := map fst (List.filter (is_kernel root) entries) in
      Some (sort_strings kernels, sort_strings (List.filter (fun k => negb (has_module root ko k)) kernels))
  end.

(** ** The gate *)
Inductive GateLine := LMissing (kernel : string) | LStale (kernel got want : string) | LUnreadable (kernel : string).
Inductive OkLine := OkNone (root : string) | OkAll (kernels : list string) (version : string) | OkBootable (version : string) (source : GateSource).
(** An info line carries whether it is about a kernel not selected for boot. *)
Record gateResult := mkGate { g_alert : list GateLine; g_info : list (GateLine * bool); g_okLine : OkLine; g_source : option GateSource }.
(** One kernel: its line, if any, and whether its version was compared. *)
Definition gate_one (root want : string) (missing : list string) (k : string) : option GateLine * bool :=
  if bool_decide (k ∈ missing) then (Some (LMissing k), false)
  else if String.eqb want "" then (None, false)
  else match t_moduleVersion (kernelModulePath root k dkmsKernelObject) with
  | None => (Some (LUnreadable k), false)
  | Some got => (if String.eqb got want then None else Some (LStale k got want), true)
  end.
Fixpoint gate_loop (root want : string) (missing : list string) (relevant : gset string) (kernels : list string) : list GateLine * list (GateLine * bool) * Z :=
  match kernels with
  | [] => ([], [], 0)
  | k :: kernels' =>
      let '(alert, info, n) := gate_loop root want missing relevant kernels' in
      let '(line, compared) := gate_one root want missing k in
      let n := if compared : bool then n + 1 else n in
      match line with
      | None => (alert, info, n)
      | Some (LUnreadable _ as l) => (alert, (l, false) :: info, n)
      | Some l => if bool_decide (k ∈ relevant) then (l :: alert, info, n) else (alert, (l, true) :: info, n)
      end
  end.
Definition kernelGate (root want running : string) (tool : option string) : option gateResult :=
  match scanKernelModules root dkmsKernelObject with
  | None => None
  | Some ([], _) => Some (mkGate [] [] (OkNone root) None)
  | Some (kernels, missing) =>
      let '(relevant, source) := relevantKernels running kernels tool in
      let '(alert, info, compared) := gate_loop root want missing relevant kernels in
      let ver := if negb (String.eqb want "") && (0 <? compared) then want else "" in
      Some (mkGate alert info
        (match missing, info with [], [] => OkAll kernels ver | _, _ => OkBootable ver source end) (Some source))
  end.

(** ** The page *)
(** Level and line, as [gateItems] and [healthItems] give them. *)
Inductive Level := LevelOk | LevelWarn | LevelFail | LevelSkipped.
#[export] Instance Level_eq : EqDecision Level.
Proof. solve_decision. Defined.
Definition gateItems (g : gateResult) : list (Level * (GateLine * bool + OkLine)) :=
  map (fun l => (LevelFail, inl (l, false))) (g_alert g) ++ map (fun l => (LevelWarn, inl l)) (g_info g) ++
  match g_alert g with [] => [(LevelOk, inr (g_okLine g))] | _ => [] end.
(** The exit code, and whether the alert is sent. *)
Definition after_update (root want running : string) (tool : option string) (applies : bool) : Z * bool :=
  if negb applies then (0, false)
  else match kernelGate root want running tool with
  | None => (1, false)
  | Some g => match g_alert g with [] => (0, false) | _ => (1, true) end
  end.
End Gate.

Example runs_ex : numericRuns "6.17.4-1-pve" = [6; 17; 4; 1] /\ kernelLess "6.14.8-2-pve" "6.17.4-1-pve" = true /\ kernelLess "6.8" "6.8.0" = true /\
  numericRuns "9223372036854775808" = [- 2 ^ 63].
Proof. by vm_compute. Qed.
Example boot_ex : parseBootToolKernels (Join ["Manually selected kernels:"; "None."; ""; "Automatically selected kernels:"; "6.8.4-2-pve"; " 6.8.12-1-pve "; "Other:"; "1.2"; "Pinned kernel:"; "6.5.0"] newline)
  = ["6.8.4-2-pve"; "6.8.12-1-pve"; "6.5.0"].
Proof. by vm_compute. Qed.
Example dpkg_ex : map parseDpkgInstalled ["ii 0.2.1+sr1-1"; "hi 0.2.1-1"; "rc 0.2.1-1"; "ii"; "iiR0.3"] = ["0.2.1+sr1-1"; "0.2.1-1"; ""; ""; "0.3"] /\
  expectedModuleVersion "0.2.1-1" "" = "0.2.0" /\ expectedModuleVersion "0.2.1+sr1~rc1-1" "" = "0.2.1+sr1~rc1" /\ expectedModuleVersion "" "" = "".
Proof. by vm_compute. Qed.

(** ** Order of kernels *)
Lemma runs_less_irrefl a : runs_less a a = false.
Proof. induction a as [|x a IH]; [done|]. cbn. by rewrite Z.eqb_refl. Qed.
Lemma runs_less_trans a b c : runs_less a b = true -> runs_less b c = true -> runs_less a c = true.
Proof.
  revert b c. induction a as [|x a IH]; intros [|y b] [|z c]; cbn; try done.
  destruct (Z.eqb_spec x y) as [->|Hxy], (Z.eqb_spec y z) as [->|Hyz]; rewrite ?Z.eqb_refl; try done.
  - apply IH.
  - by rewrite (proj2 (Z.eqb_neq _ _) Hxy).
  - intros H1%Z.ltb_lt H2%Z.ltb_lt. destruct (Z.eqb_spec x z); [lia|]. apply Z.ltb_lt. lia.
Qed.
Lemma newest_fold installed : forall best, (best = "" \/ kernelLess best best = false) -> Forall (fun k => k <> "") installed ->
  let newest := fold_left (fun (newest k : string) => if String.eqb newest "" || kernelLess newest k then k else newest) installed best in
  (newest = best \/ newest ∈ installed) /\
  (best <> "" \/ installed <> [] -> newest <> "") /\
  (forall k, k ∈ installed -> kernelLess newest k = false) /\ (best <> "" -> forall k, kernelLess best k = false -> kernelLess newest k = false).
Proof.
  induction installed as [|k l IH]; intros best Hb Hne; cbn [fold_left].
  - split_and!; [by left|by intros [?|?]|by intros k ?%elem_of_nil|done].
  - apply Forall_cons in Hne as [Hk Hne]. set (best' := if String.eqb best "" || kernelLess best k then k else best).
    assert (Hb' : best' <> "") by (subst best'; destruct (String.eqb_spec best ""), (kernelLess best k); cbn; done).
    destruct (IH best' (or_intror (runs_less_irrefl _)) Hne) as (H1 & H3 & H4 & H5). split_and!.
    + destruct H1 as [->|H1]; [|right; by right]. subst best'. destruct (_ || _); [right; by left|by left].
    + intros _. apply H3. by left.
    + intros k' [->|Hk']%elem_of_cons; [|by apply H4]. apply H5; [done|]. subst best'. destruct (String.eqb_spec best "") as [->|?]; cbn; [apply runs_less_irrefl|].
      destruct (kernelLess best k) eqn:E; [apply runs_less_irrefl|done].
    + intros Hbe k' Hk'. apply H5; [done|]. subst best'. destruct (String.eqb_spec best "") as [->|?]; cbn; [done|].
      destruct (kernelLess best k) eqn:E; [|done]. destruct (kernelLess k k') eqn:E'; [|done]. unfold kernelLess in *. by rewrite (runs_less_trans _ _ _ E E') in Hk'.
Qed.
Lemma newest_spec installed : Forall (fun k => k <> "") installed -> installed <> [] ->
  newest_kernel installed <> "" /\ newest_kernel installed ∈ installed /\ forall k, k ∈ installed -> kernelLess (newest_kernel installed) k = false.
Proof.
  intros Hne Hl. destruct (newest_fold installed "" (or_introl eq_refl) Hne) as (H1 & H3 & H4 & _). unfold newest_kernel.
  specialize (H3 (or_intror Hl)). split_and!; [done| |done]. by destruct H1 as [H1|H1].
Qed.
(** ** What the machine may boot *)
(** A text is listed when it stands, on a line of its own, below one of the headings of
    [bootToolSections] and before the next heading. *)
Definition heading (t : string) : bool := HasSuffix t ":".
Definition boot_entry (k : string) : Prop := k <> "" /\ heading k = false /\ k <> "None." /\ k <> "None".
Definition below (b : bool) (ts : list string) (k : string) : Prop :=
  b = true /\ (exists between after, ts = between ++ k :: after /\ Forall (fun t => heading t = false) between) \/
  exists before head between after, ts = before ++ head :: between ++ k :: after /\ head ∈ bootToolSections /\ Forall (fun t => heading t = false) between.
Definition listed (out k : string) : Prop := boot_entry k /\ below false (map TrimSpace (Split out "010"%char)) k.
Lemma sections_heading t : t ∈ bootToolSections -> heading t = true.
Proof. unfold bootToolSections. intros H. repeat (apply elem_of_cons in H as [->|H]; [done|]). by apply elem_of_nil in H. Qed.
Lemma below_cons b t ts k : boot_entry k ->
  below b (t :: ts) k <-> b = true /\ t = k \/ below (if heading t then existsb (String.eqb t) bootToolSections else b) ts k.
Proof.
  intros (_ & Hk & _). assert (Hs : existsb (String.eqb t) bootToolSections = true <-> t ∈ bootToolSections).
  { rewrite existsb_exists. split; [intros (x & Hx & ->%String.eqb_eq); by apply list_elem_of_In|]. intros H. exists t. by rewrite String.eqb_refl, <- list_elem_of_In. }
  unfold below. split.
  - intros [(-> & [|x between] & after & [= -> ->] & Hf)|([|x before] & head & between & after & [= -> ->] & Hh & Hf)].
    + by left.
    + apply Forall_cons in Hf as [Hx Hf]. rewrite Hx. right. left. split; [done|]. by exists between, after.
    + right. left. rewrite (sections_heading _ Hh). split; [by apply Hs|]. by exists between, after.
    + right. right. by exists before, head, between, after.
  - intros [[-> ->]|[(Hb & between & after & -> & Hf)|(before & head & between & after & -> & Hh & Hf)]].
    + left. split; [done|]. by exists [], ts.
    + destruct (heading t) eqn:Et; [right; exists [], t, between, after; by rewrite <- Hs|]. left. split; [done|]. exists (t :: between), after. split; [done|]. by constructor.
    + right. by exists (t :: before), head, between, after.
Qed.
Lemma boot_lines_listed ls b k : k ∈ boot_lines ls b <-> boot_entry k /\ below b (map TrimSpace ls) k.
Proof.
  revert b. induction ls as [|line ls IH]; intros b; cbn [boot_lines map].
  - split; [by intros ?%elem_of_nil|]. by intros [_ [(_ & [|] & ? & ? & _)|([|] & ? & ? & ? & ? & _)]].
  - cbv zeta. enough (k ∈ boot_lines (line :: ls) b <-> boot_entry k /\ (b = true /\ TrimSpace line = k \/
      below (if heading (TrimSpace line) then existsb (String.eqb (TrimSpace line)) bootToolSections else b) (map TrimSpace ls) k)) as H.
    { cbn [boot_lines] in H. rewrite H. split; intros [He Hb]; (split; [done|]); by apply below_cons. }
    cbn [boot_lines]. cbv zeta. fold (heading (TrimSpace line)). destruct (String.eqb_spec (TrimSpace line) "") as [E|E].
    + rewrite E, IH. cbn [heading]. change (heading "") with false. cbv iota. split; [by intros [? ?]; auto|]. intros [He [[_ <-]|H]]; [by destruct He|done].
    + destruct (heading (TrimSpace line)) eqn:Eh.
      * rewrite IH. split; [intros [? ?]; auto|]. intros [He [[_ <-]|H]]; [|done]. destruct He as (_ & He & _). congruence.
      * destruct (b && _ && _) eqn:Eb.
        { rewrite elem_of_cons, IH. apply andb_true_iff in Eb as [[-> En%negb_true_iff]%andb_true_iff Em%negb_true_iff].
          apply String.eqb_neq in En, Em. split; [|intros [He [[_ ->]|H]]; auto]. intros [->|[? ?]]; [|auto]. split; [by split_and!|auto]. }
        { rewrite IH. split; [intros [? ?]; auto|]. intros [He [[-> <-]|H]]; [|done]. destruct He as (_ & _ & He1 & He2).
          rewrite (proj2 (String.eqb_neq _ _) He1), (proj2 (String.eqb_neq _ _) He2) in Eb. done. }
Qed.
Lemma parse_listed out k : k ∈ parseBootToolKernels out <-> listed out k.
Proof. apply boot_lines_listed. Qed.
(** The running kernel, the ones the boot tool lists or, when it lists none that is
    installed, the newest one. *)
Definition bootable (running : string) (installed : list string) (tool : option string) (k : string) : Prop :=
  k = running \/ (exists out, tool = Some out /\ listed out k) \/
  k = newest_kernel installed /\ forall out k', tool = Some out -> k' ∈ installed -> ~ listed out k'.
Lemma relevant_spec running installed tool k : Forall (fun k => k <> "") installed -> k ∈ installed ->
  k ∈ (relevantKernels running installed tool).1 <-> bootable running installed tool k.
Proof.
  intros Hne Hk. assert (Hk0 : k <> "") by (rewrite Forall_forall in Hne; by apply Hne).
  destruct (newest_spec installed Hne ltac:(by intros ->; apply elem_of_nil in Hk)) as (N1 & _).
  unfold relevantKernels. set (rel := if String.eqb running "" then ∅ else {[running]} : gset string).
  assert (Hr : k ∈ rel <-> k = running) by (subst rel; destruct (String.eqb_spec running "") as [->|?]; set_solver).
  set (chosen := match tool with Some out => List.filter _ _ | None => [] end).
  assert (Hc : forall k', k' ∈ chosen <-> k' ∈ installed /\ exists out, tool = Some out /\ listed out k').
  { intros k'. subst chosen. destruct tool as [out|]; [|split; [by intros ?%elem_of_nil|by intros (_ & ? & ? & _)]].
    rewrite list_elem_of_In, filter_In, <- list_elem_of_In, bool_decide_eq_true, parse_listed. split; [intros [? ?]; eauto|]. by intros (? & ? & [= <-] & ?). }
  unfold bootable. destruct chosen as [|c0 chosen'] eqn:E; cbn [fst].
  - rewrite (proj2 (String.eqb_neq _ _) N1). cbn [fst]. rewrite elem_of_union, elem_of_singleton, Hr. split.
    + intros [->|?]; [right; right|by left]. split; [done|]. intros out k' Ht Hi Hl. by apply (elem_of_nil k'), Hc; eauto.
    + intros [?|[(out & Ht & Hl)|[-> _]]]; [by right| |by left]. exfalso. by apply (elem_of_nil k), Hc; eauto.
  - rewrite elem_of_union, elem_of_list_to_set, Hc, Hr. split.
    + intros [[_ H]|?]; [right; by left|by left].
    + intros [?|[H|[_ H]]]; [by right|by left|]. exfalso. destruct (proj1 (Hc c0) ltac:(by left)) as (Hi & out & Ht & Hl). by apply (H out c0).
Qed.

(** ** The gate's answer *)
Section Gate_rules.
Context {T : Tree}.
Variable (root want : string).
Local Abbreviation ko := dkmsKernelObject.
Definition other_version (k : string) : Prop := want <> "" /\ exists got, t_moduleVersion (kernelModulePath root k ko) = Some got /\ got <> want.
Lemma gate_one_spec missing k : match (gate_one root want missing k).1 with
  | Some (LMissing k') => k' = k /\ k ∈ missing
  | Some (LStale k' got w) => k' = k /\ k ∉ missing /\ other_version k
  | Some (LUnreadable k') => k' = k /\ k ∉ missing /\ want <> "" /\ t_moduleVersion (kernelModulePath root k ko) = None
  | None => k ∉ missing /\ (want <> "" -> t_moduleVersion (kernelModulePath root k ko) = Some want)
  end.
Proof.
  unfold gate_one, other_version. case_bool_decide as Hm; [done|]. destruct (String.eqb_spec want "") as [Ew|Ew]; [done|].
  destruct (t_moduleVersion _) as [got|] eqn:E; [|done]. destruct (String.eqb_spec got want) as [->|Hne]; cbn; [done|]. split_and!; eauto.
Qed.
Lemma gate_loop_spec missing (relevant : gset string) kernels : let '(alert, info, n) := gate_loop root want missing relevant kernels in
  (alert = [] <-> forall k, k ∈ kernels -> k ∈ relevant -> k ∉ missing /\ ~ other_version k) /\
  (alert = [] -> info = [] -> forall k, k ∈ kernels -> k ∉ missing /\ (want <> "" -> t_moduleVersion (kernelModulePath root k ko) = Some want)).
Proof.
  induction kernels as [|k ks IH]; cbn [gate_loop]; [split; [split; [by intros _ k ?%elem_of_nil|done]|by intros _ _ k ?%elem_of_nil]|].
  destruct (gate_loop _ _ _ _ ks) as [[alert info] n]. destruct IH as [IH1 IH2]. pose proof (gate_one_spec missing k) as H.
  destruct (gate_one _ _ _ k) as [line compared]. cbn [fst] in H.
  assert (Hcons : forall P : string -> Prop, (forall x, x ∈ k :: ks -> P x) <-> P k /\ forall x, x ∈ ks -> P x).
  { intros P. split; [intros Hp; split; [apply Hp; by left|intros x Hx; apply Hp; by right]|]. intros [Hk Hp] x [->|Hx]%elem_of_cons; auto. }
  pose proof (Hcons (fun k => k ∈ relevant -> k ∉ missing /\ ~ other_version k)) as E1.
  pose proof (Hcons (fun k => k ∉ missing /\ (want <> "" -> t_moduleVersion (kernelModulePath root k ko) = Some want))) as E2. cbv beta in E1, E2.
  destruct line as [[k'|k' got w|k']|].
  - destruct H as [-> Hm]. case_bool_decide as Hr; rewrite E1, E2; (split; [split|]); try done.
    + intros [H _]. by destruct (H Hr).
    + intros H0. pose proof (proj1 IH1 H0) as H. by split.
    + intros [_ H]. by apply IH1.
  - destruct H as (-> & Hm & Ho). case_bool_decide as Hr; rewrite E1, E2; (split; [split|]); try done.
    + intros [H _]. by destruct (H Hr).
    + intros H0. pose proof (proj1 IH1 H0) as H. by split.
    + intros [_ H]. by apply IH1.
  - destruct H as (-> & Hm & Hw & Hv). rewrite E1, E2. split; [split|done]; [|intros [_ H]; by apply IH1]. intros H0. pose proof (proj1 IH1 H0) as H. split; [|exact H]. intros _. split; [done|].
    intros (_ & got & Eg & _). by rewrite Eg in Hv.
  - destruct H as [Hm Hv]. rewrite E1, E2. split; [split|].
    + intros H0. pose proof (proj1 IH1 H0) as H. split; [|exact H]. intros _. split; [done|]. intros (Hw & got & Eg & Hne). rewrite (Hv Hw) in Eg. by injection Eg as <-.
    + intros [_ H]. by apply IH1.
    + intros Ha Hi. split; [done|]. by apply IH2.
Qed.
(** A module whose version cannot be read is a warning, whatever kernel it is for. *)
Lemma gate_loop_unreadable missing (relevant : gset string) kernels k : k ∈ kernels -> k ∉ missing -> want <> "" ->
  t_moduleVersion (kernelModulePath root k ko) = None -> (LUnreadable k, false) ∈ (gate_loop root want missing relevant kernels).1.2.
Proof.
  intros Hk Hm Hw Hv. induction kernels as [|k' ks IH]; [by apply elem_of_nil in Hk|]. cbn [gate_loop].
  destruct (gate_loop root want missing relevant ks) as [[alert info] n]. cbn [fst snd] in IH. apply elem_of_cons in Hk as [->|Hk].
  - unfold gate_one. rewrite bool_decide_false by done. rewrite (proj2 (String.eqb_neq _ _) Hw), Hv. by left.
  - specialize (IH Hk). destruct (gate_one _ _ _ k') as [[[]|] ?]; try (by right); try done; by destruct (bool_decide _); try right.
Qed.
Lemma sort_elem l k : k ∈ sort_strings l <-> k ∈ l.
Proof. unfold sort_strings. by rewrite merge_sort_Permutation. Qed.
Lemma scan_spec kernels missing : scanKernelModules root ko = Some (kernels, missing) -> forall k, k ∈ missing <-> k ∈ kernels /\ has_module root ko k = false.
Proof.
  unfold scanKernelModules. destruct (t_ReadDir root) as [es|]; [|done]. intros [= <- <-] k. rewrite !sort_elem.
  rewrite !list_elem_of_In, filter_In, negb_true_iff. done.
Qed.
End Gate_rules.

(** C28: The kernel gate is silent, and the hook's exit code 0, exactly when every installed
    kernel the machine may boot carries the module and none of them is known to carry another
    version than the expected one, if one is expected.  The kernels it may boot are: the
    running one; every one the boot tool lists below one of its three headings; and, when it
    lists none that is installed, the newest installed one, which no other is newer than.  A
    module whose version cannot be read raises no alert: it is a warning.  And the line for
    every kernel never claims a module or a version that was not found. *)
Theorem kernel_gate {T : Tree} root want running tool kernels missing g :
  scanKernelModules root dkmsKernelObject = Some (kernels, missing) -> kernels <> [] -> Forall (fun k => k <> "") kernels ->
  kernelGate root want running tool = Some g ->
  (g_alert g = [] <-> forall k, k ∈ kernels -> bootable running kernels tool k -> has_module root dkmsKernelObject k = true /\ ~ other_version root want k) /\
  ((after_update root want running tool true).1 = 0 <-> g_alert g = []) /\
  (newest_kernel kernels ∈ kernels /\ forall k, k ∈ kernels -> kernelLess (newest_kernel kernels) k = false) /\
  (forall k, k ∈ kernels -> has_module root dkmsKernelObject k = true -> want <> "" -> t_moduleVersion (kernelModulePath root k dkmsKernelObject) = None ->
    (LevelWarn, inl (LUnreadable k, false)) ∈ gateItems g) /\
  (forall ks v, (LevelOk, inr (OkAll ks v)) ∈ gateItems g -> ks = kernels /\
    forall k, k ∈ kernels -> has_module root dkmsKernelObject k = true /\ (want <> "" -> t_moduleVersion (kernelModulePath root k dkmsKernelObject) = Some want)).
Proof.
  intros Hs Hne Hnames Hg. pose proof (scan_spec root kernels missing Hs) as Hm. cbn zeta.
  assert (Hmod : forall k, k ∈ kernels -> k ∉ missing <-> has_module root dkmsKernelObject k = true).
  { intros k Hk. rewrite Hm. destruct (has_module _ _ k); split; [done| |intros H; by destruct H|done]. by intros _ [_ ?]. }
  pose proof (newest_spec kernels Hnames Hne) as (_ & N2 & N3).
  split; [|split; [|split; [done|]]].
  2:{ unfold after_update. rewrite Hg. cbn [negb]. by destruct (g_alert g). }
  all: unfold kernelGate in Hg; rewrite Hs in Hg; destruct kernels as [|k0 ks] eqn:Ek; [done|]; rewrite <- Ek in *; clear Ek.
  all: pose proof (fun k => relevant_spec running kernels tool k Hnames) as Hr; destruct (relevantKernels running kernels tool) as [rel source]; cbn [fst] in Hr.
  all: pose proof (gate_loop_spec root want missing rel kernels) as Hl; pose proof (gate_loop_unreadable root want missing rel kernels) as Hu;
    destruct (gate_loop root want missing rel kernels) as [[alert info] n]; injection Hg as <-; cbn [g_alert fst snd] in *.
  - destruct Hl as [-> _]. split; intros H k Hk Hrel; (destruct (H k Hk) as [H1 H2]; [by apply Hr|]); (split; [by apply (Hmod k Hk)|done]).
  - split.
    + intros k Hk Hh Hw Hv. unfold gateItems. cbn [g_alert g_info]. rewrite !elem_of_app. right. left. apply list_elem_of_fmap. exists (LUnreadable k, false).
      split; [done|]. apply Hu; [done|by apply Hmod|done..].
    + intros k v Hin. unfold gateItems in Hin. cbn [g_alert g_info g_okLine] in Hin. rewrite !elem_of_app in Hin. destruct Hin as [Hin|[Hin|Hin]].
      * apply list_elem_of_fmap in Hin as (? & ? & _). done.
      * apply list_elem_of_fmap in Hin as (? & ? & _). done.
      * destruct alert; [|by apply elem_of_nil in Hin]. apply list_elem_of_singleton in Hin. destruct missing as [|m ms] eqn:Emis, info as [|i infos]; try done. injection Hin as -> _.
        split; [done|]. destruct Hl as [_ Hl]. intros k Hk. destruct (Hl eq_refl eq_refl k Hk) as [Ha Hb]. split; [|done]. apply (Hmod k Hk). by apply Ha.
Qed.

(** Two kernels: the running one is fine, the older one has an old build. *)
#[local] Instance box : Tree := {|
  t_ReadDir p := Some [("6.8.4-2-pve", true); ("6.5.0-1-pve", true); ("notes", false); ("old", true)];
  t_isDir p := bool_decide (p ∈ ["/lib/modules/6.8.4-2-pve/build"]);
  t_isFile p := bool_decide (p ∈ ["/lib/modules/6.5.0-1-pve/modules.dep"; "/lib/modules/6.8.4-2-pve/updates/dkms/minisforum_n5_it5571.ko.xz"; "/lib/modules/6.5.0-1-pve/updates/dkms/minisforum_n5_it5571.ko"]);
  t_moduleVersion p := if HasSuffix p ".xz" then Some "0.2.1+sr1" else Some "0.2.0" |}.
Definition box_kernels : list string := ["6.5.0-1-pve"; "6.8.4-2-pve"].
Definition box_gate : gateResult := mkGate [] [(LStale "6.5.0-1-pve" "0.2.0" "0.2.1+sr1", true)] (OkBootable "0.2.1+sr1" FromNewest) (Some FromNewest).
Definition box_tool : string := Join ["Manually selected kernels:"; "None."; ""; "Automatically selected kernels:"; "6.5.0-1-pve"; "6.2.16-3-pve"] newline.
(** With the older kernel selected for boot, its old build is an alert. *)
Example box_gates : kernelGate (T := box) "/lib/modules" "0.2.1+sr1" "6.8.4-2-pve" None = Some box_gate /\
  g_alert <$> kernelGate (T := box) "/lib/modules" "0.2.1+sr1" "6.8.4-2-pve" (Some box_tool) = Some [LStale "6.5.0-1-pve" "0.2.0" "0.2.1+sr1"].
Proof. by vm_compute. Qed.
Lemma kernel_gate_witness :
  (g_alert box_gate = [] <-> forall k, k ∈ box_kernels -> bootable "6.8.4-2-pve" box_kernels None k ->
    has_module "/lib/modules" dkmsKernelObject k = true /\ ~ other_version "/lib/modules" "0.2.1+sr1" k) /\
  (after_update "/lib/modules" "0.2.1+sr1" "6.8.4-2-pve" None true).1 = 0.
Proof.
  pose proof (kernel_gate (T := box) "/lib/modules" "0.2.1+sr1" "6.8.4-2-pve" None box_kernels [] box_gate ltac:(by vm_compute) ltac:(done) ltac:(by repeat constructor) ltac:(by vm_compute))
    as (H1 & H2 & _). split; [exact H1|by apply H2].
Defined.

(** ** The self-check
    (src/cmd/n5-fangov/check.go) and the health page's summary of it
    (wiring_health.go).

    What the checks find on the machine is the class [Probe]; a result is its flags, its
    name and the alert it raises, without the text of its detail. *)
Record checkResult := mkCheck { r_ok : bool; r_advisory : bool; r_name : string; r_alert : string }.
(** What [loadConfig] answers: the values in effect, the number of warnings, and the error. *)
Inductive Loaded := LoadedOk (cfg : Config) (warnings : nat) | LoadedSyntax (cfg : Config) | LoadedUnreadable (cfg : Config).
Definition loaded_cfg (l : Loaded) : Config := match l with LoadedOk cfg _ | LoadedSyntax cfg | LoadedUnreadable cfg => cfg end.
(** A device: its profile and the channels it exposes; whether the file opens for writing. *)
Record CheckDev := mkDev { dv_Profile : string; dv_has : Z -> bool; dv_writable : string -> bool }.
Class Probe := {
  pr_config : Loaded;
  (** [inl true]: the driver is write-disabled or missing *)
  pr_detect : string -> bool + CheckDev;
  pr_verified : string -> bool;
  pr_driver : State; pr_expected : string;
  pr_diskKind : string -> string;
  pr_hook : bool;
  (** the sensor is created and reads *)
  pr_sensor : string -> bool;
  pr_isFile : string -> bool; pr_isDir : string -> bool;
  pr_pve : bool; pr_mail : bool;
  pr_unitActive : bool; pr_daemonRunning : bool;
  pr_dkms : bool }.

Section Checks.
Context {P : Probe}.
Definition add (ok : bool) (name : string) : list checkResult := [mkCheck ok false name ""].
Definition adv (ok : bool) (name : string) : list checkResult := [mkCheck ok true name ""].
Definition config_checks (l : Loaded) : list checkResult :=
  match l with
  | LoadedUnreadable _ => add false "config"
  | LoadedSyntax _ => adv false "config"
  | LoadedOk _ O => add true "config"
  | LoadedOk _ n => adv false "config" ++ concat (replicate n (adv false "  "))
  end.
(** [driverChecks] *)
Definition driverChecks (st : State) (wantVersion : string) : list checkResult :=
  if negb (st_Loaded st) then adv false "driver"
  else adv (negb (negb (String.eqb wantVersion "") && negb (String.eqb (st_Version st) wantVersion))) "driver" ++
    concat (map (fun _ => adv false "driver") (Findings st)).
Definition pwm_files (pwm : Z) : list string := [String.append "pwm" (Itoa pwm); String.append "pwm" (String.append (Itoa pwm) "_enable")].
Definition channel_name (c : Channel) : string := String.append "channel " (cc_Name c).
Definition channel_check (dev : CheckDev) (c : Channel) : list checkResult :=
  if negb (dv_has dev (cc_PWM c)) then adv false (channel_name c)
  else add (forallb (dv_writable dev) (pwm_files (cc_PWM c))) (channel_name c).
Definition ceiling_check (c : Channel) : list checkResult :=
  if EffectiveCeiling (Some pr_diskKind) (cc_Sensor c) (cc_Ceiling c) <? cc_Critical c then adv false (channel_name c) else [].
Definition sensor_check (c : Channel) : list checkResult :=
  let name := String.append "sensor " (cc_Sensor c) in
  if pr_sensor (cc_Sensor c) then add true name else adv false name.
Definition isLegacyHash (stored : string) : bool :=
  match ParsePasswordHash stored with inr ph => match ph_Legacy ph with _ :: _ => true | [] => false end | inl _ => false end.
Definition web_checks (w : Web) : list checkResult :=
  (if String.eqb (w_Listen w) "" then add true "web"
   else if String.eqb (w_Auth w) "none" && negb (IsLoopbackListen (w_Listen w)) then adv false "web"
   else add true "web") ++
  (if String.eqb (w_Auth w) "basic" && isLegacyHash (w_PasswordHash w) then adv false "web auth" else []) ++
  (if negb (String.eqb (w_Listen w) "") && String.eqb (w_TLS w) "file"
   then concat (map (fun f => if pr_isFile f then [] else adv false "web tls") [w_CertFile w; w_KeyFile w]) else []).
Definition log_check (dir_of : string -> string) (l : Log) : list checkResult :=
  if String.eqb (l_File l) "" then add true "log" else if pr_isDir (dir_of (l_File l)) then add true "log" else adv false "log".
Definition alert_check (a : Alert) : list checkResult :=
  let t := a_Transport a in
  if String.eqb t "pve" && negb pr_pve then adv false "alerts"
  else if String.eqb t "mail" && negb pr_mail then adv false "alerts"
  else if String.eqb t "off" then adv false "alerts"
  else add true "alerts".
Definition socket_check : list checkResult := if pr_unitActive then add pr_daemonRunning "socket" else adv true "socket".
(** [dir_of] is [filepath.Dir]. *)
Definition runChecks (dir_of : string -> string) : list checkResult :=
  let cfg := loaded_cfg pr_config in
  config_checks pr_config ++
  match pr_detect (d_Profile (c_Daemon cfg)) with
  | inl gate => [mkCheck false false "profile" (if gate then "driver" else "profile")]
  | inr dev =>
      let p := dv_Profile dev in
      let '(chans, notes) := SanitizeChannels p (c_Channels cfg) in
      add true "profile" ++ adv (pr_verified p) "hardware status" ++
      (if String.eqb p "n5pro" then driverChecks pr_driver pr_expected else []) ++
      concat (map (fun _ => adv false "channels") notes) ++
      (match chans with [] => adv false "channels" | _ => [] end) ++
      concat (map (channel_check dev) chans) ++ concat (map ceiling_check chans) ++
      (if pr_hook || negb (d_Emergency (c_Daemon cfg)) then add true "emergency hook" else adv false "emergency hook") ++
      concat (map sensor_check chans) ++ web_checks (c_Web cfg) ++ log_check dir_of (c_Log cfg) ++ alert_check (c_Alert cfg) ++ socket_check ++
      (if String.eqb p "n5pro" then adv pr_dkms "dkms" else [])
  end.

(** ** What is made of them *)
Inductive Summary := AllGood | PassedWithWarnings | Failed.
Definition fatal (r : checkResult) : bool := negb (r_ok r) && negb (r_advisory r).
Definition warns (r : checkResult) : bool := negb (r_ok r) && r_advisory r && negb (String.eqb (TrimSpace (r_name r)) "").
(** The loop of [cmdCheck]: the exit code and the warnings that are counted. *)
Definition check_loop (res : list checkResult) : Z * Z :=
  fold_left (fun '(rc, warnings) r =>
    if r_ok r then (rc, warnings)
    else if r_advisory r then (rc, if String.eqb (TrimSpace (r_name r)) "" then warnings else warnings + 1)
    else (1, warnings)) res (0, 0).
Definition cmdCheck (res : list checkResult) : Z * Summary :=
  let '(rc, warnings) := check_loop res in
  (rc, if (rc =? 0) && (warnings =? 0) then AllGood else if rc =? 0 then PassedWithWarnings else Failed).
(** [check] as ExecStartPre: the alerts that are sent. *)
Definition start_alerts (res : list checkResult) : list string :=
  map r_alert (List.filter (fun r => negb (r_ok r) && negb (String.eqb (r_alert r) "")) res).
Definition healthItems (res : list checkResult) : list Level * Summary :=
  let level r := if r_ok r then LevelOk else if r_advisory r then LevelWarn else LevelFail in
  let '(warnings, failed) := fold_left (fun '(warnings, failed) r =>
    if r_ok r then (warnings, failed)
    else if r_advisory r then (if String.eqb (TrimSpace (r_name r)) "" then warnings else warnings + 1, failed)
    else (warnings, true)) res (0, false) in
  (map level res, if failed : bool then Failed else if 0 <? warnings then PassedWithWarnings else AllGood).
End Checks.

(** ** Facts *)
Lemma check_fold res : forall rc n, 0 <= n -> fold_left (fun '(rc, warnings) r =>
    if r_ok r then (rc, warnings)
    else if r_advisory r then (rc, if String.eqb (TrimSpace (r_name r)) "" then warnings else warnings + 1)
    else (1, warnings)) res (rc, n) = (if existsb fatal res then 1 else rc, n + Z.of_nat (length (List.filter warns res))).
Proof.
  induction res as [|r res IH]; intros rc n Hn; cbn [fold_left existsb List.filter length]; [f_equal; lia|].
  unfold fatal at 1, warns at 1. destruct (r_ok r), (r_advisory r), (String.eqb_spec (TrimSpace (r_name r)) ""); cbn [negb andb orb]; rewrite IH by lia; cbn [length]; f_equal; try lia; by destruct (existsb fatal res).
Qed.
Lemma health_fold res : forall f n, 0 <= n -> fold_left (fun '(warnings, failed) r =>
    if r_ok r then (warnings, failed)
    else if r_advisory r then (if String.eqb (TrimSpace (r_name r)) "" then warnings else warnings + 1, failed)
    else (warnings, true)) res (n, f) = (n + Z.of_nat (length (List.filter warns res)), f || existsb fatal res).
Proof.
  induction res as [|r res IH]; intros f n Hn; cbn [fold_left existsb List.filter length]; [f_equal; [lia|by rewrite orb_false_r]|].
  unfold fatal at 1, warns at 1. destruct (r_ok r), (r_advisory r), (String.eqb_spec (TrimSpace (r_name r)) ""); cbn [negb andb orb]; rewrite IH by lia; cbn [length]; f_equal; try lia; by rewrite ?orb_true_r.
Qed.
(** The page and the command agree. *)
Lemma summaries_agree res : (healthItems res).2 = (cmdCheck res).2 /\ (cmdCheck res).1 = (if existsb fatal res then 1 else 0).
Proof.
  unfold healthItems, cmdCheck, check_loop. rewrite check_fold, health_fold by lia. cbn [orb]. destruct (existsb fatal res); cbn; [done|]. split; [|done].
  set (k := length _). destruct k; [done|]. by rewrite (proj2 (Z.ltb_lt _ _)), (proj2 (Z.eqb_neq _ _)) by lia.
Qed.
Lemma fatal_concat {A} (f : A -> list checkResult) l : existsb fatal (concat (map f l)) = existsb (fun a => existsb fatal (f a)) l.
Proof. induction l as [|a l IH]; [done|]. cbn. by rewrite existsb_app, IH. Qed.
Lemma existsb_never {A} (f : A -> bool) l : (forall a, f a = false) -> existsb f l = false.
Proof. intros H. induction l as [|a l IH]; [done|]. cbn. by rewrite H. Qed.
Lemma fatal_adv ok name : existsb fatal (adv ok name) = false.
Proof. by destruct ok. Qed.
Lemma fatal_add ok name : existsb fatal (add ok name) = negb ok.
Proof. by destruct ok. Qed.
Lemma quiet_if (b : bool) x y : existsb fatal x = false -> existsb fatal y = false -> existsb fatal (if b then x else y) = false.
Proof. by destruct b. Qed.
Section Check_rules.
Context {P : Probe}.
Definition quiet_part (l : list checkResult) : Prop := existsb fatal l = false.
Lemma quiet_config l : existsb fatal (config_checks l) = match l with LoadedUnreadable _ => true | _ => false end.
Proof.
  destruct l as [cfg [|n]|cfg|cfg]; try done. cbn. clear. induction n as [|n IH]; [done|]. cbn in *. exact IH.
Qed.
Lemma quiet_driver st v : quiet_part (driverChecks st v).
Proof.
  unfold quiet_part, driverChecks. destruct (st_Loaded st); cbn [negb]; [|done]. rewrite existsb_app, fatal_adv, fatal_concat. cbn. by apply existsb_never.
Qed.
Lemma quiet_web w : quiet_part (web_checks w).
Proof.
  unfold quiet_part, web_checks. rewrite !existsb_app. repeat case_match; try done; cbn; repeat case_match; done.
Qed.
(** What stops the start: the file cannot be read, no device, a channel's file does not open,
    or a running unit that does not answer. *)
Inductive stops : Prop :=
  | StopConfig cfg : pr_config = LoadedUnreadable cfg -> stops
  | StopDevice gate : pr_detect (d_Profile (c_Daemon (loaded_cfg pr_config))) = inl gate -> stops
  | StopChannel dev c f : pr_detect (d_Profile (c_Daemon (loaded_cfg pr_config))) = inr dev ->
      c ∈ (SanitizeChannels (dv_Profile dev) (c_Channels (loaded_cfg pr_config))).1 -> dv_has dev (cc_PWM c) = true ->
      f ∈ pwm_files (cc_PWM c) -> dv_writable dev f = false -> stops
  | StopSocket dev : pr_detect (d_Profile (c_Daemon (loaded_cfg pr_config))) = inr dev -> pr_unitActive = true -> pr_daemonRunning = false -> stops.
Lemma channel_fatal dev c : existsb fatal (channel_check dev c) = dv_has dev (cc_PWM c) && existsb (fun f => negb (dv_writable dev f)) (pwm_files (cc_PWM c)).
Proof.
  unfold channel_check. destruct (dv_has dev (cc_PWM c)); cbn [negb andb]; [|apply fatal_adv]. rewrite fatal_add. cbn.
  by destruct (dv_writable dev _), (dv_writable dev _).
Qed.
Lemma runChecks_fatal dir_of : existsb fatal (runChecks dir_of) = true <-> stops.
Proof.
  unfold runChecks. rewrite existsb_app, quiet_config. set (cfg := loaded_cfg pr_config).
  destruct (pr_detect (d_Profile (c_Daemon cfg))) as [gate|dev] eqn:Ed.
  - split; [intros _; by eapply StopDevice|intros _]. cbn. by rewrite orb_true_r.
  - destruct (SanitizeChannels (dv_Profile dev) (c_Channels cfg)) as [chans notes] eqn:Es.
    rewrite !existsb_app, !fatal_add, !fatal_adv, !fatal_concat. cbn [negb orb].
    rewrite (existsb_never (fun a => existsb fatal (adv false "channels"))) by done.
    rewrite (existsb_never (fun a => existsb fatal (ceiling_check a))) by (intros c; by apply quiet_if).
    rewrite (existsb_never (fun a => existsb fatal (sensor_check a))) by (intros c; by apply quiet_if).
    rewrite (quiet_web (c_Web cfg)).
    assert (E1 : existsb fatal (if String.eqb (dv_Profile dev) "n5pro" then driverChecks pr_driver pr_expected else []) = false) by (apply quiet_if; [apply quiet_driver|done]).
    assert (E2 : existsb fatal (match chans with [] => adv false "channels" | _ => [] end) = false) by (by destruct chans).
    assert (E3 : existsb fatal (if pr_hook || negb (d_Emergency (c_Daemon cfg)) then add true "emergency hook" else adv false "emergency hook") = false) by (by apply quiet_if).
    assert (E4 : existsb fatal (log_check dir_of (c_Log cfg)) = false) by (unfold log_check; repeat apply quiet_if; done).
    assert (E5 : existsb fatal (alert_check (c_Alert cfg)) = false) by (unfold alert_check; repeat apply quiet_if; done).
    assert (E6 : existsb fatal (if String.eqb (dv_Profile dev) "n5pro" then adv pr_dkms "dkms" else []) = false) by (apply quiet_if; [apply fatal_adv|done]).
    assert (E7 : existsb fatal socket_check = pr_unitActive && negb pr_daemonRunning) by (unfold socket_check; destruct pr_unitActive; [apply fatal_add|apply fatal_adv]).
    rewrite E1, E2, E3, E4, E5, E6, E7. cbn [orb]. rewrite !orb_false_r.
    rewrite !orb_true_iff. split.
    + intros [H|[H|H]].
      * destruct pr_config eqn:Ec; try done. by eapply StopConfig.
      * apply existsb_exists in H as (c & Hc & H). rewrite channel_fatal in H. apply andb_true_iff in H as [Hh Hw]. apply existsb_exists in Hw as (f & Hf & Hw).
        eapply (StopChannel dev c f); [done| |done|by apply list_elem_of_In|by apply negb_true_iff]. fold cfg. rewrite Es. by apply list_elem_of_In.
      * apply andb_true_iff in H as [Ha Hr%negb_true_iff]. by eapply StopSocket.
    + intros [c Hc|gate Hd|dev' c f Hd Hc Hh Hf Hw|dev' Hd Ha Hr]; fold cfg in Hd || idtac.
      * left. by rewrite Hc.
      * congruence.
      * right; left. assert (dev' = dev) as -> by congruence. fold cfg in Hc. rewrite Es in Hc. apply existsb_exists. exists c. split; [by apply list_elem_of_In|].
        rewrite channel_fatal, Hh. apply existsb_exists. exists f. split; [by apply list_elem_of_In|by rewrite Hw].
      * right; right. by rewrite Ha, Hr.
Qed.
End Check_rules.

(** C29: The self-check fails exactly for what keeps the daemon from regulating: an
    unreadable configuration, no device, a file of an exposed channel that does not open for
    writing - of the corrected channel set, so also of a channel the configuration left out -
    and, once the unit is active, a daemon that does not answer.  Everything else passes with
    a warning.  The health page shows the summary the command prints, and the only alerts of
    a refused start are those of the device. *)
Theorem check_fails {P : Probe} dir_of : let res := runChecks dir_of in
  ((cmdCheck res).1 = 1 <-> stops) /\ ((cmdCheck res).1 = 0 <-> ~ stops) /\ (healthItems res).2 = (cmdCheck res).2 /\
  (start_alerts res = [] \/ exists gate : bool, pr_detect (d_Profile (c_Daemon (loaded_cfg pr_config))) = inl gate /\ start_alerts res = [if gate then "driver" else "profile"]).
Proof.
  cbv zeta. destruct (summaries_agree (runChecks dir_of)) as [Hs ->]. rewrite <- (runChecks_fatal dir_of). split_and!; [by destruct (existsb _ _)..|done|].
  assert (Hnone : forall l, Forall (fun r => r_alert r = "") l -> start_alerts l = []).
  { intros l. unfold start_alerts. induction 1 as [|r l Hr _ IH]; [done|]. cbn. by rewrite Hr, andb_false_r. }
  assert (Hadv : forall ok n, Forall (fun r => r_alert r = "") (adv ok n)) by (intros; by repeat constructor).
  assert (Hadd : forall ok n, Forall (fun r => r_alert r = "") (add ok n)) by (intros; by repeat constructor).
  assert (Hcat : forall A (f : A -> list checkResult) l, (forall a, Forall (fun r => r_alert r = "") (f a)) -> Forall (fun r => r_alert r = "") (concat (map f l))).
  { intros A f l Hf. induction l as [|a l IH]; [constructor|]. cbn. by apply Forall_app. }
  assert (Hcfg : forall l, Forall (fun r => r_alert r = "") (config_checks l)).
  { intros [cfg [|n]|cfg|cfg]; try by repeat constructor. cbn. constructor; [done|]. induction n as [|n IH]; [by repeat constructor|]. cbn. by constructor. }
  unfold runChecks. set (p := d_Profile _). destruct (pr_detect p) as [gate|dev] eqn:E.
  - right. exists gate. split; [done|]. unfold start_alerts. rewrite List.filter_app, map_app. pose proof (Hnone _ (Hcfg pr_config)) as Hn. unfold start_alerts in Hn. rewrite Hn. by destruct gate.
  - left. apply Hnone. destruct (SanitizeChannels _ _) as [chans notes].
    repeat (apply Forall_app; split); try apply Hadv; try apply Hadd; try apply Hcfg; try (apply Hcat; intros a); unfold driverChecks, channel_check, ceiling_check, sensor_check, web_checks, log_check, alert_check, socket_check;
      repeat first [apply Hadv | apply Hadd | constructor | apply Forall_app; split | case_match | apply Hcat; intros ?].
Qed.
