(* ===== verification/Smbios.v ===== *)
(** The memory modules of the firmware's SMBIOS table (src/internal/sysinfo/smbios.go) and
    the names lspci prints (pci.go).

    A table is a list of bytes; the position of the code is what is left of it. *)
From stdpp Require Import base gmap strings list.
From Stdlib Require Import ZArith Lia Ascii.
From S2P Require Import Prelude GoLib GoNet GoPath Debver.
Open Scope Z_scope.

Definition smbiosPhysicalMemoryArray : Z := 16.
Definition smbiosMemoryDevice : Z := 17.
Definition smbiosEndOfTable : Z := 127.
Definition NUL : ascii := "000"%char.
Definition is_nul (c : ascii) : bool := is_char c NUL.
Definition byte_at (l : list ascii) (i : Z) : Z := match l !! Z.to_nat i with Some c => byte c | None => 0 end.
(** [SMBIOSVersion] *)
Definition SMBIOSVersion (ep : list ascii) : string :=
  let version i := String.append (Itoa (byte_at ep i)) (String.append "." (Itoa (byte_at ep (i + 1)))) in
  if (9 <=? Z.of_nat (length ep)) && String.eqb (of_chars (take 5 ep)) "_SM3_" then version 7
  else if (8 <=? Z.of_nat (length ep)) && String.eqb (of_chars (take 4 ep)) "_SM_" then version 6
  else "".

(** ** One structure *)
Record smbiosStruct := mkStruct { sm_Type : Z; sm_Handle : Z; sm_Data : list ascii; sm_Strings : list (list ascii) }.
Definition is_blank (c : ascii) : bool := is_char c " " || is_char c "009".
Definition trimSpaces (l : list ascii) : list ascii := rev (drop_while is_blank (rev (drop_while is_blank l))).
Definition str (s : smbiosStruct) (n : Z) : string :=
  if (n =? 0) || (Z.of_nat (length (sm_Strings s)) <? n) then "" else of_chars (trimSpaces (default [] (sm_Strings s !! Z.to_nat (n - 1)))).
Definition has_bytes (s : smbiosStruct) (off n : Z) : bool := off + n <=? Z.of_nat (length (sm_Data s)).
Definition u8 (s : smbiosStruct) (off : Z) : Z := if off <? Z.of_nat (length (sm_Data s)) then byte_at (sm_Data s) off else 0.
Definition u16 (s : smbiosStruct) (off : Z) : Z :=
  if has_bytes s off 2 then byte_at (sm_Data s) off + Z.shiftl (byte_at (sm_Data s) (off + 1)) 8 else 0.
Definition u32 (s : smbiosStruct) (off : Z) : Z :=
  if has_bytes s off 4 then byte_at (sm_Data s) off + Z.shiftl (byte_at (sm_Data s) (off + 1)) 8 +
    Z.shiftl (byte_at (sm_Data s) (off + 2)) 16 + Z.shiftl (byte_at (sm_Data s) (off + 3)) 24 else 0.

(** ** The table *)
(** The text up to the next NUL, and what follows the NUL. *)
Fixpoint cut_nul (l : list ascii) : list ascii * list ascii :=
  match l with
  | [] => ([], [])
  | c :: l' => if is_nul c then ([], l') else let '(a, b) := cut_nul l' in (c :: a, b)
  end.
(** The string set; [none]: no string was read yet. *)
Fixpoint string_set (fuel : nat) (l : list ascii) (none : bool) : list (list ascii) * list ascii :=
  match fuel with
  | O => ([], l)
  | S fuel' =>
      match l with
      | [] => ([], [])
      | c :: l' =>
          if is_nul c then
            match none, l' with
            | true, d :: l'' => ([], if is_nul d then l'' else l')
            | _, _ => ([], l')
            end
          else
            let '(s, rest) := cut_nul l in
            match rest with
            | d :: rest' => if is_nul d then ([s], rest') else let '(ss, r) := string_set fuel' rest false in (s :: ss, r)
            | [] => ([s], [])
            end
      end
  end.
(** The structures, and the type, position and length of one that does not fit. *)
Fixpoint walk (fuel : nat) (total : Z) (l : list ascii) : list smbiosStruct * option (Z * Z * Z) :=
  match fuel with
  | O => ([], None)
  | S fuel' =>
      match l with
      | typ :: ln :: h0 :: h1 :: _ =>
          let n := byte ln in
          if (n <? 4) || (Z.of_nat (length l) <? n) then ([], Some (byte typ, total - Z.of_nat (length l), n))
          else
            let rest := drop (Z.to_nat n) l in
            let '(strings, rest') := string_set (S (length rest)) rest true in
            let s := mkStruct (byte typ) (byte h0 + Z.shiftl (byte h1) 8) (take (Z.to_nat n) l) strings in
            if byte typ =? smbiosEndOfTable then ([s], None)
            else let '(ss, e) := walk fuel' total rest' in (s :: ss, e)
      | _ => ([], None)
      end
  end.
Definition walkSMBIOS (table : list ascii) : list smbiosStruct * option (Z * Z * Z) := walk (S (length table)) (Z.of_nat (length table)) table.

(** ** Modules *)
Definition memoryTypes (t : Z) : string :=
  default "" (list_to_map (M := gmap Z string) [(1, "Other"); (2, "Unknown"); (3, "DRAM"); (4, "EDRAM"); (5, "VRAM"); (6, "SRAM"); (7, "RAM");
    (8, "ROM"); (9, "Flash"); (10, "EEPROM"); (11, "FEPROM"); (12, "EPROM"); (13, "CDRAM"); (14, "3DRAM"); (15, "SDRAM"); (16, "SGRAM");
    (17, "RDRAM"); (18, "DDR"); (19, "DDR2"); (20, "DDR2 FB-DIMM"); (24, "DDR3"); (25, "FBD2"); (26, "DDR4"); (27, "LPDDR"); (28, "LPDDR2");
    (29, "LPDDR3"); (30, "LPDDR4"); (31, "Logical non-volatile device"); (32, "HBM"); (33, "HBM2"); (34, "DDR5"); (35, "LPDDR5"); (36, "HBM3")] !! t).
Definition formFactors (t : Z) : string :=
  default "" (list_to_map (M := gmap Z string) [(1, "Other"); (2, "Unknown"); (3, "SIMM"); (4, "SIP"); (5, "Chip"); (6, "DIP"); (7, "ZIP");
    (8, "Proprietary Card"); (9, "DIMM"); (10, "TSOP"); (11, "Row of chips"); (12, "RIMM"); (13, "SODIMM"); (14, "SRIMM"); (15, "FB-DIMM"); (16, "Die")] !! t).
Definition memorySize (s : smbiosStruct) : Z :=
  let v := u16 s 12 in
  if (v =? 0) || (v =? 65535) then 0
  else if v =? 32767 then Z.shiftl (u32 s 28) 20
  else if negb (Z.land v 32768 =? 0) then Z.shiftl (Z.land v 32767) 10
  else Z.shiftl v 20.
Record MemoryModule := mkModule {
  mm_Slot : string; mm_Bank : string; mm_SizeBytes : Z; mm_Type : string; mm_FormFactor : string; mm_SpeedMTs : Z;
  mm_Manufacturer : string; mm_Part : string; mm_ECC : bool }.
(** The configured speed wins over the nominal one; 65535 points to the extended field. *)
Definition module_speed (s : smbiosStruct) : Z :=
  let speed := u16 s 21 in
  let v := u16 s 32 in
  let speed := if (v =? 65535) && negb (u32 s 88 =? 0) then u32 s 88
               else if negb (v =? 0) && negb (v =? 65535) then v else speed in
  let speed := if speed =? 65535 then (if negb (u32 s 84 =? 0) then u32 s 84 else speed) else speed in
  if speed =? 65535 then 0 else speed.
Definition module_maker (s : smbiosStruct) : string :=
  let m := str s (u8 s 23) in if String.eqb m "Unknown" || String.eqb m "Not Specified" then "" else m.
Definition module_type (s : smbiosStruct) : string :=
  let t := memoryTypes (u8 s 18) in if String.eqb t "" then String.append "type 0x" (hex2 (u8 s 18)) else t.
Definition arrayECC (structs : list smbiosStruct) : gmap Z bool :=
  fold_left (fun m s => if sm_Type s =? smbiosPhysicalMemoryArray then <[sm_Handle s := (u8 s 6 =? 5) || (u8 s 6 =? 6)]> m else m) structs ∅.
Definition memory_module (ecc : gmap Z bool) (s : smbiosStruct) : MemoryModule :=
  mkModule (str s (u8 s 16)) (str s (u8 s 17)) (memorySize s) (module_type s) (formFactors (u8 s 14)) (module_speed s) (module_maker s) (str s (u8 s 26))
    (default false (ecc !! u16 s 4) || ((u16 s 10 <? u16 s 8) && negb (u16 s 10 =? 0) && negb (u16 s 8 =? 65535))).
Inductive SmbiosErr := EStructure (typ pos ln : Z) | ENoMemoryDevice.
Definition ParseMemoryModules (table : list ascii) : list MemoryModule * option SmbiosErr :=
  let '(structs, e) := walkSMBIOS table in
  let err := match e with Some (t, p, n) => Some (EStructure t p n) | None => None end in
  match structs, e with
  | [], Some _ => ([], err)
  | _, _ =>
      let devices := List.filter (fun s => sm_Type s =? smbiosMemoryDevice) structs in
      match devices with
      | [] => ([], Some ENoMemoryDevice)
      | _ => (map (memory_module (arrayECC structs)) (List.filter (fun s => 0 <? memorySize s) devices), err)
      end
  end.

(** ** lspci *)
(** The quoted fields of a line.  Runes are copied, so the bytes of a valid text are. *)
Fixpoint quoted_loop (l : list ascii) (inq esc : bool) (cur : list ascii) : list string :=
  match l with
  | [] => []
  | c :: l' =>
      if esc then quoted_loop l' inq false (c :: cur)
      else if inq && is_char c "\" then quoted_loop l' inq true cur
      else if is_char c "034" then (if inq then of_chars (rev cur) :: quoted_loop l' false false [] else quoted_loop l' true false cur)
      else if inq then quoted_loop l' inq false (c :: cur)
      else quoted_loop l' inq false cur
  end.
Definition quotedFields (s : string) : list string := quoted_loop (chars s) false false [].
Definition lspci_line (m : gmap string (string * string * string)) (ln : string) : gmap string (string * string * string) :=
  let ln := TrimSpace ln in
  if String.eqb ln "" then m
  else match Cut ln " " with
  | Some (slot, rest) => match quotedFields rest with class :: vendor :: device :: _ => <[slot := (class, vendor, device)]> m | _ => m end
  | None => m
  end.
Definition ParseLspciMM (s : string) : gmap string (string * string * string) := fold_left lspci_line (Split s "010"%char) ∅.
(** The bracketed short form of a vendor. *)
Definition shortVendor (v : string) : string :=
  match cut_last "[" (chars v) with
  | Some (_, tail) => if HasSuffix v "]" then of_chars (removelast tail) else v
  | None => v
  end.

(** ** A table as the firmware writes it *)
Definition no_nul (s : list ascii) : Prop := Forall (fun c => is_nul c = false) s.
Record struct_wf (s : smbiosStruct) : Prop := {
  wf_header : exists t n h0 h1 body, sm_Data s = t :: n :: h0 :: h1 :: body /\ byte n = Z.of_nat (length (sm_Data s)) /\
                sm_Type s = byte t /\ sm_Handle s = byte h0 + Z.shiftl (byte h1) 8;
  wf_strings : Forall (fun x => x <> [] /\ no_nul x) (sm_Strings s) }.
Definition write_strings (ss : list (list ascii)) : list ascii :=
  match ss with [] => [NUL; NUL] | _ => concat (map (fun x => x ++ [NUL]) ss) ++ [NUL] end.
Definition write_struct (s : smbiosStruct) : list ascii := sm_Data s ++ write_strings (sm_Strings s).
Definition write_table (ss : list smbiosStruct) : list ascii := concat (map write_struct ss).

Lemma is_nul_NUL : is_nul NUL = true.
Proof. reflexivity. Qed.

Lemma cut_nul_app s tail : no_nul s -> cut_nul (s ++ NUL :: tail) = (s, tail).
Proof. induction 1 as [| c s Hc Hs IH]; cbn -[is_nul]; [by rewrite is_nul_NUL | by rewrite Hc, IH]. Qed.

(** A string followed by the rest of a set: the two cases the loop tells apart. *)
Lemma string_set_one fuel s rest none :
  s <> [] -> no_nul s -> (match rest with d :: _ => is_nul d = true | [] => True end) ->
  string_set (S fuel) (s ++ NUL :: rest) none = ([s], tail rest).
Proof.
  intros Hs Hn Hr. destruct s as [| c s]; [done |]. pose proof (cut_nul_app _ rest Hn) as E. inversion Hn as [| ? ? Hc ?]; subst.
  cbn -[is_nul cut_nul] in *. rewrite Hc, E. destruct rest as [| d rest]; [done |]. by rewrite Hr.
Qed.

Lemma string_set_more fuel s d rest none :
  s <> [] -> no_nul s -> is_nul d = false ->
  string_set (S fuel) (s ++ NUL :: d :: rest) none = let '(ss, r) := string_set fuel (d :: rest) false in (s :: ss, r).
Proof.
  intros Hs Hn Hd. destruct s as [| c s]; [done |]. pose proof (cut_nul_app _ (d :: rest) Hn) as E. inversion Hn as [| ? ? Hc ?]; subst.
  cbn -[is_nul cut_nul string_set] in *. cbn [string_set]. by rewrite Hc, E, Hd.
Qed.

Lemma string_set_list ss : forall fuel none tail,
  ss <> [] -> Forall (fun x => x <> [] /\ no_nul x) ss -> (length ss <= fuel)%nat ->
  string_set fuel (concat (map (fun x => x ++ [NUL]) ss) ++ NUL :: tail) none = (ss, tail).
Proof.
  induction ss as [| s ss IH]; intros fuel none tail Hne Hf Hl; [done |].
  inversion Hf as [| ? ? [Hs Hn] Hf']; subst. destruct fuel as [| fuel]; [cbn in Hl; lia |]. cbn [map concat]. rewrite <- !app_assoc. cbn [app].
  destruct ss as [| s' ss].
  - cbn [map concat app]. by rewrite string_set_one.
  - inversion Hf' as [| ? ? [Hs' Hn'] Hf'']; subst.
    assert (exists d r, concat (map (fun x => x ++ [NUL]) (s' :: ss)) ++ NUL :: tail = d :: r /\ is_nul d = false) as (d & r & E & Hd).
    { destruct s' as [| d s']; [done |]. inversion Hn' as [| ? ? Hd ?]; subst. cbn -[is_nul]. eauto. }
    rewrite E, string_set_more by done. rewrite <- E, IH; [done | done | done | cbn in *; lia].
Qed.

Lemma concat_length ss : Forall (fun x : list ascii => x <> [] /\ no_nul x) ss -> (length ss <= length (concat (map (fun x => x ++ [NUL]) ss)))%nat.
Proof. induction 1 as [| x ss _ _ IH]; cbn; [lia |]. rewrite !length_app. cbn. lia. Qed.

Lemma string_set_written ss tail : Forall (fun x => x <> [] /\ no_nul x) ss ->
  string_set (S (length (write_strings ss ++ tail))) (write_strings ss ++ tail) true = (ss, tail).
Proof.
  intros Hf. destruct ss as [| s ss]; [reflexivity |]. unfold write_strings. rewrite <- app_assoc. cbn [app].
  apply string_set_list; [done | done |]. pose proof (concat_length _ Hf). rewrite length_app. lia.
Qed.

(** ** Walking what was written *)
Definition starts_with (s : list smbiosStruct) (r : list smbiosStruct * option (Z * Z * Z)) := (s ++ fst r, snd r).

(** What one structure yields, at any place of a table. *)
Lemma walk_written fuel total s tail : struct_wf s ->
  walk (S fuel) total (write_struct s ++ tail) =
  if sm_Type s =? smbiosEndOfTable then ([s], None) else starts_with [s] (walk fuel total tail).
Proof.
  intros [(t & n & h0 & h1 & body & E & Hn & Ht & Hh) Hs]. unfold write_struct. rewrite <- app_assoc.
  pose proof (string_set_written _ tail Hs) as Hset. destruct s as [ty ha data strs]. cbn [sm_Data sm_Type sm_Handle sm_Strings] in *.
  assert (Z.to_nat (byte n) = length data) as Hnat by lia. assert (4 <= byte n) as H4 by (rewrite Hn, E; cbn [length]; lia).
  set (r := write_strings strs ++ tail) in *. assert (Z.of_nat (length (data ++ r)) = byte n + Z.of_nat (length r)) as HL by (rewrite length_app; lia).
  assert (take (Z.to_nat (byte n)) (data ++ r) = data) as HT by (rewrite Hnat; apply take_app_length).
  assert (drop (Z.to_nat (byte n)) (data ++ r) = r) as HD by (rewrite Hnat; apply drop_app_length).
  assert (data ++ r = t :: n :: h0 :: h1 :: body ++ r) as EQ by (by rewrite E). cbn [walk]. rewrite EQ. rewrite <- EQ.
  rewrite HD, HT, Hset, HL. destruct (byte n <? 4) eqn:E1; [lia |]. destruct (_ <? byte n) eqn:E2; [lia |]. cbn [orb].
  rewrite <- Ht, <- Hh. destruct (ty =? smbiosEndOfTable); [done |]. by destruct (walk fuel total tail).
Qed.

Lemma write_struct_length s : struct_wf s -> (0 < length (write_struct s))%nat.
Proof. intros [(t & n & h0 & h1 & body & E & _) _]. unfold write_struct. rewrite E. cbn. lia. Qed.

Lemma table_length ss : Forall struct_wf ss -> (length ss <= length (write_table ss))%nat.
Proof.
  induction 1 as [| s ss Hs _ IH]; unfold write_table in *; cbn; [lia |]. rewrite length_app. pose proof (write_struct_length _ Hs). lia.
Qed.

Lemma starts_with_with a b r : starts_with a (starts_with b r) = starts_with (a ++ b) r.
Proof. unfold starts_with. cbn. by rewrite app_assoc. Qed.

Definition not_end (s : smbiosStruct) : Prop := sm_Type s <> smbiosEndOfTable.
Lemma walk_table ss : forall fuel total tail, Forall struct_wf ss -> Forall not_end ss -> (length ss <= fuel)%nat ->
  walk fuel total (write_table ss ++ tail) = starts_with ss (walk (fuel - length ss) total tail).
Proof.
  induction ss as [| s ss IH]; intros fuel total tail Hw He Hf.
  - cbn [write_table map concat app length]. rewrite Nat.sub_0_r. unfold starts_with. cbn. by destruct (walk fuel total tail).
  - inversion Hw as [| ? ? Hs Hw']; inversion He as [| ? ? Hne He']; subst. destruct fuel as [| fuel]; [cbn in Hf; lia |].
    unfold write_table. cbn [map concat]. rewrite <- app_assoc. fold (write_table ss).
    rewrite walk_written by done. unfold not_end in Hne. destruct (Z.eqb_spec (sm_Type s) smbiosEndOfTable) as [? | _]; [done |].
    rewrite IH; [| done | done | cbn in Hf; lia]. by rewrite starts_with_with.
Qed.

(** A last structure the header of which promises more bytes than are left. *)
Definition torn (l : list ascii) (t n : ascii) : Prop := exists h0 h1 b, l = t :: n :: h0 :: h1 :: b /\ Z.of_nat (length l) < byte n.

Lemma walk_torn fuel total l t n : torn l t n -> walk (S fuel) total l = ([], Some (byte t, total - Z.of_nat (length l), byte n)).
Proof.
  intros (h0 & h1 & b & -> & Hl). cbn [walk]. destruct (Z.of_nat (length (t :: n :: h0 :: h1 :: b)) <? byte n) eqn:E; [| lia].
  by rewrite orb_true_r.
Qed.

Lemma walk_stub fuel total l : (length l < 4)%nat -> walk fuel total l = ([], None).
Proof. intros Hl. destruct fuel; [done |]. do 4 (destruct l as [| ? l]; [done |]). cbn in Hl. lia. Qed.

Lemma walkSMBIOS_table ss tail : Forall struct_wf ss -> Forall not_end ss -> exists k,
  walkSMBIOS (write_table ss ++ tail) = starts_with ss (walk (S k) (Z.of_nat (length (write_table ss ++ tail))) tail).
Proof.
  intros Hw He. unfold walkSMBIOS. pose proof (table_length _ Hw) as Hl. rewrite walk_table; [| done | done | rewrite length_app; lia].
  exists (length (write_table ss ++ tail) - length ss)%nat. by rewrite Nat.sub_succ_l by (rewrite length_app; lia).
Qed.

(** The modules of a list of structures, in their order. *)
Definition modules_of (ss : list smbiosStruct) : list MemoryModule :=
  map (memory_module (arrayECC ss)) (List.filter (fun s => 0 <? memorySize s) (List.filter (fun s => sm_Type s =? smbiosMemoryDevice) ss)).

Lemma ParseMemoryModules_walk table ss e : walkSMBIOS table = (ss, e) -> existsb (fun s => sm_Type s =? smbiosMemoryDevice) ss = true ->
  ParseMemoryModules table = (modules_of ss, match e with Some (t, p, n) => Some (EStructure t p n) | None => None end).
Proof.
  intros E Hd. unfold ParseMemoryModules. rewrite E. apply existsb_exists in Hd as (d & Hin & Hd). destruct ss as [| s ss]; [done |].
  assert (In d (List.filter (fun s => sm_Type s =? smbiosMemoryDevice) (s :: ss))) as H by (by apply List.filter_In).
  unfold modules_of. destruct (List.filter _ (s :: ss)) as [| d' ds]; [done |]. by destruct e as [[[??] ?] |].
Qed.

(** ** Bounds *)
Lemma byte_at_range l i : 0 <= byte_at l i < 256.
Proof. unfold byte_at. destruct (l !! _) as [c |]; [pose proof (byte_range c) |]; lia. Qed.

Lemma u16_range s off : 0 <= u16 s off < 65536.
Proof.
  unfold u16. pose proof (byte_at_range (sm_Data s) off). pose proof (byte_at_range (sm_Data s) (off + 1)).
  rewrite Z.shiftl_mul_pow2 by lia. destruct (has_bytes s off 2); lia.
Qed.

Lemma u32_range s off : 0 <= u32 s off < 2 ^ 32.
Proof.
  unfold u32. pose proof (byte_at_range (sm_Data s) off). pose proof (byte_at_range (sm_Data s) (off + 1)).
  pose proof (byte_at_range (sm_Data s) (off + 2)). pose proof (byte_at_range (sm_Data s) (off + 3)).
  rewrite !Z.shiftl_mul_pow2 by lia. destruct (has_bytes s off 4); lia.
Qed.

Lemma memorySize_range s : 0 <= memorySize s < 2 ^ 52.
Proof.
  unfold memorySize. pose proof (u16_range s 12) as Hv. pose proof (u32_range s 28) as Hx. set (v := u16 s 12) in *.
  assert (0 <= Z.land v 32767 < 32768) as Hl by (change 32767 with (Z.ones 15); rewrite Z.land_ones by lia; apply Z.mod_pos_bound; lia).
  rewrite !Z.shiftl_mul_pow2 by lia.
  destruct (_ || _); [lia |]. destruct (v =? 32767); [lia |]. destruct (negb _); lia.
Qed.

Lemma module_speed_range s : 0 <= module_speed s < 2 ^ 32 /\ module_speed s <> 65535.
Proof.
  unfold module_speed. pose proof (u16_range s 21). pose proof (u16_range s 32). pose proof (u32_range s 88). pose proof (u32_range s 84).
  cbv zeta. repeat case_match; lia.
Qed.

Lemma modules_sizes ss : Forall (fun m => 0 < mm_SizeBytes m < 2 ^ 52 /\ 0 <= mm_SpeedMTs m < 2 ^ 32 /\ mm_SpeedMTs m <> 65535) (modules_of ss).
Proof.
  unfold modules_of. apply List.Forall_map, List.Forall_forall. intros s [_ Hs]%List.filter_In. cbn.
  pose proof (memorySize_range s). pose proof (module_speed_range s). lia.
Qed.

Lemma arrayECC_end ss e : sm_Type e = smbiosEndOfTable -> arrayECC (ss ++ [e]) = arrayECC ss.
Proof. intros He. unfold arrayECC. rewrite fold_left_app. cbn [fold_left]. by rewrite He. Qed.

Lemma modules_of_end ss e : sm_Type e = smbiosEndOfTable -> modules_of (ss ++ [e]) = modules_of ss.
Proof. intros He. unfold modules_of. rewrite arrayECC_end, List.filter_app by done. cbn [List.filter]. rewrite He. cbn. by rewrite app_nil_r. Qed.

(** C30: A firmware table of well-formed structures (a length byte that is their length, strings
    without NUL, none empty) read back gives just the structures written, whatever follows the
    end-of-table structure; a last structure of which bytes are missing costs no structure before
    it and is reported with its type, place and length, one of under four bytes is dropped
    silently. The modules are those of the type-17 structures with a size, in table order, with
    or without that report, each with a size below 2^52 and a speed that is never the escape
    value 65535. *)
Theorem smbios_roundtrip ss e tail l t n :
  Forall struct_wf ss -> Forall not_end ss -> struct_wf e -> sm_Type e = smbiosEndOfTable -> torn l t n ->
  let report := (byte t, Z.of_nat (length (write_table ss)), byte n) in
  walkSMBIOS (write_table (ss ++ [e]) ++ tail) = (ss ++ [e], None) /\
  walkSMBIOS (write_table ss ++ l) = (ss, Some report) /\
  (forall short, (length short < 4)%nat -> walkSMBIOS (write_table ss ++ short) = (ss, None)) /\
  (existsb (fun s => sm_Type s =? smbiosMemoryDevice) ss = true ->
   ParseMemoryModules (write_table (ss ++ [e]) ++ tail) = (modules_of ss, None) /\
   ParseMemoryModules (write_table ss ++ l) = (modules_of ss, Some (EStructure (byte t) (Z.of_nat (length (write_table ss))) (byte n)))) /\
  Forall (fun m => 0 < mm_SizeBytes m < 2 ^ 52 /\ 0 <= mm_SpeedMTs m < 2 ^ 32 /\ mm_SpeedMTs m <> 65535) (modules_of ss).
Proof.
  intros Hw He Hwe Hte Hl report.
  assert (walkSMBIOS (write_table (ss ++ [e]) ++ tail) = (ss ++ [e], None)) as W1.
  { destruct (walkSMBIOS_table ss (write_struct e ++ tail) Hw He) as [k Hk]. unfold write_table in *.
    rewrite map_app, concat_app. cbn [map concat]. rewrite app_nil_r, <- app_assoc, Hk, walk_written by done. by rewrite Hte. }
  assert (walkSMBIOS (write_table ss ++ l) = (ss, Some report)) as W2.
  { destruct (walkSMBIOS_table ss l Hw He) as [k ->]. rewrite (walk_torn _ _ _ _ _ Hl), length_app. unfold starts_with, report. cbn.
    rewrite app_nil_r. do 4 f_equal. lia. }
  split; [exact W1 |]. split; [exact W2 |]. split.
  - intros short Hs. destruct (walkSMBIOS_table ss short Hw He) as [k ->]. rewrite walk_stub by done. unfold starts_with. cbn. by rewrite app_nil_r.
  - split; [| apply modules_sizes]. intros Hd. split; [| by apply (ParseMemoryModules_walk _ _ _ W2)].
    rewrite <- (modules_of_end ss e) by done. apply (ParseMemoryModules_walk _ _ _ W1). by rewrite existsb_app, Hd.
Qed.

(** ** A table of this kind: an array with error correction, a module of 16 GiB and an empty slot *)
Definition ascii_of (z : Z) : ascii := ascii_of_N (Z.to_N z).
Definition structure (typ handle : Z) (body : list Z) (strs : list string) : smbiosStruct :=
  mkStruct typ handle (map ascii_of ([typ; Z.of_nat (length body) + 4; handle; 0] ++ body)) (map chars strs).
Definition example_table : list smbiosStruct :=
  [structure 16 7 [3; 3; 6] [];
   structure 17 8 [7; 0; 255; 255; 72; 0; 64; 0; 0; 64; 9; 0; 1; 2; 34; 0; 0; 192; 18; 3; 0; 0; 4] ["DIMM 0"; "BANK 0"; "Unknown"; " PART-1  "];
   structure 17 9 [7; 0; 255; 255; 64; 0; 64; 0; 0; 0; 9; 0; 1] ["DIMM 1"]].
Definition example_end : smbiosStruct := structure 127 10 [] [].
Definition example_torn : list ascii := map ascii_of [17; 40; 11; 0; 1].

Example example_modules : modules_of example_table = [mkModule "DIMM 0" "BANK 0" (2 ^ 34) "DDR5" "DIMM" 4800 "" "PART-1" true].
Proof. vm_compute. reflexivity. Qed.

Lemma structure_wf typ handle body strs :
  0 <= typ < 256 -> 0 <= handle < 256 -> Z.of_nat (length body) < 252 ->
  forallb (fun x => negb (bool_decide (x = [])) && forallb (fun c => negb (is_nul c)) x) (map chars strs) = true ->
  struct_wf (structure typ handle body strs).
Proof.
  intros Ht Hh Hb Hs. assert (forall z, 0 <= z < 256 -> byte (ascii_of z) = z) as B.
  { intros z Hz. unfold byte, ascii_of. rewrite N_ascii_embedding by lia. lia. }
  split.
  - unfold structure. cbn -[ascii_of]. eexists _, _, _, _, _. split; [reflexivity |].
    rewrite length_map, !B, Z.shiftl_0_l by lia. split_and!; lia.
  - cbn. apply List.Forall_forall. intros x Hx. rewrite List.forallb_forall in Hs. specialize (Hs x Hx).
    apply andb_true_iff in Hs as [H1 H2]. split; [by apply negb_true_iff, bool_decide_eq_false in H1 |].
    apply List.Forall_forall. intros c Hc. rewrite List.forallb_forall in H2. specialize (H2 c Hc). by apply negb_true_iff.
Qed.

Lemma smbios_roundtrip_witness :
  walkSMBIOS (write_table (example_table ++ [example_end]) ++ ["A"%char]) = (example_table ++ [example_end], None) /\
  ParseMemoryModules (write_table example_table ++ example_torn) =
    ([mkModule "DIMM 0" "BANK 0" (2 ^ 34) "DDR5" "DIMM" 4800 "" "PART-1" true], Some (EStructure 17 94 40)).
Proof.
  destruct (smbios_roundtrip example_table example_end ["A"%char] example_torn (ascii_of 17) (ascii_of 40)) as (H1 & _ & _ & H4 & _).
  - unfold example_table. repeat (apply List.Forall_cons; [apply structure_wf; [lia | lia | vm_compute; reflexivity | vm_compute; reflexivity] |]). constructor.
  - unfold not_end. repeat constructor; by vm_compute.
  - apply structure_wf; [lia | lia | vm_compute; reflexivity | vm_compute; reflexivity].
  - reflexivity.
  - exists (ascii_of 11), (ascii_of 0), [ascii_of 1]. split; [reflexivity | vm_compute; reflexivity].
  - split; [exact H1 |]. rewrite <- example_modules. destruct H4 as [_ ->]; vm_compute; reflexivity.
Defined.

(** An array whose error correction is CRC (7) does not make its modules ECC modules. *)
Example crc_not_ecc : map mm_ECC (modules_of [structure 16 7 [3; 3; 7] [];
  structure 17 8 [7; 0; 255; 255; 64; 0; 64; 0; 0; 64; 9; 0; 1; 2; 34] ["DIMM 0"; "BANK 0"]]) = [false].
Proof. vm_compute. reflexivity. Qed.
