(* ===== verification/Serve.v ===== *)
(** Starting and ending the daemon (src/cmd/n5-fangov/serve.go, serve_hwstatus.go,
    failsafe.go, writerlock_unix.go): the lock of the writers, which listener is opened and
    how, the watchdog, the record of the hardware status, the safe state after the daemon. *)
From stdpp Require Import base gmap strings list.
From Stdlib Require Import ZArith Lia Ascii.
From S2P Require Import Prelude GoLib GoNet GoPath GoTime ConfigTypes ConfigFields ConfigWeb ConfigParse ConfigFiles Stores Sanitize ControlTypes ControlApi ConfigValid TlsCert TlsManager TlsRules ConfigRules PresetStore ControlDemo.
Open Scope Z_scope.

(** ** The writer lock
    [flock] locks an inode; the file of the lock is the inode its path leads to. *)
Record Locks := mkLocks { lk_file : option nat; lk_next : nat; lk_held : gmap nat nat }.
#[export] Instance eta_Locks : Eta Locks := fun l => mkLocks (lk_file l) (lk_next l) (lk_held l).
Inductive LockAnswer := LockHeld (inode : nat) | LockBusy (holder : nat) | LockError.
(** [opens]: the directory can be made and the file opened; [flocks]: the call itself works. *)
Definition acquireWriterLockChecked (opens flocks : bool) (pid : nat) (l : Locks) : LockAnswer * Locks :=
  if negb opens then (LockError, l)
  else
    let '(inode, l) := match lk_file l with
                       | Some i => (i, l)
                       | None => (lk_next l, mkLocks (Some (lk_next l)) (S (lk_next l)) (lk_held l))
                       end in
    if negb flocks then (LockError, l)
    else match lk_held l !! inode with
    | Some holder => (LockBusy holder, l)
    | None => (LockHeld inode, l <| lk_held := <[inode := pid]> (lk_held l) |>)
    end.
(** [check]: the file is still the one that is locked. *)
Definition lock_check (inode : nat) (l : Locks) : bool := bool_decide (lk_file l = Some inode).
Definition lock_release (inode : nat) (l : Locks) : Locks := l <| lk_held := delete inode (lk_held l) |>.
(** Whether the daemon starts, and the alert it sends. *)
Definition serveWriterLock (a : LockAnswer) : bool * list string :=
  match a with LockBusy _ => (false, []) | LockError => (true, ["start"]) | LockHeld _ => (true, []) end.

(** ** The watchdog *)
Definition watchdogPing : Z := 10 * Second.
Definition watchdogSlack : Z := 3.
(** [lastCycle] is None for the zero time. *)
Definition watchdogAlive (lastCycle : option Time) (interval : Z) (now : Time) : bool :=
  match lastCycle with
  | None => false
  | Some t => if interval <=? 0 then false else tSub now t <=? watchdogSlack * interval
  end.
(** The snapshots the ticker sees, each with whether the context is done and the time is up. *)
Fixpoint waitFirstCycle (first : Snapshot) (polls : list (bool * bool * Snapshot)) : bool :=
  if (0 <? sn_TS first) && negb (bool_decide (sn_Status first = StatusStarting)) then true
  else match polls with
  | [] => false
  | (done, late, next) :: polls' => if done || late then false else waitFirstCycle next polls'
  end.
Definition hasChannel {W} {D : Device W} (idx : Z) : bool := existsb (fun c => dc_Index c =? idx) dev_Channels.

(** ** The record of the hardware status *)
Inductive HWLine := HWInfo | HWWarning.
Definition hw_record (profileName status key : string) : string :=
  String.append profileName (String "009" (String.append status (String "009" key))).
(** What is logged and, when the record is rewritten, its text.  [prev] is the file that was
    read, [tracked]: there is a state directory. *)
Definition logHWStatusChange (tracked : bool) (prev : option string) (profileName status key : string) (verified : bool) : option HWLine * option string :=
  let cur := hw_record profileName status key in
  let strip s := of_chars (rev (drop_while (fun c => is_char c "010") (rev (chars s)))) in
  let prev := if tracked then strip <$> prev else None in
  let changed := tracked && negb (bool_decide (prev = Some cur)) in
  (if verified then None else Some (if changed then HWWarning else HWInfo),
   if changed then Some (String.append cur newline) else None).

(** ** The listener *)
Inductive Listener := NoListener | Http (addr : string) | Https (addr : string).
(** The settings of [--listen]: the section, the address, whether the mode of the file is not
    the one in effect. *)
Definition override_listen (listen : string) (w : Web) : Web * string * bool :=
  if String.eqb listen "" then (w, w_Listen w, false)
  else
    let w := w <| w_Listen := listen |> in
    if negb (String.eqb listen "none") && negb (IsLoopbackListen listen) && String.eqb (w_TLS w) "off"
    then (w <| w_TLS := "auto" |>, listen, true) else (w, listen, false).

Section Listen.
Context {O : MapOrder} {W K : Type} {Fs : Files W} {Pk : Pki W K} {U : Url}.
Record webStage := mkWebStage { ws_web : Web; ws_addr : string; ws_useTLS : bool; ws_tlsMgr : tlsManager K; ws_hosts : list string; ws_alerts : list string }.
(** The part of [serveWeb] that decides on the listener. *)
Definition serveWeb (cfgPath listen : string) (primary : list string) (hostname : option string) (now : Z) (cfg : Config) : M W webStage := fun w =>
  let '(wspec, addr, overridden) := override_listen listen (c_Web cfg) in
  let addr := if String.eqb addr "none" then "" else addr in
  let hosts := tlsHosts primary hostname (w_Listen wspec) (w_AllowedHosts wspec) in
  let mgr := newTLSManager (w_TLS wspec) (w_CertFile wspec) (w_KeyFile wspec) in
  let own (overridden : bool) (m : tlsManager K) := if overridden then m <| tm_ownsConfig := false |> else m in
  if String.eqb addr "" then
    (mkWebStage wspec "" false (own (overridden || negb (String.eqb (w_TLS wspec) "off")) (mgr <| tm_mode := "off" |>)) hosts [], w)
  else
    let '(res, (mgr, w)) := loadForServe cfgPath hosts now (mgr, w) in
    let '(addr, useTLS, alerts) :=
      match res with
      | inl _ => ("", false, ["web"])
      | inr (_, Some _) => (addr, true, ["tls"])
      | inr (_, None) => (addr, String.eqb (w_TLS wspec) "auto" || String.eqb (w_TLS wspec) "file", [])
      end in
    (mkWebStage wspec addr useTLS (own overridden mgr) hosts alerts, w).
(** The part of [serveRun] that opens it; [bound]: net.Listen succeeded. *)
Definition open_listener (bound : bool) (st : webStage) : Listener * list string :=
  if String.eqb (ws_addr st) "" then (NoListener, [])
  else if negb bound then (NoListener, ["web"])
  else if ws_useTLS st then (Https (ws_addr st), []) else (Http (ws_addr st), []).
End Listen.
Arguments webStage : clear implicits.

(** ** The end of the daemon *)
(** What woke [serveRun], and whether the context was done by then. *)
Inductive RunEnd := Signalled | Ended (err : bool) (ctxDone : bool).
Definition serve_exit (e : RunEnd) : Z := match e with Ended true false => 1 | _ => 0 end.

Section Failsafe.
Context {W : Type} `{Device W} `{Host W}.
Inductive FailsafeResult := FsWriterBusy | FsNoDevice | FsNoChannels | FsDone (incomplete : list (Channel * Err)).
(** [cmdFailsafe] once its flags are read: the answer of the lock, whether a device was
    found, the values of the file. *)
Definition cmdFailsafe (sleep : Z -> M W unit) (fuel : nat) (lock : LockAnswer) (detected : bool) (cfg : Config) : M W FailsafeResult :=
  match lock with
  | LockBusy _ => ret FsWriterBusy
  | _ =>
      if negb detected then ret FsNoDevice
      else match c_Channels cfg with
      | [] => if negb (String.eqb dev_ProfileName "n5pro") then ret FsNoChannels
              else let* errs := Failsafe sleep fuel cfg in ret (FsDone errs)
      | _ => let* errs := Failsafe sleep fuel cfg in ret (FsDone errs)
      end
  end.
End Failsafe.

(** ** One writer
    Whatever processes take and give back the lock, end (the kernel then releases theirs) or
    replace the file, of all who believe to hold it at most one finds its check in order. *)
Inductive LockStep : Locks * list (nat * nat) -> Locks * list (nat * nat) -> Prop :=
| LsAcquire opens flocks pid inode l l' hs : acquireWriterLockChecked opens flocks pid l = (LockHeld inode, l') -> LockStep (l, hs) (l', (pid, inode) :: hs)
| LsRefused opens flocks pid a l l' hs : acquireWriterLockChecked opens flocks pid l = (a, l') -> (forall i, a <> LockHeld i) -> LockStep (l, hs) (l', hs)
| LsRelease pid inode l hs hs1 hs2 : hs = hs1 ++ (pid, inode) :: hs2 -> LockStep (l, hs) (lock_release inode l, hs1 ++ hs2)
| LsRemove l hs : LockStep (l, hs) (l <| lk_file := None |>, hs)
| LsReplace l hs : LockStep (l, hs) (mkLocks (Some (lk_next l)) (S (lk_next l)) (lk_held l), hs).
Definition locks_ok (s : Locks * list (nat * nat)) : Prop :=
  (forall pid i, (pid, i) ∈ s.2 -> lk_held s.1 !! i = Some pid) /\ NoDup s.2.*2.
Lemma acquire_spec opens flocks pid l : let '(a, l') := acquireWriterLockChecked opens flocks pid l in
  match a with
  | LockHeld i => lk_held l !! i = None /\ lk_held l' = <[i := pid]> (lk_held l) /\ lock_check i l' = true
  | LockBusy h => lk_held l' = lk_held l /\ exists i, lk_file l' = Some i /\ lk_held l !! i = Some h
  | LockError => lk_held l' = lk_held l
  end.
Proof.
  unfold acquireWriterLockChecked, lock_check. destruct opens; cbn [negb]; [|done].
  destruct (lk_file l) as [i|] eqn:E; destruct flocks; cbn; try done.
  - destruct (lk_held l !! i) eqn:Eh; cbn; [eauto|]. rewrite E. by case_bool_decide.
  - destruct (lk_held l !! lk_next l) eqn:Eh; cbn; [eauto|]. by case_bool_decide.
Qed.
Lemma locks_step s s' : LockStep s s' -> locks_ok s -> locks_ok s'.
Proof.
  intros Hs [H1 H2]. destruct Hs as [opens flocks pid inode l l' hs E|opens flocks pid a l l' hs E Ha|pid inode l hs hs1 hs2 ->|l hs|l hs]; cbn in *.
  - pose proof (acquire_spec opens flocks pid l) as Hq. rewrite E in Hq. destruct Hq as (Hn & Hh & _). split; cbn.
    + intros p i [[= -> ->]|Hi]%elem_of_cons; rewrite Hh; [by rewrite lookup_insert_eq|]. rewrite lookup_insert_ne; [by apply H1|].
      intros ->. by rewrite (H1 _ _ Hi) in Hn.
    + apply NoDup_cons. split; [|done]. intros ([p i] & -> & Hi)%list_elem_of_fmap. cbn in Hn. by rewrite (H1 _ _ Hi) in Hn.
  - pose proof (acquire_spec opens flocks pid l) as Hq. rewrite E in Hq.
    assert (lk_held l' = lk_held l) as Hh by (destruct a; [by destruct (Ha inode)|by destruct Hq|done]). split; cbn; [by rewrite Hh|done].
  - rewrite fmap_app in H2. cbn in H2. apply NoDup_app in H2 as (Hn1 & Hd & [Hi Hn2]%NoDup_cons). split; cbn.
    + intros p i Hp. assert (i <> inode).
      { intros ->. apply elem_of_app in Hp as [Hp|Hp]; apply (list_elem_of_fmap_2 snd) in Hp; [|done]. by apply (Hd _ Hp); left. }
      rewrite lookup_delete_ne by done. apply H1. rewrite elem_of_app, elem_of_cons. apply elem_of_app in Hp as [?|?]; auto.
    + rewrite fmap_app. apply NoDup_app. split_and!; [done| |done]. intros i Hi1 Hi2. apply (Hd _ Hi1). by right.
  - by split.
  - by split.
Qed.
Lemma one_writer s pid1 i1 pid2 i2 : rtc LockStep (mkLocks None 0 ∅, []) s ->
  (pid1, i1) ∈ s.2 -> (pid2, i2) ∈ s.2 -> lock_check i1 s.1 = true -> lock_check i2 s.1 = true -> pid1 = pid2.
Proof.
  intros Hr Hp1 Hp2 C1%bool_decide_eq_true C2%bool_decide_eq_true.
  assert (locks_ok s) as [H _].
  { revert Hr. assert (locks_ok (mkLocks None 0 ∅, [])) as H0 by (split; cbn; [by intros ? ? ?%elem_of_nil|constructor]). revert H0.
    generalize (mkLocks None 0 ∅, @nil (nat * nat)). intros s0 H0 Hr. clear - H0 Hr. induction Hr as [|x y z Hxy _ IH]; [done|]. apply IH. by eapply locks_step. }
  pose proof (H _ _ Hp1) as E1. pose proof (H _ _ Hp2) as E2. congruence.
Qed.

(** ** Small facts *)
Lemma watchdog_silent t interval now : 0 < interval -> watchdogSlack * interval < tSub now t -> watchdogAlive (Some t) interval now = false.
Proof. intros Hi Hl. unfold watchdogAlive. destruct (interval <=? 0) eqn:E; [done|]. apply Z.leb_gt. lia. Qed.

Lemma drop_newline s : last (chars s) <> Some "010"%char ->
  of_chars (rev (drop_while (fun c => is_char c "010") (rev (chars (String.append s newline))))) = s.
Proof.
  intros Hl. rewrite chars_app, rev_app_distr. change (rev (chars newline)) with ["010"%char]. cbn [app drop_while]. change (is_char "010" "010") with true. cbn iota.
  assert (drop_while (fun c => is_char c "010") (rev (chars s)) = rev (chars s)) as ->; [|by rewrite rev_involutive, of_chars_chars].
  destruct (rev (chars s)) as [|c l] eqn:E; [done|]. rewrite drop_while_false; [done|]. unfold is_char. destruct (Ascii.eqb_spec c "010") as [->|]; [|done].
  destruct Hl. rewrite <- (rev_involutive (chars s)), E. cbn [rev]. by rewrite last_snoc.
Qed.
(** An unchanged restart never warns: the record that was written is the one that is read. *)
Lemma hw_quiet profileName status key verified prev l text : last (chars (hw_record profileName status key)) <> Some "010"%char ->
  logHWStatusChange true prev profileName status key verified = (l, Some text) ->
  logHWStatusChange true (Some text) profileName status key verified = (if verified then None else Some HWInfo, None).
Proof.
  intros Hl. unfold logHWStatusChange. cbn [andb]. destruct (negb _) eqn:E; [|done]. intros [= <- <-]. cbn [fmap option_fmap option_map].
  rewrite (drop_newline _ Hl). rewrite bool_decide_true by done. done.
Qed.

(** ** Which listener *)
Section Listen_rules.
Context {O : MapOrder} {W K : Type} {Fs : Files W} {Pk : Pki W K} {U : Url}.
Variable (cfgPath : string) (hosts : list string).
Implicit Types (m : tlsManager K) (w : W).
Definition holds_usable m : Prop := exists c, tm_store m = Some c /\ CheckUsable c = None.
Lemma serve_ok cert m w : let '(e, (m', w')) := serve cert (m, w) in
  tm_mode m' = tm_mode m /\ tm_ownsConfig m' = tm_ownsConfig m /\ (e = None -> holds_usable m').
Proof.
  unfold serve. destruct (CheckUsable cert) as [e|] eqn:E; split_and!; try done. intros _. eexists. split; [reflexivity|].
  exact (eq_trans (CheckUsable_set cert) E).
Qed.
Lemma served_ok path cert m w : let '(e, (m', w')) := served path cert (m, w) in
  tm_mode m' = tm_mode m /\ tm_ownsConfig m' = tm_ownsConfig m /\ ((exists p, e = inr p) -> holds_usable m').
Proof.
  unfold served, bind, ret. pose proof (serve_ok cert m w) as H. destruct (serve cert (m, w)) as [[e|] [m' w']]; destruct H as (H1 & H2 & H3); split_and!; try done.
  - by intros [p Hp].
  - intros _. by apply H3.
Qed.
Lemma loadLocked_ok now m w : let '(e, (m', w')) := loadLocked cfgPath hosts now true (m, w) in
  tm_mode m' = tm_mode m /\ tm_ownsConfig m' = tm_ownsConfig m /\ (tm_mode m <> "off" -> (exists p, e = inr p) -> holds_usable m').
Proof.
  assert (forall path cert w, let '(e, (m', w')) := served path cert (m, w) in
    tm_mode m' = tm_mode m /\ tm_ownsConfig m' = tm_ownsConfig m /\ (tm_mode m <> "off" -> (exists p, e = inr p) -> holds_usable m')) as Hserved.
  { intros path cert w0. pose proof (served_ok path cert m w0) as H. destruct (served path cert (m, w0)) as [? []]. destruct H as (? & ? & ?). by split_and!. }
  unfold loadLocked, is_mode. destruct (String.eqb_spec (tm_mode m) "off"); [done|]. destruct (String.eqb (tm_mode m) "file").
  - destruct (LoadFiles w _ _) as [e|cert]; [|apply Hserved]. split_and!; [done..|]. by intros _ [p Hp].
  - destruct (Paths _) as [c k]. cbn [negb]. unfold liftW. destruct (EnsureAuto _ now w) as [[e|cert] w1]; [|apply Hserved]. split_and!; [done..|]. by intros _ [p Hp].
Qed.
Lemma loadForServe_ok now m w : let '(res, (m', w')) := loadForServe cfgPath hosts now (m, w) in
  tm_mode m' = tm_mode m /\ tm_ownsConfig m' = tm_ownsConfig m /\ (tm_mode m <> "off" -> (exists r, res = inr r) -> holds_usable m') /\
  (forall path e, res = inr (path, Some e) -> tm_mode m <> "off").
Proof.
  unfold loadForServe. pose proof (loadLocked_ok now m w) as Hl. destruct (loadLocked _ _ now true (m, w)) as [[e|path] [m1 w1]]; destruct Hl as (H1 & H2 & H3).
  - cbn [fst]. unfold shouldFallbackToAuto. destruct (String.eqb_spec (tm_mode m) "file") as [Ef|Ef]; cbn [andb negb]; [|split_and!; [done..|by intros _ [? ?]|done]].
    unfold liftW. destruct (EnsureAuto _ now w1) as [[e'|cert] w2]; [split_and!; [done..|by intros _ [? ?]|done]|].
    pose proof (serve_ok cert m1 w2) as Hs. destruct (serve cert (m1, w2)) as [[e'|] [m2 w3]]; destruct Hs as (S1 & S2 & S3).
    + split_and!; [congruence..|by intros _ [? ?]|done].
    + cbn. split_and!; [congruence..| |by intros _ _ _; rewrite Ef]. intros _ _. destruct (S3 eq_refl) as (c & Hc & Hu). by exists c.
  - split_and!; [done..| |done]. intros Ho _. apply H3; eauto.
Qed.
End Listen_rules.

Lemma override_spec listen w : (w_TLS w = "off" -> IsLoopbackListen (w_Listen w) = true) ->
  let '(wspec, addr, over) := override_listen listen w in
  addr = (if String.eqb listen "" then w_Listen w else listen) /\
  (addr <> "none" -> w_TLS wspec = "off" -> IsLoopbackListen addr = true) /\
  (w_TLS wspec = w_TLS w \/ w_TLS wspec = "auto") /\ (over = false -> w_TLS wspec = w_TLS w).
Proof.
  intros Hoff. unfold override_listen. destruct (String.eqb_spec listen "") as [->|Hl]; [split_and!; auto|].
  destruct (String.eqb_spec listen "none") as [->|Hn]; cbn [negb andb].
  - split_and!; auto; done.
  - destruct (IsLoopbackListen listen) eqn:El; cbn [negb andb]; [split_and!; auto|]. cbn.
    destruct (String.eqb_spec (w_TLS w) "off") as [E|E]; cbn; split_and!; auto; done.
Qed.

(** C7: The dashboard on the network is never plain HTTP.  Whatever the configuration file
    holds, whatever [--listen] says, and whatever happens to the certificate files: a
    listener without TLS is on the loopback interface, a listener with TLS starts with a
    certificate that passed the handshake check, and when no certificate can be served there
    is no listener but an alert.  [--listen none] opens none.  The manager only pins a TLS
    mode into the file that the file has. *)
Theorem no_plain_http {O : MapOrder} {W K : Type} {Fs : Files W} {Pk : Pki W K} {Prim : Type} `{!Toml Prim} {U : Url}
    (env : string) (Decode : string -> string + Doc Prim) raw cfgPath listen primary hostname now bound (w : W) :
  let cfg := (Parse env Decode raw).1.1 in
  let '(st, _) := serveWeb (K := K) cfgPath listen primary hostname now cfg w in
  match (open_listener bound st).1 with
  | Http addr => IsLoopbackListen addr = true /\ ws_useTLS st = false
  | Https addr => holds_usable (ws_tlsMgr st) /\ addr = (if String.eqb listen "" then w_Listen (c_Web cfg) else listen)
  | NoListener => listen = "none" \/ "web" ∈ ws_alerts st ++ (open_listener bound st).2
  end /\
  (listen = "none" -> (open_listener bound st).1 = NoListener) /\
  (tm_ownsConfig (ws_tlsMgr st) = true -> tm_mode (ws_tlsMgr st) = w_TLS (c_Web cfg)).
Proof.
  cbv zeta. pose proof (Parse_valid env Decode raw) as (_ & (_ & Hmode & Hoff & _ & _ & (h & p & n & Hsplit & _)) & _).
  set (cfg := (Parse env Decode raw).1.1) in *. unfold serveWeb.
  pose proof (override_spec listen (c_Web cfg) Hoff) as Ho. destruct (override_listen listen (c_Web cfg)) as [[wspec addr] over]. destruct Ho as (Ha & Hl & Ht & Hov).
  assert (w_TLS wspec ∈ TLSModes) as Hm by (destruct Ht as [->| ->]; [done|by apply contains_elem]).
  assert (addr <> "" /\ (addr = "none" <-> listen = "none")) as [Hne Hnone].
  { destruct (String.eqb_spec listen "") as [->|?]; [|by subst]. assert (forall s, s = w_Listen (c_Web cfg) -> s <> "" /\ s <> "none") as Hs.
    { intros s ->. split; intros E; by rewrite E in Hsplit. }
    destruct (Hs addr Ha). split; [done|]. split; done. }
  destruct (String.eqb_spec addr "none") as [En|En]; cbn match.
  - unfold open_listener. cbn. split_and!; [left; by apply Hnone|done|].
    destruct over; cbn [orb]; [done|]. destruct (String.eqb_spec (w_TLS wspec) "off") as [Eo|Eo]; cbn; [|done]. intros _. by rewrite <- Hov, Eo.
  - rewrite (proj2 (String.eqb_neq _ _) Hne).
    pose proof (loadForServe_ok cfgPath (tlsHosts primary hostname (w_Listen wspec) (w_AllowedHosts wspec)) now (newTLSManager (w_TLS wspec) (w_CertFile wspec) (w_KeyFile wspec)) w) as Hs.
    destruct (loadForServe _ _ now _) as [res [m w']]. destruct Hs as (Hm1 & Hm2 & Hm3 & Hnoload). cbn [newTLSManager tm_mode tm_ownsConfig] in *.
    assert (tm_ownsConfig (if over then m <| tm_ownsConfig := false |> else m) = true -> tm_mode (if over then m <| tm_ownsConfig := false |> else m) = w_TLS (c_Web cfg)) as Hpin.
    { destruct over; [done|]. intros _. by rewrite Hm1, Hov. }
    assert (holds_usable m -> holds_usable (if over then m <| tm_ownsConfig := false |> else m)) as Hus by (by destruct over).
    assert (listen = "none" -> False) as Hl0 by tauto. unfold open_listener.
    destruct res as [e|[path [e|]]]; cbn [ws_addr ws_useTLS ws_tlsMgr ws_alerts].
    + cbn. split_and!; [right; by apply list_elem_of_singleton|done|exact Hpin].
    + rewrite (proj2 (String.eqb_neq _ _) Hne). destruct bound; cbn; (split; [|by split]); [|right; set_solver].
      split; [|done]. apply Hus, Hm3; [by eapply Hnoload|by eexists].
    + rewrite (proj2 (String.eqb_neq _ _) Hne). destruct bound; cbn; (split; [|by split]); [|right; set_solver].
      unfold TLSModes in Hm. destruct (String.eqb_spec (w_TLS wspec) "auto") as [E1|E1]; [split; [apply Hus, Hm3; [by rewrite E1|by eexists]|done]|].
      destruct (String.eqb_spec (w_TLS wspec) "file") as [E2|E2]; cbn [orb]; [split; [apply Hus, Hm3; [by rewrite E2|by eexists]|done]|].
      split; [|done]. apply Hl; [done|]. set_solver.
Qed.

(** ** The safe state after the daemon *)
(** What [SafeStop] of a device promises: after it succeeds, or only the read-back differs,
    the channel is safe, and nothing else the failsafe does changes a safe channel. *)
Class StopLaws {W : Type} (D : Device W) (Ho : Host W) (safe : Z -> W -> Prop) : Prop := {
  sl_stop pwm stop w : match dev_SafeStop pwm stop w with
    | (None, w') => safe pwm w'
    | (Some e, w') => errors_Is e ErrDCRMismatch = true -> safe pwm w' end;
  sl_other pwm stop q w : q <> pwm -> safe q w -> safe q (dev_SafeStop pwm stop w).2;
  sl_verify verify ch duty q w : dev_VerifyRegister = Some verify -> safe q w -> safe q (verify ch duty w).2;
  sl_now q w : safe q w -> safe q (host_now w).2 }.

Section Failsafe_rules.
Context {W : Type} {D : Device W} {Ho : Host W} (safe : Z -> W -> Prop) {L : StopLaws D Ho safe}.
Variable (sleep : Z -> M W unit).
Hypothesis sleep_safe : forall d q w, safe q w -> safe q (sleep d w).2.
Definition exposed (pwm : Z) : bool := existsb (fun dc => dc_Index dc =? pwm) dev_Channels.
(** Safe, or among the reported ones. *)
Definition accounted (errs : list (Channel * Err)) (pwm : Z) (w : W) : Prop := safe pwm w \/ pwm ∈ map (fun p => cc_PWM p.1) errs.
Lemma channel_accounted ch w : let '((errs, _), w') := failsafe_channel ch w in
  (exposed (cc_PWM ch) = true -> accounted errs (cc_PWM ch) w') /\ (forall q, q <> cc_PWM ch -> safe q w -> safe q w').
Proof.
  unfold failsafe_channel, exposed. destruct (existsb _ dev_Channels) eqn:E; cbn [negb]; [|split; done].
  unfold bind, ret. pose proof (sl_stop (cc_PWM ch) (cc_Stop ch) w) as Hs. pose proof (fun q => sl_other (cc_PWM ch) (cc_Stop ch) q w) as Ho'.
  destruct (dev_SafeStop _ _ w) as [[e|] w'].
  - destruct (errors_Is e ErrDCRMismatch) eqn:Em; split; try (intros q Hq Hw; by apply Ho'); intros _; [left; by apply Hs|right; cbn; by left].
  - destruct (StopDuty ch); (split; [intros _; by left|intros q Hq Hw; by apply Ho']).
Qed.
Lemma channels_accounted chans : NoDup (map cc_PWM chans) -> forall w, let '(rs, w') := mapM failsafe_channel chans w in
  (forall ch, ch ∈ chans -> exposed (cc_PWM ch) = true -> accounted (concat (map fst rs)) (cc_PWM ch) w') /\
  (forall q, q ∉ map cc_PWM chans -> safe q w -> safe q w').
Proof.
  induction chans as [|ch chans IH]; intros Hnd w; cbn; [split; [by intros ? ?%elem_of_nil|done]|].
  apply NoDup_cons in Hnd as [Hni Hnd]. unfold bind, ret. pose proof (channel_accounted ch w) as Hc. destruct (failsafe_channel ch w) as [[errs fixed] w1].
  destruct Hc as [Hc1 Hc2]. specialize (IH Hnd w1). destruct (mapM failsafe_channel chans w1) as [rs w2]. destruct IH as [IH1 IH2]. cbn [map concat fst].
  split.
  - intros c [->|Hc]%elem_of_cons He.
    + destruct (Hc1 He) as [H|H]; [left; by apply IH2|right]. rewrite map_app. apply elem_of_app. by left.
    + destruct (IH1 c Hc He) as [H|H]; [by left|right]. rewrite map_app. apply elem_of_app. by right.
  - intros q [Hq1 Hq2]%not_elem_of_cons Hw. apply IH2; [done|]. by apply Hc2.
Qed.
Lemma wait_safe verify ch duty deadline q fuel : dev_VerifyRegister = Some verify -> preserves (safe q) (WaitRegister verify sleep ch duty deadline fuel).
Proof.
  intros Hv. induction fuel as [|fuel IH]; cbn [WaitRegister]; [apply preserves_ret|].
  apply preserves_bind; [intros w; by apply sl_verify|]. intros [e|]; [|apply preserves_ret].
  apply preserves_bind; [intros w; by apply sl_now|]. intros now. destruct (negb _); [apply preserves_ret|].
  apply preserves_bind; [intros w; apply sleep_safe|]. by intros [].
Qed.
Lemma registers_safe fuel fixed q : preserves (safe q) (failsafeRegisters sleep fuel fixed).
Proof.
  unfold failsafeRegisters. destruct dev_VerifyRegister as [verify|] eqn:Ev; [|apply preserves_ret]. destruct fixed as [|c0 fixed]; [apply preserves_ret|].
  apply preserves_bind; [intros w; by apply sl_now|]. intros start. apply preserves_iterM. intros ch. cbv zeta. destruct (_ <=? 0); [apply preserves_ret|].
  apply preserves_bind; [by apply wait_safe|]. intros ?. apply preserves_ret.
Qed.
Lemma sanitized_pwms chans : NoDup (map cc_PWM chans) ->
  let out := (SanitizeChannels dev_ProfileName chans).1 in
  NoDup (map cc_PWM out) /\ (forall k, k ∈ map cc_PWM chans -> k ∈ map cc_PWM out).
Proof.
  intros Hnd out. subst out. destruct (String.eqb_spec dev_ProfileName "n5pro") as [->|Hp].
  2:{ unfold SanitizeChannels. rewrite (proj2 (String.eqb_neq _ _) Hp). by split. }
  destruct (SanitizeChannels_shape chans) as (a1 & a2 & a3 & notes & -> & A1 & A2 & A3). cbn [fst]. rewrite !map_app, force_stop_pwms.
  assert (forall k stop l, appended chans k stop l -> map cc_PWM l = [] \/ map cc_PWM l = [k] /\ k ∉ map cc_PWM chans) as Ha.
  { intros k stop l. unfold appended. destruct (last_index k chans) eqn:E; [intros ->; by left|]. intros (ch & -> & <- & _). right. split; [done|].
    apply last_index_None in E. intros (c & Hc & Hin)%list_elem_of_fmap. rewrite List.Forall_forall in E. apply (E c); [by apply list_elem_of_In|done]. }
  split; [|intros k Hk; apply elem_of_app; by left].
  apply Ha in A1, A2, A3. destruct A1 as [->|[-> H1]], A2 as [->|[-> H2]], A3 as [->|[-> H3]]; cbn [app]; rewrite ?app_nil_r; try done;
    (apply NoDup_app; split_and!; [done|intros x Hx; set_solver|repeat (apply NoDup_cons; split; [set_solver|]); constructor]).
Qed.

(** C8: After every end of the daemon the failsafe accounts for every fan.  Whatever the
    configuration file holds: unless another writer has the lock or there is no device (and
    then nothing is written), every configured channel the device exposes, and on an N5 Pro
    every exposed one of pwm1..3 whether it is configured or not, is in its safe state
    afterwards or is reported; an error on one channel keeps no other from its turn, and
    waiting for a register undoes nothing.  A lock that cannot be had for another reason does
    not stop it. *)
Theorem failsafe_accounts {Prim : Type} `{!Toml Prim} {U : Url} (env : string) (Decode : string -> string + Doc Prim) raw fuel lock detected w :
  let cfg := (Parse env Decode raw).1.1 in
  let '(res, w') := cmdFailsafe sleep fuel lock detected cfg w in
  match res with
  | FsWriterBusy => w' = w /\ exists holder, lock = LockBusy holder
  | FsNoDevice => w' = w /\ detected = false
  | FsNoChannels => w' = w /\ dev_ProfileName <> "n5pro" /\ c_Channels cfg = []
  | FsDone errs =>
      (forall ch, ch ∈ c_Channels cfg -> exposed (cc_PWM ch) = true -> accounted errs (cc_PWM ch) w') /\
      (dev_ProfileName = "n5pro" -> forall k, 1 <= k <= 3 -> exposed k = true -> accounted errs k w')
  end.
Proof.
  cbv zeta. pose proof (Parse_valid env Decode raw) as (_ & _ & _ & _ & _ & (_ & _ & Hnd) & _). set (cfg := (Parse env Decode raw).1.1) in *.
  assert (let '(res, w') := (let* errs := Failsafe sleep fuel cfg in ret (FsDone errs)) w in exists errs, res = FsDone errs /\
    (forall k, k ∈ map cc_PWM (SanitizeChannels dev_ProfileName (c_Channels cfg)).1 -> exposed k = true -> accounted errs k w')) as Hdone.
  { unfold Failsafe. destruct (sanitized_pwms _ Hnd) as [Hnd' _]. set (chans := (SanitizeChannels _ _).1) in *. unfold bind, ret.
    pose proof (channels_accounted chans Hnd' w) as Hc. destruct (mapM failsafe_channel chans w) as [rs w1]. destruct Hc as [Hc _].
    pose proof (fun q => registers_safe fuel (concat (map snd rs)) q w1) as Hr. destruct (failsafeRegisters _ _ _ w1) as [[] w2].
    eexists. split; [reflexivity|]. intros k (ch & -> & Hch)%list_elem_of_fmap He. destruct (Hc ch Hch He) as [H|H]; [left; by apply Hr|by right]. }
  destruct (sanitized_pwms _ Hnd) as [_ Hin].
  assert (forall errs w', (forall k, k ∈ map cc_PWM (SanitizeChannels dev_ProfileName (c_Channels cfg)).1 -> exposed k = true -> accounted errs k w') ->
    (forall ch, ch ∈ c_Channels cfg -> exposed (cc_PWM ch) = true -> accounted errs (cc_PWM ch) w') /\
    (dev_ProfileName = "n5pro" -> forall k, 1 <= k <= 3 -> exposed k = true -> accounted errs k w')) as Hend.
  { intros errs w' H. split.
    - intros ch Hch He. apply H; [|done]. apply Hin. by apply list_elem_of_fmap_2.
    - intros Hp k Hk He. apply H; [|done]. by apply (sanitized_spec dev_ProfileName (c_Channels cfg) Hnd Hp). }
  unfold cmdFailsafe. destruct lock as [i|h|]; [|unfold ret; split; [done|by eexists]|].
  all: destruct detected; cbn [negb]; [|unfold ret; by split].
  all: destruct (c_Channels cfg) eqn:Ec; [destruct (String.eqb_spec dev_ProfileName "n5pro") as [Ep|Ep]; cbn [negb]; [|unfold ret; by split_and!]|].
  all: destruct ((let* errs := Failsafe sleep fuel cfg in ret (FsDone errs)) w) as [res w']; destruct Hdone as (errs & -> & Ha); by apply Hend.
Qed.
End Failsafe_rules.

(** An N5 Pro whose second channel is gone and whose third reads back late; the file does not
    decode, so the channels are the built-in ones. *)
Module FailsafeDemo.
Import ControlDemo.Demo.
#[export] Instance half_dead : Device World := {|
  dev_ProfileName := "n5pro";
  dev_Channels := [mkDevChannel 1 true; mkDevChannel 2 true; mkDevChannel 3 true];
  dev_ReadRPM := fun ch w => (inl [ENODEV], w);
  dev_ReadDuty := fun ch w => (inl [ENODEV], w);
  dev_EnterManual := fun ch w => (Some [ENODEV], w);
  dev_WriteDuty := fun ch d w => (Some [ENODEV], w);
  dev_SafeStop := fun ch stop w =>
    if ch =? 2 then (Some [ENODEV], w)
    else (if ch =? 3 then Some [ErrDCRMismatch] else None, w <| w_duty := <[ch := 140]> (w_duty w) |>);
  dev_ReadEnable := None;
  dev_VerifyRegister := Some (fun ch d w => (Some [ENODATA], w));
  dev_RegisterSettle := fun _ => Second |}.
Definition stopped (pwm : Z) (w : World) : Prop := w_duty w !! pwm = Some 140.
#[export] Instance half_dead_laws : StopLaws half_dead demo_host stopped.
Proof.
  split; cbn.
  - intros pwm stop w. destruct (Z.eqb_spec pwm 2); [by vm_compute|]. destruct (pwm =? 3); unfold stopped; cbn; rewrite lookup_insert_eq; done.
  - intros pwm stop q w Hq Hw. destruct (pwm =? 2); [done|]. unfold stopped in *. cbn. by rewrite lookup_insert_ne.
  - intros verify ch duty q w [= <-] Hw. exact Hw.
  - done.
Qed.
Definition sleep (d : Z) : M World unit := fun w => (tt, w <| w_now := w_now w + d |>).
Definition answer := cmdFailsafe sleep 20 LockError true (Parse "" PresetStore.Disk.Decode "[").1.1 (world 40000 35000).
End FailsafeDemo.

Lemma failsafe_accounts_witness : map (fun p => cc_PWM p.1) (match FailsafeDemo.answer.1 with FsDone errs => errs | _ => [] end) = [2] /\
  forall k, 1 <= k <= 3 -> k <> 2 -> FailsafeDemo.stopped k FailsafeDemo.answer.2.
Proof.
  assert (map (fun p => cc_PWM p.1) (match FailsafeDemo.answer.1 with FsDone errs => errs | _ => [] end) = [2]) as Herr by (vm_compute; reflexivity).
  split; [exact Herr|]. intros k Hk Hne.
  pose proof (failsafe_accounts (L := FailsafeDemo.half_dead_laws) FailsafeDemo.stopped FailsafeDemo.sleep (fun d q w Hw => Hw) "" PresetStore.Disk.Decode "[" 20 LockError true (ControlDemo.Demo.world 40000 35000)) as H.
  cbv beta zeta in H. destruct FailsafeDemo.answer as [[| | |errs] w'] eqn:E; try (vm_compute in E; discriminate).
  unfold FailsafeDemo.answer in E. rewrite E in H.
  destruct H as [_ H]. cbn [fst snd] in *. specialize (H eq_refl k Hk). destruct H as [H|H].
  - assert (k = 1 \/ k = 2 \/ k = 3) as [->|[->| ->]] by lia; reflexivity.
  - exact H.
  - rewrite Herr in H. apply list_elem_of_singleton in H. done.
Defined.
