(* ===== verification/WebApi.v ===== *)
(** The endpoints of regulation, history, health, dashboard and log
    (src/internal/web/web.go, history_api.go, health_api.go, dashboard_api.go), behind the
    guard, and the embedded pages.  A handler gets the decoded body or query texts ("" for an absent one) and answers
    with a status or what it sends; the texts of errors are left out. *)
From stdpp Require Import base gmap strings list.
From Stdlib Require Import ZArith QArith Lia Ascii Lqa.
From S2P Require Import Prelude GoLib GoNet GoPath GoTime Float64 ConfigTypes ConfigFields ConfigWeb History Sanitize ControlTypes ControlApi WebGuard WebAccount.
Open Scope Z_scope.

(** What the server needs of the controller ([control.Service]). *)
Class Service (S : Type) := {
  se_Snapshot : S -> Snapshot;
  se_HistoryRange : Z -> Z -> S -> list Point;
  se_SetOverride : string -> Z -> S -> option ApiErr * S;
  se_ClearOverride : string -> S -> option ApiErr * S }.

(** ** The liveness probe *)
Inductive Probe := PStuck | PStarting | PFailsafe | PDegraded | POk.
Definition probe_status (p : Probe) : Z := match p with PStarting | POk => 200 | _ => 503 end.
Definition has_mode (modes : list Mode) (snap : Snapshot) : bool := existsb (fun c => bool_decide (cs_Mode c ∈ modes)) (sn_Channels snap).
Definition healthzState (snap : Snapshot) (age sinceCycle grace : Z) : Probe :=
  if has_mode [ModeFailsafe] snap then PFailsafe
  else if bool_decide (sn_Status snap = StatusStarting) then (if grace <? age then PStuck else PStarting)
  else if (0 <? grace) && (grace <? sinceCycle) then PStuck
  else if bool_decide (sn_Status snap = StatusWriteError) || bool_decide (sn_Status snap = StatusSensorError) then PDegraded
  else if has_mode [ModeSensor; ModeStall] snap then PDegraded else POk.
(** [since] is the time since the snapshot's. *)
Definition healthz {S} {Sv : Service S} (grace : Z) (since : Z -> Z) (s : S) : Probe :=
  let snap := se_Snapshot s in
  healthzState snap (sn_Uptime snap * Second) (if sn_TS snap =? 0 then 0 else since (sn_TS snap)) grace.

(** ** State and history *)
Record publicChannel := mkPublicChannel {
  pc_Name : string; pc_PWM : Z; pc_Sensor : string; pc_Temp : Q; pc_Duty : Z; pc_Target : Z; pc_RPM : Z; pc_Mode : Mode }.
(** Without the two fields of the hardware status, which the model of a snapshot leaves out. *)
Record publicState := mkPublicState {
  ps_TS : Z; ps_Status : Status; ps_Profile : string; ps_DryRun : bool; ps_Channels : list publicChannel; ps_Uptime : Z }.
Record publicPoint := mkPublicPoint { pp_TS : Z; pp_Temp : gmap string Q; pp_Duty : gmap string Z; pp_RPM : gmap string Z }.
Definition public_channel (c : ChannelState) : publicChannel :=
  mkPublicChannel (cs_Name c) (cs_PWM c) (cs_Sensor c) (cs_Temp c) (cs_Duty c) (cs_Target c) (cs_RPM c) (cs_Mode c).
Definition public_state (snap : Snapshot) : publicState :=
  mkPublicState (sn_TS snap) (sn_Status snap) (sn_Profile snap) (sn_DryRun snap) (map public_channel (sn_Channels snap)) (sn_Uptime snap).
Definition public_point (p : Point) : publicPoint := mkPublicPoint (p_TS p) (p_Temp p) (p_Duty p) (p_RPM p).
Definition getState {S} {Sv : Service S} (c : Caller) (s : S) : publicState + Snapshot :=
  if negb (ca_Authenticated c) then inl (public_state (se_Snapshot s)) else inr (se_Snapshot s).
Definition minHistoryMinutes : Z := 1.
Definition maxHistoryMinutes : Z := 7 * 24 * 60.
Definition defaultHistoryMinutes : Z := 120.
Definition historyMinutes (q : string) : option Z :=
  if String.eqb q "" then Some defaultHistoryMinutes
  else match Atoi q with
  | Some n => if (n <? minHistoryMinutes) || (maxHistoryMinutes <? n) then None else Some n
  | None => None
  end.
Inductive HistoryAnswer := HStatus (status : Z) | HPublic (pts : list publicPoint) | HFull (pts : list Point).
Definition getHistory {S} {Sv : Service S} (c : Caller) (minutes since : string) (s : S) : HistoryAnswer :=
  match historyMinutes minutes with
  | None => HStatus 400
  | Some n =>
      match (if String.eqb since "" then Some 0 else match Atoi since with Some t => if t <? 0 then None else Some t | None => None end) with
      | None => HStatus 400
      | Some since =>
          let pts := List.filter (fun p => since <? p_TS p) (se_HistoryRange (n * Minute) since s) in
          if negb (ca_Authenticated c) then HPublic (map public_point pts) else HFull pts
      end
  end.

(** ** Overrides *)
Definition channelName : string -> bool := nameRe.
Inductive OverrideAnswer := OStatus (status : Z) | ODone (channel : string) (duty : Z) (mode : Mode).
(** The duty a body asks for; both numbers are optional. *)
Definition body_duty (duty percent : option Q) : option Z :=
  match duty, percent with
  | Some _, Some _ => None
  | Some d, None => if negb (feq d (of_int (to_int d))) || flt d 0 || flt 255 d then None else Some (to_int d)
  | None, Some p => if flt p 0 || flt 100 p then None else Some (to_int (fadd (fdiv (fmul p 255) 100) (1 # 2)))
  | None, None => None
  end.
Section Overrides.
Context {S : Type} {Sv : Service S}.
Definition channel (name : string) (s : S) : option ChannelState := find (fun c => String.eqb (cs_Name c) name) (sn_Channels (se_Snapshot s)).
Definition mode_of (dflt : Mode) (name : string) (s : S) : Mode := match channel name s with Some c => cs_Mode c | None => dflt end.
Definition putOverride (name : string) (body : Body (option Q * option Q)) : M S OverrideAnswer := fun s =>
  if negb (channelName name) then (OStatus 400, s)
  else match body with
  | Bad status => (OStatus status, s)
  | Decoded (duty, percent) =>
      match body_duty duty percent with
      | None => (OStatus 400, s)
      | Some d =>
          match channel name s with
          | None => (OStatus 404, s)
          | Some _ =>
              let '(e, s) := se_SetOverride name d s in
              (match e with Some _ => OStatus 400 | None => ODone name d (mode_of ModeManual name s) end, s)
          end
      end
  end.
Definition deleteOverride (name : string) : M S OverrideAnswer := fun s =>
  if negb (channelName name) then (OStatus 400, s)
  else match channel name s with
  | None => (OStatus 404, s)
  | Some _ =>
      let '(e, s) := se_ClearOverride name s in
      (match e with Some _ => OStatus 400 | None => ODone name 0 (mode_of ModeAuto name s) end, s)
  end.
End Overrides.

(** The same conversion on the command line (src/cmd/n5-fangov/common.go). *)
Definition parseDuty (s : string) : option Z :=
  let s := TrimSpace s in
  if HasSuffix s "%" then
    match Atoi (of_chars (removelast (chars s))) with
    | Some p => if (p <? 0) || (100 <? p) then None else Some (Z.quot (p * 255 + 50) 100)
    | None => None
    end
  else match Atoi s with Some d => if (d <? 0) || (255 <? d) then None else Some d | None => None end.
Definition pct (duty : Z) : Z := Z.quot (duty * 100 + 127) 255.

(** ** Dashboard and log *)
Definition maxDashboardSensors : Z := 8.
(** [None]: the array is missing; [SetSensors] answers with an error and whether it is one of
    the store, or the warnings. *)
Definition putDashboard {S} (SetSensors : list string -> M S (bool + list string)) (body : Body (option (list string))) : M S (Z + list string) := fun s =>
  match body with
  | Bad status => (inl status, s)
  | Decoded None => (inl 400, s)
  | Decoded (Some ids) =>
      if maxDashboardSensors <? Z.of_nat (length ids) then (inl 400, s)
      else let '(res, s) := SetSensors ids s in
      (match res with inl store => inl (if store : bool then 500 else 400) | inr warnings => inr warnings end, s)
  end.
(** [Lines n] answers None on an error. *)
Definition getLog (Lines : Z -> option (list string)) (q : string) : Z + list string :=
  match (if String.eqb q "" then Some 100 else match Atoi q with Some n => if (n <? 1) || (5000 <? n) then None else Some n | None => None end) with
  | None => inl 400
  | Some n => match Lines n with None => inl 500 | Some ls => inr ls end
  end.
(** An error of [Clear] carries whether clearing is not supported. *)
Definition clearLog {S} (Clear : M S (option bool)) : M S Z := fun s =>
  let '(e, s) := Clear s in (match e with None => 200 | Some true => 501 | Some false => 500 end, s).

(** ** Facts *)
Lemma fadd_int_half z : 0 <= z < 2 ^ 40 -> to_int (fadd (inject_Z z) (1 # 2)) = z.
Proof. intros Hz. unfold fadd. rewrite round64_half by lia. apply to_int_half. lia. Qed.

Lemma round64_within (a b x : Q) : (a <= x)%Q -> (x <= b)%Q -> round64 a = a -> round64 b = b -> (a <= round64 x <= b)%Q.
Proof. intros Ha Hb Ea Eb. split; [rewrite <- Ea|rewrite <- Eb]; by apply round64_le. Qed.
(** A duty is one of the 256, whatever number is sent. *)
Lemma body_duty_range duty percent d : body_duty duty percent = Some d -> 0 <= d <= 255.
Proof.
  unfold body_duty. destruct duty as [q|], percent as [p|]; try done.
  - destruct (feq q (of_int (to_int q))), (flt q 0) eqn:E1, (flt 255 q) eqn:E2; try done. cbn. intros [= <-].
    apply flt_false in E1, E2. split.
    + rewrite <- (to_int_inject 0). by apply to_int_le.
    + rewrite <- (to_int_inject 255). by apply to_int_le.
  - destruct (flt p 0) eqn:E1, (flt 100 p) eqn:E2; try done. cbn. intros [= <-]. apply flt_false in E1, E2.
    assert (0 <= fmul p 255 <= 25500)%Q as [M1 M2] by (unfold fmul; apply round64_within; [lra|lra|by vm_compute|by vm_compute]).
    assert (0 <= fdiv (fmul p 255) 100 <= 255)%Q as [D1 D2].
    { unfold fdiv. apply round64_within; [apply Qle_shift_div_l; lra|apply Qle_shift_div_r; lra|by vm_compute|by vm_compute]. }
    assert (1 # 2 <= fadd (fdiv (fmul p 255) 100) (1 # 2) <= 511 # 2)%Q as [A1 A2].
    { unfold fadd. apply round64_within; [lra|lra|by vm_compute|by vm_compute]. }
    change 0 with (to_int (1 # 2)). change 255 with (to_int (511 # 2)). split; by apply to_int_le.
Qed.
(** For whole percentages the browser's and the command line's conversion agree, and the
    percentage shown for the duty is the one that was asked for. *)
Lemma percent_agrees : forallb (fun p => bool_decide (body_duty None (Some (inject_Z p)) = parseDuty (String.append (Itoa p) "%")) &&
  bool_decide ((pct <$> body_duty None (Some (inject_Z p))) = Some p)) (seqZ 0 101) = true.
Proof. vm_compute. reflexivity. Qed.
Lemma body_duty_exact duty percent d : body_duty duty percent = Some d ->
  (forall q, duty = Some q -> (q == inject_Z d)%Q) /\
  (forall p, 0 <= p <= 100 -> percent = Some (inject_Z p) -> parseDuty (String.append (Itoa p) "%") = Some d).
Proof.
  intros Hb. split.
  - intros q ->. pose proof (body_duty_range _ _ _ Hb) as Hr. cbn in Hb. destruct percent; [done|].
    destruct (feq q (of_int (to_int q))) eqn:E; [|done]. cbn in Hb. destruct (_ || _); [done|]. injection Hb as <-.
    apply Qeq_bool_iff in E. rewrite of_int_exact in E by lia. exact E.
  - intros p Hp ->. destruct duty; [done|]. pose proof percent_agrees as H. rewrite forallb_forall in H.
    specialize (H p). rewrite Hb in H. assert (In p (seqZ 0 101)) as Hin by (apply list_elem_of_In, elem_of_seqZ; lia).
    apply H, andb_true_iff in Hin as [H1%bool_decide_eq_true _]. done.
Qed.

(** ** The controller behind the interface *)
Section Controller_service.
Context {W Rd : Type} {D : Device W} {Sn : Sensors W Rd} {Ho : Host W}.
(** The snapshot before the first one. *)
Variable (none : Snapshot).
Definition controller_service : Service (Sys W Rd) := {|
  se_Snapshot s := default none (k_snap (s_c s));
  se_HistoryRange span since s := Range (host_now (s_w s)).1 span since (k_hist (s_c s));
  se_SetOverride := SetOverride;
  se_ClearOverride := ClearOverride |}.
#[local] Existing Instance controller_service.
Implicit Types (s : Sys W Rd).
Lemma SetOverride_spec name duty s : let '(e, s') := SetOverride name duty s in
  match e with
  | Some _ => s' = s
  | None => 0 <= duty <= 255 /\ s_c s' = (s_c s) <| k_overrides := <[name := duty]> (k_overrides (s_c s)) |> /\
      exists ch, findLocked (s_c s) name = Some ch /\ (hddLike dev_ProfileName (ch_cfg ch) = true -> MinHDDOverride <= duty)
  end.
Proof.
  unfold SetOverride. destruct ((duty <? 0) || (255 <? duty)) eqn:E; [done|]. apply orb_false_iff in E as [E1 E2].
  unfold bind, getc, gets, modc, modify, ret. cbn. destruct (findLocked (s_c s) name) as [ch|] eqn:Ef; [|done].
  destruct (hddLike dev_ProfileName (ch_cfg ch) && (duty <? MinHDDOverride)) eqn:Eh; [done|].
  apply andb_false_iff in Eh. cbn.
  assert (0 <= duty <= 255 /\ exists ch, Some ch = findLocked (s_c s) name /\ (hddLike dev_ProfileName (ch_cfg ch) = true -> MinHDDOverride <= duty)) as (Hd & ch' & Hch & Hh).
  { split; [lia|]. exists ch. split; [done|]. destruct Eh as [->| ?]; [done|lia]. }
  destruct (o_RunDir (k_opts (s_c s))); cbn; [unfold lift; destruct (host_WriteRun _ _ _); cbn|]; split_and!; try lia; try done; exists ch'; split; congruence || done.
Qed.
Lemma ClearOverride_spec name s : let '(e, s') := ClearOverride name s in
  match e with
  | Some _ => s' = s
  | None => s_c s' = (s_c s) <| k_overrides := delete name (k_overrides (s_c s)) |> /\ exists ch, findLocked (s_c s) name = Some ch
  end.
Proof.
  unfold ClearOverride, removeRunFile, bind, getc, gets, modc, modify, ret. cbn. destruct (findLocked (s_c s) name) as [ch|] eqn:Ef; [|done]. cbn.
  destruct (negb (o_RunDir (k_opts (s_c s)))); cbn; [split; [done|by exists ch]|]. unfold lift. destruct (host_RemoveRun _ _); cbn. split; [done|by exists ch].
Qed.

(** C27: An override asked for over the network is one of the 256 duties, on a channel that
    exists, never below the least duty of a disk fan, and it changes nothing but the override
    of that channel; a duty that is sent is the duty that is set, and a whole percentage is
    set as the command line would.  An answer with another status than 200 has changed
    nothing at all.  Clearing removes that one override. *)
Theorem override_requests name body s :
  (let '(a, s') := putOverride name body s in
   match a with
   | OStatus _ => s' = s
   | ODone n d _ => n = name /\ nameRe name = true /\ 0 <= d <= 255 /\
       s_c s' = (s_c s) <| k_overrides := <[name := d]> (k_overrides (s_c s)) |> /\
       (exists ch, findLocked (s_c s) name = Some ch /\ (hddLike dev_ProfileName (ch_cfg ch) = true -> MinHDDOverride <= d)) /\
       exists duty percent, body = Decoded (duty, percent) /\ (forall q, duty = Some q -> (q == inject_Z d)%Q) /\
         (forall p, 0 <= p <= 100 -> percent = Some (inject_Z p) -> parseDuty (String.append (Itoa p) "%") = Some d)
   end) /\
  (let '(a, s') := deleteOverride name s in
   match a with
   | OStatus _ => s' = s
   | ODone _ _ _ => s_c s' = (s_c s) <| k_overrides := delete name (k_overrides (s_c s)) |> /\ exists ch, findLocked (s_c s) name = Some ch
   end).
Proof.
  split.
  - unfold putOverride, channelName. destruct (nameRe name) eqn:En; cbn [negb]; [|done]. destruct body as [st|[duty percent]]; [done|].
    destruct (body_duty duty percent) as [d|] eqn:Eb; [|done]. destruct (channel name s); [|done]. cbn [se_SetOverride controller_service].
    pose proof (SetOverride_spec name d s) as H. destruct (SetOverride name d s) as [[e|] s']; [exact H|]. destruct H as (H1 & H2 & H3).
    split_and!; try done; try lia. exists duty, percent. split; [done|]. by apply body_duty_exact.
  - unfold deleteOverride, channelName. destruct (nameRe name); cbn [negb]; [|done]. destruct (channel name s); [|done]. cbn [se_ClearOverride controller_service].
    pose proof (ClearOverride_spec name s) as H. by destruct (ClearOverride name s) as [[e|] s'].
Qed.
End Controller_service.

(** A monitor sees 200 only from a daemon whose loop runs and whose fans are all regulated,
    or that has just started. *)
Lemma healthz_fine snap age sinceCycle grace : probe_status (healthzState snap age sinceCycle grace) = 200 <->
  has_mode [ModeFailsafe] snap = false /\
  (sn_Status snap = StatusStarting /\ age <= grace \/
   (sn_Status snap = StatusOK \/ sn_Status snap = StatusDryRun) /\ (0 < grace -> sinceCycle <= grace) /\ has_mode [ModeSensor; ModeStall] snap = false).
Proof.
  unfold healthzState. destruct (has_mode [ModeFailsafe] snap); [by split; [|intros [? _]]|].
  destruct (sn_Status snap); cbn; destruct (grace <? age) eqn:E1, (0 <? grace) eqn:E2, (grace <? sinceCycle) eqn:E3, (has_mode [ModeSensor; ModeStall] snap); cbn;
    (split; [intros H; try discriminate H; (split; [done|]) | intros [_ H]]); try done; try (destruct H as [[? ?]|[[?|?] [? ?]]]; (done || lia)); (left; split; [done|lia]) || (right; split_and!; auto; lia).
Qed.
(** What an anonymous caller sees is a function of the public part alone. *)
Lemma state_public {S} {Sv : Service S} c (s s' : S) : ca_Authenticated c = false ->
  public_state (se_Snapshot s) = public_state (se_Snapshot s') -> getState c s = getState c s'.
Proof. intros Hc Hs. unfold getState. rewrite Hc. cbn. by rewrite Hs. Qed.
Lemma history_public {S} {Sv : Service S} c minutes since (s : S) pts : ca_Authenticated c = false -> getHistory c minutes since s <> HFull pts.
Proof. intros Hc. unfold getHistory. rewrite Hc. by repeat case_match. Qed.

(** ** The user interface *)
(** The page: its status, or the embedded file with its type, whether the policy that allows
    no foreign script goes with it, and whether the content is sent. *)
Inductive Page := PageStatus (status : Z) | PageFile (name ctype : string) (policy body : bool).
Definition static_type (name : string) : option string :=
  if String.eqb name "index.html" then Some "text/html; charset=utf-8"
  else if String.eqb name "app.js" || String.eqb name "mock.js" then Some "text/javascript; charset=utf-8"
  else if String.eqb name "app.css" then Some "text/css; charset=utf-8" else None.
(** [embedded]: whether the file is in the program. *)
Definition static (embedded : string -> bool) (method path : string) : Page :=
  if HasPrefix path "/api/" then PageStatus 404
  else if negb (String.eqb method "GET") && negb (String.eqb method "HEAD") then PageStatus 405
  else
    let name := TrimPrefix path "/" in
    let name := if String.eqb name "" then "index.html" else name in
    match static_type name with
    | None => PageStatus 404
    | Some ctype =>
        if embedded name then PageFile name ctype (String.eqb name "index.html") (String.eqb method "GET") else PageStatus 500
    end.
(** Only the four files are served, and no page without the policy. *)
Lemma static_files embedded method path name ctype policy body : static embedded method path = PageFile name ctype policy body ->
  name ∈ ["index.html"; "app.js"; "mock.js"; "app.css"] /\ HasPrefix path "/api/" = false /\ (method = "GET" \/ method = "HEAD") /\
  (ctype = "text/html; charset=utf-8" -> policy = true).
Proof.
  unfold static. destruct (HasPrefix path "/api/"); [done|]. destruct (negb _ && _) eqn:Em; [done|]. set (n := if String.eqb _ "" then _ else _).
  destruct (static_type n) as [t|] eqn:Et; [|done]. destruct (embedded n); [|done]. intros [= <- <- <- _].
  assert (Hm : method = "GET" \/ method = "HEAD").
  { destruct (String.eqb_spec method "GET"); [by left|]. destruct (String.eqb_spec method "HEAD"); [by right|done]. }
  clearbody n. assert (Hn : n ∈ ["index.html"; "app.js"; "mock.js"; "app.css"] /\ (t = "text/html; charset=utf-8" -> n = "index.html")).
  { unfold static_type in Et. destruct (String.eqb_spec n "index.html") as [->|_]; [by split; [left|]|].
    destruct (String.eqb_spec n "app.js") as [->|_]; [injection Et as <-; split; [by right; left|done]|].
    destruct (String.eqb_spec n "mock.js") as [->|_]; [injection Et as <-; split; [by do 2 right; left|done]|].
    destruct (String.eqb_spec n "app.css") as [->|_]; [injection Et as <-; split; [by do 3 right; left|done]|done]. }
  destruct Hn as [Hn1 Hn2]. split_and!; try done. intros Ht. apply String.eqb_eq. auto.
Qed.
(** The short host name in the name of a download. *)
Definition label_char (c : ascii) : bool :=
  let n := N_of_ascii c in
  ((97 <=? n) && (n <=? 122) || (65 <=? n) && (n <=? 90) || (48 <=? n) && (n <=? 57))%N || is_char c "-" || is_char c ".".
Definition hostLabel (h : option string) : string :=
  match h with
  | None => "host"
  | Some h => let l := List.filter label_char (chars h) in match l with [] => "host" | _ => of_chars l end
  end.
(** Nothing in a host name ends the quoted file name of the header. *)
Lemma hostLabel_plain h : Forall (fun c => label_char c = true) (chars (hostLabel h)) /\ hostLabel h <> "".
Proof.
  assert (H0 : Forall (fun c => label_char c = true) (chars "host") /\ "host" <> "") by (split; [by repeat (apply Forall_cons; split; [by vm_compute|])|done]).
  unfold hostLabel. destruct h as [h|]; [|done]. destruct (List.filter label_char (chars h)) as [|c l] eqn:E; [done|]. rewrite <- E. split.
  - rewrite chars_of_chars. apply List.Forall_forall. intros x Hx. apply List.filter_In in Hx as [_ Hx]. exact Hx.
  - intros H. apply (f_equal chars) in H. by rewrite chars_of_chars, E in H.
Qed.
