(* ===== verification/WebConfig.v ===== *)
(** The configuration over the network (src/internal/web/web.go: getConfig, putConfig,
    export and import of the settings bundle) on the daemon's file store
    (src/cmd/n5-fangov/wiring.go), and the preset endpoints (presets_api.go). *)
From stdpp Require Import base gmap strings list.
From Stdlib Require Import ZArith Lia Ascii.
From S2P Require Import Prelude GoLib GoTime GoNet GoPath ConfigTypes Scheduler Curve ConfigFields ConfigWeb ConfigChannels ConfigParse ConfigValid ConfigRules WebAccount Hwmon WebRedact ConfigFiles PresetStore Stores.
Open Scope Z_scope.

(** Warnings on the channel tables and the others.  A warning reads "<field>: <message>"; the
    message is not looked at. *)
Definition warning_line (w : Warning) : string := String.append (Field w) ": ".
Definition channel_line (line : string) : bool :=
  HasPrefix line "channel" &&
  match chars (TrimPrefix line "channel") with c :: _ => bool_decide (c ∈ chars ".[:") | [] => false end.
Definition splitChannelWarnings (warns : list Warning) : list Warning * list Warning :=
  (List.filter (fun w => channel_line (warning_line w)) warns, List.filter (fun w => negb (channel_line (warning_line w))) warns).
Definition strictQuery (q : string) : bool := contains ["1"; "true"; "yes"] (ToLower q).
(** An error of the store is one of the file system. *)
Definition isStoreError (e : EditErr) : bool := match e with ERead _ | EWrite _ => true | ELayout | ESyntax _ => false end.
Definition storeStatus (e : EditErr) : Z := if isStoreError e then 500 else 400.

Inductive PutAnswer := PutStatus (status : Z) | PutRejected (errors rest : list Warning) | PutDone (restart : bool) (warnings : list Warning).

Section Config.
Context {W : Type} {Fs : Files W} {Prim : Type} `{!Toml Prim} {U : Url}.
Variable (env : string) (Decode : string -> string + Doc Prim) (Marshal : Config -> string).
Variable (cfgPath : string) (p : tlsPin) (svc_Reload : string -> M W (option ReloadErr)).
Local Abbreviation Parse := (Parse env Decode).
Local Abbreviation Raw := (Raw Marshal cfgPath).

(** [getConfig]: the text without the hash, and the parsed values without it. *)
Definition redactParsed (cfg : Config) : Config :=
  if String.eqb (w_PasswordHash (c_Web cfg)) "" then cfg else cfg <| c_Web := (c_Web cfg) <| w_PasswordHash := RedactedHash |> |>.
Definition getConfig (w : W) : Z + string * (Err + Config * list Warning) :=
  match Raw w with
  | inl _ => inl 500
  | inr raw => inr (RedactRaw env Decode raw, match Parse raw with (_, _, Some e) => inl e | (cfg, ws, None) => inr (redactParsed cfg, ws) end)
  end.
Definition putConfig (strict : bool) (body : Body string) : M W PutAnswer := fun w =>
  match body with
  | Bad status => (PutStatus status, w)
  | Decoded sent =>
      if String.eqb (TrimSpace sent) "" then (PutStatus 400, w)
      else
        match (if Contains sent RedactedHash then match Raw w with inl _ => inl 500 | inr cur => restore_body env Decode cur sent end else inr sent) with
        | inl status => (PutStatus status, w)
        | inr text =>
            match Parse text with
            | (_, _, Some _) => (PutStatus 400, w)
            | (_, warns, None) =>
                let '(errors, rest) := splitChannelWarnings warns in
                if strict && negb (bool_decide (errors = [])) then (PutRejected errors rest, w)
                else
                  let '(e, w) := Save_config env Decode cfgPath p text w in
                  match e with
                  | Some e => (PutStatus (storeStatus e), w)
                  | None =>
                      let '(e, w) := svc_Reload text w in
                      (match e with None => PutDone false warns | Some RestartRequired => PutDone true warns | Some (ReloadFailed _) => PutStatus 500 end, w)
                  end
            end
        end
  end.

(** ** The settings bundle *)
(** A bundle is a JSON object; what matters of it is its "config" member, None when it has
    none or it is no string. *)
Definition redactBundle {B} (config : B -> option (option string)) (set : string -> B -> B) (doc : B) : option B :=
  match config doc with
  | None => Some doc
  | Some None => None
  | Some (Some cfg) => Some (set (RedactRaw env Decode cfg) doc)
  end.
Definition exportConfig {B} (config : B -> option (option string)) (set : string -> B -> B) (Export : option B) : Z + B :=
  match Export with None => inl 500 | Some doc => match redactBundle config set doc with None => inl 500 | Some out => inr out end end.
(** [Import] answers with an error and whether it is one of the store, or whether a restart
    is needed, and warnings. *)
Definition importConfig {S} (valid : string -> bool) (Import : string -> M S (bool + bool * list string)) (body : Body string) : M S (Z * list string) := fun s =>
  match body with
  | Bad status => ((status, []), s)
  | Decoded body =>
      if negb (HasPrefix (TrimSpace body) "{") || negb (valid body) then ((400, []), s)
      else let '(res, s) := Import body s in
      (match res with inl store => (if store : bool then 500 else 400, []) | inr (restart, warns) => (if restart : bool then 202 else 200, warns) end, s)
  end.

(** ** What a write over the network does *)
(** C24: A configuration sent to the daemon is written as sent, but for the manager's TLS
    keys, or not at all.  An answer below 500 that is no success has left the file and the
    daemon alone: an empty text, one that does not parse, one whose hash placeholder stands
    where it cannot be restored, and, for the dashboard's editor, one with a warning on a
    channel.  Success means: the text is the one sent, with the placeholder replaced by the
    hash of the file and the parser not seeing the placeholder as a hash; it parses, and with
    [strict] every warning is one outside the channels.  The file then holds this text; only
    where the certificate manager owns the configuration and the text names other TLS values
    than the manager's, it holds the text with the three keys tls, cert_file and key_file of
    [web] set to them, every other line and key unchanged ([pinned], [tls_set]).  The daemon
    is handed the text as it was sent, and its wish for a restart is passed on. *)
Theorem put_config strict body w : let '(a, w') := putConfig strict body w in
  match a with
  | PutStatus status => status < 500 -> w' = w
  | PutRejected errors _ => strict = true /\ errors <> [] /\ w' = w
  | PutDone restart warns => exists sent text cfg w1, body = Decoded sent /\ TrimSpace sent <> "" /\
      (if Contains sent RedactedHash
       then exists cur, Raw w = inr cur /\ text = RestoreHash sent (currentHash env Decode cur) /\ w_PasswordHash (c_Web cfg) <> RedactedHash
       else text = sent) /\
      Parse text = (cfg, warns, None) /\
      (strict = true -> Forall (fun x => channel_line (warning_line x) = false) warns) /\
      (exists out, Save env Decode cfgPath out w = (None, w1) /\ pinned p text cfg out) /\
      svc_Reload text w1 = (if restart then Some RestartRequired else None, w')
  end.
Proof.
  unfold putConfig. destruct body as [status|sent]; [done|]. destruct (String.eqb_spec (TrimSpace sent) "") as [?|Hblank]; [done|].
  assert (forall text, (if Contains sent RedactedHash then match Raw w with inl _ => inl 500 | inr cur => restore_body env Decode cur sent end else inr sent) = inr text ->
    if Contains sent RedactedHash then exists cur, Raw w = inr cur /\ text = RestoreHash sent (currentHash env Decode cur) /\ parsedHash env Decode text <> RedactedHash else text = sent) as Htext.
  { intros text. destruct (Contains sent RedactedHash) eqn:Ec; [|by intros [= <-]]. destruct (Raw w) as [e|cur]; [done|]. unfold restore_body. rewrite Ec.
    destruct (String.eqb_spec (parsedHash env Decode (RestoreHash sent (currentHash env Decode cur))) RedactedHash) as [?|Hne]; [done|]. intros [= <-]. by exists cur. }
  destruct (if Contains sent RedactedHash then _ else _) as [status|text]; [done|]. specialize (Htext text eq_refl).
  destruct (Parse text) as [[cfg warns] [e|]] eqn:Ep; [done|]. unfold splitChannelWarnings.
  destruct (strict && _) eqn:Es; [apply andb_true_iff in Es as [-> Es]; by case_bool_decide|].
  assert (strict = true -> Forall (fun x => channel_line (warning_line x) = false) warns) as Hstrict.
  { intros ->. cbn in Es. apply negb_false_iff, bool_decide_eq_true in Es. apply List.Forall_forall. intros x Hx. destruct (channel_line (warning_line x)) eqn:E; [|done].
    assert (In x (List.filter (fun w => channel_line (warning_line w)) warns)) as Hin by (by apply List.filter_In). by rewrite Es in Hin. }
  unfold Save_config. rewrite Ep. destruct (Save env Decode cfgPath _ w) as [[e|] w1] eqn:Esave; cbn [fmap option_fmap option_map]; [cbn; lia|].
  assert (forall restart w', svc_Reload text w1 = (if restart : bool then Some RestartRequired else None, w') -> exists sent' text' cfg' w1', Decoded sent = Decoded sent' /\ TrimSpace sent' <> "" /\
      (if Contains sent' RedactedHash then exists cur, Raw w = inr cur /\ text' = RestoreHash sent' (currentHash env Decode cur) /\ w_PasswordHash (c_Web cfg') <> RedactedHash else text' = sent') /\
      Parse text' = (cfg', warns, None) /\ (strict = true -> Forall (fun x => channel_line (warning_line x) = false) warns) /\
      (exists out, Save env Decode cfgPath out w = (None, w1') /\ pinned p text' cfg' out) /\ svc_Reload text' w1' = (if restart then Some RestartRequired else None, w')) as Hdone.
  { intros restart w' Hr. exists sent, text, cfg, w1. split_and!; try done; [unfold parsedHash in Htext; rewrite Ep in Htext; exact Htext|].
    eexists. split; [exact Esave|]. by eapply pinConfig_pinned. }
  destruct (svc_Reload text w1) as [[[|msg]|] w'] eqn:Er; [by apply (Hdone true)|lia|by apply (Hdone false)].
Qed.
End Config.

(** On a disk: a new text is written and handed on, but not from the editor when a value of a
    channel would be replaced by a default; one that does not parse and an empty one are not. *)
Module PutDemo.
Import PresetStore.Disk.
Definition put (strict : bool) (sent : string) (w : disk) : PutAnswer * disk :=
  putConfig "" Decode (fun _ => "") "/c" (mkPin false "off" "" "") svc_Reload strict (Decoded sent) w.
Definition one_text : string := String.append "one" newline.
Definition critical_warning : Warning := mkWarning "channel.cpu.critical" "missing, default %d used" [AInt 90].
Example put_written : let '(a, w) := put false one_text at_start in (a, files w !! "/c", reloads w) = (PutDone false [critical_warning], Some one_text, [one_text]).
Proof. vm_compute. reflexivity. Qed.
Example put_strict : put true one_text at_start = (PutRejected [critical_warning] [], at_start).
Proof. vm_compute. reflexivity. Qed.
Example put_refused : put true "[web" at_start = (PutStatus 400, at_start) /\ put true "  " at_start = (PutStatus 400, at_start).
Proof. split; vm_compute; reflexivity. Qed.
End PutDemo.
Example channel_line_ex : map channel_line ["channel.cpu.curve: "; "channel[0].pwm: "; "channel: "; "channels: "; "web.channel: "] = [true; true; true; false; false].
Proof. reflexivity. Qed.

(** ** The preset endpoints
    (src/internal/web/presets_api.go, web.go) on the daemon's preset
    store: list, detail, apply, save, rename, delete, and the channels composed in the
    dashboard's editor. *)

(** One channel of a body: the curve is a list of points of any length. *)
Record presetChannelIn := mkChannelIn {
  ci_Name : string; ci_PWM : Z; ci_Sensor : string; ci_Curve : list (list Z); ci_Critical : Z; ci_Stop : string; ci_Hysteresis : Z; ci_MinOn : string }.
Inductive ComposeErr :=
  | CNone | CPoint (channel j n : nat) | CMinOn (channel : nat) (text : string) | CParse (e : Err) | CWarn (w : Warning) | CDropped (usable total : nat) | CKeys (have want : list (string * Z)).
Definition point_of (pt : list Z) : option (Z * Z) := match pt with [t; d] => Some (t, d) | _ => None end.
(** One channel of the list, or what is wrong with it; a bad point does not end the channel. *)
Definition compose_one (i : nat) (c : presetChannelIn) : option Channel * list ComposeErr :=
  let points := omap (fun jp : nat * list Z => match point_of jp.2 with Some _ => None | None => Some (CPoint i jp.1 (length jp.2)) end) (imap pair (ci_Curve c)) in
  let ch := mkChannel (ci_Name c) (ci_PWM c) (ci_Sensor c) (omap point_of (ci_Curve c)) (ci_Critical c)
              (if String.eqb (ci_Stop c) "" then "auto" else ci_Stop c) (ci_Hysteresis c) 0 0 false in
  let t := TrimSpace (ci_MinOn c) in
  if String.eqb t "" then (Some ch, points)
  else match ParseDuration t with
  | Some d => if d <? 0 then (None, points ++ [CMinOn i (ci_MinOn c)]) else (Some (ch <| cc_MinOn := d |>), points)
  | None => (None, points ++ [CMinOn i (ci_MinOn c)])
  end.
Definition compose (l : list presetChannelIn) : list Channel * list ComposeErr :=
  let rs := imap compose_one l in (omap fst rs, concat (map snd rs)).
(** The identities of a channel list, sorted: the texts "<name>@pwm<n>" as pairs. *)
Definition key_text (k : string * Z) : string := String.append k.1 (String.append "@pwm" (Itoa k.2)).
Definition channelKeySet (chans : list Channel) : list string := sort_strings (map (fun c => key_text (cc_Name c, cc_PWM c)) chans).

Section Presets.
Context {W : Type} {Fs : Files W} {Prim : Type} `{!Toml Prim} {U : Url}.
Variable (env : string) (Decode : string -> string + Doc Prim) (Marshal : Config -> string) (EncodeChannels : list Channel -> string).
Variable (svc_Reload : string -> M W (option ReloadErr)) (st : dirPresetStore).
Local Abbreviation Parse := (Parse env Decode).
Local Abbreviation MarshalChannels := (ConfigFiles.MarshalChannels EncodeChannels).

(** ** Composed channels *)
Definition presetChannels (w : W) (l : list presetChannelIn) : list ComposeErr + list Channel :=
  match l with
  | [] => inl [CNone]
  | _ =>
      match compose l with
      | (chans, []) =>
          match ParseChannels env Decode (MarshalChannels chans) with
          | (_, _, Some e) => inl [CParse e]
          | (parsed, warns, None) =>
              let errs := map CWarn warns ++
                (if negb (length parsed =? length chans)%nat && bool_decide (warns = []) then [CDropped (length parsed) (length chans)] else []) in
              match errs with
              | [] =>
                  match Raw Marshal (ps_cfgPath st) w with
                  | inl _ => inr parsed
                  | inr raw =>
                      match Parse raw with
                      | (_, _, Some _) => inr parsed
                      | (cfg, _, None) =>
                          if negb (bool_decide (c_Channels cfg = [])) && negb (bool_decide (channelKeySet (c_Channels cfg) = channelKeySet parsed))
                          then inl [CKeys (map (fun c => (cc_Name c, cc_PWM c)) parsed) (map (fun c => (cc_Name c, cc_PWM c)) (c_Channels cfg))]
                          else inr parsed
                      end
                  end
              | _ => inl errs
              end
          end
      | (_, errs) => inl errs
      end
  end.

(** ** The endpoints *)
Definition presetName : string -> bool := presetRe.
Definition is_fs (e : PresetErr) : bool := match e with PFs _ => true | _ => false end.
Definition store_status (e : PresetErr) : Z := match e with PBuiltin => 409 | e => if is_fs e then 500 else 400 end.
Definition getPresets (w : W) : list PresetRow := List_presets env Decode st w.
Definition getPreset (name : string) (w : W) : Z + PresetDetail :=
  if negb (presetName name) then inl 400
  else match Detail env Decode st w name with
  | inr d => inr d
  | inl e => inl (if is_not_exist e then 404 else 500)
  end.
(** Whether the error of [Apply] is one of the file system. *)
Definition apply_is_fs (name : string) (w : W) : bool :=
  match load env Decode st w name with
  | inl e => is_fs e
  | inr (chans, _) => match (write env Decode Marshal MarshalChannels st chans w).1 with inl e => is_fs e | inr _ => false end
  end.
Definition applyPreset (name : string) : M W Z := fun w =>
  if negb (presetName name) then (400, w)
  else
    let store := apply_is_fs name w in
    let '(e, w) := Apply env Decode Marshal MarshalChannels svc_Reload st name w in
    (match e with
     | None => 200
     | Some e =>
         if ae_RestartRequired e then 202
         else if ae_NotExist e then 404
         else if ae_Reload e then 500
         else if store then 500 else 400
     end, w).
Definition deletePreset (name : string) : M W Z := fun w =>
  if negb (presetName name) then (400, w)
  else
    let '(e, w) := Delete st name w in
    (match e with None => 200 | Some PBuiltin => 409 | Some e => if is_not_exist e then 404 else 500 end, w).
Definition renamePreset (old : string) (body : Body string) : M W Z := fun w =>
  match body with
  | Bad status => (status, w)
  | Decoded new =>
      if negb (presetName old) || negb (presetName new) then (400, w)
      else if String.eqb old new then (200, w)
      else
        let '(e, w) := Rename st old new w in
        (match e with None => 200 | Some PBuiltin | Some (PFs FsExist) => 409 | Some e => if is_not_exist e then 404 else 500 end, w)
  end.
(** [SaveCurrent]: an empty body. *)
Inductive SaveBody := SaveCurrent | SaveComposed (l : list presetChannelIn).
Inductive SaveAnswer := SaveStatus (status : Z) | SaveRejected (errs : list ComposeErr).
Definition savePreset (name : string) (body : Body SaveBody) : M W SaveAnswer := fun w =>
  if negb (presetName name) then (SaveStatus 400, w)
  else
    let finish r := let '(e, w) := r : option PresetErr * W in (SaveStatus (match e with None => 200 | Some e => store_status e end), w) in
    match body with
    | Bad status => (SaveStatus status, w)
    | Decoded SaveCurrent => finish (Save_preset env Decode MarshalChannels st name w)
    | Decoded (SaveComposed l) =>
        match presetChannels w l with
        | inl errs => (SaveRejected errs, w)
        | inr chans => finish (SaveChannels MarshalChannels st name chans w)
        end
    end.

(** ** What is saved *)
(** The channel that is sent to the parser has the values of the body. *)
Definition min_on_of (c : presetChannelIn) (d : Z) : Prop :=
  let t := TrimSpace (ci_MinOn c) in if String.eqb t "" then d = 0 else ParseDuration t = Some d /\ 0 <= d.
Definition sent_as (c : presetChannelIn) (ch : Channel) : Prop :=
  cc_Name ch = ci_Name c /\ cc_PWM ch = ci_PWM c /\ cc_Sensor ch = ci_Sensor c /\ as_points (cc_Curve ch) = ci_Curve c /\ cc_Critical ch = ci_Critical c /\
  cc_Stop ch = (if String.eqb (ci_Stop c) "" then "auto" else ci_Stop c) /\ cc_Hysteresis ch = ci_Hysteresis c /\ min_on_of c (cc_MinOn ch) /\ cc_Ceiling ch = 0.
Lemma points_all (l : list (list Z)) i : forall k, omap (fun jp : nat * list Z => match point_of jp.2 with Some _ => None | None => Some (CPoint i jp.1 (length jp.2)) end)
    (imap (fun j p => ((k + j)%nat, p)) l) = [] -> as_points (omap point_of l) = l.
Proof.
  induction l as [|pt l IH]; intros k H; [done|]. cbn in H. destruct (point_of pt) as [[t d]|] eqn:E; [|done].
  assert (pt = [t; d]) as -> by (destruct pt as [|? [|? [|]]]; try done; by injection E as <- <-).
  cbn. f_equal. apply (IH (S k)). rewrite <- H. f_equal. apply imap_ext. intros j p _. cbn. f_equal. lia.
Qed.
Lemma compose_one_ok i c : (compose_one i c).2 = [] -> exists ch, (compose_one i c).1 = Some ch /\ sent_as c ch.
Proof.
  unfold compose_one. assert (Hp : omap (fun jp : nat * list Z => match point_of jp.2 with Some _ => None | None => Some (CPoint i jp.1 (length jp.2)) end)
    (imap pair (ci_Curve c)) = [] -> as_points (omap point_of (ci_Curve c)) = ci_Curve c) by apply (points_all _ _ 0%nat).
  assert (Hs : forall d, min_on_of c d -> omap (fun jp : nat * list Z => match point_of jp.2 with Some _ => None | None => Some (CPoint i jp.1 (length jp.2)) end)
    (imap pair (ci_Curve c)) = [] -> sent_as c (mkChannel (ci_Name c) (ci_PWM c) (ci_Sensor c) (omap point_of (ci_Curve c)) (ci_Critical c)
      (if String.eqb (ci_Stop c) "" then "auto" else ci_Stop c) (ci_Hysteresis c) d 0 false)).
  { intros d Hd Hn. apply Hp in Hn. by split_and!. }
  unfold min_on_of in Hs. cbv zeta in Hs |- *. destruct (String.eqb (TrimSpace (ci_MinOn c)) ""); [cbn; intros H; eexists; split; [done|by apply Hs]|].
  destruct (ParseDuration _) as [d|]; [destruct (Z.ltb_spec d 0)|]; cbn.
  1, 3: intros H'; apply app_eq_nil in H'; by destruct H'.
  intros H'. eexists. split; [done|]. by apply (Hs d).
Qed.
Lemma compose_sent l chans : compose l = (chans, []) -> Forall2 sent_as l chans.
Proof.
  unfold compose. intros [= <- H]. revert H. generalize compose_one_ok. generalize compose_one. intros f Hf. revert f Hf.
  induction l as [|c l IH]; intros f Hf H; [constructor|]. rewrite imap_cons in *. cbn in *. apply app_eq_nil in H as [H1 H2].
  destruct (Hf 0%nat c H1) as (ch & -> & Hc). cbn. constructor; [done|]. apply IH; [|done]. intros i c'. apply Hf.
Qed.
Lemma compose_length l chans : compose l = (chans, []) -> length chans = length l.
Proof. intros H%compose_sent. symmetry. by eapply Forall2_length. Qed.
Lemma presetChannels_spec w l : match presetChannels w l with
  | inl errs => errs <> []
  | inr chans => l <> [] /\ exists sent, compose l = (sent, []) /\ ParseChannels env Decode (MarshalChannels sent) = (chans, [], None) /\ length chans = length l /\
      (forall raw cfg ws, Raw Marshal (ps_cfgPath st) w = inr raw -> Parse raw = (cfg, ws, None) -> c_Channels cfg <> [] -> channelKeySet (c_Channels cfg) = channelKeySet chans)
  end.
Proof.
  unfold presetChannels. destruct l as [|c l]; [done|]. destruct (compose (c :: l)) as [sent [|e errs]] eqn:Ec; [|done].
  pose proof (compose_length _ _ Ec) as Hlen. destruct (ParseChannels _ _ _) as [[parsed warns] [e|]] eqn:Ep; [done|].
  destruct warns as [|w0 warns]; [|done]. cbn [map app]. rewrite (bool_decide_true ([] = [])) by done. rewrite andb_true_r.
  destruct (Nat.eqb_spec (length parsed) (length sent)) as [El|El]; cbn [negb]; [|done].
  assert (forall keys, (forall raw cfg ws, Raw Marshal (ps_cfgPath st) w = inr raw -> Parse raw = (cfg, ws, None) -> c_Channels cfg <> [] -> keys cfg parsed) ->
    c :: l <> [] /\ exists sent0, (sent, @nil ComposeErr) = (sent0, []) /\ ParseChannels env Decode (MarshalChannels sent0) = (parsed, [], None) /\ length parsed = length (c :: l) /\
      (forall raw cfg ws, Raw Marshal (ps_cfgPath st) w = inr raw -> Parse raw = (cfg, ws, None) -> c_Channels cfg <> [] -> keys cfg parsed)) as Hend.
  { intros keys Hk. split; [done|]. exists sent. split_and!; [done|done|congruence|exact Hk]. }
  destruct (Raw Marshal (ps_cfgPath st) w) as [e|raw] eqn:Er; [by apply (Hend (fun cfg parsed => channelKeySet (c_Channels cfg) = channelKeySet parsed))|].
  destruct (Parse raw) as [[cfg ws] [e|]] eqn:Eq; [apply (Hend (fun cfg parsed => channelKeySet (c_Channels cfg) = channelKeySet parsed)); intros raw' cfg' ws' [= <-]; by rewrite Eq|].
  destruct (negb (bool_decide (c_Channels cfg = [])) && _) eqn:Ek; [done|].
  apply (Hend (fun cfg parsed => channelKeySet (c_Channels cfg) = channelKeySet parsed)). intros raw' cfg' ws' [= <-]. rewrite Eq. intros [= <- <-] Hne.
  rewrite bool_decide_false in Ek by done. cbn in Ek. by apply negb_false_iff, bool_decide_eq_true in Ek.
Qed.
Lemma ParseChannels_ok raw chans ws : ParseChannels env Decode raw = (chans, ws, None) -> channels_ok chans.
Proof.
  unfold ParseChannels. pose proof (Parse_valid env Decode raw) as (_ & _ & _ & _ & _ & H & _). destruct (Parse raw) as [[cfg ws'] [e|]]; [done|]. by intros [= <- _].
Qed.

(** What is encoded decodes to a document that holds the channels. *)
Context `{!Encoder Decode doc_channels EncodeChannels}.
Lemma encoded_channels chans cs ws : ParseChannels env Decode (MarshalChannels chans) = (cs, ws, None) -> exists d cfg,
  doc_channels d chans /\ parse_doc env d [] = (cfg, ws) /\ cs = c_Channels cfg.
Proof.
  unfold ParseChannels, ConfigParse.Parse. destruct (Decode _) as [msg|d] eqn:Ed; [done|]. destruct (parse_doc env d []) as [cfg ws'] eqn:E. intros [= <- <-].
  exists d, cfg. split_and!; [|done..]. exact (encoded_decode Decode doc_channels EncodeChannels chans [] d (Forall_nil_2 _) Ed).
Qed.
(** A channel as it is saved: every value is the one of the body; the sensor in the form of
    the parser, a fixed stop as a number. *)
Definition saved_as (c : presetChannelIn) (ch : Channel) : Prop :=
  cc_Name ch = ci_Name c /\ cc_PWM ch = ci_PWM c /\ JoinSensors (Split (ci_Sensor c) ","%char) = inr (cc_Sensor ch) /\ as_points (cc_Curve ch) = ci_Curve c /\
  cc_Critical ch = ci_Critical c /\ stop_read_as (if String.eqb (ci_Stop c) "" then "auto" else ci_Stop c) (cc_Stop ch) /\
  cc_Hysteresis ch = ci_Hysteresis c /\ min_on_of c (cc_MinOn ch) /\ cc_Ceiling ch = 0.
Lemma sent_saved l sent chans : l <> [] -> compose l = (sent, []) -> ParseChannels env Decode (MarshalChannels sent) = (chans, [], None) ->
  Forall2 saved_as l chans /\ forall cs ws, ParseChannels env Decode (MarshalChannels chans) = (cs, ws, None) -> cs = chans.
Proof.
  intros Hl Hc Hp. pose proof (ParseChannels_ok _ _ _ Hp) as Hok. apply compose_sent in Hc. apply encoded_channels in Hp as (d & cfg & Hd & Hp & ->).
  assert (Hr : Forall2 read_as sent (c_Channels cfg)) by (eapply doc_channels_read; [by destruct Hc|done..]). split.
  - clear -Hc Hr. revert Hr. generalize (c_Channels cfg) as chans. induction Hc as [|c s l sent Hc _ IH]; intros chans Hr; inversion Hr as [|? ch ? chans' Hr1 Hr2]; subst; [constructor|].
    constructor; [|by apply IH]. destruct Hc as (C1 & C2 & C3 & C4 & C5 & C6 & C7 & C8 & C9), Hr1 as (R1 & R2 & R3 & R4 & R5 & R6 & R7 & R8 & R9 & _).
    unfold saved_as. rewrite R1, R2, R4, R5, R7, R8, R9, <- C3, <- C6. by split_and!.
  - intros cs ws Hq. apply encoded_channels in Hq as (d' & cfg' & Hd' & Hq & ->). eapply written_again; [done| |by destruct Hc; inversion Hr|done..].
    clear -Hr. induction Hr as [|s ch sent chans (_ & _ & _ & _ & _ & _ & Hh & Hm & _ & Hps) _ IH]; constructor; [by rewrite Hps, Hh, Hm|done].
Qed.

(** C25: Channels composed in the dashboard are saved as a whole or not at all, with the
    values that were sent.  Success means: the name is a preset name and no built-in one's;
    each saved channel is the one sent at its place - same name, pwm, critical, hysteresis and
    min_on, every point of the curve in order, the sensors it named, the stop it named (an
    empty one is auto) and no ceiling; the channels are valid with distinct names and pwms,
    and, where a configuration is running, on exactly its names and pwms, so that applying
    the preset cannot swap curves between fans; and the preset's file holds these channels
    encoded, so that reading the file gives exactly them.  A refusal names at least one
    error, and like every status below 500 it changed nothing. *)
Theorem preset_composed name l w : let '(a, w') := savePreset name (Decoded (SaveComposed l)) w in
  match a with
  | SaveRejected errs => errs <> [] /\ w' = w
  | SaveStatus status => status = 200 /\ presetName name = true /\ isBuiltinPreset st name = false /\ l <> [] /\
      (exists chans, Forall2 saved_as l chans /\ channels_ok chans /\
        (forall raw cfg ws, Raw Marshal (ps_cfgPath st) w = inr raw -> Parse raw = (cfg, ws, None) -> c_Channels cfg <> [] -> channelKeySet (c_Channels cfg) = channelKeySet chans) /\
        fs_Write (preset_path (ps_dir st) name) (MarshalChannels chans) 420 w = (None, w') /\
        forall cs ws, ParseChannels env Decode (MarshalChannels chans) = (cs, ws, None) -> cs = chans) \/
      400 <= status < 500 /\ w' = w \/ status = 500
  end.
Proof.
  unfold savePreset, presetName. destruct (presetRe name) eqn:En; cbn [negb]; [|right; left; split; [lia|done]].
  pose proof (presetChannels_spec w l) as Hp. destruct (presetChannels w l) as [errs|chans]; [by split|].
  destruct Hp as (Hl & sent & Hc & Hpc & Hlen & Hk). unfold SaveChannels, ret. destruct (isBuiltinPreset st name) eqn:Eb; [right; left; split; [cbn; lia|done]|].
  destruct (sent_saved _ _ _ Hl Hc Hpc) as [Hs Ha].
  destruct chans as [|c0 chans]; [by destruct l|]. rewrite bool_decide_false by done. unfold SavePreset.
  assert (ValidPresetName name = true) as -> by done. cbn [negb]. unfold fs_result, bind, ret.
  destruct (fs_Write _ _ 420 w) as [[e|] w'] eqn:Ew; cbn [fmap option_fmap option_map store_status is_fs]; [by right; right|left].
  split_and!; try done. exists (c0 :: chans). split_and!; try done; by eapply ParseChannels_ok.
Qed.
End Presets.

(** A composed channel is saved on a disk without a configuration; a curve point with three
    values, an empty list and the name of a built-in preset are refused. *)
Module ComposeDemo.
Import PresetStore.Disk DemoEncoder.
Definition hdd : presetChannelIn := mkChannelIn "hdd" 3 " drivetemp:max,disk:sda" [[30; 87]; [55; 255]] 60 "140" 2 " 30s ".
Definition bad : presetChannelIn := mkChannelIn "hdd" 3 "drivetemp:max" [[30; 87]; [55; 255; 1]; []] 60 "" 0 "-1s".
Definition save (name : string) (l : list presetChannelIn) : SaveAnswer * disk :=
  savePreset "" DecodeChannels (fun _ => "") EncodeChannels store name (Decoded (SaveComposed l)) at_start.
(** What is read from the preset's file. *)
Definition saved (w : disk) : option (list Channel) := (fun raw => (ParseChannels "" DecodeChannels raw).1.1) <$> files w !! "/p/quiet-2.toml".
Example compose_saved : let '(a, w) := save "quiet-2" [hdd] in
  (a, saved w) = (SaveStatus 200, Some [mkChannel "hdd" 3 "drivetemp:max,disk:sda" [(30, 87); (55, 255)] 60 "140" 2 (30 * Second) 0 true]).
Proof. vm_compute. reflexivity. Qed.
Example compose_refused : (save "mine" [bad]).1 = SaveRejected [CPoint 0 1 3; CPoint 0 2 0; CMinOn 0 "-1s"] /\ (save "mine" []).1 = SaveRejected [CNone] /\
  (save "quiet" [hdd]).1 = SaveStatus 409 /\ (save "../x" [hdd]).1 = SaveStatus 400 /\ exists warns, (save "mine" [hdd; hdd]).1 = SaveRejected warns.
Proof. split_and!; [vm_compute; reflexivity..|]. eexists. vm_compute. reflexivity. Qed.
End ComposeDemo.
Import PresetStore.Disk DemoEncoder.
Theorem preset_composed_witness :
  let r := savePreset "" DecodeChannels (fun _ => "") EncodeChannels store "quiet-2" (Decoded (SaveComposed [ComposeDemo.hdd])) at_start in
  r.1 = SaveStatus 200 /\ exists chans, Forall2 saved_as [ComposeDemo.hdd] chans /\ channels_ok chans.
Proof.
  cbv zeta. pose proof (preset_composed "" DecodeChannels (fun _ => "") EncodeChannels store "quiet-2" [ComposeDemo.hdd] at_start) as H.
  assert (Hs : (savePreset "" DecodeChannels (fun _ => "") EncodeChannels store "quiet-2" (Decoded (SaveComposed [ComposeDemo.hdd])) at_start).1 = SaveStatus 200)
    by (vm_compute; reflexivity).
  revert H Hs. generalize (savePreset "" DecodeChannels (fun _ => "") EncodeChannels store "quiet-2" (Decoded (SaveComposed [ComposeDemo.hdd])) at_start) as r.
  intros [a w'] H Hs. cbn [fst] in Hs |- *. subst a. split; [done|]. destruct H as [H|[[H _]|H]]; [|lia|done].
  destruct H as (_ & _ & _ & _ & chans & H1 & H2 & _). by exists chans.
Defined.
