(* ===== verification/Setup.v ===== *)
(** Setting the program up (src/cmd/n5-fangov/setup.go): the dialogue on the terminal
    (prompt.go), the configuration that is written over an existing one (renderConfigKeep of
    wiring.go), and the change of the password.

    The terminal is the text still to be read from it; prompts and messages are left out,
    an end of the command is its exit code or, where a text is shown, that text. *)
From stdpp Require Import base gmap strings list sorting.
From Stdlib Require Import ZArith Lia Ascii.
From S2P Require Import Prelude GoLib GoNet GoPath ConfigTypes ConfigFields ConfigWeb ConfigParse ConfigValid ConfigRules ConfigEdit WebPassword WebAccount Sanitize ControlTypes Hwmon HwStatus Sensor Profile WebRedact ConfigFiles PresetStore Stores TlsCert.
Open Scope Z_scope.

(** ** The terminal *)
Definition Tty : Type := list ascii.
(** [ReadString('\n')]: up to and with the first newline, else everything; and the rest. *)
Fixpoint ReadString_nl (l : Tty) : list ascii * Tty :=
  match l with
  | [] => ([], [])
  | c :: l' => if Ascii.eqb c nl then ([c], l') else let '(a, b) := ReadString_nl l' in (c :: a, b)
  end.
(** [strings.TrimRight(s, cutset)] *)
Fixpoint drop_front (cut : ascii -> bool) (l : list ascii) : list ascii :=
  match l with c :: l' => if cut c then drop_front cut l' else l | [] => [] end.
Definition TrimRight (cut : ascii -> bool) (l : list ascii) : string := of_chars (rev (drop_front cut (rev l))).
Definition is_cr (c : ascii) : bool := is_char c "013".
Definition line_end (c : ascii) : bool := is_cr c || Ascii.eqb c nl.
Definition readLine : M Tty (option string) := fun tty =>
  let '(s, rest) := ReadString_nl tty in
  (match s with [] => None | _ => Some (TrimRight line_end s) end, rest).
Definition ask (def : string) : M Tty (option string) :=
  let* s := readLine in
  ret (match s with
       | None => None
       | Some s => let s := TrimSpace s in if String.eqb s "" then Some def else Some s
       end).

(** A loop whose body answers ([Some]), or goes round again. *)
Fixpoint retry {A} (fuel : nat) (body : M Tty (option A)) (none : A) : M Tty A :=
  match fuel with
  | O => ret none
  | S fuel' =>
      let* r := body in
      match r with Some a => ret a | None => retry fuel' body none end
  end.
(** Each round reads at least a byte. *)
Definition rounds {A} (body : M Tty (option A)) (none : A) : M Tty A := fun tty => retry (S (length tty)) body none tty.
Definition choice_round (choices : list string) (def : string) : M Tty (option (option string)) :=
  let* s := ask def in
  ret (match s with
       | None => Some None
       | Some s => Some <$> find (fun c => EqualFold s c) choices
       end).
Definition askChoice (choices : list string) (def : string) : M Tty (option string) := rounds (choice_round choices def) None.
Definition yes_no (s : string) (def : bool) : option bool :=
  let s := ToLower (TrimSpace s) in
  if String.eqb s "" then Some def
  else if existsb (String.eqb s) ["y"; "yes"] then Some true
  else if existsb (String.eqb s) ["n"; "no"] then Some false else None.
Definition yes_no_round (def : bool) : M Tty (option (option bool)) :=
  let* s := readLine in
  ret (match s with None => Some None | Some s => Some <$> yes_no s def end).
Definition askYesNo (def : bool) : M Tty (option bool) := rounds (yes_no_round def) None.
(** The password is read without an echo where there is a terminal. *)
Definition askPassword : M Tty (option string) := readLine.
Fixpoint password_attempts (n : nat) : M Tty (option string) :=
  match n with
  | O => ret None
  | S n' =>
      let* a := askPassword in
      match a with
      | None => ret None
      | Some a =>
          if String.eqb a "" then password_attempts n'
          else
            let* b := askPassword in
            match b with
            | None => ret None
            | Some b => if String.eqb a b then ret (Some a) else password_attempts n'
            end
      end
  end.
Definition askPasswordTwice : M Tty (option string) := password_attempts 3.

(** ** Rules shared with the account endpoints *)
Definition validPassword (pw : string) : bool := let n := RuneCount pw in negb ((n <? MinPasswordLen) || (MaxPasswordLen <? n)).
Definition validUserName (u : string) : bool := UserRe u.
Definition firstLine (s : string) : string := match Cut s nl with Some (a, _) => a | None => s end.

(** ** Rendering a configuration *)
(** [chanSpec] and [webSpec] are a channel, without the mark of an explicit post-processing
    key, and the section [Web]. *)
Definition spec_of (c : Channel) : Channel := c <| cc_PostSet := false |>.
Definition channelSpecs (l : list Channel) : list Channel := map spec_of l.
Definition n5proSpecs : list Channel := channelSpecs N5ProChannels.
Definition sanitizeChannelSpecs (profileName : string) (chans : list Channel) : list Channel * list SanNote :=
  let '(fixed, notes) := SanitizeChannels profileName (channelSpecs chans) in (channelSpecs fixed, notes).
Definition new_config (profileName : string) (chans : list Channel) (w : Web) : Config :=
  Default <| c_Daemon := DefaultDaemon <| d_Profile := profileName |> |> <| c_Channels := channelSpecs chans |> <| c_Web := w |>.

(** The keys of two values of a section, and whether they differ. *)
Definition Fields_of : Type := list (string * bool).
Definition diffKeys (fields : Fields_of) (skip : list string) : list string :=
  map fst (List.filter (fun f : string * bool => f.2 && negb (existsb (String.eqb f.1) skip)) fields).
Definition ne_Z (a b : Z) : bool := negb (a =? b).
Definition ne_s (a b : string) : bool := negb (String.eqb a b).
Definition diff_daemon (a b : ConfigTypes.Daemon) : Fields_of := [
  ("interval", ne_Z (d_Interval a) (d_Interval b)); ("step_up", ne_Z (d_StepUp a) (d_StepUp b)); ("step_down", ne_Z (d_StepDown a) (d_StepDown b));
  ("stall_min_duty", ne_Z (d_StallMinDuty a) (d_StallMinDuty b)); ("stall_cycles", ne_Z (d_StallCycles a) (d_StallCycles b));
  ("stale_cycles", ne_Z (d_StaleCycles a) (d_StaleCycles b)); ("alert_cooldown", ne_Z (d_AlertCooldown a) (d_AlertCooldown b));
  ("log_every", ne_Z (d_LogEvery a) (d_LogEvery b)); ("emergency", xorb (d_Emergency a) (d_Emergency b));
  ("emergency_cycles", ne_Z (d_EmergencyCycles a) (d_EmergencyCycles b)); ("profile", ne_s (d_Profile a) (d_Profile b))].
Definition diff_log (a b : Log) : Fields_of :=
  [("file", ne_s (l_File a) (l_File b)); ("max_size_mb", ne_Z (l_MaxSizeMB a) (l_MaxSizeMB b)); ("max_files", ne_Z (l_MaxFiles a) (l_MaxFiles b))].
Definition diff_alert (a b : ConfigTypes.Alert) : Fields_of := [
  ("transport", ne_s (a_Transport a) (a_Transport b)); ("mail_to", ne_s (a_MailTo a) (a_MailTo b));
  ("webhook_url", ne_s (a_WebhookURL a) (a_WebhookURL b)); ("webhook_format", ne_s (a_WebhookFormat a) (a_WebhookFormat b))].
Definition diff_dashboard (a b : list string) : Fields_of := [("sensors", negb (bool_decide (a = b)))].
(** [config.Web{}] against the two keys that are carried over. *)
Definition diff_web (w : Web) : Fields_of := [("allowed_hosts", negb (bool_decide (w_AllowedHosts w = []))); ("behind_tls_proxy", w_BehindTLSProxy w)].

(** A line "kept: ...". *)
Inductive KeptLine :=
  | KeptKeys (section : string) (keys : list string) | KeptSchedules (n : nat) | KeptTLSFile
  | KeptParts (channel : string) (hysteresis minOn ceiling : option Z) | KeptChannel (name : string) (pwm : Z).
Record keepResult := mkKeep { kr_Kept : list KeptLine; kr_Dropped : list string; kr_TLS : string }.
Definition kept_keys (section : string) (keys : list string) : list KeptLine := match keys with [] => [] | _ => [KeptKeys section keys] end.
Definition nonzero (z : Z) : option Z := if z =? 0 then None else Some z.
(** One channel of the set with what the old file has for it. *)
Definition keep_channel (old : Config) (c : Channel) : Channel * list KeptLine :=
  let ch := spec_of c in
  match Config_Channel old (cc_Name c) with
  | Some o =>
      if cc_PWM o =? cc_PWM c then
        let h := nonzero (cc_Hysteresis o) in
        let m := nonzero (cc_MinOn o) in
        let k := if String.eqb (cc_Sensor o) (cc_Sensor c) then nonzero (cc_Ceiling o) else None in
        (ch <| cc_Hysteresis := default (cc_Hysteresis ch) h |> <| cc_MinOn := default (cc_MinOn ch) m |> <| cc_Ceiling := default (cc_Ceiling ch) k |>,
         match h, m, k with None, None, None => [] | _, _, _ => [KeptParts (cc_Name c) h m k] end)
      else (ch, [])
  | None => (ch, [])
  end.
(** The old channels on other pwms, under names that are free. *)
Fixpoint keep_others (used : list Z) (l out : list Channel) : list Channel * list KeptLine :=
  match l with
  | [] => (out, [])
  | o :: l' =>
      if negb (existsb (Z.eqb (cc_PWM o)) used) && bool_decide (Config_Channel (Default <| c_Channels := out |>) (cc_Name o) = None)
      then let '(out, kept) := keep_others used l' (out ++ [o]) in (out, KeptChannel (cc_Name o) (cc_PWM o) :: kept)
      else keep_others used l' out
  end.
Definition keep_web (old w : Web) : Web :=
  old <| w_Listen := w_Listen w |> <| w_Auth := w_Auth w |> <| w_User := w_User w |> <| w_PasswordHash := w_PasswordHash w |>
      <| w_TLS := if String.eqb (w_TLS old) "file" && negb (IsLoopbackListen (w_Listen w)) then "file" else w_TLS w |>.
Definition same_profile (old : Config) (profileName : string) : bool :=
  String.eqb (d_Profile (c_Daemon old)) profileName || String.eqb (d_Profile (c_Daemon old)) "auto".
Definition keep_channels (old : Config) (profileName : string) (chans : list Channel) : list Channel * list KeptLine :=
  let set := map (keep_channel old) chans in
  let '(all, others) := if same_profile old profileName then keep_others (map cc_PWM chans) (c_Channels old) (map fst set) else (map fst set, []) in
  (all, concat (map snd set) ++ others).
Definition keep_config (old : Config) (profileName : string) (chans : list Channel) (w : Web) : Config :=
  old <| c_Daemon := (c_Daemon old) <| d_Profile := profileName |> |> <| c_Web := keep_web (c_Web old) w |>
      <| c_Channels := (keep_channels old profileName chans).1 |>.
Definition kept_lines (old : Config) (profileName : string) (chans : list Channel) (w : Web) : list KeptLine :=
  kept_keys "daemon" (diffKeys (diff_daemon DefaultDaemon (c_Daemon old)) ["profile"]) ++
  kept_keys "log" (diffKeys (diff_log DefaultLog (c_Log old)) []) ++
  kept_keys "alert" (diffKeys (diff_alert DefaultAlert (c_Alert old)) []) ++
  kept_keys "dashboard" (diffKeys (diff_dashboard [] (c_Sensors old)) []) ++
  (match c_Schedules old with [] => [] | l => [KeptSchedules (length l)] end) ++
  (if String.eqb (w_TLS (c_Web old)) "file" && negb (IsLoopbackListen (w_Listen w)) then [KeptTLSFile] else []) ++
  kept_keys "web" (diffKeys (diff_web (c_Web old)) []) ++
  (keep_channels old profileName chans).2.
Definition dropped_fields (warns : list Warning) : list string :=
  fold_left (fun out w => if existsb (String.eqb (Field w)) out then out else out ++ [Field w]) warns [].

(** ** The channel set of a device *)
Definition setupPort : string := "8010".
Definition setupAdmin : string := "admin".
Definition setupBakStem : string := ".bak-".
Definition genericCurve : Curve := [(40, 100); (70, 255)].
Definition genericCritical : Z := 85.
(** A network interface; of an address that is not an [IPNet] nothing is used. *)
Record Iface := mkIface { if_Index : Z; if_Up : bool; if_Loopback : bool; if_Addrs : option (list (option (list Z))) }.
Definition To4 (ip : list Z) : option (list Z) :=
  if (length ip =? 4)%nat then Some ip
  else if (length ip =? 16)%nat && bool_decide (take 12 ip = v4_mapped) then Some (drop 12 ip) else None.
(** [IsGlobalUnicast] of four bytes. *)
Definition global_unicast (ip : list Z) : bool :=
  match ip with
  | [a; b; c; d] => negb (bool_decide (ip = [255; 255; 255; 255]) || bool_decide (ip = [0; 0; 0; 0]) || (a =? 127) || (Z.land a 240 =? 224) || ((a =? 169) && (b =? 254)))
  | _ => false
  end.
Definition iface_ip (it : Iface) : list string :=
  if negb (if_Up it) || if_Loopback it then []
  else match if_Addrs it with
  | None => []
  | Some addrs => omap (fun a => match a with
      | Some ip => match To4 ip with Some ip => if global_unicast ip then Some (Join (map Itoa ip) ".") else None | None => None end
      | None => None end) addrs
  end.
(** [net.Interfaces] answers with an error, or in any order; an index occurs once. *)
Definition primaryLANIP (ifs : option (list Iface)) : string :=
  match ifs with
  | None => ""
  | Some l => match concat (map iface_ip (sort_numbered (map (fun it => (if_Index it, it)) l))) with ip :: _ => ip | [] => "" end
  end.
Definition JoinHostPort (host port : string) : string :=
  if Contains host ":" then String.append "[" (String.append host (String.append "]:" port)) else String.append host (String.append ":" port).

Section Hardware.
Context {W : Type} {O : Os W} {T : TimedRead W}.
(** The root of sysfs and the title of the profile. *)
Variable (root title : string).
Definition sensor_dev (d : Profile.Device) : Sensor.Dev :=
  Sensor.mkDev title (match d with PwmDevice d => pd_extra d | MonitorDevice _ => ∅ end).
Definition sensor_resolves (d : Profile.Device) (w : W) (id : string) : bool := match Sensor.Parse root id (Some (sensor_dev d)) w with inr _ => true | inl _ => false end.
Definition pickSetupSensor (d : Profile.Device) (w : W) : string :=
  match find (sensor_resolves d w) ["k10temp"; "coretemp"] with
  | Some id => id
  | None =>
      match List_devices root w with
      | inl _ => "k10temp"
      | inr devs =>
          match find (fun h => Exists root (String.append (hd_Path h) "/temp1_input") w) devs with
          | Some h => String.append "hwmon:" (String.append (hd_Name h) ":temp1")
          | None => "k10temp"
          end
      end
  end.
Definition generic_channel (sensor : string) (c : PChannel) : Channel :=
  mkChannel (String.append "fan" (Itoa (pc_Index c))) (pc_Index c) sensor genericCurve genericCritical "auto" 0 0 0 false.
Definition setupChannels (d : Profile.Device) (w : W) : list Channel :=
  if String.eqb (dev_profile d) "n5pro" then n5proSpecs
  else match d with
  | MonitorDevice _ => []
  | PwmDevice p => map (generic_channel (pickSetupSensor d w)) (pd_chans p)
  end.
End Hardware.

(** ** The commands *)
Record SetupArgs := mkArgs {
  sa_config : string; sa_listen : string; sa_user : string; sa_password : string; sa_passwordFile : string;
  sa_yes : bool; sa_fresh : bool; sa_profile : string }.
(** How a command ends; a generated text that does not validate is shown without the hash. *)
Inductive End := EndUsage | EndFail | EndInvalid (shown : string) | EndDone (kept : option keepResult).
Definition exit_of (e : End) : Z := match e with EndUsage => 2 | EndFail | EndInvalid _ => 1 | EndDone _ => 0 end.

Section Commands.
Context {W : Type} {Fs : Files W} {O : Os W} {T : TimedRead W} {Cr : Crypto} {Prim : Type} `{!Toml Prim} {U : Url}.
(** The log directory's variable, [toml.Decode], [toml.Encode]; [os.WriteFile]; the table of
    boards, the root of sysfs and the title of the profile. *)
Variable (env : string) (Decode : string -> string + Doc Prim) (Encode : Config -> string).
Variable (os_WriteFile : string -> string -> Z -> M W (option FsErr)).
Variable (tbl : list Entry) (root title : string).
Local Abbreviation Marshal := (ConfigFiles.Marshal Encode).
(** The time as the header and as the name of the backup write it, the salt that is drawn,
    the interfaces, standard input. *)
Variable (stamp bak_stamp : string) (salt : list Z) (ifs : option (list Iface)) (stdin : list ascii).
Local Abbreviation Parse := (ConfigParse.Parse env Decode).

Definition on_tty {A} (m : M Tty A) : M (Tty * W) A := fun s => let '(a, t) := m s.1 in (a, (t, s.2)).
Definition on_disk {A} (m : M W A) : M (Tty * W) A := fun s => let '(a, w) := m s.2 in (a, (s.1, w)).

(** ** The flags *)
(** None for an error, the empty password for "ask". *)
Definition passwordFromArgs (literal file : string) (w : W) : option string :=
  let nonempty pw := if String.eqb pw "" then None else Some pw in
  if negb (String.eqb literal "") && negb (String.eqb literal "-") then None
  else if negb (String.eqb file "") then
    match fs_ReadFile w file with inl _ => None | inr b => nonempty (TrimRight is_cr (chars (firstLine b))) end
  else if String.eqb literal "-" then
    match (ReadString_nl stdin).1 with [] => None | line => nonempty (TrimRight line_end line) end
  else Some "".

(** ** The text *)
Definition head_lines (verb : string) (more : list string) : string := Join ([
  String.append "# n5-fangov configuration, " (String.append verb (String.append " by `n5-fangov setup` on " stamp))] ++ more ++ [
  "# Reference with every key explained: /usr/share/doc/n5-fangov/config.example.toml";
  "# (or deploy/config.example.toml in the checkout). Invalid values fall back to";
  "# built-in defaults with a warning; the daemon always starts."; ""; ""]) newline.
Definition setupConfigText (profileName : string) (chans : list Channel) (w : Web) : string :=
  String.append (head_lines "written" []) (Marshal (new_config profileName chans w)).
Definition renderConfigKeep (prior profileName : string) (chans : list Channel) (w : Web) : string * keepResult :=
  let '(old, warns, _) := Parse prior in
  let cfg := keep_config old profileName chans w in
  (Marshal cfg, mkKeep (kept_lines old profileName chans w) (dropped_fields warns) (w_TLS (c_Web cfg))).
Definition setupConfigTextKeep (prior profileName : string) (chans : list Channel) (w : Web) : string * keepResult :=
  let '(body, r) := renderConfigKeep prior profileName chans w in
  (String.append (head_lines "rewritten" ["# (settings setup does not ask for were carried over from the previous file; --fresh resets them)."]) body, r).

(** ** setup *)
Definition setup_scope (a : SetupArgs) : M Tty (End + string) :=
  let scope := ToLower (TrimSpace (sa_listen a)) in
  if negb (String.eqb scope "") then ret (inr scope)
  else if sa_yes a then ret (inl EndUsage)
  else
    let* s := askChoice ["local"; "lan"] "local" in
    ret (match s with None => inl EndFail | Some s => inr s end).
Definition local_web : Web := mkWeb (String.append "127.0.0.1:" setupPort) "none" "" "" [] "off" "" "" false.
Definition setup_listen (scope : string) : End + Web :=
  if String.eqb scope "local" then inr local_web
  else if String.eqb scope "lan" then
    let ip := primaryLANIP ifs in
    if String.eqb ip "" then inl EndFail else inr (local_web <| w_Listen := JoinHostPort ip setupPort |>)
  else match SplitHostPort scope with
  | inl _ => inl EndUsage
  | inr _ => inr (local_web <| w_Listen := scope |>)
  end.
Definition setup_user (a : SetupArgs) : M Tty (End + string) :=
  let u := TrimSpace (sa_user a) in
  let* u := (if negb (String.eqb u "") then ret (inr u)
             else if sa_yes a then ret (inl EndUsage)
             else let* s := ask setupAdmin in ret (match s with None => inl EndFail | Some s => inr s end)) in
  ret (match u with inl e => inl e | inr u => if negb (validUserName u) then inl EndUsage else inr u end).
Definition setup_password (a : SetupArgs) (pwArg : string) : M Tty (End + string) :=
  let* pw := (if negb (String.eqb pwArg "") then ret (inr pwArg)
              else if sa_yes a then ret (inl EndUsage)
              else let* s := askPasswordTwice in ret (match s with None => inl EndFail | Some s => inr s end)) in
  ret (match pw with inl e => inl e | inr pw => if negb (validPassword pw) then inl EndUsage else inr pw end).
Definition setup_account (a : SetupArgs) (pwArg : string) (w : Web) : M Tty (End + Web) :=
  if IsLoopbackListen (w_Listen w) then ret (inr w)
  else
    let* u := setup_user a in
    match u with
    | inl e => ret (inl e)
    | inr u =>
        let* pw := setup_password a pwArg in
        ret (match pw with
             | inl e => inl e
             | inr pw => inr (w <| w_Auth := "basic" |> <| w_TLS := "auto" |> <| w_User := u |> <| w_PasswordHash := PasswordHash salt u pw |>)
             end)
    end.
Definition setup_web (a : SetupArgs) (pwArg : string) : M Tty (End + Web) :=
  let* scope := setup_scope a in
  match scope with
  | inl e => ret (inl e)
  | inr scope =>
      match setup_listen scope with
      | inl e => ret (inl e)
      | inr w => setup_account a pwArg w
      end
  end.

(** The text for a file that is there or not, and what was carried over; None: unreadable. *)
Definition setup_text (a : SetupArgs) (old : FsErr + string) (profileName : string) (chans : list Channel) (w : Web) : option (string * option keepResult) :=
  let new := setupConfigText profileName chans w in
  match old with
  | inl FsNotExist => Some (new, None)
  | inl _ => None
  | inr old =>
      if sa_fresh a then Some (new, None)
      else match Parse old with
      | (_, _, Some _) => Some (new, None)
      | _ => let '(raw, r) := setupConfigTextKeep old profileName chans w in Some (raw, Some r)
      end
  end.
Definition copyFile (src dst : string) : M W (option FsErr) := fun w =>
  match fs_ReadFile w src with inl e => (Some e, w) | inr b => os_WriteFile dst b 384 w end.
Definition bak_path (a : SetupArgs) : string := String.append (sa_config a) (String.append setupBakStem bak_stamp).
Definition confirmed (a : SetupArgs) : M Tty bool :=
  if sa_yes a then ret true else let* ok := askYesNo false in ret (default false ok).
Definition setup_backup (a : SetupArgs) : M W bool := let* e := copyFile (sa_config a) (bak_path a) in ret (match e with None => true | Some _ => false end).
Definition setup_write (a : SetupArgs) (raw : string) (kept : option keepResult) : M W End := fun w =>
  match Parse raw with
  | (_, [], None) => let '(e, w) := Save env Decode (sa_config a) raw w in (match e with None => EndDone kept | Some _ => EndFail end, w)
  | _ => (EndInvalid (RedactRaw env Decode raw), w)
  end.
Definition cmdSetup (a : SetupArgs) : M (Tty * W) End := fun s =>
  let w := s.2 in
  match passwordFromArgs (sa_password a) (sa_passwordFile a) w with
  | None => (EndUsage, s)
  | Some pwArg =>
      match Detect tbl root (sa_profile a) w with
      | inl _ => (EndFail, s)
      | inr dev =>
          let chans := setupChannels root title dev w in
          (let* web := on_tty (setup_web a pwArg) in
           match web with
           | inl e => ret e
           | inr web =>
               let old := fs_ReadFile w (sa_config a) in
               match setup_text a old (dev_profile dev) chans web with
               | None => ret EndFail
               | Some (raw, kept) =>
                   match old with
                   | inl _ => on_disk (setup_write a raw kept)
                   | inr _ =>
                       let* ok := on_tty (confirmed a) in
                       if negb ok then ret EndFail
                       else
                         let* saved := on_disk (setup_backup a) in
                         if negb saved then ret EndFail else on_disk (setup_write a raw kept)
                   end
               end
           end) s
      end
  end.

(** ** passwd *)
Definition setWebAuth (raw user password : string) : string :=
  let raw := SetKey raw "web" "auth" (tomlString "basic") in
  let raw := SetKey raw "web" "user" (tomlString user) in
  SetKey raw "web" "password_hash" (tomlString (PasswordHash salt user password)).
Definition passwd_user (given configured : string) : M Tty (option string) :=
  if negb (String.eqb given "") then ret (Some given)
  else
    let* s := ask (if String.eqb configured "" then setupAdmin else configured) in
    ret (match s with Some s => if validUserName s then Some s else None | None => None end).
Definition passwd_password (given : string) : M Tty (option string) :=
  if negb (String.eqb given "") then ret (Some given)
  else
    let* s := askPasswordTwice in
    ret (match s with Some s => if validPassword s then Some s else None | None => None end).
Definition passwd_write (cfgPath raw u pw : string) : M W End := fun w =>
  let raw := setWebAuth raw u pw in
  match Parse raw with
  | (_, _, Some _) => (EndFail, w)
  | _ => let '(e, w) := Save env Decode cfgPath raw w in (match e with None => EndDone None | Some _ => EndFail end, w)
  end.
Definition cmdPasswd (cfgPath user password passwordFile : string) : M (Tty * W) End := fun s =>
  let w := s.2 in
  match passwordFromArgs password passwordFile w with
  | None => (EndUsage, s)
  | Some pw =>
      match match fs_ReadFile w cfgPath with inl FsNotExist => inr "" | r => r end with
      | inl _ => (EndFail, s)
      | inr raw =>
          match Parse raw with
          | (_, _, Some _) => (EndFail, s)
          | (cur, _, None) =>
              let u := TrimSpace user in
              if negb (String.eqb u "") && negb (validUserName u) then (EndUsage, s)
              else if negb (String.eqb pw "") && negb (validPassword pw) then (EndUsage, s)
              else
                (let* u := on_tty (passwd_user u (w_User (c_Web cur))) in
                 match u with
                 | None => ret EndFail
                 | Some u =>
                     let* pw := on_tty (passwd_password pw) in
                     match pw with
                     | None => ret EndFail
                     | Some pw => on_disk (passwd_write cfgPath raw u pw)
                     end
                 end) s
          end
      end
  end.
End Commands.

(** ** Facts: the dialogue ends *)
Lemma ReadString_nl_length l : (length (ReadString_nl l).1 + length (ReadString_nl l).2 = length l)%nat /\ ((ReadString_nl l).1 = [] -> l = []).
Proof.
  induction l as [|c l [IH _]]; [done|]. cbn. destruct (Ascii.eqb c nl); [done|]. destruct (ReadString_nl l) as [a b]. cbn in *. split; [lia|done].
Qed.
(** A line costs a byte; without one the input has ended. *)
Definition reads {A} (m : M Tty (option A)) : Prop := forall t, match m t with
  | (Some _, t') => (length t' < length t)%nat
  | (None, t') => t' = [] end.
Lemma readLine_reads : reads readLine.
Proof.
  intros t. unfold readLine. destruct (ReadString_nl_length t) as [Hl Hn]. destruct (ReadString_nl t) as [[|c s] rest]; cbn in *; [|lia].
  rewrite Hn in Hl by done. by destruct rest.
Qed.
Lemma ask_reads def : reads (ask def).
Proof. intros t. pose proof (readLine_reads t) as H. unfold ask, bind, ret. destruct (readLine t) as [[s|] t']; cbv zeta; [by destruct (String.eqb _ _)|done]. Qed.
(** A round that goes round again has read a line. *)
Definition progress {A} (body : M Tty (option A)) : Prop := forall t, (body t).1 = None -> (length (body t).2 < length t)%nat.
Lemma reads_progress {A B} (m : M Tty (option A)) (k : A -> option (option B)) :
  reads m -> progress (let* s := m in ret (match s with None => Some None | Some s => k s end)).
Proof. intros H t. specialize (H t). unfold bind, ret. by destruct (m t) as [[s|] t']. Qed.
Lemma retry_enough {A} (body : M Tty (option A)) none : progress body ->
  forall n k t, (length t < n)%nat -> (length t < k)%nat -> retry n body none t = retry k body none t.
Proof.
  intros Hp. induction n as [|n IH]; intros k t Hn Hk; [lia|]. destruct k as [|k]; [lia|]. cbn. unfold bind.
  specialize (Hp t). destruct (body t) as [[a|] t']; [done|]. cbn in Hp. specialize (Hp eq_refl). apply IH; lia.
Qed.
(** The loop is the loop: it goes on as long as the body gives no answer. *)
Lemma rounds_step {A} (body : M Tty (option A)) none t : progress body ->
  rounds body none t = match body t with (Some a, t') => (a, t') | (None, t') => rounds body none t' end.
Proof.
  intros Hp. unfold rounds at 1. cbn [retry]. unfold bind. pose proof (Hp t) as H. destruct (body t) as [[a|] t']; [done|].
  cbv iota beta in H |- *. unfold rounds. apply retry_enough; [done| |lia]. by apply H.
Qed.
Lemma rounds_ind {A} (Q : A * Tty -> Prop) (body : M Tty (option A)) none : progress body ->
  (forall t a t', body t = (Some a, t') -> Q (a, t')) -> forall t, Q (rounds body none t).
Proof.
  intros Hp Hq t. remember (length t) as n eqn:En. revert t En. induction n as [n IH] using lt_wf_ind. intros t ->.
  rewrite rounds_step by done. pose proof (Hp t) as H. destruct (body t) as [[a|] t'] eqn:E; [by eapply Hq|]. by eapply IH; [apply H|].
Qed.

(** Whatever is typed, a question with choices ends with one of them, or the input has
    ended. *)
Lemma askChoice_answers choices def t :
  match askChoice choices def t with (Some s, _) => s ∈ choices | (None, t') => t' = [] end.
Proof.
  apply (rounds_ind (fun r => match r with (Some s, _) => s ∈ choices | (None, t') => t' = [] end)).
  - unfold choice_round. apply reads_progress, ask_reads.
  - intros u a u'. unfold choice_round, bind, ret. pose proof (ask_reads def u) as H. destruct (ask def u) as [[s|] v].
    + destruct (find _ choices) as [c|] eqn:Ef; cbn; intros [= <- <-]. apply find_some in Ef as [Hc _]. by apply list_elem_of_In.
    + by intros [= <- <-].
Qed.
Lemma askYesNo_answers def t : match askYesNo def t with (Some _, _) => True | (None, t') => t' = [] end.
Proof.
  apply (rounds_ind (fun r => match r with (Some _, _) => True | (None, t') => t' = [] end)).
  - unfold yes_no_round. apply reads_progress, readLine_reads.
  - intros u a u'. unfold yes_no_round, bind, ret. pose proof (readLine_reads u) as H. destruct (readLine u) as [[s|] v].
    + by destruct (yes_no s def); cbn; intros [= <- <-].
    + by intros [= <- <-].
Qed.
Example choice_ex : askChoice ["local"; "lan"] "local" (chars (Join ["wan"; " LAN "; "x"] newline)) = (Some "lan", chars "x").
Proof. vm_compute. reflexivity. Qed.
Example choice_default : askChoice ["local"; "lan"] "local" (chars newline) = (Some "local", []) /\ askChoice ["local"; "lan"] "local" (chars "no") = (None, []).
Proof. split; vm_compute; reflexivity. Qed.
Example twice_ex : askPasswordTwice (chars (Join ["secret12"; "secret"; ""; "secret12"; "secret12"; "y"] newline)) = (Some "secret12", chars "y").
Proof. vm_compute. reflexivity. Qed.

(** ** Facts: what is asked for *)
Section Answers.
Context {Cr : Crypto}.
Variables (salt : list Z) (ifs : option (list Iface)).
Definition no_write (e : End) : Prop := match e with EndUsage | EndFail => True | _ => False end.
(** Loopback without a login, or basic authentication over TLS. *)
Definition web_asked (w : Web) : Prop :=
  (IsLoopbackListen (w_Listen w) = true /\ w_Auth w = "none" /\ w_TLS w = "off") \/
  (IsLoopbackListen (w_Listen w) = false /\ w_Auth w = "basic" /\ w_TLS w = "auto" /\ UserRe (w_User w) = true /\
   exists pw, validPassword pw = true /\ w_PasswordHash w = PasswordHash salt (w_User w) pw).
Definition asked {A} (Q : A -> Prop) (r : End + A) : Prop := match r with inl e => no_write e | inr a => Q a end.
Lemma setup_user_yields a : yields (asked (fun u => UserRe u = true)) (setup_user a).
Proof.
  unfold setup_user. apply (yields_bind (asked (fun _ => True))).
  - destruct (negb _); [by apply yields_ret|]. destruct (sa_yes a); [by apply yields_ret|]. apply yields_bind'. intros [s|]; by apply yields_ret.
  - intros [e|u] H; apply yields_ret; [done|]. unfold validUserName. by destruct (UserRe u) eqn:E.
Qed.
Lemma setup_password_yields a pwArg : yields (asked (fun pw => validPassword pw = true)) (setup_password a pwArg).
Proof.
  unfold setup_password. apply (yields_bind (asked (fun _ => True))).
  - destruct (negb _); [by apply yields_ret|]. destruct (sa_yes a); [by apply yields_ret|]. apply yields_bind'. intros [s|]; by apply yields_ret.
  - intros [e|pw] H; apply yields_ret; [done|]. by destruct (validPassword pw) eqn:E.
Qed.
Lemma setup_web_yields a pwArg : yields (asked web_asked) (setup_web salt ifs a pwArg).
Proof.
  unfold setup_web. apply (yields_bind (asked (fun _ => True))).
  { unfold setup_scope. cbv zeta. destruct (negb _); [by apply yields_ret|]. destruct (sa_yes a); [by apply yields_ret|].
    apply yields_bind'. intros [s|]; by apply yields_ret. }
  intros [e|scope] H; [by apply yields_ret|].
  assert (Hl : asked (fun w => w_Auth w = "none" /\ w_TLS w = "off") (setup_listen ifs scope)).
  { unfold setup_listen. destruct (String.eqb scope "local"); [done|]. destruct (String.eqb scope "lan").
    - cbv zeta. by destruct (String.eqb (primaryLANIP ifs) "").
    - by destruct (SplitHostPort scope). }
  destruct (setup_listen ifs scope) as [e|w]; [by apply yields_ret|]. destruct Hl as [Ha Ht]. unfold setup_account.
  destruct (IsLoopbackListen (w_Listen w)) eqn:El; [apply yields_ret; by left|].
  eapply yields_bind; [apply setup_user_yields|]. intros [e|u] Hu; [by apply yields_ret|].
  eapply yields_bind; [apply setup_password_yields|]. intros [e|pw] Hp; apply yields_ret; [done|]. right. cbn in *. split_and!; try done. by exists pw.
Qed.
End Answers.

(** ** Facts: what is written *)
Section Written.
Context {W : Type} {Fs : Files W} {Fl : FilesLaws W} {O : Os W} {T : TimedRead W} {Cr : Crypto} {Prim : Type} `{!Toml Prim} {U : Url}.
Variable (env : string) (Decode : string -> string + Doc Prim) (Encode : Config -> string).
(** What is encoded decodes to a document that holds the section [web] of the value. *)
Context `{!Encoder Decode (fun d c => doc_web d (c_Web c)) Encode}.
Variable (os_WriteFile : string -> string -> Z -> M W (option FsErr)).
Variable (tbl : list Entry) (root title stamp bak_stamp : string) (salt : list Z) (ifs : option (list Iface)) (stdin : list ascii).
(** The time is one line; [os.WriteFile] touches the named file only, and without an error it has the text. *)
Hypothesis stamp_line : one_line stamp.
Hypothesis write_other : forall p b perm w q, q <> p -> fs_ReadFile (os_WriteFile p b perm w).2 q = fs_ReadFile w q.
Hypothesis write_same : forall p b perm w w', os_WriteFile p b perm w = (None, w') -> fs_ReadFile w' p = inr b.
Local Abbreviation Parse := (ConfigParse.Parse env Decode).
Local Abbreviation Marshal := (ConfigFiles.Marshal Encode).
Local Abbreviation bak := (bak_path bak_stamp).

Lemma append_longer a b : b <> "" -> String.append a b <> a.
Proof. intros Hb E. rewrite <- (append_nil_r a) in E at 2. by apply append_inj_l in E. Qed.
Lemma bak_other a : bak a <> sa_config a.
Proof. by apply append_longer. Qed.

(** The file [p] is written with [raw], every other is as before; or none has changed. *)
Definition wrote (p raw : string) (w w' : W) : Prop := fs_ReadFile w' p = inr raw /\ forall q, q <> p -> fs_ReadFile w' q = fs_ReadFile w q.
Definition same_files (w w' : W) : Prop := forall q, fs_ReadFile w' q = fs_ReadFile w q.
Lemma Save_spec p raw w : match Save env Decode p raw w with
  | (None, w') => wrote p raw w w'
  | (Some _, w') => same_files w w' end.
Proof.
  unfold Save. destruct (fs_Write p raw _ w) as [[e|] w'] eqn:E; [intros q; by eapply write_no|]. by eapply write_ok.
Qed.
Lemma setup_write_spec a raw kept w : match setup_write env Decode a raw kept w with
  | (EndDone k, w') => k = kept /\ (exists c, Parse raw = (c, [], None)) /\ wrote (sa_config a) raw w w'
  | (EndInvalid shown, w') => shown = RedactRaw env Decode raw /\ w' = w
  | (_, w') => same_files w w' end.
Proof.
  unfold setup_write. destruct (Parse raw) as [[c [|wn ws]] [e|]] eqn:Ep; try done.
  pose proof (Save_spec (sa_config a) raw w) as H. destruct (Save _ _ _ _ w) as [[e|] w']; [done|]. split_and!; [done|by exists c|done].
Qed.
Lemma setup_backup_spec a w old : fs_ReadFile w (sa_config a) = inr old -> let '(ok, w') := setup_backup os_WriteFile bak_stamp a w in
  (ok = true -> fs_ReadFile w' (bak a) = inr old) /\ forall q, q <> bak a -> fs_ReadFile w' q = fs_ReadFile w q.
Proof.
  intros Ho. unfold setup_backup, copyFile, bind, ret. rewrite Ho. pose proof (write_other (bak a) old 384 w) as Hq.
  destruct (os_WriteFile (bak a) old 384 w) as [[e|] w'] eqn:E; split; try done. intros _. by eapply write_same.
Qed.

(** The text is a comment and a configuration: a new one, or the one that was there with
    what the command decides. *)
Definition commented (c : Config) (raw : string) : Prop :=
  exists head, Forall comment_line head /\ raw = String.append (Join (head ++ [""]) newline) (Marshal c).
Inductive text_of (old : FsErr + string) (profileName : string) (chans : list Channel) (web : Web) (raw : string) : option keepResult -> Config -> Prop :=
  | TextNew : commented (new_config profileName chans web) raw ->
      text_of old profileName chans web raw None (new_config profileName chans web)
  | TextKeep prior oldc ws : old = inr prior -> Parse prior = (oldc, ws, None) ->
      commented (keep_config oldc profileName chans web) raw ->
      text_of old profileName chans web raw
        (Some (mkKeep (kept_lines oldc profileName chans web) (dropped_fields ws) (w_TLS (keep_web (c_Web oldc) web))))
        (keep_config oldc profileName chans web).
Lemma head_commented verb more c : one_line verb -> Forall comment_line more -> commented c (String.append (head_lines stamp verb more) (Marshal c)).
Proof.
  intros Hv Hm. eexists (_ :: more ++ [_; _; _; ""]). split; [|unfold head_lines; cbn [app]; by rewrite <- app_assoc].
  constructor; [|apply Forall_app; split; [done|]; apply (bool_decide_unpack _); by vm_compute].
  split; [|by right]. unfold one_line. rewrite !chars_app, !Forall_app. split_and!; try done; by repeat constructor.
Qed.
Lemma setup_text_spec a old profileName chans web raw kept :
  setup_text env Decode Encode stamp a old profileName chans web = Some (raw, kept) -> exists c, text_of old profileName chans web raw kept c.
Proof.
  assert (Hnew : commented (new_config profileName chans web) (setupConfigText Encode stamp profileName chans web)).
  { apply head_commented; [by repeat constructor|constructor]. }
  unfold setup_text, setupConfigTextKeep, renderConfigKeep. destruct old as [[]|prior]; try done.
  - intros [= <- <-]. eexists. by eapply TextNew.
  - destruct (sa_fresh a); [intros [= <- <-]; eexists; by eapply TextNew|].
    destruct (Parse prior) as [[oldc ws] [e|]] eqn:Ep; intros [= <- <-]; eexists; [by eapply TextNew|eapply TextKeep; [done..|]].
    apply head_commented; [by repeat constructor|]. apply (bool_decide_unpack _). by vm_compute.
Qed.
(** A text that is read without a warning is read as it was meant. *)
Lemma commented_read c raw cfg : commented c raw -> Parse raw = (cfg, [], None) -> c_Web cfg = web_as_read (c_Web c).
Proof.
  intros (head & Hh & ->) Hp. unfold ConfigParse.Parse in Hp. destruct (Decode _) as [msg|d] eqn:Ed; [done|].
  destruct (parse_doc env d []) as [cfg' ws] eqn:E. injection Hp as -> ->. eapply doc_web_read; [|exact E]. exact (encoded_decode Decode (fun d c => doc_web d (c_Web c)) Encode c head d Hh Ed).
Qed.

(** The listener of a configuration is out of reach of the network, or behind a login over
    TLS. *)
Definition reach_safe (w : Web) : Prop :=
  IsLoopbackListen (w_Listen w) = true \/
  (w_Auth w = "basic" /\ UserRe (w_User w) = true /\ (exists pw, validPassword pw = true /\ w_PasswordHash w = PasswordHash salt (w_User w) pw) /\
   (w_TLS w = "auto" \/ w_TLS w = "file" /\ w_CertFile w <> "" /\ w_KeyFile w <> "")).
Lemma text_reach old profileName chans web raw kept c cfg : web_asked salt web -> text_of old profileName chans web raw kept c ->
  Parse raw = (cfg, [], None) -> c_Web cfg = web_as_read (c_Web c) /\ reach_safe (c_Web cfg).
Proof.
  intros Hw Ht Hp. pose proof (Parse_valid env Decode raw) as (_ & (_ & _ & Hoff & Hfile & _) & _). rewrite Hp in Hoff, Hfile. cbn [fst] in Hoff, Hfile.
  assert (Hr : c_Web cfg = web_as_read (c_Web c)) by (destruct Ht; by eapply commented_read). split; [done|].
  assert (Hc : w_Auth (c_Web c) = w_Auth web /\ w_User (c_Web c) = w_User web /\ w_PasswordHash (c_Web c) = w_PasswordHash web /\
    (w_TLS (c_Web c) = w_TLS web \/ w_TLS (c_Web c) = "file" /\ IsLoopbackListen (w_Listen web) = false)).
  { destruct Ht as [_|prior oldc ws _ _ _]; [by split_and!; try left|]. split_and!; try done. cbn.
    destruct (String.eqb (w_TLS (c_Web oldc)) "file"); [|by left]. destruct (IsLoopbackListen (w_Listen web)); [by left|by right]. }
  destruct Hc as (Ca & Cu & Ch & Ct). rewrite Hr in *. unfold reach_safe. cbn [w_Listen w_Auth w_User w_PasswordHash w_TLS w_CertFile w_KeyFile web_as_read] in *.
  rewrite Ca, Cu, Ch. destruct Hw as [(Hl & _ & Ht')|(_ & Ha & Ht' & Hu & pw & Hpw & Hh)].
  - left. destruct Ct as [Ct|[_ ?]]; [|congruence]. apply Hoff. by rewrite Ct, Ht'.
  - right. rewrite Ha. split_and!; [done|done|by exists pw|]. destruct Ct as [->|[E _]]; [left; by rewrite Ht'|right].
    rewrite E in *. split; [done|by apply Hfile].
Qed.

Lemma finish a w raw kept t1 w1 : (forall q, q <> bak a -> fs_ReadFile w1 q = fs_ReadFile w q) ->
  let '(e, (_, w')) := on_disk (setup_write env Decode a raw kept) (t1, w1) in
  (forall q, q <> sa_config a -> q <> bak a -> fs_ReadFile w' q = fs_ReadFile w q) /\
  match e with
  | EndDone k => k = kept /\ fs_ReadFile w' (sa_config a) = inr raw /\ (exists cfg, Parse raw = (cfg, [], None)) /\ fs_ReadFile w' (bak a) = fs_ReadFile w1 (bak a)
  | _ => fs_ReadFile w' (sa_config a) = fs_ReadFile w (sa_config a) /\
      forall shown, e = EndInvalid shown -> exists raw, shown = RedactRaw env Decode raw
  end.
Proof.
  intros H1. unfold on_disk. cbn [fst snd]. pose proof (setup_write_spec a raw kept w1) as H. pose proof (bak_other a) as Hb.
  destruct (setup_write _ _ _ _ _ w1) as [[| |shown|k] w'].
  - split; [intros q _ Hq|split; [|done]]; rewrite H; by apply H1.
  - split; [intros q _ Hq|split; [|done]]; rewrite H; by apply H1.
  - destruct H as [-> ->]. split; [intros q _ Hq; by apply H1|]. split; [by apply H1|]. intros ? [= <-]. by exists raw.
  - destruct H as (-> & Hp & Hc & Hq). split; [intros q Hqc Hqb; rewrite Hq by done; by apply H1|]. split_and!; try done. by apply Hq.
Qed.

(** What a run from [w] that ended with [e] in [w'] has done. *)
Definition setup_done (a : SetupArgs) (w : W) (e : End) (w' : W) : Prop :=
  (forall q, q <> sa_config a -> q <> bak a -> fs_ReadFile w' q = fs_ReadFile w q) /\
  match e with
  | EndDone kept => exists dev web raw c cfg, Detect tbl root (sa_profile a) w = inr dev /\
      text_of (fs_ReadFile w (sa_config a)) (dev_profile dev) (setupChannels root title dev w) web raw kept c /\
      fs_ReadFile w' (sa_config a) = inr raw /\ Parse raw = (cfg, [], None) /\
      c_Web cfg = web_as_read (c_Web c) /\ reach_safe (c_Web cfg) /\
      forall old, fs_ReadFile w (sa_config a) = inr old -> fs_ReadFile w' (bak a) = inr old
  | _ => fs_ReadFile w' (sa_config a) = fs_ReadFile w (sa_config a) /\
      forall shown, e = EndInvalid shown -> exists raw, shown = RedactRaw env Decode raw
  end.

(** C9: setup never leaves a dashboard open to the network, and never loses the file that
    was there.  For every set of flags, everything typed at the prompts and every machine:
    unless the command succeeds, the configuration file is as before.  When it succeeds the
    file holds a text - a comment and an encoded configuration, new or the old one with what
    setup decides - and what the parser reads back FROM THIS TEXT, without an error or a
    warning, has the section [web] that was decided: a listener on the loopback interface,
    or one that demands a login, with a valid user name and the hash of a password of 8 to
    128 characters, over TLS, with a certificate file only where one was configured.  A file
    that was there is kept under the name of the backup, and no other file is touched.  A
    text that does not validate is shown without its password hash.  Of the TOML library it
    is assumed that the lines it encodes decode, if they do, to a document with the strings
    that were encoded ([Encoder]). *)
Theorem setup_writes (a : SetupArgs) (t : Tty) (w : W) :
  let '(e, (t', w')) := cmdSetup env Decode Encode os_WriteFile tbl root title stamp bak_stamp salt ifs stdin a (t, w) in
  setup_done a w e w'.
Proof.
  unfold cmdSetup. cbn [snd]. destruct (passwordFromArgs _ _ _ w) as [pwArg|]; [|done].
  destruct (Detect _ _ _ w) as [?|dev] eqn:Ed; [done|]. cbv zeta. unfold bind at 1, on_tty at 1. cbn [fst snd].
  pose proof (setup_web_yields salt ifs a pwArg t) as Hy. destruct (setup_web salt ifs a pwArg t) as [[e|web] t1]; cbn [fst] in Hy.
  { unfold ret. by destruct e. }
  cbn in Hy. destruct (setup_text _ _ _ _ _ _ _ _ _) as [[raw kept]|] eqn:Et; [|done].
  apply setup_text_spec in Et as [c Ht].
  assert (Hfin : forall t1 w1, (forall q, q <> bak a -> fs_ReadFile w1 q = fs_ReadFile w q) ->
    (forall old, fs_ReadFile w (sa_config a) = inr old -> fs_ReadFile w1 (bak a) = inr old) ->
    let '(e, (t', w')) := on_disk (setup_write env Decode a raw kept) (t1, w1) in setup_done a w e w').
  { intros t2 w1 H1 H2. pose proof (finish a w raw kept t2 w1 H1) as H. destruct (on_disk _ _) as [e [t' w']]. destruct H as [Hq H]. split; [done|].
    destruct e as [| |shown|k]; try done. destruct H as (-> & Hc & [cfg Hp] & Hb). destruct (text_reach _ _ _ _ _ _ _ _ Hy Ht Hp) as [Hr1 Hr2].
    exists dev, web, raw, c, cfg. split_and!; try done.
    intros old Ho. rewrite Hb. by apply H2. }
  destruct (fs_ReadFile w (sa_config a)) as [err|old] eqn:Eo; [by apply Hfin|].
  unfold bind at 1, on_tty at 1. cbn [fst snd]. destruct (confirmed a t1) as [[|] t2]; cbn [negb]; [|done].
  unfold bind, on_disk at 1. cbn [fst snd]. pose proof (setup_backup_spec a w old Eo) as Hs.
  destruct (setup_backup _ _ _ w) as [[|] w1]; cbn [negb]; destruct Hs as [Hs Hq].
  - apply Hfin; [done|]. intros ? [= <-]. by apply Hs.
  - unfold ret. split; [by intros q _ Hqb; apply Hq|]. split; [|done]. apply Hq. intros E. by apply (bak_other a).
Qed.

(** ** Facts: the password *)
Definition auth_keys : list string := ["auth"; "user"; "password_hash"].
Lemma bare_web : bare "web".
Proof. split; [done|]. repeat constructor. Qed.
Lemma bare_auth k : k ∈ auth_keys -> bare k.
Proof. intros H. repeat (apply elem_of_cons in H as [->|H]; [split; [done|repeat constructor]|]). by apply elem_of_nil in H. Qed.
Lemma auth_set raw k v : k ∈ auth_keys ->
  let l := lines_of raw in let l' := lines_of (SetKey raw "web" k (tomlString v)) in
  lookup l' "web" k = Some (tomlString v) /\
  forall s' k', bare s' -> bare k' -> (s', k') <> ("web", k) -> lookup l' s' k' = lookup l s' k'.
Proof. intros Hk. pose proof (set_key raw "web" k (tomlString v) bare_web (bare_auth k Hk) (tomlString_value v)) as (H1 & H2 & _). done. Qed.
(** [setWebAuth] sets three keys and leaves every other. *)
Lemma setWebAuth_spec raw user password :
  let l := lines_of raw in let l' := lines_of (setWebAuth salt raw user password) in
  lookup l' "web" "auth" = Some (tomlString "basic") /\ lookup l' "web" "user" = Some (tomlString user) /\
  lookup l' "web" "password_hash" = Some (tomlString (PasswordHash salt user password)) /\
  forall s' k', bare s' -> bare k' -> ~ (s' = "web" /\ k' ∈ auth_keys) -> lookup l' s' k' = lookup l s' k'.
Proof.
  cbv zeta. unfold setWebAuth.
  destruct (auth_set raw "auth" "basic") as [A1 A2]; [by left|]. set (r1 := SetKey raw _ _ _) in *.
  destruct (auth_set r1 "user" user) as [B1 B2]; [by right; left|]. set (r2 := SetKey r1 _ _ _) in *.
  destruct (auth_set r2 "password_hash" (PasswordHash salt user password)) as [C1 C2]; [by right; right; left|].
  pose proof bare_web as Hw. assert (Hb : forall k, k ∈ auth_keys -> bare k) by apply bare_auth. split_and!.
  - rewrite C2, B2; [done|done|by apply Hb; left|done|done|by apply Hb; left|done].
  - rewrite C2; [done|done|by apply Hb; right; left|done].
  - done.
  - intros s' k' Hs Hk Hn. rewrite C2, B2, A2; try done; intros [= -> ->]; apply Hn; split; try done; [by left|by right; left|by right; right; left].
Qed.
Lemma passwd_user_yields given configured : (given = "" \/ validUserName given = true) ->
  yields (fun r => match r with Some u => UserRe u = true | None => True end) (passwd_user given configured).
Proof.
  intros Hg. unfold passwd_user. destruct (String.eqb_spec given "") as [->|Hne]; cbn [negb].
  - apply yields_bind'. intros [s|]; apply yields_ret; [|done]. unfold validUserName. by destruct (UserRe s) eqn:E.
  - apply yields_ret. by destruct Hg.
Qed.
Lemma passwd_password_yields given : (given = "" \/ validPassword given = true) ->
  yields (fun r => match r with Some pw => validPassword pw = true | None => True end) (passwd_password given).
Proof.
  intros Hg. unfold passwd_password. destruct (String.eqb_spec given "") as [->|Hne]; cbn [negb].
  - apply yields_bind'. intros [s|]; apply yields_ret; [|done]. by destruct (validPassword s) eqn:E.
  - apply yields_ret. by destruct Hg.
Qed.
Lemma given_ok (s : string) (v : string -> bool) : negb (String.eqb s "") && negb (v s) = false -> s = "" \/ v s = true.
Proof. destruct (String.eqb_spec s ""); [by left|]. destruct (v s) eqn:E; [by right|done]. Qed.

(** passwd changes the login and nothing else: unless it succeeds, no file has changed;
    when it succeeds, the configuration file is the one that was there (or an empty one)
    with auth, user and password_hash of [web] set to basic, a valid user name and the hash
    of a password of 8 to 128 characters, every other key reads as before, and the file
    parses. *)
Theorem passwd_writes (cfgPath user password file : string) (t : Tty) (w : W) :
  let '(e, (t', w')) := cmdPasswd env Decode salt stdin cfgPath user password file (t, w) in
  match e with
  | EndDone _ => exists raw u pw, (fs_ReadFile w cfgPath = inr raw \/ fs_ReadFile w cfgPath = inl FsNotExist /\ raw = "") /\
      UserRe u = true /\ validPassword pw = true /\ wrote cfgPath (setWebAuth salt raw u pw) w w' /\ (Parse (setWebAuth salt raw u pw)).2 = None /\
      let l := lines_of raw in let l' := lines_of (setWebAuth salt raw u pw) in
      lookup l' "web" "auth" = Some (tomlString "basic") /\ lookup l' "web" "user" = Some (tomlString u) /\
      lookup l' "web" "password_hash" = Some (tomlString (PasswordHash salt u pw)) /\
      forall s' k', bare s' -> bare k' -> ~ (s' = "web" /\ k' ∈ auth_keys) -> lookup l' s' k' = lookup l s' k'
  | _ => same_files w w'
  end.
Proof.
  unfold cmdPasswd. cbn [snd]. destruct (passwordFromArgs _ _ _ w) as [pw0|]; [|done].
  destruct (match fs_ReadFile w cfgPath with inl FsNotExist => inr "" | r => r end) as [?|raw] eqn:Er; [done|].
  destruct (Parse raw) as [[cur ws] [?|]] eqn:Ep; [done|]. cbv zeta.
  destruct (negb (String.eqb (TrimSpace user) "") && _) eqn:Eu; [done|]. destruct (negb (String.eqb pw0 "") && _) eqn:Epw; [done|].
  apply given_ok in Eu, Epw. unfold bind at 1, on_tty at 1. cbn [fst snd].
  pose proof (passwd_user_yields _ (w_User (c_Web cur)) Eu t) as Hu. destruct (passwd_user _ _ t) as [[u|] t1]; [|done].
  unfold bind, on_tty. cbn [fst snd] in *. pose proof (passwd_password_yields _ Epw t1) as Hp. destruct (passwd_password pw0 t1) as [[pw|] t2]; [|done].
  cbn [fst] in Hp. unfold on_disk, passwd_write. cbn [fst snd]. set (new := setWebAuth salt raw u pw).
  destruct (Parse new) as [[c ws'] [?|]] eqn:En; [done|]. pose proof (Save_spec cfgPath new w) as Hs.
  destruct (Save _ _ _ new w) as [[?|] w']; [done|]. exists raw, u, pw.
  split; [destruct (fs_ReadFile w cfgPath) as [[]|]; by simplify_eq; auto|].
  split_and!; try done; [by fold new; rewrite En|..]; destruct (setWebAuth_spec raw u pw) as (? & ? & ? & ?); done.
Qed.
End Written.

(** ** Facts: what is carried over *)
Section Keep.
Context {U : Url}.
Variable (env : string).
Implicit Types (old : Config) (c o : Channel).

Lemma keep_channel_same old c : let k := (keep_channel old c).1 in
  cc_Name k = cc_Name c /\ cc_PWM k = cc_PWM c /\ cc_Sensor k = cc_Sensor c /\ cc_Curve k = cc_Curve c /\ cc_Critical k = cc_Critical c /\ cc_Stop k = cc_Stop c.
Proof. unfold keep_channel. destruct (Config_Channel old _) as [o|]; [|done]. by destruct (_ =? _). Qed.
Lemma channel_named l old n : c_Channels old = l -> match Config_Channel old n with
  | Some o => o ∈ l /\ cc_Name o = n
  | None => n ∉ map cc_Name l end.
Proof.
  intros <-. unfold Config_Channel. destruct (find _ _) as [o|] eqn:E.
  - apply find_some in E as [Hi Hn%String.eqb_eq]. by rewrite list_elem_of_In.
  - intros Hin. apply list_elem_of_In, in_map_iff in Hin as (o & <- & Ho). pose proof (find_none _ _ E _ Ho) as H. cbv beta in H. by rewrite String.eqb_refl in H.
Qed.
(** The value of a post-processing key: the one of the old channel with the name and the
    pwm, when it is set. *)
Definition carried (val : Channel -> Z) (also : Channel -> Prop) old c (v : Z) : Prop :=
  (exists o, o ∈ c_Channels old /\ cc_Name o = cc_Name c /\ cc_PWM o = cc_PWM c /\ also o /\ val o <> 0 /\ v = val o) \/
  ((forall o, Config_Channel old (cc_Name c) = Some o -> cc_PWM o = cc_PWM c -> also o -> val o = 0) /\ v = val c).
Lemma nonzero_default (z d : Z) : (z <> 0 /\ default d (nonzero z) = z) \/ (z = 0 /\ default d (nonzero z) = d).
Proof. unfold nonzero. destruct (Z.eqb_spec z 0); [by right|by left]. Qed.
Lemma keep_channel_parts old c : let k := (keep_channel old c).1 in
  carried cc_Hysteresis (fun _ => True) old c (cc_Hysteresis k) /\ carried cc_MinOn (fun _ => True) old c (cc_MinOn k) /\
  carried cc_Ceiling (fun o => cc_Sensor o = cc_Sensor c) old c (cc_Ceiling k).
Proof.
  cbv zeta. unfold keep_channel. pose proof (channel_named _ old (cc_Name c) eq_refl) as Hn. unfold carried.
  destruct (Config_Channel old (cc_Name c)) as [o|]; [|by split_and!; right].
  destruct Hn as [Ho Hn]. destruct (Z.eqb_spec (cc_PWM o) (cc_PWM c)) as [Hp|Hp]; [|split_and!; right; (split; [by intros ? [= <-]|done])].
  cbn. split_and!.
  - destruct (nonzero_default (cc_Hysteresis o) (cc_Hysteresis c)) as [[Hz ->]|[Hz ->]]; [left; by exists o|right; split; [by intros ? [= <-]|done]].
  - destruct (nonzero_default (cc_MinOn o) (cc_MinOn c)) as [[Hz ->]|[Hz ->]]; [left; by exists o|right; split; [by intros ? [= <-]|done]].
  - destruct (String.eqb_spec (cc_Sensor o) (cc_Sensor c)) as [Hs|Hs]; [|right; split; [by intros ? [= <-]|done]].
    destruct (nonzero_default (cc_Ceiling o) (cc_Ceiling c)) as [[Hz ->]|[Hz ->]]; [left; by exists o|right; split; [by intros ? [= <-]|done]].
Qed.
Lemma keep_channel_valid old c : Forall channel_valid (c_Channels old) -> channel_valid c -> channel_valid (keep_channel old c).1.
Proof.
  intros Ho Hc. destruct (keep_channel_same old c) as (E1 & E2 & E3 & E4 & E5 & E6). destruct (keep_channel_parts old c) as (H1 & H2 & H3).
  unfold channel_valid in *. rewrite E1, E2, E3, E4, E5, E6. destruct Hc as (C1 & C2 & C3 & C4 & C5 & C6 & C7 & C8 & C9).
  rewrite Forall_forall in Ho. split_and!; try done; try apply C2; try apply C5.
  1-2: destruct H1 as [(o & Hin & _ & _ & _ & _ & ->)|[_ ->]]; [apply Ho in Hin as (_ & _ & _ & _ & _ & _ & ? & _); lia|lia].
  1-2: destruct H2 as [(o & Hin & _ & _ & _ & _ & ->)|[_ ->]]; [apply Ho in Hin as (_ & _ & _ & _ & _ & _ & _ & ? & _); lia|lia].
  destruct H3 as [(o & Hin & _ & _ & Hs & _ & ->)|[_ ->]]; [|done]. rewrite <- Hs. by apply Ho in Hin as (_ & _ & _ & _ & _ & _ & _ & _ & ?).
Qed.

Lemma filter_ext_in {A} (P Q : A -> Prop) `{!forall x, Decision (P x)} `{!forall x, Decision (Q x)} (l : list A) :
  (forall x, x ∈ l -> P x <-> Q x) -> filter P l = filter Q l.
Proof.
  induction l as [|x l IH]; intros Hpq; [done|]. rewrite !filter_cons. rewrite IH by (intros y Hy; apply Hpq; by right).
  pose proof (Hpq x ltac:(by left)). by destruct (decide (P x)), (decide (Q x)); try tauto.
Qed.
Lemma NoDup_map_filter {A B} (f : A -> B) (P : A -> Prop) `{!forall x, Decision (P x)} (l : list A) : NoDup (map f l) -> NoDup (map f (filter P l)).
Proof.
  induction l as [|x l IH]; [done|]. cbn [map]. intros [Hx Hl]%NoDup_cons. rewrite filter_cons. destruct (decide (P x)); [|by apply IH].
  cbn [map]. apply NoDup_cons. split; [|by apply IH]. intros Hin. apply Hx. apply list_elem_of_In, in_map_iff in Hin as (y & E & Hy).
  apply list_elem_of_In, list_elem_of_filter in Hy as [_ Hy]. apply list_elem_of_In, in_map_iff. exists y. by rewrite <- list_elem_of_In.
Qed.
Lemma map_disjoint {B} (f : Channel -> B) (l l' : list Channel) : (forall o, o ∈ l' -> f o ∉ map f l) -> forall x, x ∈ map f l -> x ∉ map f l'.
Proof. intros H x Hx Hx'. apply list_elem_of_In, in_map_iff in Hx' as (o & <- & Ho). by apply (H o); [apply list_elem_of_In|]. Qed.

(** An old channel that stays: its pwm is not used and its name is not taken. *)
Definition stays (used : list Z) (names : list string) o : Prop := cc_PWM o ∉ used /\ cc_Name o ∉ names.
#[local] Instance stays_dec used names o : Decision (stays used names o).
Proof. unfold stays. apply _. Defined.
Lemma keep_others_spec used l out : NoDup (map cc_Name l) ->
  keep_others used l out = (out ++ filter (stays used (map cc_Name out)) l,
    map (fun o => KeptChannel (cc_Name o) (cc_PWM o)) (filter (stays used (map cc_Name out)) l)).
Proof.
  revert out. induction l as [|o l IH]; intros out Hnd; [by rewrite app_nil_r|]. cbn [map] in Hnd. apply NoDup_cons in Hnd as [Ho Hnd].
  cbn [keep_others]. pose proof (channel_named out (Default <| c_Channels := out |>) (cc_Name o) eq_refl) as Hn.
  assert (Hu : existsb (Z.eqb (cc_PWM o)) used = true <-> cc_PWM o ∈ used).
  { rewrite existsb_exists. split; [intros (x & Hx & ->%Z.eqb_eq); by apply list_elem_of_In|]. intros H. exists (cc_PWM o). by rewrite Z.eqb_refl, <- list_elem_of_In. }
  rewrite filter_cons. destruct (decide (stays used (map cc_Name out) o)) as [[Hp Hnm]|Hs].
  - rewrite (not_true_is_false (existsb _ used)) by tauto. destruct (Config_Channel _ _) as [o'|].
    { destruct Hn as [Hin Hne]. destruct Hnm. rewrite <- Hne. apply list_elem_of_In, in_map, list_elem_of_In, Hin. }
    cbn [negb andb]. rewrite bool_decide_true by done. rewrite IH by done. rewrite map_app. cbn [map].
    assert (E : filter (stays used (map cc_Name out ++ [cc_Name o])) l = filter (stays used (map cc_Name out)) l).
    { apply filter_ext_in. intros o' Ho'. unfold stays. rewrite elem_of_app, list_elem_of_singleton.
      assert (cc_Name o' <> cc_Name o); [|tauto]. intros E. apply Ho. rewrite <- E. apply list_elem_of_In, in_map, list_elem_of_In, Ho'. }
    rewrite E, <- app_assoc. done.
  - destruct (existsb (Z.eqb (cc_PWM o)) used) eqn:Eu; [by apply IH|]. cbn [negb andb]. destruct (Config_Channel _ _) as [o'|]; [by rewrite bool_decide_false, IH|].
    destruct Hs. split; [|done]. intros H. apply Hu in H. congruence.
Qed.
Lemma keep_channels_spec old profileName chans : channels_ok (c_Channels old) -> exists others,
  keep_channels old profileName chans =
    (map (fun c => (keep_channel old c).1) chans ++ others,
     concat (map (fun c => (keep_channel old c).2) chans) ++ map (fun o => KeptChannel (cc_Name o) (cc_PWM o)) others) /\
  others = if same_profile old profileName then filter (stays (map cc_PWM chans) (map cc_Name chans)) (c_Channels old) else [].
Proof.
  intros (_ & Hn & _). unfold keep_channels. rewrite !map_map. destruct (same_profile old profileName).
  - rewrite keep_others_spec by done. eexists. split; [done|]. f_equal. rewrite map_map. by rewrite (map_ext _ cc_Name) by (intros c; apply keep_channel_same).
  - exists []. split; [|done]. cbn [map]. by rewrite !app_nil_r.
Qed.
Lemma keep_channels_ok old profileName chans : channels_ok (c_Channels old) -> channels_ok chans -> channels_ok (keep_channels old profileName chans).1.
Proof.
  intros Ho Hc. destruct (keep_channels_spec old profileName chans Ho) as (others & -> & Eo). cbn [fst].
  destruct Ho as (Vo & No & Po), Hc as (Vc & Nc & Pc).
  assert (Hs : forall o, o ∈ others -> o ∈ c_Channels old /\ stays (map cc_PWM chans) (map cc_Name chans) o).
  { intros o Hin. rewrite Eo in Hin. destruct (same_profile _ _); [|by apply elem_of_nil in Hin]. by apply list_elem_of_filter in Hin as [? ?]. }
  assert (Hnd : NoDup (map cc_Name others) /\ NoDup (map cc_PWM others)).
  { rewrite Eo. destruct (same_profile _ _); [|by split; constructor]. by split; apply NoDup_map_filter. }
  assert (En : map cc_Name (map (fun c => (keep_channel old c).1) chans) = map cc_Name chans) by (rewrite map_map; apply map_ext; intros c; apply keep_channel_same).
  assert (Ep : map cc_PWM (map (fun c => (keep_channel old c).1) chans) = map cc_PWM chans) by (rewrite map_map; apply map_ext; intros c; apply keep_channel_same).
  split; [|rewrite !map_app, En, Ep; split; apply NoDup_app; (split; [done|]); (split; [|apply Hnd])].
  - apply Forall_app. split; [|apply Forall_forall; intros o Hin; rewrite Forall_forall in Vo; by apply Vo, Hs].
    apply Forall_forall. intros k Hk. apply list_elem_of_In, in_map_iff in Hk as (c & <- & Hin). apply keep_channel_valid; [done|].
    rewrite Forall_forall in Vc. by apply Vc, list_elem_of_In.
  - apply map_disjoint. intros o Hin. by apply Hs in Hin as [_ [_ ?]].
  - apply map_disjoint. intros o Hin. by apply Hs in Hin as [_ [? _]].
Qed.
Lemma keep_web_ok (old w : Web) : web_ok old -> web_ok w -> w_TLS w <> "file" -> web_ok (keep_web old w).
Proof.
  intros (_ & _ & _ & Of & _ & _) (Wa & Wm & Wo & _ & Wb & Wl) Hf. unfold web_ok, keep_web. cbn.
  destruct (String.eqb_spec (w_TLS old) "file") as [E|]; cbn [andb]; [|split_and!; try done].
  destruct (IsLoopbackListen (w_Listen w)) eqn:El; cbn [negb]; split_and!; try done; [by right; right; left|by intros _; apply Of..].
Qed.

(** C21: setup over an existing file keeps what it says.  For every valid old
    configuration, every valid channel set of the machine and every valid login and
    listener: the configuration that is written is valid, so the program reads it back
    without replacing a value; the sections and web keys setup does not ask for are the old
    ones; the channels are those of the set, in order, each with name, pwm, sensor, curve,
    critical and stop of the set and the hysteresis, min_on and (for an unchanged sensor)
    ceiling the old channel of that name and pwm has set, followed by other channels of the
    old file: where the profile is unchanged or was auto, exactly those whose pwm and whose
    name the set leaves free, in their order; after a change of the profile none, since they
    belong to another board.  Names and pwms stay unique, and each channel that stays is
    listed. *)
Theorem setup_keeps old profileName chans (w : Web) :
  config_valid env old -> channels_ok chans -> web_ok w -> w_TLS w <> "file" -> profileName ∈ Profiles ->
  let c := keep_config old profileName chans w in
  config_valid env c /\
  c_Daemon c = (c_Daemon old) <| d_Profile := profileName |> /\ c_Log c = c_Log old /\ c_Alert c = c_Alert old /\
  c_Sensors c = c_Sensors old /\ c_Schedules c = c_Schedules old /\
  w_AllowedHosts (c_Web c) = w_AllowedHosts (c_Web old) /\ w_BehindTLSProxy (c_Web c) = w_BehindTLSProxy (c_Web old) /\
  exists set others, c_Channels c = set ++ others /\
    Forall2 (fun ch k => cc_Name k = cc_Name ch /\ cc_PWM k = cc_PWM ch /\ cc_Sensor k = cc_Sensor ch /\ cc_Curve k = cc_Curve ch /\
      cc_Critical k = cc_Critical ch /\ cc_Stop k = cc_Stop ch /\ carried cc_Hysteresis (fun _ => True) old ch (cc_Hysteresis k) /\
      carried cc_MinOn (fun _ => True) old ch (cc_MinOn k) /\ carried cc_Ceiling (fun o => cc_Sensor o = cc_Sensor ch) old ch (cc_Ceiling k)) chans set /\
    (d_Profile (c_Daemon old) = profileName \/ d_Profile (c_Daemon old) = "auto" ->
      forall o, o ∈ others <-> o ∈ c_Channels old /\ cc_PWM o ∉ map cc_PWM chans /\ cc_Name o ∉ map cc_Name chans) /\
    (d_Profile (c_Daemon old) <> profileName -> d_Profile (c_Daemon old) <> "auto" -> others = []) /\
    others `sublist_of` c_Channels old /\
    forall o, o ∈ others -> KeptChannel (cc_Name o) (cc_PWM o) ∈ kept_lines old profileName chans w.
Proof.
  intros Hv Hc Hw Hf Hp. cbv zeta. pose proof Hv as (Vd & Vw & Vl & Va & Vs & Vc & Vt).
  split; [split_and!; try done; [|by apply keep_web_ok|by apply keep_channels_ok]|].
  { destruct Vd as (? & ? & ? & ? & ? & ? & ? & ? & ? & ?). by repeat (split; [assumption|]). }
  do 7 (split; [done|]). destruct (keep_channels_spec old profileName chans Vc) as (others & E & Eo).
  exists (map (fun c => (keep_channel old c).1) chans), others. split; [cbn; by rewrite E|]. split.
  - apply Forall2_fmap_r, Forall_Forall2_diag, Forall_forall. intros c _. destruct (keep_channel_same old c) as (? & ? & ? & ? & ? & ?).
    destruct (keep_channel_parts old c) as (? & ? & ?). done.
  - assert (Hp' : same_profile old profileName = true <-> d_Profile (c_Daemon old) = profileName \/ d_Profile (c_Daemon old) = "auto").
    { unfold same_profile. by rewrite orb_true_iff, !String.eqb_eq. }
    rewrite <- Hp'. split; [|split; [|split]].
    + intros Hsame o. rewrite Eo. rewrite Hsame. rewrite list_elem_of_filter. unfold stays. tauto.
    + intros H1 H2. rewrite Eo. destruct (same_profile old profileName); [|done]. by destruct (proj1 Hp' eq_refl).
    + rewrite Eo. destruct (same_profile old profileName); [apply sublist_filter|apply sublist_nil_l].
    + intros o Ho. unfold kept_lines. rewrite E. cbn [snd]. repeat (apply elem_of_app; right). apply list_elem_of_In, in_map_iff. exists o. by rewrite <- list_elem_of_In.
Qed.
End Keep.

(** ** A machine *)
Module SetupDemo.
Import PresetStore.Disk DemoEncoder.
(** One hwmon device, k10temp; nothing to drive. *)
#[export] Instance disk_os : Os disk := {|
  os_ReadFile p w := match files w !! p with Some s => inr s | None => inl [EOther] end;
  os_ReadDir p w := if String.eqb p "/sys/class/hwmon" then Some ["hwmon0"] else None;
  os_Exists p w := match files w !! p with Some _ => true | None => false end;
  os_IsDir p w := false;
  os_Overwrite p s := ret (Some [EOther]) |}.
#[export] Instance setup_disk_laws : FilesLaws disk.
Proof.
  split; intros w p; intros; cbn in *.
  - simplify_eq. cbn. rewrite lookup_insert_eq. split; [done|]. intros q Hq. by rewrite lookup_insert_ne.
  - done.
  - destruct (files w !! p) eqn:E; [|done]. simplify_eq. cbn. rewrite lookup_delete_eq. split; [done|]. intros q Hq. by rewrite lookup_delete_ne.
  - destruct (files w !! p) eqn:E; [done|]. by simplify_eq.
Qed.
Definition WriteFile (p b : string) (perm : Z) (w : disk) : option FsErr * disk := (None, mkDisk (<[p := b]> (files w)) (reloads w)).
Definition args (listen : string) (yes : bool) : SetupArgs := mkArgs "/c" listen "" "" "" yes false "monitor".
Definition machine : disk := mkDisk {["/c" := "old"; "/sys/class/hwmon/hwmon0/name" := "k10temp"]} [].
Definition setup (a : SetupArgs) (typed : list string) : End * (Tty * disk) :=
  cmdSetup (Cr := Example_crypto.crypto) "" DecodeWeb Encode WriteFile [] "/sys" "" "today" "now" (replicate 16 171)
    (Some [mkIface 2 true false (Some [None; Some [192; 0; 2; 9]]); mkIface 1 true true (Some [Some [127; 0; 0; 1]])]) [] a (chars (Join typed newline), machine).
Definition seen (r : End * (Tty * disk)) : Z * string * option string * option string :=
  let '(e, (t, w)) := r in (exit_of e, of_chars t, files w !! "/c", files w !! "/c.bak-now").
(** What the program reads from the text, and the backup. *)
Definition read_back (r : Z * string * option string * option string) : Z * string * option (string * string * string * string * nat) * option string :=
  let '(e, t, c, b) := r in
  (e, t, (fun c => let '(cfg, ws, _) := ConfigParse.Parse "" DecodeWeb c in (w_Listen (c_Web cfg), w_Auth (c_Web cfg), w_User (c_Web cfg), w_TLS (c_Web cfg), length ws)) <$> c, b).
Definition typed : list string := ["LAN"; ""; "secret12"; "secret13"; "secret12"; "secret12"; "y"; "rest"].
Example lan_written : read_back (seen (setup (args "" false) typed)) = (0, "rest", Some ("192.0.2.9:8010", "basic", "admin", "auto", 0%nat), Some "old").
Proof. vm_compute. reflexivity. Qed.
Example lan_refused : map (fun r => seen (setup r.1 r.2))
    [(args "lan" true, []); (args "" true, []); (args "host" false, []); (args "lan" false, ["no one"]); (args "lan" false, ["me"; "short"; "short"]);
     (args "lan" false, ["me"; "secret12"; "secret12"; ""])]
  = [(2, "", Some "old", None); (2, "", Some "old", None); (2, "", Some "old", None); (2, "", Some "old", None); (2, "", Some "old", None); (1, "", Some "old", None)].
Proof. vm_compute. reflexivity. Qed.
End SetupDemo.
Import PresetStore.Disk DemoEncoder SetupDemo.
Theorem setup_writes_witness :
  let '(e, (t', w')) := SetupDemo.setup (SetupDemo.args "" false) SetupDemo.typed in
  exit_of e = 0 /\
  setup_done (Cr := Example_crypto.crypto) "" DemoEncoder.DecodeWeb DemoEncoder.Encode [] "/sys" "" "now" (replicate 16 171) (SetupDemo.args "" false) SetupDemo.machine e w'.
Proof.
  pose proof (setup_writes (Cr := Example_crypto.crypto) "" DemoEncoder.DecodeWeb DemoEncoder.Encode SetupDemo.WriteFile [] "/sys" "" "today" "now" (replicate 16 171)
    (Some [mkIface 2 true false (Some [None; Some [192; 0; 2; 9]]); mkIface 1 true true (Some [Some [127; 0; 0; 1]])]) []) as H.
  specialize (H ltac:(by apply (bool_decide_unpack _); vm_compute) ltac:(intros p b perm w q Hq; cbn; by rewrite lookup_insert_ne) ltac:(intros p b perm w w' Hw; injection Hw as <-; cbn; by rewrite lookup_insert_eq)
    (SetupDemo.args "" false) (chars (Join SetupDemo.typed newline)) SetupDemo.machine).
  assert (He : exit_of (SetupDemo.setup (SetupDemo.args "" false) SetupDemo.typed).1 = 0) by by vm_compute.
  unfold SetupDemo.setup in *. destruct (cmdSetup _ _ _ _ _ _ _ _ _ _ _ _ _ _) as [e [t' w']]. by split.
Defined.

(** ** Setting up again *)
Lemma one_sensor s : s <> "" -> Contains s "," = false -> TrimSpace s = s -> sensor_ok s.
Proof.
  intros Hn Hc Ht. exists [s]. split_and!; [done|done|by cbn; unfold MaxSensorParts; lia|apply NoDup_singleton|]. repeat constructor; try done. by exists s.
Qed.
Lemma n5proSpecs_ok : channels_ok n5proSpecs.
Proof.
  split; [|split; repeat constructor; set_solver]. repeat apply Forall_cons_2; [..|constructor]; unfold channel_valid; cbn;
    repeat (split; [first [done|by apply one_sensor|by left|right; by exists 140]|]); by left.
Qed.
(** The old file has the channel of pwm 1 with a hysteresis, one on pwm 4, and one on pwm 5
    under the name the set uses for pwm 2. *)
Definition again_channel (name : string) (pwm hysteresis : Z) : Channel := mkChannel name pwm "k10temp" genericCurve genericCritical "auto" hysteresis 0 0 false.
Definition again_old : Config := Default <| c_Sensors := ["k10temp"] |> <| c_Channels := [again_channel "cpu" 1 2; again_channel "aux" 4 0; again_channel "ssd" 5 0] |>.
Lemma again_valid : config_valid "" again_old.
Proof.
  pose proof (Default_valid "") as (Hd & Hw & Hl & Ha & _ & _ & Ht). refine (conj Hd (conj Hw (conj Hl (conj Ha (conj _ (conj _ Ht)))))).
  - split; [apply NoDup_singleton|split; [by repeat constructor|done]].
  - split; [|split; repeat constructor; set_solver]. repeat constructor; try done; cbn; by apply one_sensor.
Qed.
Example again_ex :
  (map (fun c => (cc_Name c, cc_PWM c, cc_Hysteresis c)) (c_Channels (keep_config again_old "n5pro" n5proSpecs local_web)),
   kept_lines again_old "n5pro" n5proSpecs local_web) =
  ([("cpu", 1, 2); ("ssd", 2, 0); ("hdd", 3, 0); ("aux", 4, 0)],
   [KeptKeys "dashboard" ["sensors"]; KeptParts "cpu" (Some 2) None None; KeptChannel "aux" 4]).
Proof. vm_compute. reflexivity. Qed.
Lemma setup_keeps_witness :
  let c := keep_config again_old "n5pro" n5proSpecs local_web in
  config_valid "" c /\ map cc_Name (c_Channels c) = ["cpu"; "ssd"; "hdd"; "aux"].
Proof.
  cbv zeta. split; [|by vm_compute]. apply (setup_keeps "" again_old "n5pro" n5proSpecs local_web); [apply again_valid|apply n5proSpecs_ok| |done|by right; left].
  split_and!; try done; [by left|by right; left|]. exists "127.0.0.1", "8010", 8010. by vm_compute.
Defined.
