(* ===== verification/Bundle.v ===== *)
(** Files written as a whole (src/internal/fsutil/fsutil.go) and the settings bundle
    (src/cmd/n5-fangov/bundle.go): system calls that may each fail, and a machine that may
    stop after each.

    A temporary file is a path of its own kind: it stands for ".<name>.<random>.tmp" next to
    the file it becomes, a name none of the program's files has. *)
From stdpp Require Import base countable gmap strings list sorting.
From Stdlib Require Import ZArith Lia Ascii.
From S2P Require Import Prelude GoLib GoNet GoPath ConfigTypes ConfigFields ConfigWeb ConfigParse Hwmon WebRedact ConfigFiles PresetStore.
Open Scope Z_scope.

(** ** The file system *)
Inductive Path := Named (p : string) | Temp (p rand : string).
#[export] Instance Path_eq : EqDecision Path.
Proof. solve_decision. Defined.
#[export] Instance Path_countable : Countable Path.
Proof.
  apply (inj_countable' (fun x => match x with Named p => (p, None) | Temp p r => (p, Some r) end)
    (fun y : string * option string => match y.2 with None => Named y.1 | Some r => Temp y.1 r end)). by intros [].
Defined.
(** A file whose content is not synced may be lost or torn when the machine stops. *)
Record file := mkFile { f_data : string; f_mode : Z; f_synced : bool }.
#[export] Instance eta_file : Eta file := fun f => mkFile (f_data f) (f_mode f) (f_synced f).
Abbreviation Tree := (gmap Path file).
(** How a system call ends; a write that fails may have written a part. *)
Inductive Fault := Works | Fails (part : nat).
(** The outcomes to come (then all succeed), the random parts [CreateTemp] tries, and every
    state after a system call: the machine may stop in any of them. *)
Record Disk := mkDisk { dk_files : Tree; dk_faults : list Fault; dk_rands : list string; dk_seen : list Tree }.
#[export] Instance eta_Disk : Eta Disk := fun d => mkDisk (dk_files d) (dk_faults d) (dk_rands d) (dk_seen d).

Definition call (ok : Tree -> Tree) (bad : nat -> Tree -> Tree) : M Disk bool := fun w =>
  let '(f, rest) := match dk_faults w with [] => (Works, []) | f :: rest => (f, rest) end in
  let fs := match f with Works => ok (dk_files w) | Fails n => bad n (dk_files w) end in
  (match f with Works => true | Fails _ => false end, w <| dk_files := fs |> <| dk_faults := rest |> <| dk_seen := dk_seen w ++ [fs] |>).
Definition unchanged (fs : Tree) : Tree := fs.
(** [os.CreateTemp]: a name that is not there, with O_EXCL. *)
Definition os_CreateTemp (p : string) : M Disk (option Path) := fun w =>
  match find (fun r => bool_decide (dk_files w !! Temp p r = None)) (dk_rands w) with
  | None => (None, w)
  | Some r =>
      let '(ok, w) := call (fun fs => <[Temp p r := mkFile "" 384 false]> fs) (fun _ => unchanged) w in
      (if ok then Some (Temp p r) else None, w)
  end.
Definition prefix_of (n : nat) (s : string) : string := of_chars (take n (chars s)).
Definition os_Write (t : Path) (data : string) : M Disk bool :=
  call (alter (fun f => f <| f_data := data |> <| f_synced := false |>) t)
       (fun n => alter (fun f => f <| f_data := prefix_of n data |> <| f_synced := false |>) t).
Definition os_Sync (t : Path) : M Disk bool := call (alter (fun f => f <| f_synced := true |>) t) (fun _ => unchanged).
Definition os_Chmod (t : Path) (perm : Z) : M Disk bool := call (alter (fun f => f <| f_mode := perm |>) t) (fun _ => unchanged).
Definition os_Close : M Disk bool := call unchanged (fun _ => unchanged).
Definition os_Remove (t : Path) : M Disk bool := call (delete t) (fun _ => unchanged).
Definition os_Rename (t : Path) (q : string) : M Disk bool :=
  call (fun fs => match fs !! t with Some f => <[Named q := f]> (delete t fs) | None => fs end) (fun _ => unchanged).
Definition os_MkdirAll : M Disk bool := call unchanged (fun _ => unchanged).

(** ** package fsutil *)
Definition ModeKeep : Z := 0.
(** [fail]: close and remove; [fail_closed]: after a failed close. *)
Definition fail_closed (t : Path) : M Disk (option Path) := os_Remove t ;;; ret None.
Definition fail (t : Path) : M Disk (option Path) := os_Close ;;; fail_closed t.
Definition Stage (path data : string) (perm : Z) : M Disk (option Path) :=
  let* t := os_CreateTemp path in
  match t with
  | None => ret None
  | Some t =>
      let* ok := os_Write t data in
      if negb ok then fail t
      else
        let* ok := os_Sync t in
        if negb ok then fail t
        else
          let* ok := (if perm =? ModeKeep then ret true else os_Chmod t perm) in
          if negb ok then fail t
          else
            let* ok := os_Close in
            if negb ok then fail_closed t else ret (Some t)
  end.
Definition WriteAtomic (path data : string) (perm : Z) : M Disk bool :=
  let* t := Stage path data perm in
  match t with
  | None => ret false
  | Some t =>
      let* ok := os_Rename t path in
      if negb ok then os_Remove t ;;; ret false else ret true
  end.
(** [writeAtomic] of package config. *)
Definition writeAtomic (path data : string) (perm : Z) : M Disk bool :=
  let* ok := os_MkdirAll in
  if negb ok then ret false else WriteAtomic path data perm.

(** ** The bundle *)
Record settingsBundle := mkBundle { sb_Format : Z; sb_Config : string; sb_Presets : gmap string string }.
Definition bundleFormat : Z := 1.
Inductive Problem := PNoHash | PConfig (e : Err) | PPlaceholder | PName (name : string) | PPreset (name : string) (e : Err) | PNoChannel (name : string).
Inductive ImportEnd :=
  | INotBundle | IFormat | IEmpty | IProblems (errs : list Problem)
  | IDir | IStage (name : string) | ISave | IRename (name : string)
  | IDone (restart : bool) (warnings : list Warning) | INotReloaded (warnings : list Warning).

Section Bundle.
Context {Prim : Type} `{!Toml Prim} {U : Url}.
Variable (env : string) (Decode : string -> string + Doc Prim) (Marshal : Config -> string).
Local Abbreviation Parse := (Parse env Decode).
Local Abbreviation ParseChannels := (ParseChannels env Decode).
(** The fields of [fileBundle]: [pin] is the identity and [reload] None where they are nil. *)
Variable (cfgPath presetDir : string) (pin : string -> string) (reload : option (string -> option ReloadErr)).

(** The text [loadConfig] parses, empty for a file that is missing or cannot be read. *)
Definition stored_hash (cur : option string) : string :=
  match cur with None => "" | Some t => w_PasswordHash (c_Web (Parse t).1.1) end.
Definition import_raw (cur : option string) (config : string) : list Problem * string :=
  if Contains config RedactedHash then
    let h := stored_hash cur in
    if String.eqb h "" then ([PNoHash], config) else ([], RestoreHash config h)
  else ([], config).
Definition config_problems (raw : string) : list Problem :=
  match Parse raw with
  | (_, _, Some e) => [PConfig e]
  | (cfg, _, None) => if String.eqb (w_PasswordHash (c_Web cfg)) RedactedHash then [PPlaceholder] else []
  end.
Definition parsePresetRaw (raw : string) : nat * option Err := let '(chans, _, e) := ParseChannels raw in (length chans, e).
Definition preset_problems (e : string * string) : list Problem :=
  let '(name, text) := e in
  if negb (ValidPresetName name) then [PName name]
  else match parsePresetRaw text with
  | (_, Some e) => [PPreset name e]
  | (O, None) => [PNoChannel name]
  | _ => []
  end.
(** The presets in the order of their names. *)
Definition sorted_presets (m : gmap string string) : list (string * string) :=
  omap (fun n => (n,.) <$> m !! n) (sort_strings (elements (dom m))).

Definition unstage (staged : list Path) : M Disk unit := iterM (fun t => os_Remove t ;;; ret tt) staged.
Fixpoint stage_all (l : list (string * string)) (staged : list Path) : M Disk (string + list Path) :=
  match l with
  | [] => ret (inr staged)
  | (name, text) :: l' =>
      let* t := Stage (preset_path presetDir name) text 420 in
      match t with
      | None => unstage staged ;;; ret (inl name)
      | Some t => stage_all l' (staged ++ [t])
      end
  end.
Fixpoint rename_all (l : list (string * Path)) : M Disk (option string) :=
  match l with
  | [] => ret None
  | (name, t) :: l' =>
      let* ok := os_Rename t (preset_path presetDir name) in
      if ok then rename_all l' else ret (Some name)
  end.
Definition read_cfg (w : Disk) : option string := f_data <$> dk_files w !! Named cfgPath.
Definition saveConfig (raw : string) : M Disk bool := fun w =>
  writeAtomic cfgPath raw (save_perm (f_mode <$> dk_files w !! Named cfgPath) (HasSecret env Decode raw)) w.
Definition make_dir (presets : list (string * string)) : M Disk bool := match presets with [] => ret true | _ => os_MkdirAll end.
(** The writing part of an import that was found in order. *)
Definition import_write (raw : string) (warns : list Warning) (presets : list (string * string)) : M Disk ImportEnd :=
  let* dir := make_dir presets in
  if negb dir then ret IDir
  else
    let* staged := stage_all presets [] in
    match staged with
    | inl name => ret (IStage name)
    | inr staged =>
        let raw := pin raw in
        let* ok := saveConfig raw in
        if negb ok then unstage staged ;;; ret ISave
        else
          let* bad := rename_all (zip (map fst presets) staged) in
          match bad with
          | Some name => unstage staged ;;; ret (IRename name)
          | None =>
              ret (match reload with
                   | None => IDone false warns
                   | Some reload => match reload raw with
                                    | None => IDone false warns
                                    | Some RestartRequired => IDone true warns
                                    | Some (ReloadFailed _) => INotReloaded warns
                                    end
                   end)
          end
    end.
(** [doc]: the decoded document, None for a text that is no bundle. *)
Definition Import (doc : option settingsBundle) : M Disk ImportEnd := fun w =>
  match doc with
  | None => (INotBundle, w)
  | Some b =>
      if negb (sb_Format b =? bundleFormat) then (IFormat, w)
      else if String.eqb (TrimSpace (sb_Config b)) "" then (IEmpty, w)
      else
        let '(errs, raw) := import_raw (read_cfg w) (sb_Config b) in
        let presets := sorted_presets (sb_Presets b) in
        match errs ++ config_problems raw ++ concat (map preset_problems presets) with
        | [] => import_write raw (Parse raw).1.2 presets w
        | errs => (IProblems errs, w)
        end
  end.
End Bundle.

(** [Export]: the configuration without the hash, and every preset. *)
Section Exporting.
Context {W : Type} {Fs : Files W} {Prim : Type} `{!Toml Prim} {U : Url}.
Variable (env : string) (Decode : string -> string + Doc Prim) (Marshal : Config -> string) (cfgPath presetDir : string).
Fixpoint export_presets (w : W) (names : list string) (out : gmap string string) : option (gmap string string) :=
  match names with
  | [] => Some out
  | n :: names' => match fs_ReadFile w (preset_path presetDir n) with inl _ => None | inr p => export_presets w names' (<[n := p]> out) end
  end.
Definition Export (w : W) : option settingsBundle :=
  match match fs_ReadFile w cfgPath with inl FsNotExist => Some (Marshal Default) | inl _ => None | inr raw => Some raw end with
  | None => None
  | Some raw => mkBundle bundleFormat (RedactRaw env Decode raw) <$> export_presets w (PresetNames w presetDir) ∅
  end.
End Exporting.

(** ** Facts: system calls *)
Lemma call_run ok bad w b w' : call ok bad w = (b, w') -> dk_rands w' = dk_rands w /\
  ((b = true /\ dk_files w' = ok (dk_files w)) \/ (b = false /\ exists n, dk_files w' = bad n (dk_files w))).
Proof. unfold call. destruct (dk_faults w) as [|[|n] rest]; intros [= <- <-]; split; try done; [by left|by left|right; eauto]. Qed.
(** What holds of every tree so far and is kept by a call holds of every tree after it. *)
Definition safe (P : Tree -> Prop) (w : Disk) : Prop := P (dk_files w) /\ Forall P (dk_seen w).
Lemma call_safe P ok bad w : safe P w -> (P (dk_files w) -> P (ok (dk_files w))) -> (forall n, P (dk_files w) -> P (bad n (dk_files w))) -> safe P (call ok bad w).2.
Proof.
  intros [Hf Hs] Hok Hbad. unfold call. destruct (dk_faults w) as [|[|n] rest]; split; cbn; auto; apply Forall_app; split; auto; repeat constructor; auto.
Qed.
(** Only files under their final name matter. *)
Definition final_only (P : Tree -> Prop) : Prop := forall fs fs', (forall q, fs' !! Named q = fs !! Named q) -> P fs -> P fs'.
Definition is_temp (t : Path) : Prop := match t with Temp _ _ => True | Named _ => False end.
Lemma alter_temp f t (fs : Tree) q : is_temp t -> alter f t fs !! Named q = fs !! Named q.
Proof. intros Ht. destruct t; [done|]. by rewrite lookup_alter_ne. Qed.
Lemma delete_temp t (fs : Tree) q : is_temp t -> delete t fs !! Named q = fs !! Named q.
Proof. intros Ht. destruct t; [done|]. by rewrite lookup_delete_ne. Qed.

Section Quiet.
Variable (P : Tree -> Prop) (HP : final_only P).
Lemma call_quiet ok bad : (forall fs q, ok fs !! Named q = fs !! Named q) -> (forall n fs q, bad n fs !! Named q = fs !! Named q) -> preserves (safe P) (call ok bad).
Proof. intros Hok Hbad w Hw. apply call_safe; [done| |]; [intros Hp; exact (HP _ _ (Hok _) Hp)|intros n Hp; exact (HP _ _ (Hbad n _) Hp)]. Qed.
Lemma CreateTemp_quiet p : preserves (safe P) (os_CreateTemp p).
Proof.
  intros w Hw. unfold os_CreateTemp. destruct (find _ _) as [r|]; [|done].
  assert (H : safe P (call (fun fs => <[Temp p r := mkFile "" 384 false]> fs) (fun _ => unchanged) w).2).
  { apply call_quiet; [|done|done]. intros fs q. by rewrite lookup_insert_ne. }
  by destruct (call _ _ w).
Qed.
Lemma temp_quiet t : is_temp t -> (forall data, preserves (safe P) (os_Write t data)) /\ preserves (safe P) (os_Sync t) /\
  (forall perm, preserves (safe P) (os_Chmod t perm)) /\ preserves (safe P) (os_Remove t).
Proof. intros Ht. split_and!; intros; apply call_quiet; intros; try done; by (apply alter_temp || apply delete_temp). Qed.
Lemma Close_quiet : preserves (safe P) os_Close.
Proof. by apply call_quiet. Qed.
Lemma Mkdir_quiet : preserves (safe P) os_MkdirAll.
Proof. by apply call_quiet. Qed.
Lemma CreateTemp_temp p w t : (os_CreateTemp p w).1 = Some t -> is_temp t.
Proof. unfold os_CreateTemp. destruct (find _ _); [|done]. destruct (call _ _ w) as [[|] w']; [|done]. by intros [= <-]. Qed.
Lemma fail_quiet t : is_temp t -> preserves (safe P) (fail t).
Proof. intros Ht. apply preserves_bind; [apply Close_quiet|]. intros _. apply preserves_bind; [by apply temp_quiet|]. intros _. apply preserves_ret. Qed.
Lemma Stage_quiet path data perm : preserves (safe P) (Stage path data perm).
Proof.
  intros w Hw. unfold Stage, bind at 1. pose proof (CreateTemp_quiet path w Hw) as H. pose proof (CreateTemp_temp path w) as Ht.
  destruct (os_CreateTemp path w) as [[t|] w1]; [|done]. specialize (Ht t eq_refl). cbn in H. revert w1 H.
  assert (Hp : preserves (safe P) (let* ok := os_Write t data in if negb ok then fail t else let* ok := os_Sync t in if negb ok then fail t
    else let* ok := (if perm =? ModeKeep then ret true else os_Chmod t perm) in if negb ok then fail t
    else let* ok := os_Close in if negb ok then fail_closed t else ret (Some t))); [|exact Hp].
  destruct (temp_quiet t Ht) as (H1 & H2 & H3 & H4). pose proof (fail_quiet t Ht) as Hf. pose proof Close_quiet as Hc.
  prs; auto. unfold fail_closed. by prs.
Qed.
End Quiet.

(** What [Stage] does to the tree: one new synced file, or at most a leftover. *)
Definition mode_of (perm : Z) : Z := if perm =? ModeKeep then 384 else perm.
Lemma fail_temps t f fs w : dk_files w = <[t := f]> fs -> fs !! t = None ->
  (fail_closed t w).1 = None /\ (dk_files (fail_closed t w).2 = fs \/ dk_files (fail_closed t w).2 = <[t := f]> fs) /\
  (fail t w).1 = None /\ (dk_files (fail t w).2 = fs \/ dk_files (fail t w).2 = <[t := f]> fs).
Proof.
  intros Hw Hn. unfold fail, fail_closed, bind, ret, os_Close, os_Remove.
  assert (Hr : forall w1, dk_files w1 = <[t := f]> fs -> let '(_, w2) := call (delete t) (fun _ => unchanged) w1 in dk_files w2 = fs \/ dk_files w2 = <[t := f]> fs).
  { intros w1 H1. destruct (call _ _ w1) as [b w2] eqn:E. apply call_run in E as (_ & [[_ ->]|[_ [n ->]]]); rewrite H1; [left|by right].
    by rewrite delete_insert_id. }
  pose proof (Hr w Hw) as H1. destruct (call unchanged _ w) as [b w1] eqn:E. apply call_run in E as (_ & E).
  assert (Hw1 : dk_files w1 = <[t := f]> fs) by (destruct E as [[_ ->]|[_ [n ->]]]; done).
  pose proof (Hr w1 Hw1) as H2. destruct (call _ _ w) as [? ?], (call _ _ w1) as [? ?]. done.
Qed.
Lemma Stage_temps path data perm w : match Stage path data perm w with
  | (Some t, w') => is_temp t /\ dk_files w !! t = None /\ dk_files w' = <[t := mkFile data (mode_of perm) true]> (dk_files w)
  | (None, w') => dk_files w' = dk_files w \/ exists t f, is_temp t /\ dk_files w !! t = None /\ dk_files w' = <[t := f]> (dk_files w)
  end.
Proof.
  unfold Stage, bind, os_CreateTemp. destruct (find _ _) as [r|] eqn:Ef; [|by left]. apply find_some in Ef as [_ Hn%bool_decide_eq_true].
  set (t := Temp path r) in *. set (fs := dk_files w) in *.
  assert (Hbad : forall f w1, dk_files w1 = <[t := f]> fs -> match fail t w1 with
    | (Some t, w') => is_temp t /\ fs !! t = None /\ dk_files w' = <[t := mkFile data (mode_of perm) true]> fs
    | (None, w') => dk_files w' = fs \/ exists t f, is_temp t /\ fs !! t = None /\ dk_files w' = <[t := f]> fs end).
  { intros f w1 H1. destruct (fail_temps t f fs w1 H1 Hn) as (_ & _ & E1 & E2). destruct (fail t w1) as [o w2]. cbn in E1, E2. subst o.
    destruct E2 as [E2|E2]; [by left|right; by exists t, f]. }
  destruct (call _ _ w) as [[|] w1] eqn:E1; apply call_run in E1 as (_ & [[E F1]|[E [n F1]]]); try done; [|by left]. cbn [fst].
  destruct (os_Write t data w1) as [[|] w2] eqn:E2; apply call_run in E2 as (_ & [[? F2]|[? [n F2]]]); try done; rewrite F1, alter_insert_eq in F2; cbn [negb];
    [|by eapply Hbad].
  destruct (os_Sync t w2) as [[|] w3] eqn:E3; apply call_run in E3 as (_ & [[? F3]|[? [n F3]]]); try done; unfold unchanged in F3; rewrite F2 in F3;
    [rewrite alter_insert_eq in F3|]; cbn [negb]; [|by eapply Hbad].
  assert (H4 : let '(ok, w4) := (if perm =? ModeKeep then ret true else os_Chmod t perm) w3 in
    exists m, dk_files w4 = <[t := mkFile data m true]> fs /\ (ok = true -> m = mode_of perm)).
  { unfold mode_of. destruct (perm =? ModeKeep); [by exists 384|]. destruct (os_Chmod t perm w3) as [b w4] eqn:E4.
    apply call_run in E4 as (_ & [[-> F4]|[-> [n F4]]]); rewrite F4; unfold unchanged; rewrite F3; [rewrite alter_insert_eq; by exists perm|by exists 384]. }
  destruct ((if perm =? ModeKeep then ret true else os_Chmod t perm) w3) as [[|] w4]; destruct H4 as (m & F4 & Hm); cbn [negb]; [|by eapply Hbad].
  rewrite (Hm eq_refl) in F4. destruct (os_Close w4) as [[|] w5] eqn:E5; apply call_run in E5 as (_ & [[? F5]|[? [k F5]]]); try done; unfold unchanged in F5; rewrite F4 in F5; cbn [negb].
  - done.
  - destruct (fail_temps t _ fs w5 F5 Hn) as (G1 & G2 & _). destruct (fail_closed t w5) as [o w6]. cbn in G1, G2. subst o.
    destruct G2 as [G2|G2]; [by left|right; by eexists t, _].
Qed.

Lemma Rename_temps t q w f : dk_files w !! t = Some f -> let '(ok, w') := os_Rename t q w in
  if ok then dk_files w' = <[Named q := f]> (delete t (dk_files w)) else dk_files w' = dk_files w.
Proof.
  intros Hf. destruct (os_Rename t q w) as [[|] w'] eqn:E; apply call_run in E as (_ & [[? F]|[? [n F]]]); try done. by rewrite Hf in F.
Qed.
Lemma Rename_safe P t q w f : final_only P -> is_temp t -> dk_files w !! t = Some f -> P (<[Named q := f]> (dk_files w)) ->
  safe P w -> safe P (os_Rename t q w).2.
Proof.
  intros HP Ht Hf Hq Hw. apply call_safe; [done| |done]. intros _. rewrite Hf. eapply HP; [|exact Hq]. intros x.
  destruct (decide (x = q)) as [->|Hne]; [by rewrite !lookup_insert_eq|]. rewrite !lookup_insert_ne by congruence. by apply delete_temp.
Qed.
Lemma WriteAtomic_safe P path data perm w : final_only P -> P (<[Named path := mkFile data (mode_of perm) true]> (dk_files w)) ->
  safe P w -> safe P (WriteAtomic path data perm w).2.
Proof.
  intros HP Hq Hw. unfold WriteAtomic, bind at 1. pose proof (Stage_quiet P HP path data perm w Hw) as H1. pose proof (Stage_temps path data perm w) as H2.
  destruct (Stage path data perm w) as [[t|] w1]; [|done]. cbn [snd] in H1. destruct H2 as (Ht & Hn & F).
  assert (H3 : safe P (os_Rename t path w1).2).
  { eapply Rename_safe; [done|done|by rewrite F, lookup_insert_eq| |done]. eapply HP; [|exact Hq]. intros x.
    destruct (decide (x = path)) as [->|Hne]; [by rewrite !lookup_insert_eq|]. rewrite !lookup_insert_ne by congruence. rewrite F.
    destruct t; [done|]. by rewrite lookup_insert_ne. }
  unfold bind at 1. destruct (os_Rename t path w1) as [[|] w2]; [done|]. cbn [negb]. apply (preserves_bind (safe P)); [by apply temp_quiet| |done].
  intros b. apply preserves_ret.
Qed.
(** A leftover is a temporary file that was not there. *)
Definition leftover (fs0 fs : Tree) : Prop := fs = fs0 \/ exists t f, is_temp t /\ fs0 !! t = None /\ fs = <[t := f]> fs0.
Lemma WriteAtomic_temps path data perm w : let '(ok, w') := WriteAtomic path data perm w in
  if ok then dk_files w' = <[Named path := mkFile data (mode_of perm) true]> (dk_files w) else leftover (dk_files w) (dk_files w').
Proof.
  unfold WriteAtomic, bind at 1. pose proof (Stage_temps path data perm w) as H2. destruct (Stage path data perm w) as [[t|] w1]; [|done].
  destruct H2 as (Ht & Hn & F). assert (Hf : dk_files w1 !! t = Some (mkFile data (mode_of perm) true)) by (by rewrite F, lookup_insert_eq).
  unfold bind at 1. pose proof (Rename_temps t path w1 _ Hf) as H4. destruct (os_Rename t path w1) as [[|] w2]; cbn [negb]; [by unfold ret; rewrite H4, F, delete_insert_id|].
  unfold bind, ret. destruct (os_Remove t w2) as [b w3] eqn:E. apply call_run in E as (_ & [[_ G]|[_ [n G]]]); rewrite H4, F in G.
  - left. by rewrite G, delete_insert_id.
  - right. by eexists t, _.
Qed.

(** ** A file is replaced as a whole *)
(** The old file or the new one is under [path], and every other final name is as it was. *)
Definition old_or_new (fs0 : Tree) (path : string) (f : file) (fs : Tree) : Prop :=
  (fs !! Named path = fs0 !! Named path \/ fs !! Named path = Some f) /\ forall q, q <> path -> fs !! Named q = fs0 !! Named q.
Lemma old_or_new_final fs0 path f : final_only (old_or_new fs0 path f).
Proof. intros fs fs' H [H1 H2]. split; [by rewrite H|]. intros q Hq. rewrite H. auto. Qed.
Definition from_now (w : Disk) : Disk := w <| dk_seen := [] |>.

(** C10: a file is replaced as a whole or not at all.  Whatever the system calls of
    WriteAtomic answer - a part of the text written, a failing sync, chmod, close, rename or
    even remove - and wherever the machine stops in between: the file has its old content or
    the new one, complete and synced, with the mode asked for; and no other file changes.
    Without an error it is the new content and nothing else is left behind; with an error
    it is the old one, and at most one temporary file is left. *)
Theorem write_atomic (path data : string) (perm : Z) (w : Disk) (fs0 := dk_files w) (new := mkFile data (mode_of perm) true) :
  let '(ok, w') := WriteAtomic path data perm (from_now w) in
  Forall (old_or_new fs0 path new) (dk_seen w') /\
  if ok then dk_files w' = <[Named path := new]> fs0 else leftover fs0 (dk_files w').
Proof.
  pose proof (WriteAtomic_safe (old_or_new fs0 path new) path data perm (from_now w) (old_or_new_final _ _ _)) as H.
  pose proof (WriteAtomic_temps path data perm (from_now w)) as Ht. destruct (WriteAtomic path data perm (from_now w)) as [ok w']. split; [|done].
  apply H; [|by split; [split; [by left|done]|constructor]]. split; [right; by rewrite lookup_insert_eq|]. intros q Hq. by rewrite lookup_insert_ne by congruence.
Qed.

(** ** An import *)
(** Files written in order. *)
Definition put_file (fs : Tree) (e : string * file) : Tree := <[Named e.1 := e.2]> fs.
Definition put (l : list (string * file)) (fs : Tree) : Tree := fold_left put_file l fs.
Definition same_final (fs fs' : Tree) : Prop := forall q, fs' !! Named q = fs !! Named q.
Lemma put_final l fs fs' : same_final fs fs' -> same_final (put l fs) (put l fs').
Proof.
  revert fs fs'. induction l as [|[q f] l IH]; intros fs fs' H; [done|]. apply IH. intros x. unfold put_file. cbn.
  destruct (decide (x = q)) as [->|Hne]; [by rewrite !lookup_insert_eq|]. by rewrite !lookup_insert_ne by congruence.
Qed.
Lemma put_snoc l e fs : put (l ++ [e]) fs = put_file (put l fs) e.
Proof. unfold put. by rewrite fold_left_app. Qed.
(** A tree in which some first writes of a list are done, and no other. *)
Definition prefix_done (writes : list (string * file)) (fs0 fs : Tree) : Prop := exists l, l `prefix_of` writes /\ same_final (put l fs0) fs.
Lemma prefix_done_final writes fs0 : final_only (prefix_done writes fs0).
Proof. intros fs fs' H (l & Hl & Hs). exists l. split; [done|]. intros q. by rewrite H. Qed.

Section Import_facts.
Context {Prim : Type} `{!Toml Prim} {U : Url}.
Variable (env : string) (Decode : string -> string + Doc Prim).
Variable (cfgPath presetDir : string) (pin : string -> string) (reload : option (string -> option ReloadErr)).
Local Abbreviation Parse := (ConfigParse.Parse env Decode).

(** A staged preset: a temporary file with the whole text. *)
Definition preset_file (text : string) : file := mkFile text 420 true.
Definition staged_in (fs : Tree) (e : string * string) (t : Path) : Prop := is_temp t /\ fs !! t = Some (preset_file e.2).
Lemma unstage_quiet P staged : final_only P -> Forall is_temp staged -> preserves (safe P) (unstage staged).
Proof.
  intros HP Ht. unfold unstage. induction Ht as [|t l Ht _ IH]; cbn [iterM]; [apply preserves_ret|]. apply preserves_bind; [|by intros _].
  apply preserves_bind; [by apply temp_quiet|]. intros _. apply preserves_ret.
Qed.
Lemma stage_all_spec P l staged l0 w : final_only P -> safe P w -> Forall2 (staged_in (dk_files w)) l0 staged -> NoDup staged ->
  let '(r, w') := stage_all presetDir l staged w in safe P w' /\
  match r with inr s => Forall2 (staged_in (dk_files w')) (l0 ++ l) s /\ NoDup s | inl _ => True end.
Proof.
  intros HP. revert staged l0 w. induction l as [|[name text] l IH]; intros staged l0 w Hw Hs Hn; cbn [stage_all]; [by rewrite app_nil_r|].
  unfold bind at 1. pose proof (Stage_quiet P HP (preset_path presetDir name) text 420 w Hw) as H1.
  pose proof (Stage_temps (preset_path presetDir name) text 420 w) as H2. destruct (Stage _ _ _ w) as [[t|] w1]; cbn [snd] in H1.
  - destruct H2 as (Ht & Hnew & F). replace (l0 ++ (name, text) :: l) with ((l0 ++ [(name, text)]) ++ l) by (by rewrite <- app_assoc). apply IH; [done| |].
    + apply Forall2_app.
      * eapply Forall2_impl; [exact Hs|]. intros e t' [Ht' Hl]. split; [done|]. rewrite F, lookup_insert_ne; [done|]. intros <-. by rewrite Hnew in Hl.
      * constructor; [|constructor]. split; [done|]. by rewrite F, lookup_insert_eq.
    + apply NoDup_app. split; [done|]. split; [|by apply NoDup_singleton]. intros t' Hin ->%list_elem_of_singleton.
      apply (Forall2_Forall_r _ (fun t => dk_files w !! t <> None)) in Hs.
      * rewrite Forall_forall in Hs. by apply (Hs t).
      * apply Forall_forall. intros e _ t' [_ ->]. done.
  - assert (Ht : Forall is_temp staged).
    { apply (Forall2_Forall_r _ is_temp) in Hs; [done|]. apply Forall_forall. by intros e _ t' [? _]. }
    unfold bind. pose proof (unstage_quiet P staged HP Ht w1 H1) as H3. by destruct (unstage staged w1).
Qed.

(** A preset as a write. *)
Definition preset_write (e : string * string) : string * file := (preset_path presetDir e.1, preset_file e.2).
Lemma rename_all_spec writes fs0 l ts d w : Forall2 (staged_in (dk_files w)) l ts -> NoDup ts -> writes = d ++ map preset_write l ->
  same_final (put d fs0) (dk_files w) -> safe (prefix_done writes fs0) w ->
  let '(r, w') := rename_all presetDir (zip (map fst l) ts) w in safe (prefix_done writes fs0) w' /\
  exists l1 l2, l = l1 ++ l2 /\ same_final (put (d ++ map preset_write l1) fs0) (dk_files w') /\
    match r with None => l2 = [] | Some n => exists t l', l2 = (n, t) :: l' end.
Proof.
  intros Hs. revert d w Hs. induction l as [|[name text] l IH] in ts |- *; intros d w Hs Hn Hw Hd Hsafe.
  { inversion Hs; subst. split; [done|]. exists [], []. cbn [map]. by rewrite (app_nil_r d). }
  inversion Hs as [|? t ? ts' [Ht Hf] Hs']; subst ts. apply NoDup_cons in Hn as [Hnt Hn]. subst writes. cbn [map zip zip_with rename_all fst].
  set (P := prefix_done _ fs0) in *. pose proof (prefix_done_final (d ++ map preset_write ((name, text) :: l)) fs0) as HP. fold P in HP.
  assert (Hq : same_final (put (d ++ [preset_write (name, text)]) fs0) (<[Named (preset_path presetDir name) := preset_file text]> (dk_files w))).
  { rewrite put_snoc. unfold put_file. cbn. intros q. destruct (decide (q = preset_path presetDir name)) as [->|Hne]; [by rewrite !lookup_insert_eq|].
    rewrite !lookup_insert_ne by congruence. apply Hd. }
  unfold bind. pose proof (Rename_safe P t (preset_path presetDir name) w (preset_file text) HP Ht Hf) as H1.
  pose proof (Rename_temps t (preset_path presetDir name) w (preset_file text) Hf) as H2.
  assert (H3 : safe P (os_Rename t (preset_path presetDir name) w).2).
  { apply H1; [|done]. exists (d ++ [preset_write (name, text)]). split; [|done]. exists (map preset_write l). by rewrite <- app_assoc. }
  destruct (os_Rename t (preset_path presetDir name) w) as [[|] w1]; cbn [snd] in H3.
  - assert (Hs1 : Forall2 (staged_in (dk_files w1)) l ts').
    { apply Forall2_same_length_lookup. apply Forall2_same_length_lookup in Hs' as [Hl Hx]. split; [done|]. intros i e t' He Ht'.
      destruct (Hx i e t' He Ht') as [Htmp Hl']. split; [done|]. rewrite H2. destruct t'; [done|]. rewrite lookup_insert_ne by done.
      rewrite lookup_delete_ne; [done|]. intros ->. apply Hnt. by apply list_elem_of_lookup_2 in Ht'. }
    specialize (IH ts' (d ++ [preset_write (name, text)]) w1 Hs1 Hn). rewrite <- app_assoc in IH.
    specialize (IH eq_refl). destruct (rename_all presetDir (zip (map fst l) ts') w1) as [r w2].
    destruct IH as (Hsf & l1 & l2 & -> & Hf2 & Hr); [|done|].
    { intros q. rewrite <- (Hq q), H2. destruct (decide (q = preset_path presetDir name)) as [->|Hne]; [by rewrite !lookup_insert_eq|].
      rewrite !lookup_insert_ne by congruence. by apply delete_temp. }
    split; [done|]. exists ((name, text) :: l1), l2. split; [done|]. rewrite <- app_assoc in Hf2. done.
  - unfold ret. split; [done|]. exists [], ((name, text) :: l). cbn [map]. rewrite (app_nil_r d). split; [done|]. split; [|eauto]. intros q. rewrite H2. apply Hd.
Qed.
Lemma sorted_presets_elem (m : gmap string string) n t : (n, t) ∈ sorted_presets m <-> m !! n = Some t.
Proof.
  unfold sorted_presets. rewrite list_elem_of_omap. split.
  - intros (n' & _ & H). destruct (m !! n') as [t'|] eqn:E; [|done]. cbn in H. by injection H as <- <-.
  - intros H. exists n. rewrite H. split; [|done]. unfold sort_strings. rewrite merge_sort_Permutation, elem_of_elements. by apply elem_of_dom_2 in H.
Qed.
Lemma preset_problems_none e : preset_problems env Decode e = [] -> ValidPresetName e.1 = true /\ exists c cs ws, ParseChannels env Decode e.2 = (c :: cs, ws, None).
Proof.
  destruct e as [n t]. unfold preset_problems, parsePresetRaw. cbn [fst snd]. destruct (ValidPresetName n); [|done]. cbn [negb].
  destruct (ParseChannels env Decode t) as [[[|c cs] ws] [e|]]; cbn; intros Hx; try discriminate Hx. split; [done|]. by exists c, cs, ws.
Qed.
Lemma concat_nil {A B} (f : A -> list B) l : concat (map f l) = [] -> Forall (fun a => f a = []) l.
Proof. induction l as [|a l IH]; [constructor|]. cbn. intros H. apply app_eq_nil in H as [? ?]. constructor; auto. Qed.

Lemma same_final_only fs0 : final_only (same_final fs0).
Proof. intros fs fs' H Hs q. by rewrite H. Qed.
Lemma safe_mono (P Q : Tree -> Prop) w : (forall fs, P fs -> Q fs) -> safe P w -> safe Q w.
Proof. intros H [H1 H2]. split; [auto|]. eapply Forall_impl; [exact H2|auto]. Qed.
Lemma leftover_final fs0 fs : leftover fs0 fs -> same_final fs0 fs.
Proof. intros [->|(t & f & Ht & _ & ->)] q; [done|]. destruct t; [done|]. by rewrite lookup_insert_ne. Qed.
Lemma writeAtomic_spec P path data perm w : final_only P -> P (<[Named path := mkFile data (mode_of perm) true]> (dk_files w)) -> safe P w ->
  let '(ok, w') := writeAtomic path data perm w in safe P w' /\
  if ok then dk_files w' = <[Named path := mkFile data (mode_of perm) true]> (dk_files w) else leftover (dk_files w) (dk_files w').
Proof.
  intros HP Hq Hw. unfold writeAtomic, bind. pose proof (Mkdir_quiet P HP w Hw) as Hm.
  destruct (os_MkdirAll w) as [ok w1] eqn:E. apply call_run in E as (_ & E).
  assert (F : dk_files w1 = dk_files w) by (destruct E as [[_ ->]|[_ [n ->]]]; done).
  destruct ok; cbn [negb]; [|split; [done|by left]]. pose proof (WriteAtomic_safe P path data perm w1 HP) as H1. rewrite F in H1. specialize (H1 Hq Hm).
  pose proof (WriteAtomic_temps path data perm w1) as H2. destruct (WriteAtomic path data perm w1) as [b w2]. by rewrite F in H2.
Qed.
(** What an import that found no problem does. *)
Definition imported (raw : string) (presets : list (string * string)) (fs0 : Tree) (e : ImportEnd) (w' : Disk) : Prop :=
  match e with
  | IDir | IStage _ => Forall (same_final fs0) (dk_seen w') /\ same_final fs0 (dk_files w')
  | _ => exists perm (config := (cfgPath, mkFile (pin raw) perm true)),
      Forall (prefix_done (config :: map preset_write presets) fs0) (dk_seen w') /\
      match e with
      | ISave => same_final fs0 (dk_files w')
      | IRename n => exists l1 t l2, presets = l1 ++ (n, t) :: l2 /\ same_final (put (config :: map preset_write l1) fs0) (dk_files w')
      | IDone _ _ | INotReloaded _ => same_final (put (config :: map preset_write presets) fs0) (dk_files w')
      | _ => False
      end
  end.
Lemma unstage_final staged w : Forall is_temp staged -> same_final (dk_files w) (dk_files (unstage staged w).2).
Proof.
  intros Ht. revert w. unfold unstage. induction Ht as [|t l Ht _ IH]; intros w; [done|]. cbn [iterM]. unfold bind, ret.
  destruct (os_Remove t w) as [b w1] eqn:E. intros q. refine (eq_trans (IH w1 q) _). apply call_run in E as (_ & [[_ ->]|[_ [n ->]]]); [by apply delete_temp|done].
Qed.
Lemma unstage_safe P staged w : final_only P -> Forall is_temp staged -> safe P w -> safe P (unstage staged w).2.
Proof. intros HP Ht Hw. by apply unstage_quiet. Qed.
Lemma import_write_spec raw warns presets w : let '(e, w') := import_write env Decode cfgPath presetDir pin reload raw warns presets (from_now w) in
  imported raw presets (dk_files w) e w'.
Proof.
  set (fs0 := dk_files w). pose proof (same_final_only fs0) as H0. assert (Hw : safe (same_final fs0) (from_now w)) by (split; [done|constructor]).
  unfold import_write, bind at 1.
  assert (Hd : safe (same_final fs0) (make_dir presets (from_now w)).2) by (destruct presets; [done|]; by apply Mkdir_quiet).
  destruct (make_dir presets (from_now w)) as [[|] w1]; cbn [negb snd] in *; [|by destruct Hd].
  unfold bind at 1. pose proof (stage_all_spec (same_final fs0) presets [] [] w1 H0 Hd) as Hs.
  specialize (Hs ltac:(constructor) ltac:(constructor)). destruct (stage_all presetDir presets [] w1) as [[name|staged] w2]; destruct Hs as [Hw2 Hst]; [by destruct Hw2|].
  destruct Hst as [Hst Hnd]. cbn [app] in Hst. cbv zeta.
  assert (Htmp : Forall is_temp staged) by (apply (Forall2_Forall_r _ is_temp) in Hst; [done|]; apply Forall_forall; by intros e _ t' [? _]).
  set (perm := save_perm (f_mode <$> dk_files w2 !! Named cfgPath) (HasSecret env Decode (pin raw))).
  set (config := (cfgPath, mkFile (pin raw) (mode_of perm) true)). set (writes := config :: map preset_write presets).
  pose proof (prefix_done_final writes fs0) as HP. assert (Hp2 : safe (prefix_done writes fs0) w2).
  { eapply safe_mono; [|exact Hw2]. intros fs Hf. exists []. split; [by exists writes|done]. }
  assert (Hc : same_final (put [config] fs0) (<[Named cfgPath := mkFile (pin raw) (mode_of perm) true]> (dk_files w2))).
  { intros q. unfold put, put_file. cbn. destruct (decide (q = cfgPath)) as [->|Hne]; [by rewrite !lookup_insert_eq|]. rewrite !lookup_insert_ne by congruence. apply Hw2. }
  unfold bind at 1, saveConfig. fold perm. pose proof (writeAtomic_spec (prefix_done writes fs0) cfgPath (pin raw) perm w2 HP) as Hsv.
  destruct (writeAtomic cfgPath (pin raw) perm w2) as [ok w3].
  destruct Hsv as [Hw3 Hf3]; [exists [config]; split; [by exists (map preset_write presets)|done]|done|].
  destruct ok; cbn [negb].
  2:{ unfold bind, ret. pose proof (unstage_safe _ staged w3 HP Htmp Hw3) as H4. pose proof (unstage_final staged w3 Htmp) as H5.
      destruct (unstage staged w3) as [[] w4]. cbn [snd] in *. exists (mode_of perm). split; [apply H4|]. intros q. rewrite (H5 q), (leftover_final _ _ Hf3 q). apply Hw2. }
  unfold bind at 1. assert (Hst3 : Forall2 (staged_in (dk_files w3)) presets staged).
  { eapply Forall2_impl; [exact Hst|]. intros e t [Ht Hl]. split; [done|]. rewrite Hf3. destruct t; [done|]. by rewrite lookup_insert_ne. }
  pose proof (rename_all_spec writes fs0 presets staged [config] w3 Hst3 Hnd eq_refl) as Hr.
  destruct (rename_all presetDir (zip (map fst presets) staged) w3) as [r w4].
  destruct Hr as (Hw4 & l1 & l2 & El & Hf4 & Hr); [intros q; rewrite Hf3; apply Hc|done|]. destruct r as [n|].
  - destruct Hr as (t & l' & ->). unfold bind, ret. pose proof (unstage_safe _ staged w4 HP Htmp Hw4) as H5. pose proof (unstage_final staged w4 Htmp) as H6.
    destruct (unstage staged w4) as [[] w5]. cbn [snd] in *. exists (mode_of perm). split; [apply H5|]. exists l1, t, l'. split; [done|]. intros q. rewrite (H6 q). apply Hf4.
  - subst l2. rewrite app_nil_r in El. subst l1. unfold ret. assert (Hall : imported raw presets fs0 (IDone false warns) w4) by (exists (mode_of perm); split; [apply Hw4|exact Hf4]).
    destruct reload as [f|]; [|done]. by destruct (f (pin raw)) as [[]|].
Qed.
(** C11: an import takes effect file by file, each as a whole, or not at all.  Whatever the
    document holds, whatever the system calls answer and wherever the machine stops: a
    document that is no bundle, of another format, with an empty configuration or with any
    problem touches nothing.  Otherwise the text that is written parses and never has the
    placeholder as its hash (it is the one sent, with the hash stored here put back), and
    each preset has a valid name and at least one channel; and at every moment the files are
    the old ones with the first of these writes done, complete and synced: the
    configuration, then each preset in the order of the names.  None is done when staging
    or saving the configuration fails, all are when the import succeeds (or only the reload
    failed), and a failed rename names the first preset that was not replaced. *)
Theorem import_whole (doc : option settingsBundle) (w : Disk) :
  let '(e, w') := Import env Decode cfgPath presetDir pin reload doc (from_now w) in
  (w' = from_now w /\ match e with INotBundle | IFormat | IEmpty | IProblems _ => True | _ => False end) \/
  exists b raw cfg ws presets (h := stored_hash env Decode (read_cfg cfgPath w)), doc = Some b /\
    (forall n t, (n, t) ∈ presets <-> sb_Presets b !! n = Some t) /\
    (if Contains (sb_Config b) RedactedHash then h <> "" /\ raw = RestoreHash (sb_Config b) h else raw = sb_Config b) /\
    Parse raw = (cfg, ws, None) /\ w_PasswordHash (c_Web cfg) <> RedactedHash /\
    Forall (fun e => ValidPresetName e.1 = true /\ exists c cs ws, ParseChannels env Decode e.2 = (c :: cs, ws, None)) presets /\
    imported raw presets (dk_files w) e w'.
Proof.
  unfold Import. destruct doc as [b|]; [|by left]. destruct (sb_Format b =? bundleFormat); [|by left]. cbn [negb].
  destruct (String.eqb (TrimSpace (sb_Config b)) ""); [by left|]. change (read_cfg cfgPath (from_now w)) with (read_cfg cfgPath w).
  destruct (import_raw _ _ _ _) as [errs raw] eqn:Er. set (presets := sorted_presets (sb_Presets b)).
  destruct (errs ++ _) as [|x l] eqn:Ep; [|by left]. apply app_eq_nil in Ep as [-> [Hc Hp]%app_eq_nil]. apply concat_nil in Hp.
  pose proof (import_write_spec raw (Parse raw).1.2 presets w) as Hi. destruct (import_write _ _ _ _ _ _ _ _ _ _) as [e w']. right.
  unfold config_problems in Hc. destruct (Parse raw) as [[cfg ws] [er|]] eqn:Epr; [done|]. exists b, raw, cfg, ws, presets. cbv zeta.
  split; [done|]. split; [apply sorted_presets_elem|]. split.
  { unfold import_raw in Er. destruct (Contains _ _); [|by injection Er]. cbv zeta in Er.
    destruct (String.eqb_spec (stored_hash env Decode (read_cfg cfgPath w)) ""); [done|]. by injection Er. }
  split; [done|]. split; [by destruct (String.eqb_spec (w_PasswordHash (c_Web cfg)) RedactedHash)|]. split; [|done].
  eapply Forall_impl; [exact Hp|]. intros x. apply preset_problems_none.
Qed.
End Import_facts.

(** ** A machine that fails *)
Module BundleDemo.
Definition one_text : string := String.append "one" newline.
Definition start (faults : list Fault) : Disk :=
  mkDisk {[Named "/c" := mkFile "old" 420 true; Named "/p/a.toml" := mkFile "mine" 420 true]} faults ["1"; "2"] [].
Definition bundle (presets : list (string * string)) : settingsBundle := mkBundle 1 one_text (list_to_map presets).
Definition run (presets : list (string * string)) (faults : list Fault) : ImportEnd * Disk :=
  Import "" PresetStore.Disk.Decode "/c" "/p" (fun raw => raw) None (Some (bundle presets)) (start faults).
Definition data_at (w : Disk) : list (option string) := map (fun q => f_data <$> dk_files w !! q) [Named "/c"; Named "/p/a.toml"; Named "/p/b.toml"].
Definition seen (r : ImportEnd * Disk) : option string * list (option string) * nat :=
  (match r.1 with IRename n => Some n | IStage n => Some n | _ => None end, data_at r.2, length (map_to_list (dk_files r.2))).
(** The second rename fails: the configuration and the first preset are new, nothing is left. *)
Example rename_fails : seen (run [("b", one_text); ("a", one_text)] (replicate 19 Works ++ [Fails 0]))
  = (Some "b", [Some one_text; Some one_text; None], 2%nat).
Proof. vm_compute. reflexivity. Qed.
(** Writing the second preset fails half way: nothing has changed, nothing is left. *)
Example stage_fails : seen (run [("b", one_text); ("a", one_text)] (replicate 7 Works ++ [Fails 2]))
  = (Some "b", [Some "old"; Some "mine"; None], 2%nat).
Proof. vm_compute. reflexivity. Qed.
Example no_fault : let r := run [("b", one_text)] [] in
  (match r.1 with IDone restart _ => Some restart | _ => None end, data_at r.2) = (Some false, [Some one_text; Some "mine"; Some one_text]).
Proof. vm_compute. reflexivity. Qed.
Example problems : (run [("B", one_text); ("c", ""); ("d", "x")] []).1 =
  IProblems [PName "B"; PNoChannel "c"; PPreset "d" (match ParseChannels "" PresetStore.Disk.Decode "x" with (_, _, Some e) => e | _ => ("", []) end)].
Proof. vm_compute. reflexivity. Qed.
End BundleDemo.
