(* ===== verification/Panel.v ===== *)
(** Delivering alerts (src/internal/alert/alert.go, webhook.go), the notification templates
    (template.go), the alert manager (src/cmd/n5-fangov/wiring_alerts.go) and the endpoints of
    the alerts panel (src/internal/web/alerts_api.go).

    What the outside world does with a command or a request is the class [Transport]; what
    [url.Parse] makes of an address is the argument [urlBare].  The templates are written
    on the failing system calls of [Bundle].  Replacements that only tests set ([Perl], [Bin],
    [Client]) are left out. *)
From stdpp Require Import base gmap strings list.
From Stdlib Require Import ZArith Lia Ascii.
From S2P Require Import Prelude GoLib GoNet GoPath ConfigTypes ConfigFields ConfigWeb ConfigParse WebGuard WebAccount ConfigFiles Stores WebConfig Bundle Alert.
Open Scope Z_scope.

(** ** Delivery *)
Definition Template : string := "n5-fangov".
Definition Timeout : Z := 30 * Second.
Definition WaitDelay : Z := 5 * Second.
(** A child process: the variables added to the environment, its input, how long it may run
    and how long its pipes are waited for afterwards. *)
Record Command := mkCommand {
  cm_Name : string; cm_Args : list string; cm_Env : list (string * string); cm_Stdin : string; cm_Limit : Z; cm_WaitDelay : Z }.
Record webhookPayload := mkPayload {
  wp_Type : string; wp_Kind : string; wp_Severity : string; wp_Hostname : string; wp_Title : string; wp_Message : string; wp_TS : Z }.
Inductive PostBody := PText (text : string) | PJson (p : webhookPayload).
Record Post := mkPost { po_URL : string; po_Header : list (string * string); po_Body : PostBody; po_Limit : Z }.
(** The journal, [CombinedOutput] (the error and the output), [NewRequestWithContext] (the
    text of its error), [client.Do] without redirects (the text of the error, or the status
    code and line), the clock. *)
Class Transport (W : Type) := {
  tr_Printf : string -> W -> W;
  tr_Run : Command -> M W (option string * string);
  tr_NewRequest : string -> option string;
  tr_Do : Post -> M W (string + Z * string);
  tr_Unix : W -> Z;
  (** "2006-01-02 15:04:05" *)
  tr_Format : W -> string }.
Definition concat_all (l : list string) : string := Join l "".
Definition perlProgram : string := Join [
  "PVE::Notify::warning($ENV{N5FANGOV_TEMPLATE},";
  "  { title => $ENV{N5FANGOV_TITLE}, message => $ENV{N5FANGOV_MSG},";
  "    hostname => $ENV{N5FANGOV_HOST}, when => $ENV{N5FANGOV_WHEN} },";
  concat_all ["  { type => "; in_quotes "n5-fangov"; ", hostname => $ENV{N5FANGOV_HOST}, kind => $ENV{N5FANGOV_TITLE} });"]] newline.
(** The host name up to its first dot. *)
Definition hostname (h : option string) : string :=
  match h with
  | None => "host"
  | Some h =>
      if String.eqb h "" then "host"
      else match Index h "." with Some (S i) => slice h 0 (S i) | _ => h end
  end.

Section Deliver.
Context {W : Type} {T : Transport W}.
(** [Hostname] of the sinks, the program's version; scheme and host as [url.String] writes
    them, and the escaped path, None where [url.Parse] refuses. *)
Variable (host version : string) (urlBare : string -> option (string * string)).

Definition RedactURL (u : string) : string :=
  match urlBare u with None => redactRaw u | Some (base, path) => String.append base (redactPath path) end.
Definition redact_err (txt full : string) : string := redactErr txt full (RedactURL full).
Definition log_line (words : list string) : M W unit := fun w => (tt, tr_Printf (concat_all words) w).
Definition sent_via (kind via msg : string) : M W unit := log_line ["ALERT["; kind; "] sent via "; via; ": "; msg].
(** [context.WithTimeout] over a context with that much time left (None: no deadline). *)
Definition with_timeout (ctx : option Z) : Z := match ctx with None => Timeout | Some rest => Z.min rest Timeout end.
Definition failed (what : string) (r : option string * string) : option string :=
  match r with (None, _) => None | (Some e, out) => Some (concat_all [what; " failed: "; e; ": "; TrimSpace out]) end.

Definition pve_command (limit : Z) (kind msg now : string) : Command :=
  mkCommand "perl" ["-MPVE::Notify"; "-e"; perlProgram]
    [("N5FANGOV_TEMPLATE", Template); ("N5FANGOV_TITLE", kind); ("N5FANGOV_MSG", msg); ("N5FANGOV_HOST", host); ("N5FANGOV_WHEN", now)]
    "" limit WaitDelay.
Definition pve_SendCtx (ctx : option Z) (kind msg : string) : M W (option string) :=
  let '(kind, msg) := (ASCII kind, ASCII msg) in
  sent_via kind "pve-notify" msg ;;;
  let* now := (fun w => (tr_Format w, w)) in
  let* r := tr_Run (pve_command (with_timeout ctx) kind msg now) in
  ret (failed "PVE::Notify" r).
Definition mail_command (to : string) (limit : Z) (kind msg now : string) : Command :=
  mkCommand "mail" ["-s"; concat_all ["["; host; "] n5-fangov: "; kind]; "--"; to] []
    (Join [concat_all ["n5-fangov on "; host; " reports:"]; ""; msg; ""; concat_all ["Time: "; now]; ""] newline) limit WaitDelay.
Definition mail_SendCtx (to : string) (ctx : option Z) (kind msg : string) : M W (option string) :=
  let '(kind, msg) := (ASCII kind, ASCII msg) in
  sent_via kind "mail" msg ;;;
  let* now := (fun w => (tr_Format w, w)) in
  let* r := tr_Run (mail_command (if String.eqb to "" then "root" else to) (with_timeout ctx) kind msg now) in
  ret (failed "mail" r).
(** Encoding the payload cannot fail: it holds texts and a number. *)
Definition webhook_post (url format : string) (limit : Z) (kind msg : string) (now : Z) : Post :=
  let title := concat_all ["n5-fangov "; kind; " on "; host] in
  let '(ctype, body) :=
    if String.eqb format FormatText then ("text/plain; charset=utf-8", PText msg)
    else ("application/json", PJson (mkPayload "n5-fangov" kind "warning" host title msg now)) in
  mkPost url [("Content-Type", ctype); ("User-Agent", String.append "n5-fangov/" version); ("X-N5-Fangov-Kind", kind); ("Title", title)] body limit.
Definition webhook_SendCtx (url format : string) (ctx : option Z) (kind msg : string) : M W (option string) :=
  let '(kind, msg) := (ASCII kind, ASCII msg) in
  sent_via kind "webhook" msg ;;;
  let* now := (fun w => (tr_Unix w, w)) in
  match tr_NewRequest url with
  | Some e => ret (Some (concat_all ["webhook: "; RedactURL url; ": "; redact_err e url]))
  | None =>
      let* r := tr_Do (webhook_post url format (with_timeout ctx) kind msg now) in
      ret match r with
          | inl e => Some (concat_all ["webhook: "; RedactURL url; ": "; redact_err e url])
          | inr (code, status) =>
              if negb (Z.quot code 100 =? 2) then Some (concat_all ["webhook: "; RedactURL url; ": HTTP "; status]) else None
          end
  end.
(** [sendCtx] on every sink of the program; [Off] does not convert the texts. *)
Definition sendCtx (ctx : option Z) (s : Sink) (kind msg : string) : M W (option string) :=
  match s with
  | SOff => log_line ["ALERT["; kind; "] suppressed (transport off): "; msg] ;;; ret None
  | SLog => sent_via (ASCII kind) "log" (ASCII msg) ;;; ret None
  | SWebhook url format => webhook_SendCtx url format ctx kind msg
  | SPVE => pve_SendCtx ctx kind msg
  | SMail to => mail_SendCtx to ctx kind msg
  end.
(** [Alert] of a sink: the failure is logged. *)
Definition sink_Alert (s : Sink) (kind msg : string) : M W unit :=
  let* e := sendCtx None s kind msg in
  match e with None => ret tt | Some e => log_line ["alert: "; e] end.
(** [Multi]: every member in order. *)
Definition multi_Alert (l : list Sink) (kind msg : string) : M W unit := iterM (fun s => sink_Alert s kind msg) l.
Definition multi_Name (l : list Sink) : string := Join (map Effective l) "+".
(** [Swappable]: None before the first [Set]. *)
Definition swappable_Name (t : option Sink) : string := match t with None => "none" | Some s => Effective s end.
Definition swappable_Alert (t : option Sink) (kind msg : string) : M W unit :=
  match t with None => ret tt | Some s => sink_Alert s kind msg end.
Definition swappable_SendCtx (ctx : option Z) (t : option Sink) (kind msg : string) : M W (option string) :=
  match t with None => ret (Some "no alert sink configured") | Some s => sendCtx ctx s kind msg end.

(** [SendCtx] of the ring over a [Swappable]: the time is read before the delivery;
    [mirror_ok] says whether the file can be written when it ends. *)
Variable (mirror_ok : W -> bool).
Definition ring_SendCtx (ctx : option Z) (t : option Sink) (kind msg : string) : M (Ring * W) (option string) := fun '(g, w) =>
  let ts := tr_Unix w in
  let '(err, w) := swappable_SendCtx ctx t kind msg w in
  (err, (record (mirror_ok w) (mkRec 0 ts kind msg (default "" err) 0 "") g, w)).
Definition ring_Alert (t : option Sink) (kind msg : string) : M (Ring * W) unit := fun s =>
  let '(err, (g, w)) := ring_SendCtx None t kind msg s in
  match err with None => (tt, (g, w)) | Some e => (tt, (g, tr_Printf (concat_all ["alert: "; e]) w)) end.
End Deliver.

(** ** The notification templates *)
Definition TemplatePath : string := "/etc/pve/notification-templates/default".
(** The two embedded files, by name. *)
Definition TemplateFiles : list (string * string) :=
  [("n5-fangov-body.txt.hbs", Join ["n5-fangov (fan controller) on {{hostname}} reports:"; ""; "{{message}}"; ""; "Time: {{when}}"; ""] newline);
   ("n5-fangov-subject.txt.hbs", "[{{hostname}}] n5-fangov: {{title}}")].
Inductive ProbeReason := TOk | TNoPVE | TNoDir (dir : string) | TNotDir (dir : string) | TNotWritable (dir : string) | TProbeStays (dir : string).
Definition template_text (w : Disk) (dir name : string) : option string := f_data <$> dk_files w !! Named (JoinPath [dir; name]).
Definition template_there (w : Disk) (dir : string) : bool := forallb (fun e => bool_decide (is_Some (template_text w dir e.1))) TemplateFiles.
Definition template_current (w : Disk) (dir : string) : bool := forallb (fun e => bool_decide (template_text w dir e.1 = Some e.2)) TemplateFiles.
(** Installed, current, writable and why not.  [pve]: Notify.pm is there; [stat]: None
    without a directory entry, else whether it is a directory. *)
Definition templateStatusIn (dir : string) (pve : bool) (stat : option bool) : M Disk (bool * bool * bool * ProbeReason) := fun w =>
  let no r := (template_there w dir, template_current w dir, false, r) in
  if negb pve then (no TNoPVE, w)
  else match stat with
  | None => (no (TNoDir dir), w)
  | Some false => (no (TNotDir dir), w)
  | Some true =>
      let (t, w1) := os_CreateTemp (JoinPath [dir; ".n5-fangov-probe-"]) w in
      match t with
      | None => (no (TNotWritable dir), w1)
      | Some t =>
          let (ok, w2) := (os_Close ;;; os_Remove t) w1 in
          (if ok then (template_there w dir, template_current w dir, true, TOk) else no (TProbeStays dir), w2)
      end
  end.
Inductive InstallErr := IUnsupported | IMkdir | IWrite (path : string).
(** The mode is widened if that works. *)
Definition writeTemplate (path data : string) : M Disk bool :=
  let* ok := WriteAtomic path data ModeKeep in
  if ok then os_Chmod (Named path) 416 ;;; ret true else ret false.
Fixpoint install_loop (dir : string) (l : list (string * string)) : M Disk (InstallErr + string) :=
  match l with
  | [] => ret (inr dir)
  | (name, data) :: l' =>
      let* ok := writeTemplate (JoinPath [dir; name]) data in
      if ok then install_loop dir l' else ret (inl (IWrite (JoinPath [dir; name])))
  end.
Definition installTemplateIn (dir : string) (pve : bool) : M Disk (InstallErr + string) :=
  if negb pve then ret (inl IUnsupported)
  else
    let* ok := os_MkdirAll in
    if negb ok then ret (inl IMkdir) else install_loop dir TemplateFiles.

(** ** The alert manager *)
Definition alertKinds : list (string * string) := [
    ("sensor", "a channel's sensor is unresolved, unreadable, implausible or frozen; the channel sits at its safe duty");
    ("stall", "a fan reports 0 RPM at a duty that should turn it; the channel goes to 255");
    ("temp", "a channel reached its critical temperature; 255 immediately");
    ("ceiling", "a channel reached the built-in ceiling of its sensor kind (HDD 65, SSD 85, CPU 100 C, or a lower configured one); 255 until it is 3 C below, whatever critical says");
    ("emergency", "a channel stayed at its ceiling for emergency_cycles cycles with a stalled fan (or 3x as long regardless) and the emergency hook ran; the message carries the exit status");
    ("write", "repeated pwm write or read-back errors; every channel at 255 (failsafe)");
    ("config", "the config file has problems; built-in defaults are in effect for those values");
    ("config-channels", "the channel set was corrected (N5 Pro channel added, forced stop duty, pwm the device lacks)");
    ("restart", "the unit failed and systemd restarted it (onfailure)");
    ("failed", "the unit failed and did not come back (onfailure)");
    ("kernel", "a kernel the box can boot into lacks the DKMS fan driver module (apt hook)");
    ("tls", "the configured certificate pair could not be served; the automatic one is in use");
    ("device", "the fan controller stopped accepting writes for several cycles; the daemon restarts to re-detect it");
    ("profile", "no fan controller was detected at start; nothing is regulated, fans stay in BIOS/EC control");
    ("driver", "on a board the N5 fan driver writes on, the driver is loaded read-only (pwm nodes hidden) or missing (module not installed, not built for this kernel, or not loaded); nothing is regulated, fans stay in EC control");
    ("start", "the controller could not be set up at start, or the daemon runs without its pwm writer lock (see the journal)");
    ("web", "the web UI listener could not be started (TLS setup or bind failed); the CLI socket keeps working");
    ("schedule", "a scheduled preset switch failed (preset missing, invalid, write or reload error); the previous curves stay");
    ("test", "a test alert sent from the dashboard or `n5-fangov alerts test`")].
Definition templateProbeEvery : Z := 10 * Minute.
Definition testDeliveryLimit : Z := 20 * Second.
Record TemplateStatus := mkTemplateStatus { ts_Installed : bool; ts_Current : bool; ts_Writable : bool; ts_Path : string; ts_Reason : ProbeReason }.
(** [Cooldown] is the duration itself; the panel shows it as text and in seconds. *)
Record AlertStatus := mkStatus {
  st_Transport : string; st_Effective : string; st_MailTo : string; st_WebhookURL : string; st_WebhookFormat : string;
  st_PVE : bool; st_Mail : bool; st_Template : TemplateStatus; st_Cooldown : Z; st_CooldownS : Z; st_Kinds : list (string * string) }.
#[export] Instance eta_Status : Eta AlertStatus := fun s =>
  mkStatus (st_Transport s) (st_Effective s) (st_MailTo s) (st_WebhookURL s) (st_WebhookFormat s) (st_PVE s) (st_Mail s) (st_Template s)
    (st_Cooldown s) (st_CooldownS s) (st_Kinds s).
(** The manager with its ring, the cached probe, whether a test is being delivered, and the
    world. *)
Record panel (W : Type) := mkPanel {
  pn_mgr : alertManager; pn_ring : Ring; pn_tmpl : option (Z * TemplateStatus); pn_testing : bool; pn_world : W }.
Arguments mkPanel {W}. Arguments pn_mgr {W}. Arguments pn_ring {W}. Arguments pn_tmpl {W}. Arguments pn_testing {W}. Arguments pn_world {W}.
#[export] Instance eta_panel W : Eta (panel W) := fun s => mkPanel (pn_mgr s) (pn_ring s) (pn_tmpl s) (pn_testing s) (pn_world s).
(** The log line of a new transport names its target. *)
Definition transportNote (red : string -> string) (a : ConfigTypes.Alert) : string :=
  if String.eqb (a_Transport a) "mail" || String.eqb (a_Transport a) "auto" then String.append ", mail_to " (a_MailTo a)
  else if String.eqb (a_Transport a) "webhook" then concat_all [", webhook "; red (a_WebhookURL a); " ("; a_WebhookFormat a; ")"]
  else "".

Inductive TestErr := TBusy | TFailed (e : string).
(** What the panel's endpoints need ([web.AlertMgr], [web.AlertAcker]); an error of
    [Configure] says whether it is one of the store. *)
Record Acker (S : Type) := mkAcker { ak_Ack : list Z -> string -> M S (Z * list Z); ak_AckUpTo : Z -> string -> M S Z; ak_Open : S -> Z }.
Arguments mkAcker {S}. Arguments ak_Ack {S}. Arguments ak_AckUpTo {S}. Arguments ak_Open {S}.
Record AlertMgr (S : Type) := mkMgr {
  mg_Status : M S AlertStatus; mg_Recent : Z -> S -> list Rec; mg_Last : option (S -> gmap string Z); mg_Test : M S (string * option TestErr);
  mg_InstallTemplate : M S (InstallErr + string); mg_Configure : AlertSettings -> M S (bool + AlertStatus); mg_Acker : option (Acker S) }.
Arguments mkMgr {S}. Arguments mg_Status {S}. Arguments mg_Recent {S}. Arguments mg_Last {S}. Arguments mg_Test {S}.
Arguments mg_InstallTemplate {S}. Arguments mg_Configure {S}. Arguments mg_Acker {S}.

Section Manager.
Context {W : Type} {T : Transport W} {Fs : Files W} {Prim : Type} `{!Toml Prim} {U : Url}.
Variable (env : string) (Decode : string -> string + Doc Prim) (cfgPath : string) (p : tlsPin).
(** [host] of the sinks and [raw_host] of the test's text, both from [os.Hostname]; the tools
    the box has; the probe and the installation of the templates; the clock; the cooldown in
    effect, None offline. *)
Variable (host raw_host version : string) (urlBare : string -> option (string * string)) (mirror_ok : W -> bool) (available : W -> bool * bool).
Variable (probe : M W (bool * bool * bool * ProbeReason)) (install : M W (InstallErr + string)) (now : W -> Z) (cooldown : option (W -> Z)).
Local Abbreviation panel := (panel W).

Definition effective (s : panel) : string := Effective (am_sink (pn_mgr s)).
Definition templateStatus : M panel TemplateStatus := fun s =>
  let t := now (pn_world s) in
  match pn_tmpl s with
  | Some (at_, ts) =>
      if (templateProbeEvery <=? t - at_) || (t <? at_) then
        let '((inst, cur, wr, reason), w) := probe (pn_world s) in
        let ts := mkTemplateStatus inst cur wr TemplatePath reason in (ts, s <| pn_tmpl := Some (t, ts) |> <| pn_world := w |>)
      else (ts, s)
  | None =>
      let '((inst, cur, wr, reason), w) := probe (pn_world s) in
      let ts := mkTemplateStatus inst cur wr TemplatePath reason in (ts, s <| pn_tmpl := Some (t, ts) |> <| pn_world := w |>)
  end.
Definition invalidateTemplate (s : panel) : panel := s <| pn_tmpl := None |>.
Definition Status : M panel AlertStatus := fun s =>
  let cur := am_cur (pn_mgr s) in
  let eff := effective s in
  let '(pve, mail) := available (pn_world s) in
  let cool := match cooldown with None => 0 | Some c => c (pn_world s) end in
  let '(tmpl, s) := templateStatus s in
  (mkStatus (a_Transport cur) eff (a_MailTo cur) (a_WebhookURL cur) (a_WebhookFormat cur) pve mail tmpl cool (Z.quot cool Second) alertKinds, s).
(** A test in three steps, between which other requests run: taking the lock, delivering,
    giving it back. *)
Definition test_begin : M panel bool := fun s => if pn_testing s then (false, s) else (true, s <| pn_testing := true |>).
Definition test_end : M panel unit := fun s => (tt, s <| pn_testing := false |>).
Definition test_text (now : string) : string :=
  concat_all ["test alert from n5-fangov "; version; " on "; raw_host; " at "; now; " - delivery works if you can read this."].
Definition test_send : M panel (option string) := fun s =>
  let '(e, (g, w)) := ring_SendCtx host version urlBare mirror_ok (Some testDeliveryLimit) (Some (am_sink (pn_mgr s))) "test"
                        (test_text (tr_Format (pn_world s))) (pn_ring s, pn_world s) in
  (e, s <| pn_ring := g |> <| pn_world := w |>).
Definition Test_alert : M panel (string * option TestErr) := fun s =>
  let eff := effective s in
  let '(free, s) := test_begin s in
  if negb free then ((eff, Some TBusy), s)
  else
    let '(e, s) := test_send s in
    let '(_, s) := test_end s in ((eff, TFailed <$> e), s).
Definition InstallTemplate : M panel (InstallErr + string) := fun s =>
  let '(r, w) := install (pn_world s) in (r, invalidateTemplate (s <| pn_world := w |>)).
(** The tools are looked for once. *)
Definition apply_logged (a : ConfigTypes.Alert) (s : panel) : panel :=
  if bool_decide (a = am_cur (pn_mgr s)) then s
  else
    let '(pve, mail) := available (pn_world s) in
    let m := newAlertManager pve mail a in
    s <| pn_mgr := m |> <| pn_world := tr_Printf (concat_all ["alerts: transport "; a_Transport a; " ("; Effective (am_sink m); ")"; transportNote (RedactURL urlBare) a]) (pn_world s) |>.
Definition Configure_panel (st : AlertSettings) : M panel (bool + AlertStatus) := fun s =>
  let '(res, w) := editConfig env Decode cfgPath p (alert_edit env Decode (pn_mgr s) st) (fun a cfg => bool_decide (c_Alert cfg = a)) (pn_world s) in
  let s := s <| pn_world := w |> in
  match res with
  | inl e => (inl (isStoreError e), s)
  | inr (inl e) => (inl false, s)
  | inr (inr a) => let '(st, s) := Status (invalidateTemplate (apply_logged a s)) in (inr st, s)
  end.
Definition Ack_panel (ids : list Z) (by_ : string) : M panel (Z * list Z) := fun s =>
  let '(r, g) := Ack (mirror_ok (pn_world s)) (tr_Unix (pn_world s)) ids by_ (pn_ring s) in (r, s <| pn_ring := g |>).
Definition AckUpTo_panel (upTo : Z) (by_ : string) : M panel Z := fun s =>
  let '(n, g) := AckUpTo (mirror_ok (pn_world s)) (tr_Unix (pn_world s)) upTo by_ (pn_ring s) in (n, s <| pn_ring := g |>).
Definition alert_mgr : AlertMgr panel :=
  mkMgr Status (fun n s => Recent n (pn_ring s)) (Some (fun s => Last (pn_ring s))) Test_alert InstallTemplate Configure_panel
    (Some (mkAcker Ack_panel AckUpTo_panel (fun s => Open (pn_ring s)))).
End Manager.

(** ** The endpoints *)
(** What GET /api/alerts sends; [ad_open] only with an acknowledging manager. *)
Record AlertsDoc := mkDoc { ad_status : AlertStatus; ad_last : gmap string Z; ad_recent : list Rec; ad_open : option Z }.
Inductive AckAnswer := AckStatus (status : Z) | AckUnknown (ids : list Z) | AckDone (acked open : Z).
Definition maxAckIDs : Z := RingSize.
Definition ackSource (c : Caller) : string :=
  match ca_Via c with
  | ViaSocket => "cli"
  | ViaBearer => String.append "token:" (ca_User c)
  | _ => if String.eqb (ca_User c) "" then "user" else String.append "user:" (ca_User c)
  end.
(** The later stamp of two. *)
Definition later (last l : gmap string Z) : gmap string Z :=
  map_fold (fun k v out => if default 0 (out !! k) <? v then <[k := v]> out else out) last l.

Section Endpoints.
Context {S : Type}.
(** [deps.Alerts] and the alert stamps of [deps.Service], None for nil. *)
Variable (urlBare : string -> option (string * string)) (mgr : option (AlertMgr S)) (stamps : option (S -> gmap string Z)).
Definition alertStatusJSON (st : AlertStatus) (c : Caller) : AlertStatus :=
  if bool_decide (ca_Via c = ViaBearer) then st <| st_WebhookURL := RedactURL urlBare (st_WebhookURL st) |> else st.
Definition getAlerts (c : Caller) : M S (Z + AlertsDoc) := fun s =>
  match mgr with
  | None => (inl 501, s)
  | Some m =>
      let '(st, s) := mg_Status m s in
      let last := match stamps with None => ∅ | Some f => f s end in
      let last := match mg_Last m with None => last | Some f => later last (f s) end in
      (inr (mkDoc (alertStatusJSON st c) last (mg_Recent m 50 s) ((fun a => ak_Open a s) <$> mg_Acker m)), s)
  end.
(** The body: ids, all, up_to. *)
Definition alertsAck (c : Caller) (body : Body (list Z * bool * Z)) : M S AckAnswer := fun s =>
  match mgr with
  | None => (AckStatus 501, s)
  | Some m =>
      match mg_Acker m, body with
      | None, _ => (AckStatus 501, s)
      | Some _, Bad status => (AckStatus status, s)
      | Some a, Decoded (ids, all, upTo) =>
          let by_ := ackSource c in
          if all && negb (length ids =? 0)%nat then (AckStatus 400, s)
          else if all then
            if upTo =? 0 then (AckStatus 400, s)
            else let '(n, s) := ak_AckUpTo a upTo by_ s in (AckDone n (ak_Open a s), s)
          else if (length ids =? 0)%nat then (AckStatus 400, s)
          else if maxAckIDs <? Z.of_nat (length ids) then (AckStatus 400, s)
          else
            let '((n, unknown), s) := ak_Ack a ids by_ s in
            match unknown with
            | _ :: _ => (AckUnknown unknown, s)
            | [] => (AckDone n (ak_Open a s), s)
            end
      end
  end.
(** The status, the transport and the error. *)
Definition alertsTest : M S (Z * option string * option TestErr) := fun s =>
  match mgr with
  | None => ((501, None, None), s)
  | Some m =>
      let '((transport, e), s) := mg_Test m s in
      (match e with
       | Some TBusy => (409, Some transport, e)
       | Some (TFailed _) => (502, Some transport, e)
       | None => (200, Some transport, e)
       end, s)
  end.
Definition alertsTemplate : M S (Z + string) := fun s =>
  match mgr with
  | None => (inl 501, s)
  | Some m =>
      let '(r, s) := mg_InstallTemplate m s in
      (match r with inr path => inr path | inl IUnsupported => inl 501 | inl _ => inl 500 end, s)
  end.
Definition putAlerts (c : Caller) (body : Body AlertSettings) : M S (Z + AlertStatus) := fun s =>
  match mgr with
  | None => (inl 501, s)
  | Some m =>
      match body with
      | Bad status => (inl status, s)
      | Decoded b =>
          let '(r, s) := mg_Configure m b s in
          (match r with inl store => inl (if store : bool then 500 else 400) | inr st => inr (alertStatusJSON st c) end, s)
      end
  end.
End Endpoints.

(** ** Facts: acknowledging *)
(** Open, and of a number that is asked for. *)
Definition sel (P : Z -> bool) (r : Rec) : bool := P (r_ID r) && (r_AckTS r =? 0).
Definition ack_all (P : Z -> bool) (ts : Z) (by_ : string) (recs : list Rec) : list Rec := map (fun r => if sel P r then ack_rec ts by_ r else r) recs.
Definition cnt (P : Z -> bool) (recs : list Rec) : Z := Z.of_nat (length (List.filter (sel P) recs)).
Lemma cnt_app P l1 l2 : cnt P (l1 ++ l2) = cnt P l1 + cnt P l2.
Proof. unfold cnt. rewrite List.filter_app, length_app. lia. Qed.
Lemma cnt_cons P r l : cnt P (r :: l) = (if sel P r then 1 else 0) + cnt P l.
Proof. unfold cnt. cbn [List.filter]. destruct (sel P r); cbn [length]; lia. Qed.
Lemma ack_ext P Q ts b l : (forall r, r ∈ l -> sel P r = sel Q r) -> ack_all P ts b l = ack_all Q ts b l /\ cnt P l = cnt Q l.
Proof.
  intros H. induction l as [|r l IH]; [done|]. destruct IH as [IH1 IH2]; [by intros; apply H; right|].
  rewrite !cnt_cons, (H r), IH2 by by left. split; [|done]. unfold ack_all in *. cbn [map]. by rewrite (H r), IH1 by by left.
Qed.
Lemma index_from_spec recs i id j : index_from recs i id = Some j -> exists l1 r l2, recs = l1 ++ r :: l2 /\ r_ID r = id /\ j = (i + length l1)%nat.
Proof.
  revert i. induction recs as [|r recs IH]; intros i; [done|]. cbn. destruct (index_from recs (S i) id) as [k|] eqn:E.
  - intros [= <-]. apply IH in E as (l1 & r' & l2 & -> & Hr & ->). exists (r :: l1), r', l2. split; [done|]. split; [done|]. cbn. lia.
  - destruct (Z.eqb_spec (r_ID r) id); [|done]. intros [= <-]. exists [], r, recs. split; [done|]. split; [done|]. cbn. lia.
Qed.
Lemma index_from_none recs i id : index_from recs i id = None -> id ∉ map r_ID recs.
Proof.
  revert i. induction recs as [|r recs IH]; intros i; cbn; [by intros _ ?%not_elem_of_nil|]. destruct (index_from recs (S i) id) eqn:E; [done|].
  destruct (Z.eqb_spec (r_ID r) id); [done|]. intros _ [H|H]%elem_of_cons; [by subst|by apply (IH (S i))].
Qed.
Definition also (id : Z) (P : Z -> bool) (n : Z) : bool := (n =? id) || P n.
Lemma ack_one_sel recs ts b P id i : ts <> 0 -> NoDup (map r_ID recs) -> idx recs id = Some i ->
  ack_one recs ts b (ack_all P ts b recs, cnt P recs) id = (ack_all (also id P) ts b recs, cnt (also id P) recs).
Proof.
  intros Hts Hnd Hi. unfold ack_one. rewrite Hi. apply index_from_spec in Hi as (l1 & r & l2 & -> & Hr & ->). cbn [fst snd plus].
  rewrite map_app in Hnd. apply NoDup_app in Hnd as (_ & Hd & Hnd). cbn [map] in Hnd. apply NoDup_cons in Hnd as [Hn2 _].
  assert (Hother : forall l, id ∉ map r_ID l -> ack_all P ts b l = ack_all (also id P) ts b l /\ cnt P l = cnt (also id P) l).
  { intros l Hl. apply ack_ext. intros r' Hin. unfold sel, also. destruct (Z.eqb_spec (r_ID r') id) as [E|E]; [|done]. exfalso. apply Hl. rewrite <- E. by apply list_elem_of_fmap_2. }
  assert (Hn1 : id ∉ map r_ID l1) by (intros Hin; apply (Hd _ Hin); cbn; rewrite Hr; by left). rewrite Hr in Hn2.
  destruct (Hother _ Hn1) as [A1 C1], (Hother _ Hn2) as [A2 C2].
  assert (Hlen : length (ack_all P ts b l1) = length l1) by (unfold ack_all; by rewrite length_map).
  assert (Happ : forall Q l l', ack_all Q ts b (l ++ l') = ack_all Q ts b l ++ ack_all Q ts b l') by (intros; apply map_app).
  rewrite !Happ, !cnt_app, !cnt_cons. cbn [ack_all map]. rewrite list_lookup_middle by done. fold (ack_all P ts b l2) (ack_all (also id P) ts b l2).
  rewrite <- A1, <- A2, <- C1, <- C2. replace (sel (also id P) r) with (r_AckTS r =? 0) by (unfold sel, also; by rewrite Hr, Z.eqb_refl).
  replace (sel P r) with (P id && (r_AckTS r =? 0)) by (unfold sel; by rewrite Hr). apply Z.eqb_neq in Hts. unfold ack_rec.
  destruct (r_AckTS r =? 0) eqn:E; [|by rewrite andb_false_r, E]. rewrite andb_true_r. destruct (P id).
  - destruct r. cbn in E |- *. by rewrite Hts.
  - rewrite E. rewrite insert_app_r_alt, Hlen, Nat.sub_diag by lia. cbn [insert list_insert]. f_equal. lia.
Qed.
Definition has (ids : list Z) (n : Z) : bool := existsb (Z.eqb n) ids.
Lemma acks_sel recs ts b ids P : ts <> 0 -> NoDup (map r_ID recs) -> Forall (fun id => is_Some (idx recs id)) ids ->
  fold_left (ack_one recs ts b) ids (ack_all P ts b recs, cnt P recs) =
  (ack_all (fun n => has ids n || P n) ts b recs, cnt (fun n => has ids n || P n) recs).
Proof.
  intros Hts Hnd HF. revert P. induction HF as [|id ids [i Hi] _ IH]; intros P; [done|]. cbn [fold_left]. rewrite (ack_one_sel recs ts b P id i) by done. rewrite IH.
  destruct (ack_ext (fun n => has ids n || also id P n) (fun n => has (id :: ids) n || P n) ts b recs) as [-> ->]; [|done].
  intros r _. unfold sel, also. cbn [has existsb]. f_equal. rewrite orb_assoc. f_equal. apply orb_comm.
Qed.
Lemma none_sel ts b recs : ack_all (fun _ => false) ts b recs = recs /\ cnt (fun _ => false) recs = 0.
Proof. induction recs as [|r recs [IH1 IH2]]; [done|]. rewrite cnt_cons, IH2. split; [|done]. unfold ack_all in *. cbn [map]. by rewrite IH1. Qed.
(** The ring with the records marked, the rest as it was. *)
Definition acked_ring (P : Z -> bool) (ts : Z) (b : string) (g g' : Ring) : Prop :=
  g_recs g' = ack_all P ts b (g_recs g) /\ g_lastID g' = g_lastID g.
Lemma saveLocked_frame ok g : g_recs (saveLocked ok g) = g_recs g /\ g_lastID (saveLocked ok g) = g_lastID g.
Proof. unfold saveLocked. by destruct (g_mirror g), ok, g. Qed.
Lemma Ack_sel ok ts ids b g : ts <> 0 -> NoDup (map r_ID (g_recs g)) ->
  let '((n, unknown), g') := Ack ok ts ids b g in
  match unknown with
  | [] => acked_ring (has ids) ts b g g' /\ n = cnt (has ids) (g_recs g) /\ Forall (fun id => id ∈ map r_ID (g_recs g)) ids
  | _ => g' = g /\ forall id, id ∈ unknown -> id ∈ ids /\ id ∉ map r_ID (g_recs g)
  end.
Proof.
  intros Hts Hnd. unfold Ack. set (f := fun id => bool_decide (idx (g_recs g) id = None)). destruct (List.filter f ids) as [|u us] eqn:Ef.
  - assert (HF : Forall (fun id => is_Some (idx (g_recs g) id)) ids).
    { apply Forall_forall. intros id Hin. destruct (idx (g_recs g) id) eqn:E; [by eexists|]. assert (H : In id (List.filter f ids)); [|by rewrite Ef in H].
      apply List.filter_In. split; [by apply list_elem_of_In|by apply bool_decide_eq_true]. }
    pose proof (acks_sel (g_recs g) ts b ids (fun _ => false) Hts Hnd HF) as H. destruct (none_sel ts b (g_recs g)) as [H1 H2]. rewrite H1, H2 in H. rewrite H. clear H.
    destruct (ack_ext (fun n => has ids n || false) (has ids) ts b (g_recs g)) as [-> ->]; [intros; unfold sel; by rewrite orb_false_r|].
    split; [|split; [done|]].
    + unfold acked_ring. destruct (0 <? _); [destruct (saveLocked_frame ok (g <| g_recs := ack_all (has ids) ts b (g_recs g) |>)) as [-> ->]|]; by destruct g.
    + eapply Forall_impl; [exact HF|]. intros id [i Hi]. apply index_from_spec in Hi as (l1 & r & l2 & -> & <- & _). rewrite map_app. apply elem_of_app. right. by left.
  - split; [done|]. intros id Hin. rewrite <- Ef in Hin. apply list_elem_of_In, List.filter_In in Hin as [Hin Hn%bool_decide_eq_true]. split; [by apply list_elem_of_In|].
    by apply (index_from_none _ 0).
Qed.
Lemma AckUpTo_sel ok ts u b g : let '(n, g') := AckUpTo ok ts u b g in acked_ring (fun n => n <=? u) ts b g g' /\ n = cnt (fun n => n <=? u) (g_recs g).
Proof.
  unfold AckUpTo. split; [|done]. unfold acked_ring. destruct (0 <? _);
    [match goal with |- context [saveLocked ok ?x] => destruct (saveLocked_frame ok x) as [-> ->] end|]; by destruct g.
Qed.
Lemma Open_acked P ts b g g' : ts <> 0 -> acked_ring P ts b g g' -> Open g' = Open g - cnt P (g_recs g).
Proof.
  intros Hts [H _]. unfold Open. rewrite H. generalize (g_recs g) as l. clear H. induction l as [|r l IH]; [done|]. rewrite cnt_cons. cbn [ack_all map List.filter].
  fold (ack_all P ts b l). destruct (sel P r) eqn:Es.
  - unfold sel in Es. apply andb_true_iff in Es as [_ E]. unfold ack_rec. rewrite E. destruct r. cbn. rewrite (proj2 (Z.eqb_neq _ _) Hts). cbn [length]. lia.
  - destruct (r_AckTS r =? 0); cbn [length]; lia.
Qed.
Lemma ids_nodup l last : ids_upto l last -> NoDup (map r_ID l).
Proof. intros (-> & _). apply NoDup_seqZ. Qed.

Section Panel_facts.
Context {W : Type} {T : Transport W} {Fs : Files W} {Prim : Type} `{!Toml Prim} {U : Url}.
Variable (env : string) (Decode : string -> string + Doc Prim) (cfgPath : string) (p : tlsPin).
Variable (host raw_host version : string) (urlBare : string -> option (string * string)) (mirror_ok : W -> bool) (available : W -> bool * bool).
Variable (probe : M W (bool * bool * bool * ProbeReason)) (install : M W (InstallErr + string)) (now : W -> Z) (cooldown : option (W -> Z)).
Local Abbreviation mgr := (alert_mgr env Decode cfgPath p host raw_host version urlBare mirror_ok available probe install now cooldown).

(** An acknowledgement over the network marks exactly the open records it names - by number,
    or all up to the newest number the caller saw - with the time and the caller, counts
    them, and touches nothing else: no other record, no delivery, no setting.  An answer
    other than success marks nothing; an unknown number refuses the whole request. *)
Theorem ack_request (c : Caller) (body : Body (list Z * bool * Z)) (s : panel W) (ts := tr_Unix (pn_world s))
  (Hring : ids_upto (g_recs (pn_ring s)) (g_lastID (pn_ring s))) (Hts : ts <> 0) :
  let '(a, s') := alertsAck (Some mgr) c body s in
  match a with
  | AckDone acked open =>
      exists P g', s' = s <| pn_ring := g' |> /\ acked_ring P ts (ackSource c) (pn_ring s) g' /\
        acked = cnt P (g_recs (pn_ring s)) /\ open = Open (pn_ring s) - acked /\
        ((exists ids upTo, body = Decoded (ids, false, upTo) /\ P = has ids /\ ids <> [] /\ Z.of_nat (length ids) <= RingSize /\
            Forall (fun id => id ∈ map r_ID (g_recs (pn_ring s))) ids) \/
         (exists upTo, body = Decoded ([], true, upTo) /\ upTo <> 0 /\ P = fun n => n <=? upTo))
  | AckUnknown ids => s' = s /\ ids <> [] /\ forall id, id ∈ ids -> id ∉ map r_ID (g_recs (pn_ring s))
  | AckStatus status => s' = s /\ (status = 400 \/ body = Bad status)
  end.
Proof.
  unfold alertsAck. cbn [alert_mgr mg_Acker]. destruct body as [status|[[ids all] upTo]]; [by auto|]. destruct all; cbn [andb].
  - destruct ids as [|id ids]; [|by split; [|left]]. cbn [length Nat.eqb negb]. destruct (Z.eqb_spec upTo 0) as [|Hu]; [by split; [|left]|].
    cbn [ak_AckUpTo ak_Open]. unfold AckUpTo_panel. pose proof (AckUpTo_sel (mirror_ok (pn_world s)) ts upTo (ackSource c) (pn_ring s)) as H. unfold ts in *.
    destruct (AckUpTo _ _ _ _ _) as [n g']. destruct H as [H ->]. eexists _, g'. split; [done|]. split; [exact H|]. split; [done|].
    split; [by apply (Open_acked _ _ _ _ _ Hts H)|]. right. by exists upTo.
  - destruct ids as [|id ids]; [by split; [|left]|]. cbn [length Nat.eqb]. destruct (Z.ltb_spec maxAckIDs (Z.of_nat (S (length ids)))) as [|Hn]; [by split; [|left]|].
    cbn [ak_Ack ak_Open]. unfold Ack_panel. pose proof (Ack_sel (mirror_ok (pn_world s)) ts (id :: ids) (ackSource c) (pn_ring s) Hts (ids_nodup _ _ Hring)) as H. unfold ts in *.
    destruct (Ack _ _ _ _ _) as [[n [|u us]] g'].
    + destruct H as (H & -> & HF). eexists _, g'. split; [done|]. split; [exact H|]. split; [done|]. split; [by apply (Open_acked _ _ _ _ _ Hts H)|]. left. by exists (id :: ids), upTo.
    + destruct H as [-> H]. split; [by destruct s|]. split; [done|]. intros x Hx. by apply H.
Qed.
End Panel_facts.

(** ** What is recorded and shown *)
(** The ring records every alert given to it, with the outcome of this delivery and the time
    it began, and answers with the outcome. *)
Lemma ring_recorded {W} {T : Transport W} host version urlBare mirror_ok ctx t kind msg g w :
  let '(err, (g', w')) := ring_SendCtx host version urlBare mirror_ok ctx t kind msg (g, w) in
  swappable_SendCtx host version urlBare ctx t kind msg w = (err, w') /\
  SendCtx (mirror_ok w') (tr_Unix w) (fun _ _ => err) kind msg g = (err, g').
Proof. unfold ring_SendCtx. by destruct (swappable_SendCtx _ _ _ ctx t kind msg w) as [err w']. Qed.

Lemma redactPath_deep seg rest : Forall (fun d => d <> "/"%char) (chars seg) ->
  redactPath (String.append "/" (String.append seg (String.append "/" rest))) = String.append "/" (String.append seg ellipsis_path).
Proof.
  intros Hs. unfold redactPath. rewrite !chars_app. change (chars "/") with ["/"%char]. cbn [app].
  assert (Hc : cut_first "/" (chars seg ++ "/"%char :: chars rest) = Some (chars seg, chars rest)) by by apply cut_first_app.
  destruct (chars seg ++ "/"%char :: chars rest) as [|x l] eqn:E; [by destruct (chars seg)|]. rewrite Hc.
  change (of_chars ("/"%char :: chars seg)) with (String "/" (of_chars (chars seg))). by rewrite of_chars_chars.
Qed.
(** Of the webhook's address a bearer token is shown scheme, host and the first segment of
    the path: nothing after it, nor the user, the query and the fragment, which are in
    neither part of [urlBare]. *)
Lemma bearer_sees (urlBare : string -> option (string * string)) (st : AlertStatus) (c : Caller) (base seg rest : string) :
  ca_Via c = ViaBearer -> urlBare (st_WebhookURL st) = Some (base, String.append "/" (String.append seg (String.append "/" rest))) ->
  Forall (fun d => d <> "/"%char) (chars seg) ->
  st_WebhookURL (alertStatusJSON urlBare st c) = String.append base (String.append "/" (String.append seg ellipsis_path)).
Proof.
  intros Hc Hu Hs. unfold alertStatusJSON. rewrite bool_decide_eq_true_2 by done. destruct st. cbn [st_WebhookURL] in *. cbn [st_WebhookURL]. cbn.
  unfold RedactURL. rewrite Hu. by rewrite redactPath_deep.
Qed.
(** A second test while one is being delivered is refused, and the lock is given back. *)
Lemma test_once {W} {T : Transport W} host raw_host version urlBare mirror_ok (s : panel W) :
  (pn_testing s = true -> Test_alert host raw_host version urlBare mirror_ok s = ((effective s, Some TBusy), s)) /\
  (pn_testing s = false -> pn_testing (Test_alert host raw_host version urlBare mirror_ok s).2 = false /\
     (test_begin s).1 = true /\ (test_begin (test_begin s).2).1 = false).
Proof.
  unfold Test_alert, test_begin. destruct s as [m g t b w]. cbn [pn_testing]. split; intros ->; cbn [negb]; [done|].
  unfold test_send. destruct (ring_SendCtx _ _ _ _ _ _ _ _ _) as [e [g' w']]. done.
Qed.

(** ** Installing the templates *)
(** Every file is as it was, or it is one of the templates, complete and synced. *)
Definition template_file (dir : string) (q : string) (f : file) : Prop :=
  exists e, e ∈ TemplateFiles /\ q = JoinPath [dir; e.1] /\ f_data f = e.2 /\ f_synced f = true.
Definition templates_only (fs0 : Tree) (dir : string) (fs : Tree) : Prop :=
  forall q, fs !! Named q = fs0 !! Named q \/ exists f, fs !! Named q = Some f /\ template_file dir q f.
Lemma templates_only_final fs0 dir : final_only (templates_only fs0 dir).
Proof. intros fs fs' H Hp q. rewrite H. apply Hp. Qed.
Lemma templates_only_put fs0 dir fs e f : e ∈ TemplateFiles -> f_data f = e.2 -> f_synced f = true ->
  templates_only fs0 dir fs -> templates_only fs0 dir (<[Named (JoinPath [dir; e.1]) := f]> fs).
Proof.
  intros He Hd Hs Hp q. destruct (decide (q = JoinPath [dir; e.1])) as [->|Hne]; [|by rewrite lookup_insert_ne by congruence].
  right. exists f. rewrite lookup_insert_eq. split; [done|]. by exists e.
Qed.
Definition holds (fs : Tree) (dir : string) (e : string * string) : Prop := f_data <$> fs !! Named (JoinPath [dir; e.1]) = Some e.2.
Lemma writeTemplate_spec fs0 dir e w : e ∈ TemplateFiles -> safe (templates_only fs0 dir) w ->
  let '(ok, w') := writeTemplate (JoinPath [dir; e.1]) e.2 w in
  safe (templates_only fs0 dir) w' /\
  (ok = true -> holds (dk_files w') dir e /\ forall q, q <> JoinPath [dir; e.1] -> dk_files w' !! Named q = dk_files w !! Named q).
Proof.
  intros He Hw. set (q0 := JoinPath [dir; e.1]) in *. unfold writeTemplate, bind at 1.
  pose proof (WriteAtomic_safe (templates_only fs0 dir) q0 e.2 ModeKeep w (templates_only_final _ _)) as H1.
  pose proof (WriteAtomic_temps q0 e.2 ModeKeep w) as H2. destruct (WriteAtomic q0 e.2 ModeKeep w) as [ok w1]. cbn [snd] in H1.
  assert (Hs : safe (templates_only fs0 dir) w1) by (apply H1; [apply templates_only_put; [done..|apply Hw]|done]).
  destruct ok; [|by unfold ret]. unfold bind, ret, os_Chmod. set (f := mkFile e.2 (mode_of ModeKeep) true) in *.
  set (up := fun f => f <| f_mode := 416 |>). pose proof (call_safe (templates_only fs0 dir) (alter up (Named q0)) (fun _ => unchanged) w1 Hs) as H3.
  assert (Ha : alter up (Named q0) (dk_files w1) = <[Named q0 := up f]> (dk_files w)) by (by rewrite H2, alter_insert_eq).
  destruct (call (alter up (Named q0)) (fun _ => unchanged) w1) as [b w2] eqn:Ec. cbn [snd] in H3. apply call_run in Ec as [_ Ec].
  split; [apply H3; [|done]; intros _; rewrite Ha; by apply templates_only_put, Hw|]. intros _.
  assert (Hf : exists g, f_data g = e.2 /\ dk_files w2 = <[Named q0 := g]> (dk_files w)).
  { destruct Ec as [[_ ->]|[_ [n ->]]]; [by exists (up f)|by exists f]. }
  destruct Hf as (g & Hg & ->). split; [unfold holds; fold q0; rewrite lookup_insert_eq; cbn; by rewrite Hg|]. intros q Hq. by rewrite lookup_insert_ne by congruence.
Qed.
Lemma install_loop_spec fs0 dir l d w : NoDup (map (fun e => JoinPath [dir; e.1]) (d ++ l)) -> (forall e, e ∈ l -> e ∈ TemplateFiles) ->
  safe (templates_only fs0 dir) w -> Forall (holds (dk_files w) dir) d ->
  let '(r, w') := install_loop dir l w in
  safe (templates_only fs0 dir) w' /\ forall q, r = inr q -> q = dir /\ Forall (holds (dk_files w') dir) (d ++ l).
Proof.
  revert d w. induction l as [|[name data] l IH]; intros d w Hnd Hin Hw Hd; cbn [install_loop].
  { unfold ret. rewrite (app_nil_r d). split; [done|]. by intros q [= <-]. }
  unfold bind. pose proof (writeTemplate_spec fs0 dir (name, data) w (Hin _ ltac:(by left)) Hw) as H. cbn [fst snd] in H.
  destruct (writeTemplate _ data w) as [[|] w1]; destruct H as [Hs H]; [|by unfold ret].
  destruct (H eq_refl) as [Hh Hq]. replace (d ++ (name, data) :: l) with ((d ++ [(name, data)]) ++ l) in * by (by rewrite <- app_assoc).
  apply IH; [done|by intros; apply Hin; right|done|]. apply Forall_app. split; [|by constructor].
  apply Forall_forall. intros e He. rewrite Forall_forall in Hd. unfold holds. rewrite Hq; [by apply Hd|].
  intros Heq. rewrite <- app_assoc, map_app in Hnd. apply NoDup_app in Hnd as (_ & Hx & _). apply (Hx (JoinPath [dir; e.1])); [by apply (list_elem_of_fmap_2 (fun e => JoinPath [dir; e.1]))|].
  rewrite Heq. by left.
Qed.
(** The template pair is installed file by file, each as a whole, whatever fails and wherever
    the machine stops; no other file changes.  Success means that the next probe finds the
    pair installed and current, and only a Proxmox host is touched at all. *)
Theorem install_template (pve : bool) (w : Disk) :
  let '(r, w') := installTemplateIn TemplatePath pve (from_now w) in
  Forall (templates_only (dk_files w) TemplatePath) (dk_seen w') /\
  match r with
  | inr dir => dir = TemplatePath /\ pve = true /\ template_there w' TemplatePath = true /\ template_current w' TemplatePath = true
  | inl IUnsupported => pve = false /\ dk_files w' = dk_files w
  | inl _ => pve = true
  end.
Proof.
  assert (Hw : safe (templates_only (dk_files w) TemplatePath) (from_now w)) by (split; [intros q; by left|constructor]).
  unfold installTemplateIn. destruct pve; cbn [negb]; [|by unfold ret].
  unfold bind. pose proof (Mkdir_quiet _ (templates_only_final (dk_files w) TemplatePath) (from_now w) Hw) as H1.
  destruct (os_MkdirAll (from_now w)) as [[|] w1]; cbn [snd negb] in *; [|by split; [apply H1|]].
  pose proof (install_loop_spec (dk_files w) TemplatePath TemplateFiles [] w1) as H.
  assert (Hr : forall r w', install_loop TemplatePath TemplateFiles w1 = (inl r, w') -> r <> IUnsupported).
  { intros r w'. unfold TemplateFiles. cbn [install_loop]. unfold bind. destruct (writeTemplate _ _ w1) as [[|] w2]; [|by intros [= <- _]].
    destruct (writeTemplate _ _ w2) as [[|] w3]; [done|]. by intros [= <- _]. }
  destruct (install_loop TemplatePath TemplateFiles w1) as [r w'] eqn:E. destruct H as [Hs Hd]; [|done|done|constructor|].
  { apply (bool_decide_unpack _). by vm_compute. }
  split; [apply Hs|]. destruct r as [r|dir]; [specialize (Hr r w' eq_refl); by destruct r|]. destruct (Hd dir eq_refl) as [-> HF].
  split; [done|]. split; [done|]. cbn [app] in HF. rewrite Forall_forall in HF. unfold template_there, template_current, template_text. unfold holds in HF.
  split; apply forallb_forall; intros e He%list_elem_of_In; specialize (HF e He); rewrite HF; by apply bool_decide_eq_true_2.
Qed.

(** ** A box whose receiver cannot be reached *)
Module PanelDemo.
(** The journal. *)
Definition journal : Type := list string.
(** [http.Client] repeats the address as [url.String] writes it, quoted: with the scheme in
    lower case.  The text of a configured address is not changed. *)
Definition as_sent (u : string) : string := if HasPrefix u "HTTPS:" then String.append "https:" (TrimPrefix u "HTTPS:") else u.
#[export] Instance transport : Transport journal := {
  tr_Printf line w := w ++ [line];
  tr_Run c := ret (None, "");
  tr_NewRequest u := None;
  tr_Do r := ret (inl (concat_all ["Post "; in_quotes (as_sent (po_URL r)); ": dial tcp: connection refused"]));
  tr_Unix w := 100;
  tr_Format w := "2026-01-02 03:04:05" }.
#[export] Instance url : Url := fun u => Some (mkURL "https" "gotify.example" "gotify.example" false).
Definition urlBare (u : string) : option (string * string) := Some ("https://gotify.example", "/message").
Definition send (u : string) : option string * (Ring * journal) :=
  ring_SendCtx "nas" "1" urlBare (fun _ => true) None (Some (SWebhook u FormatJSON)) "temp" "hot" (load false None, []).
Definition lower : string := "https://gotify.example/message?token=abc".
Definition upper : string := "HTTPS://gotify.example/message?token=abc".
(** The key in the query is taken out of a failure's text... *)
Example key_redacted : ValidWebhookURL lower = None /\
  (send lower).1 = Some (concat_all ["webhook: https://gotify.example/message: Post "; in_quotes "https://gotify.example/message"; ": dial tcp: connection refused"]).
Proof. by vm_compute. Qed.
(** ... but only where net/http writes the address the way it is configured.  An accepted
    address that it writes differently, here with the scheme in lower case, stays in the
    text as a whole: in the journal, in the record every token may read, in the answer. *)
Example key_leaks : ValidWebhookURL upper = None /\
  match send upper with
  | (Some e, (g, _)) => Contains e "token=abc" = true /\ map r_Error (g_recs g) = [e]
  | _ => False
  end.
Proof. by vm_compute. Qed.
(** An address whose secret is the first segment of the path, as that of an ntfy topic, is
    shown to a token as it is. *)
Example topic_shown : RedactURL (fun _ => Some ("https://ntfy.example", "/secret-topic")) "https://ntfy.example/secret-topic" = "https://ntfy.example/secret-topic".
Proof. by vm_compute. Qed.
Definition one (fs : list Fault) : (InstallErr + string) * Disk := installTemplateIn TemplatePath true (mkDisk ∅ fs ["0"; "1"] []).
Example templates_written : let '(r, w) := one [] in (r, (templateStatusIn TemplatePath true (Some true) w).1) = (inr TemplatePath, (true, true, true, TOk)).
Proof. by vm_compute. Qed.
(** The second file could not be renamed. *)
Example half_written : let '(r, w) := one [Works; Works; Works; Works; Works; Works; Works; Works; Works; Works; Works; Fails 0] in
  (r, (templateStatusIn TemplatePath true (Some true) w).1) = (inl (IWrite (JoinPath [TemplatePath; "n5-fangov-subject.txt.hbs"])), (false, false, true, TOk)).
Proof. by vm_compute. Qed.
End PanelDemo.
